(* ===== verification/_CoqProject ===== *)
-Q . S2P
Prelude.v
PyFloat.v
Text.v
Json.v
JsonSpec.v
JsonBytes.v
Compare.v
Framing.v
Canonical.v
CanonicalSpec.v
EvalEngine.v
EvalEngineSpec.v
Scoring.v
Wire.v
Identity.v
Api.v
ApiSpec.v
Codecs.v
FileSystem.v
Archive.v
ArchiveSpec.v
Workspace.v
Download.v
ProblemClient.v
Supervisor.v
Guard.v
Manifest.v
Feedback.v
Patch.v
Grading.v
GradingSpec.v
Selection.v
Round.v
EvaluateRound.v
EvaluateRoundSpec.v
Protocol.v
ProtocolSpec.v
Live.v
Upload.v
ScoreState.v
Validator.v
Release.v
Runner.v
RunnerSpec.v
Executor.v
ExecutorSpec.v
BatchSpec.v
Writer.v
WriterSpec.v
Orchestrator.v
OrchestratorSpec.v
Diagnostics.v
DiagnosticsSpec.v
FeedbackSender.v
MinerText.v
Miner.v
MinerSpec.v
SolveSlots.v
FeedbackSenderSpec.v
Config.v
Challenge.v
ChallengeSpec.v
TraceCheck.v
Decentralized.v
DecentralizedSpec.v
PaymentSpec.v
Startup.v
MinerWorkspace.v
Trajectory.v
ModelClient.v
MinerSolve.v
MinerSolveSpec.v
Tools.v
