(* ===== verification/Prelude.v ===== *)
(** * Hone subnet validator: verification development

    A validator of the Hone subnet leases a task from a problem server, offers it to
    miners, grades their signed submissions in containers, pays them into bounded score
    windows and sets weights on the chain.  This library models that program
    (Python, under [src/rlvr]), the reference miner that answers it, and the executors
    and sandbox programs that run candidate code, and proves what makes them correct.

    ** Conventions

    A Python [str] is a list of code points, [bytes] a list of bytes, [int] is [Z],
    [float] is binary64 ([PyFloat]), a [dict] is a [gmap], or the list of its items where
    the order matters.  A function that may raise returns [result]; an exception is its
    class and message.  Names, constants and field names are the source's.  Everything
    that is computed is executable, and the witnesses compute.

    What the program finds outside of itself (clocks, the network, disks, docker, the
    chain) is given: by a record of inputs of the call ([RoundHost], [RoundEnv],
    [DispatchEnv], [StartEnv], [JobEnv], [TicketEnv], [SignedEnv], [poll]), by a script of
    what happens next ([Writer], [Diagnostics]), or by an abstract world ([Model],
    [Storage], [Host]).  Theorems quantify over it.  In a round the clock, the free disk,
    the copy, the clean-up and the duration of each grading belong to the schedule of the
    gradings: they are inputs by the number of the grading, and [schedule] of
    [EvaluateRoundSpec] varies them together with the order.

    ** The files

    Foundations.  [Prelude]: values, exceptions, generic lemmas, automation.
    [PyFloat], [Text], [Codecs]: floats and the standard library's text operations.
    [Json], [JsonSpec], [JsonBytes]: [json.loads] and [json.dumps] over [pyobj].

    Wire format, [src/rlvr/v3].  [Canonical], [CanonicalSpec]: canonical.py.  [Wire]:
    wire.py, reasons.py.  [Identity]: identity.py, script.py.  [Api], [ApiSpec]: api.py,
    artifacts.py.  [Trajectory]: trajectory.py.

    Files and archives.  [FileSystem]: tree.py.  [Archive], [ArchiveSpec]: archive.py.
    [Workspace]: workspace.py.  [Download]: download.py, submission.py.  [Upload]:
    upload.py, miner.py.  [MinerWorkspace]: miner_workspace.py.

    Grading.  [Supervisor], [Guard]: supervisor.py.  [Manifest]: manifest.py.
    [Feedback]: feedback.py.  [Patch]: patch.py.  [Grading], [GradingSpec]: grading.py.

    The round.  [Selection]: selection.py.  [ProblemClient]: problemserver/client.py,
    client.py.  [Round], [EvaluateRound], [EvaluateRoundSpec]: round.py.  [Scoring]:
    types.py and scoring/.  [EvalEngine], [EvalEngineSpec]: scoring/eval_engine.py.
    [Release]: policy.py, release.py.  [Diagnostics], [DiagnosticsSpec]: diagnostics.py.

    The validator, [src/rlvr/neurons].  [Protocol], [ProtocolSpec]: protocol.py.  [Live]:
    live.py.  [ScoreState], [Decentralized], [DecentralizedSpec], [PaymentSpec],
    [Startup]: decentralized.py.  [Validator]: validator.py, base.py.  [FeedbackSender],
    [FeedbackSenderSpec]: feedback_sender.py.  [TraceCheck]: trace_check.py.  [Config]:
    config.py.  [Tools]: scripts/run_validator.py, scripts/try_task.py.

    The reference miner, demo_miner.py.  [MinerText]: texts.  [Miner], [MinerSpec]: the
    server.  [SolveSlots]: its slots.  [ModelClient]: the model service.  [MinerSolve],
    [MinerSolveSpec]: from a task to an answer.

    Executors, [src/rlvr/execution].  [Compare], [Framing]: compare.py, rust_judge.py,
    framing.py.  [Runner], [RunnerSpec]: the three programs inside a sandbox.
    [Executor], [ExecutorSpec]: the three executors.  [BatchSpec]: both together.

    Challenges of the first version, [src/rlvr].  [Challenge], [ChallengeSpec]: problemserver/api.py,
    rust_validation.py and their client.  [Orchestrator], [OrchestratorSpec]:
    orchestrator.py.  [Writer], [WriterSpec]: dataset/writer.py.

    ** How the parts interact

    [Validator.run] polls the chain and calls [Decentralized.callback], which selects the
    offer ([Selection]), runs [EvaluateRound.evaluate_round], and puts the payments of
    the result into the engine and the score file ([Round], [EvalEngine], [ScoreState]).
    A round sees the problem server through the class [V3Client] with [V3ClientLaws], and
    the miners through [V3Solver] with [V3SolverLaws]: its theorems are proved against
    these interfaces, [ProblemClient] ([http_client_laws]) and [Live] ([live_solver_laws])
    discharge the laws.  It extracts ([Archive], [Workspace]) and grades ([Grading]),
    and grading runs every command through [Supervisor.run_container].  On the other side
    of the wire, [MinerSolve.solve] uploads through [Upload] and answers a task through
    [Miner]; [MinerSpec.honest_miner_answers] puts the two sides together.  The executors
    and the sandbox programs meet in [BatchSpec].

    ** What the theorems show

    - A verdict is earned: a completed round judges exactly the miners it dispatched to;
      behind a pass is one chain, [earned_by], from the lease and the miner's own task to
      the bytes it signed, a copy of the lease's workspace, the revealed verifier and the
      whole hidden suite; grading passes exactly what its specification passes.  Another
      schedule of the gradings gives the same verdicts, or the round is abandoned because
      a grading came too late or the disk failed it ([EvaluateRoundSpec], [GradingSpec],
      [Patch], [Workspace], [ArchiveSpec], [Download]).
    - A fault judges nobody, and a failed round cannot be retried against another draw.
    - Scores: the invariant of the engine over every sequence of operations, restarts
      included; one observation per challenge; pay for passes only, from the verdicts of
      the callback's own round to the score window ([PaymentSpec]); ranks to weights; the
      cadence of rounds and weights as a refinement of an abstract schedule, with the block
      that includes a submission apart from the one its turn polled.
    - The wire: canonical JSON is read back, signatures bind, a replay is refused within
      the nonce window, responses and notices are authentic, an honest miner is heard.
    - The reference miner ends, keeps its contract whatever the model says, and prints a
      notice once; its solve slots are conserved; which recorded trajectories are refused
      is stated by the sizes and identifiers the model decides ([event_fits]).
    - Executors: equality of values, frames, bounds on what is kept, one result per
      test, nothing of the expected values is sent, and the whole batch refines the
      comparison of values.
    - Local files: every write enforces the cap of the dataset and removes the shards
      modified first; the bounded log.
    Some theorems record where the code falls short of what it means to do: nonces are
    remembered for half of the time a request is fresh, the guard does not see below a
    directory it cannot list, a large integer makes the comparison raise, an answer that is
    nested too deep leaves no frame, a submission after a long round can be refused, and
    others.

    ** Parameters

    Third-party code and what the host defines is a class, with its laws in a class of
    its own when a theorem needs them: [UnicodeData] with [UnicodeLaws],
    [UnicodeDigits] with [DigitLaws], [UnicodeIsDigit], [WordChars] (the Unicode
    tables), [Sha256] with [Sha256Laws], [FloatRepr], [GeneralFormat], [PyRepr],
    [PyMath] with [PowLaws], [NumPy], [NumPyArray], [Zstd], [Tar], [UrlParser], [UrlSplit], [Keypair] (the chain's keys),
    [Rng], and pydantic's JSON as [WireJson], [MinerJson], [MinerRequests],
    [ChallengeJson], [TrajectoryJson], [FixtureModels].  pydantic's validation is written out.

    ** Fuel

    Recursion that is not structural has fuel, and the fuel is proved to be enough:
    [Json.loads_with] has twice the length of the text and one more
    ([JsonSpec.loads_with_fueled]); [EvaluateRound.gather] the number of gradings
    ([EvaluateRoundSpec.gather_spec]); [MinerSolve.generate] the budget of tool calls and
    three more ([MinerSolveSpec.generate_ends]); [Orchestrator.draw] the queue and the
    pool ([OrchestratorSpec.sampled]); the walk of [MinerWorkspace] the size
    of the tree ([files_under_spec]); the repair of hunk headers the number of lines
    ([recount_repairs]); reading a file in chunks its length.

    ** Not modelled

    - The inside of what is a parameter above, docker, git, the kernel, the chain's SDK
      and HTTP libraries: not in the repository.
    - Recursion limits of the interpreter, other than in the encoders of the sandbox
      programs ([nesting_limit]).
    - Parallel execution inside [asyncio.gather] where the parts touch distinct keys
      (dispatch, notices, tickets): they are modelled in a fixed order.  Gradings,
      the send gate, the notices and solve slots of a miner are modelled with their
      interleavings.
    - Resource limits of child processes, process groups and signals: system calls
      without a value.
    - Failures of the local disk during extraction and download (they raise and the
      round is abandoned, which [faults_judge_nobody] covers for any exception), other
      than those the files above list.  Permissions are modelled where a workspace is
      copied; the umask where a file is created.
    - Printing, other than the texts that are a component ([Feedback], [MinerText], the
      failure report of [Startup]).
    - scripts/benchmark_grading.py, scripts/benchmark_v3_supervisor.py: they time the
      executors and the supervisor, and their output is the wall clock.
    - Set-up of FastAPI and uvicorn, package re-exports, shell scripts, Dockerfiles,
      tests and docs. *)

From Stdlib Require Export ZArith NArith Lia Ascii String.
From stdpp Require Export base gmap sets list strings option sorting.


(** ** Python values

    A Python [str] is the list of its code points, a Python [bytes] the list of
    its bytes.  Python integers are unbounded: they are [Z]. *)

Abbreviation pystr := (list N).
Abbreviation bytes := (list ascii).

Declare Scope py_scope.
Delimit Scope py_scope with py.

(** [ustr "abc"] is the Python literal ["abc"], [bstr "abc"] the literal
    [b"abc"] (ASCII only). *)
Definition bstr (s : string) : bytes := list_ascii_of_string s.
Definition ustr (s : string) : pystr := map N_of_ascii (bstr s).

(** ** Exceptions *)

Inductive exn_class :=
  | ValueError | TypeError | KeyError | RuntimeError | OSError
  | UnicodeDecodeError | UnicodeEncodeError | JSONDecodeError
  | CanonicalizationError | ManifestError | TreeError | ArchiveError
  | TrajectoryError | WorkspaceError | PatchToolError | SupervisorError
  | ArtifactDownloadError | ArtifactUploadError | ValidationError
  | TarError | ZstdError | HTTPError | OverflowError
  | IndexError | AttributeError
  | OtherError.

#[export] Instance exn_class_eq_dec : EqDecision exn_class.
Proof. solve_decision. Defined.

Record exn := Exn { exn_cls : exn_class; exn_msg : pystr }.

(** [isinstance(exc, ValueError)]: the classes that subclass [ValueError] in the
    standard library, in pydantic and in the source. *)
Definition is_value_error (c : exn_class) : bool :=
  match c with
  | ValueError | UnicodeDecodeError | UnicodeEncodeError | JSONDecodeError
  | CanonicalizationError | ManifestError | TreeError | ArchiveError
  | TrajectoryError | ValidationError => true
  | _ => false
  end.

(** [type(e).__name__]; an exception of a class not listed is named by its message. *)
Definition exn_name (e : exn) : pystr :=
  match exn_cls e with
  | ValueError => ustr "ValueError" | TypeError => ustr "TypeError" | KeyError => ustr "KeyError"
  | RuntimeError => ustr "RuntimeError" | OSError => ustr "OSError"
  | UnicodeDecodeError => ustr "UnicodeDecodeError" | UnicodeEncodeError => ustr "UnicodeEncodeError"
  | JSONDecodeError => ustr "JSONDecodeError" | CanonicalizationError => ustr "CanonicalizationError"
  | ManifestError => ustr "ManifestError" | TreeError => ustr "TreeError"
  | ArchiveError => ustr "ArchiveError" | TrajectoryError => ustr "TrajectoryError"
  | WorkspaceError => ustr "WorkspaceError" | PatchToolError => ustr "PatchToolError"
  | SupervisorError => ustr "SupervisorError"
  | ArtifactDownloadError => ustr "ArtifactDownloadError"
  | ArtifactUploadError => ustr "ArtifactUploadError" | ValidationError => ustr "ValidationError"
  | TarError => ustr "TarError" | ZstdError => ustr "ZstdError" | HTTPError => ustr "HTTPError"
  | OverflowError => ustr "OverflowError"
  | IndexError => ustr "IndexError" | AttributeError => ustr "AttributeError"
  | OtherError => exn_msg e
  end.

Inductive result (A : Type) : Type :=
  | Ok (a : A)
  | Raise (e : exn).
Arguments Ok {A} _.
Arguments Raise {A} _.

Definition raise {A} (c : exn_class) (msg : string) : result A := Raise (Exn c (ustr msg)).

#[export] Instance result_ret : MRet result := @Ok.
#[export] Instance result_bind : MBind result := λ A B f m,
  match m with Ok a => f a | Raise e => Raise e end.
#[export] Instance result_fmap : FMap result := λ A B f m,
  match m with Ok a => Ok (f a) | Raise e => Raise e end.

(** [if b: raise c(msg)] *)
Definition raise_if (cond : bool) (c : exn_class) (msg : string) : result unit :=
  if cond then raise c msg else Ok ().

(** [try: m except <p>: h] *)
Definition catch {A} (m : result A) (p : exn_class → bool) (h : exn → result A) : result A :=
  match m with
  | Ok a => Ok a
  | Raise e => if p (exn_cls e) then h e else Raise e
  end.

Definition is_ok {A} (m : result A) : bool :=
  match m with Ok _ => true | Raise _ => false end.

Definition result_to_option {A} (m : result A) : option A :=
  match m with Ok a => Some a | Raise _ => None end.

Section result_lemmas.
Context {A B : Type}.

Lemma bind_Ok (m : result A) (f : A → result B) (y : B) :
  (m ≫= f) = Ok y ↔ ∃ x, m = Ok x ∧ f x = Ok y.
Proof.
  destruct m as [x|e]; simpl; split.
  - intros H. by exists x.
  - intros (x' & [= <-] & H). done.
  - done.
  - intros (x' & H & _). done.
Qed.

Lemma fmap_Ok (m : result A) (f : A → B) (y : B) :
  (f <$> m) = Ok y ↔ ∃ x, m = Ok x ∧ y = f x.
Proof.
  destruct m as [x|e]; simpl; split.
  - intros [= <-]. by exists x.
  - intros (x' & [= <-] & ->). done.
  - done.
  - intros (x' & H & _). done.
Qed.

Lemma raise_if_Ok (c : bool) (k : exn_class) (msg : string) (x : unit) :
  raise_if c k msg = Ok x ↔ c = false.
Proof. destruct c, x; simpl; naive_solver. Qed.

(** A guard followed by the rest of the block. *)
Lemma guard_Ok (c : bool) (k : exn_class) (msg : string) (m : result A) (y : A) :
  (raise_if c k msg;; m) = Ok y ↔ c = false ∧ m = Ok y.
Proof. destruct c; simpl; naive_solver. Qed.

Lemma seq_Ok (m : result unit) (k : result A) (y : A) :
  (m;; k) = Ok y ↔ m = Ok () ∧ k = Ok y.
Proof. destruct m as [[]|]; simpl; naive_solver. Qed.

Lemma is_ok_true (m : result A) : is_ok m = true ↔ ∃ x, m = Ok x.
Proof. destruct m; naive_solver. Qed.
End result_lemmas.

(** [mapM] over [result] succeeds exactly when every element does. *)
Lemma mapM_Ok {A B} (f : A → result B) (l : list A) (k : list B) :
  mapM f l = Ok k ↔ Forall2 (λ x y, f x = Ok y) l k.
Proof.
  revert k. induction l as [|x l IH]; intros k; simpl.
  - split; [intros [= <-]; constructor | by inversion 1].
  - rewrite bind_Ok. split.
    + intros (y & Hy & Hk). apply bind_Ok in Hk as (ys & Hys & [= <-]).
      constructor; [done|]. by apply IH.
    + inversion 1 as [|?? ?? Hxy Hrest]; subst. eexists; split; [done|].
      apply bind_Ok. eexists; split; [by apply IH|done].
Qed.

(** Inverts a chain of guards and binds that ended in [Ok]. *)
Ltac inv_result :=
  repeat match goal with
  | H : (_ ≫= _) = Ok _ |- _ =>
      let x := fresh "r" in let H1 := fresh "Hr" in
      apply bind_Ok in H as (x & H1 & H)
  | H : (_ <$> _) = Ok _ |- _ =>
      let x := fresh "r" in let H1 := fresh "Hr" in
      apply fmap_Ok in H as (x & H1 & H)
  | H : raise_if _ _ _ = Ok ?x |- _ => apply raise_if_Ok in H
  | H : raise _ _ = Ok _ |- _ => discriminate H
  | H : Raise _ = Ok _ |- _ => discriminate H
  | H : Ok _ = Raise _ |- _ => discriminate H
  | H : Ok _ = Ok _ |- _ => injection H as H; try subst
  | H : mret _ = Ok _ |- _ => injection H as H; try subst
  | x : unit |- _ => destruct x
  end.

(** Boolean guards to propositions. *)
Create Rewrite HintDb pybool.
#[export] Hint Rewrite
  andb_true_iff andb_false_iff orb_true_iff orb_false_iff
  negb_true_iff negb_false_iff
  Z.ltb_lt Z.ltb_ge Z.leb_le Z.leb_gt Z.eqb_eq Z.eqb_neq
  bool_decide_eq_true bool_decide_eq_false : pybool.

Ltac bool_simpl := autorewrite with pybool in *.

(** ** Slices and sequences *)

Section sequences.
Context {A : Type}.

(** [l[:n]] for any integer [n]: a negative bound counts from the end. *)
Definition slice_to (n : Z) (l : list A) : list A :=
  if (0 <=? n)%Z then take (Z.to_nat n) l
  else take (length l - Z.to_nat (- n)) l.

(** [l[n:]] *)
Definition slice_from (n : Z) (l : list A) : list A :=
  if (0 <=? n)%Z then drop (Z.to_nat n) l
  else drop (length l - Z.to_nat (- n)) l.

Definition zlen (l : list A) : Z := Z.of_nat (length l).

Lemma zlen_nonneg (l : list A) : (0 <= zlen l)%Z.
Proof. unfold zlen. lia. Qed.

Lemma slice_to_nonneg (n : Z) (l : list A) :
  (0 <= n)%Z → slice_to n l = take (Z.to_nat n) l.
Proof. intros H. unfold slice_to. by rewrite (proj2 (Z.leb_le 0 n)). Qed.

Lemma slice_to_prefix (n : Z) (l : list A) : slice_to n l `prefix_of` l.
Proof.
  unfold slice_to. case_match.
  - exists (drop (Z.to_nat n) l). by rewrite take_drop.
  - exists (drop (length l - Z.to_nat (- n)) l). by rewrite take_drop.
Qed.

Lemma slice_to_length (n : Z) (l : list A) :
  (0 <= n)%Z → zlen (slice_to n l) = Z.min n (zlen l).
Proof.
  intros H. rewrite slice_to_nonneg by done. unfold zlen.
  rewrite length_take. lia.
Qed.

Lemma slice_to_all (n : Z) (l : list A) : (zlen l <= n)%Z → slice_to n l = l.
Proof.
  intros H. pose proof (zlen_nonneg l). rewrite slice_to_nonneg by lia.
  apply take_ge. unfold zlen in H. lia.
Qed.
End sequences.

Lemma slice_to_sublist {A} (n : Z) (l : list A) : slice_to n l `sublist_of` l.
Proof. destruct (slice_to_prefix n l) as [k Hk]. rewrite Hk at 2. by apply sublist_inserts_r. Qed.

Lemma elem_of_slice_to {A} (n : Z) (l : list A) (x : A) : x ∈ slice_to n l → x ∈ l.
Proof. intros H. by eapply elem_of_prefix, slice_to_prefix. Qed.

Lemma filter_all {A} (P : A → Prop) `{!∀ x, Decision (P x)} (l : list A) :
  (∀ x, x ∈ l → P x) → filter P l = l.
Proof.
  induction l as [|x l IH]; intros Hall; [done|].
  rewrite filter_cons_True by (apply Hall; by left). f_equal. apply IH.
  intros y Hy. apply Hall. by right.
Qed.

Lemma NoDup_same_elements_length {A} `{!EqDecision A} (l k : list A) :
  NoDup l → NoDup k → (∀ x, x ∈ l ↔ x ∈ k) → length l = length k.
Proof. intros Hl Hk H. apply Permutation_length. by apply NoDup_Permutation. Qed.

(** The order of [str] and [bytes]: lexicographic by code. *)
Fixpoint str_le (s t : list N) : bool :=
  match s, t with
  | [], _ => true
  | _ :: _, [] => false
  | x :: s', y :: t' => if (x =? y)%N then str_le s' t' else (x <? y)%N
  end.

(** [startswith], [endswith], [in], [find] on [str] and [bytes]. *)
Section substrings.
Context {A : Type} `{!EqDecision A}.

Fixpoint startswith (p s : list A) : bool :=
  match p, s with
  | [], _ => true
  | x :: p', y :: s' => bool_decide (x = y) && startswith p' s'
  | _ :: _, [] => false
  end.

Definition endswith (p s : list A) : bool := startswith (rev p) (rev s).

Fixpoint contains (p s : list A) : bool :=
  startswith p s || match s with [] => false | _ :: s' => contains p s' end.

(** [s.split(sep)] for a one-element separator: never empty. *)
Fixpoint split_on (sep : A) (s : list A) : list (list A) :=
  match s with
  | [] => [[]]
  | x :: s' =>
      if bool_decide (x = sep) then [] :: split_on sep s'
      else match split_on sep s' with
           | w :: ws => (x :: w) :: ws
           | [] => [[x]]
           end
  end.

(** [sep.join(parts)] *)
Fixpoint join (sep : list A) (parts : list (list A)) : list A :=
  match parts with
  | [] => []
  | [w] => w
  | w :: ws => w ++ sep ++ join sep ws
  end.

Lemma startswith_spec (p s : list A) : startswith p s = true ↔ p `prefix_of` s.
Proof.
  revert s. induction p as [|x p IH]; intros s; simpl.
  - split; [intros _; apply prefix_nil | done].
  - destruct s as [|y s].
    + split; [done|]. by intros ?%prefix_nil_not.
    + rewrite andb_true_iff, bool_decide_eq_true, IH. split.
      * intros [-> H]. by apply prefix_cons.
      * intros H. split; [by eapply prefix_cons_inv_1 | by eapply prefix_cons_inv_2].
Qed.

Lemma split_on_nonempty (sep : A) (s : list A) : split_on sep s ≠ [].
Proof. destruct s as [|x s]; simpl; [done|]. repeat case_match; done. Qed.

Lemma join_split_on (sep : A) (s : list A) : join [sep] (split_on sep s) = s.
Proof.
  induction s as [|x s IH]; simpl; [done|].
  case_bool_decide as Hx.
  - subst. simpl. pose proof (split_on_nonempty sep s).
    destruct (split_on sep s); [done|]. simpl in *. by rewrite IH.
  - pose proof (split_on_nonempty sep s).
    destruct (split_on sep s) as [|w ws]; [done|]. simpl in *. rewrite <-IH.
    by destruct ws.
Qed.

Lemma split_on_join (sep : A) (ws : list (list A)) :
  ws ≠ [] → (∀ w, w ∈ ws → sep ∉ w) → split_on sep (join [sep] ws) = ws.
Proof.
  assert (Hone : ∀ w s, sep ∉ w → split_on sep (w ++ s) =
    match split_on sep s with v :: vs => (w ++ v) :: vs | [] => [] end).
  { intros w s Hw. induction w as [|x w IH]; simpl.
    - pose proof (split_on_nonempty sep s). by destruct (split_on sep s).
    - rewrite bool_decide_eq_false_2 by set_solver. rewrite IH by set_solver.
      pose proof (split_on_nonempty sep s). by destruct (split_on sep s). }
  induction ws as [|w ws IH]; [done|]. intros _ Hws. destruct ws as [|v ws].
  - simpl. rewrite <-(app_nil_r w) at 1. rewrite Hone by (apply Hws; by left). simpl. by rewrite app_nil_r.
  - change (join [sep] (w :: v :: ws)) with (w ++ [sep] ++ join [sep] (v :: ws)).
    rewrite Hone by (apply Hws; by left). cbn [split_on app]. rewrite bool_decide_eq_true_2 by done.
    rewrite app_nil_r. f_equal. apply IH; [done|]. intros u Hu. apply Hws. by right.
Qed.

(** Where a separator stands in only one of two parts, it says where they meet. *)
Lemma app_sep_inj (sep : A) (l1 l2 r1 r2 : list A) :
  sep ∉ l1 → sep ∉ l2 → l1 ++ sep :: r1 = l2 ++ sep :: r2 → l1 = l2 ∧ r1 = r2.
Proof.
  revert l2. induction l1 as [|x l1 IH]; intros [|y l2] H1 H2; simpl; intros Heq; simplify_eq.
  - done.
  - set_solver.
  - set_solver.
  - destruct (IH l2) as [-> ->]; set_solver.
Qed.

Lemma app_sep_inj_r (sep : A) (l1 l2 r1 r2 : list A) :
  sep ∉ r1 → sep ∉ r2 → l1 ++ sep :: r1 = l2 ++ sep :: r2 → l1 = l2 ∧ r1 = r2.
Proof.
  intros H1 H2 He. apply (f_equal (@rev A)) in He. rewrite !rev_app_distr in He. simpl in He.
  rewrite <-!(assoc_L (++)) in He. simpl in He.
  apply app_sep_inj in He as [E1 E2]; [|by rewrite list_elem_of_In, <-in_rev, <-list_elem_of_In..].
  apply (f_equal (@rev A)) in E1, E2. by rewrite !rev_involutive in *.
Qed.

Lemma split_on_no_sep (sep : A) (s w : list A) : w ∈ split_on sep s → sep ∉ w.
Proof.
  revert w. induction s as [|x s IH]; intros w; simpl.
  - intros ->%list_elem_of_singleton. apply not_elem_of_nil.
  - case_bool_decide as Hx.
    + intros [->|H]%elem_of_cons; [apply not_elem_of_nil | by apply IH].
    + pose proof (split_on_nonempty sep s).
      destruct (split_on sep s) as [|v vs]; [done|].
      intros [->|H']%elem_of_cons.
      * intros [->|Hin]%elem_of_cons; [done|]. eapply IH; [|exact Hin]. by left.
      * apply IH. by right.
Qed.
End substrings.

(** [for x in l: f(x)]: run a statement on every element, stop at the first
    exception. *)
Section for_each.
Context {A : Type} (f : A → result unit).
Fixpoint for_each (l : list A) : result unit :=
  match l with
  | [] => Ok ()
  | x :: l' => f x;; for_each l'
  end.
End for_each.

Lemma for_each_Ok {A} (f : A → result unit) (l : list A) (x : unit) :
  for_each f l = Ok x ↔ Forall (λ y, f y = Ok ()) l.
Proof.
  destruct x. induction l as [|y l IH]; simpl; [done|]. rewrite bind_Ok, Forall_cons, <-IH.
  split; [intros ([] & H1 & H2); done | intros [H1 H2]; eauto].
Qed.

Lemma forallb_elem {A} (p : A → bool) (l : list A) : forallb p l = true ↔ ∀ x, x ∈ l → p x = true.
Proof. rewrite forallb_forall. by setoid_rewrite list_elem_of_In. Qed.

(** [sorted(l, key=...)], a stable sort, for a boolean order of the keys. *)
Section sort_by.
Context {A : Type} (le : A → A → bool).

Fixpoint insert_by (x : A) (l : list A) : list A :=
  match l with
  | [] => [x]
  | y :: l' => if le x y then x :: l else y :: insert_by x l'
  end.

Fixpoint sort_by (l : list A) : list A :=
  match l with
  | [] => []
  | x :: l' => insert_by x (sort_by l')
  end.

Lemma insert_by_perm (x : A) (l : list A) : insert_by x l ≡ₚ x :: l.
Proof.
  induction l as [|y l IH]; simpl; [done|]. destruct (le x y); [done|].
  rewrite IH. apply Permutation_swap.
Qed.

Lemma sort_by_perm (l : list A) : sort_by l ≡ₚ l.
Proof. induction l as [|x l IH]; simpl; [done|]. by rewrite insert_by_perm, IH. Qed.

Lemma elem_of_sort_by (x : A) (l : list A) : x ∈ sort_by l ↔ x ∈ l.
Proof. by rewrite sort_by_perm. Qed.

Lemma length_sort_by (l : list A) : length (sort_by l) = length l.
Proof. apply Permutation_length, sort_by_perm. Qed.

Context (le_total : ∀ x y, le x y = true ∨ le y x = true).

Lemma insert_by_sorted (x : A) (l : list A) :
  Sorted (λ y z, le y z = true) l → Sorted (λ y z, le y z = true) (insert_by x l).
Proof.
  induction 1 as [|y l Hl IH Hy]; simpl; [by repeat constructor|].
  destruct (le x y) eqn:Hxy; [by repeat constructor|].
  constructor; [done|]. destruct l as [|z l]; simpl.
  - constructor. by destruct (le_total x y); [congruence|].
  - destruct (le x z).
    + constructor. by destruct (le_total x y); [congruence|].
    + by inversion Hy; constructor.
Qed.

Lemma sort_by_sorted (l : list A) : Sorted (λ y z, le y z = true) (sort_by l).
Proof. induction l as [|x l IH]; simpl; [constructor|]. by apply insert_by_sorted. Qed.
End sort_by.

Lemma sort_by_map {A B} (le : B → B → bool) (le' : A → A → bool) (f : A → B) (l : list A) :
  (∀ x y, le (f x) (f y) = le' x y) → sort_by le (map f l) = map f (sort_by le' l).
Proof.
  intros H. assert (Hins : ∀ x k, insert_by le (f x) (map f k) = map f (insert_by le' x k)).
  { intros x k. induction k as [|y k IH]; simpl; [done|]. rewrite H.
    destruct (le' x y); simpl; by rewrite ?IH. }
  induction l as [|x l IH]; simpl; [done|]. by rewrite IH, Hins.
Qed.

Lemma sort_by_sorted_id {A} (le : A → A → bool) (l : list A) :
  Sorted (λ y z, le y z = true) l → sort_by le l = l.
Proof.
  induction 1 as [|y l Hl IH Hy]; simpl; [done|]. rewrite IH.
  destruct l as [|z l]; simpl; [done|]. inversion Hy; subst. by rewrite H0.
Qed.

(** [str_le] is a total preorder, antisymmetric. *)
Lemma str_le_total (s t : list N) : str_le s t = true ∨ str_le t s = true.
Proof.
  revert t. induction s as [|x s IH]; intros [|y t]; simpl; auto.
  destruct (N.eqb_spec x y), (N.eqb_spec y x); try congruence; [apply IH|].
  rewrite !N.ltb_lt. lia.
Qed.

Lemma str_le_refl (s : list N) : str_le s s = true.
Proof. by destruct (str_le_total s s). Qed.

(** *** Rank in a sorted list *)

Section rank.
Context {A : Type} `{!EqDecision A} (le : A → A → bool).

Lemma sorted_strongly (l : list A) :
  (∀ x y z, x ∈ l → y ∈ l → z ∈ l → le x y = true → le y z = true → le x z = true) →
  Sorted (λ y z, le y z = true) l → StronglySorted (λ y z, le y z = true) l.
Proof.
  induction l as [|x l IH]; intros Htr Hs; [constructor|].
  apply Sorted_inv in Hs as [Hs Hhd].
  assert (Hss : StronglySorted (λ y z, le y z = true) l).
  { apply IH; [|done]. intros ??????. apply Htr; by right. }
  constructor; [done|]. destruct l as [|y l]; [constructor|].
  apply HdRel_inv in Hhd. constructor; [done|].
  apply StronglySorted_inv in Hss as [_ Hy]. rewrite Forall_forall in *.
  intros z Hz. apply (Htr x y z); [by left|by right; left|by right; right|done|by apply Hy].
Qed.

(** In a list strictly sorted by [le], the position of an element is the number
    of elements before it in the order. *)
Lemma sorted_rank (l : list A) (k : nat) (x : A) :
  NoDup l →
  (∀ x y z, x ∈ l → y ∈ l → z ∈ l → le x y = true → le y z = true → le x z = true) →
  (∀ x y, x ∈ l → y ∈ l → le x y = true → le y x = true → x = y) →
  Sorted (λ y z, le y z = true) l → l !! k = Some x →
  k = length (filter (λ y, le y x = true ∧ y ≠ x) l).
Proof.
  intros Hnd Htr Has Hs Hk. apply sorted_strongly in Hs; [|done].
  revert k Hk. induction l as [|y l IH]; intros k Hk; [done|].
  apply NoDup_cons in Hnd as [Hy Hnd]. apply StronglySorted_inv in Hs as [Hs Hle].
  rewrite Forall_forall in Hle. destruct k as [|k]; simpl in Hk.
  - injection Hk as ->. rewrite filter_cons_False by naive_solver.
    symmetry. apply length_zero_iff_nil, elem_of_nil_inv. intros z [[Hzx Hne] Hz]%list_elem_of_filter.
    apply Hne. apply Has; [by right|by left|done|by apply Hle].
  - assert (Hx : x ∈ l) by (by eapply list_elem_of_lookup_2).
    rewrite filter_cons_True; [|split; [by apply Hle|naive_solver]]. simpl. f_equal.
    apply IH; [done| | |done|done].
    + intros ??????. apply Htr; by right.
    + intros ????. apply Has; by right.
Qed.
End rank.
