(* ===== verification/PyFloat.v ===== *)
(** * Python floats

    A Python [float] (and a numpy [float64]) is an IEEE 754 binary64 number, here
    the standard library's [spec_float] at precision 53.  Comparisons are those
    of IEEE 754: every comparison with a NaN is false.  The one operation of the
    platform's C library the program uses, [pow], and the builtin [sum] over
    floats (a plain left-to-right sum up to Python 3.11, a compensated one from
    3.12) are the members of the class [PyMath]. *)

From Stdlib Require Import SpecFloat.
From S2P Require Import Prelude.

Abbreviation float := spec_float.

Definition fprec : Z := 53.
Definition femax : Z := 1024.

(** Round the integer [m] times two to the [e] to the nearest float. *)
Definition fround (m e : Z) : float := binary_normalize fprec femax m e false.

Definition float_of_int (z : Z) : float := fround z 0.

Definition fadd (x y : float) : float := SFadd fprec femax x y.
Definition fsub (x y : float) : float := SFsub fprec femax x y.
Definition fmul (x y : float) : float := SFmul fprec femax x y.
Definition fdiv (x y : float) : float := SFdiv fprec femax x y.
Definition fopp (x : float) : float := SFopp x.

Definition fltb (x y : float) : bool := SFltb x y.
Definition fleb (x y : float) : bool := SFleb x y.
Definition feqb (x y : float) : bool := SFeqb x y.

Definition f0 : float := S754_zero false.
Definition f1 : float := float_of_int 1.
Definition f2 : float := float_of_int 2.

Definition isnan (x : float) : bool := match x with S754_nan => true | _ => false end.
Definition isinf (x : float) : bool := match x with S754_infinity _ => true | _ => false end.
Definition isfinite (x : float) : bool := negb (isnan x) && negb (isinf x).

(** The builtins [max(x, y)] and [min(x, y)]: the first argument unless the
    second one compares strictly better. *)
Definition fmax (x y : float) : float := if fltb x y then y else x.
Definition fmin (x y : float) : float := if fltb y x then y else x.

(** The float nearest to [m] times ten to the [e]. *)
Definition decimal_float (m e : Z) : float :=
  match m with
  | Z.pos p =>
      if (0 <=? e)%Z then fround (Z.pos p * 10 ^ e) 0
      else
        let '(q, x, l) := SFdiv_core_binary fprec femax (Z.pos p) 0 (10 ^ (- e)) 0 in
        binary_round_aux fprec femax false q x l
  | _ => f0
  end.

Class PyMath := {
  fpow : float → float → float;   (* x ** y *)
  fsum : list float → float       (* sum(xs) *)
}.

(** ** The order of floats *)

(** A float that is not a NaN has a position in a lexicographic order. *)
Definition frank (x : float) : Z * Z * Z :=
  match x with
  | S754_nan => (0, 0, 0)
  | S754_zero _ => (0, 0, 0)
  | S754_infinity s => ((if s then -2 else 2), 0, 0)
  | S754_finite s m e => if s then (-1, - e, Z.neg m) else (1, e, Z.pos m)
  end%Z.

Definition lex_lt (p q : Z * Z * Z) : Prop :=
  let '(a1, a2, a3) := p in let '(c1, c2, c3) := q in
  (a1 < c1 ∨ a1 = c1 ∧ (a2 < c2 ∨ a2 = c2 ∧ a3 < c3))%Z.

Lemma fltb_frank (x y : float) :
  isnan x = false → isnan y = false →
  fltb x y = true ↔ lex_lt (frank x) (frank y).
Proof.
  intros Hx Hy.
  destruct x as [[]|[]| |[] m e], y as [[]|[]| |[] m' e']; try discriminate;
    unfold fltb, SFltb, SFcompare, lex_lt, frank;
    try (split; (done || lia)).
  - destruct (Z.compare_spec e e'), (Pos.compare_spec m m'); simpl;
      rewrite ?Pos.compare_cont_spec; simpl;
      try (destruct (Pos.compare_spec m m')); simpl; split; (done || lia).
  - destruct (Z.compare_spec e e'), (Pos.compare_spec m m'); simpl;
      rewrite ?Pos.compare_cont_spec; simpl;
      try (destruct (Pos.compare_spec m m')); simpl; split; (done || lia).
Qed.

Lemma fltb_nan (x y : float) : fltb x y = true → isnan x = false ∧ isnan y = false.
Proof. destruct x, y; by simpl. Qed.

Lemma fltb_irrefl (x : float) : fltb x x = false.
Proof.
  destruct (isnan x) eqn:Hx; [by destruct x|].
  destruct (fltb x x) eqn:H; [|done].
  apply fltb_frank in H; [|done..]. destruct (frank x) as [[]]; simpl in H; lia.
Qed.

Lemma fltb_trans (x y z : float) :
  fltb x y = true → fltb y z = true → fltb x z = true.
Proof.
  intros Hxy Hyz. pose proof (fltb_nan _ _ Hxy) as [Hx Hy].
  pose proof (fltb_nan _ _ Hyz) as [_ Hz].
  apply fltb_frank in Hxy, Hyz; [|done..]. apply fltb_frank; [done..|].
  destruct (frank x) as [[]], (frank y) as [[]], (frank z) as [[]]; simpl in *; lia.
Qed.

Lemma fltb_asym (x y : float) : fltb x y = true → fltb y x = false.
Proof.
  intros Hxy. destruct (fltb y x) eqn:Hyx; [|done].
  pose proof (fltb_trans _ _ _ Hxy Hyx) as H. by rewrite fltb_irrefl in H.
Qed.

(** Without NaNs, incomparability is an equivalence. *)
Lemma fltb_frank_total (x y : float) :
  isnan x = false → isnan y = false →
  fltb x y = false → fltb y x = false → frank x = frank y.
Proof.
  intros Hx Hy H1 H2.
  destruct (decide (lex_lt (frank x) (frank y))) as [H|H].
  { apply fltb_frank in H; [congruence|done..]. }
  destruct (decide (lex_lt (frank y) (frank x))) as [H'|H'].
  { apply fltb_frank in H'; [congruence|done..]. }
  destruct (frank x) as [[x1 x2] x3], (frank y) as [[y1 y2] y3]; simpl in *.
  repeat f_equal; lia.
Qed.

Lemma isnan_fopp (x : float) : isnan (fopp x) = isnan x.
Proof. by destruct x. Qed.

Lemma fltb_fopp (x y : float) : fltb (fopp x) (fopp y) = fltb y x.
Proof.
  destruct (isnan x) eqn:Hx; [destruct x; try done; by destruct y as [[]|[]| |[]]|].
  destruct (isnan y) eqn:Hy; [destruct y; try done; by destruct x as [[]|[]| |[]]|].
  apply eq_true_iff_eq.
  rewrite !fltb_frank by (done || by rewrite isnan_fopp).
  destruct x as [[]|[]| |[] m e], y as [[]|[]| |[] m' e']; simpl; lia.
Qed.

#[export] Hint Resolve fltb_irrefl : core.

(** ** Signs *)

(** A float of sign [s] that is not a nan. *)
Definition signed (s : bool) (x : float) : Prop :=
  match x with
  | S754_zero t | S754_infinity t | S754_finite t _ _ => t = s
  | S754_nan => False
  end.

Lemma iter_pos_inv {A} (P : A → Prop) (f : A → A) (n : positive) (x : A) :
  (∀ y, P y → P (f y)) → P x → P (SpecFloat.iter_pos f n x).
Proof. intros Hf. revert x. induction n; intros x Hx; simpl; auto. Qed.

Lemma shr_nonneg (r : shr_record) (e n : Z) : (0 <= shr_m r)%Z → (0 <= shr_m (shr r e n).1)%Z.
Proof.
  intros Hr. destruct n as [|p|p]; simpl; [done| |done].
  apply (iter_pos_inv (λ r, (0 <= shr_m r)%Z)); [|done].
  intros [[|[q|q|]|q] ? ?]; simpl; lia.
Qed.

Lemma binary_round_aux_signed (s : bool) (m e : Z) (l : location) :
  (0 <= m)%Z → signed s (binary_round_aux fprec femax s m e l).
Proof.
  intros Hm. unfold binary_round_aux, shr_fexp.
  assert (Hloc : ∀ n k, (0 <= n)%Z → (0 <= shr_m (shr_record_of_loc n k))%Z).
  { intros n [|[]] Hn; done. }
  match goal with |- context [shr ?r ?e1 ?n] =>
    pose proof (shr_nonneg r e1 n (Hloc m l Hm)) as H1; destruct (shr r e1 n) as [r1 e1'] end.
  simpl in H1.
  assert (H2 : (0 <= round_nearest_even (shr_m r1) (loc_of_shr_record r1))%Z).
  { unfold round_nearest_even. repeat case_match; lia. }
  match goal with |- context [shr ?r ?e2 ?n] =>
    pose proof (shr_nonneg r e2 n (Hloc _ loc_Exact H2)) as H3; destruct (shr r e2 n) as [r2 e2'] end.
  simpl in H3. destruct (shr_m r2) as [|p|p]; simpl; [done| |lia].
  by destruct (e2' <=? _)%Z.
Qed.

Lemma fdiv_signed (sx sy : bool) (x : float) (m : positive) (e : Z) :
  signed sx x → signed (xorb sx sy) (fdiv x (S754_finite sy m e)).
Proof.
  destruct x as [s|s| |s mx ex]; simpl; try done; intros ->; try done.
  unfold fdiv, SFdiv, SFdiv_core_binary.
  set (m' := match _ with Z0 => _ | _ => _ end).
  assert (Hm' : (0 <= m')%Z).
  { unfold m'. case_match; try lia. apply Z.shiftl_nonneg. lia. }
  pose proof (Z.div_pos m' (Zpos m) Hm' ltac:(lia)) as Hq. unfold Z.div in Hq.
  destruct (Z.div_eucl m' (Zpos m)) as [q r]. by apply binary_round_aux_signed.
Qed.

Lemma signed_true_not_pos (x : float) : signed true x → isnan x = false ∧ fltb f0 x = false.
Proof. by destruct x as [[]|[]| |[] ? ?]. Qed.

Lemma signed_fopp (s : bool) (x : float) : signed s x → signed (negb s) (fopp x).
Proof. destruct x; simpl; try done; by intros ->. Qed.

Lemma fmax0_signed (x : float) : signed false (fmax f0 x).
Proof. unfold fmax. destruct (fltb f0 x) eqn:Hx; [|done]. by destruct x as [[]|[]| |[] ? ?]. Qed.

(** A finite positive float. *)
Lemma finite_positive (x : float) :
  isfinite x = true → fleb x f0 = false → ∃ m e, x = S754_finite false m e.
Proof. destruct x as [[]|[]| |[] m e]; try done. by exists m, e. Qed.

(** ** [int(x)] *)

(** Truncation toward zero; a nan or an infinity raises. *)
Definition float_to_int (x : float) : result Z :=
  match x with
  | S754_zero _ => Ok 0%Z
  | S754_finite s m e =>
      let t := Z.shiftl (Z.pos m) e in Ok (if s then - t else t)%Z
  | S754_infinity _ => raise OtherError "OverflowError"
  | S754_nan => raise ValueError "cannot convert float NaN to integer"
  end.

Example float_to_int_ex : float_to_int (fdiv (float_of_int (-7)) f2) = Ok (-3)%Z.
Proof. reflexivity. Qed.
