(* ===== verification/Text.v ===== *)
(** * Text: the encodings and the text operations of the standard library that the
    program uses: UTF-8 and UTF-16-BE, decimal integers, [splitlines], [strip].

    The encoders and decoders are those of the [strict] error handler: encoding a
    surrogate raises, decoding an ill-formed sequence raises. *)

From Stdlib Require Import Decimal DecimalN.
From S2P Require Import Prelude.

Local Open Scope N_scope.

(** ** UTF-8 *)

Definition is_surrogate (c : N) : bool := (0xD800 <=? c) && (c <=? 0xDFFF).

(** A code point that has a UTF-8 form. *)
Definition scalar (c : N) : bool := (c <? 0x110000) && negb (is_surrogate c).

Definition utf8_char (c : N) : list N :=
  if c <? 0x80 then [c]
  else if c <? 0x800 then [192 + c / 64; 128 + c mod 64]
  else if c <? 0x10000 then
    [224 + c / 4096; 128 + (c / 64) mod 64; 128 + c mod 64]
  else [240 + c / 262144; 128 + (c / 4096) mod 64; 128 + (c / 64) mod 64; 128 + c mod 64].

Definition utf8_bytes (s : pystr) : list N := concat (map utf8_char s).

(** [s.encode("utf-8")] *)
Definition utf8_encode (s : pystr) : result bytes :=
  if forallb scalar s then Ok (map ascii_of_N (utf8_bytes s))
  else raise UnicodeEncodeError "surrogates not allowed".

Definition is_cont (x : N) : bool := (128 <=? x) && (x <? 192).

Definition cp2 (x y : N) : N := (x - 192) * 64 + (y - 128).
Definition cp3 (x y z : N) : N := (x - 224) * 4096 + (y - 128) * 64 + (z - 128).
Definition cp4 (x y z w : N) : N :=
  (x - 240) * 262144 + (y - 128) * 4096 + (z - 128) * 64 + (w - 128).

Fixpoint utf8_dec (bs : list N) : option pystr :=
  match bs with
  | [] => Some []
  | x :: r =>
      if x <? 128 then cons x <$> utf8_dec r
      else match r with
      | [] => None
      | y :: r1 =>
          if negb (is_cont y) then None
          else if (194 <=? x) && (x <=? 223) then cons (cp2 x y) <$> utf8_dec r1
          else match r1 with
          | [] => None
          | z :: r2 =>
              if negb (is_cont z) then None
              else if (224 <=? x) && (x <=? 239) then
                let c := cp3 x y z in
                if (c <? 0x800) || is_surrogate c then None else cons c <$> utf8_dec r2
              else match r2 with
              | [] => None
              | w :: r3 =>
                  if negb (is_cont w) then None
                  else if (240 <=? x) && (x <=? 244) then
                    let c := cp4 x y z w in
                    if (c <? 0x10000) || (0x110000 <=? c) then None
                    else cons c <$> utf8_dec r3
                  else None
              end
          end
      end
  end.

(** [bs.decode("utf-8")] *)
Definition utf8_decode (bs : bytes) : result pystr :=
  match utf8_dec (map N_of_ascii bs) with
  | Some s => Ok s
  | None => raise UnicodeDecodeError "invalid utf-8"
  end.

Ltac ncases :=
  repeat (match goal with
  | |- context [?x <? ?y] => destruct (N.ltb_spec x y)
  | |- context [?x <=? ?y] => destruct (N.leb_spec x y)
  end; simpl); try (exfalso; lia).

Ltac ndiv := zify; Z.to_euclidean_division_equations; lia.

Lemma scalar_bounds (c : N) :
  scalar c = true ↔ c < 0x110000 ∧ ¬ (0xD800 <= c ∧ c <= 0xDFFF).
Proof.
  unfold scalar, is_surrogate. rewrite andb_true_iff, negb_true_iff, andb_false_iff.
  rewrite N.ltb_lt, !N.leb_gt. lia.
Qed.

Lemma utf8_char_byte (c x : N) : scalar c = true → x ∈ utf8_char c → x < 256.
Proof.
  rewrite scalar_bounds. intros Hc. unfold utf8_char.
  destruct (N.ltb_spec c 0x80); [|destruct (N.ltb_spec c 0x800); [|destruct (N.ltb_spec c 0x10000)]];
    rewrite ?elem_of_cons, elem_of_nil; intros Hx; destruct_or! Hx; subst; try done; ndiv.
Qed.

(** The decoder reads back one encoded character. *)
Lemma utf8_dec_char (c : N) (rest : list N) :
  scalar c = true → utf8_dec (utf8_char c ++ rest) = cons c <$> utf8_dec rest.
Proof.
  rewrite scalar_bounds. intros Hc. unfold utf8_char.
  destruct (N.ltb_spec c 0x80) as [H1|H1];
    [|destruct (N.ltb_spec c 0x800) as [H2|H2];
      [|destruct (N.ltb_spec c 0x10000) as [H3|H3]]]; simpl app.
  - cbn [utf8_dec]. by rewrite (proj2 (N.ltb_lt c 128)) by lia.
  - assert (E : cp2 (192 + c / 64) (128 + c mod 64) = c) by (unfold cp2; ndiv).
    assert (Hb : c / 64 < 32 ∧ 2 <= c / 64 ∧ c mod 64 < 64) by ndiv.
    cbn [utf8_dec]. rewrite E. generalize dependent (c / 64). generalize dependent (c mod 64).
    intros m q _ Hb. unfold is_cont. ncases. done.
  - assert (E : cp3 (224 + c / 4096) (128 + (c / 64) mod 64) (128 + c mod 64) = c)
      by (unfold cp3; ndiv).
    assert (Hb : c / 4096 < 16 ∧ (c / 64) mod 64 < 64 ∧ c mod 64 < 64) by ndiv.
    cbn [utf8_dec]. rewrite E. generalize dependent (c / 4096).
    generalize dependent ((c / 64) mod 64). generalize dependent (c mod 64).
    intros m q p _ Hb. unfold is_cont, is_surrogate. ncases; done.
  - assert (E : cp4 (240 + c / 262144) (128 + (c / 4096) mod 64) (128 + (c / 64) mod 64)
                  (128 + c mod 64) = c) by (unfold cp4; ndiv).
    assert (Hb : c / 262144 < 5 ∧ (c / 4096) mod 64 < 64 ∧ (c / 64) mod 64 < 64 ∧ c mod 64 < 64)
      by ndiv.
    cbn [utf8_dec]. rewrite E. generalize dependent (c / 262144).
    generalize dependent ((c / 4096) mod 64). generalize dependent ((c / 64) mod 64).
    generalize dependent (c mod 64). intros m q p t _ Hb. unfold is_cont. ncases; done.
Qed.

Lemma utf8_dec_encode (s : pystr) :
  forallb scalar s = true → utf8_dec (utf8_bytes s) = Some s.
Proof.
  unfold utf8_bytes. induction s as [|c s IH]; [done|]. simpl.
  rewrite andb_true_iff. intros [Hc Hs]. rewrite utf8_dec_char by done. by rewrite IH.
Qed.

Lemma map_N_of_ascii_of_N (l : list N) :
  (∀ x, x ∈ l → x < 256) → map N_of_ascii (map ascii_of_N l) = l.
Proof.
  induction l as [|x l IH]; intros Hl; [done|]. simpl.
  rewrite N_ascii_embedding by (apply Hl; by left). f_equal. apply IH.
  intros y Hy. apply Hl. by right.
Qed.

(** Decoding inverts encoding. *)
Lemma utf8_decode_encode (s : pystr) (bs : bytes) :
  utf8_encode s = Ok bs → utf8_decode bs = Ok s.
Proof.
  unfold utf8_encode, utf8_decode. destruct (forallb scalar s) eqn:Hs; [|done].
  intros [= <-]. rewrite map_N_of_ascii_of_N; [by rewrite utf8_dec_encode|].
  intros x Hx. apply list_elem_of_In, in_concat in Hx as (l & (c & <- & Hc)%in_map_iff & Hx).
  rewrite forallb_forall in Hs. apply (utf8_char_byte c).
  { by apply Hs. } by apply list_elem_of_In.
Qed.

Lemma utf8_encode_inj (s t : pystr) (bs : bytes) :
  utf8_encode s = Ok bs → utf8_encode t = Ok bs → s = t.
Proof. intros Hs%utf8_decode_encode Ht%utf8_decode_encode. congruence. Qed.

(** Encoding inverts decoding: a well-formed sequence is the encoding of its text. *)
Lemma utf8_dec_sound_n (n : nat) (bs : list N) (s : pystr) :
  (length bs <= n)%nat → utf8_dec bs = Some s → forallb scalar s = true ∧ utf8_bytes s = bs.
Proof.
  revert bs s. induction n as [|n IH]; intros bs s Hn.
  { destruct bs; [|simpl in Hn; lia]. by intros [= <-]. }
  assert (Hcons : ∀ c pre r, (length r <= n)%nat → scalar c = true → utf8_char c = pre →
    cons c <$> utf8_dec r = Some s → forallb scalar s = true ∧ utf8_bytes s = pre ++ r).
  { intros c pre r Hr Hc <- (t & Ht & ->)%fmap_Some. apply IH in Ht as [Hs Hb]; [|done].
    unfold utf8_bytes in *. simpl. by rewrite Hc, Hs, Hb. }
  destruct bs as [|x r]; [by intros [= <-]|]. simpl in Hn. cbn [utf8_dec].
  destruct (N.ltb_spec x 128) as [Hx|Hx].
  { apply (Hcons x [x]); [lia|apply scalar_bounds; lia|]. unfold utf8_char. by rewrite (proj2 (N.ltb_lt x 0x80)). }
  destruct r as [|y r1]; [done|]. unfold is_cont at 1.
  destruct ((128 <=? y) && (y <? 192)) eqn:Hy; cbn [negb]; [|done].
  rewrite andb_true_iff, N.leb_le, N.ltb_lt in Hy. simpl in Hn.
  destruct ((194 <=? x) && (x <=? 223)) eqn:H2.
  { rewrite andb_true_iff, !N.leb_le in H2.
    assert (Hb : 128 <= cp2 x y < 0x800) by (unfold cp2; lia).
    apply (Hcons (cp2 x y) [x; y]); [lia|apply scalar_bounds; lia|]. unfold utf8_char.
    rewrite (proj2 (N.ltb_ge _ 0x80)), (proj2 (N.ltb_lt _ 0x800)) by lia. unfold cp2. f_equal; [|f_equal]; ndiv. }
  destruct r1 as [|z r2]; [done|]. unfold is_cont at 1.
  destruct ((128 <=? z) && (z <? 192)) eqn:Hz; cbn [negb]; [|done].
  rewrite andb_true_iff, N.leb_le, N.ltb_lt in Hz. simpl in Hn.
  destruct ((224 <=? x) && (x <=? 239)) eqn:H3.
  { rewrite andb_true_iff, !N.leb_le in H3.
    destruct (_ || is_surrogate _) eqn:Hbad; [done|]. unfold is_surrogate in Hbad.
    rewrite orb_false_iff, N.ltb_ge, andb_false_iff, !N.leb_gt in Hbad.
    assert (Hb : cp3 x y z < 0x10000) by (unfold cp3; lia).
    apply (Hcons (cp3 x y z) [x; y; z]); [lia|apply scalar_bounds; lia|]. unfold utf8_char.
    rewrite (proj2 (N.ltb_ge _ 0x80)), (proj2 (N.ltb_ge _ 0x800)), (proj2 (N.ltb_lt _ 0x10000)) by lia.
    unfold cp3. f_equal; [|f_equal; [|f_equal]]; ndiv. }
  destruct r2 as [|w r3]; [done|]. unfold is_cont at 1.
  destruct ((128 <=? w) && (w <? 192)) eqn:Hw; cbn [negb]; [|done].
  rewrite andb_true_iff, N.leb_le, N.ltb_lt in Hw. simpl in Hn.
  destruct ((240 <=? x) && (x <=? 244)) eqn:H4; [|done].
  rewrite andb_true_iff, !N.leb_le in H4.
  destruct (_ || (_ <=? _)) eqn:Hbad; [done|]. rewrite orb_false_iff, N.ltb_ge, N.leb_gt in Hbad.
  apply (Hcons (cp4 x y z w) [x; y; z; w]); [lia|apply scalar_bounds; lia|]. unfold utf8_char.
  rewrite (proj2 (N.ltb_ge _ 0x80)), (proj2 (N.ltb_ge _ 0x800)), (proj2 (N.ltb_ge _ 0x10000)) by lia.
  unfold cp4. f_equal; [|f_equal; [|f_equal; [|f_equal]]]; ndiv.
Qed.

Lemma utf8_encode_decode (s : pystr) (bs : bytes) : utf8_decode bs = Ok s → utf8_encode s = Ok bs.
Proof.
  unfold utf8_decode, utf8_encode. destruct (utf8_dec _) as [t|] eqn:Hd; [|done]. intros [= <-].
  apply (utf8_dec_sound_n _ _ _ (le_n _)) in Hd as [-> ->]. f_equal. rewrite map_map.
  rewrite <-(map_id bs) at 2. apply map_ext. apply ascii_N_embedding.
Qed.

(** ** UTF-16-BE, the sort key of canonical JSON *)

Definition utf16_units (c : N) : list N :=
  if c <? 0x10000 then [c]
  else [0xD800 + (c - 0x10000) / 1024; 0xDC00 + (c - 0x10000) mod 1024].

(** [s.encode("utf-16-be")] *)
Definition utf16be (s : pystr) : list N :=
  concat (map (λ v, [v / 256; v mod 256]) (concat (map utf16_units s))).

(** ** Decimal integers *)

Fixpoint uint_chars (d : uint) : pystr :=
  match d with
  | Nil => []
  | D0 d => 48 :: uint_chars d | D1 d => 49 :: uint_chars d | D2 d => 50 :: uint_chars d
  | D3 d => 51 :: uint_chars d | D4 d => 52 :: uint_chars d | D5 d => 53 :: uint_chars d
  | D6 d => 54 :: uint_chars d | D7 d => 55 :: uint_chars d | D8 d => 56 :: uint_chars d
  | D9 d => 57 :: uint_chars d
  end.

(** [str(z)] *)
Definition str_of_int (z : Z) : pystr :=
  match z with
  | Z.neg p => 45 :: uint_chars (N.to_uint (Npos p))
  | _ => uint_chars (N.to_uint (Z.to_N z))
  end.

Definition is_digit (c : N) : bool := (48 <=? c) && (c <=? 57).

Definition digit_cons (c : N) (d : uint) : uint :=
  match c with
  | 48 => D0 d | 49 => D1 d | 50 => D2 d | 51 => D3 d | 52 => D4 d
  | 53 => D5 d | 54 => D6 d | 55 => D7 d | 56 => D8 d | _ => D9 d
  end.

(** The longest run of digits at the head of a text. *)
Fixpoint read_digits (s : pystr) : uint * pystr :=
  match s with
  | [] => (Nil, [])
  | c :: r =>
      if is_digit c then let '(d, rest) := read_digits r in (digit_cons c d, rest)
      else (Nil, s)
  end.

Definition head_not_digit (s : pystr) : bool :=
  match s with [] => true | c :: _ => negb (is_digit c) end.

Lemma read_digits_uint (d : uint) (rest : pystr) :
  head_not_digit rest = true → read_digits (uint_chars d ++ rest) = (d, rest).
Proof.
  intros Hr. induction d; simpl; rewrite ?IHd; try done.
  destruct rest as [|c rest]; [done|]. simpl in *. by destruct (is_digit c).
Qed.

Lemma of_uint_to_uint (n : N) : N.of_uint (N.to_uint n) = n.
Proof. apply Unsigned.of_to. Qed.

(** No leading zero: the canonical decimal of [n] is [0] or starts with 1 to 9. *)
Lemma to_uint_unorm (n : N) : unorm (N.to_uint n) = N.to_uint n.
Proof. rewrite <-(Unsigned.to_of (N.to_uint n)). by rewrite of_uint_to_uint. Qed.

Lemma uint_head (n : N) : ∃ c r, uint_chars (N.to_uint n) = c :: r ∧ is_digit c = true.
Proof.
  destruct (N.to_uint n) eqn:Hd; simpl; eauto.
  destruct n as [|p]; [done|]. by apply DecimalPos.Unsigned.to_uint_nonnil in Hd.
Qed.

Lemma uint_chars_digit (d : uint) (c : N) : c ∈ uint_chars d → is_digit c = true.
Proof.
  induction d as [|d IH|d IH|d IH|d IH|d IH|d IH|d IH|d IH|d IH|d IH]; cbn [uint_chars];
    [by intros ?%not_elem_of_nil|..]; (intros [->|?]%elem_of_cons; [done|by apply IH]).
Qed.

(** The characters of an integer are digits, but for the sign. *)
Lemma str_of_int_chars (z : Z) (c : N) : is_digit c = false → c ≠ 45 → c ∉ str_of_int z.
Proof.
  intros Hd Hs. assert (Hu : ∀ d, c ∉ uint_chars d).
  { intros d Hin%uint_chars_digit. by rewrite Hd in Hin. }
  destruct z; cbn [str_of_int]; [apply Hu..|]. by intros [?|Hin%Hu]%elem_of_cons.
Qed.

Lemma length_uint_chars (d : uint) : length (uint_chars d) = nb_digits d.
Proof. induction d; simpl; congruence. Qed.

Lemma uint_chars_inj (d d' : uint) : uint_chars d = uint_chars d' → d = d'.
Proof.
  intros Heq. pose proof (read_digits_uint d [] eq_refl) as H1.
  pose proof (read_digits_uint d' [] eq_refl) as H2. rewrite Heq in H1. congruence.
Qed.

Lemma str_of_int_inj (x y : Z) : str_of_int x = str_of_int y → x = y.
Proof.
  assert (Hhead : ∀ n r, uint_chars (N.to_uint n) ≠ 45 :: r).
  { intros n r Heq. destruct (uint_head n) as (c & r' & Hc & Hd). rewrite Heq in Hc.
    injection Hc as <- _. done. }
  assert (Hn : ∀ m n, uint_chars (N.to_uint m) = uint_chars (N.to_uint n) → m = n).
  { intros m n Heq%uint_chars_inj. rewrite <-(of_uint_to_uint m), <-(of_uint_to_uint n).
    by rewrite Heq. }
  unfold str_of_int. destruct x as [|p|p], y as [|q|q]; intros Heq;
    try (apply Hn in Heq; lia); try (by apply Hhead in Heq); try (by symmetry in Heq; apply Hhead in Heq).
  injection Heq as Heq. apply (Hn (Npos p) (Npos q)) in Heq. lia.
Qed.

(** ** Whitespace, [splitlines], [strip] *)

(** [str.isspace] of one character. *)
Definition py_isspace (c : N) : bool :=
  (9 <=? c) && (c <=? 13) || (28 <=? c) && (c <=? 32) || (c =? 0x85) || (c =? 0xA0)
  || (c =? 0x1680) || (0x2000 <=? c) && (c <=? 0x200A) || (c =? 0x2028) || (c =? 0x2029)
  || (c =? 0x202F) || (c =? 0x205F) || (c =? 0x3000).

Fixpoint drop_while {A} (p : A → bool) (l : list A) : list A :=
  match l with
  | x :: l' => if p x then drop_while p l' else l
  | [] => []
  end.

(** [s.strip()], or [s.strip(chars)] for the predicate of [chars]. *)
Definition strip (p : N → bool) (s : pystr) : pystr :=
  rev (drop_while p (rev (drop_while p s))).

(** [s.splitlines()]: [brk] recognises a line break, and CR LF is one break. *)
Fixpoint splitlines_aux {A} (is_cr is_lf brk : A → bool) (cur : list A) (s : list A)
    : list (list A) :=
  match s with
  | [] => match cur with [] => [] | _ => [rev cur] end
  | c :: r =>
      if is_cr c then
        match r with
        | d :: r' =>
            if is_lf d then rev cur :: splitlines_aux is_cr is_lf brk [] r'
            else rev cur :: splitlines_aux is_cr is_lf brk [] r
        | [] => [rev cur]
        end
      else if brk c then rev cur :: splitlines_aux is_cr is_lf brk [] r
      else splitlines_aux is_cr is_lf brk (c :: cur) r
  end.

Definition str_linebreak (c : N) : bool :=
  (10 <=? c) && (c <=? 13) || (28 <=? c) && (c <=? 30) || (c =? 0x85)
  || (c =? 0x2028) || (c =? 0x2029).

Definition str_splitlines (s : pystr) : list pystr :=
  splitlines_aux (N.eqb 13) (N.eqb 10) str_linebreak [] s.

Definition ascii_lf : ascii := ascii_of_N 10.
Definition ascii_cr : ascii := ascii_of_N 13.

(** On [bytes] only CR, LF and CR LF break lines. *)
Definition bytes_splitlines (s : bytes) : list bytes :=
  splitlines_aux (Ascii.eqb ascii_cr) (Ascii.eqb ascii_lf) (Ascii.eqb ascii_lf) [] s.

Example splitlines_ex :
  bytes_splitlines (bstr "a" ++ [ascii_cr; ascii_lf] ++ bstr "b" ++ [ascii_lf; ascii_lf] ++ bstr "c")
  = [bstr "a"; bstr "b"; []; bstr "c"].
Proof. reflexivity. Qed.

(** [s.split()]: the maximal runs of non-space characters. *)
Fixpoint split_ws_aux (cur : pystr) (s : pystr) : list pystr :=
  match s with
  | [] => match cur with [] => [] | _ => [rev cur] end
  | c :: r =>
      if py_isspace c then
        match cur with [] => split_ws_aux [] r | _ => rev cur :: split_ws_aux [] r end
      else split_ws_aux (c :: cur) r
  end.

Definition split_ws (s : pystr) : list pystr := split_ws_aux [] s.

(** ** [posixpath.normpath] *)

Definition slash : N := 47.
Definition dot : pystr := [46].
Definition dotdot : pystr := [46; 46].

Fixpoint norm_comps (rooted : bool) (acc : list pystr) (comps : list pystr) : list pystr :=
  match comps with
  | [] => rev acc
  | c :: cs =>
      if bool_decide (c = []) || bool_decide (c = dot) then norm_comps rooted acc cs
      else if negb (bool_decide (c = dotdot))
              || (negb rooted && bool_decide (acc = []))
              || bool_decide (head acc = Some dotdot)
      then norm_comps rooted (c :: acc) cs
      else norm_comps rooted (tail acc) cs
  end.

Definition normpath (path : pystr) : pystr :=
  if bool_decide (path = []) then dot
  else
    let slashes :=
      if startswith [slash; slash] path && negb (startswith [slash; slash; slash] path) then 2%nat
      else if startswith [slash] path then 1%nat else 0%nat in
    let comps := norm_comps (bool_decide (slashes ≠ 0%nat)) [] (split_on slash path) in
    let res := replicate slashes slash ++ join [slash] comps in
    if bool_decide (res = []) then dot else res.

Example normpath_ex1 : normpath (ustr "/a//b/../c/./") = ustr "/a/c".
Proof. reflexivity. Qed.
Example normpath_ex2 : normpath (ustr "a/../..") = ustr "..".
Proof. reflexivity. Qed.
