(* ===== verification/Json.v ===== *)
(** * JSON ([json.loads] and [json.dumps])

    Python values are the type [pyobj]; a [dict] is the list of its items in
    insertion order.  The parser is that of [json.loads] with the hooks a caller
    can pass ([JsonHooks]); it is written with fuel, and [json_loads_fueled]
    (JsonSpec) shows that the fuel [loads_with] gives it never runs out.  [dumps] is
    [json.dumps] for the options the program uses.  The decimal text of a float,
    [repr], is the class [FloatRepr]; reading one is written out, correctly rounded.
    Nesting deep enough for Python's recursion limit is not modelled. *)

From Stdlib Require Import SpecFloat.
From S2P Require Import Prelude PyFloat Text.

Local Open Scope N_scope.

(** ** Values *)

Inductive pyobj :=
  | PNone
  | PBool (v : bool)
  | PInt (z : Z)
  | PFloat (x : float)
  | PStr (s : pystr)
  | PList (l : list pyobj)
  | PDict (l : list (pyobj * pyobj))
  | POther (type_name : string).

(** *** Induction over values *)

Section pyobj_ind.
Context (P : pyobj → Prop).
Context (HNone : P PNone) (HBool : ∀ v, P (PBool v)) (HInt : ∀ z, P (PInt z))
  (HFloat : ∀ x, P (PFloat x)) (HStr : ∀ s, P (PStr s))
  (HList : ∀ l, Forall P l → P (PList l))
  (HDict : ∀ l, Forall (λ kv, P kv.1 ∧ P kv.2) l → P (PDict l))
  (HOther : ∀ t, P (POther t)).

Fixpoint pyobj_nested_ind (v : pyobj) : P v :=
  match v with
  | PNone => HNone
  | PBool w => HBool w
  | PInt z => HInt z
  | PFloat x => HFloat x
  | PStr s => HStr s
  | PList l =>
      HList l ((fix go (l : list pyobj) : Forall P l :=
        match l with
        | [] => Forall_nil_2 _
        | x :: l' => Forall_cons_2 _ _ _ (pyobj_nested_ind x) (go l')
        end) l)
  | PDict l =>
      HDict l ((fix go (l : list (pyobj * pyobj)) : Forall (λ kv, P kv.1 ∧ P kv.2) l :=
        match l with
        | [] => Forall_nil_2 _
        | (k, x) :: l' =>
            Forall_cons_2 _ (k, x) _ (conj (pyobj_nested_ind k) (pyobj_nested_ind x)) (go l')
        end) l)
  | POther t => HOther t
  end.
End pyobj_ind.

(** ** Numbers *)

(** [sys.get_int_max_str_digits()]: a longer integer is neither read nor printed. *)
Definition INT_MAX_STR_DIGITS : nat := 4300.

(** The digits of the integer part and of the fraction, and the exponent. *)
Definition float_of_parts (neg : bool) (whole fraction : Decimal.uint) (exponent : Z) : float :=
  let x := decimal_float (Z.of_N (N.of_uint (Decimal.app whole fraction)))
             (exponent - Z.of_nat (Decimal.nb_digits fraction)) in
  if neg then fopp x else x.

(** ** Parsing *)

(** [parse_int], [parse_float], [parse_constant] and [object_pairs_hook]. *)
Record JsonHooks := {
  parse_int : bool → Decimal.uint → result pyobj;
  parse_float : bool → Decimal.uint → Decimal.uint → Z → result pyobj;
  parse_constant : pystr → result pyobj;
  object_pairs : list (pystr * pyobj) → result (list (pyobj * pyobj))
}.

Definition signed_value (neg : bool) (d : Decimal.uint) : Z :=
  let n := Z.of_N (N.of_uint d) in if neg then (- n)%Z else n.

(** [dict(pairs)]: a later value replaces an earlier one in place. *)
Fixpoint dict_set (key : pystr) (value : pyobj) (d : list (pyobj * pyobj)) : list (pyobj * pyobj) :=
  match d with
  | [] => [(PStr key, value)]
  | (k, v) :: d' =>
      if match k with PStr s => bool_decide (s = key) | _ => false end then (k, value) :: d'
      else (k, v) :: dict_set key value d'
  end.

(** [d.get(key)] *)
Fixpoint dict_get (key : pystr) (d : list (pyobj * pyobj)) : option pyobj :=
  match d with
  | [] => None
  | (k, v) :: d' =>
      if match k with PStr s => bool_decide (s = key) | _ => false end then Some v else dict_get key d'
  end.

Definition dict_of_pairs (pairs : list (pystr * pyobj)) : list (pyobj * pyobj) :=
  fold_left (λ d kv, dict_set kv.1 kv.2 d) pairs [].

Definition constant_value (name : pystr) : pyobj :=
  PFloat (if bool_decide (name = ustr "NaN") then S754_nan
          else S754_infinity (bool_decide (name = ustr "-Infinity"))).

Definition default_int (neg : bool) (d : Decimal.uint) : result pyobj :=
  raise_if (INT_MAX_STR_DIGITS <? Decimal.nb_digits d)%nat ValueError
    "Exceeds the limit (4300 digits) for integer string conversion";;
  mret (PInt (signed_value neg d)).

Definition default_hooks : JsonHooks :=
  {| parse_int := default_int;
     parse_float := λ neg whole fraction e, Ok (PFloat (float_of_parts neg whole fraction e));
     parse_constant := λ name, Ok (constant_value name);
     object_pairs := λ pairs, Ok (dict_of_pairs pairs) |}.

Definition json_ws (c : N) : bool := (c =? 32) || (c =? 9) || (c =? 10) || (c =? 13).
Definition skip_ws (s : pystr) : pystr := drop_while json_ws s.

Definition hex_val (c : N) : option N :=
  if (48 <=? c) && (c <=? 57) then Some (c - 48)
  else if (97 <=? c) && (c <=? 102) then Some (c - 87)
  else if (65 <=? c) && (c <=? 70) then Some (c - 55)
  else None.

Definition hex4 (c1 c2 c3 c4 : N) : option N :=
  h1 ← hex_val c1; h2 ← hex_val c2; h3 ← hex_val c3; h4 ← hex_val c4;
  Some (((h1 * 16 + h2) * 16 + h3) * 16 + h4).

Definition simple_escape (c : N) : option N :=
  match c with
  | 34 => Some 34 | 92 => Some 92 | 47 => Some 47 | 98 => Some 8
  | 102 => Some 12 | 110 => Some 10 | 114 => Some 13 | 116 => Some 9
  | _ => None
  end.

Definition is_high (c : N) : bool := (0xD800 <=? c) && (c <=? 0xDBFF).
Definition is_low (c : N) : bool := (0xDC00 <=? c) && (c <=? 0xDFFF).

Definition push (c : N) (m : result (pystr * pystr)) : result (pystr * pystr) :=
  prod_map (cons c) id <$> m.

(** The rest of a string after its opening quote. *)
Fixpoint scan_string (s : pystr) : result (pystr * pystr) :=
  match s with
  | [] => raise JSONDecodeError "Unterminated string"
  | c :: r =>
      if c =? 34 then Ok ([], r)
      else if c =? 92 then
        match r with
        | [] => raise JSONDecodeError "Unterminated string"
        | e :: r0 =>
            if e =? 117 then
              match r0 with
              | a1 :: a2 :: a3 :: a4 :: r4 =>
                  match hex4 a1 a2 a3 a4 with
                  | None => raise JSONDecodeError "Invalid \uXXXX escape"
                  | Some x =>
                      match r4 with
                      | c1 :: c2 :: d1 :: d2 :: d3 :: d4 :: r8 =>
                          if is_high x && (c1 =? 92) && (c2 =? 117) then
                            match hex4 d1 d2 d3 d4 with
                            | Some y =>
                                if is_low y
                                then push (0x10000 + (x - 0xD800) * 0x400 + (y - 0xDC00))
                                       (scan_string r8)
                                else push x (scan_string r4)
                            | None => raise JSONDecodeError "Invalid \uXXXX escape"
                            end
                          else push x (scan_string r4)
                      | _ => push x (scan_string r4)
                      end
                  end
              | _ => raise JSONDecodeError "Invalid \uXXXX escape"
              end
            else
              match simple_escape e with
              | Some x => push x (scan_string r0)
              | None => raise JSONDecodeError "Invalid \escape"
              end
        end
      else if c <=? 31 then raise JSONDecodeError "Invalid control character"
      else push c (scan_string r)
  end.

(** [(\.[0-9]+)] *)
Definition read_fraction (s : pystr) : option (Decimal.uint * pystr) :=
  match s with
  | 46 :: r => match r with
               | c :: _ => if is_digit c then Some (read_digits r) else None
               | [] => None
               end
  | _ => None
  end.

(** [([eE][-+]?[0-9]+)] *)
Definition read_exponent (s : pystr) : option (Z * pystr) :=
  match s with
  | e :: r =>
      if (e =? 101) || (e =? 69) then
        let '(neg, ds) :=
          match r with
          | c :: r' => if c =? 45 then (true, r') else if c =? 43 then (false, r') else (false, r)
          | [] => (false, r)
          end in
        match ds with
        | c :: _ =>
            if is_digit c then let '(d, rest) := read_digits ds in Some (signed_value neg d, rest)
            else None
        | [] => None
        end
      else None
  | [] => None
  end.

Definition lit_null : pystr := ustr "null".
Definition lit_true : pystr := ustr "true".
Definition lit_false : pystr := ustr "false".

Definition out_of_fuel : exn := Exn OtherError (ustr "fuel").

Section parser.
Context (h : JsonHooks).

(** The end of a number: its digits [d] are read, [rest] follows them. *)
Definition finish_number (neg : bool) (d : Decimal.uint) (rest : pystr) : result (pyobj * pystr) :=
  match read_fraction rest with
  | Some (fraction, r1) =>
      let '(e, r2) := default (0%Z, r1) (read_exponent r1) in
      v ← parse_float h neg d fraction e; mret (v, r2)
  | None =>
      match read_exponent rest with
      | Some (e, r2) => v ← parse_float h neg d Decimal.Nil e; mret (v, r2)
      | None => v ← parse_int h neg d; mret (v, rest)
      end
  end.

Definition scan_natural (neg : bool) (s : pystr) : result (pyobj * pystr) :=
  match s with
  | [] => raise JSONDecodeError "Expecting value"
  | c :: rest =>
      if c =? 48 then finish_number neg (Decimal.D0 Decimal.Nil) rest
      else if is_digit c then let '(d, rest) := read_digits s in finish_number neg d rest
      else raise JSONDecodeError "Expecting value"
  end.

Definition scan_number (s : pystr) : result (pyobj * pystr) :=
  match s with
  | c :: r => if c =? 45 then scan_natural true r else scan_natural false s
  | [] => scan_natural false s
  end.

Definition constant (name s : pystr) : result (pyobj * pystr) :=
  v ← parse_constant h name; mret (v, drop (length name) s).

(** A scalar that is not a string: [null], [true], [false], a number, or one of the
    constants [NaN], [Infinity], [-Infinity]. *)
Definition scan_scalar (s : pystr) : result (pyobj * pystr) :=
  if startswith lit_null s then Ok (PNone, drop 4 s)
  else if startswith lit_true s then Ok (PBool true, drop 4 s)
  else if startswith lit_false s then Ok (PBool false, drop 5 s)
  else if startswith (ustr "NaN") s then constant (ustr "NaN") s
  else if startswith (ustr "Infinity") s then constant (ustr "Infinity") s
  else if startswith (ustr "-Infinity") s then constant (ustr "-Infinity") s
  else scan_number s.

Fixpoint scan_once (fuel : nat) (s : pystr) {struct fuel} : result (pyobj * pystr) :=
  match fuel with
  | O => Raise out_of_fuel
  | S f =>
      match s with
      | [] => raise JSONDecodeError "Expecting value"
      | c :: r =>
          if c =? 34 then '(t, r') ← scan_string r; mret (PStr t, r')
          else if c =? 123 then
            match skip_ws r with
            | [] => raise JSONDecodeError "Expecting property name enclosed in double quotes"
            | x :: r' =>
                if x =? 125 then kvs ← object_pairs h []; mret (PDict kvs, r')
                else if x =? 34 then
                  '(pairs, r'') ← scan_pairs f r';
                  kvs ← object_pairs h pairs; mret (PDict kvs, r'')
                else raise JSONDecodeError "Expecting property name enclosed in double quotes"
            end
          else if c =? 91 then
            match skip_ws r with
            | [] => raise JSONDecodeError "Expecting value"
            | x :: r' =>
                if x =? 93 then mret (PList [], r')
                else '(l, r'') ← scan_elems f (x :: r'); mret (PList l, r'')
            end
          else scan_scalar s
      end
  end
(* the elements of an array, from the first character of one *)
with scan_elems (fuel : nat) (s : pystr) {struct fuel} : result (list pyobj * pystr) :=
  match fuel with
  | O => Raise out_of_fuel
  | S f =>
      '(v, r) ← scan_once f s;
      match skip_ws r with
      | [] => raise JSONDecodeError "Expecting ',' delimiter"
      | x :: r' =>
          if x =? 93 then mret ([v], r')
          else if x =? 44 then '(l, r'') ← scan_elems f (skip_ws r'); mret (v :: l, r'')
          else raise JSONDecodeError "Expecting ',' delimiter"
      end
  end
(* the items of an object, from after the opening quote of a key *)
with scan_pairs (fuel : nat) (s : pystr) {struct fuel}
    : result (list (pystr * pyobj) * pystr) :=
  match fuel with
  | O => Raise out_of_fuel
  | S f =>
      '(key, r) ← scan_string s;
      match skip_ws r with
      | [] => raise JSONDecodeError "Expecting ':' delimiter"
      | x :: r1 =>
          if x =? 58 then
            '(v, r2) ← scan_once f (skip_ws r1);
            match skip_ws r2 with
            | [] => raise JSONDecodeError "Expecting ',' delimiter"
            | y :: r3 =>
                if y =? 125 then mret ([(key, v)], r3)
                else if y =? 44 then
                  match skip_ws r3 with
                  | [] => raise JSONDecodeError "Expecting property name"
                  | q :: r4 =>
                      if q =? 34
                      then '(l, r5) ← scan_pairs f r4; mret ((key, v) :: l, r5)
                      else raise JSONDecodeError "Expecting property name"
                  end
                else raise JSONDecodeError "Expecting ',' delimiter"
            end
          else raise JSONDecodeError "Expecting ':' delimiter"
      end
  end.

Definition loads_with (text : pystr) : result pyobj :=
  let s := skip_ws text in
  '(v, rest) ← scan_once (2 * length s + 1) s;
  match skip_ws rest with
  | [] => mret v
  | _ => raise JSONDecodeError "Extra data"
  end.
End parser.

(** [json.loads] of a [str]: a byte order mark is refused. *)
Definition BOM : N := 0xFEFF.

Definition loads_hooks (h : JsonHooks) (text : pystr) : result pyobj :=
  raise_if (startswith [BOM] text) JSONDecodeError "Unexpected UTF-8 BOM (decode using utf-8-sig)";;
  loads_with h text.

Definition loads (text : pystr) : result pyobj := loads_hooks default_hooks text.

(** ** Serialization *)

Definition hex_digit (n : N) : N := if n <? 10 then 48 + n else 87 + n.

(** The characters [json.dumps(..., ensure_ascii=False)] writes for one character. *)
Definition escape_char (c : N) : pystr :=
  if c =? 34 then [92; 34] else if c =? 92 then [92; 92]
  else if c =? 10 then [92; 110] else if c =? 13 then [92; 114]
  else if c =? 9 then [92; 116] else if c =? 12 then [92; 102]
  else if c =? 8 then [92; 98]
  else if c <? 32 then [92; 117; 48; 48; hex_digit (c / 16); hex_digit (c mod 16)]
  else [c].

(** [\uXXXX] *)
Definition escape_unit (u : N) : pystr :=
  [92; 117; hex_digit (u / 4096); hex_digit (u / 256 mod 16); hex_digit (u / 16 mod 16); hex_digit (u mod 16)].

(** ... and with [ensure_ascii=True], the default: everything outside of printable
    ASCII is escaped, above the basic plane as two surrogates. *)
Definition escape_ascii (c : N) : pystr :=
  if (32 <=? c) && (c <=? 126) || (c <? 32) && (length (escape_char c) =? 2)%nat then escape_char c
  else if c <? 0x10000 then escape_unit c
  else escape_unit (0xD800 + (c - 0x10000) / 0x400) ++ escape_unit (0xDC00 + (c - 0x10000) mod 0x400).

Class FloatRepr := { float_repr : float → pystr }.

Record DumpOptions := {
  ensure_ascii : bool;
  allow_nan : bool;
  item_separator : pystr;
  key_separator : pystr
}.

Definition comma : pystr := [44].
Definition colon : pystr := [58].

(** The defaults of [json.dumps], and [separators=(",", ":")]. *)
Definition default_options : DumpOptions :=
  {| ensure_ascii := true; allow_nan := true; item_separator := ustr ", "; key_separator := ustr ": " |}.

Definition compact (o : DumpOptions) : DumpOptions :=
  {| ensure_ascii := ensure_ascii o; allow_nan := allow_nan o;
     item_separator := comma; key_separator := colon |}.

Definition no_nan (o : DumpOptions) : DumpOptions :=
  {| ensure_ascii := ensure_ascii o; allow_nan := false;
     item_separator := item_separator o; key_separator := key_separator o |}.

Definition keep_unicode (o : DumpOptions) : DumpOptions :=
  {| ensure_ascii := false; allow_nan := allow_nan o;
     item_separator := item_separator o; key_separator := key_separator o |}.

(** A string between quotes, each character written by [esc]. *)
Definition quoted (esc : N → pystr) (s : pystr) : pystr := 34 :: concat (map esc s) ++ [34].

Section writer.
Context `{!FloatRepr} (o : DumpOptions).

Definition escape : N → pystr := if ensure_ascii o then escape_ascii else escape_char.

Definition dump_int (z : Z) : result pystr :=
  raise_if (INT_MAX_STR_DIGITS <? length (str_of_int (Z.abs z)))%nat ValueError
    "Exceeds the limit (4300 digits) for integer string conversion";;
  mret (str_of_int z).

Definition dump_float (x : float) : result pystr :=
  if isfinite x then Ok (float_repr x)
  else if negb (allow_nan o) then raise ValueError "Out of range float values are not JSON compliant"
  else Ok (if isnan x then ustr "NaN" else if fltb f0 x then ustr "Infinity" else ustr "-Infinity").

(** A key that is a number, a boolean or [None] is written as its text. *)
Definition dump_key (k : pyobj) : result pystr :=
  match k with
  | PStr s => Ok s
  | PInt z => dump_int z
  | PFloat x => dump_float x
  | PBool true => Ok lit_true
  | PBool false => Ok lit_false
  | PNone => Ok lit_null
  | _ => raise TypeError "keys must be str, int, float, bool or None"
  end.

Fixpoint dumps (v : pyobj) : result pystr :=
  match v with
  | PNone => Ok lit_null
  | PBool true => Ok lit_true
  | PBool false => Ok lit_false
  | PInt z => dump_int z
  | PFloat x => dump_float x
  | PStr s => Ok (quoted escape s)
  | PList l =>
      items ← mapM id (map dumps l);
      mret (91 :: join (item_separator o) items ++ [93])
  | PDict l =>
      items ← mapM id (map (λ '(k, x),
        key ← dump_key k; value ← dumps x; mret (quoted escape key ++ key_separator o ++ value)) l);
      mret (123 :: join (item_separator o) items ++ [125])
  | POther _ => raise TypeError "Object is not JSON serializable"
  end.
End writer.

(** [sort_keys=True]: every object with its items in the order of its keys. *)
Definition key_le (p q : pyobj * pyobj) : bool :=
  match p.1, q.1 with PStr s, PStr t => str_le s t | _, _ => true end.

Fixpoint sort_keys (v : pyobj) : pyobj :=
  match v with
  | PList l => PList (map sort_keys l)
  | PDict l => PDict (sort_by key_le (map (λ '(k, x), (k, sort_keys x)) l))
  | _ => v
  end.

(** ** Examples *)

Definition no_repr : FloatRepr := {| float_repr := λ _, ustr "0.0" |}.

Example loads_ex :
  loads (ustr " {" ++ quoted escape_char (ustr "a") ++ ustr ": [1.5, -2e3, 0.1, NaN, 12]} ")
  = Ok (PDict [(PStr (ustr "a"), PList [PFloat (S754_finite false 6755399441055744 (-52));
      PFloat (S754_finite true 8796093022208000 (-42)); PFloat (S754_finite false 7205759403792794 (-56));
      PFloat S754_nan; PInt 12])]).
Proof. vm_compute. reflexivity. Qed.

Example dumps_ex :
  dumps (H := no_repr) default_options (PDict [(PStr [233; 0x1F600], PList [PInt (-7); PNone])])
  = Ok (ustr "{" ++ [34] ++ ustr "\u00e9\ud83d\ude00" ++ [34] ++ ustr ": [-7, null]}").
Proof. vm_compute. reflexivity. Qed.
