(* ===== verification/JsonSpec.v ===== *)
(** * JSON: termination of the parser, and reading back what was written

    [loads_with_fueled]: the fuel of [loads_with] never runs out, whatever the hooks.
    [reads_back]: the text of a value, with any escapes and separators the parser
    understands, is read as that value; [dumps_loads] is the case of [json.dumps]. *)

From Stdlib Require DecimalFacts DecimalPos.
From Stdlib Require Import SpecFloat.
From S2P Require Import Prelude PyFloat Text Json.

Local Open Scope N_scope.

(** The only exceptions are [ValueError]s: not the one of the fuel. *)
Definition fueled {A} (m : result A) : Prop :=
  match m with Ok _ => True | Raise e => is_value_error (exn_cls e) = true end.

Lemma fueled_bind {A B} (m : result A) (f : A → result B) :
  fueled m → (∀ x, m = Ok x → fueled (f x)) → fueled (m ≫= f).
Proof. destruct m as [x|e]; simpl; auto. Qed.

Lemma fueled_raise {A} (c : exn_class) (msg : string) :
  is_value_error c = true → fueled (raise (A := A) c msg).
Proof. done. Qed.

Lemma fueled_Ok {A} (x : A) : fueled (Ok x).
Proof. done. Qed.

Lemma fueled_push (c : N) (m : result (pystr * pystr)) : fueled m → fueled (push c m).
Proof. by destruct m. Qed.

Lemma fueled_guard (b : bool) (c : exn_class) (msg : string) :
  is_value_error c = true → fueled (raise_if b c msg).
Proof. by destruct b. Qed.

Lemma fueled_mapM {A B} (f : A → result B) (l : list A) :
  (∀ x, fueled (f x)) → fueled (mapM f l).
Proof.
  intros Hf. induction l as [|x l IH]; [done|]. cbn [mapM].
  apply fueled_bind; [apply Hf|]. intros y _. by apply fueled_bind.
Qed.

Lemma fueled_for_each {A} (f : A → result unit) (l : list A) :
  (∀ x, fueled (f x)) → fueled (for_each f l).
Proof.
  intros Hf. induction l as [|x l IH]; [done|]. cbn [for_each]. by apply fueled_bind.
Qed.

Lemma fueled_fmap {A B} (f : A → B) (m : result A) : fueled m → fueled (f <$> m).
Proof. by destruct m. Qed.

Lemma fueled_encode (s : pystr) : fueled (utf8_encode s).
Proof. unfold utf8_encode. by destruct (forallb scalar s). Qed.

(** Walks through a definition and closes the leaves. *)
Ltac fueled_tac :=
  repeat match goal with
  | |- fueled (raise _ _) => done
  | |- fueled (mret _) => done
  | |- fueled (Ok _) => done
  | |- fueled (raise_if _ _ _) => by apply fueled_guard
  | |- fueled (utf8_encode _) => apply fueled_encode
  | |- fueled (mapM _ _) => apply fueled_mapM; intros ?
  | |- fueled (for_each _ _) => apply fueled_for_each; intros ?
  | |- fueled (_ <$> _) => apply fueled_fmap
  | |- fueled (_ ≫= _) => apply fueled_bind; [|intros ? _]
  | |- fueled (match ?x with _ => _ end) => destruct x
  end; eauto.

Ltac fuel_step :=
  match goal with
  | |- fueled (raise _ _) => by apply fueled_raise
  | |- fueled (mret _) => apply fueled_Ok
  | |- fueled (Ok _) => apply fueled_Ok
  | |- fueled (_ ≫= _) => apply fueled_bind; [|intros ? ?]
  | |- fueled (push _ _) => apply fueled_push
  end.

(** Hooks that raise nothing but [ValueError]s. *)
Record hooks_fueled (h : JsonHooks) : Prop := {
  int_fueled : ∀ neg d, fueled (parse_int h neg d);
  float_fueled : ∀ neg d f e, fueled (parse_float h neg d f e);
  constant_fueled : ∀ name, fueled (parse_constant h name);
  pairs_fueled : ∀ pairs, fueled (object_pairs h pairs)
}.

Lemma default_hooks_fueled : hooks_fueled default_hooks.
Proof. split; try done. intros neg d. simpl. unfold default_int, raise_if. by case_match. Qed.

Section fuel.
Context (h : JsonHooks).
Implicit Types s r : pystr.

(** The remaining text is a proper suffix: every scanner consumes. *)
Lemma drop_while_length {A} (p : A → bool) (l : list A) :
  (length (drop_while p l) <= length l)%nat.
Proof. induction l as [|x l IH]; simpl; [lia|]. destruct (p x); simpl; lia. Qed.

Lemma skip_ws_length s : (length (skip_ws s) <= length s)%nat.
Proof. apply drop_while_length. Qed.

Lemma push_Ok (c : N) (m : result (pystr * pystr)) (t r : pystr) :
  push c m = Ok (t, r) → ∃ t', m = Ok (t', r) ∧ t = c :: t'.
Proof.
  unfold push. rewrite fmap_Ok. intros ([t' r'] & Hm & [= -> ->]). by exists t'.
Qed.

Lemma scan_string_length (n : nat) s (t r : pystr) :
  (length s <= n)%nat → scan_string s = Ok (t, r) → (length r < length s)%nat.
Proof.
  revert s t r. induction n as [|n IH]; intros s t r Hn; [destruct s; [done|simpl in Hn; lia]|].
  destruct s as [|c s]; [done|]. simpl in Hn. cbn [scan_string length].
  assert (Hstep : ∀ x s' k, (length s' <= n)%nat → push x (scan_string s') = Ok (t, r) →
    (length s' <= k)%nat → (length r < S k)%nat).
  { intros x s' k Hs' (t' & Ht' & _)%push_Ok Hk. apply IH in Ht'; lia. }
  repeat (case_match; try done); intros Hok; simplify_eq; try (simpl; lia);
    (eapply Hstep; [|exact Hok|]; simpl in *; lia).
Qed.

Lemma read_digits_length s (d : Decimal.uint) r :
  read_digits s = (d, r) → (length r <= length s)%nat.
Proof.
  revert d r. induction s as [|c s IH]; intros d r; simpl; [intros [= <- <-]; done|].
  destruct (is_digit c).
  - destruct (read_digits s) as [d' r'] eqn:Hd. intros [= <- <-].
    specialize (IH _ _ eq_refl). lia.
  - intros [= <- <-]. done.
Qed.

Lemma read_fraction_length s (d : Decimal.uint) r :
  read_fraction s = Some (d, r) → (length r <= length s)%nat.
Proof.
  unfold read_fraction. intros Hs. repeat (case_match; try done); simplify_eq.
  destruct (read_digits _) as [d' r'] eqn:Hd in Hs. injection Hs as <- <-.
  apply read_digits_length in Hd. simpl in *. lia.
Qed.

Lemma read_exponent_length s (e : Z) r :
  read_exponent s = Some (e, r) → (length r <= length s)%nat.
Proof.
  unfold read_exponent. intros Hs.
  destruct s as [|c s]; [done|]. destruct ((c =? 101) || (c =? 69)); [|done].
  set (p := match s with [] => _ | _ => _ end) in Hs.
  assert (Hp : (length p.2 <= length s)%nat).
  { unfold p. repeat case_match; simpl; lia. }
  destruct p as [neg ds]. simpl in Hp. destruct ds as [|x ds]; [done|].
  destruct (is_digit x); [|done]. destruct (read_digits (x :: ds)) as [d r'] eqn:Hd.
  injection Hs as <- <-. apply read_digits_length in Hd. simpl in *. lia.
Qed.

Lemma finish_number_length (neg : bool) (d : Decimal.uint) r (v : pyobj) (r' : pystr) :
  finish_number h neg d r = Ok (v, r') → (length r' <= length r)%nat.
Proof.
  unfold finish_number. destruct (read_fraction r) as [[f r1]|] eqn:Hf.
  - apply read_fraction_length in Hf. destruct (read_exponent r1) as [[e r2]|] eqn:He; cbn [default];
      intros (x & _ & [= <- <-])%bind_Ok; [apply read_exponent_length in He|]; lia.
  - destruct (read_exponent r) as [[e r2]|] eqn:He; intros (x & _ & [= <- <-])%bind_Ok;
      [apply read_exponent_length in He|]; lia.
Qed.

Lemma scan_natural_length (neg : bool) s (v : pyobj) r :
  scan_natural h neg s = Ok (v, r) → (length r < length s)%nat.
Proof.
  destruct s as [|c s]; [done|]. cbn [scan_natural].
  destruct (c =? 48); [intros ?%finish_number_length; simpl; lia|].
  destruct (is_digit c) eqn:Hc; [|done]. simpl. rewrite Hc.
  destruct (read_digits s) as [d r'] eqn:Hd. apply read_digits_length in Hd.
  intros ?%finish_number_length. lia.
Qed.

Lemma scan_number_length s (v : pyobj) r :
  scan_number h s = Ok (v, r) → (length r < length s)%nat.
Proof.
  destruct s as [|c s]; [done|]. unfold scan_number.
  destruct (c =? 45); intros H%scan_natural_length; simpl in *; lia.
Qed.

Lemma scan_scalar_length s (v : pyobj) r :
  scan_scalar h s = Ok (v, r) → (length r < length s)%nat.
Proof.
  unfold scan_scalar, constant.
  assert (Hd : ∀ (p : pystr) n, startswith p s = true → length p = n → (0 < n)%nat →
    (length (drop n s) < length s)%nat).
  { intros p n [k ->]%startswith_spec Hp Hn. rewrite length_drop, length_app. lia. }
  repeat (case_match; [intros Hs; inv_result; simplify_eq; eapply Hd; eauto; simpl; lia|]).
  apply scan_number_length.
Qed.

Lemma scan_string_fueled (n : nat) s : (length s <= n)%nat → fueled (scan_string s).
Proof.
  revert s. induction n as [|n IH]; intros [|c s] Hn; simpl in Hn;
    try by apply fueled_raise.
  { lia. }
  cbn [scan_string]. repeat case_match; try fuel_step; apply IH; simpl in *; lia.
Qed.

Lemma skip_ws_cons s (c : N) r : skip_ws s = c :: r → (length r < length s)%nat.
Proof. intros H. pose proof (skip_ws_length s) as Hl. rewrite H in Hl. simpl in Hl. lia. Qed.

(** Every scanner leaves less than it was given. *)
Lemma scan_length (f : nat) :
  (∀ s v r, scan_once h f s = Ok (v, r) → (length r < length s)%nat) ∧
  (∀ s l r, scan_elems h f s = Ok (l, r) → (length r < length s)%nat) ∧
  (∀ s l r, scan_pairs h f s = Ok (l, r) → (length r < length s)%nat).
Proof.
  induction f as [|f (IH1 & IH2 & IH3)]; [done|]. split_and!.
  - intros s v r. cbn [scan_once]. destruct s as [|c s]; [done|].
    destruct (c =? 34).
    { intros ([t r'] & Ht & [= <- <-])%bind_Ok.
      eapply scan_string_length in Ht; [|done]. simpl. lia. }
    destruct (c =? 123).
    { destruct (skip_ws s) as [|x r1] eqn:Hs; [done|]. apply skip_ws_cons in Hs.
      destruct (x =? 125); [intros (kvs & _ & [= <- <-])%bind_Ok; simpl; lia|].
      destruct (x =? 34); [|done]. intros ([p r2] & Hp & (kvs & _ & [= <- <-])%bind_Ok)%bind_Ok.
      apply IH3 in Hp. simpl. lia. }
    destruct (c =? 91).
    { destruct (skip_ws s) as [|x r1] eqn:Hs; [done|]. apply skip_ws_cons in Hs.
      destruct (x =? 93); [intros [= <- <-]; simpl; lia|].
      intros ([l r2] & Hl & [= <- <-])%bind_Ok. apply IH2 in Hl. simpl in *. lia. }
    apply scan_scalar_length.
  - intros s l r. cbn [scan_elems]. intros ([v r1] & Hv%IH1 & H')%bind_Ok.
    destruct (skip_ws r1) as [|x r2] eqn:Hs; [done|]. apply skip_ws_cons in Hs.
    destruct (x =? 93); [injection H' as <- <-; lia|]. destruct (x =? 44); [|done].
    apply bind_Ok in H' as ([l' r3] & Hl%IH2 & [= <- <-]).
    pose proof (skip_ws_length r2). lia.
  - intros s l r. cbn [scan_pairs]. intros ([k r1] & Hk & H')%bind_Ok.
    eapply scan_string_length in Hk; [|done].
    destruct (skip_ws r1) as [|x r2] eqn:Hs; [done|]. apply skip_ws_cons in Hs.
    destruct (x =? 58); [|done].
    apply bind_Ok in H' as ([v r3] & Hv%IH1 & H'). pose proof (skip_ws_length r2).
    destruct (skip_ws r3) as [|y r4] eqn:Hs3; [done|]. apply skip_ws_cons in Hs3.
    destruct (y =? 125); [injection H' as <- <-; lia|]. destruct (y =? 44); [|done].
    destruct (skip_ws r4) as [|q r5] eqn:Hs4; [done|]. apply skip_ws_cons in Hs4.
    destruct (q =? 34); [|done].
    apply bind_Ok in H' as ([l' r6] & Hl%IH3 & [= <- <-]). lia.
Qed.

Context (Hh : hooks_fueled h).

Lemma finish_number_fueled (neg : bool) (d : Decimal.uint) r : fueled (finish_number h neg d r).
Proof.
  unfold finish_number. destruct (read_fraction r) as [[f r1]|].
  - destruct (default _ _). fuel_step; [apply Hh|fuel_step].
  - destruct (read_exponent r) as [[e r2]|]; (fuel_step; [apply Hh|fuel_step]).
Qed.

Lemma scan_natural_fueled (neg : bool) s : fueled (scan_natural h neg s).
Proof.
  unfold scan_natural. repeat case_match; try fuel_step; apply finish_number_fueled.
Qed.

Lemma scan_scalar_fueled s : fueled (scan_scalar h s).
Proof.
  assert (Hc : ∀ name, fueled (constant h name s)).
  { intros name. unfold constant. fuel_step; [apply Hh|fuel_step]. }
  unfold scan_scalar. do 3 (case_match; [apply fueled_Ok|]). do 3 (case_match; [apply Hc|]).
  unfold scan_number. repeat case_match; apply scan_natural_fueled.
Qed.

Lemma scan_fueled (f : nat) :
  (∀ s, (2 * length s < f)%nat → fueled (scan_once h f s)) ∧
  (∀ s, (2 * length s + 1 < f)%nat → fueled (scan_elems h f s)) ∧
  (∀ s, (2 * length s + 1 < f)%nat → fueled (scan_pairs h f s)).
Proof.
  induction f as [|f (IH1 & IH2 & IH3)]; [split_and!; intros; lia|].
  pose proof (scan_length f) as (L1 & _ & _). split_and!.
  - intros s Hf. cbn [scan_once]. destruct s as [|c s]; [fuel_step|]. simpl in Hf.
    destruct (c =? 34); [fuel_step; [by eapply scan_string_fueled|case_match; fuel_step]|].
    destruct (c =? 123).
    { destruct (skip_ws s) as [|c1 r1] eqn:Hs; [fuel_step|]. apply skip_ws_cons in Hs.
      destruct (c1 =? 125); [fuel_step; [apply Hh|fuel_step]|].
      destruct (c1 =? 34); [|fuel_step].
      fuel_step; [apply IH3; lia|]. case_match. fuel_step; [|fuel_step].
      apply Hh. }
    destruct (c =? 91); [|apply scan_scalar_fueled].
    destruct (skip_ws s) as [|c1 r1] eqn:Hs; [fuel_step|]. apply skip_ws_cons in Hs.
    destruct (c1 =? 93); [fuel_step|].
    fuel_step; [apply IH2; simpl; lia|]. case_match. fuel_step.
  - intros s Hf. cbn [scan_elems]. fuel_step; [apply IH1; lia|]. destruct x as [v r1].
    apply L1 in H. destruct (skip_ws r1) as [|x r2] eqn:Hs; [fuel_step|].
    apply skip_ws_cons in Hs. destruct (x =? 93); [fuel_step|].
    destruct (x =? 44); [|fuel_step]. pose proof (skip_ws_length r2).
    fuel_step; [apply IH2; lia|]. case_match. fuel_step.
  - intros s Hf. cbn [scan_pairs]. fuel_step; [by eapply scan_string_fueled|].
    destruct x as [k r1]. eapply scan_string_length in H; [|done].
    destruct (skip_ws r1) as [|x r2] eqn:Hs; [fuel_step|]. apply skip_ws_cons in Hs.
    destruct (x =? 58); [|fuel_step]. pose proof (skip_ws_length r2).
    fuel_step; [apply IH1; lia|]. destruct x0 as [v r3]. apply L1 in H1.
    destruct (skip_ws r3) as [|y r4] eqn:Hs3; [fuel_step|]. apply skip_ws_cons in Hs3.
    destruct (y =? 125); [fuel_step|]. destruct (y =? 44); [|fuel_step].
    destruct (skip_ws r4) as [|q r5] eqn:Hs4; [fuel_step|]. apply skip_ws_cons in Hs4.
    destruct (q =? 34); [|fuel_step]. fuel_step; [apply IH3; lia|]. case_match. fuel_step.
Qed.

Lemma loads_with_fueled s : fueled (loads_with h s).
Proof.
  unfold loads_with. fuel_step.
  - destruct (scan_fueled (2 * length (skip_ws s) + 1)) as [H1 _]. apply H1. lia.
  - case_match. case_match; fuel_step.
Qed.
End fuel.


(** [json.loads] of a text: a value or a [ValueError]. *)
Lemma loads_hooks_fueled (h : JsonHooks) (s : pystr) : hooks_fueled h → fueled (loads_hooks h s).
Proof.
  intros Hh. unfold loads_hooks. apply fueled_bind; [by apply fueled_guard|]. intros _ _.
  by apply loads_with_fueled.
Qed.

(** ** Reading a quoted string *)

Section strings.
Implicit Types s rest : pystr.

Lemma hex_digit_inj (m n : N) : (m < 16)%N → (n < 16)%N → hex_digit m = hex_digit n → m = n.
Proof. intros Hm Hn. unfold hex_digit. destruct (N.ltb_spec m 10), (N.ltb_spec n 10); lia. Qed.

Lemma hex_val_digit (n : N) : n < 16 → hex_val (hex_digit n) = Some n.
Proof.
  intros Hn. unfold hex_digit, hex_val. destruct (N.ltb_spec n 10).
  - rewrite (proj2 (N.leb_le _ _)), (proj2 (N.leb_le (48 + n) 57)) by lia. simpl. f_equal. lia.
  - rewrite (proj2 (N.leb_gt (87 + n) 57)), andb_false_r by lia.
    rewrite (proj2 (N.leb_le _ _)), (proj2 (N.leb_le (87 + n) 102)) by lia. simpl. f_equal. lia.
Qed.

Lemma hex4_unit (u : N) :
  u < 0x10000 →
  hex4 (hex_digit (u / 4096)) (hex_digit (u / 256 mod 16)) (hex_digit (u / 16 mod 16)) (hex_digit (u mod 16))
  = Some u.
Proof.
  intros Hu. unfold hex4.
  assert (H1 : u / 4096 < 16) by (apply N.Div0.div_lt_upper_bound; lia).
  pose proof (N.mod_lt (u / 256) 16). pose proof (N.mod_lt (u / 16) 16). pose proof (N.mod_lt u 16).
  rewrite !hex_val_digit by lia. cbn [mbind option_bind]. f_equal.
  pose proof (N.div_mod' u 16). pose proof (N.div_mod' (u / 16) 16).
  pose proof (N.div_mod' (u / 16 / 16) 16).
  replace (u / 256) with (u / 16 / 16) in * by (rewrite N.Div0.div_div; reflexivity).
  replace (u / 4096) with (u / 16 / 16 / 16) in * by (rewrite !N.Div0.div_div; reflexivity).
  lia.
Qed.

(** An escape that is not a high surrogate is one character. *)
Lemma scan_unit (u : N) rest :
  u < 0x10000 → is_high u = false →
  scan_string (escape_unit u ++ rest) = push u (scan_string rest).
Proof.
  intros Hu Hh. unfold escape_unit. cbn [app scan_string]. change (92 =? 34) with false.
  change (92 =? 92) with true. change (117 =? 117) with true. cbv iota.
  rewrite hex4_unit, Hh by done. repeat case_match; done.
Qed.

(** Two escapes that are a surrogate pair are one character. *)
Lemma scan_pair (u v : N) rest :
  u < 0x10000 → v < 0x10000 → is_high u = true → is_low v = true →
  scan_string (escape_unit u ++ escape_unit v ++ rest)
  = push (0x10000 + (u - 0xD800) * 0x400 + (v - 0xDC00)) (scan_string rest).
Proof.
  intros Hu Hv Hh Hl. unfold escape_unit. cbn [app scan_string]. change (92 =? 34) with false.
  change (92 =? 92) with true. change (117 =? 117) with true. cbv iota.
  rewrite hex4_unit, Hh by done. cbn [andb]. by rewrite hex4_unit, Hl by done.
Qed.

Lemma escape_control (c : N) :
  c < 32 → [92; 117; 48; 48; hex_digit (c / 16); hex_digit (c mod 16)] = escape_unit c.
Proof.
  intros Hc. unfold escape_unit. rewrite (N.div_small c 4096), (N.div_small c 256) by lia.
  change (hex_digit 0) with 48. change (hex_digit (0 mod 16)) with 48. do 4 f_equal.
  rewrite (N.mod_small (c / 16)); [done|]. apply N.Div0.div_lt_upper_bound. lia.
Qed.

Lemma scan_escape (c : N) rest :
  scan_string (escape_char c ++ rest) = push c (scan_string rest).
Proof.
  unfold escape_char.
  destruct (N.eqb_spec c 34) as [->|H1]; [done|]. destruct (N.eqb_spec c 92) as [->|H2]; [done|].
  destruct (N.eqb_spec c 10) as [->|]; [done|]. destruct (N.eqb_spec c 13) as [->|]; [done|].
  destruct (N.eqb_spec c 9) as [->|]; [done|]. destruct (N.eqb_spec c 12) as [->|]; [done|].
  destruct (N.eqb_spec c 8) as [->|]; [done|].
  destruct (N.ltb_spec c 32) as [H3|H3].
  { rewrite escape_control by done. apply scan_unit; [lia|].
    unfold is_high. by rewrite (proj2 (N.leb_gt _ _)) by lia. }
  cbn [app scan_string]. rewrite (proj2 (N.eqb_neq c 34)), (proj2 (N.eqb_neq c 92)) by done.
  by rewrite (proj2 (N.leb_gt c 31)) by lia.
Qed.

Lemma scan_escape_ascii (c : N) rest :
  scalar c = true → scan_string (escape_ascii c ++ rest) = push c (scan_string rest).
Proof.
  intros Hc. apply scalar_bounds in Hc. unfold escape_ascii.
  destruct (_ || _); [apply scan_escape|]. destruct (N.ltb_spec c 0x10000) as [Hlt|Hge].
  - apply scan_unit; [done|]. unfold is_high. apply andb_false_iff. rewrite !N.leb_gt. lia.
  - rewrite <-(assoc_L (++)).
    pose proof (N.div_mod' (c - 0x10000) 0x400). pose proof (N.mod_lt (c - 0x10000) 0x400).
    assert ((c - 0x10000) / 0x400 < 0x400) by (apply N.Div0.div_lt_upper_bound; lia).
    unfold is_high, is_low in *.
    set (q := (c - 0x10000) / 0x400) in *. set (m := (c - 0x10000) mod 0x400) in *.
    rewrite scan_pair; [f_equal; lia|lia|lia|unfold is_high|unfold is_low];
      apply andb_true_iff; rewrite !N.leb_le; lia.
Qed.

Lemma scan_quoted (esc : N → pystr) s rest :
  Forall (λ c, ∀ r, scan_string (esc c ++ r) = push c (scan_string r)) s →
  scan_string (concat (map esc s) ++ 34 :: rest) = Ok (s, rest).
Proof.
  induction 1 as [|c s Hc Hs IH]; [done|]. cbn [map concat]. rewrite <-(assoc_L (++)), Hc.
  by rewrite IH.
Qed.

(** ** Reading an integer *)

(** What can follow a value inside a text. *)
Definition delim rest : bool :=
  match rest with [] => true | c :: _ => (c =? 44) || (c =? 93) || (c =? 125) end.

Lemma delim_cases rest :
  delim rest = true → rest = [] ∨ ∃ c r, rest = c :: r ∧ (c = 44 ∨ c = 93 ∨ c = 125).
Proof.
  destruct rest as [|c r]; [by left|]. simpl. rewrite !orb_true_iff, !N.eqb_eq. right. naive_solver.
Qed.

Lemma delim_not_digit rest : delim rest = true → head_not_digit rest = true.
Proof. intros [->|(c & r & -> & [-> | [-> | ->]])]%delim_cases; done. Qed.

Lemma delim_whole rest : delim rest = true → read_fraction rest = None ∧ read_exponent rest = None.
Proof. by intros [->|(c & r & -> & [-> | [-> | ->]])]%delim_cases. Qed.

Lemma is_digit_cases (c : N) :
  is_digit c = true → c = 48 ∨ c = 49 ∨ c = 50 ∨ c = 51 ∨ c = 52 ∨ c = 53 ∨ c = 54 ∨ c = 55
    ∨ c = 56 ∨ c = 57.
Proof. unfold is_digit. rewrite andb_true_iff, !N.leb_le. lia. Qed.

(** The first character of an integer. *)
Lemma int_head (z : Z) :
  ∃ c r, str_of_int z = c :: r ∧ (c = 45 ∨ is_digit c = true).
Proof.
  unfold str_of_int. destruct z as [|p|p]; [| |eauto].
  - destruct (uint_head (Z.to_N 0)) as (c & r & -> & Hc); eauto.
  - destruct (uint_head (Z.to_N (Z.pos p))) as (c & r & -> & Hc); eauto.
Qed.
End strings.

Section integers.
Context (h : JsonHooks).
Implicit Types rest : pystr.

Lemma scan_natural_uint (neg : bool) (n : N) rest :
  delim rest = true →
  scan_natural h neg (uint_chars (N.to_uint n) ++ rest)
  = (v ← parse_int h neg (N.to_uint n); mret (v, rest)).
Proof.
  intros Hr.
  assert (Hf : ∀ d, finish_number h neg d rest = (v ← parse_int h neg d; mret (v, rest))).
  { intros d. unfold finish_number. by destruct (delim_whole _ Hr) as [-> ->]. }
  pose proof (to_uint_unorm n) as Hu.
  pose proof (read_digits_uint (N.to_uint n) rest (delim_not_digit _ Hr)) as Hd.
  destruct (N.to_uint n) as [|d|d|d|d|d|d|d|d|d|d] eqn:Hd0; simpl in Hu.
  1: done.
  1: { assert (d = Decimal.Nil) as ->.
       { pose proof (DecimalFacts.nb_digits_nzhead d) as Hle.
         unfold Decimal.unorm in Hu. cbn [Decimal.nzhead] in Hu.
         destruct (Decimal.nzhead d) eqn:Hz; try discriminate Hu; injection Hu as Hu; [done|].
         rewrite Hu in Hle. simpl in Hle. lia. }
       apply Hf. }
  all: cbn [scan_natural app uint_chars] in *; rewrite Hd; cbn; by apply Hf.
Qed.

Lemma scan_once_digit (f : nat) (c : N) (r : pystr) :
  is_digit c = true → scan_once h (S f) (c :: r) = scan_natural h false (c :: r).
Proof. intros Hc%is_digit_cases. destruct_or! Hc; subst c; reflexivity. Qed.

Lemma scan_once_minus (f : nat) (c : N) (r : pystr) :
  is_digit c = true → scan_once h (S f) (45 :: c :: r) = scan_natural h true (c :: r).
Proof. intros Hc%is_digit_cases. destruct_or! Hc; subst c; reflexivity. Qed.

(** An integer is what the hook makes of its sign and digits. *)
Lemma scan_int (z : Z) (f : nat) rest :
  delim rest = true →
  scan_once h (S f) (str_of_int z ++ rest)
  = (v ← parse_int h (z <? 0)%Z (N.to_uint (Z.abs_N z)); mret (v, rest)).
Proof.
  intros Hr. unfold str_of_int. destruct z as [|p|p]; cbn [Z.to_N Z.abs_N].
  - by apply (scan_natural_uint false 0).
  - rewrite <-scan_natural_uint by done. destruct (uint_head (Npos p)) as (c & r & -> & Hc).
    by apply scan_once_digit.
  - rewrite <-scan_natural_uint by done. destruct (uint_head (Npos p)) as (c & r & -> & Hc).
    by apply scan_once_minus.
Qed.
End integers.

(** ** Reading a text

    A text is written with any escapes [esc], any text [fl] for floats, and
    separators that may hold white space; [reads] says that the parser's hooks
    understand them. *)

Definition head_ok (s : pystr) : Prop := ∃ c r, s = c :: r ∧ json_ws c = false ∧ c ≠ 93 ∧ c ≠ BOM.

Definition key_str (k : pyobj) : pystr := match k with PStr s => s | _ => [] end.

Section text.
Context (esc : N → pystr) (fl : float → pystr) (item_space key_space : pystr).

Fixpoint text_of (v : pyobj) : pystr :=
  match v with
  | PNone => lit_null
  | PBool true => lit_true
  | PBool false => lit_false
  | PStr s => quoted esc s
  | PInt z => str_of_int z
  | PFloat x => fl x
  | PList l => 91 :: join (44 :: item_space) (map text_of l) ++ [93]
  | PDict l =>
      123 :: join (44 :: item_space)
        (map (λ '(k, x), quoted esc (key_str k) ++ 58 :: key_space ++ text_of x) l) ++ [125]
  | POther _ => []
  end.

End text.

Section readable.
Context (str_ok : pystr → Prop) (int_ok : Z → Prop) (float_ok : float → Prop).

(** What the values inside a value satisfy; the keys of a dict are distinct strings. *)
Fixpoint readable (v : pyobj) : Prop :=
  match v with
  | PStr s => str_ok s
  | PInt z => int_ok z
  | PFloat x => float_ok x
  | PList l => foldr (λ x P, readable x ∧ P) True l
  | PDict l =>
      NoDup (map (λ kv, key_str kv.1) l) ∧
      foldr (λ '(k, x) P, (match k with PStr s => str_ok s | _ => False end ∧ readable x) ∧ P) True l
  | POther _ => False
  | _ => True
  end.

Lemma readable_list (l : list pyobj) : readable (PList l) ↔ Forall readable l.
Proof. induction l as [|x l IH]; simpl; rewrite ?Forall_cons; [done|]. simpl in IH. by rewrite IH. Qed.

Lemma readable_dict (l : list (pyobj * pyobj)) :
  readable (PDict l) ↔ NoDup (map (λ kv, key_str kv.1) l) ∧
    Forall (λ kv, (∃ s, kv.1 = PStr s ∧ str_ok s) ∧ readable kv.2) l.
Proof.
  simpl. f_equiv. induction l as [|[k x] l IH]; simpl; [done|]. rewrite Forall_cons, IH. simpl.
  destruct k; naive_solver.
Qed.

End readable.

Record reads (esc : N → pystr) (fl : float → pystr) (str_ok : pystr → Prop) (int_ok : Z → Prop)
    (float_ok : float → Prop) (h : JsonHooks) : Prop := {
  reads_str : ∀ s, str_ok s → Forall (λ c, ∀ r, scan_string (esc c ++ r) = push c (scan_string r)) s;
  reads_int : ∀ z, int_ok z → parse_int h (z <? 0)%Z (N.to_uint (Z.abs_N z)) = Ok (PInt z);
  reads_float : ∀ x, float_ok x → head_ok (fl x) ∧ ∀ f rest, delim rest = true →
    scan_once h (S f) (fl x ++ rest) = Ok (PFloat x, rest);
  reads_pairs : ∀ pairs, NoDup (map fst pairs) →
    object_pairs h pairs = Ok (map (λ kv, (PStr kv.1, kv.2)) pairs)
}.

Section reading.
Context (esc : N → pystr) (fl : float → pystr) (item_space key_space : pystr).
Context (str_ok : pystr → Prop) (int_ok : Z → Prop) (float_ok : float → Prop) (h : JsonHooks).
Context (Hitem : forallb json_ws item_space = true) (Hkey : forallb json_ws key_space = true).
Context (Hr : reads esc fl str_ok int_ok float_ok h).
Implicit Types s rest : pystr.

Let text := text_of esc fl item_space key_space.
Let ok := readable str_ok int_ok float_ok.
Let sep := 44 :: item_space.

Definition parses (v : pyobj) : Prop :=
  head_ok (text v) ∧
  ∀ fuel rest, delim rest = true → (2 * length (text v) <= fuel)%nat →
    scan_once h fuel (text v ++ rest) = Ok (v, rest).

Lemma skip_ws_app (w s : pystr) : forallb json_ws w = true → skip_ws (w ++ s) = skip_ws s.
Proof.
  unfold skip_ws. induction w as [|c w IH]; simpl; [done|]. intros [-> Hw]%andb_true_iff. by apply IH.
Qed.

Lemma skip_ws_head s rest : head_ok s → skip_ws (s ++ rest) = s ++ rest.
Proof. intros (c & r & -> & Hc & _). unfold skip_ws. simpl. by rewrite Hc. Qed.

Lemma head_ok_length s : head_ok s → (0 < length s)%nat.
Proof. intros (c & r & -> & _). simpl. lia. Qed.

Lemma head_ok_app s rest : head_ok s → head_ok (s ++ rest).
Proof. intros (c & r & -> & Hc). exists c, (r ++ rest). done. Qed.

Lemma head_ok_join (l : list pystr) s : head_ok s → head_ok (join sep (s :: l)).
Proof. intros Hs. destruct l; [done|]. by apply head_ok_app. Qed.

Lemma parse_elems (l : list pyobj) (fuel : nat) rest :
  Forall parses l → l ≠ [] →
  (2 * length (join sep (map text l)) < fuel)%nat →
  scan_elems h fuel (join sep (map text l) ++ 93 :: rest) = Ok (l, rest).
Proof.
  intros Hl. revert fuel. induction Hl as [|v l [Hhead Hv] Hl IH]; [done|]. intros fuel _ Hf.
  destruct fuel as [|fuel]; [lia|]. cbn [scan_elems].
  destruct l as [|w l].
  - cbn [map join] in *. rewrite Hv by (done || lia). done.
  - change (join sep (map text (v :: w :: l)))
      with (text v ++ sep ++ join sep (map text (w :: l))) in *.
    rewrite !length_app in Hf. cbn [length sep] in Hf.
    rewrite <-!(assoc_L (++)), Hv by (done || lia). cbn [mbind result_bind app].
    assert (Hh : head_ok (join sep (map text (w :: l)))).
    { apply Forall_cons in Hl as [[Hw _] _]. by apply head_ok_join. }
    unfold sep at 1. cbn [app].
    change (skip_ws (44 :: ?s)) with (44 :: s). cbv beta iota.
    change (44 =? 93) with false. change (44 =? 44) with true. cbv iota.
    rewrite (skip_ws_app item_space), (skip_ws_head _ _ Hh), IH by (done || lia). done.
Qed.

Definition item_text (kv : pyobj * pyobj) : pystr :=
  quoted esc (key_str kv.1) ++ 58 :: key_space ++ text kv.2.

Definition good_item (kv : pyobj * pyobj) : Prop :=
  (∃ k, kv.1 = PStr k ∧ str_ok k) ∧ parses kv.2.

Lemma parse_pairs (l : list (pyobj * pyobj)) :
  Forall good_item l → l ≠ [] →
  ∃ body, join sep (map item_text l) = 34 :: body ∧
  ∀ fuel rest, (2 * length body < fuel)%nat →
    scan_pairs h fuel (body ++ 125 :: rest) = Ok (map (λ kv, (key_str kv.1, kv.2)) l, rest).
Proof.
  intros Hl. induction Hl as [|[k v] l [(ks & Hk & Hks) [Hhead Hv]] Hl IH]; [done|]. intros _.
  simpl in Hk, Hhead, Hv. subst k.
  assert (Hhv := head_ok_length _ Hhead).
  assert (Hscan : ∀ fuel tl, (2 * length (text v) <= fuel)%nat → delim tl = true →
    scan_pairs h (S fuel) (concat (map esc ks) ++ 34 :: 58 :: key_space ++ text v ++ tl) =
    match tl with
    | [] => raise JSONDecodeError "Expecting ',' delimiter"
    | y :: r3 =>
        if y =? 125 then mret ([(ks, v)], r3)
        else if y =? 44 then
          match skip_ws r3 with
          | [] => raise JSONDecodeError "Expecting property name"
          | q :: r4 =>
              if q =? 34 then '(l, r5) ← scan_pairs h fuel r4; mret ((ks, v) :: l, r5)
              else raise JSONDecodeError "Expecting property name"
          end
        else raise JSONDecodeError "Expecting ',' delimiter"
    end).
  { intros fuel tl Hf Htl. cbn [scan_pairs].
    rewrite (scan_quoted esc) by (by apply (reads_str _ _ _ _ _ _ Hr)). cbn [mbind result_bind].
    change (skip_ws (58 :: ?s)) with (58 :: s). cbv beta iota. change (58 =? 58) with true.
    cbv iota. rewrite skip_ws_app, skip_ws_head, Hv by done. cbn [mbind result_bind].
    apply delim_cases in Htl as [->|(c & r & -> & [-> | [-> | ->]])]; reflexivity. }
  destruct l as [|w l].
  - exists (concat (map esc ks) ++ 34 :: 58 :: key_space ++ text v). split.
    { unfold item_text, quoted. cbn [map join fst snd key_str app]. by rewrite <-app_assoc. }
    intros fuel rest Hf. rewrite length_app in Hf. simpl in Hf. rewrite length_app in Hf.
    destruct fuel as [|fuel]; [lia|].
    rewrite <-(assoc_L (++)). cbn [app]. rewrite <-!(assoc_L (++)), Hscan by (done || lia). done.
  - destruct IH as (body & Hb & IH); [done|].
    exists (concat (map esc ks) ++ 34 :: 58 :: key_space ++ text v ++ sep ++ 34 :: body). split.
    { change (join sep (map item_text ((PStr ks, v) :: w :: l)))
        with (item_text (PStr ks, v) ++ sep ++ join sep (map item_text (w :: l))).
      rewrite Hb. unfold item_text, quoted. cbn [fst snd key_str]. rewrite <-!(assoc_L (++)). cbn [app].
      by rewrite <-!(assoc_L (++)). }
    intros fuel rest Hf. repeat (rewrite length_app in Hf; simpl in Hf).
    destruct fuel as [|fuel]; [lia|].
    rewrite <-(assoc_L (++)). cbn [app]. rewrite <-!(assoc_L (++)). unfold sep at 1. cbn [app].
    rewrite Hscan by (done || lia).
    change (44 =? 125) with false. change (44 =? 44) with true. cbv iota.
    rewrite <-?(assoc_L (++)), skip_ws_app by done.
    cbn [app]. change (skip_ws (34 :: ?s)) with (34 :: s). cbv beta iota. change (34 =? 34) with true.
    cbv iota. rewrite IH by lia. done.
Qed.

Lemma text_parses (v : pyobj) : ok v → parses v.
Proof.
  induction v as [|b|z|x|s|l IH|l IH| ] using pyobj_nested_ind; intros Hv; try done.
  - split; [by exists 110, [117; 108; 108]|]. by intros [|f] rest _ Hf; [simpl in Hf; lia|].
  - destruct b; (split; [do 2 eexists; split; [reflexivity|done]|]);
      by intros [|f] rest _ Hf; [simpl in Hf; lia|].
  - destruct (int_head z) as (c & r & Hz & Hc). split.
    + exists c, r. split; [done|]. destruct Hc as [->|Hc]; [done|].
      apply is_digit_cases in Hc. by destruct_or! Hc; subst.
    + intros [|f] rest Hd Hf; cbn [text text_of] in *; [rewrite Hz in Hf; simpl in Hf; lia|].
      rewrite scan_int by done. by rewrite (reads_int _ _ _ _ _ _ Hr).
  - destruct (reads_float _ _ _ _ _ _ Hr x Hv) as [Hx Hs]. split; [done|].
    intros [|f] rest Hd Hf; [apply head_ok_length in Hx; cbn [text text_of] in *; lia|]. by apply Hs.
  - split; [by do 2 eexists|]. intros [|f] rest _ Hf; [simpl in Hf; lia|].
    unfold text. cbn [text_of]. unfold quoted. cbn [app]. rewrite <-(assoc_L (++)).
    cbn [app scan_once]. change (34 =? 34) with true. cbv iota.
    by rewrite (scan_quoted esc) by (by apply (reads_str _ _ _ _ _ _ Hr)).
  - apply readable_list in Hv.
    assert (Hl : Forall parses l).
    { rewrite Forall_forall in *. intros x Hx. by apply IH, Hv. }
    split; [by do 2 eexists|]. intros fuel rest Hd Hf. unfold text in Hf |- *. cbn [text_of length] in Hf |- *.
    change (join (44 :: item_space)) with (join sep) in Hf |- *.
    change (text_of esc fl item_space key_space) with text in Hf |- *.
    rewrite length_app in Hf. simpl in Hf. destruct fuel as [|f]; [lia|].
    cbn [app]. rewrite <-(assoc_L (++)). cbn [app scan_once].
    change (91 =? 34) with false. change (91 =? 123) with false. change (91 =? 91) with true.
    cbv iota. destruct l as [|x l]; [done|].
    pose proof (parse_elems (x :: l) f rest Hl) as Hp. specialize (Hp ltac:(done) ltac:(lia)).
    apply Forall_cons in Hl as [[Hx _] _].
    destruct (head_ok_app _ (93 :: rest) (head_ok_join (map text l) _ Hx)) as (c & r & Hh & Hc1 & Hc2 & _).
    change (join sep (map text (x :: l)) ++ 93 :: rest = c :: r) in Hh.
    rewrite Hh in *. unfold skip_ws. cbn [drop_while]. rewrite Hc1.
    rewrite (proj2 (N.eqb_neq c 93)) by done. by rewrite Hp.
  - apply readable_dict in Hv as [Hnd Hv].
    split; [by do 2 eexists|].
    assert (Hgood : Forall good_item l).
    { rewrite Forall_forall in *. intros [k x] Hin. destruct (Hv _ Hin) as [Hk Hx].
      split; [done|]. by apply (IH _ Hin). }
    assert (Htext : text (PDict l) = 123 :: join sep (map item_text l) ++ [125]).
    { unfold text. cbn [text_of]. do 3 f_equal. apply map_ext. by intros []. }
    intros fuel rest Hd Hf. rewrite Htext in *. cbn [length] in Hf.
    rewrite length_app in Hf. simpl in Hf. destruct fuel as [|f]; [lia|].
    cbn [app]. rewrite <-(assoc_L (++)). cbn [app scan_once].
    change (123 =? 34) with false. change (123 =? 123) with true. cbv iota.
    destruct (decide (l = [])) as [->|Hnnil].
    { cbn [map join app]. change (skip_ws (125 :: ?s)) with (125 :: s). cbv beta iota.
      change (125 =? 125) with true. cbv iota.
      rewrite (reads_pairs _ _ _ _ _ _ Hr) by constructor. done. }
    destruct (parse_pairs l Hgood Hnnil) as (body & Hbody & Hp). rewrite Hbody in *.
    cbn [app]. change (skip_ws (34 :: ?s)) with (34 :: s). cbv beta iota.
    change (34 =? 125) with false. change (34 =? 34) with true. cbv iota.
    simpl in Hf. rewrite Hp by lia. cbn [mbind result_bind].
    rewrite (reads_pairs _ _ _ _ _ _ Hr) by (by rewrite map_map).
    cbn [mbind result_bind]. do 3 f_equal. rewrite map_map. rewrite <-(map_id l) at 2.
    apply map_ext_in. intros [k x] Hin%list_elem_of_In. rewrite Forall_forall in Hv.
    destruct (Hv _ Hin) as [(s & Hs & _) _]. simpl in *. by subst.
Qed.

(** The text of a readable value is read as that value. *)
Lemma reads_back (v : pyobj) : ok v → loads_with h (text v) = Ok v.
Proof.
  intros Hv. destruct (text_parses v Hv) as [Hh Hp]. unfold loads_with.
  rewrite <-(app_nil_r (text v)). rewrite skip_ws_head by done.
  rewrite Hp by (done || rewrite app_nil_r; lia). done.
Qed.
End reading.

(** ** What [json.dumps] writes *)

Lemma dict_set_new (k : pystr) (v : pyobj) (d : list (pyobj * pyobj)) :
  (∀ kv, kv ∈ d → kv.1 ≠ PStr k) → dict_set k v d = d ++ [(PStr k, v)].
Proof.
  induction d as [|[k' v'] d IH]; intros Hd; [done|]. cbn [dict_set].
  rewrite IH by (intros kv Hkv; apply Hd; by right).
  assert (Hk : k' ≠ PStr k) by (apply (Hd (k', v')); by left).
  destruct k' as [| | | |s| | |]; try done. rewrite bool_decide_eq_false_2 by congruence. done.
Qed.

Lemma dict_of_pairs_distinct (pairs : list (pystr * pyobj)) :
  NoDup (map fst pairs) → dict_of_pairs pairs = map (λ kv, (PStr kv.1, kv.2)) pairs.
Proof.
  unfold dict_of_pairs.
  assert (H : ∀ d, NoDup (map fst pairs) → (∀ kv, kv ∈ d → ∀ k, kv.1 = PStr k → k ∉ map fst pairs) →
    fold_left (λ d kv, dict_set kv.1 kv.2 d) pairs d = d ++ map (λ kv, (PStr kv.1, kv.2)) pairs).
  { induction pairs as [|[k v] pairs IH]; intros d Hnd Hd; simpl; [by rewrite app_nil_r|].
    simpl in Hnd. apply NoDup_cons in Hnd as [Hk Hnd].
    rewrite dict_set_new by (intros kv Hkv Heq; eapply Hd; [done..|by left]).
    rewrite IH; [by rewrite <-(assoc_L (++))|done|].
    intros kv [Hkv| ->%list_elem_of_singleton]%elem_of_app k' Hk'.
    - specialize (Hd _ Hkv _ Hk'). simpl in Hd. set_solver.
    - simpl in Hk'. congruence. }
  intros Hnd. rewrite (H []); [done|done|]. intros kv Hkv. by apply elem_of_nil in Hkv.
Qed.

Definition printable_int (z : Z) : Prop := (length (str_of_int (Z.abs z)) <= INT_MAX_STR_DIGITS)%nat.

Lemma default_int_reads (z : Z) :
  printable_int z → default_int (z <? 0)%Z (N.to_uint (Z.abs_N z)) = Ok (PInt z).
Proof.
  unfold printable_int, default_int. intros Hz.
  assert (Hd : (INT_MAX_STR_DIGITS <? Decimal.nb_digits (N.to_uint (Z.abs_N z)))%nat = false).
  { apply Nat.ltb_ge. rewrite <-length_uint_chars. by destruct z. }
  rewrite Hd. cbn [raise_if mbind result_bind]. unfold mret, result_ret. do 2 f_equal.
  unfold signed_value. rewrite of_uint_to_uint. destruct z as [|p|p]; simpl; lia.
Qed.

Section dumps.
Context `{!FloatRepr} (o : DumpOptions) (item_space key_space : pystr).
Context (Hsep : item_separator o = 44 :: item_space) (Hkey : key_separator o = 58 :: key_space).

(** The text of a float is that of a number the parser reads as the float. *)
Definition float_reads (h : JsonHooks) (x : float) : Prop :=
  isfinite x = true ∧ forallb scalar (float_repr x) = true ∧ head_ok (float_repr x) ∧
  ∀ f rest, delim rest = true → scan_once h (S f) (float_repr x ++ rest) = Ok (PFloat x, rest).

(** The values that survive: strings of characters, distinct keys, no [nan]. *)
Definition json_value (h : JsonHooks) (v : pyobj) : Prop :=
  readable (λ s, forallb scalar s = true) printable_int (float_reads h) v.

Lemma dumps_text (h : JsonHooks) (v : pyobj) :
  json_value h v → dumps o v = Ok (text_of (escape o) float_repr item_space key_space v).
Proof.
  unfold json_value. induction v as [|[]|z|x|s|l IH|l IH| ] using pyobj_nested_ind; intros Hv; try done.
  - simpl in Hv. cbn [dumps text_of]. unfold dump_int, printable_int in *.
    by rewrite (proj2 (Nat.ltb_ge _ _)).
  - destruct Hv as [Hx _]. cbn [dumps text_of]. unfold dump_float. by rewrite Hx.
  - apply readable_list in Hv. cbn [dumps text_of].
    rewrite (proj2 (mapM_Ok id _ (map (text_of (escape o) float_repr item_space key_space) l))).
    { cbn [mbind result_bind]. by rewrite Hsep. }
    apply Forall2_fmap, Forall_Forall2_diag. rewrite Forall_forall in *.
    intros x Hx. unfold id. by apply IH, Hv.
  - apply readable_dict in Hv as [_ Hv]. cbn [dumps text_of].
    rewrite (proj2 (mapM_Ok id _ (map (λ '(k, x), quoted (escape o) (key_str k) ++ 58 :: key_space
      ++ text_of (escape o) float_repr item_space key_space x) l))).
    { cbn [mbind result_bind]. by rewrite Hsep. }
    apply Forall2_fmap, Forall_Forall2_diag. rewrite Forall_forall in *.
    intros [k x] Hin. destruct (Hv _ Hin) as [(s & Hs & _) Hx]. simpl in Hs. subst k.
    destruct (IH _ Hin) as [_ IHx]. simpl in IHx. unfold id. cbn [dump_key mbind result_bind].
    rewrite IHx by done. cbn [mbind result_bind key_str]. by rewrite Hkey.
Qed.

Lemma escape_reads (s : pystr) :
  forallb scalar s = true →
  Forall (λ c, ∀ r, scan_string (escape o c ++ r) = push c (scan_string r)) s.
Proof.
  rewrite forallb_forall, Forall_forall. intros Hs c Hc%list_elem_of_In r. unfold escape.
  destruct (ensure_ascii o); [|apply scan_escape]. by apply scan_escape_ascii, Hs.
Qed.

(** *** Its characters *)

Lemma hex_digit_scalar (n : N) : n < 16 → scalar (hex_digit n) = true.
Proof. intros Hn. unfold hex_digit. destruct (n <? 10); apply scalar_bounds; lia. Qed.

Lemma escape_unit_scalar (u : N) : u < 0x10000 → forallb scalar (escape_unit u) = true.
Proof.
  intros Hu. unfold escape_unit. cbn [forallb].
  rewrite !hex_digit_scalar; [done|apply N.mod_lt; lia..|apply N.Div0.div_lt_upper_bound; lia].
Qed.

Lemma escape_scalar (c : N) : scalar c = true → forallb scalar (escape o c) = true.
Proof.
  intros Hc. pose proof (proj1 (scalar_bounds c) Hc) as Hb.
  assert (Hchar : forallb scalar (escape_char c) = true).
  { unfold escape_char. repeat (case_match; [done|]). case_match eqn:Hlt; [|simpl; by rewrite Hc].
    apply N.ltb_lt in Hlt. rewrite escape_control by done. apply escape_unit_scalar. lia. }
  unfold escape. destruct (ensure_ascii o); [|done]. unfold escape_ascii. destruct (_ || _); [done|].
  destruct (N.ltb_spec c 0x10000) as [Hlt|Hge]; [by apply escape_unit_scalar|].
  rewrite forallb_app, !escape_unit_scalar; [done| |].
  - pose proof (N.mod_lt (c - 0x10000) 0x400). lia.
  - assert ((c - 0x10000) / 0x400 < 0x400) by (apply N.Div0.div_lt_upper_bound; lia). lia.
Qed.

Lemma quoted_scalar (s : pystr) : forallb scalar s = true → forallb scalar (quoted (escape o) s) = true.
Proof.
  intros Hs. unfold quoted. cbn [forallb]. rewrite forallb_app. change (scalar 34) with true.
  change (forallb scalar [34]) with true. rewrite andb_true_r. cbn [andb].
  induction s as [|c s IH]; [done|]. cbn [forallb map concat] in *. apply andb_true_iff in Hs as [Hc Hs].
  by rewrite forallb_app, escape_scalar, IH.
Qed.

Lemma join_all_scalar (sep : pystr) (l : list pystr) :
  forallb scalar sep = true → Forall (λ s, forallb scalar s = true) l → forallb scalar (join sep l) = true.
Proof.
  intros Hs. induction 1 as [|s l Hsc Hl IH]; [done|]. destruct l as [|t l]; [done|].
  change (join sep (s :: t :: l)) with (s ++ sep ++ join sep (t :: l)). by rewrite !forallb_app, Hsc, Hs, IH.
Qed.

Lemma str_of_int_scalar (z : Z) : forallb scalar (str_of_int z) = true.
Proof.
  assert (Hu : ∀ d, forallb scalar (uint_chars d) = true) by (intros d; by induction d).
  unfold str_of_int. destruct z; try apply Hu.
Qed.

Lemma ws_scalar (s : pystr) : forallb json_ws s = true → forallb scalar s = true.
Proof.
  rewrite !forallb_elem. intros Hws c Hc%Hws. unfold json_ws in Hc. rewrite !orb_true_iff, !N.eqb_eq in Hc.
  by destruct_or! Hc; subst.
Qed.

(** The text of a value that survives has only characters. *)
Lemma text_of_scalar (h : JsonHooks) (v : pyobj) :
  forallb json_ws item_space = true → forallb json_ws key_space = true →
  json_value h v → forallb scalar (text_of (escape o) float_repr item_space key_space v) = true.
Proof.
  intros Hi Hk. unfold json_value.
  induction v as [|[]|z|x|s|l IH|l IH| ] using pyobj_nested_ind; intros Hv; try done.
  - apply str_of_int_scalar.
  - by destruct Hv as (_ & Hx & _).
  - by apply quoted_scalar.
  - apply readable_list in Hv. cbn [text_of forallb]. change (scalar 91) with true. cbn [andb].
    rewrite forallb_app, join_all_scalar; [done|cbn [forallb]; by rewrite ws_scalar|]. apply Forall_fmap.
    rewrite Forall_forall in *. intros x Hx. by apply IH, Hv.
  - apply readable_dict in Hv as [_ Hv]. cbn [text_of forallb]. change (scalar 123) with true. cbn [andb].
    rewrite forallb_app, join_all_scalar; [done|cbn [forallb]; by rewrite ws_scalar|]. apply Forall_fmap.
    rewrite Forall_forall in *. intros [k x] Hin. destruct (Hv _ Hin) as [(s & Hs & Hsc) Hx]. simpl in Hs, Hx. subst k.
    change (forallb scalar (quoted (escape o) s ++ 58 :: key_space
      ++ text_of (escape o) float_repr item_space key_space x) = true).
    rewrite forallb_app, quoted_scalar by done. cbn [forallb andb]. change (scalar 58) with true. cbn [andb].
    rewrite forallb_app, ws_scalar by done. cbn [andb]. by apply (IH _ Hin).
Qed.

(** What [dumps] writes, [loads] with the default integers and objects reads. *)
Lemma dumps_loads (h : JsonHooks) (v : pyobj) :
  forallb json_ws item_space = true → forallb json_ws key_space = true →
  parse_int h = default_int → object_pairs h = (λ pairs, Ok (dict_of_pairs pairs)) →
  json_value h v →
  ∃ s, dumps o v = Ok s ∧ loads_with h s = Ok v.
Proof.
  intros Hi Hk Hint Hpairs Hv. eexists. split; [by apply (dumps_text h)|].
  eapply (reads_back (escape o)); [done|done| |exact Hv]. split.
  - apply escape_reads.
  - intros z Hz. rewrite Hint. by apply default_int_reads.
  - intros x (_ & _ & H1 & H2). done.
  - intros pairs Hnd. by rewrite Hpairs, dict_of_pairs_distinct.
Qed.
End dumps.

(** ** The text of a value is one line *)

Lemma escape_char_plain (c : N) : 10%N ∉ escape_char c.
Proof.
  unfold escape_char. repeat (case_match; [apply (bool_decide_unpack _); vm_compute; exact I|]). case_match eqn:Hlt.
  - assert (Hx : ∀ n, (10 ≠ hex_digit n)%N) by (intros n; unfold hex_digit; case_match; lia).
    rewrite !not_elem_of_cons. split_and!; try done; try apply Hx. apply not_elem_of_nil.
  - rewrite list_elem_of_singleton. intros <-. discriminate.
Qed.

Lemma escape_ascii_plain (c : N) : 10%N ∉ escape_ascii c.
Proof.
  assert (Hx : ∀ n, (10 ≠ hex_digit n)%N) by (intros n; unfold hex_digit; case_match; lia).
  assert (Hu : ∀ u, 10%N ∉ escape_unit u).
  { intros u. unfold escape_unit. rewrite !not_elem_of_cons. split_and!; try done; try apply Hx. apply not_elem_of_nil. }
  unfold escape_ascii. repeat case_match; [apply escape_char_plain|apply Hu|]. by rewrite not_elem_of_app.
Qed.

Section lines.
Context `{FR : !FloatRepr} (o : DumpOptions).

Definition plain_floats : Prop := ∀ x, 10%N ∉ float_repr x.
Definition plain_separators : Prop := (10%N ∉ item_separator o) ∧ (10%N ∉ key_separator o).

Lemma quoted_plain (s : pystr) : 10%N ∉ quoted (escape o) s.
Proof.
  unfold quoted. rewrite not_elem_of_cons, not_elem_of_app. split_and!; [done| |by rewrite list_elem_of_singleton].
  intros (l & (c & <- & _)%in_map_iff & Hc%list_elem_of_In)%list_elem_of_In%in_concat. revert Hc. unfold escape.
  destruct (ensure_ascii o); [apply escape_ascii_plain|apply escape_char_plain].
Qed.

Lemma join_plain (sep : pystr) (l : list pystr) : 10%N ∉ sep → Forall (λ s, 10%N ∉ s) l → 10%N ∉ join sep l.
Proof.
  intros Hsep Hl. induction Hl as [|s l Hs Hl IH]; [apply not_elem_of_nil|]. destruct l as [|s' l]; [done|].
  change (join sep (s :: s' :: l)) with (s ++ sep ++ join sep (s' :: l)). by rewrite !not_elem_of_app.
Qed.

Lemma str_of_int_plain (z : Z) : 10%N ∉ str_of_int z.
Proof. by apply str_of_int_chars. Qed.

Lemma dump_key_plain (k : pyobj) (t : pystr) : plain_floats → (∀ s, k ≠ PStr s) → dump_key o k = Ok t → 10%N ∉ t.
Proof.
  intros Hf Hs. unfold dump_key. destruct k as [|[]|z|x|s| | |]; try done.
  1-3: by intros [= <-]; apply (bool_decide_unpack _); vm_compute.
  - unfold dump_int. rewrite guard_Ok. intros [_ [= <-]]. apply str_of_int_plain.
  - unfold dump_float. repeat case_match; intros [= <-]; [apply Hf|by apply (bool_decide_unpack _); vm_compute..].
  - intros _. by destruct (Hs s).
Qed.

Lemma mapM_id_Forall (P : pystr → Prop) {A} (f : A → result pystr) (l : list A) (ys : list pystr) :
  mapM id (map f l) = Ok ys → (∀ x y, x ∈ l → f x = Ok y → P y) → Forall P ys.
Proof.
  intros Hm HP. apply mapM_Ok in Hm. apply Forall_lookup. intros i y Hy.
  destruct (Forall2_lookup_r _ _ _ _ _ Hm Hy) as (m & Hi & Hmy). unfold id in Hmy. subst m.
  rewrite list_lookup_fmap in Hi. apply fmap_Some in Hi as (x & Hx & Heq). apply (HP x); [by eapply list_elem_of_lookup_2|done].
Qed.

(** The text of a value has no line feed. *)
Lemma dumps_plain (v : pyobj) : plain_floats → plain_separators → ∀ t, dumps o v = Ok t → 10%N ∉ t.
Proof.
  intros Hf [Hitem Hkey]. induction v as [|[]|z|x|s|l IH|l IH|t0] using pyobj_nested_ind; intros t; cbn [dumps].
  1-3: by intros [= <-]; apply (bool_decide_unpack _); vm_compute.
  - by apply (dump_key_plain (PInt z)).
  - by apply (dump_key_plain (PFloat x)).
  - intros [= <-]. apply quoted_plain.
  - intros (ys & Hm & [= <-])%bind_Ok. rewrite not_elem_of_cons, not_elem_of_app. split_and!; [done| |by rewrite list_elem_of_singleton].
    apply join_plain; [done|]. rewrite Forall_forall in IH. eapply mapM_id_Forall; [exact Hm|].
    intros x y Hx Hy. by apply (IH x).
  - intros (ys & Hm & [= <-])%bind_Ok. rewrite not_elem_of_cons, not_elem_of_app. split_and!; [done| |by rewrite list_elem_of_singleton].
    apply join_plain; [done|]. rewrite Forall_forall in IH. eapply mapM_id_Forall; [exact Hm|].
    intros [k x] y Hx Hy. apply bind_Ok in Hy as (key & _ & Hy). apply bind_Ok in Hy as (value & Hval & Hret).
    assert (y = quoted (escape o) key ++ key_separator o ++ value) as -> by (by injection Hret).
    rewrite !not_elem_of_app. split_and!; [apply quoted_plain|done|].
    by apply (IH _ Hx).
  - done.
Qed.
End lines.
