(* ===== verification/JsonBytes.v ===== *)
(** * [json.loads] of [bytes]

    The standard library guesses the encoding of the bytes ([detect_encoding]), decodes
    them with ["surrogatepass"] and parses the text.  [loads_bytes_utf8]: the bytes of
    a UTF-8 text that begins like a JSON text are read as that text. *)

From S2P Require Import Prelude PyFloat Text Json JsonSpec.

Local Open Scope N_scope.

Inductive Encoding := UTF8 (sig : bool) | UTF16 (big : bool) (mark : bool) | UTF32 (big : bool) (mark : bool).

(** A byte order mark, or the zeros among the first four bytes. *)
Definition detect_encoding (bs : list N) : Encoding :=
  if startswith [0; 0; 254; 255] bs then UTF32 true true
  else if startswith [255; 254; 0; 0] bs then UTF32 false true
  else if startswith [254; 255] bs then UTF16 true true
  else if startswith [255; 254] bs then UTF16 false true
  else if startswith [239; 187; 191] bs then UTF8 true
  else match bs with
       | b0 :: b1 :: b2 :: b3 :: _ =>
           if b0 =? 0 then if b1 =? 0 then UTF32 true false else UTF16 true false
           else if b1 =? 0 then if (b2 =? 0) && (b3 =? 0) then UTF32 false false else UTF16 false false
           else UTF8 false
       | [b0; b1] =>
           if b0 =? 0 then UTF16 true false else if b1 =? 0 then UTF16 false false else UTF8 false
       | _ => UTF8 false
       end.

(** ** One character; a surrogate passes *)

Definition utf8_pass (bs : list N) : option (N * list N) :=
  match bs with
  | [] => None
  | x :: r =>
      if x <? 128 then Some (x, r)
      else match r with
      | [] => None
      | y :: r1 =>
          if negb (is_cont y) then None
          else if (194 <=? x) && (x <=? 223) then Some (cp2 x y, r1)
          else match r1 with
          | [] => None
          | z :: r2 =>
              if negb (is_cont z) then None
              else if (224 <=? x) && (x <=? 239) then
                if cp3 x y z <? 0x800 then None else Some (cp3 x y z, r2)
              else match r2 with
              | [] => None
              | w :: r3 =>
                  if negb (is_cont w) then None
                  else if (240 <=? x) && (x <=? 244) then
                    if (cp4 x y z w <? 0x10000) || (0x110000 <=? cp4 x y z w) then None
                    else Some (cp4 x y z w, r3)
                  else None
              end
          end
      end
  end.

Definition unit16 (big : bool) (a b : N) : N := if big then a * 256 + b else b * 256 + a.

Definition utf16_pass (big : bool) (bs : list N) : option (N * list N) :=
  match bs with
  | a :: b :: r =>
      let u := unit16 big a b in
      match r with
      | c :: d :: r' =>
          let v := unit16 big c d in
          if is_high u && is_low v then Some (0x10000 + (u - 0xD800) * 0x400 + (v - 0xDC00), r')
          else Some (u, r)
      | _ => Some (u, r)
      end
  | _ => None
  end.

Definition utf32_pass (big : bool) (bs : list N) : option (N * list N) :=
  match bs with
  | a :: b :: c :: d :: r =>
      let u := if big then unit16 true a b * 65536 + unit16 true c d
               else unit16 false c d * 65536 + unit16 false a b in
      if u <? 0x110000 then Some (u, r) else None
  | _ => None
  end.

(** The characters one after another; each takes at least one byte. *)
Fixpoint decode_chars (next : list N → option (N * list N)) (fuel : nat) (bs : list N) : option pystr :=
  match bs, fuel with
  | [], _ => Some []
  | _, O => None
  | _, S f => '(c, r) ← next bs; cons c <$> decode_chars next f r
  end.

Definition decode_json_bytes (raw : bytes) : result pystr :=
  let bs := map N_of_ascii raw in
  let decode next body := match decode_chars next (length body) body with
                          | Some s => Ok s
                          | None => raise UnicodeDecodeError "invalid bytes"
                          end in
  match detect_encoding bs with
  | UTF8 sig => decode utf8_pass (if sig then drop 3 bs else bs)
  | UTF16 big mark => decode (utf16_pass big) (if mark then drop 2 bs else bs)
  | UTF32 big mark => decode (utf32_pass big) (if mark then drop 4 bs else bs)
  end.

Definition loads_bytes (raw : bytes) : result pyobj :=
  text ← decode_json_bytes raw; loads_with default_hooks text.

(** ** The bytes of a text *)

Lemma utf8_pass_char (c : N) (rest : list N) :
  scalar c = true → utf8_pass (utf8_char c ++ rest) = Some (c, rest).
Proof.
  intros Hc. pose proof (utf8_dec_char c [] Hc) as Hd. rewrite app_nil_r in Hd. revert Hd.
  unfold utf8_char. repeat case_match; cbn [app utf8_dec utf8_pass];
    repeat (case_match; try discriminate); cbn [fmap option_fmap option_map]; intros; congruence.
Qed.

Lemma decode_chars_utf8 (s : pystr) (fuel : nat) :
  forallb scalar s = true → (length (utf8_bytes s) <= fuel)%nat →
  decode_chars utf8_pass fuel (utf8_bytes s) = Some s.
Proof.
  revert fuel. unfold utf8_bytes. induction s as [|c s IH]; intros fuel Hs Hf; [by destruct fuel|].
  cbn [forallb map concat] in *. apply andb_true_iff in Hs as [Hc Hs]. rewrite length_app in Hf.
  assert (Hne : ∃ x r, utf8_char c = x :: r) by (unfold utf8_char; repeat case_match; eauto).
  destruct Hne as (x & r & Hx). destruct fuel as [|fuel]; [rewrite Hx in Hf; simpl in Hf; lia|].
  pose proof (utf8_pass_char c (concat (map utf8_char s)) Hc) as Hp. rewrite Hx in *. cbn [app decode_chars] in *.
  rewrite Hp. cbn [mbind option_bind]. rewrite IH by (done || simpl in Hf; lia). done.
Qed.

Lemma utf8_char_nonzero (c x : N) : c ≠ 0 → x ∈ utf8_char c → x ≠ 0.
Proof.
  intros Hc. unfold utf8_char. rewrite list_elem_of_In. repeat case_match; cbn [In]; intros Hx; destruct_or! Hx;
    first [done|subst; match goal with |- _ + ?y ≠ 0 => generalize y; lia | |- _ => lia end].
Qed.

Lemma detect_utf8 (c : N) (bs : list N) :
  0 < c < 128 → (∀ x, x ∈ c :: bs → x ≠ 0) → detect_encoding (c :: bs) = UTF8 false.
Proof.
  intros Hc Hbs. unfold detect_encoding. cbn [startswith].
  rewrite !(bool_decide_eq_false_2 (_ = c)) by lia. cbn [andb].
  assert (H0 : (c =? 0) = false) by (apply N.eqb_neq; lia).
  assert (H1 : ∀ x, x ∈ bs → (x =? 0) = false) by (intros x Hx; apply N.eqb_neq, Hbs; by right).
  destruct bs as [|b1 bs]; [done|]. rewrite H0. rewrite (H1 b1) by (by left). by repeat case_match.
Qed.

(** UTF-8 bytes of a text that starts in ASCII, with no zero byte, are detected as
    such and read as the text. *)
Lemma loads_bytes_utf8 (s : pystr) (raw : bytes) :
  utf8_encode s = Ok raw →
  (∃ c r, s = c :: r ∧ 0 < c < 128) → (∀ c, c ∈ s → c ≠ 0) →
  loads_bytes raw = loads_with default_hooks s.
Proof.
  intros He (c & r & Hs & Hc) Hz. unfold utf8_encode in He.
  destruct (forallb scalar s) eqn:Hsc; [|done]. injection He as <-.
  assert (Hin : ∀ x, x ∈ utf8_bytes s → ∃ a, a ∈ s ∧ x ∈ utf8_char a).
  { unfold utf8_bytes. intros x Hx%list_elem_of_In. apply in_concat in Hx as (l & (a & <- & Ha)%in_map_iff & Hx).
    exists a. by rewrite !list_elem_of_In. }
  unfold loads_bytes, decode_json_bytes. rewrite map_N_of_ascii_of_N.
  - assert (Hbs : ∃ bs, utf8_bytes s = c :: bs).
    { subst s. unfold utf8_bytes. cbn [map concat]. unfold utf8_char at 1.
      rewrite (proj2 (N.ltb_lt c 128)) by lia. by eexists. }
    destruct Hbs as [bs Hbs].
    assert (Hnz : ∀ x, x ∈ c :: bs → x ≠ 0).
    { rewrite <-Hbs. intros x (a & Ha & Hx)%Hin. eapply utf8_char_nonzero; [|exact Hx]. by apply Hz. }
    rewrite Hbs at 1. rewrite detect_utf8 by done. by rewrite decode_chars_utf8.
  - intros x (a & Ha & Hx)%Hin. eapply utf8_char_byte; [|exact Hx]. rewrite forallb_elem in Hsc. by apply Hsc.
Qed.
