(* ===== verification/Compare.v ===== *)
(** * The comparison of a candidate's answer ([src/rlvr/execution/compare.py],
    [src/rlvr/execution/rust_judge.py])

    [values_equal] compares the value a sandbox returned with the expected one, both
    read from JSON, so a value is never a tuple or a set.  [outputs_match] compares the
    words of two outputs.

    [values_equal_spec]: what equality accepts.  [outputs_match_spec]: the words. *)

From Stdlib Require Import SpecFloat.
From S2P Require Import Prelude PyFloat Text Json JsonSpec.

Local Open Scope Z_scope.

(** ** [values_equal] *)

Definition fabs (x : float) : float := SFabs x.

(** [1e-6] *)
Definition FLOAT_TOLERANCE : float := S754_finite false 4722366482869645 (-72).

(** [float(x)] of a number: an integer may be too large for a float. *)
Definition to_float (x : pyobj) : result float :=
  match x with
  | PInt z =>
      let f := float_of_int z in
      if isinf f then raise OverflowError "int too large to convert to float" else Ok f
  | PFloat f => Ok f
  | _ => raise TypeError "float() argument must be a string or a real number"
  end.

(** [math.isclose(a, b, rel_tol=tol, abs_tol=tol)] *)
Definition isclose (tol a b : float) : bool :=
  if feqb a b then true
  else if isinf a || isinf b then false
  else
    let diff := fabs (fsub b a) in
    fleb diff (fabs (fmul tol b)) || fleb diff (fabs (fmul tol a)) || fleb diff tol.

Definition close (tol af bf : float) : bool :=
  if isnan af && isnan bf then true
  else if isinf af || isinf bf then feqb af bf
  else isclose tol af bf.

(** The two sets of keys. *)
Definition has_keys (l k : list (pyobj * pyobj)) : bool :=
  forallb (λ kv, match kv.1 with PStr s => bool_decide (is_Some (dict_get s k)) | _ => false end) l.

Definition same_keys (l k : list (pyobj * pyobj)) : bool := has_keys l k && has_keys k l.

(** [all(...)]: the rest is looked at only after [True]. *)
Definition and_then (m k : result bool) : result bool :=
  match m with Ok true => k | _ => m end.

Fixpoint values_equal (tol : float) (a b : pyobj) {struct a} : result bool :=
  match a, b with
  | PBool x, PBool y => Ok (Bool.eqb x y)
  | PBool _, _ | _, PBool _ => Ok false
  | PInt x, PInt y => Ok (x =? y)
  | PInt _, PFloat _ | PFloat _, PInt _ | PFloat _, PFloat _ =>
      af ← to_float a; bf ← to_float b; mret (close tol af bf)
  | PList l, PList k =>
      if negb (zlen l =? zlen k) then Ok false
      else (fix all (l k : list pyobj) {struct l} : result bool :=
        match l, k with
        | x :: l', y :: k' => and_then (values_equal tol x y) (all l' k')
        | _, _ => Ok true
        end) l k
  | PDict l, PDict k =>
      if negb (same_keys l k) then Ok false
      else (fix all (l : list (pyobj * pyobj)) {struct l} : result bool :=
        match l with
        | [] => Ok true
        | (PStr key, x) :: l' =>
            match dict_get key k with
            | Some y => and_then (values_equal tol x y) (all l')
            | None => raise KeyError ""
            end
        | _ :: l' => all l'
        end) l
  | PNone, PNone => Ok true
  | PStr s, PStr t => Ok (bool_decide (s = t))
  | _, _ => Ok false
  end.

(** ** Rust outputs *)

(** [\x09-\x0d\x20] *)
Definition ascii_ws (c : N) : bool := ((9 <=? c) && (c <=? 13) || (c =? 32))%N.

(** [re.split] at the runs of white space: a run is a separator where it ends. *)
Fixpoint split_runs (s : pystr) : list pystr :=
  match s with
  | [] => [[]]
  | c :: r =>
      if ascii_ws c then
        match r with
        | d :: _ => if ascii_ws d then split_runs r else [] :: split_runs r
        | [] => [] :: split_runs r
        end
      else match split_runs r with
           | w :: ws => (c :: w) :: ws
           | [] => [[c]]
           end
  end.

Definition tokens (value : pystr) : list pystr :=
  let stripped := strip ascii_ws value in
  match stripped with [] => [] | _ => split_runs stripped end.

Definition outputs_match (actual expected : pystr) : bool :=
  bool_decide (tokens actual = tokens expected).

Example outputs_ex : outputs_match (ustr " 1  2" ++ [10]%N) (ustr "1 2") = true ∧
  outputs_match (ustr "12") (ustr "1 2") = false.
Proof. vm_compute. done. Qed.

Example equal_ex : values_equal FLOAT_TOLERANCE (PFloat (fdiv f1 (float_of_int 3)))
    (PFloat (fdiv (float_of_int 333333) (float_of_int 1000000))) = Ok true ∧
  values_equal FLOAT_TOLERANCE (PInt 1000000) (PInt 1000001) = Ok false ∧
  values_equal FLOAT_TOLERANCE (PBool true) (PInt 1) = Ok false.
Proof. vm_compute. done. Qed.

(** ** What equality accepts *)

(** A JSON value: the keys of its objects are distinct strings. *)
Definition json_like : pyobj → Prop := readable (λ _, True) (λ _, True) (λ _, True).

Definition is_float (v : pyobj) : bool := match v with PFloat _ => true | _ => false end.

Inductive same_value (tol : float) : pyobj → pyobj → Prop :=
  | same_none : same_value tol PNone PNone
  | same_bool (x : bool) : same_value tol (PBool x) (PBool x)
  | same_int (z : Z) : same_value tol (PInt z) (PInt z)
  | same_str (s : pystr) : same_value tol (PStr s) (PStr s)
  | same_number (a b : pyobj) (af bf : float) :
      is_float a || is_float b = true → to_float a = Ok af → to_float b = Ok bf → close tol af bf = true →
      same_value tol a b
  | same_list (l k : list pyobj) : Forall2 (same_value tol) l k → same_value tol (PList l) (PList k)
  | same_dict (l k : list (pyobj * pyobj)) :
      (∀ key, option_Forall2 (same_value tol) (dict_get key l) (dict_get key k)) →
      same_value tol (PDict l) (PDict k).

Lemma and_then_true (m k : result bool) : and_then m k = Ok true ↔ m = Ok true ∧ k = Ok true.
Proof. destruct m as [[]|]; simpl; naive_solver. Qed.

Lemma dict_get_elem (key : pystr) (x : pyobj) (l : list (pyobj * pyobj)) :
  NoDup (map (λ kv, key_str kv.1) l) → (PStr key, x) ∈ l → dict_get key l = Some x.
Proof.
  induction l as [|[k v] l IH]; intros Hnd Hin; [by apply elem_of_nil in Hin|].
  simpl in Hnd. apply NoDup_cons in Hnd as [Hk Hnd]. cbn [dict_get].
  apply elem_of_cons in Hin as [[= <- <-]|Hin]; [by rewrite bool_decide_eq_true_2|].
  destruct k as [| | | |s| | |]; try by apply IH. case_bool_decide as Hs; [|by apply IH].
  subst s. destruct Hk. apply list_elem_of_In, in_map_iff. exists (PStr key, x). by rewrite <-list_elem_of_In.
Qed.

Lemma dict_get_Some (key : pystr) (x : pyobj) (l : list (pyobj * pyobj)) :
  dict_get key l = Some x → (PStr key, x) ∈ l.
Proof.
  induction l as [|[k v] l IH]; [done|]. cbn [dict_get].
  destruct k as [| | | |s| | |]; try (intros H; right; by apply IH).
  case_bool_decide; [intros [= <-]; subst; by left|intros H'; right; by apply IH].
Qed.

Lemma has_keys_spec (l k : list (pyobj * pyobj)) :
  Forall (λ kv, ∃ s, kv.1 = PStr s) l → NoDup (map (λ kv, key_str kv.1) l) →
  has_keys l k = true ↔ ∀ key, is_Some (dict_get key l) → is_Some (dict_get key k).
Proof.
  intros Hs Hnd. unfold has_keys. rewrite forallb_elem. split.
  - intros H key [x Hx%dict_get_Some]. specialize (H _ Hx). by apply bool_decide_eq_true in H.
  - intros H [key x] Hin. rewrite Forall_forall in Hs. destruct (Hs _ Hin) as [s Hk]. simpl in Hk. subst key.
    apply bool_decide_eq_true, H. rewrite (dict_get_elem s x) by done. by eexists.
Qed.

Section equal.
Context (tol : float).

Lemma list_equal (l k : list pyobj) :
  Forall (λ a, json_like a → ∀ b, json_like b → values_equal tol a b = Ok true ↔ same_value tol a b) l →
  Forall json_like l → Forall json_like k →
  values_equal tol (PList l) (PList k) = Ok true ↔ Forall2 (same_value tol) l k.
Proof.
  intros IH Hl Hk. cbn [values_equal]. destruct (Z.eqb_spec (zlen l) (zlen k)) as [Hlen|Hlen]; cbn [negb].
  2: { split; [done|]. intros H%Forall2_length. unfold zlen in Hlen. lia. }
  assert (Hn : length l = length k) by (unfold zlen in Hlen; lia). clear Hlen.
  revert k Hk Hn. induction IH as [|a l Ha IHl IH]; intros [|b k] Hk Hn; try done.
  apply Forall_cons in Hl as [Hla Hl], Hk as [Hkb Hk]. rewrite and_then_true, Ha by done.
  rewrite (IH Hl k Hk) by (simpl in Hn; lia). split; [intros []; by constructor|by inversion 1].
Qed.

Lemma dict_equal (l k : list (pyobj * pyobj)) :
  Forall (λ kv, json_like kv.2 → ∀ b, json_like b → values_equal tol kv.2 b = Ok true ↔ same_value tol kv.2 b) l →
  json_like (PDict l) → json_like (PDict k) →
  values_equal tol (PDict l) (PDict k) = Ok true ↔
  ∀ key, option_Forall2 (same_value tol) (dict_get key l) (dict_get key k).
Proof.
  intros IH [Hnl Hl]%readable_dict [Hnk Hk]%readable_dict. cbn [values_equal].
  assert (Hsl : Forall (λ kv, ∃ s, kv.1 = PStr s) l) by (eapply Forall_impl; [exact Hl|]; naive_solver).
  assert (Hsk : Forall (λ kv, ∃ s, kv.1 = PStr s) k) by (eapply Forall_impl; [exact Hk|]; naive_solver).
  assert (Hall : ∀ l0, Forall (λ kv, ∃ s, kv.1 = PStr s) l0 → (∀ kv, kv ∈ l0 → kv ∈ l) →
    (fix all (l : list (pyobj * pyobj)) {struct l} : result bool :=
        match l with
        | [] => Ok true
        | (PStr key, x) :: l' =>
            match dict_get key k with
            | Some y => and_then (values_equal tol x y) (all l')
            | None => raise KeyError ""
            end
        | _ :: l' => all l'
        end) l0 = Ok true ↔
    ∀ key x, (PStr key, x) ∈ l0 → ∃ y, dict_get key k = Some y ∧ same_value tol x y).
  { induction l0 as [|[key x] l0 IH0]; intros Hs Hin.
    { split; [|done]. intros _ key x Hx. by apply elem_of_nil in Hx. }
    apply Forall_cons in Hs as [[s Hs] Hs0]. simpl in Hs. subst key.
    assert (Hx : (PStr s, x) ∈ l) by (apply Hin; by left).
    rewrite Forall_forall in IH, Hl. destruct (Hl _ Hx) as [_ Hjx]. simpl in Hjx.
    specialize (IH0 Hs0 ltac:(intros kv Hkv; apply Hin; by right)).
    destruct (dict_get s k) as [y|] eqn:Hy.
    - rewrite and_then_true, IH0. assert (Hjy : json_like y).
      { apply dict_get_Some in Hy. rewrite Forall_forall in Hk. by destruct (Hk _ Hy). }
      rewrite (IH _ Hx Hjx y Hjy). simpl. split.
      + intros [Hxy Hrest] key x' [[= -> ->]|H]%elem_of_cons; [by exists y|by apply Hrest].
      + intros H. split; [|intros key x' Hx'; apply H; by right].
        destruct (H s x) as (y' & Hy' & Hs'); [by left|]. congruence.
    - split; [done|]. intros H. destruct (H s x) as (y' & Hy' & _); [by left|]. congruence. }
  destruct (same_keys l k) eqn:Hsame; cbn [negb].
  - rewrite Hall by done. unfold same_keys in Hsame. apply andb_true_iff in Hsame as [H1 H2].
    rewrite has_keys_spec in H1, H2 by done. split.
    + intros H key. destruct (dict_get key l) as [x|] eqn:Hx.
      * destruct (H key x) as (y & -> & Hxy); [by apply dict_get_Some|]. by constructor.
      * destruct (dict_get key k) as [y|] eqn:Hy; [|constructor].
        destruct (H2 key) as [? ?]; [by exists y|congruence].
    + intros H key x Hx. specialize (H key). rewrite (dict_get_elem key x l) in H by done.
      inversion H; subst. by eexists.
  - split; [done|]. intros H. exfalso. apply not_true_iff_false in Hsame. apply Hsame. unfold same_keys.
    rewrite andb_true_iff, !has_keys_spec by done.
    split; intros key [x Hx]; specialize (H key); rewrite Hx in H; inversion H; by eexists.
Qed.

Lemma values_equal_same (a b : pyobj) :
  json_like a → json_like b → values_equal tol a b = Ok true ↔ same_value tol a b.
Proof.
  revert b. induction a as [|x|z|x|s|l IH|l IH|t] using pyobj_nested_ind; intros b Ha Hb.
  - destruct b; (split; intros Hb0; [first [discriminate|constructor]|first [reflexivity|by inversion Hb0; subst]]).
  - destruct b as [|y|z|y|s|k|k|t]; try (split; [done|by inversion 1; subst]).
    split; [intros [= ->%eqb_prop]; constructor|]. inversion 1; subst; simpl; [by destruct y|done].
  - destruct b as [|y|z'|y|s|k|k|t]; try (split; [done|by inversion 1; subst]).
    + split; [intros [= ->%Z.eqb_eq]; constructor|]. inversion 1; subst; simpl; [by rewrite Z.eqb_refl|done].
    + split.
      * cbn [values_equal]. intros (af & Ha' & (bf & Hb' & [= Hc])%bind_Ok)%bind_Ok. by eapply same_number.
      * inversion 1; subst. cbn [values_equal]. rewrite H1. cbn [mbind result_bind]. rewrite H2. cbn. by rewrite H3.
  - destruct b as [|y|z'|y|s|k|k|t]; try (split; [done|by inversion 1; subst]).
    + split.
      * cbn [values_equal]. intros (af & Ha' & (bf & Hb' & [= Hc])%bind_Ok)%bind_Ok. by eapply same_number.
      * inversion 1; subst. cbn [values_equal]. rewrite H1. cbn [mbind result_bind]. rewrite H2. cbn. by rewrite H3.
    + split.
      * cbn [values_equal]. intros (af & Ha' & (bf & Hb' & [= Hc])%bind_Ok)%bind_Ok. by eapply same_number.
      * inversion 1; subst. cbn [values_equal]. rewrite H1. cbn [mbind result_bind]. rewrite H2. cbn. by rewrite H3.
  - destruct b as [|y|z|y|s'|k|k|t]; try (split; [done|by inversion 1; subst]).
    cbn [values_equal]. split.
    + intros [= ->%bool_decide_eq_true]. constructor.
    + inversion 1; subst; [|done]. by rewrite bool_decide_eq_true_2.
  - destruct b as [|y|z|y|s'|k|k|t]; try (split; [done|by inversion 1; subst]).
    rewrite list_equal; [| |by apply readable_list..].
    + split; [by constructor|]. by inversion 1; subst.
    + eapply Forall_impl; [exact IH|]. naive_solver.
  - destruct b as [|y|z|y|s'|k|k|t]; try (split; [done|by inversion 1; subst]).
    rewrite dict_equal; [| |done|done].
    + split; [by constructor|]. by inversion 1; subst.
    + eapply Forall_impl; [exact IH|]. naive_solver.
  - destruct Ha.
Qed.

Lemma close_refl (x : float) : close tol x x = true.
Proof.
  unfold close, isclose. destruct x as [s|s| |s m e]; try done; simpl.
  - by destruct s.
  - assert (H : feqb (S754_finite s m e) (S754_finite s m e) = true).
    { unfold feqb, SFeqb, SFcompare. rewrite Z.compare_refl, Pcompare_refl. by destruct s. }
    by rewrite H.
Qed.

Lemma same_value_refl (a : pyobj) : json_like a → same_value tol a a.
Proof.
  induction a as [|x|z|x|s|l IH|l IH|t] using pyobj_nested_ind; intros Ha; try by constructor.
  - eapply (same_number _ _ _ x x); [done|done|done|apply close_refl].
  - constructor. apply readable_list in Ha. apply Forall_Forall2_diag.
    rewrite Forall_forall in *. intros x Hx. by apply IH, Ha.
  - constructor. apply readable_dict in Ha as [Hnd Ha]. intros key.
    destruct (dict_get key l) as [x|] eqn:Hx; constructor. apply dict_get_Some in Hx.
    rewrite Forall_forall in *. destruct (Ha _ Hx) as [_ Hjx]. by apply (IH _ Hx).
  - destruct Ha.
Qed.

(** The integers inside are within the range of floats. *)
Definition fits : pyobj → Prop := readable (λ _, True) (λ z, isinf (float_of_int z) = false) (λ _, True).

Lemma fits_to_float (a : pyobj) : fits a → match a with PInt _ | PFloat _ => is_ok (to_float a) = true | _ => True end.
Proof. destruct a; try done. simpl. by intros ->. Qed.

Lemma values_equal_ok (a b : pyobj) : fits a → fits b → is_ok (values_equal tol a b) = true.
Proof.
  revert b. induction a as [|x|z|x|s|l IH|l IH|t0] using pyobj_nested_ind; intros b Ha Hb;
    pose proof (fits_to_float _ Ha) as Hfa; pose proof (fits_to_float _ Hb) as Hfb; destruct b as [|y|z'|y|s'|k|k|t]; try done.
  - simpl in *. destruct (isinf _) eqn:Hi; [congruence|done].
  - simpl in *. destruct (isinf (float_of_int z')) eqn:Hi; [congruence|done].
  - cbn [values_equal]. destruct (negb _); [done|]. apply readable_list in Ha, Hb.
    revert k Hb Hfb. induction IH as [|a l IHa IHl IH]; intros [|b k] Hb _; try done.
    apply Forall_cons in Ha as [Ha Hl], Hb as [Hb Hk].
    specialize (IHa b Ha Hb). destruct (values_equal tol a b) as [[]|]; [|done..]. by apply IH.
  - cbn [values_equal]. destruct (negb (same_keys l k)) eqn:Hsame; [done|].
    apply negb_false_iff, andb_true_iff in Hsame as [H1 _].
    apply readable_dict in Ha as [_ Ha], Hb as [_ Hb]. unfold has_keys in H1. rewrite forallb_elem in H1.
    induction IH as [|[key x] l [_ IHx] IHl IH]; [done|]. apply Forall_cons in Ha as [[(s & Hs & _) Hx] Ha].
    simpl in Hs, Hx, IHx. subst key. assert (H0 : (PStr s, x) ∈ (PStr s, x) :: l) by (by left).
    apply H1, bool_decide_eq_true in H0 as [y Hy]. simpl in Hy. rewrite Hy.
    apply dict_get_Some in Hy. rewrite Forall_forall in Hb. destruct (Hb _ Hy) as [_ Hfy].
    specialize (IHx y Hx Hfy). destruct (values_equal tol x y) as [[]|]; [|done..].
    apply IH; [done|done|]. intros kv Hkv. apply H1. by right.
Qed.
End equal.

(** ** The words of an output *)

Lemma split_runs_nonempty (s : pystr) : split_runs s ≠ [].
Proof. induction s as [|c s IH]; [done|]. cbn [split_runs]. by repeat case_match. Qed.

(** The reference: every white space character separates, empty parts do not count. *)
Fixpoint split_each (s : pystr) : list pystr :=
  match s with
  | [] => [[]]
  | c :: r =>
      if ascii_ws c then [] :: split_each r
      else match split_each r with
           | w :: ws => (c :: w) :: ws
           | [] => [[c]]
           end
  end.

Definition words (s : pystr) : list pystr := filter (λ w, w ≠ []) (split_each s).

Lemma split_both (s : pystr) : ∃ w ws vs,
  split_runs s = w :: ws ∧ split_each s = w :: vs ∧ filter (λ w, w ≠ []) ws = filter (λ w, w ≠ []) vs.
Proof.
  induction s as [|c s (w & ws & vs & Hr & He & Hf)]; [by exists [], [], []|].
  cbn [split_runs split_each]. destruct (ascii_ws c).
  - destruct s as [|d s].
    { injection Hr as <- <-. injection He as <-. by exists [], [[]], [[]]. }
    destruct (ascii_ws d) eqn:Hd.
    + exists [], ws, (split_each (d :: s)). rewrite Hr, He. cbn [split_each] in He. rewrite Hd in He.
      injection He as <- <-. split_and!; [done|done|]. by rewrite filter_cons_False by naive_solver.
    + exists [], (split_runs (d :: s)), (split_each (d :: s)). split_and!; [done|done|].
      rewrite Hr, He, !filter_cons, Hf. done.
  - rewrite Hr, He. by exists (c :: w), ws, vs.
Qed.

Lemma filter_split (s : pystr) : filter (λ w, w ≠ []) (split_runs s) = words s.
Proof. unfold words. destruct (split_both s) as (w & ws & vs & -> & -> & Hf). by rewrite !filter_cons, Hf. Qed.

Lemma words_drop (s : pystr) : words (drop_while ascii_ws s) = words s.
Proof.
  unfold words. induction s as [|c s IH]; [done|]. cbn [drop_while split_each].
  destruct (ascii_ws c) eqn:Hc; [by rewrite IH, filter_cons_False by naive_solver|].
  cbn [split_each]. by rewrite Hc.
Qed.

Lemma words_trailing (s t : pystr) : Forall (λ c, ascii_ws c = true) t → words (s ++ t) = words s.
Proof.
  intros Ht. assert (H0 : words t = []).
  { rewrite <-words_drop. induction Ht as [|c t Hc _ IH]; [done|]. cbn [drop_while]. by rewrite Hc. }
  assert (H : ∃ w ws vs, split_each (s ++ t) = w :: ws ∧ split_each s = w :: vs ∧
    filter (λ w, w ≠ []) ws = filter (λ w, w ≠ []) vs).
  { induction s as [|c s (w & ws & vs & H1 & H2 & H3)]; cbn [app split_each].
    - unfold words in H0. destruct t as [|d t]; [by exists [], [], []|]. apply Forall_cons in Ht as [Hd Ht].
      cbn [split_each] in *. rewrite Hd in *. exists [], (split_each t), []. split_and!; [done|done|].
      by rewrite filter_cons_False in H0 by naive_solver.
    - destruct (ascii_ws c).
      + exists [], (split_each (s ++ t)), (split_each s). split_and!; [done|done|]. by rewrite H1, H2, !filter_cons, H3.
      + rewrite H1, H2. by exists (c :: w), ws, vs. }
  unfold words. destruct H as (w & ws & vs & -> & -> & H). by rewrite !filter_cons, H.
Qed.

Lemma drop_while_split {A} (p : A → bool) (l : list A) :
  ∃ k, l = k ++ drop_while p l ∧ Forall (λ x, p x = true) k.
Proof.
  induction l as [|x l (k & Hk & Hp)]; simpl; [by exists []|]. destruct (p x) eqn:Hx.
  - exists (x :: k). simpl. rewrite <-Hk. auto.
  - by exists [].
Qed.

Lemma words_strip (s : pystr) : words (strip ascii_ws s) = words s.
Proof.
  unfold strip. rewrite <-(words_drop s). set (t := drop_while ascii_ws s).
  destruct (drop_while_split ascii_ws (rev t)) as (k & Hk & Hp).
  transitivity (words (rev (drop_while ascii_ws (rev t)) ++ rev k)).
  - symmetry. by apply words_trailing, Forall_rev.
  - by rewrite <-rev_app_distr, <-Hk, rev_involutive.
Qed.

(** Between its first and its last word, a run of white space separates two words. *)
Lemma runs_nonempty (s : pystr) :
  (∀ c, last s = Some c → ascii_ws c = false) →
  ∃ w ws, split_runs s = w :: ws ∧ Forall (λ w, w ≠ []) ws ∧
    (∀ c, head s = Some c → ascii_ws c = false → w ≠ []).
Proof.
  induction s as [|c s IH]; intros Hl; [by exists [], []|].
  cbn [split_runs]. destruct (ascii_ws c) eqn:Hc.
  - destruct s as [|d s]; [specialize (Hl c eq_refl); congruence|].
    destruct (IH Hl) as (w & ws & Hr & Hws & Hw). destruct (ascii_ws d) eqn:Hd.
    + exists w, ws. split_and!; [done|done|]. intros c' [= <-]. congruence.
    + exists [], (split_runs (d :: s)). split_and!; [done| |intros c' [= <-]; congruence].
      rewrite Hr. constructor; [by apply (Hw d)|done].
  - destruct s as [|d s]; [by exists [c], []|]. destruct (IH Hl) as (w & ws & -> & Hws & _).
    by exists (c :: w), ws.
Qed.

Lemma drop_while_head {A} (p : A → bool) (l : list A) (x : A) : head (drop_while p l) = Some x → p x = false.
Proof. induction l as [|y l IH]; simpl; [done|]. destruct (p y) eqn:Hy; [done|]. by intros [= <-]. Qed.

Lemma strip_ends (s : pystr) (c : N) :
  (head (strip ascii_ws s) = Some c → ascii_ws c = false) ∧ (last (strip ascii_ws s) = Some c → ascii_ws c = false).
Proof.
  unfold strip. set (t := drop_while ascii_ws s). split.
  - intros Hh. destruct (drop_while_split ascii_ws (rev t)) as (k & Hk & _).
    apply (f_equal (@rev N)) in Hk. rewrite rev_involutive, rev_app_distr in Hk.
    apply (drop_while_head ascii_ws s). fold t. rewrite Hk.
    by destruct (rev (drop_while ascii_ws (rev t))).
  - rewrite <-head_reverse. unfold reverse. rewrite <-rev_alt, rev_involutive. apply drop_while_head.
Qed.

Lemma tokens_words (s : pystr) : tokens s = words s.
Proof.
  rewrite <-words_strip. unfold tokens. destruct (strip ascii_ws s) as [|c r] eqn:Hs; [done|].
  rewrite <-filter_split, <-Hs. symmetry. apply filter_all.
  destruct (runs_nonempty (strip ascii_ws s)) as (w & ws & -> & Hws & Hw).
  { intros x Hx. by apply (strip_ends s x). }
  assert (Hhead : head (strip ascii_ws s) = Some c) by (by rewrite Hs).
  intros x [->|Hx]%elem_of_cons; [|rewrite Forall_forall in Hws; by apply Hws].
  apply (Hw c Hhead). by apply strip_ends in Hhead.
Qed.

Lemma words_plain (s w : pystr) (c : N) : w ∈ words s → c ∈ w → ascii_ws c = false.
Proof.
  unfold words. intros [_ Hw]%list_elem_of_filter Hc. revert w Hw Hc.
  induction s as [|x s IH]; intros w; cbn [split_each].
  - intros ->%list_elem_of_singleton Hc. by apply elem_of_nil in Hc.
  - destruct (ascii_ws x) eqn:Hx.
    + intros [->|Hw]%elem_of_cons Hc; [by apply elem_of_nil in Hc|by apply (IH w)].
    + destruct (split_each s) as [|v vs].
      { intros ->%list_elem_of_singleton ->%list_elem_of_singleton. done. }
      intros [->|Hw]%elem_of_cons Hc; [|apply (IH w); [by right|done]].
      apply elem_of_cons in Hc as [->|Hc]; [done|]. apply (IH v); [by left|done].
Qed.

(** ** Properties *)

(** C34 (equivalence): on JSON values the executor's equality accepts exactly the same
    booleans, strings and integers, numbers within the tolerance when one of them is a
    float, lists of pairwise equal values, and objects with the same keys and equal
    values at each; a value equals itself, NaN included; and where the integers are
    within the range of floats the comparison always returns. *)
Theorem values_equal_spec (a b : pyobj) :
  json_like a → json_like b →
  (values_equal FLOAT_TOLERANCE a b = Ok true ↔ same_value FLOAT_TOLERANCE a b) ∧
  values_equal FLOAT_TOLERANCE a a = Ok true ∧
  (fits a → fits b → is_ok (values_equal FLOAT_TOLERANCE a b) = true).
Proof.
  intros Ha Hb. split_and!.
  - by apply values_equal_same.
  - apply values_equal_same; [done|done|]. by apply same_value_refl.
  - apply values_equal_ok.
Qed.

(** (equivalence): two Rust outputs match when they have the same words, where a word is
    what stands between two characters of ASCII white space and no word is empty; so
    white space around and between words never matters, and nothing else is ignored. *)
Theorem outputs_match_spec (actual expected : pystr) :
  (outputs_match actual expected = true ↔ words actual = words expected) ∧
  (∀ w, w ∈ tokens actual → w ≠ [] ∧ ∀ c, c ∈ w → ascii_ws c = false).
Proof.
  unfold outputs_match. rewrite !tokens_words, bool_decide_eq_true. split; [done|].
  intros w Hw. split; [|intros c; by apply (words_plain actual)]. unfold words in Hw. by apply list_elem_of_filter in Hw as [? _].
Qed.

(** (error): an answer that is an integer too large for a float, where the expected value
    is a float, makes the comparison raise instead of answering [False]. *)
Theorem large_integer_raises :
  values_equal FLOAT_TOLERANCE (PInt (10 ^ 400)) (PFloat f1)
  = raise OverflowError "int too large to convert to float".
Proof. vm_compute. reflexivity. Qed.

Lemma values_equal_spec_witness : values_equal FLOAT_TOLERANCE (PFloat S754_nan) (PFloat S754_nan) = Ok true.
Proof. apply (values_equal_spec (PFloat S754_nan) (PFloat S754_nan)); exact I. Defined.
