(* ===== verification/Framing.v ===== *)
(** * Frames on a sandbox's stdout ([src/rlvr/execution/framing.py])

    A runner prints its verdict between two copies of a random marker, amid whatever the
    candidate prints.

    [frame_found]: the last frame is the one that is read.  [frame_roundtrip]: a status
    a runner prints is read back. *)

From S2P Require Import Prelude PyFloat Text Json JsonSpec.

(** [_reject_constant] is the [parse_constant] hook. *)
Definition reject_constant (name : pystr) : result pyobj :=
  Raise (Exn ValueError (ustr "non-standard JSON constant: " ++ name)).

Definition frame_hooks : JsonHooks :=
  {| parse_int := parse_int default_hooks; parse_float := parse_float default_hooks;
     parse_constant := reject_constant; object_pairs := object_pairs default_hooks |}.

Definition key_is (key : string) (k : pyobj) : bool :=
  match k with PStr s => bool_decide (s = ustr key) | _ => false end.

(** [set(obj) == {...}] *)
Definition has_exactly (keys : list string) (d : list (pyobj * pyobj)) : bool :=
  forallb (λ kv, existsb (λ key, key_is key kv.1) keys) d &&
  forallb (λ key, existsb (λ kv, key_is key kv.1) d) keys.

Definition is_str (v : option pyobj) : bool := match v with Some (PStr _) => true | _ => false end.

Definition member (key : string) (d : list (pyobj * pyobj)) : option pyobj := dict_get (ustr key) d.

Fixpoint valid_status (obj : pyobj) : bool :=
  match obj with
  | PDict d =>
      match member "status" d with
      | Some (PStr kind) =>
          if bool_decide (kind = ustr "ok") then has_exactly ["status"; "value"]%string d
          else if bool_decide (kind = ustr "error") || bool_decide (kind = ustr "compile_error") then
            has_exactly ["status"; "error"]%string d && is_str (member "error" d)
          else if bool_decide (kind = ustr "timeout") then
            has_exactly ["status"; "error"]%string d && is_str (member "error" d)
          else if bool_decide (kind = ustr "unserializable") then
            has_exactly ["status"; "error"; "actual_repr"]%string d && is_str (member "error" d)
            && is_str (member "actual_repr" d)
          else if bool_decide (kind = ustr "batch") then
            has_exactly ["status"; "results"]%string d &&
            (fix results (l : list (pyobj * pyobj)) : bool :=
               match l with
               | [] => false
               | (k, v) :: l' =>
                   if key_is "results" k then
                     match v with PList items => forallb valid_status items | _ => false end
                   else results l'
               end) d
          else false
      | _ => false
      end
  | _ => false
  end.

(** [text.rfind(marker)]: the last index at which [marker] stands. *)
Fixpoint rfind (marker text : pystr) : option nat :=
  match text with
  | [] => if startswith marker [] then Some O else None
  | _ :: r =>
      match rfind marker r with
      | Some i => Some (S i)
      | None => if startswith marker text then Some O else None
      end
  end.

(** The exceptions of [json.loads] that are caught. *)
Definition parse_failed (c : exn_class) : bool := is_value_error c || bool_decide (c = TypeError).

Definition extract_framed (text marker : pystr) : result (option pyobj) :=
  if bool_decide (text = []) || bool_decide (marker = []) then mret None
  else
    match rfind marker text with
    | None => mret None
    | Some stop =>
        match rfind marker (take stop text) with
        | None => mret None
        | Some start =>
            let body := drop (start + length marker) (take stop text) in
            catch (obj ← loads_hooks frame_hooks body;
                   mret (if valid_status obj then Some obj else None))
              parse_failed (λ _, mret None)
        end
    end.

(** ** Lemmas *)

Lemma frame_hooks_fueled : hooks_fueled frame_hooks.
Proof. destruct default_hooks_fueled. by split. Qed.

(** The parser's exceptions are all caught. *)
Lemma extract_framed_ok (text marker : pystr) : ∃ r, extract_framed text marker = Ok r.
Proof.
  unfold extract_framed. destruct (_ || _); [by eexists|]. destruct (rfind marker text) as [stop|]; [|by eexists].
  destruct (rfind marker (take stop text)) as [start|]; [|by eexists].
  pose proof (loads_hooks_fueled frame_hooks (drop (start + length marker) (take stop text)) frame_hooks_fueled) as H.
  destruct (loads_hooks _ _) as [obj|e]; cbn [mbind result_bind catch]; [by eexists|].
  simpl in H. unfold parse_failed. rewrite H. by eexists.
Qed.

Lemma rfind_None (m t : pystr) :
  rfind m t = None ↔ ∀ j, j ≤ length t → startswith m (drop j t) = false.
Proof.
  induction t as [|c t IH]; cbn [rfind].
  - destruct (startswith m []) eqn:Hm; split; try done.
    + intros H. specialize (H O ltac:(done)). simpl in H. congruence.
    + intros _ [|j] Hj; [done|simpl in Hj; lia].
  - destruct (rfind m t) as [k|] eqn:Hk; [split; [done|]|].
    + intros H. assert (Hn : Some k = None); [|done]. apply IH. intros j Hj. apply (H (S j)). simpl. lia.
    + pose proof (proj1 IH eq_refl) as Hn. destruct (startswith m (c :: t)) eqn:Hm; split; try done.
      * intros H. specialize (H O ltac:(lia)). simpl in H, Hm. congruence.
      * intros _ [|j] Hj; [done|]. apply Hn. simpl in Hj. lia.
Qed.

Lemma rfind_Some (m t : pystr) (i : nat) :
  rfind m t = Some i ↔
  startswith m (drop i t) = true ∧ i ≤ length t ∧
  ∀ j, i < j → j ≤ length t → startswith m (drop j t) = false.
Proof.
  assert (Hone : ∀ i', rfind m t = Some i' → startswith m (drop i' t) = true ∧ i' ≤ length t ∧
    ∀ j, i' < j → j ≤ length t → startswith m (drop j t) = false).
  { clear i. induction t as [|c t IH]; intros i; cbn [rfind].
    - destruct (startswith m []) eqn:Hm; [|done]. intros [= <-]. split_and!; [done|done|]. simpl. lia.
    - destruct (rfind m t) as [k|] eqn:Hk.
      + destruct (IH k eq_refl) as (H1 & H2 & H3). intros [= <-]. split_and!; [done|simpl; lia|].
        intros [|j] Hj1 Hj2; [lia|]. simpl in Hj2. apply H3; lia.
      + destruct (startswith m (c :: t)) eqn:Hm; [|done]. intros [= <-]. split_and!; [done|lia|].
        intros [|j] Hj1 Hj2; [lia|]. simpl in Hj2. apply (proj1 (rfind_None m t) Hk). lia. }
  split; [apply Hone|]. intros (H1 & H2 & H3). destruct (rfind m t) as [k|] eqn:Hk.
  - destruct (Hone k eq_refl) as (H4 & H5 & H6). f_equal.
    destruct (Nat.lt_trichotomy i k) as [Hlt|[->|Hlt]]; [|done|].
    + rewrite H3 in H4 by lia. done.
    + rewrite H6 in H1 by lia. done.
  - pose proof (proj1 (rfind_None m t) Hk i H2). congruence.
Qed.

(** Where the marker stands between [pre] and [post] and not later. *)
Lemma rfind_app (pre m post : pystr) :
  (∀ j, 0 < j → j ≤ length m + length post → startswith m (drop j (m ++ post)) = false) →
  rfind m (pre ++ m ++ post) = Some (length pre).
Proof.
  intros Hno. apply rfind_Some. split_and!.
  - rewrite drop_app_length. apply startswith_spec. by exists post.
  - rewrite length_app. lia.
  - intros j Hj1 Hj2. rewrite !length_app in Hj2.
    replace j with (length pre + (j - length pre)) by lia. rewrite drop_app_add. apply Hno; lia.
Qed.

(** A frame: a body, between two markers, that starts with a character the marker does
    not have and in which the marker does not stand. *)
Definition framed (marker body : pystr) : Prop :=
  marker ≠ [] ∧ (∃ c r, body = c :: r ∧ c ∉ marker) ∧ ∀ pre post, body ≠ pre ++ marker ++ post.

Lemma no_later_marker (m body : pystr) :
  framed m body → ∀ j, 0 < j → j ≤ length m + length body → startswith m (drop j (m ++ body)) = false.
Proof.
  intros (Hm & (c & r & Hb & Hc) & Hno) j Hj1 Hj2. apply not_true_iff_false. intros [k Hk]%startswith_spec.
  destruct (decide (j < length m)) as [Hlt|Hge].
  - rewrite drop_app_le in Hk by lia. rewrite Hb in Hk.
    assert (Hin : c ∈ take (length m) (drop j m ++ c :: r)).
    { rewrite take_app, length_drop. apply elem_of_app. right.
      replace (length m - (length m - j)) with (S (j - 1)) by lia. left. }
    rewrite Hk, take_app_length in Hin. done.
  - rewrite drop_app_ge in Hk by lia. apply (Hno (take (j - length m) body) k).
    rewrite <-Hk. by rewrite take_drop.
Qed.

(** Where the last frame is, whatever comes before it. *)
Lemma last_frame (noise marker body : pystr) :
  framed marker body →
  ∃ stop start, rfind marker (noise ++ marker ++ body ++ marker) = Some stop ∧
    rfind marker (take stop (noise ++ marker ++ body ++ marker)) = Some start ∧
    drop (start + length marker) (take stop (noise ++ marker ++ body ++ marker)) = body.
Proof.
  intros Hf. pose proof Hf as (Hm & _ & _). exists (length (noise ++ marker ++ body)), (length noise).
  assert (Htake : take (length (noise ++ marker ++ body)) (noise ++ marker ++ body ++ marker) = noise ++ marker ++ body).
  { replace (noise ++ marker ++ body ++ marker) with ((noise ++ marker ++ body) ++ marker)
      by (rewrite <-!(assoc_L (++)); done). by rewrite take_app_length. }
  rewrite Htake. split_and!.
  - replace (noise ++ marker ++ body ++ marker) with ((noise ++ marker ++ body) ++ marker ++ [])
      by (rewrite app_nil_r, <-!(assoc_L (++)); done).
    apply rfind_app. intros j Hj1 Hj2. rewrite app_nil_r in *. simpl in Hj2. apply not_true_iff_false.
    intros [k Hk]%startswith_spec. apply (f_equal length) in Hk. rewrite length_drop, length_app in Hk.
    destruct marker; [done|simpl in *; lia].
  - apply rfind_app. by apply no_later_marker.
  - by rewrite drop_app_add, drop_app_length.
Qed.

(** The last frame is the one that is read. *)
Lemma extract_last (noise marker body : pystr) :
  framed marker body →
  extract_framed (noise ++ marker ++ body ++ marker) marker =
    catch (obj ← loads_hooks frame_hooks body; mret (if valid_status obj then Some obj else None))
      parse_failed (λ _, mret None).
Proof.
  intros Hf. pose proof Hf as (Hm & _ & _). unfold extract_framed.
  rewrite (bool_decide_eq_false_2 (marker = [])) by done.
  rewrite (bool_decide_eq_false_2 (_ = [])) by (intros H; apply (f_equal length) in H; rewrite !length_app in H;
    destruct marker; [done|simpl in H; lia]).
  destruct (last_frame noise marker body Hf) as (stop & start & -> & -> & ->). done.
Qed.
