(* ===== verification/Canonical.v ===== *)
(** * Canonical JSON ([src/rlvr/v3/canonical.py])

    [json.loads] with the hooks the source passes, the validation of a value, and the
    canonical serialization.  [unicodedata] is the class [UnicodeData]. *)

From S2P Require Import Prelude PyFloat Text Json.

Local Open Scope N_scope.

Class UnicodeData := {
  nfc : pystr → pystr;            (* unicodedata.normalize("NFC", s) *)
  py_isprintable : N → bool       (* str.isprintable of one character *)
}.

Definition SAFE_INTEGER_MAX : Z := 2 ^ 53 - 1.
Definition MAX_NESTING_DEPTH : nat := 64.

Definition safe_integer (z : Z) : bool :=
  ((- SAFE_INTEGER_MAX <=? z) && (z <=? SAFE_INTEGER_MAX))%Z.

Section canonical.
Context `{!UnicodeData}.

(** ** Hooks of the JSON parser *)

Definition reject_number {A} : result A :=
  raise CanonicalizationError "non-integer number is not allowed".

Definition parse_integer (neg : bool) (d : Decimal.uint) : result pyobj :=
  v ← default_int neg d;
  raise_if (negb (match v with PInt z => safe_integer z | _ => false end)) CanonicalizationError
    "integer is outside the interoperable range";;
  mret v.

(** [_object_from_pairs]: the loop over the pairs with its growing dict. *)
Fixpoint object_from_pairs (res : list (pyobj * pyobj)) (pairs : list (pystr * pyobj))
    : result (list (pyobj * pyobj)) :=
  match pairs with
  | [] => Ok res
  | (key, value) :: pairs' =>
      raise_if (existsb (λ kv, match kv.1 with PStr k => bool_decide (k = key) | _ => false end) res)
        CanonicalizationError "duplicate object key";;
      object_from_pairs (res ++ [(PStr key, value)]) pairs'
  end.

(** ** Validation *)

Definition validate_protocol_string (value : pystr) : result unit :=
  raise_if (negb (bool_decide (nfc value = value))) CanonicalizationError
    "strings must be Unicode NFC";;
  raise_if (existsb is_surrogate value) CanonicalizationError
    "strings must not contain surrogate code points".

Fixpoint validate_json_value (value : pyobj) (depth : nat) : result unit :=
  match value with
  | PNone | PBool _ => Ok ()
  | PStr s => validate_protocol_string s
  | PInt z => raise_if (negb (safe_integer z)) CanonicalizationError
                "integer is outside the interoperable range"
  | PFloat _ => raise CanonicalizationError "floating-point values are not allowed"
  | PList l =>
      raise_if (MAX_NESTING_DEPTH <=? depth)%nat CanonicalizationError
        "maximum JSON nesting depth exceeded";;
      for_each (λ item, validate_json_value item (S depth)) l
  | PDict l =>
      raise_if (MAX_NESTING_DEPTH <=? depth)%nat CanonicalizationError
        "maximum JSON nesting depth exceeded";;
      for_each (λ '(key, item),
        (match key with
         | PStr k => validate_protocol_string k
         | _ => raise CanonicalizationError "object keys must be strings"
         end);;
        validate_json_value item (S depth)) l
  | POther _ => raise CanonicalizationError "unsupported JSON value"
  end.

(** ** Parsing *)

Definition strict_hooks : JsonHooks :=
  {| parse_int := parse_integer;
     parse_float := λ _ _ _ _, reject_number;
     parse_constant := λ _, reject_number;
     object_pairs := object_from_pairs [] |}.

Definition json_loads (text : pystr) : result pyobj := loads_with strict_hooks text.

Definition parse_strict_json (raw : bytes) : result pyobj :=
  catch
    (text ← utf8_decode raw;
     raise_if (startswith [BOM] text) CanonicalizationError "a UTF-8 BOM is not allowed";;
     value ← json_loads text;
     validate_json_value value 0;;
     mret value)
    (λ c, is_value_error c && negb (bool_decide (c = CanonicalizationError)))
    (λ _, raise CanonicalizationError "invalid canonical JSON input").

(** ** Serialization *)

(** The strings of [json.dumps(..., ensure_ascii=False)]. *)
Definition quote_string (s : pystr) : pystr := quoted escape_char s.

(** [key.encode("utf-16-be")]; a key that is not a string has no [encode]. *)
Definition sort_key (key : pyobj) : result (list N) :=
  match key with
  | PStr k => if forallb scalar k then Ok (utf16be k)
              else raise UnicodeEncodeError "surrogates not allowed"
  | _ => raise OtherError "object has no attribute 'encode'"
  end.

(** The items are serialized in the order of their sorted keys; the first
    exception in that order is the one raised. *)
Fixpoint serialize (value : pyobj) (depth : nat) : result pystr :=
  match value with
  | PNone => Ok lit_null
  | PBool true => Ok lit_true
  | PBool false => Ok lit_false
  | PStr s => Ok (quote_string s)
  | PInt z => Ok (str_of_int z)
  | PList l =>
      raise_if (MAX_NESTING_DEPTH <=? depth)%nat CanonicalizationError
        "maximum JSON nesting depth exceeded";;
      items ← mapM id (map (λ item, serialize item (S depth)) l);
      mret (91 :: join comma items ++ [93])
  | PDict l =>
      raise_if (MAX_NESTING_DEPTH <=? depth)%nat CanonicalizationError
        "maximum JSON nesting depth exceeded";;
      keyed ← mapM (λ '(rk, sk, sv), kk ← rk; mret (kk, sk, sv))
        (map (λ '(key, item),
           (sort_key key, serialize key (S depth), serialize item (S depth))) l);
      items ← mapM (λ '(kk, rk, rv), sk ← rk; sv ← rv; mret (sk ++ colon ++ sv))
        (sort_by (λ p q, str_le p.1.1 q.1.1) keyed);
      mret (123 :: join comma items ++ [125])
  | PFloat _ | POther _ => raise CanonicalizationError "unsupported JSON value"
  end.

Definition canonical_json_bytes (value : pyobj) : result bytes :=
  validate_json_value value 0;;
  catch (out ← serialize value 0; utf8_encode out)
    (λ c, is_value_error c && negb (bool_decide (c = CanonicalizationError))
          || bool_decide (c = TypeError))
    (λ _, raise CanonicalizationError "value cannot be serialized").
End canonical.

(** ** Examples *)

Definition ascii_unicode : UnicodeData :=
  {| nfc := λ s, s; py_isprintable := λ c, (32 <=? c) && (c <? 127) |}.

Example canonical_ex :
  canonical_json_bytes (H := ascii_unicode)
    (PDict [(PStr (ustr "b"), PList [PInt (-7); PBool true; PNone]);
            (PStr (ustr "a"), PStr (ustr "x" ++ [10] ++ [34]))])
  = Ok (bstr "{" ++ [ascii_of_N 34] ++ bstr "a" ++ [ascii_of_N 34] ++ bstr ":" ++ [ascii_of_N 34]
        ++ bstr "x\n\" ++ [ascii_of_N 34; ascii_of_N 34] ++ bstr "," ++ [ascii_of_N 34]
        ++ bstr "b" ++ [ascii_of_N 34] ++ bstr ":[-7,true,null]}").
Proof. vm_compute. reflexivity. Qed.

Example parse_ex :
  parse_strict_json (H := ascii_unicode) (bstr " [1, -20 ,{} , [ ] ,true] ")
  = Ok (PList [PInt 1; PInt (-20); PDict []; PList []; PBool true]).
Proof. vm_compute. reflexivity. Qed.

Example parse_ex_float :
  is_ok (parse_strict_json (H := ascii_unicode) (bstr "[1.5]")) = false.
Proof. vm_compute. reflexivity. Qed.
