(* ===== verification/CanonicalSpec.v ===== *)
(** * Canonical JSON: the outcomes of the parser, and the round trip

    [json_loads_fueled]: the fuel of the parser never runs out with the strict hooks.
    [canonical_roundtrip]: what [canonical_json_bytes] writes, [parse_strict_json]
    reads back, with the items of every object in the canonical key order. *)

From Stdlib Require DecimalFacts DecimalPos.
From S2P Require Import Prelude PyFloat Text Json JsonSpec Canonical.

Local Open Scope N_scope.

(** ** The parser's hooks *)

Lemma object_from_pairs_fueled (res : list (pyobj * pyobj)) (pairs : list (pystr * pyobj)) :
  fueled (object_from_pairs res pairs).
Proof.
  revert res. induction pairs as [|[k v] pairs IH]; intros res; cbn [object_from_pairs]; [fuel_step|].
  unfold raise_if. case_match; repeat fuel_step; apply IH.
Qed.

Lemma strict_hooks_fueled : hooks_fueled strict_hooks.
Proof.
  split; try done.
  - intros neg d. cbn [parse_int strict_hooks]. unfold parse_integer.
    apply fueled_bind; [apply default_hooks_fueled|]. intros v _. unfold raise_if. by case_match.
  - intros pairs. apply object_from_pairs_fueled.
Qed.

Lemma json_loads_fueled (s : pystr) : fueled (json_loads s).
Proof. apply loads_with_fueled, strict_hooks_fueled. Qed.

(** A number of [k] bits has at most [k] decimal digits. *)
Lemma nb_digits_double (d : Decimal.uint) :
  (Decimal.nb_digits (Decimal.Little.double d) <= S (Decimal.nb_digits d))%nat ∧
  (Decimal.nb_digits (Decimal.Little.succ_double d) <= S (Decimal.nb_digits d))%nat.
Proof. induction d; simpl; lia. Qed.

Lemma nb_digits_size (p : positive) :
  (Decimal.nb_digits (Pos.to_uint p) <= Pos.size_nat p)%nat.
Proof.
  unfold Pos.to_uint. rewrite DecimalFacts.nb_digits_rev.
  induction p as [p IH|p IH|]; simpl; [| |done].
  - destruct (nb_digits_double (Pos.to_little_uint p)). lia.
  - destruct (nb_digits_double (Pos.to_little_uint p)). lia.
Qed.

Lemma safe_printable (z : Z) : safe_integer z = true → printable_int z.
Proof.
  unfold safe_integer, printable_int. intros [H1%Z.leb_le H2%Z.leb_le]%andb_true_iff.
  assert (Hp : ∀ p, (Z.pos p < 2 ^ 53)%Z → (length (uint_chars (Pos.to_uint p)) <= INT_MAX_STR_DIGITS)%nat).
  { intros p Hp. rewrite length_uint_chars. pose proof (nb_digits_size p).
    pose proof (Pos.size_nat_monotone p (2 ^ 53)). assert (Pos.size_nat (2 ^ 53) = 54)%nat by done.
    transitivity 54%nat; [|by apply Nat.leb_le]. lia. }
  unfold SAFE_INTEGER_MAX in *. destruct z as [|p|p]; [by apply Nat.leb_le|apply Hp; lia..].
Qed.

(** ** The canonical text of a value *)

Definition item_le {A} (p q : pyobj * A) : bool :=
  str_le (utf16be (key_str p.1)) (utf16be (key_str q.1)).

(** The value [v] with the items of every object in canonical order. *)
Fixpoint canon (v : pyobj) : pyobj :=
  match v with
  | PList l => PList (map canon l)
  | PDict l => PDict (sort_by item_le (map (λ '(k, x), (k, canon x)) l))
  | _ => v
  end.

Definition item_text (p : pyobj * pystr) : pystr :=
  quote_string (key_str p.1) ++ colon ++ p.2.

Fixpoint text (v : pyobj) : pystr :=
  match v with
  | PNone => lit_null
  | PBool true => lit_true
  | PBool false => lit_false
  | PStr s => quote_string s
  | PInt z => str_of_int z
  | PList l => 91 :: join comma (map text l) ++ [93]
  | PDict l =>
      123 :: join comma (map item_text (sort_by item_le (map (λ '(k, x), (k, text x)) l))) ++ [125]
  | _ => []
  end.

(** What holds of every Python value: characters are code points, the keys of a
    dict are distinct. *)
Definition wf_str (s : pystr) : bool := forallb (λ c, c <? 0x110000) s.

Fixpoint wf_value (v : pyobj) : bool :=
  match v with
  | PStr s => wf_str s
  | PList l => forallb wf_value l
  | PDict l =>
      bool_decide (NoDup (map (λ kv, key_str kv.1) l)) &&
      forallb (λ '(k, x), wf_value k && wf_value x) l
  | _ => true
  end.

Section roundtrip.
Context `{UD : !UnicodeData}.
Implicit Types s r rest : pystr.

Lemma valid_str_scalar s :
  validate_protocol_string s = Ok () → wf_str s = true → forallb scalar s = true.
Proof.
  unfold validate_protocol_string, wf_str. intros ([] & _ & Hs%raise_if_Ok)%bind_Ok Hw.
  induction s as [|c s IH]; [done|]. simpl in *.
  apply orb_false_iff in Hs as [Hc Hs]. apply andb_true_iff in Hw as [Hc' Hw].
  unfold scalar. rewrite Hc', Hc. by apply IH.
Qed.

Lemma list_valid (l : list pyobj) (d : nat) :
  validate_json_value (PList l) d = Ok () ↔
  (d < MAX_NESTING_DEPTH)%nat ∧ Forall (λ x, validate_json_value x (S d) = Ok ()) l.
Proof.
  cbn [validate_json_value]. rewrite guard_Ok, for_each_Ok, Nat.leb_gt. done.
Qed.

Definition valid_item (d : nat) (kv : pyobj * pyobj) : Prop :=
  (∃ k, kv.1 = PStr k ∧ validate_protocol_string k = Ok ()) ∧
  validate_json_value kv.2 (S d) = Ok ().

Lemma dict_valid (l : list (pyobj * pyobj)) (d : nat) :
  validate_json_value (PDict l) d = Ok () ↔
  (d < MAX_NESTING_DEPTH)%nat ∧ Forall (valid_item d) l.
Proof.
  cbn [validate_json_value]. rewrite guard_Ok, for_each_Ok, Nat.leb_gt. unfold valid_item.
  assert (Heq : ∀ kv : pyobj * pyobj,
    (let '(key, item) := kv in
     match key with
     | PStr k => validate_protocol_string k
     | _ => raise CanonicalizationError "object keys must be strings"
     end;; validate_json_value item (S d)) = Ok () ↔
    (∃ k, kv.1 = PStr k ∧ validate_protocol_string k = Ok ()) ∧
    validate_json_value kv.2 (S d) = Ok ()).
  { intros [k x]. rewrite seq_Ok. simpl. split.
    - intros (Hk & Hx). destruct k; try done. eauto.
    - intros ((k' & -> & Hk) & Hx). eauto. }
  by rewrite (Forall_iff _ _ _ Heq).
Qed.

Lemma wf_dict (l : list (pyobj * pyobj)) :
  wf_value (PDict l) = true →
  NoDup (map (λ kv, key_str kv.1) l) ∧ Forall (λ kv, wf_value kv.1 = true ∧ wf_value kv.2 = true) l.
Proof.
  simpl. intros [H1%bool_decide_eq_true H2]%andb_true_iff. split; [done|].
  apply Forall_forall. intros [k x] Hin. rewrite forallb_forall in H2.
  apply list_elem_of_In, H2, andb_true_iff in Hin. done.
Qed.

Lemma wf_list (l : list pyobj) : wf_value (PList l) = true → Forall (λ x, wf_value x = true) l.
Proof. simpl. rewrite forallb_forall, Forall_forall. setoid_rewrite list_elem_of_In. done. Qed.

(** *** The serializer computes [text] *)

Lemma serialize_text (v : pyobj) : ∀ d,
  validate_json_value v d = Ok () → wf_value v = true → serialize v d = Ok (text v).
Proof.
  induction v as [| [] | | | |l IH|l IH| ] using pyobj_nested_ind; intros d Hv Hw;
    try done.
  - apply list_valid in Hv as [Hd Hv]. apply wf_list in Hw.
    cbn [serialize text]. rewrite (proj2 (raise_if_Ok _ _ _ tt)) by (by apply Nat.leb_gt).
    cbn -[mapM]. rewrite (proj2 (mapM_Ok id _ (map text l))); [done|].
    apply Forall2_fmap. apply Forall_Forall2_diag. rewrite Forall_forall in *.
    intros x Hx. unfold id. by apply IH; auto.
  - apply dict_valid in Hv as [Hd Hv]. apply wf_dict in Hw as [_ Hw].
    cbn [serialize text]. rewrite (proj2 (raise_if_Ok _ _ _ tt)) by (by apply Nat.leb_gt).
    cbn -[mapM].
    rewrite (proj2 (mapM_Ok _ _
      (map (λ kv, (utf16be (key_str kv.1), Ok (quote_string (key_str kv.1)), Ok (text kv.2))) l))).
    + cbn -[mapM]. rewrite (sort_by_map _ item_le) by done.
      rewrite (proj2 (mapM_Ok _ _ (map (λ kv, item_text (kv.1, text kv.2)) (sort_by item_le l)))).
      * cbn. do 4 f_equal. rewrite (sort_by_map item_le item_le) by (by intros [] []).
        rewrite map_map. apply map_ext. by intros [].
      * apply Forall2_fmap, Forall_Forall2_diag, Forall_true. by intros [].
    + apply Forall2_fmap, Forall_Forall2_diag. rewrite Forall_forall in *.
      intros [k x] Hin. destruct (Hv _ Hin) as [(s & Hs & Hok) Hx]. simpl in Hs. subst k.
      destruct (Hw _ Hin) as [Hwk Hwx]. simpl in *.
      rewrite (valid_str_scalar s) by done. simpl.
      destruct (IH _ Hin) as [_ IHx]. simpl in IHx. by rewrite IHx.
Qed.

(** *** Reading the text *)

Lemma object_from_pairs_distinct (pairs : list (pystr * pyobj)) (res : list (pyobj * pyobj)) :
  NoDup (map fst pairs) → Forall (λ kv, ∀ k, kv.1 = PStr k → k ∉ map fst pairs) res →
  object_from_pairs res pairs = Ok (res ++ map (λ kv, (PStr kv.1, kv.2)) pairs).
Proof.
  revert res. induction pairs as [|[k v] pairs IH]; intros res Hnd Hres; simpl.
  - by rewrite app_nil_r.
  - simpl in Hnd. apply NoDup_cons in Hnd as [Hk Hnd].
    rewrite (proj2 (guard_Ok _ _ _ _ (res ++ (PStr k, v) :: map (λ kv, (PStr kv.1, kv.2)) pairs)));
      [done|]. split.
    + apply not_true_iff_false. intros ([k' v'] & Hin & Hkk)%existsb_exists. simpl in Hkk.
      destruct k'; try done. apply bool_decide_eq_true in Hkk as ->.
      apply list_elem_of_In in Hin. rewrite Forall_forall in Hres.
      apply (Hres _ Hin k); [done|]. by left.
    + rewrite IH; [by rewrite <-(assoc_L (++))|done|].
      apply Forall_app. split; [|constructor; [intros k'; simpl; congruence|done]].
      eapply Forall_impl; [exact Hres|]. intros kv Hkv k' Hk'.
      specialize (Hkv k' Hk'). simpl in Hkv. set_solver.
Qed.

Lemma elem_of_sorted_Forall {A} (P : A → Prop) (le : A → A → bool) (l : list A) :
  Forall P l → Forall P (sort_by le l).
Proof. by rewrite sort_by_perm. Qed.

(** The canonical text is the plain text of the value in canonical order. *)
Definition plain_text : pyobj → pystr := text_of escape_char (λ _, []) [] [].

Lemma text_plain (v : pyobj) : text v = plain_text (canon v).
Proof.
  unfold plain_text. induction v as [| [] | | | |l IH|l IH| ] using pyobj_nested_ind; try done.
  - cbn [text canon text_of]. do 3 f_equal. rewrite map_map. apply map_ext_in.
    intros x Hx%list_elem_of_In. rewrite Forall_forall in IH. by apply IH.
  - cbn [text canon text_of]. do 3 f_equal.
    rewrite !(sort_by_map item_le item_le) by (by intros [] []).
    rewrite !map_map. apply map_ext_in. intros [k x] Hin%list_elem_of_In.
    assert (Hx : (k, x) ∈ l) by (by apply elem_of_sort_by in Hin).
    rewrite Forall_forall in IH. destruct (IH _ Hx) as [_ IHx]. simpl in IHx. by rewrite IHx.
Qed.

Definition strict_value : pyobj → Prop :=
  readable (λ _, True) (λ z, safe_integer z = true) (λ _, False).

Lemma strict_reads : reads escape_char (λ _, []) (λ _, True) (λ z, safe_integer z = true) (λ _, False) strict_hooks.
Proof.
  split.
  - intros s _. apply Forall_true. intros c r. apply scan_escape.
  - intros z Hz. cbn [parse_int strict_hooks]. unfold parse_integer.
    rewrite default_int_reads by (by apply safe_printable). cbn [mbind result_bind]. by rewrite Hz.
  - done.
  - intros pairs Hnd. cbn [object_pairs strict_hooks]. by rewrite object_from_pairs_distinct.
Qed.

(** A well-formed valid value, in canonical order, is one the parser reads. *)
Lemma canon_strict (v : pyobj) : ∀ d,
  validate_json_value v d = Ok () → wf_value v = true → strict_value (canon v).
Proof.
  unfold strict_value. induction v as [| |z| | |l IH|l IH| ] using pyobj_nested_ind; intros d Hv Hw; try done.
  - cbn [validate_json_value] in Hv. by apply raise_if_Ok, negb_false_iff in Hv.
  - apply list_valid in Hv as [_ Hv]. apply wf_list in Hw. cbn [canon]. apply readable_list, Forall_fmap.
    rewrite Forall_forall in *. intros x Hx. by eapply IH; auto.
  - apply dict_valid in Hv as [_ Hv]. apply wf_dict in Hw as [Hnd Hw]. cbn [canon].
    apply readable_dict. split.
    + rewrite (sort_by_perm item_le). rewrite map_map.
      erewrite map_ext; [exact Hnd|]. by intros [].
    + apply elem_of_sorted_Forall, Forall_fmap. rewrite Forall_forall in *. intros [k x] Hin.
      destruct (Hv _ Hin) as [(s & Hs & _) Hx]. simpl in Hs, Hx. subst k. split; [by exists s|].
      destruct (Hw _ Hin) as [_ Hwx]. by apply (proj2 (IH _ Hin) _ Hx).
Qed.

Lemma forallb_perm {A} (f : A → bool) (l k : list A) : l ≡ₚ k → forallb f l = forallb f k.
Proof. intros H. apply eq_true_iff_eq. rewrite !forallb_forall. setoid_rewrite <-list_elem_of_In.
  by setoid_rewrite H. Qed.

Lemma quote_scalar s : forallb scalar s = true → forallb scalar (quote_string s) = true.
Proof.
  intros Hs. unfold quote_string, quoted. cbn [forallb app]. rewrite forallb_app.
  change (forallb scalar [34]) with true. change (scalar 34) with true.
  rewrite andb_true_r. cbn [andb].
  induction s as [|c s IH]; [done|]. cbn [forallb map concat] in *.
  apply andb_true_iff in Hs as [Hc Hs].
  rewrite forallb_app, IH by done. rewrite andb_true_r. unfold escape_char.
  repeat (case_match; [done|]). case_match eqn:Hlt; [|simpl; by rewrite Hc].
  apply N.ltb_lt in Hlt. assert (Hd : ∀ n, n < 16 → scalar (hex_digit n) = true).
  { intros n Hn. unfold hex_digit. destruct (n <? 10); apply scalar_bounds; lia. }
  simpl. rewrite !Hd; [done| |].
  - apply N.mod_lt. lia.
  - apply N.Div0.div_lt_upper_bound. lia.
Qed.

Lemma int_scalar (z : Z) : forallb scalar (str_of_int z) = true.
Proof.
  assert (Hu : ∀ d, forallb scalar (uint_chars d) = true) by (intros d; by induction d).
  unfold str_of_int. destruct z; try apply Hu.
Qed.

Lemma join_scalar (l : list pystr) :
  Forall (λ s, forallb scalar s = true) l → forallb scalar (join comma l) = true.
Proof.
  induction 1 as [|s l Hs Hl IH]; [done|]. destruct l as [|t l]; [done|].
  change (join comma (s :: t :: l)) with (s ++ comma ++ join comma (t :: l)).
  by rewrite !forallb_app, Hs, IH.
Qed.

Lemma text_scalar (v : pyobj) : ∀ d,
  validate_json_value v d = Ok () → wf_value v = true → forallb scalar (text v) = true.
Proof.
  induction v as [|[]|z| |s|l IH|l IH| ] using pyobj_nested_ind; intros d Hv Hw; try done.
  - apply int_scalar.
  - apply quote_scalar. by apply valid_str_scalar.
  - apply list_valid in Hv as [_ Hv]. apply wf_list in Hw. cbn [text forallb].
    rewrite forallb_app, join_scalar; [done|]. apply Forall_fmap.
    rewrite Forall_forall in *. intros x Hx. by eapply IH; auto.
  - apply dict_valid in Hv as [_ Hv]. apply wf_dict in Hw as [_ Hw]. cbn [text forallb].
    rewrite forallb_app, join_scalar; [done|]. apply Forall_fmap, elem_of_sorted_Forall, Forall_fmap.
    rewrite Forall_forall in *. intros [k x] Hin. destruct (Hv _ Hin) as [(s & Hs & Hok) Hx].
    destruct (Hw _ Hin) as [Hwk Hwx]. simpl in Hs, Hwk, Hx, Hwx. subst k.
    change (forallb scalar (quote_string s ++ colon ++ text x) = true). rewrite forallb_app, quote_scalar
      by (by apply valid_str_scalar). apply (proj2 (IH _ Hin) _ Hx Hwx).
Qed.

Lemma canon_valid (v : pyobj) : ∀ d,
  validate_json_value v d = Ok () → validate_json_value (canon v) d = Ok ().
Proof.
  induction v as [|[]|z| |s|l IH|l IH| ] using pyobj_nested_ind; intros d Hv; try done.
  - apply list_valid in Hv as [Hd Hv]. apply list_valid. split; [done|]. apply Forall_fmap.
    rewrite Forall_forall in *. intros x Hx. by apply IH; auto.
  - apply dict_valid in Hv as [Hd Hv]. apply dict_valid. split; [done|].
    apply elem_of_sorted_Forall, Forall_fmap.
    rewrite Forall_forall in *. intros [k x] Hin. destruct (Hv _ Hin) as [Hk Hx].
    split; [done|]. by apply (IH _ Hin).
Qed.

Lemma text_loads (v : pyobj) :
  validate_json_value v 0 = Ok () → wf_value v = true → json_loads (text v) = Ok (canon v).
Proof.
  intros Hv Hw. rewrite text_plain. unfold json_loads, plain_text.
  eapply (reads_back escape_char); [done|done|apply strict_reads|]. by eapply canon_strict.
Qed.

Lemma text_head (v : pyobj) : validate_json_value v 0 = Ok () → wf_value v = true → head_ok (text v).
Proof.
  intros Hv Hw. rewrite text_plain. apply (text_parses escape_char (λ _, []) [] []
    (λ _, True) (λ z, safe_integer z = true) (λ _, False) strict_hooks); [done|done|apply strict_reads|].
  by eapply canon_strict.
Qed.

Lemma canonical_bytes_text (v : pyobj) :
  validate_json_value v 0 = Ok () → wf_value v = true →
  canonical_json_bytes v = utf8_encode (text v) ∧ is_ok (utf8_encode (text v)) = true.
Proof.
  intros Hv Hw. unfold canonical_json_bytes. rewrite Hv. simpl.
  rewrite (serialize_text v 0) by done. simpl. unfold utf8_encode.
  by rewrite (text_scalar v 0).
Qed.

Lemma validate_fueled (v : pyobj) : ∀ d, fueled (validate_json_value v d).
Proof.
  assert (Hstr : ∀ s, fueled (validate_protocol_string s)).
  { intros s. unfold validate_protocol_string, raise_if. repeat case_match; done. }
  assert (Hfor : ∀ A (f : A → result unit) l, Forall (λ x, fueled (f x)) l → fueled (for_each f l)).
  { induction 1; simpl; [done|]. by apply fueled_bind. }
  induction v as [|[]|z| |s|l IH|l IH| ] using pyobj_nested_ind; intros d; try done.
  - simpl. unfold raise_if. by case_match.
  - apply Hstr.
  - cbn [validate_json_value]. apply fueled_bind; [unfold raise_if; by case_match|].
    intros _ _. apply Hfor. eapply Forall_impl; [exact IH|]. auto.
  - cbn [validate_json_value]. apply fueled_bind; [unfold raise_if; by case_match|].
    intros _ _. apply Hfor. eapply Forall_impl; [exact IH|]. intros [k x] [_ Hx].
    apply fueled_bind; [|by intros]. by destruct k.
Qed.

End roundtrip.

Lemma canonical_reads_back `{UD : !UnicodeData} (v : pyobj) :
  wf_value v = true → validate_json_value v 0 = Ok () →
  ∃ raw, canonical_json_bytes v = Ok raw ∧ parse_strict_json raw = Ok (canon v).
Proof.
  intros Hw Hv. destruct (canonical_bytes_text v Hv Hw) as [Hc [raw Hraw]%is_ok_true].
  exists raw. split; [congruence|]. unfold parse_strict_json.
  rewrite (utf8_decode_encode _ _ Hraw). cbn [mbind result_bind].
  assert (Hb : startswith [BOM] (text v) = false).
  { destruct (text_head v Hv Hw) as (c & r & -> & _ & _ & Hne). simpl.
    by rewrite bool_decide_eq_false_2. }
  rewrite Hb. cbn [raise_if mbind result_bind]. rewrite text_loads by done.
  cbn [mbind result_bind]. by rewrite canon_valid.
Qed.

(** Two values with the same canonical bytes are the same up to key order. *)
Lemma canonical_bytes_inj `{UD : !UnicodeData} (v w : pyobj) (raw : bytes) :
  wf_value v = true → wf_value w = true →
  canonical_json_bytes v = Ok raw → canonical_json_bytes w = Ok raw → canon v = canon w.
Proof.
  intros Hv Hw Cv Cw.
  assert (Hvalid : ∀ x, canonical_json_bytes x = Ok raw → validate_json_value x 0 = Ok ()).
  { intros x. unfold canonical_json_bytes. by intros [? _]%seq_Ok. }
  destruct (canonical_reads_back v Hv (Hvalid _ Cv)) as (r1 & E1 & P1).
  destruct (canonical_reads_back w Hw (Hvalid _ Cw)) as (r2 & E2 & P2).
  congruence.
Qed.

(** C24 (round trip): a well-formed value that passes validation is always
    serialized, and the strict parser reads the bytes back as the same value, with
    the items of every object in UTF-16 key order; in particular two such values
    have the same canonical bytes only if they are equal up to the order of keys. *)
Theorem canonical_roundtrip `{UD : !UnicodeData} (v : pyobj) :
  wf_value v = true → validate_json_value v 0 = Ok () →
  ∃ raw, canonical_json_bytes v = Ok raw ∧ parse_strict_json raw = Ok (canon v) ∧
    ∀ w, wf_value w = true → canonical_json_bytes w = Ok raw → canon w = canon v.
Proof.
  intros Hw Hv. destruct (canonical_reads_back v Hw Hv) as (raw & Hc & Hp).
  exists raw. split_and!; [done|done|]. intros w Hww Hcw. by eapply canonical_bytes_inj.
Qed.

(** The outcome of the parser: a valid value or a [CanonicalizationError]. *)
Lemma parse_strict_json_outcome `{UD : !UnicodeData} (raw : bytes) :
  match parse_strict_json raw with
  | Ok v => validate_json_value v 0 = Ok ()
  | Raise e => exn_cls e = CanonicalizationError
  end.
Proof.
  unfold parse_strict_json.
  set (m := (text ← _; _) : result pyobj).
  assert (Hm : fueled m).
  { unfold m, utf8_decode. case_match; [|done]. cbn [mbind result_bind].
    unfold raise_if. case_match; [done|]. cbn [mbind result_bind].
    fuel_step; [apply json_loads_fueled|]. apply fueled_bind; [|done].
    apply validate_fueled. }
  destruct m as [v|e] eqn:Hmv; simpl.
  - unfold m in Hmv. inv_result. by simplify_eq/=.
  - simpl in Hm. rewrite Hm. by case_bool_decide.
Qed.

Lemma parse_strict_json_class `{UD : !UnicodeData} (raw : bytes) :
  match parse_strict_json raw with Ok _ => True | Raise e => exn_cls e = CanonicalizationError end.
Proof. pose proof (parse_strict_json_outcome raw). by destruct (parse_strict_json raw). Qed.

(** (error): on every input the strict parser either returns a value that
    passes the protocol's validation (safe integers, NFC strings without
    surrogates, no floats, at most 64 levels) or raises [CanonicalizationError];
    it has no other exception and always terminates within its fuel. *)
Theorem parse_strict_json_total `{UD : !UnicodeData} (raw : bytes) :
  match parse_strict_json raw with
  | Ok v => validate_json_value v 0 = Ok ()
  | Raise e => exn_cls e = CanonicalizationError
  end.
Proof. apply parse_strict_json_outcome. Qed.

(** ** Witnesses *)

Definition sample_value : pyobj :=
  PDict [(PStr (ustr "b"), PList [PInt (-7); PBool true; PNone]);
         (PStr (ustr "a"), PStr (ustr "x" ++ [10; 34; 233; 0x1F600]))].

Lemma canonical_roundtrip_witness :
  ∃ raw, canonical_json_bytes (H := ascii_unicode) sample_value = Ok raw
    ∧ parse_strict_json (H := ascii_unicode) raw = Ok (canon sample_value)
    ∧ ∀ w, wf_value w = true → canonical_json_bytes (H := ascii_unicode) w = Ok raw →
        canon w = canon sample_value.
Proof.
  apply (canonical_roundtrip (UD := ascii_unicode) sample_value); vm_compute; reflexivity.
Defined.
