(* ===== verification/EvalEngine.v ===== *)
(** * EvalEngine: bounded payment histories and chain weights
    ([src/rlvr/scoring/eval_engine.py]).

    The state of the engine is the record [engine]: the score vector, the sparse
    histories and the sparse hotkeys, both dicts keyed by UID ([gmap Z]).  Floats
    are binary64; the summations and the power of Python and NumPy are the classes
    [PyMath] and [NumPy].  The clock is the argument [now]. *)

From S2P Require Import Prelude PyFloat.

Abbreviation observation := (float * float)%type.

(** What the code uses of NumPy: [xs.sum()], and [a ** np.arange(n)] elementwise. *)
Class NumPy := {
  np_sum : list float → float;
  np_pow : float → Z → float
}.

(** ** Rank weights *)

(** [np.flatnonzero(scores > 0.0)] *)
Definition positive_uids (scores : list float) : list nat :=
  filter (λ i, fltb f0 (nth i scores f0) = true) (seq 0 (length scores)).

(** The order of [np.lexsort((positive, -scores[positive]))]: the last key is the
    primary one. *)
Definition best_first_le (scores : list float) (i j : nat) : bool :=
  let a := fopp (nth i scores f0) in
  let b := fopp (nth j scores f0) in
  if fltb a b then true else if fltb b a then false else (i <=? j)%nat.

Definition best_first (scores : list float) : list nat :=
  sort_by (best_first_le scores) (positive_uids scores).

(** [weights[idx] = vals] for an index array without repetition. *)
Fixpoint put_at (idx : list nat) (vals : list float) (w : list float) : list float :=
  match idx, vals with
  | i :: idx', v :: vals' => put_at idx' vals' (<[i := v]> w)
  | _, _ => w
  end.

Definition rank_weights `{!NumPy} (scores : list float) (decay : float) : list float :=
  let order := best_first scores in
  put_at order (map (λ k, np_pow decay (Z.of_nat k)) (seq 0 (length order)))
    (replicate (length scores) f0).

(** ** The engine *)

Record engine := Engine {
  window_seconds : float;
  max_samples : Z;
  min_samples : Z;
  decay : bool;
  rank_decay : option float;
  scores : list float;
  histories : gmap Z (list observation);
  hotkeys : gmap Z pystr
}.

Definition with_scores (e : engine) (s : list float) : engine :=
  Engine (window_seconds e) (max_samples e) (min_samples e) (decay e) (rank_decay e)
    s (histories e) (hotkeys e).
Definition with_histories (e : engine) (h : gmap Z (list observation)) : engine :=
  Engine (window_seconds e) (max_samples e) (min_samples e) (decay e) (rank_decay e)
    (scores e) h (hotkeys e).
Definition with_hotkeys (e : engine) (h : gmap Z pystr) : engine :=
  Engine (window_seconds e) (max_samples e) (min_samples e) (decay e) (rank_decay e)
    (scores e) (histories e) h.

(** [np.zeros(n)] *)
Definition np_zeros (n : Z) : list float := replicate (Z.to_nat n) f0.

Definition EvalEngine_init (num_uids : Z) (window : float) (max_s min_s : Z) (dec : bool)
    (rd : option float) : result engine :=
  raise_if (num_uids <? 0)%Z ValueError "num_uids must be non-negative";;
  raise_if (negb (isfinite window) || fleb window f0) ValueError
    "window_seconds must be finite and positive";;
  raise_if (max_s <? 1)%Z ValueError "max_samples must be a positive integer";;
  raise_if (negb ((1 <=? min_s) && (min_s <=? max_s)))%Z ValueError
    "min_samples must be between 1 and max_samples";;
  raise_if (match rd with Some r => negb (fltb f0 r && fleb r f1) | None => false end)
    ValueError "rank_decay must be in (0, 1]";;
  mret (Engine window max_s min_s dec rd (np_zeros num_uids) ∅ ∅).

(** Grow the score vector to cover [uid]. *)
Definition ensure_capacity (e : engine) (uid : Z) : result engine :=
  raise_if (uid <? 0)%Z ValueError "uid must be non-negative";;
  mret (if (zlen (scores e) <=? uid)%Z
        then with_scores e (scores e ++ np_zeros (uid + 1 - zlen (scores e)))
        else e).

Definition timestamp (now : float) (observed_at : option float) : result float :=
  let value := default now observed_at in
  raise_if (negb (isfinite value) || fltb value f0) ValueError
    "observation timestamp must be finite and non-negative";;
  mret value.

(** [self.scores[uid] = v]: NumPy indexes from the end below zero. *)
Definition store_score (s : list float) (uid : Z) (v : float) : result (list float) :=
  if ((0 <=? uid) && (uid <? zlen s))%Z then Ok (<[Z.to_nat uid := v]> s)
  else if ((uid <? 0) && (- zlen s <=? uid))%Z then Ok (<[Z.to_nat (zlen s + uid) := v]> s)
  else raise OtherError "IndexError".

Section engine.
Context `{!PyMath, !NumPy}.

Definition history_score (min_s : Z) (history : list observation) : float :=
  let denominator := Z.max (zlen history) min_s in
  match history with
  | [] => f0
  | _ => fdiv (fsum (map snd history)) (float_of_int denominator)
  end.

Definition refresh_score (e : engine) (uid : Z) : result engine :=
  let history := default [] (histories e !! uid) in
  s ← store_score (scores e) uid (history_score (min_samples e) history);
  mret (with_scores e s).

Definition clamp_reward (reward : float) : float :=
  if negb (isfinite reward) || fltb reward f0 then f0 else reward.

(** [history.append(...)] and the deletion of the oldest entries. *)
Definition push_history (max_s : Z) (history : list observation) (o : observation)
    : list observation :=
  let h := history ++ [o] in
  if (max_s <? zlen h)%Z then slice_from (zlen h - max_s) h else h.

Definition record (e : engine) (uid : Z) (reward observed_at : float) : result engine :=
  e ← ensure_capacity e uid;
  let history := default [] (histories e !! uid) in
  let h := push_history (max_samples e) history (observed_at, clamp_reward reward) in
  refresh_score (with_histories e (<[uid := h]> (histories e))) uid.

Fixpoint restore_loop (e : engine) (hs : list (Z * list observation)) : result engine :=
  match hs with
  | [] => Ok e
  | (uid, values) :: hs' =>
      (* values[-max_samples:] *)
      let kept := slice_from (- max_samples e) values in
      match kept with
      | [] => restore_loop e hs'
      | _ =>
          e' ← refresh_score (with_histories e (<[uid := kept]> (histories e))) uid;
          restore_loop e' hs'
      end
  end.

Definition restore (e : engine) (num_uids : Z) (hs : list (Z * list observation))
    (hk : gmap Z pystr) : result engine :=
  let e := with_histories (with_scores e (np_zeros num_uids)) ∅ in
  e ← restore_loop e hs;
  mret (with_hotkeys e hk).

Fixpoint set_hotkeys (e : engine) (hk : list (Z * pystr)) : result engine :=
  match hk with
  | [] => Ok e
  | (uid, hotkey) :: hk' =>
      e ← ensure_capacity e uid;
      set_hotkeys (with_hotkeys e (<[uid := hotkey]> (hotkeys e))) hk'
  end.

Definition resize (e : engine) (n : Z) : result engine :=
  raise_if (n <? 0)%Z ValueError "n must be non-negative";;
  let cur := zlen (scores e) in
  mret
    (if (n =? cur)%Z then e
     else if (cur <? n)%Z then with_scores e (scores e ++ np_zeros (n - cur))
     else
       with_hotkeys
         (with_histories (with_scores e (slice_to n (scores e)))
            (filter (λ kv, (kv.1 < n)%Z) (histories e)))
         (filter (λ kv, (kv.1 < n)%Z) (hotkeys e))).

(** One turn of the loop of [sync]. *)
Definition sync_one (e : engine) (uid : Z) (hotkey : pystr) : result (engine * list Z) :=
  e ← ensure_capacity e uid;
  let changed :=
    match hotkeys e !! uid with Some prev => negb (bool_decide (prev = hotkey)) | None => false end in
  e' ← (if changed
        then s ← store_score (scores e) uid f0;
             mret (with_histories (with_scores e s) (delete uid (histories e)))
        else mret e);
  mret (with_hotkeys e' (<[uid := hotkey]> (hotkeys e')), if changed then [uid] else []).

Fixpoint sync_loop (e : engine) (hk : list (Z * pystr)) : result (engine * list Z) :=
  match hk with
  | [] => Ok (e, [])
  | (uid, hotkey) :: hk' =>
      '(e', r) ← sync_one e uid hotkey;
      '(e'', rs) ← sync_loop e' hk';
      mret (e'', r ++ rs)
  end.

Definition sync (e : engine) (hk : list (Z * pystr)) (n : option Z) : result (engine * list Z) :=
  '(e', reset) ← sync_loop e hk;
  e'' ← (match n with Some n => resize e' n | None => mret e' end);
  mret (e'', reset).

Fixpoint record_all (e : engine) (rewards : list (Z * float)) (ts : float) : result engine :=
  match rewards with
  | [] => Ok e
  | (uid, reward) :: rewards' => e' ← record e uid reward ts; record_all e' rewards' ts
  end.

(** [for uid in uids: self._record(uid, 0.0, timestamp)] *)
Definition record_zeros (e : engine) (uids : gset Z) (ts : float) : result engine :=
  record_all e (map (λ u, (u, f0)) (elements uids)) ts.

Definition update (e : engine) (now : float) (rewards : list (Z * float))
    (hk : option (list (Z * pystr))) (dispatched : option (gset Z)) (observed_at : option float)
    : result (engine * float) :=
  e ← (match hk with Some h => set_hotkeys e h | None => mret e end);
  ts ← timestamp now observed_at;
  if bool_decide (rewards = []) && bool_decide (dispatched = None) then mret (e, ts)
  else
    e ← record_all e rewards ts;
    let responders : gset Z := list_to_set (map fst rewards) in
    if negb (decay e) then mret (e, ts)
    else match dispatched with
         | Some d => e ← record_zeros e (d ∖ responders) ts; mret (e, ts)
         | None => e ← record_zeros e (dom (histories e) ∖ responders) ts; mret (e, ts)
         end.

Definition active_in_range (e : engine) (active_uids : gset Z) : gset Z :=
  filter (λ u, (0 <= u < zlen (scores e))%Z) active_uids.

Definition record_nonserving (e : engine) (now : float) (active_uids : gset Z)
    (observed_at : option float) : result engine :=
  if negb (decay e) || bool_decide (histories e = ∅) then mret e
  else
    ts ← timestamp now observed_at;
    record_zeros e (dom (histories e) ∖ active_in_range e active_uids) ts.

(** [np.nan_to_num(x, nan=0.0, posinf=0.0, neginf=0.0)] *)
Definition nan_to_num (x : float) : float := if isfinite x then x else f0.
(** [np.clip(x, 0.0, None)], where [x] is not a nan *)
Definition clip0 (x : float) : float := if fleb f0 x then x else f0.

(** [aligned = np.zeros(n); aligned[:keep] = scores[:keep]] *)
Definition align (n : Z) (s : list float) : list float :=
  slice_to (Z.min n (zlen s)) s ++ np_zeros (n - zlen s).

Definition get_weights (e : engine) (n : option Z) : result (list float) :=
  let s := map nan_to_num (scores e) in
  s ← (match n with
       | Some n =>
           raise_if (n <? 0)%Z ValueError "n must be non-negative";;
           mret (if (n =? zlen s)%Z then s else align n s)
       | None => mret s
       end);
  let s := map clip0 s in
  let s := match rank_decay e with Some d => rank_weights s d | None => s end in
  let total := np_sum s in
  mret (if fleb total f0 || negb (isfinite total) then map (λ _, f0) s
        else map (λ x, fdiv x total) s).
End engine.
