(* ===== verification/EvalEngineSpec.v ===== *)
(** * EvalEngine: invariant, observations and ranks

    [engine_invariant]: in every reachable engine the score vector is a function of
    the bounded histories.  [update_spec] and [one_slot_per_challenge]: which UIDs
    get an observation.  [rank_weights_spec]: the weight is the decay to the number
    of miners ranked above. *)

From S2P Require Import Prelude PyFloat EvalEngine.

(** ** Lemmas on the operations *)

Section ops.
Context `{!PyMath, !NumPy}.
Implicit Types (e : engine) (uid n : Z) (h : list observation).

Lemma zlen_np_zeros n : (0 <= n)%Z → zlen (np_zeros n) = n.
Proof. intros Hn. unfold zlen, np_zeros. rewrite length_replicate. lia. Qed.

Lemma zlen_app {A} (l k : list A) : zlen (l ++ k) = (zlen l + zlen k)%Z.
Proof. unfold zlen. rewrite length_app. lia. Qed.

Lemma zlen_insert {A} (l : list A) (i : nat) (x : A) : zlen (<[i := x]> l) = zlen l.
Proof. unfold zlen. by rewrite length_insert. Qed.

(** The vector grown to [n] entries. *)
Definition grown (n : Z) (s : list float) : list float := s ++ np_zeros (n - zlen s).

Lemma np_zeros_neg n : (n <= 0)%Z → np_zeros n = [].
Proof. intros Hn. unfold np_zeros. by replace (Z.to_nat n) with 0%nat by lia. Qed.

Lemma zlen_grown n (s : list float) : zlen (grown n s) = Z.max n (zlen s).
Proof.
  unfold grown. rewrite zlen_app. destruct (Z.le_gt_cases (n - zlen s) 0).
  - rewrite np_zeros_neg by done. change (zlen (@nil float)) with 0%Z. lia.
  - rewrite zlen_np_zeros; lia.
Qed.

Lemma grown_grown n m (s : list float) : grown m (grown n s) = grown (Z.max n m) s.
Proof.
  unfold grown at 1 3. rewrite zlen_grown. unfold grown, np_zeros.
  rewrite <-(assoc_L (++)), <-replicate_add. do 2 f_equal. unfold zlen. lia.
Qed.

Lemma grown_lookup n (s : list float) (i : nat) :
  (Z.of_nat i < Z.max n (zlen s))%Z →
  grown n s !! i = Some (default f0 (s !! i)).
Proof.
  intros Hi. unfold grown, np_zeros. destruct (decide (i < length s)%nat) as [Hlt|Hge].
  - rewrite lookup_app_l by done. by destruct (lookup_lt_is_Some_2 s i Hlt) as [x ->].
  - rewrite lookup_app_r by lia. rewrite (proj2 (lookup_ge_None s i)) by lia. simpl.
    apply lookup_replicate_2. unfold zlen in *. lia.
Qed.

Lemma ensure_capacity_eq e uid :
  (0 <= uid)%Z → ensure_capacity e uid = Ok (with_scores e (grown (uid + 1) (scores e))).
Proof.
  intros Hu. unfold ensure_capacity. rewrite (proj2 (Z.ltb_ge uid 0)) by done. simpl.
  unfold mret, result_ret. f_equal. destruct (Z.leb_spec (zlen (scores e)) uid); [done|].
  unfold grown. rewrite np_zeros_neg by lia. rewrite app_nil_r. by destruct e.
Qed.

Lemma ensure_capacity_Ok e e' uid :
  ensure_capacity e uid = Ok e' →
  (0 <= uid)%Z ∧ e' = with_scores e (grown (uid + 1) (scores e)).
Proof.
  intros He. destruct (Z.le_gt_cases 0 uid) as [Hu|Hu].
  - rewrite ensure_capacity_eq in He by done. by injection He as <-.
  - unfold ensure_capacity in He. by rewrite (proj2 (Z.ltb_lt uid 0)) in He.
Qed.

Lemma store_score_in_range (s : list float) uid (v : float) :
  (0 <= uid < zlen s)%Z → store_score s uid v = Ok (<[Z.to_nat uid := v]> s).
Proof.
  intros Hu. unfold store_score.
  by rewrite (proj2 (Z.leb_le 0 uid)), (proj2 (Z.ltb_lt uid (zlen s))) by lia.
Qed.

(** The engine after one observation of [uid]. *)
Definition recorded e uid (reward ts : float) : engine :=
  let h := push_history (max_samples e) (default [] (histories e !! uid)) (ts, clamp_reward reward) in
  with_histories
    (with_scores e (<[Z.to_nat uid := history_score (min_samples e) h]>
       (grown (uid + 1) (scores e))))
    (<[uid := h]> (histories e)).

Lemma record_eq e uid (reward ts : float) :
  (0 <= uid)%Z → record e uid reward ts = Ok (recorded e uid reward ts).
Proof.
  intros Hu. unfold record. rewrite ensure_capacity_eq by done. simpl.
  unfold refresh_score. simpl. rewrite lookup_insert_eq. simpl.
  rewrite store_score_in_range; [done|]. rewrite zlen_grown. lia.
Qed.

Lemma record_Ok e e' uid (reward ts : float) :
  record e uid reward ts = Ok e' → (0 <= uid)%Z ∧ e' = recorded e uid reward ts.
Proof.
  intros He. assert (Hu : (0 <= uid)%Z).
  { unfold record in He. apply bind_Ok in He as (e1 & He1 & _).
    by apply ensure_capacity_Ok in He1 as [? _]. }
  rewrite record_eq in He by done. by injection He as <-.
Qed.

(** The configuration never changes. *)
Definition same_config e e' : Prop :=
  max_samples e' = max_samples e ∧ min_samples e' = min_samples e
  ∧ decay e' = decay e ∧ rank_decay e' = rank_decay e ∧ window_seconds e' = window_seconds e.

#[global] Instance same_config_refl : Reflexive same_config.
Proof. by intros e. Qed.
#[global] Instance same_config_trans : Transitive same_config.
Proof. intros e1 e2 e3. unfold same_config. naive_solver congruence. Qed.

(** The observations of [record_all], UID by UID. *)
Definition push_obs e (r : option float) (ts : float) (h : option (list observation))
    : option (list observation) :=
  match r with
  | Some reward => Some (push_history (max_samples e) (default [] h) (ts, clamp_reward reward))
  | None => h
  end.

Lemma record_all_eq e (rewards : list (Z * float)) (ts : float) :
  NoDup (map fst rewards) → Forall (λ ur, (0 <= ur.1)%Z) rewards →
  ∃ e', record_all e rewards ts = Ok e' ∧ same_config e e' ∧ hotkeys e' = hotkeys e ∧
    ∀ uid, histories e' !! uid =
      push_obs e ((list_to_map rewards : gmap Z float) !! uid) ts (histories e !! uid).
Proof.
  revert e. induction rewards as [|[u r] rewards IH]; intros e Hnd Hpos; [by exists e|].
  apply Forall_cons in Hpos as [Hu Hpos]. apply NoDup_cons in Hnd as [Hnin Hnd].
  simpl in *. rewrite record_eq by done. cbn [mbind result_bind].
  destruct (IH (recorded e u r ts) Hnd Hpos) as (e' & He' & Hc & Hk & Hh).
  exists e'. split_and!; [done|done|done|]. intros uid. rewrite Hh.
  assert (Hnone : (list_to_map rewards : gmap Z float) !! u = None).
  { by apply not_elem_of_list_to_map_1. }
  unfold push_obs. destruct (decide (uid = u)) as [->|Hne].
  - by rewrite Hnone, lookup_insert_eq; simpl; rewrite lookup_insert_eq.
  - rewrite lookup_insert_ne by done. simpl. by rewrite lookup_insert_ne.
Qed.

Lemma record_zeros_eq e (U : gset Z) (ts : float) :
  (∀ u, u ∈ U → (0 <= u)%Z) →
  ∃ e', record_zeros e U ts = Ok e' ∧ same_config e e' ∧ hotkeys e' = hotkeys e ∧
    ∀ uid, histories e' !! uid =
      push_obs e (if decide (uid ∈ U) then Some f0 else None) ts (histories e !! uid).
Proof.
  intros Hpos. unfold record_zeros.
  destruct (record_all_eq e (map (λ u, (u, f0)) (elements U)) ts) as (e' & He' & Hc & Hk & Hh).
  - rewrite map_map. simpl. rewrite map_id. apply NoDup_elements.
  - apply Forall_fmap, Forall_forall. intros u Hu. by apply Hpos, elem_of_elements.
  - exists e'. split_and!; try done. intros uid. rewrite Hh. f_equal.
    case_decide as Hu.
    + apply elem_of_list_to_map_1.
      * rewrite map_map. simpl. rewrite map_id. apply NoDup_elements.
      * apply list_elem_of_fmap. exists uid. split; [done|]. by apply elem_of_elements.
    + apply not_elem_of_list_to_map_1. rewrite map_map. simpl. rewrite map_id.
      by rewrite elem_of_elements.
Qed.

Lemma set_hotkeys_eq e (hk : list (Z * pystr)) :
  Forall (λ uh, (0 <= uh.1)%Z) hk →
  ∃ e', set_hotkeys e hk = Ok e' ∧ same_config e e' ∧ histories e' = histories e ∧
    (∃ n, scores e' = grown n (scores e)).
Proof.
  revert e. induction hk as [|[u h] hk IH]; intros e Hpos.
  - exists e. split_and!; [done|done|done|]. exists 0%Z. unfold grown.
    rewrite np_zeros_neg, app_nil_r; [done|]. unfold zlen. lia.
  - apply Forall_cons in Hpos as [Hu Hpos]. simpl in *. rewrite ensure_capacity_eq by done.
    cbn [mbind result_bind].
    edestruct IH as (e' & -> & Hc & Hh & n & Hs); [done|].
    exists e'. split_and!; [done|done|done|]. rewrite Hs. simpl.
    exists (Z.max (u + 1) n). apply grown_grown.
Qed.

Lemma timestamp_Ok (now : float) (o : option float) :
  isfinite (default now o) = true → fltb (default now o) f0 = false →
  timestamp now o = Ok (default now o).
Proof. intros H1 H2. unfold timestamp. by rewrite H1, H2. Qed.

Lemma clamp_f0 : clamp_reward f0 = f0.
Proof. done. Qed.
End ops.

(** ** What one challenge records *)

(** The payment a challenge records for a UID, if it records one: the payment of a
    responder; else, when silence decays, zero for a dispatched UID, or in a
    full-pool round for an observed UID. *)
Definition observed (e : engine) (rewards : list (Z * float)) (dispatched : option (gset Z))
    (uid : Z) : option float :=
  match (list_to_map rewards : gmap Z float) !! uid with
  | Some r => Some r
  | None =>
      if decay e then
        match dispatched with
        | Some d => if decide (uid ∈ d) then Some f0 else None
        | None =>
            if decide (rewards ≠ [] ∧ is_Some (histories e !! uid)) then Some f0 else None
        end
      else None
  end.

Definition uids_ok (rewards : list (Z * float)) (hk : option (list (Z * pystr)))
    (dispatched : option (gset Z)) : Prop :=
  NoDup (map fst rewards) ∧ Forall (λ ur, (0 <= ur.1)%Z) rewards ∧
  Forall (λ uh, (0 <= uh.1)%Z) (default [] hk) ∧
  (∀ u, u ∈ default ∅ dispatched → (0 <= u)%Z).

Section update.
Context `{!PyMath, !NumPy}.
Implicit Types (e : engine) (uid : Z).

Lemma elem_of_responders (rewards : list (Z * float)) uid :
  NoDup (map fst rewards) →
  uid ∈ (list_to_set (map fst rewards) : gset Z) ↔
  is_Some ((list_to_map rewards : gmap Z float) !! uid).
Proof.
  intros Hnd. rewrite elem_of_list_to_set. split.
  - intros ([u r] & -> & Hin)%list_elem_of_fmap. exists r. by apply elem_of_list_to_map_1.
  - intros [r Hr]. apply elem_of_list_to_map_2 in Hr. apply list_elem_of_fmap. by exists (uid, r).
Qed.

Lemma update_eq e (now : float) (rewards : list (Z * float)) (hk : option (list (Z * pystr)))
    (dispatched : option (gset Z)) (observed_at : option float) :
  uids_ok rewards hk dispatched → (∀ u, is_Some (histories e !! u) → (0 <= u)%Z) →
  isfinite (default now observed_at) = true → fltb (default now observed_at) f0 = false →
  ∃ e', update e now rewards hk dispatched observed_at = Ok (e', default now observed_at) ∧
    same_config e e' ∧
    ∀ uid, histories e' !! uid =
      push_obs e (observed e rewards dispatched uid) (default now observed_at)
        (histories e !! uid).
Proof.
  intros (Hnd & Hpos & Hhk & Hd) Hdom0 Hts1 Hts2. unfold update.
  assert (He1 : ∃ e1, match hk with Some h => set_hotkeys e h | None => mret e end = Ok e1
    ∧ same_config e e1 ∧ histories e1 = histories e).
  { destruct hk as [h|]; [|by exists e].
    destruct (set_hotkeys_eq e h Hhk) as (e1 & ? & ? & ? & _). eauto. }
  destruct He1 as (e1 & -> & Hc1 & Hh1). cbn [mbind result_bind].
  rewrite timestamp_Ok by done. cbn [mbind result_bind].
  set (ts := default now observed_at) in *.
  assert (Hmax1 : max_samples e1 = max_samples e) by apply Hc1.
  assert (Hdec1 : decay e1 = decay e) by apply Hc1.
  destruct (record_all_eq e1 rewards ts Hnd Hpos) as (e2 & He2 & Hc2 & _ & Hh2).
  assert (Hc : same_config e e2) by (by transitivity e1).
  assert (Hmax2 : max_samples e2 = max_samples e) by apply Hc.
  assert (Hdec2 : decay e2 = decay e) by apply Hc.
  assert (Hpush : ∀ uid, histories e2 !! uid =
    push_obs e ((list_to_map rewards : gmap Z float) !! uid) ts (histories e !! uid)).
  { intros uid. rewrite Hh2, Hh1. unfold push_obs. by rewrite Hmax1. }
  destruct (bool_decide (rewards = []) && bool_decide (dispatched = None)) eqn:Hearly.
  { apply andb_true_iff in Hearly as [->%bool_decide_eq_true ->%bool_decide_eq_true].
    exists e1. split_and!; [done|done|]. intros uid. rewrite Hh1. unfold observed.
    cbn [list_to_map foldr]. rewrite lookup_empty. destruct (decay e); [|done].
    by rewrite decide_False by naive_solver. }
  rewrite He2. cbn [mbind result_bind]. rewrite Hdec2. destruct (decay e) eqn:Hdec; simpl.
  2:{ exists e2. split_and!; [done|done|]. intros uid. rewrite Hpush. unfold observed.
      rewrite Hdec. by destruct (_ !! uid). }
  assert (Hzeros : ∀ U : gset Z, (∀ u, u ∈ U → (0 <= u)%Z) →
    (∀ uid, uid ∈ U ↔ (list_to_map rewards : gmap Z float) !! uid = None ∧
       observed e rewards dispatched uid = Some f0) →
    (∀ uid, uid ∉ U → observed e rewards dispatched uid =
       (list_to_map rewards : gmap Z float) !! uid) →
    ∃ e', (e' ← record_zeros e2 U ts; mret (e', ts)) = Ok (e', ts) ∧ same_config e e' ∧
      ∀ uid, histories e' !! uid =
        push_obs e (observed e rewards dispatched uid) ts (histories e !! uid)).
  { intros U HU Hin Hout. destruct (record_zeros_eq e2 U ts HU) as (e3 & -> & Hc3 & _ & Hh3).
    exists e3. split_and!; [done|by transitivity e2|]. intros uid. rewrite Hh3, Hpush.
    case_decide as HuU.
    - apply Hin in HuU as [-> ->]. unfold push_obs. by rewrite Hmax2.
    - rewrite (Hout _ HuU). done. }
  assert (Hresp : ∀ uid, uid ∉ (list_to_set (map fst rewards) : gset Z) ↔
    (list_to_map rewards : gmap Z float) !! uid = None).
  { intros uid. by rewrite elem_of_responders, <-eq_None_not_Some. }
  destruct dispatched as [d|].
  - apply Hzeros.
    + intros u [Hu _]%elem_of_difference. by apply Hd.
    + intros uid. rewrite elem_of_difference, Hresp. unfold observed. rewrite Hdec.
      split; [intros [Hu ->]; by rewrite decide_True|]. intros [Hn Ho]. rewrite Hn in Ho.
      by case_decide.
    + intros uid. rewrite elem_of_difference, Hresp. unfold observed. rewrite Hdec.
      intros Hn. destruct (list_to_map rewards !! uid); [done|].
      by rewrite decide_False by tauto.
  - assert (Hne : rewards ≠ []).
    { intros ->. by rewrite !bool_decide_eq_true_2 in Hearly. }
    assert (Hdom : ∀ uid, (list_to_map rewards : gmap Z float) !! uid = None →
      uid ∈ dom (histories e2) ↔ is_Some (histories e !! uid)).
    { intros uid Hn. rewrite elem_of_dom, Hpush, Hn. done. }
    apply Hzeros.
    + intros u [Hu Hr]%elem_of_difference. apply Hresp in Hr. by apply Hdom, Hdom0 in Hu.
    + intros uid. rewrite elem_of_difference, Hresp. unfold observed. rewrite Hdec.
      split.
      * intros [Hu Hn]. rewrite Hn, decide_True by (split; [done|by apply Hdom]). done.
      * intros [Hn Ho]. rewrite Hn in Ho. split; [|done]. case_decide; [|done].
        apply Hdom; tauto.
    + intros uid. rewrite elem_of_difference, Hresp. unfold observed. rewrite Hdec.
      intros Hn. destruct (list_to_map rewards !! uid) eqn:Hl; [done|].
      rewrite decide_False; [done|]. intros [_ Hs%Hdom]; tauto.
Qed.

Lemma record_nonserving_eq e (now : float) (active : gset Z) (observed_at : option float) :
  (∀ u, is_Some (histories e !! u) → (0 <= u < zlen (scores e))%Z) →
  isfinite (default now observed_at) = true → fltb (default now observed_at) f0 = false →
  ∃ e', record_nonserving e now active observed_at = Ok e' ∧ same_config e e' ∧
    ∀ uid, histories e' !! uid =
      push_obs e (if decide (decay e = true ∧ is_Some (histories e !! uid) ∧ uid ∉ active)
                  then Some f0 else None)
        (default now observed_at) (histories e !! uid).
Proof.
  intros Hdom Hts1 Hts2. unfold record_nonserving.
  destruct (decay e) eqn:Hdec; cbn [negb orb].
  2:{ exists e. split_and!; [done|done|]. intros uid. by rewrite decide_False by naive_solver. }
  case_bool_decide as Hemp; cbn [negb orb].
  { exists e. split_and!; [done|done|]. intros uid. rewrite Hemp, lookup_empty.
    rewrite decide_False; [done|]. intros (_ & [? ?] & _). done. }
  rewrite timestamp_Ok by done. cbn [mbind result_bind].
  destruct (record_zeros_eq e (dom (histories e) ∖ active_in_range e active)
    (default now observed_at)) as (e' & He' & Hc & _ & Hh).
  { intros u [Hu _]%elem_of_difference. apply elem_of_dom in Hu. by apply Hdom. }
  exists e'. split_and!; [done|done|]. intros uid. rewrite Hh. f_equal.
  apply decide_ext. unfold active_in_range.
  rewrite elem_of_difference, elem_of_dom, elem_of_filter. specialize (Hdom uid). tauto.
Qed.
End update.

(** ** The invariant *)

Definition good_obs (o : observation) : Prop :=
  isfinite o.1 = true ∧ fltb o.1 f0 = false ∧ isfinite o.2 = true ∧ fltb o.2 f0 = false.

Inductive engine_op :=
  | OpUpdate (now : float) (rewards : list (Z * float)) (hk : option (list (Z * pystr)))
      (dispatched : option (gset Z)) (observed_at : option float)
  | OpNonserving (now : float) (active : gset Z) (observed_at : option float)
  | OpSync (hk : list (Z * pystr)) (n : option Z)
  | OpSetHotkeys (hk : list (Z * pystr))
  | OpResize (n : Z)
  | OpRestore (num_uids : Z) (hs : list (Z * list observation)) (hk : gmap Z pystr).

(** [_restore] is given validated state: UIDs from zero, good observations. *)
Definition op_ok (op : engine_op) : Prop :=
  match op with
  | OpRestore n hs _ => (0 <= n)%Z ∧ Forall (λ uh, (0 <= uh.1)%Z ∧ Forall good_obs uh.2) hs
  | _ => True
  end.

Section invariant.
Context `{!PyMath, !NumPy}.
Implicit Types (e : engine) (uid n : Z) (h : list observation).

Definition run_op (e : engine) (op : engine_op) : result engine :=
  match op with
  | OpUpdate now r hk d o => fst <$> update e now r hk d o
  | OpNonserving now a o => record_nonserving e now a o
  | OpSync hk n => fst <$> sync e hk n
  | OpSetHotkeys hk => set_hotkeys e hk
  | OpResize n => resize e n
  | OpRestore n hs hk => restore e n hs hk
  end.

Inductive reachable : engine → Prop :=
  | reach_init (n : Z) (w : float) (mx mn : Z) (d : bool) (rd : option float) (e : engine) :
      EvalEngine_init n w mx mn d rd = Ok e → reachable e
  | reach_step (e : engine) (op : engine_op) (e' : engine) :
      reachable e → op_ok op → run_op e op = Ok e' → reachable e'.

Record wf e : Prop := {
  wf_bounds : (1 <= min_samples e <= max_samples e)%Z;
  wf_hist uid h : histories e !! uid = Some h →
    (0 <= uid < zlen (scores e))%Z ∧ (1 <= zlen h <= max_samples e)%Z ∧ Forall good_obs h;
  wf_scores (i : nat) : (i < length (scores e))%nat →
    scores e !! i = Some (history_score (min_samples e) (default [] (histories e !! Z.of_nat i)))
}.

Lemma push_history_good (mx : Z) h (o : observation) :
  (1 <= mx)%Z → Forall good_obs h → good_obs o →
  (1 <= zlen (push_history mx h o) <= mx)%Z ∧ Forall good_obs (push_history mx h o).
Proof.
  intros Hmx Hh Ho. assert (Hf : Forall good_obs (h ++ [o])) by (apply Forall_app; auto).
  unfold push_history. assert (Hl : zlen (h ++ [o]) = (zlen h + 1)%Z) by (by rewrite zlen_app).
  pose proof (zlen_nonneg h). destruct (Z.ltb_spec mx (zlen (h ++ [o]))).
  - unfold slice_from. rewrite (proj2 (Z.leb_le _ _)) by lia. split.
    + unfold zlen in *. rewrite length_drop. lia.
    + by apply Forall_drop.
  - split; [lia|done].
Qed.

Lemma clamp_good (ts r : float) :
  isfinite ts = true → fltb ts f0 = false → good_obs (ts, clamp_reward r).
Proof.
  intros H1 H2. unfold good_obs, clamp_reward. simpl.
  destruct (isfinite r) eqn:Hf; simpl; [|done]. by destruct (fltb r f0) eqn:Hlt.
Qed.

(** Storing the history of one UID together with its score. *)
Definition stored e uid h : engine :=
  with_histories (with_scores e (<[Z.to_nat uid := history_score (min_samples e) h]> (scores e)))
    (<[uid := h]> (histories e)).

Lemma wf_stored e uid h :
  wf e → (0 <= uid < zlen (scores e))%Z → (1 <= zlen h <= max_samples e)%Z →
  Forall good_obs h → wf (stored e uid h).
Proof.
  intros [Hb Hh Hs] Hu Hl Hg. constructor; simpl; [done| |].
  - intros u k. rewrite zlen_insert. destruct (decide (u = uid)) as [->|Hne].
    + rewrite lookup_insert_eq. by intros [= <-].
    + rewrite lookup_insert_ne by done. apply Hh.
  - intros i. rewrite length_insert. intros Hi. destruct (decide (i = Z.to_nat uid)) as [->|Hne].
    + rewrite list_lookup_insert_eq by done. rewrite Z2Nat.id by lia. by rewrite lookup_insert_eq.
    + rewrite list_lookup_insert_ne, lookup_insert_ne by lia. by apply Hs.
Qed.

Lemma wf_grown e n : wf e → wf (with_scores e (grown n (scores e))).
Proof.
  intros [Hb Hh Hs]. constructor; simpl; [done| |].
  - intros u h Hu. rewrite zlen_grown. apply Hh in Hu as (? & ? & ?). split_and!; try done; lia.
  - intros i Hi. pose proof (zlen_grown n (scores e)) as Hz. unfold zlen in Hz.
    rewrite grown_lookup by (unfold zlen; lia). f_equal.
    destruct (decide (i < length (scores e))%nat) as [Hlt|Hge]; [by rewrite Hs|].
    rewrite (proj2 (lookup_ge_None _ _)) by lia.
    destruct (histories e !! Z.of_nat i) as [h|] eqn:Hl; [|done].
    apply Hh in Hl as [Hr _]. unfold zlen in Hr. lia.
Qed.

Lemma wf_with_hotkeys e (hk : gmap Z pystr) : wf e → wf (with_hotkeys e hk).
Proof. by intros [Hb Hh Hs]. Qed.

Lemma wf_recorded e uid (r ts : float) :
  wf e → (0 <= uid)%Z → isfinite ts = true → fltb ts f0 = false → wf (recorded e uid r ts).
Proof.
  intros Hwf Hu H1 H2. pose proof (wf_grown e (uid + 1) Hwf) as Hg.
  set (h := push_history (max_samples e) (default [] (histories e !! uid)) (ts, clamp_reward r)).
  assert (Hpush : (1 <= zlen h <= max_samples e)%Z ∧ Forall good_obs h).
  { apply push_history_good; [destruct Hwf; lia| |by apply clamp_good].
    destruct (histories e !! uid) eqn:Hl; simpl; [|constructor]. by apply (wf_hist _ Hwf _ _ Hl). }
  destruct Hpush. apply (wf_stored _ uid h) in Hg; try done.
  simpl. rewrite zlen_grown. lia.
Qed.

Lemma wf_record_all e e' (rewards : list (Z * float)) (ts : float) :
  isfinite ts = true → fltb ts f0 = false →
  wf e → record_all e rewards ts = Ok e' → wf e'.
Proof.
  intros H1 H2. revert e. induction rewards as [|[u r] rewards IH]; intros e Hwf; simpl.
  - by intros [= <-].
  - intros (e1 & [Hu ->]%record_Ok & He)%bind_Ok. eapply IH, He. by apply wf_recorded.
Qed.

Lemma wf_set_hotkeys e e' (hk : list (Z * pystr)) : wf e → set_hotkeys e hk = Ok e' → wf e'.
Proof.
  revert e. induction hk as [|[u k] hk IH]; intros e Hwf; simpl; [by intros [= <-]|].
  intros (e1 & [Hu ->]%ensure_capacity_Ok & He)%bind_Ok. eapply IH, He.
  by apply wf_with_hotkeys, wf_grown.
Qed.

Lemma timestamp_inv (now : float) (o : option float) (ts : float) :
  timestamp now o = Ok ts → isfinite ts = true ∧ fltb ts f0 = false.
Proof.
  unfold timestamp. rewrite guard_Ok. intros [Hb [= <-]].
  by apply orb_false_iff in Hb as [Hf%negb_false_iff Hl].
Qed.

Lemma wf_update e e' (now ts : float) (rewards : list (Z * float))
    (hk : option (list (Z * pystr))) (d : option (gset Z)) (o : option float) :
  wf e → update e now rewards hk d o = Ok (e', ts) → wf e'.
Proof.
  intros Hwf. unfold update. intros (e1 & He1 & Hu)%bind_Ok.
  assert (Hwf1 : wf e1).
  { destruct hk; [by eapply wf_set_hotkeys|]. by injection He1 as <-. }
  apply bind_Ok in Hu as (t & [Ht1 Ht2]%timestamp_inv & Hu).
  case_match; [by injection Hu as <- <-|].
  apply bind_Ok in Hu as (e2 & He2 & Hu). eapply wf_record_all in He2; [|done..].
  case_match; [by injection Hu as <- <-|].
  destruct d; apply bind_Ok in Hu as (e3 & He3 & [= <- <-]);
    (by eapply wf_record_all; [exact Ht1|exact Ht2|exact He2|exact He3]).
Qed.

Lemma wf_nonserving e e' (now : float) (a : gset Z) (o : option float) :
  wf e → record_nonserving e now a o = Ok e' → wf e'.
Proof.
  intros Hwf. unfold record_nonserving. case_match; [by intros [= <-]|].
  intros (t & [Ht1 Ht2]%timestamp_inv & Hu)%bind_Ok. by eapply wf_record_all, Hu.
Qed.

Lemma wf_resize e e' n : wf e → resize e n = Ok e' → wf e'.
Proof.
  intros Hwf. unfold resize. rewrite guard_Ok. intros [Hn%Z.ltb_ge [= <-]].
  destruct (Z.eqb_spec n (zlen (scores e))); [done|].
  destruct (Z.ltb_spec (zlen (scores e)) n); [by apply wf_grown|].
  apply wf_with_hotkeys. destruct Hwf as [Hb Hh Hs]. constructor; simpl; [done| |].
  - intros u h [Hu Hlt]%map_lookup_filter_Some. simpl in Hlt. apply Hh in Hu as (? & ? & ?).
    rewrite slice_to_length by done. split_and!; try done; lia.
  - intros i. rewrite slice_to_nonneg by done. rewrite length_take. intros Hi.
    rewrite lookup_take_lt by lia. rewrite Hs by lia. do 2 f_equal.
    assert (Hlt : (Z.of_nat i < n)%Z) by lia.
    rewrite map_lookup_filter. by destruct (histories e !! Z.of_nat i); simpl;
      [rewrite option_guard_True|].
Qed.

Lemma wf_sync_one e e' uid (hk : pystr) (r : list Z) :
  wf e → sync_one e uid hk = Ok (e', r) → wf e'.
Proof.
  intros Hwf. unfold sync_one. intros (e1 & [Hu ->]%ensure_capacity_Ok & Hs)%bind_Ok.
  pose proof (wf_grown e (uid + 1) Hwf) as Hg. set (e1 := with_scores e _) in *.
  assert (Hr : (0 <= uid < zlen (scores e1))%Z).
  { simpl. rewrite zlen_grown. lia. }
  apply bind_Ok in Hs as (e2 & He2 & [= <- <-]). apply wf_with_hotkeys.
  case_match eqn:Hch; [|by injection He2 as <-].
  rewrite store_score_in_range in He2 by done. injection He2 as <-.
  destruct Hg as [Hb Hh Hsc]. constructor; simpl; [done| |].
  - intros u h. rewrite zlen_insert. intros [_ Hl]%lookup_delete_Some. by apply Hh.
  - intros i. rewrite length_insert. intros Hi. destruct (decide (i = Z.to_nat uid)) as [->|Hne].
    + rewrite list_lookup_insert_eq by done. rewrite Z2Nat.id by lia.
      by rewrite lookup_delete_eq.
    + rewrite list_lookup_insert_ne, lookup_delete_ne by lia. by apply Hsc.
Qed.

Lemma wf_sync e e' (hk : list (Z * pystr)) (n : option Z) (r : list Z) :
  wf e → sync e hk n = Ok (e', r) → wf e'.
Proof.
  intros Hwf. unfold sync. intros ([e1 r1] & Hl & Hs)%bind_Ok.
  assert (Hwf1 : wf e1).
  { clear Hs. revert e Hwf r1 Hl. induction hk as [|[u k] hk IH]; intros e Hwf r1; simpl.
    - by intros [= <- <-].
    - intros ([e2 r2] & H2 & ([e3 r3] & H3 & [= <- <-])%bind_Ok)%bind_Ok.
      eapply IH; [|exact H3]. by eapply wf_sync_one. }
  apply bind_Ok in Hs as (e2 & H2 & [= <- <-]). destruct n; [by eapply wf_resize|].
  by injection H2 as <-.
Qed.

Lemma wf_restore e e' n (hs : list (Z * list observation)) (hk : gmap Z pystr) :
  wf e → op_ok (OpRestore n hs hk) → restore e n hs hk = Ok e' → wf e'.
Proof.
  intros Hwf [Hn Hok]. unfold restore. intros (e1 & He1 & [= <-])%bind_Ok.
  apply wf_with_hotkeys. set (e0 := with_histories _ ∅) in He1.
  assert (Hwf0 : wf e0).
  { constructor; simpl; [apply Hwf|done|]. intros i Hi. rewrite lookup_empty. simpl.
    unfold np_zeros in *. rewrite length_replicate in Hi. by apply lookup_replicate_2. }
  clearbody e0. clear Hwf. revert e0 Hwf0 He1.
  induction Hok as [|[u vs] hs [Hu Hg] Hok IH]; intros e0 Hwf0; simpl; [by intros [= <-]|].
  assert (Hgood : Forall good_obs (slice_from (- max_samples e0) vs)).
  { unfold slice_from. case_match; by apply Forall_drop. }
  assert (Hlen : (zlen (slice_from (- max_samples e0) vs) <= max_samples e0)%Z).
  { pose proof (wf_bounds _ Hwf0). unfold slice_from, zlen.
    rewrite (proj2 (Z.leb_gt _ _)) by lia. rewrite length_drop. lia. }
  destruct (slice_from (- max_samples e0) vs) as [|o k] eqn:Hk; [by apply IH|].
  intros (e2 & He2 & He1)%bind_Ok. eapply IH; [|exact He1].
  unfold refresh_score in He2. simpl in He2. rewrite lookup_insert_eq in He2.
  apply bind_Ok in He2 as (s & Hs & [= <-]).
  assert (Hr : (0 <= u < zlen (scores e0))%Z).
  { simpl in Hu. unfold store_score, raise in Hs. repeat case_match; try discriminate Hs; bool_simpl; lia. }
  rewrite store_score_in_range in Hs by done. injection Hs as <-.
  apply (wf_stored e0 u (o :: k)); try done. unfold zlen in *. simpl in *. lia.
Qed.
Lemma wf_init n (w : float) (mx mn : Z) (d : bool) (rd : option float) e :
  EvalEngine_init n w mx mn d rd = Ok e → wf e.
Proof.
  unfold EvalEngine_init. rewrite !guard_Ok.
  intros (Hn%Z.ltb_ge & _ & Hmx%Z.ltb_ge & Hmn & _ & [= <-]).
  apply negb_false_iff, andb_true_iff in Hmn as [H1%Z.leb_le H2%Z.leb_le].
  constructor; simpl; [lia|done|]. intros i. unfold np_zeros. rewrite length_replicate, lookup_empty.
  intros Hi. by apply lookup_replicate_2.
Qed.
End invariant.

(** ** Ranks *)

Section ranks.
Context `{NP : !NumPy}.
Implicit Types (s : list float) (i j u v : nat).

Definition score_at s i : float := nth i s f0.

(** [v] is paid strictly before [u]: a higher score, or the same score and a lower
    UID. *)
Definition ranked_above s v u : bool :=
  fltb f0 (score_at s v) &&
  (fltb (score_at s u) (score_at s v)
   || (negb (fltb (score_at s v) (score_at s u)) && (v <? u)%nat)).

Lemma best_first_le_total s i j : best_first_le s i j = true ∨ best_first_le s j i = true.
Proof.
  unfold best_first_le. rewrite !fltb_fopp. fold (score_at s i) (score_at s j).
  destruct (fltb (score_at s j) (score_at s i)), (fltb (score_at s i) (score_at s j)); auto.
  rewrite !Nat.leb_le. lia.
Qed.

Lemma best_first_le_lex s i j :
  isnan (score_at s i) = false → isnan (score_at s j) = false →
  best_first_le s i j = true ↔
  lex_lt (frank (score_at s j)) (frank (score_at s i)) ∨
  (frank (score_at s j) = frank (score_at s i) ∧ i ≤ j).
Proof.
  intros Hi Hj. unfold best_first_le. rewrite !fltb_fopp. fold (score_at s i) (score_at s j).
  pose proof (fltb_frank (score_at s j) (score_at s i) Hj Hi) as H1.
  pose proof (fltb_frank (score_at s i) (score_at s j) Hi Hj) as H2.
  pose proof (fltb_frank_total (score_at s j) (score_at s i) Hj Hi) as H3.
  assert (Hirr : ∀ p q, lex_lt p q → lex_lt q p → False).
  { intros [[a1 a2] a3] [[c1 c2] c3]. unfold lex_lt. lia. }
  assert (Hirr2 : ∀ p, ¬ lex_lt p p).
  { intros [[a1 a2] a3]. unfold lex_lt. lia. }
  destruct (fltb (score_at s j) (score_at s i)).
  { split; [|done]. intros _. left. by apply H1. }
  destruct (fltb (score_at s i) (score_at s j)).
  { split; [done|]. intros [Hl|[He _]].
    - destruct (Hirr _ _ Hl). by apply H2.
    - destruct (Hirr2 (frank (score_at s i))). rewrite <-He at 2. by apply H2. }
  rewrite Nat.leb_le. rewrite (H3 eq_refl eq_refl). split; [by right|].
  intros [Hl%Hirr2|[_ Hle]]; [done|done].
Qed.

Lemma elem_of_positive s u :
  u ∈ positive_uids s ↔ u < length s ∧ fltb f0 (score_at s u) = true.
Proof. unfold positive_uids. rewrite list_elem_of_filter, elem_of_seq. unfold score_at. naive_solver lia. Qed.

Lemma positive_not_nan s u : u ∈ positive_uids s → isnan (score_at s u) = false.
Proof. rewrite elem_of_positive. intros [_ Hp]. by apply fltb_nan in Hp as [_ ?]. Qed.

Lemma best_first_NoDup s : NoDup (best_first s).
Proof.
  unfold best_first, positive_uids. rewrite sort_by_perm. apply NoDup_filter, NoDup_seq.
Qed.

Lemma best_first_rank s (k u : nat) :
  best_first s !! k = Some u →
  k = length (filter (λ v, ranked_above s v u = true) (seq 0 (length s))).
Proof.
  intros Hk. unfold best_first in Hk.
  assert (Hnn : ∀ v, v ∈ sort_by (best_first_le s) (positive_uids s) → isnan (score_at s v) = false).
  { intros v. rewrite elem_of_sort_by. apply positive_not_nan. }
  assert (Hu : u ∈ positive_uids s).
  { apply (elem_of_sort_by (best_first_le s)). by eapply list_elem_of_lookup_2. }
  rewrite (sorted_rank (best_first_le s) _ k u (best_first_NoDup s) ) at 1.
  - unfold best_first. rewrite sort_by_perm. unfold positive_uids. rewrite list_filter_filter.
    apply f_equal, list_filter_iff. intros v. fold (score_at s v).
    destruct (fltb f0 (score_at s v)) eqn:Hpos; [|unfold ranked_above; rewrite Hpos; naive_solver].
    unfold ranked_above. rewrite Hpos. simpl. unfold best_first_le. rewrite !fltb_fopp.
    fold (score_at s v) (score_at s u).
    destruct (fltb (score_at s u) (score_at s v)) eqn:H1; simpl.
    + split; [done|]. intros _. split_and!; [done| |done]. intros ->. by rewrite fltb_irrefl in H1.
    + destruct (fltb (score_at s v) (score_at s u)); simpl; [naive_solver|].
      rewrite Nat.leb_le, Nat.ltb_lt. split; [intros [[? ?] _]; lia|intros ?; split_and!; [lia|lia|done]].
  - intros x y z Hx Hy Hz Hxy Hyz. rewrite best_first_le_lex in * by auto.
    destruct (frank (score_at s x)) as [[??]?], (frank (score_at s y)) as [[??]?],
      (frank (score_at s z)) as [[??]?]. unfold lex_lt in *.
    destruct Hxy as [?|[[= ???] ?]], Hyz as [?|[[= ???] ?]]; subst; (left; lia) || (right; split; [done|lia]).
  - intros x y Hx Hy Hxy Hyx. rewrite best_first_le_lex in * by auto.
    destruct (frank (score_at s x)) as [[??]?], (frank (score_at s y)) as [[??]?]. unfold lex_lt in *.
    destruct Hxy as [?|[[= ???] ?]], Hyx as [?|[[= ???] ?]]; subst; lia.
  - apply sort_by_sorted, best_first_le_total.
  - done.
Qed.

Lemma length_put_at (idx : list nat) (vals w : list float) : length (put_at idx vals w) = length w.
Proof.
  revert vals w. induction idx as [|i idx IH]; intros [|v vals] w; simpl; try done.
  by rewrite IH, length_insert.
Qed.

Lemma put_at_out (idx : list nat) (vals w : list float) u :
  u ∉ idx → put_at idx vals w !! u = w !! u.
Proof.
  revert vals w. induction idx as [|i idx IH]; intros [|v vals] w Hu; simpl; try done.
  apply not_elem_of_cons in Hu as [Hne Hu]. rewrite IH by done. by apply list_lookup_insert_ne.
Qed.

Lemma put_at_in (idx : list nat) (vals w : list float) (k u : nat) (x : float) :
  NoDup idx → idx !! k = Some u → vals !! k = Some x → u < length w →
  put_at idx vals w !! u = Some x.
Proof.
  revert vals w k. induction idx as [|i idx IH]; intros [|v vals] w [|k] Hnd Hi Hv Hu; simpl in *;
    try done; apply NoDup_cons in Hnd as [Hnin Hnd]; simplify_eq.
  - rewrite put_at_out by done. by apply list_lookup_insert_eq.
  - eapply IH; [done|exact Hi|exact Hv|]. by rewrite length_insert.
Qed.

Lemma rank_weights_lookup s (d : float) u :
  u < length s →
  rank_weights s d !! u = Some
    (if fltb f0 (score_at s u)
     then np_pow d (Z.of_nat (length (filter (λ v, ranked_above s v u = true) (seq 0 (length s)))))
     else f0).
Proof.
  intros Hu. unfold rank_weights. destruct (fltb f0 (score_at s u)) eqn:Hpos.
  - assert (Hin : u ∈ best_first s).
    { apply elem_of_sort_by, elem_of_positive. done. }
    apply list_elem_of_lookup in Hin as [k Hk].
    rewrite <-(best_first_rank s k u Hk).
    eapply put_at_in; [apply best_first_NoDup|exact Hk| |by rewrite length_replicate].
    rewrite list_lookup_fmap, lookup_seq_lt; [done|]. by eapply lookup_lt_Some.
  - rewrite put_at_out; [by apply lookup_replicate_2|]. intros Hin.
    apply elem_of_sort_by, elem_of_positive in Hin as [_ Hp]. congruence.
Qed.
End ranks.

(** ** Properties *)

(** The last [mx] observations. *)
Lemma push_history_last (mx : Z) (h : list observation) (o : observation) :
  (1 <= mx)%Z → push_history mx h o = slice_from (- mx) (h ++ [o]).
Proof.
  intros Hmx. unfold push_history, slice_from, zlen.
  rewrite (proj2 (Z.leb_gt 0 (- mx))) by lia.
  destruct (Z.ltb_spec mx (Z.of_nat (length (h ++ [o])))).
  - rewrite (proj2 (Z.leb_le _ _)) by lia. f_equal. lia.
  - by replace (length (h ++ [o]) - Z.to_nat (- - mx)) with 0 by lia.
Qed.

Section window.
Context `{!PyMath, !NumPy}.

(** The history of a UID after a challenge that records [r] for it. *)
Definition window_after (e : engine) (r : option float) (ts : float) (h : option (list observation))
    : option (list observation) :=
  match r with
  | Some reward => Some (slice_from (- max_samples e) (default [] h ++ [(ts, clamp_reward reward)]))
  | None => h
  end.

Lemma window_after_push (e : engine) (r : option float) (ts : float)
    (h : option (list observation)) : wf e → push_obs e r ts h = window_after e r ts h.
Proof.
  intros Hwf. destruct r; [|done]. simpl. f_equal. apply push_history_last.
  destruct Hwf; lia.
Qed.

Lemma wf_dom (e : engine) (u : Z) :
  wf e → is_Some (histories e !! u) → (0 <= u < zlen (scores e))%Z.
Proof. intros Hwf [h Hh]. by apply (wf_hist _ Hwf) in Hh as [? _]. Qed.
End window.

(** C23 (invariant): in every engine reachable from a constructed one by any
    sequence of updates, non-serving rounds, syncs, resizes and validated restores,
    each history is non-empty, holds at most [max_samples] finite non-negative
    observations and belongs to a UID of the score vector, and every score is
    the windowed mean of its UID's history over at least [min_samples]. *)
Theorem engine_invariant `{!PyMath, !NumPy} (e : engine) : reachable e → wf e.
Proof.
  induction 1 as [n w mx mn d rd e He|e op e' Hr IH Hok Hrun].
  - by eapply wf_init.
  - destruct op; cbn [run_op] in Hrun.
    + apply fmap_Ok in Hrun as ([e1 ts] & Hu & ->). by eapply wf_update.
    + by eapply wf_nonserving.
    + apply fmap_Ok in Hrun as ([e1 rs] & Hu & ->). by eapply wf_sync.
    + by eapply wf_set_hotkeys.
    + by eapply wf_resize.
    + by eapply wf_restore.
Qed.

(** (functional): an update with well-formed inputs succeeds and records at
    most one observation per UID: the clamped payment of every responder, zero for
    a dispatched miner that stayed silent (for an observed one, when the whole pool
    was asked), nothing for anyone else; the window keeps the last [max_samples]. *)
Theorem update_spec `{!PyMath, !NumPy} (e : engine) (now : float) (rewards : list (Z * float))
    (hk : option (list (Z * pystr))) (dispatched : option (gset Z)) (observed_at : option float) :
  wf e → uids_ok rewards hk dispatched →
  isfinite (default now observed_at) = true → fltb (default now observed_at) f0 = false →
  ∃ e', update e now rewards hk dispatched observed_at = Ok (e', default now observed_at) ∧
    ∀ uid, histories e' !! uid =
      window_after e (observed e rewards dispatched uid) (default now observed_at)
        (histories e !! uid).
Proof.
  intros Hwf Hok H1 H2.
  destruct (update_eq e now rewards hk dispatched observed_at Hok) as (e' & He' & _ & Hh); try done.
  { intros u Hu. apply (wf_dom e u Hwf) in Hu. lia. }
  exists e'. split; [done|]. intros uid. rewrite Hh. by apply window_after_push.
Qed.

(** A completed challenge: an update and the non-serving zeros. *)
Lemma challenge_slots `{!PyMath, !NumPy} (e : engine) (now now' : float) (rewards : list (Z * float))
    (hk : option (list (Z * pystr))) (dispatched active : gset Z) :
  wf e → uids_ok rewards hk (Some dispatched) →
  isfinite now = true → fltb now f0 = false →
  (∀ u, u ∈ map fst rewards ∨ u ∈ dispatched → u ∈ active) →
  ∃ e1 e2, update e now rewards hk (Some dispatched) None = Ok (e1, now) ∧
    record_nonserving e1 now' active (Some now) = Ok e2 ∧
    ∀ uid, histories e2 !! uid =
      window_after e
        (match observed e rewards (Some dispatched) uid with
         | Some r => Some r
         | None =>
             if decide (decay e = true ∧ is_Some (histories e !! uid) ∧ uid ∉ active)
             then Some f0 else None
         end) now (histories e !! uid).
Proof.
  intros Hwf Hok H1 H2 Hact.
  destruct (update_eq e now rewards hk (Some dispatched) None Hok) as (e1 & He1 & Hc & Hh); try done.
  { intros u Hu. apply (wf_dom e u Hwf) in Hu. lia. }
  assert (Hwf1 : wf e1) by (by eapply wf_update).
  destruct (record_nonserving_eq e1 now' active (Some now)) as (e2 & He2 & _ & Hh2); try done.
  { intros u. by apply wf_dom. }
  exists e1, e2. split_and!; [done|done|]. intros uid. rewrite Hh2, Hh.
  rewrite <-window_after_push by done. simpl. destruct Hc as (Hmx & _ & Hdec & _).
  assert (Hobs : is_Some (observed e rewards (Some dispatched) uid) → uid ∈ active).
  { unfold observed. intros [r Hr]. apply Hact. destruct (list_to_map rewards !! uid) as [x|] eqn:Hl.
    - left. apply elem_of_list_to_map_2 in Hl. apply list_elem_of_fmap. by exists (uid, x).
    - right. destruct (decay e); [|done]. by case_decide. }
  destruct (observed e rewards (Some dispatched) uid) as [r|] eqn:Ho; simpl.
  - rewrite decide_False by naive_solver. done.
  - unfold push_obs at 1. rewrite Hdec, Hmx. done.
Qed.

(** (functional, one slot per challenge): a completed challenge is an update
    with the dispatched set followed by the non-serving zeros for an active set that
    covers everyone dispatched or paid.  Together they advance every history by at
    most one observation: the update's, or a zero for an observed miner that is
    not serving. *)
Theorem one_slot_per_challenge `{!PyMath, !NumPy} (e : engine) (now : float)
    (rewards : list (Z * float)) (dispatched active : gset Z) :
  wf e → uids_ok rewards None (Some dispatched) →
  isfinite now = true → fltb now f0 = false →
  (∀ u, u ∈ map fst rewards ∨ u ∈ dispatched → u ∈ active) →
  ∃ e1 e2, update e now rewards None (Some dispatched) None = Ok (e1, now) ∧
    record_nonserving e1 now active (Some now) = Ok e2 ∧
    ∀ uid, histories e2 !! uid =
      window_after e
        (match observed e rewards (Some dispatched) uid with
         | Some r => Some r
         | None =>
             if decide (decay e = true ∧ is_Some (histories e !! uid) ∧ uid ∉ active)
             then Some f0 else None
         end) now (histories e !! uid).
Proof. intros. by apply challenge_slots. Qed.

(** (functional): with rank decay a miner with a positive score gets the
    decay to the number of miners ranked strictly above it (higher score, or equal
    score and lower UID); every other miner gets zero. *)
Theorem rank_weights_spec `{!NumPy} (s : list float) (d : float) (u : nat) :
  u < length s →
  rank_weights s d !! u = Some
    (if fltb f0 (score_at s u)
     then np_pow d (Z.of_nat (length (filter (λ v, ranked_above s v u = true) (seq 0 (length s)))))
     else f0).
Proof. apply rank_weights_lookup. Qed.

(** ** Witnesses *)

(** Left-to-right summation, and powers by repeated multiplication. *)
Definition naive_math : PyMath :=
  {| fpow := λ x y, x; fsum := foldl fadd f0 |}.
Definition naive_numpy : NumPy :=
  {| np_sum := foldl fadd f0; np_pow := λ d n, Nat.iter (Z.to_nat n) (fmul d) f1 |}.
#[local] Existing Instances naive_math naive_numpy.

Definition engine_a : engine :=
  Engine f1 2 1 true None [f1; f0; f0] {[ 0%Z := [(f1, f1)] ]} ∅.

Definition half : float := fdiv f1 f2.

Lemma engine_a_reachable : reachable engine_a.
Proof.
  eapply (reach_step _ (OpUpdate f1 [(0%Z, f1)] None (Some {[0%Z]}) None));
    [eapply (reach_init 3 f1 2 1 true None); vm_compute; reflexivity|done|].
  vm_compute. reflexivity.
Qed.

Lemma engine_invariant_witness : wf engine_a.
Proof. apply engine_invariant, engine_a_reachable. Defined.

Lemma engine_a_wf : wf engine_a.
Proof.
  constructor; [simpl; lia| |].
  - intros uid h Hh. simpl in Hh. apply lookup_singleton_Some in Hh as [<- <-].
    split; [vm_compute; by split|]. split; [vm_compute; by split|]. repeat constructor.
  - intros i Hi. simpl in Hi. destruct i as [|[|[|i]]]; [vm_compute; reflexivity..|lia].
Qed.

Lemma uids_ok_a : uids_ok [(0%Z, half)] None (Some {[0%Z; 1%Z]}).
Proof.
  split_and!; simpl; [apply NoDup_singleton|by repeat constructor|done|].
  intros u. set_unfold. lia.
Qed.

Lemma update_spec_witness :
  ∃ e', update engine_a f2 [(0%Z, half)] None (Some {[0%Z; 1%Z]}) None = Ok (e', f2) ∧
    ∀ uid, histories e' !! uid =
      window_after engine_a (observed engine_a [(0%Z, half)] (Some {[0%Z; 1%Z]}) uid) f2
        (histories engine_a !! uid).
Proof.
  apply (update_spec engine_a f2 [(0%Z, half)] None (Some {[0%Z; 1%Z]}) None);
    [apply engine_a_wf|apply uids_ok_a|reflexivity|reflexivity].
Defined.

Lemma one_slot_per_challenge_witness :
  ∃ e1 e2, update engine_a f2 [(0%Z, half)] None (Some {[0%Z; 1%Z]}) None = Ok (e1, f2) ∧
    record_nonserving e1 f2 {[0%Z; 1%Z]} (Some f2) = Ok e2.
Proof.
  destruct (one_slot_per_challenge engine_a f2 [(0%Z, half)] {[0%Z; 1%Z]} {[0%Z; 1%Z]})
    as (e1 & e2 & H1 & H2 & _).
  - apply engine_a_wf.
  - apply uids_ok_a.
  - reflexivity.
  - reflexivity.
  - intros u. simpl. set_solver.
  - exists e1, e2. split; assumption.
Defined.

Lemma rank_weights_spec_witness :
  rank_weights [f1; f2; f1; f0] half !! 2 = Some (fmul half half).
Proof. rewrite (rank_weights_spec [f1; f2; f1; f0] half 2); [vm_compute; reflexivity|simpl; lia]. Defined.
