(* ===== verification/Scoring.v ===== *)
(** * Scoring: contracts, verdicts, difficulty and payments
    ([src/rlvr/types.py], [src/rlvr/scoring/verifier.py], [difficulty.py],
    [payment.py]).

    The executor that runs a candidate is a variable: run number [k] of the suite
    returns the list [run_tests k].  [2.0 ** x] is [fpow]. *)

From Stdlib Require Import SpecFloat.
From S2P Require Import Prelude PyFloat Json.

(** ** Data contracts (types.py) *)

Inductive DifficultyBand := EASY | IN_BAND | HARD | UNKNOWN.

Record ExecutionResult := {
  test_index : Z;
  passed : bool;
  value : pyobj;
  value_ok : bool;
  actual_repr : option pystr;
  error : option pystr;
  error_kind : option pystr;
  timed_out : bool;
  runtime_ms : float
}.

Record Verification := {
  v_problem_id : pystr;
  num_tests : Z;
  num_passed : Z;
  all_passed : bool;
  v_reward : float;
  compile_error : option pystr;
  results : list ExecutionResult;
  flagged_flaky : bool
}.

Record SolutionResponse := {
  s_problem_id : pystr;
  code : pystr;
  raw_response : pystr;
  latency_ms : float
}.

Record MinerOutcome := {
  uid : Z;
  hotkey : pystr;
  solution : SolutionResponse;
  verification : Verification;
  o_reward : float
}.

(** ** Verifier *)

Definition compile_error_kind : pystr := ustr "compile_error".

Definition truthy (s : option pystr) : bool :=
  match s with Some (_ :: _) => true | _ => false end.

Definition verdict_for (run : list ExecutionResult) (i : Z) : option bool :=
  (λ p, passed p.2) <$> list_find (λ r, test_index r = i) run.

Definition passed_every_run (runs : list (list ExecutionResult)) (i : Z) : bool :=
  forallb (λ run, bool_decide (verdict_for run i = Some true)) runs.

Definition detect_compile_error (runs : list (list ExecutionResult)) (n : Z) : option pystr :=
  match runs with
  | [] => None
  | run :: _ =>
      if (n =? 0)%Z then None
      else if bool_decide (run = []) || negb (zlen run =? n)%Z then None
      else if negb (forallb (λ r, truthy (error r)
                       && bool_decide (error_kind r = Some compile_error_kind)) run) then None
      else head (omap error (filter (λ r, truthy (error r) = true) run))
  end.

(** The test indices, [range(num_tests)]. *)
Definition indices (n : Z) : list Z := seqZ 0 n.

Definition flips (runs : list (list ExecutionResult)) (i : Z) : bool :=
  let concrete : list bool := omap (λ run, verdict_for run i) runs in
  existsb id concrete && existsb negb concrete.

Definition flaky_idx (runs : Z) (all_runs : list (list ExecutionResult)) (n : Z) : list Z :=
  if (1 <? runs)%Z then filter (λ i, flips all_runs i = true) (indices n) else [].

Definition reward_of (partial_credit : bool) (npassed nscored : Z) (allp : bool) : float :=
  if partial_credit then
    if (nscored =? 0)%Z then f0 else fdiv (float_of_int npassed) (float_of_int nscored)
  else if allp then f1 else f0.

Definition verify (partial_credit : bool) (runs : Z) (problem_id : pystr) (n : Z)
    (run_tests : Z → list ExecutionResult) : Verification :=
  let all_runs := map run_tests (seqZ 0 runs) in
  let first_run := default [] (head all_runs) in
  match detect_compile_error all_runs n with
  | Some err =>
      {| v_problem_id := problem_id; num_tests := n; num_passed := 0; all_passed := false;
         v_reward := f0; compile_error := Some err; results := first_run;
         flagged_flaky := false |}
  | None =>
      let flaky := flaky_idx runs all_runs n in
      let npassed :=
        zlen (filter (λ i, (i ∉ flaky) ∧ passed_every_run all_runs i = true) (indices n)) in
      let allp := (0 <? n)%Z && (npassed =? n)%Z in
      {| v_problem_id := problem_id; num_tests := n; num_passed := npassed; all_passed := allp;
         v_reward := reward_of partial_credit npassed n allp; compile_error := None;
         results := first_run; flagged_flaky := (0 <? zlen flaky)%Z |}
  end.

(** ** Difficulty *)

Definition pass_rate (outcomes : list MinerOutcome) : float :=
  let n := zlen outcomes in
  if (n =? 0)%Z then f0
  else
    let npassed := zlen (filter (λ o, all_passed (verification o) = true) outcomes) in
    fdiv (float_of_int npassed) (float_of_int n).

Definition classify_band (p low high : float) : DifficultyBand :=
  if fltb high p then EASY else if fltb p low then HARD else IN_BAND.

(** ** Payment *)

Section payment.
Context `{!PyMath}.

Definition o_latency (o : MinerOutcome) : float := latency_ms (solution o).
Definition o_passed (o : MinerOutcome) : bool := all_passed (verification o).

Definition rewarded_latencies (outcomes : list MinerOutcome) : list float :=
  map o_latency
    (filter (λ o, (o_passed o && isfinite (o_latency o) && fltb f0 (o_latency o)) = true) outcomes).

(** [min(xs)] of a non-empty list. *)
Definition fmin_list (xs : list float) : option float :=
  match xs with [] => None | x :: xs' => Some (foldl fmin x xs') end.

Definition speed_multiplier (latency_floor half_life : float) (fastest : option float)
    (latency : float) : float :=
  match fastest with
  | None => f1
  | Some fastest_latency =>
      if negb (isfinite half_life) || fleb half_life f0 then f1
      else if negb (isfinite latency) || fleb latency f0 then latency_floor
      else
        let delay := fmax f0 (fsub latency fastest_latency) in
        fadd latency_floor
          (fmul (fsub f1 latency_floor) (fpow f2 (fdiv (fopp delay) half_life)))
  end.

Definition payment_of (latency_floor half_life : float) (fastest : option float)
    (o : MinerOutcome) : float :=
  if o_passed o then speed_multiplier latency_floor half_life fastest (o_latency o) else f0.

Definition compute_payments (outcomes : list MinerOutcome) (speed_half_life_ms speed_floor : float)
    : gmap Z float :=
  let latency_floor := fmin f1 (fmax f0 speed_floor) in
  let fastest := fmin_list (rewarded_latencies outcomes) in
  foldl (λ payments o,
    <[uid o := payment_of latency_floor speed_half_life_ms fastest o]> payments) ∅ outcomes.
End payment.

(** ** Lemmas *)

Lemma elem_of_indices (n i : Z) : i ∈ indices n ↔ (0 <= i < n)%Z.
Proof. unfold indices. rewrite elem_of_seqZ. lia. Qed.

Lemma zlen_indices (n : Z) : (0 <= n)%Z → zlen (indices n) = n.
Proof. intros Hn. unfold zlen, indices. rewrite length_seqZ. lia. Qed.

Lemma filter_full {A} (P : A → Prop) `{!∀ x, Decision (P x)} (l : list A) :
  length (filter P l) = length l ↔ Forall P l.
Proof.
  split.
  - induction l as [|x l IH]; [constructor|]. destruct (decide (P x)) as [Hx|Hx].
    + rewrite filter_cons_True by done. simpl. intros [= Hl]. constructor; auto.
    + rewrite filter_cons_False by done. pose proof (length_filter P l). simpl. lia.
  - intros Hall. f_equal. apply filter_all. by rewrite Forall_forall in Hall.
Qed.

Lemma passed_every_run_spec (runs : list (list ExecutionResult)) (i : Z) :
  passed_every_run runs i = true ↔ Forall (λ run, verdict_for run i = Some true) runs.
Proof.
  unfold passed_every_run. rewrite forallb_forall, Forall_forall.
  setoid_rewrite bool_decide_eq_true. by setoid_rewrite list_elem_of_In.
Qed.

(** A test passed in every run does not flip. *)
Lemma passed_no_flip (runs : list (list ExecutionResult)) (i : Z) :
  passed_every_run runs i = true → flips runs i = false.
Proof.
  rewrite passed_every_run_spec. intros Hall. unfold flips. apply andb_false_iff. right.
  apply not_true_iff_false. intros (v & Hv & Hneg)%existsb_exists.
  apply list_elem_of_In, list_elem_of_omap in Hv as (run & Hrun & Hvd).
  rewrite Forall_forall in Hall. rewrite (Hall _ Hrun) in Hvd. by injection Hvd as <-.
Qed.

Section payment_lemmas.
Context `{!PyMath}.
Implicit Types (o : MinerOutcome) (outcomes : list MinerOutcome).

Lemma payments_fold (f : MinerOutcome → float) outcomes (m : gmap Z float) (u : Z) (o : MinerOutcome) :
  NoDup (map uid outcomes) → o ∈ outcomes → uid o = u →
  foldl (λ payments o, <[uid o := f o]> payments) m outcomes !! u = Some (f o).
Proof.
  revert m. induction outcomes as [|o' outcomes IH]; intros m Hnd Hin Hu; simpl.
  - by apply not_elem_of_nil in Hin.
  - simpl in Hnd. apply NoDup_cons in Hnd as [Hnin Hnd].
    apply elem_of_cons in Hin as [<-|Hin]; [|by apply IH].
    assert (Hgen : ∀ m : gmap Z float, m !! u = Some (f o) →
      foldl (λ payments o, <[uid o := f o]> payments) m outcomes !! u = Some (f o)).
    { rewrite Hu in Hnin. clear IH Hnd. induction outcomes as [|o' outcomes IH]; intros m' Hm'; simpl;
        [done|]. simpl in Hnin. apply not_elem_of_cons in Hnin as [Hne Hnin].
      apply IH; [done|]. by rewrite lookup_insert_ne. }
    apply Hgen. subst u. by rewrite lookup_insert_eq.
Qed.

Lemma payments_dom (f : MinerOutcome → float) outcomes (m : gmap Z float) :
  dom (foldl (λ payments o, <[uid o := f o]> payments) m outcomes)
  = (dom m ∪ list_to_set (map uid outcomes) : gset Z).
Proof.
  revert m. induction outcomes as [|o outcomes IH]; intros m; simpl; [set_solver|].
  rewrite IH, dom_insert_L. set_solver.
Qed.

Lemma fmin_list_pos (xs : list float) (y : float) :
  Forall (λ x, isfinite x = true ∧ fltb f0 x = true) xs → fmin_list xs = Some y →
  isfinite y = true ∧ fltb f0 y = true.
Proof.
  destruct xs as [|x xs]; [done|]. simpl. intros [Hx Hxs]%Forall_cons [= <-].
  revert x Hx. induction Hxs as [|z xs Hz Hxs IH]; intros x Hx; simpl; [done|].
  apply IH. unfold fmin. by destruct (fltb z x).
Qed.
End payment_lemmas.

(** ** Properties *)

(** (functional): without a compile failure, a candidate passes the suite exactly
    when the suite is not empty and every test has a passing result in every run;
    a test that flips between runs never passes, and the near-binary reward is one
    exactly for a passed suite. *)
Theorem verify_all_passed (partial : bool) (runs : Z) (pid : pystr) (n : Z)
    (run_tests : Z → list ExecutionResult) :
  (0 <= n)%Z →
  let all_runs := map run_tests (seqZ 0 runs) in
  let v := verify partial runs pid n run_tests in
  (all_passed v = true ↔
     compile_error v = None ∧ (0 < n)%Z ∧
     ∀ i run, (0 <= i < n)%Z → run ∈ all_runs → verdict_for run i = Some true) ∧
  (0 <= num_passed v <= n)%Z ∧
  (partial = false → v_reward v = if all_passed v then f1 else f0).
Proof.
  intros Hn all_runs v.
  unfold v, verify. fold all_runs. destruct (detect_compile_error all_runs n) as [err|]; simpl.
  { split_and!; [|lia|lia|done]. split; [done|]. naive_solver. }
  set (flaky := flaky_idx runs all_runs n).
  set (passing := filter _ _).
  assert (Hle : (zlen passing <= n)%Z).
  { pose proof (zlen_indices n Hn) as Hz. unfold zlen, passing in *.
    pose proof (length_filter (λ i, (i ∉ flaky) ∧ passed_every_run all_runs i = true) (indices n)). lia. }
  split_and!; [|apply zlen_nonneg|done|by intros ->].
  rewrite andb_true_iff, Z.ltb_lt, Z.eqb_eq.
  assert (Hfull : zlen passing = n ↔
    ∀ i, (0 <= i < n)%Z → passed_every_run all_runs i = true).
  { transitivity (zlen passing = zlen (indices n)); [by rewrite zlen_indices|].
    unfold zlen, passing. rewrite Nat2Z.inj_iff, filter_full, Forall_forall. setoid_rewrite elem_of_indices.
    split; [intros H i Hi; by apply H|]. intros H i Hi. split; [|by apply H].
    unfold flaky, flaky_idx. case_match; [|apply not_elem_of_nil].
    rewrite list_elem_of_filter. intros [Hf _]. rewrite passed_no_flip in Hf; [done|by apply H]. }
  rewrite Hfull. setoid_rewrite passed_every_run_spec. setoid_rewrite Forall_forall.
  naive_solver.
Qed.

(** (functional): one payment per outcome, and correctness is a hard gate: an
    answer that did not pass the whole hidden suite is paid exactly zero.  Under the
    shipped policy, whose speed floor is one, every passing answer is paid exactly
    one, whatever the latencies are. *)
Theorem payments_hard_gate `{!PyMath} (outcomes : list MinerOutcome) (half_life : float) :
  NoDup (map uid outcomes) →
  (∀ x, isnan x = false → fltb f0 x = false → isfinite (fpow f2 x) = true) →
  dom (compute_payments outcomes half_life f1) = (list_to_set (map uid outcomes) : gset Z) ∧
  ∀ o, o ∈ outcomes →
    compute_payments outcomes half_life f1 !! uid o = Some (if o_passed o then f1 else f0).
Proof.
  intros Hnd Hpow. unfold compute_payments. split; [rewrite payments_dom; set_solver|].
  intros o Hin. rewrite (payments_fold _ _ _ _ o Hnd Hin eq_refl). f_equal. unfold payment_of.
  destruct (o_passed o); [|done]. change (fmin f1 (fmax f0 f1)) with f1.
  unfold speed_multiplier. destruct (fmin_list _) as [fastest|]; [|done].
  case_match eqn:Hhl; [done|]. case_match; [done|].
  apply orb_false_iff in Hhl as [Hfin%negb_false_iff Hpos].
  destruct (finite_positive _ Hfin Hpos) as (m & e & ->).
  set (delay := fmax f0 _).
  assert (Hs : signed true (fdiv (fopp delay) (S754_finite false m e))).
  { apply (fdiv_signed true false). by apply (signed_fopp false), fmax0_signed. }
  apply signed_true_not_pos in Hs as [Hnan Hnp]. specialize (Hpow _ Hnan Hnp).
  by destruct (fpow f2 _) as [[]|[]| |[] ? ?].
Qed.

(** ** Witnesses *)

Definition passing_result (i : Z) : ExecutionResult :=
  {| test_index := i; passed := true; value := PNone; value_ok := true; actual_repr := None; error := None; error_kind := None; timed_out := false;
     runtime_ms := f0 |}.

Lemma verify_all_passed_witness :
  all_passed (verify false 2 [] 2 (λ _, [passing_result 0; passing_result 1])) = true.
Proof.
  apply (verify_all_passed false 2 [] 2 (λ _, [passing_result 0; passing_result 1])); [lia|].
  split; [reflexivity|]. split; [lia|]. intros i run Hi Hrun.
  apply list_elem_of_fmap in Hrun as (k & -> & _).
  assert (i = 0 ∨ i = 1)%Z as [-> | ->] by lia; reflexivity.
Defined.

Definition flat_math : PyMath := {| fpow := λ _ _, f1; fsum := foldl fadd f0 |}.

Definition outcome_of (u : Z) (ok : bool) (latency : Z) : MinerOutcome :=
  {| uid := u; hotkey := []; o_reward := f0;
     solution := {| s_problem_id := []; code := []; raw_response := [];
                    latency_ms := float_of_int latency |};
     verification := {| v_problem_id := []; num_tests := 1; num_passed := 0; all_passed := ok;
                        v_reward := f0; compile_error := None; results := [];
                        flagged_flaky := false |} |}.

Lemma payments_hard_gate_witness :
  compute_payments (H := flat_math) [outcome_of 3 true 900; outcome_of 5 false 10]
    (float_of_int 180000) f1 !! 5%Z = Some f0.
Proof.
  apply (payments_hard_gate (H := flat_math) [outcome_of 3 true 900; outcome_of 5 false 10]
    (float_of_int 180000)) with (o := outcome_of 5 false 10).
  - apply (bool_decide_unpack _). vm_compute. done.
  - intros x _ _. reflexivity.
  - apply list_elem_of_In. simpl. tauto.
Defined.
