(* ===== verification/Wire.v ===== *)
(** * Wire values, reason codes and the JSON text shared by the protocol records
    ([src/rlvr/v3/wire.py], [reasons.py], and [json.dumps] with
    [ensure_ascii=True]).

    A pydantic model is a record; its field constraints are boolean predicates and
    its [model_validator]s functions to [result].  [model_validate] is what pydantic
    does with them: any failure is a [ValidationError]. *)

From S2P Require Import Prelude PyFloat Text Json Canonical.

Local Open Scope N_scope.

(** ** Reason codes (reasons.py) *)

Inductive MinerReason :=
  | NOT_SERVING | DISPATCH_FAILED | RESPONSE_UNAVAILABLE | SLOT_MISMATCH | ARTIFACT_INVALID
  | TRAJECTORY_INVALID | PATCH_REJECTED | PATCH_STATIC_REJECTED | PATCH_APPLY_FAILED
  | SCRIPT_REJECTED | WORKING_DIRECTORY_INVALID | SETUP_FAILED | CHECK_FAILED | TIMEOUT
  | MEMORY_LIMIT | OUTPUT_LIMIT | RESULT_TREE_INVALID.

#[export] Instance MinerReason_eq_dec : EqDecision MinerReason.
Proof. solve_decision. Defined.

Inductive RoundReason :=
  | LEASE_UNAVAILABLE | UNSUPPORTED_PROFILE | UNSUPPORTED_VERIFIER_POLICY | INSUFFICIENT_STORAGE
  | SLOT_POOL_MISMATCH | LEASE_QUORUM_MISMATCH | LEASE_TOO_SHORT | QUORUM_NOT_MET | COMMIT_FAILED
  | REVEAL_MISMATCH | GRADING_EXPIRED | SUBMISSION_FORMAT_MISMATCH | SUBMISSION_GRANT_MISMATCH
  | SUBMISSION_DOWNLOAD_FAILED | UNSUPPORTED_TASK | WORKSPACE_INVALID | PATCH_TOOL_FAILED
  | SETUP_UNAVAILABLE | SCRIPT_UNAVAILABLE | VERIFIER_UNAVAILABLE | VALIDATOR_ERROR
  | WORKSPACE_DOWNLOAD_FAILED | WORKSPACE_EXTRACTION_FAILED | WORKSPACE_MATERIALIZATION_FAILED
  | VERIFIER_DOWNLOAD_FAILED | VERIFIER_INVALID | CLEANUP_FAILED.

#[export] Instance RoundReason_eq_dec : EqDecision RoundReason.
Proof. solve_decision. Defined.

Inductive Stage :=
  | LEASE | WORKSPACE_DOWNLOAD | WORKSPACE_EXTRACTION | DISPATCH | COMMIT | VERIFIER_DOWNLOAD
  | VERIFIER_EXTRACTION | VERIFIER_MANIFEST | SUBMISSION_DOWNLOAD | WORKSPACE_MATERIALIZATION
  | GRADING | PATCH | SETUP | SCRIPT | CHECK | RESULT_TREE | CLEANUP.

#[export] Instance Stage_eq_dec : EqDecision Stage.
Proof. solve_decision. Defined.

Definition miner_reason_value (r : MinerReason) : pystr :=
  ustr match r with
  | NOT_SERVING => "not_serving" | DISPATCH_FAILED => "dispatch_failed"
  | RESPONSE_UNAVAILABLE => "response_unavailable" | SLOT_MISMATCH => "slot_mismatch"
  | ARTIFACT_INVALID => "artifact_invalid" | TRAJECTORY_INVALID => "trajectory_invalid"
  | PATCH_REJECTED => "patch_rejected" | PATCH_STATIC_REJECTED => "patch_static_rejected"
  | PATCH_APPLY_FAILED => "patch_apply_failed" | SCRIPT_REJECTED => "script_rejected"
  | WORKING_DIRECTORY_INVALID => "working_directory_invalid" | SETUP_FAILED => "setup_failed"
  | CHECK_FAILED => "check_failed" | TIMEOUT => "timeout" | MEMORY_LIMIT => "memory_limit"
  | OUTPUT_LIMIT => "output_limit" | RESULT_TREE_INVALID => "result_tree_invalid"
  end.

(** ** Field types (wire.py) *)

Section wire.
Context `{!UnicodeData}.

(** [_validate_value] on a plain value: unlike [_validate_json_value] the keys of
    an object count one level, and a tuple or a model is unsupported or dumped
    first by the caller. *)
Fixpoint validate_wire_value (value : pyobj) (depth : nat) : result unit :=
  match value with
  | PStr s => validate_protocol_string s
  | PBool _ | PNone => Ok ()
  | PInt z => raise_if (negb (safe_integer z)) ValueError
                "integer is outside the interoperable range"
  | PFloat _ => raise ValueError "floating-point values are not allowed"
  | PDict l =>
      raise_if (MAX_NESTING_DEPTH <=? depth)%nat ValueError
        "maximum wire nesting depth exceeded";;
      for_each (λ '(key, item),
        (match key with
         | PStr k => validate_protocol_string k
         | _ => raise ValueError "wire object keys must be strings"
         end);;
        validate_wire_value item (S depth)) l
  | PList l =>
      raise_if (MAX_NESTING_DEPTH <=? depth)%nat ValueError
        "maximum wire nesting depth exceeded";;
      for_each (λ item, validate_wire_value item (S depth)) l
  | POther _ => raise ValueError "unsupported wire value"
  end.

(** A string of a wire model passes [validate_protocol_string]. *)
Definition wire_str (s : pystr) : bool := is_ok (validate_protocol_string s).

Definition len_between (lo hi : Z) (s : pystr) : bool :=
  ((lo <=? zlen s) && (zlen s <=? hi))%Z.

Definition is_lower_hex (c : N) : bool := is_digit c || ((97 <=? c) && (c <=? 102)).

(** [^[0-9a-f]{64}$] *)
Definition HexDigest (s : pystr) : bool :=
  (zlen s =? 64)%Z && forallb is_lower_hex s && wire_str s.

Definition BoundedIdentifier (s : pystr) : bool := len_between 1 128 s && wire_str s.
Definition BoundedURL (s : pystr) : bool := len_between 1 8192 s && wire_str s.
Definition BoundedSize (z : Z) : bool := ((0 <=? z) && (z <=? SAFE_INTEGER_MAX))%Z.
Definition PositiveBoundedSize (z : Z) : bool := ((0 <? z) && (z <=? SAFE_INTEGER_MAX))%Z.
Definition Timestamp (z : Z) : bool := ((0 <=? z) && (z <=? SAFE_INTEGER_MAX))%Z.
Definition UID (z : Z) : bool := ((0 <=? z) && (z <=? 1023))%Z.

(** [exact_int_literal(v)] *)
Definition exact_int (v z : Z) : bool := (z =? v)%Z.
End wire.

(** [model_validate]: the fields, then the validators of the model. *)
Definition model_validate {M : Type} (fields : M → bool) (after : M → result unit) (m : M)
    : result M :=
  if fields m then
    match after m with
    | Ok _ => Ok m
    | Raise e => if is_value_error (exn_cls e) then raise ValidationError "invalid model" else Raise e
    end
  else raise ValidationError "invalid model".

Lemma model_validate_Ok {M : Type} (fields : M → bool) (after : M → result unit) (m m' : M) :
  model_validate fields after m = Ok m' ↔ fields m = true ∧ after m = Ok () ∧ m' = m.
Proof.
  unfold model_validate. destruct (fields m); [|naive_solver].
  destruct (after m) as [[]|e]; [naive_solver|]. destruct (is_value_error _); naive_solver.
Qed.

(** [len(set(xs)) != len(xs)] *)
Definition has_duplicates {A} `{Countable A} (xs : list A) : bool :=
  negb (size (list_to_set xs : gset A) =? length xs)%nat.

Lemma size_list_to_set_le {A} `{Countable A} (xs : list A) :
  (size (list_to_set xs : gset A) <= length xs)%nat.
Proof.
  induction xs as [|y xs IH]; [apply Nat.le_refl|]. cbn [list_to_set length].
  pose proof (size_union_alt {[y]} (list_to_set xs : gset A)) as Hu.
  rewrite size_singleton in Hu.
  pose proof (subseteq_size (list_to_set xs ∖ {[y]}) (list_to_set xs : gset A) ltac:(set_solver)).
  lia.
Qed.

Lemma has_duplicates_false {A} `{Countable A} (xs : list A) : has_duplicates xs = false ↔ NoDup xs.
Proof.
  unfold has_duplicates. rewrite negb_false_iff, Nat.eqb_eq.
  split; [|intros Hnd; by rewrite size_list_to_set].
  induction xs as [|x xs IH]; intros Hs; [constructor|]. cbn [list_to_set length] in Hs.
  pose proof (size_list_to_set_le xs) as Hle.
  destruct (decide (x ∈ (list_to_set xs : gset A))) as [Hin|Hin].
  - rewrite subseteq_union_1_L in Hs by set_solver. lia.
  - rewrite size_union, size_singleton in Hs by set_solver.
    constructor; [set_solver|]. apply IH. lia.
Qed.

(** ** [json.dumps(s, ensure_ascii=True)] of a string *)

Definition hex4_digits (c : N) : pystr :=
  [hex_digit (c / 4096); hex_digit ((c / 256) mod 16); hex_digit ((c / 16) mod 16);
   hex_digit (c mod 16)].

Definition u_escape (c : N) : pystr := 92 :: 117 :: hex4_digits c.

Definition ascii_escape (c : N) : pystr :=
  if c =? 34 then [92; 34] else if c =? 92 then [92; 92]
  else if c =? 10 then [92; 110] else if c =? 13 then [92; 114]
  else if c =? 9 then [92; 116] else if c =? 12 then [92; 102]
  else if c =? 8 then [92; 98]
  else if (32 <=? c) && (c <=? 126) then [c]
  else if c <? 0x10000 then u_escape c
  else u_escape (0xD800 + (c - 0x10000) / 1024) ++ u_escape (0xDC00 + (c - 0x10000) mod 1024).

Definition json_quote_ascii (s : pystr) : pystr := 34 :: concat (map ascii_escape s) ++ [34].

Lemma ascii_escape_length (c : N) : (1 <= length (ascii_escape c) <= 12)%nat.
Proof. unfold ascii_escape. repeat case_match; simpl; lia. Qed.

Lemma json_quote_ascii_length (s : pystr) : (zlen s + 2 <= zlen (json_quote_ascii s))%Z.
Proof.
  unfold json_quote_ascii, zlen. simpl. rewrite length_app. simpl.
  assert (Hc : (length s <= length (concat (map ascii_escape s)))%nat); [|lia].
  induction s as [|c s IH]; simpl; [lia|]. rewrite length_app.
  pose proof (ascii_escape_length c). lia.
Qed.
