(* ===== verification/Identity.v ===== *)
(** * Task identities ([src/rlvr/v3/identity.py]) and the script gate
    ([src/rlvr/v3/script.py]).

    [hashlib.sha256] is the class [Sha256]; the theorems that need it name the two
    inputs on which it must not collide. *)

From S2P Require Import Prelude PyFloat Text Json JsonSpec Canonical CanonicalSpec Wire.

Local Open Scope N_scope.

(** ** Hashing *)

Class Sha256 := { sha256 : bytes → bytes }.

(** [digest.hex()] *)
Definition hexdigest (digest : bytes) : pystr :=
  concat (map (λ b, let n := N_of_ascii b in [hex_digit (n / 16); hex_digit (n mod 16)]) digest).

Lemma hexdigest_inj (x y : bytes) : hexdigest x = hexdigest y → x = y.
Proof.
  revert y. induction x as [|b x IH]; intros [|c y]; try done. unfold hexdigest. simpl.
  intros [= H1 H2 H3].
  pose proof (N_ascii_bounded b). pose proof (N_ascii_bounded c).
  apply hex_digit_inj in H1, H2;
    try (apply N.mod_lt; lia); try (apply N.Div0.div_lt_upper_bound; lia).
  f_equal; [|by apply IH]. rewrite <-(ascii_N_embedding b), <-(ascii_N_embedding c). f_equal.
  rewrite (N.div_mod' (N_of_ascii b) 16), (N.div_mod' (N_of_ascii c) 16). lia.
Qed.

Definition TASK_ID_DOMAIN : bytes := bstr "hone-v3-task-id" ++ [ascii_of_N 0].

(** ** Paths *)

Section paths.
Context `{!UnicodeData}.

Definition validate_relative_path (value : pystr) : result pystr :=
  validate_protocol_string value;;
  raise_if (negb (len_between 1 1024 value)) ValueError
    "relative path length is outside the allowed range";;
  raise_if (contains [0] value) ValueError "relative paths must not contain NUL bytes";;
  raise_if (contains [92] value) ValueError "relative paths must use POSIX separators";;
  raise_if (startswith [slash] value) ValueError "relative paths must not be absolute";;
  if bool_decide (value = dot) then mret value
  else
    raise_if (existsb (λ segment, bool_decide (segment = []) || bool_decide (segment = dot)
                 || bool_decide (segment = dotdot)) (split_on slash value))
      ValueError "relative path is not normalized";;
    mret value.

(** ** Identities *)

Definition token_head (c : N) : bool := is_digit c || ((97 <=? c) && (c <=? 122)).
Definition token_char (c : N) : bool := token_head c || (c =? 46) || (c =? 95) || (c =? 45).

(** [^[a-z0-9][a-z0-9._-]*$], one to 128 characters *)
Definition ProfileToken (s : pystr) : bool :=
  len_between 1 128 s &&
  match s with c :: r => token_head c && forallb token_char r | [] => false end.

Definition RelativePath (s : pystr) : bool :=
  len_between 1 1024 s && is_ok (validate_relative_path s).

Inductive TaskKind := bug_fix | feature.

Record RepositoryTaskIdentity := {
  r_task_kind : TaskKind;
  r_instruction : pystr;
  r_primary_language : pystr;
  r_workspace_sha256 : pystr;
  r_verifier_sha256 : pystr;
  r_execution_profile_id : pystr;
  r_working_directory : pystr;
  r_verifier_policy : pystr;
  r_authoring_version : pystr
}.

Record TerminalScriptTaskIdentity := {
  t_instruction : pystr;
  t_environment_sha256 : pystr;
  t_verifier_sha256 : pystr;
  t_execution_profile_id : pystr;
  t_result_tree_path : pystr;
  t_verifier_policy : pystr;
  t_authoring_version : pystr
}.

(** The union discriminated by [task_type]; [schema_version] and [patch_format] have
    one value each. *)
Inductive TaskIdentity :=
  | RepositoryTask (i : RepositoryTaskIdentity)
  | TerminalTask (i : TerminalScriptTaskIdentity).

Definition repository_fields (i : RepositoryTaskIdentity) : bool :=
  len_between 1 500000 (r_instruction i)
  && len_between 1 64 (r_primary_language i)
  && HexDigest (r_workspace_sha256 i) && HexDigest (r_verifier_sha256 i)
  && ProfileToken (r_execution_profile_id i)
  && RelativePath (r_working_directory i)
  && ProfileToken (r_verifier_policy i)
  && len_between 1 128 (r_authoring_version i).

Definition terminal_fields (i : TerminalScriptTaskIdentity) : bool :=
  len_between 1 500000 (t_instruction i)
  && HexDigest (t_environment_sha256 i) && HexDigest (t_verifier_sha256 i)
  && ProfileToken (t_execution_profile_id i)
  && RelativePath (t_result_tree_path i)
  && ProfileToken (t_verifier_policy i)
  && len_between 1 128 (t_authoring_version i).

Definition key (s : string) : pyobj := PStr (ustr s).

Definition task_kind_value (k : TaskKind) : pystr :=
  match k with bug_fix => ustr "bug_fix" | feature => ustr "feature" end.

(** [model_dump(mode="python")]: the fields in declaration order. *)
Definition identity_dump (i : TaskIdentity) : pyobj :=
  match i with
  | RepositoryTask r => PDict
      [(key "schema_version", PInt 1);
       (key "task_type", key "repository_patch_v1");
       (key "task_kind", PStr (task_kind_value (r_task_kind r)));
       (key "instruction", PStr (r_instruction r));
       (key "primary_language", PStr (r_primary_language r));
       (key "workspace_sha256", PStr (r_workspace_sha256 r));
       (key "verifier_sha256", PStr (r_verifier_sha256 r));
       (key "execution_profile_id", PStr (r_execution_profile_id r));
       (key "working_directory", PStr (r_working_directory r));
       (key "patch_format", key "unified_diff_v1");
       (key "verifier_policy", PStr (r_verifier_policy r));
       (key "authoring_version", PStr (r_authoring_version r))]
  | TerminalTask t => PDict
      [(key "schema_version", PInt 1);
       (key "task_type", key "terminal_script_v1");
       (key "instruction", PStr (t_instruction t));
       (key "environment_sha256", PStr (t_environment_sha256 t));
       (key "verifier_sha256", PStr (t_verifier_sha256 t));
       (key "execution_profile_id", PStr (t_execution_profile_id t));
       (key "result_tree_path", PStr (t_result_tree_path t));
       (key "verifier_policy", PStr (t_verifier_policy t));
       (key "authoring_version", PStr (t_authoring_version t))]
  end.

(** The values pass [validate_wire_values], then the constraints of the fields. *)
Definition identity_fields (i : TaskIdentity) : bool :=
  is_ok (validate_wire_value (identity_dump i) 0) &&
  match i with RepositoryTask r => repository_fields r | TerminalTask t => terminal_fields t end.

Definition compute_task_id `{!Sha256} (identity : TaskIdentity) : result pystr :=
  validated ← model_validate identity_fields (λ _, Ok ()) identity;
  raw ← canonical_json_bytes (identity_dump validated);
  mret (hexdigest (sha256 (TASK_ID_DOMAIN ++ raw))).

Definition workspace_digest (i : TaskIdentity) : pystr :=
  match i with
  | RepositoryTask r => r_workspace_sha256 r
  | TerminalTask t => t_environment_sha256 t
  end.

Definition verifier_digest (i : TaskIdentity) : pystr :=
  match i with
  | RepositoryTask r => r_verifier_sha256 r
  | TerminalTask t => t_verifier_sha256 t
  end.

Definition verifier_policy (i : TaskIdentity) : pystr :=
  match i with
  | RepositoryTask r => r_verifier_policy r
  | TerminalTask t => t_verifier_policy t
  end.

Definition execution_profile_id (i : TaskIdentity) : pystr :=
  match i with
  | RepositoryTask r => r_execution_profile_id r
  | TerminalTask t => t_execution_profile_id t
  end.

Definition is_repository (i : TaskIdentity) : bool :=
  match i with RepositoryTask _ => true | TerminalTask _ => false end.
End paths.

(** ** The script gate (script.py) *)

Inductive ScriptStatus := script_accepted | script_rejected.
Record ScriptResult := { script_status : ScriptStatus; script_reason : pystr }.

(** [__post_init__] of [ScriptLimits] and [ScriptResult]. *)
Definition check_script_limits (max_script_bytes : Z) : result unit :=
  raise_if (max_script_bytes <=? 0)%Z ValueError "script byte limit must be a positive integer".

Definition mk_script_result (st : ScriptStatus) (reason : pystr) : result ScriptResult :=
  raise_if (match st with script_accepted => negb (bool_decide (reason = [])) | _ => false end)
    ValueError "an accepted script cannot have a rejection reason";;
  raise_if (match st with script_rejected => negb (len_between 1 200 reason) | _ => false end)
    ValueError "a rejected script requires a bounded reason";;
  mret {| script_status := st; script_reason := reason |}.

Definition validate_script (script : bytes) (max_script_bytes : Z) : result ScriptResult :=
  if (max_script_bytes <? zlen script)%Z then
    mk_script_result script_rejected (ustr "script exceeds the policy byte limit")
  else if contains [ascii_of_N 0] script then
    mk_script_result script_rejected (ustr "script contains a NUL byte")
  else match utf8_decode script with
       | Ok _ => mk_script_result script_accepted []
       | Raise e =>
           if bool_decide (exn_cls e = UnicodeDecodeError)
           then mk_script_result script_rejected (ustr "script is not valid UTF-8")
           else Raise e
       end.

(** ** Lemmas *)

Section path_lemmas.
Context `{UD : !UnicodeData}.

Lemma validate_relative_path_Ok (value p : pystr) :
  validate_relative_path value = Ok p →
  p = value ∧ value ≠ [] ∧ startswith [slash] value = false ∧
  contains [0] value = false ∧ contains [92] value = false ∧
  (value = dot ∨
   ∀ segment, segment ∈ split_on slash value → segment ≠ [] ∧ segment ≠ dot ∧ segment ≠ dotdot).
Proof.
  unfold validate_relative_path. rewrite seq_Ok, !guard_Ok.
  intros (_ & Hlen & H0 & Hb & Hs & Hv). apply negb_false_iff in Hlen.
  assert (Hne : value ≠ []) by (by intros ->).
  case_bool_decide as Hd; [injection Hv as <-; by auto 10|].
  apply guard_Ok in Hv as [Hseg [= <-]]. split_and!; try done. right. intros segment Hin.
  rewrite <-not_true_iff_false, existsb_exists in Hseg.
  assert (Hno : bool_decide (segment = []) || bool_decide (segment = dot)
    || bool_decide (segment = dotdot) = false).
  { apply not_true_iff_false. intros Ht. apply Hseg. exists segment. by rewrite <-list_elem_of_In. }
  by bool_simpl; destruct Hno as [[??] ?].
Qed.

Lemma validate_protocol_string_fueled (s : pystr) : fueled (validate_protocol_string s).
Proof. unfold validate_protocol_string. fueled_tac. Qed.

Lemma validate_relative_path_fueled (value : pystr) : fueled (validate_relative_path value).
Proof.
  unfold validate_relative_path. apply fueled_bind; [apply validate_protocol_string_fueled|].
  intros _ _. fueled_tac.
Qed.

(** Normalizing plain components only appends them. *)
Lemma norm_comps_plain (rooted : bool) (acc comps : list pystr) :
  (∀ c, c ∈ comps → c ≠ [] ∧ c ≠ dot ∧ c ≠ dotdot) →
  norm_comps rooted acc comps = rev acc ++ comps.
Proof.
  revert acc. induction comps as [|c comps IH]; intros acc Hc; simpl; [by rewrite app_nil_r|].
  destruct (Hc c) as (H1 & H2 & H3); [by left|].
  rewrite !bool_decide_eq_false_2 by done. simpl. rewrite IH by (intros; apply Hc; by right).
  simpl. by rewrite <-(assoc_L (++)).
Qed.

Lemma split_on_plain_nonempty (value : pystr) : value ≠ [] → join [slash] (split_on slash value) ≠ [].
Proof. by rewrite join_split_on. Qed.
End path_lemmas.

(** (safety, path containment): an accepted relative path is already normalized,
    is not absolute and has no NUL or backslash; and resolving it below any
    directory only appends components, it never climbs out of the directory. *)
Theorem relative_path_contained `{UD : !UnicodeData} (value p : pystr) :
  validate_relative_path value = Ok p →
  p = value ∧ normpath value = value ∧ startswith [slash] value = false ∧
  contains [0] value = false ∧ contains [92] value = false ∧
  ∀ base : list pystr, ∃ below, norm_comps true (rev base) (split_on slash value) = base ++ below.
Proof.
  intros (-> & Hne & Hs & H0 & Hb & Hseg)%validate_relative_path_Ok.
  destruct Hseg as [-> | Hseg].
  - split_and!; try done. intros base. exists []. simpl. by rewrite rev_involutive, app_nil_r.
  - split_and!; try done.
    + unfold normpath. rewrite bool_decide_eq_false_2 by done.
      assert (Hs2 : startswith [slash; slash] value = false).
      { destruct value as [|c v]; [done|]. simpl in *. by destruct (bool_decide (slash = c)). }
      rewrite Hs, Hs2. simpl. rewrite norm_comps_plain by done. simpl.
      rewrite join_split_on. by rewrite bool_decide_eq_false_2.
    + intros base. exists (split_on slash value). rewrite norm_comps_plain by done.
      by rewrite rev_involutive.
Qed.

(** Every Python string of an identity is made of code points. *)
Definition wf_identity (i : TaskIdentity) : Prop := wf_value (identity_dump i) = true.

(** What [compute_task_id] hashes. *)
Definition task_id_preimage `{!UnicodeData} (i : TaskIdentity) : option bytes :=
  app TASK_ID_DOMAIN <$> result_to_option (canonical_json_bytes (identity_dump i)).

Lemma identity_dump_canon_inj (i j : TaskIdentity) :
  canon (identity_dump i) = canon (identity_dump j) → i = j.
Proof.
  destruct i as [[k1]|[]], j as [[k2]|[]]; simpl; intros Heq; simplify_eq; try done.
  by destruct k1, k2.
Qed.

(** (safety, binding): the task id binds the identity.  If two identities are
    given the same id, and SHA-256 does not collide on the two strings that were
    hashed, they are the same identity, field by field. *)
Theorem task_id_binds `{UD : !UnicodeData, SH : !Sha256} (i j : TaskIdentity) (id : pystr) :
  wf_identity i → wf_identity j →
  (∀ x y, task_id_preimage i = Some x → task_id_preimage j = Some y →
     sha256 x = sha256 y → x = y) →
  compute_task_id i = Ok id → compute_task_id j = Ok id → i = j.
Proof.
  intros Hi Hj Hsha. unfold compute_task_id.
  intros (i' & (_ & _ & ->)%model_validate_Ok & (ri & Hri & [= <-])%bind_Ok)%bind_Ok.
  intros (j' & (_ & _ & ->)%model_validate_Ok & (rj & Hrj & [= Hid])%bind_Ok)%bind_Ok.
  apply hexdigest_inj in Hid.
  assert (Heq : TASK_ID_DOMAIN ++ ri = TASK_ID_DOMAIN ++ rj).
  { apply Hsha; [| |done]; unfold task_id_preimage; by rewrite ?Hri, ?Hrj. }
  apply app_inv_head in Heq as ->. apply identity_dump_canon_inj.
  by eapply canonical_bytes_inj.
Qed.

(** ** Witnesses *)

Lemma relative_path_contained_witness :
  normpath (ustr "src/a.py") = ustr "src/a.py".
Proof.
  apply (relative_path_contained (UD := ascii_unicode) (ustr "src/a.py") (ustr "src/a.py")).
  vm_compute. reflexivity.
Defined.

Definition sample_identity : TaskIdentity :=
  TerminalTask {| t_instruction := ustr "do it"; t_environment_sha256 := replicate 64%nat 48;
                  t_verifier_sha256 := replicate 64%nat 49; t_execution_profile_id := ustr "p1";
                  t_result_tree_path := ustr "out"; t_verifier_policy := ustr "v1";
                  t_authoring_version := ustr "1" |}.

Definition sha_id : Sha256 := {| sha256 := λ x, x |}.

Definition sample_id : pystr :=
  default [] (result_to_option
    (compute_task_id (H := ascii_unicode) (H0 := sha_id) sample_identity)).

Lemma task_id_binds_witness : sample_id ≠ [] ∧ sample_identity = sample_identity.
Proof.
  split; [vm_compute; congruence|].
  apply (task_id_binds (UD := ascii_unicode) (SH := sha_id) sample_identity sample_identity sample_id);
    [vm_compute; reflexivity|vm_compute; reflexivity|intros x y _ _ Hxy; exact Hxy
    |vm_compute; reflexivity|vm_compute; reflexivity].
Defined.
