(* ===== verification/Api.v ===== *)
(** * Protocol records: artifacts, leases, commits, reveals and feedback
    ([src/rlvr/v3/artifacts.py], [src/rlvr/v3/api.py]).

    Every model is a record with its field constraints ([<Model>_fields]) and its
    [model_validator] ([validate_...], [reject_...]); [<Model>_validate] is the
    construction of the model.  [model_dump_json] is a variable. *)

From S2P Require Import Prelude PyFloat Text Json JsonSpec Canonical CanonicalSpec Wire Identity.

(** ** Artifacts (artifacts.py) *)

Inductive ArchiveRole := role_workspace | role_terminal_environment | role_dependency_bundle
  | role_verifier.
Inductive UploadRole := role_patch | role_script | role_trajectory.
Inductive UploadFormat := unified_diff_v1 | bash_script_v1 | trajectory_v1.

#[export] Instance ArchiveRole_eq_dec : EqDecision ArchiveRole. Proof. solve_decision. Defined.
#[export] Instance UploadRole_eq_dec : EqDecision UploadRole. Proof. solve_decision. Defined.
#[export] Instance UploadFormat_eq_dec : EqDecision UploadFormat. Proof. solve_decision. Defined.

(** [_UPLOAD_FORMATS] *)
Definition upload_format (role : UploadRole) : UploadFormat :=
  match role with
  | role_patch => unified_diff_v1 | role_script => bash_script_v1
  | role_trajectory => trajectory_v1
  end.

Definition validate_upload_format (role : UploadRole) (fmt : UploadFormat) : result unit :=
  raise_if (negb (bool_decide (upload_format role = fmt))) ValueError
    "artifact role and format do not match".

Record ArtifactRef := {
  ar_role : ArchiveRole;
  ar_sha256 : pystr;
  ar_compressed_size : Z;
  ar_expanded_size : Z
}.

Record MinerArtifactRef := {
  m_role : UploadRole;
  m_format : UploadFormat;
  m_upload_id : pystr;
  m_sha256 : pystr;
  m_size_bytes : Z
}.

Record UploadSlot := {
  s_challenge_id : pystr;
  s_task_id : pystr;
  s_uid : Z;
  s_hotkey : pystr;
  s_role : UploadRole;
  s_format : UploadFormat;
  s_upload_id : pystr;
  s_upload_url : pystr;
  s_expires_at : Z;
  s_max_bytes : Z
}.

Record MinerSlotSet := { submission : UploadSlot; trajectory : UploadSlot }.

(** The formats a grant may have. *)
Inductive GrantFormat := grant_diff | grant_script.
#[export] Instance GrantFormat_eq_dec : EqDecision GrantFormat. Proof. solve_decision. Defined.

Record ArtifactGrant := {
  g_uid : Z;
  g_hotkey : pystr;
  g_upload_id : pystr;
  g_sha256 : pystr;
  g_size_bytes : Z;
  g_format : GrantFormat;
  g_read_url : pystr
}.

Inductive FailureReason := slot_mismatch | artifact_invalid | trajectory_invalid.
Record ArtifactFailure := { af_uid : Z; af_hotkey : pystr; af_reason : FailureReason }.

Section artifacts.
Context `{!UnicodeData}.

Definition ArtifactRef_fields (a : ArtifactRef) : bool :=
  HexDigest (ar_sha256 a) && BoundedSize (ar_compressed_size a) && BoundedSize (ar_expanded_size a).

Definition MinerArtifactRef_fields (a : MinerArtifactRef) : bool :=
  BoundedIdentifier (m_upload_id a) && HexDigest (m_sha256 a) && BoundedSize (m_size_bytes a).

Definition MinerArtifactRef_validate : MinerArtifactRef → result MinerArtifactRef :=
  model_validate MinerArtifactRef_fields (λ a, validate_upload_format (m_role a) (m_format a)).

Definition UploadSlot_fields (s : UploadSlot) : bool :=
  BoundedIdentifier (s_challenge_id s) && HexDigest (s_task_id s) && UID (s_uid s)
  && BoundedIdentifier (s_hotkey s) && BoundedIdentifier (s_upload_id s)
  && BoundedURL (s_upload_url s) && Timestamp (s_expires_at s)
  && PositiveBoundedSize (s_max_bytes s).

Definition UploadSlot_validate : UploadSlot → result UploadSlot :=
  model_validate UploadSlot_fields (λ s, validate_upload_format (s_role s) (s_format s)).

Definition validate_slots (m : MinerSlotSet) : result unit :=
  let sub := submission m in
  let tr := trajectory m in
  raise_if (negb (bool_decide (s_role sub = role_patch) || bool_decide (s_role sub = role_script)))
    ValueError "submission slot must contain a patch or script";;
  raise_if (negb (bool_decide (s_role tr = role_trajectory)))
    ValueError "trajectory slot must contain a trajectory";;
  raise_if (negb (bool_decide (s_challenge_id sub = s_challenge_id tr)))
    ValueError "slot binding mismatch: challenge_id";;
  raise_if (negb (bool_decide (s_task_id sub = s_task_id tr)))
    ValueError "slot binding mismatch: task_id";;
  raise_if (negb (s_uid sub =? s_uid tr)%Z) ValueError "slot binding mismatch: uid";;
  raise_if (negb (bool_decide (s_hotkey sub = s_hotkey tr)))
    ValueError "slot binding mismatch: hotkey";;
  raise_if (bool_decide (s_upload_id sub = s_upload_id tr))
    ValueError "upload slots must have distinct object identities".

Definition MinerSlotSet_fields (m : MinerSlotSet) : bool :=
  is_ok (UploadSlot_validate (submission m)) && is_ok (UploadSlot_validate (trajectory m)).

Definition MinerSlotSet_validate : MinerSlotSet → result MinerSlotSet :=
  model_validate MinerSlotSet_fields validate_slots.

Definition ArtifactGrant_fields (g : ArtifactGrant) : bool :=
  UID (g_uid g) && BoundedIdentifier (g_hotkey g) && BoundedIdentifier (g_upload_id g)
  && HexDigest (g_sha256 g) && BoundedSize (g_size_bytes g) && BoundedURL (g_read_url g).

Definition ArtifactFailure_fields (f : ArtifactFailure) : bool :=
  UID (af_uid f) && BoundedIdentifier (af_hotkey f).
End artifacts.

(** ** Leases (api.py) *)

Definition CANDIDATE_LIMIT : Z := 256.

Record LeaseRequest := {
  lr_request_id : pystr;
  lr_candidates : list (Z * pystr);
  lr_miners_per_task : option Z
}.

Record LeaseResponse := {
  l_protocol_version : Z;
  l_challenge_id : pystr;
  l_task_id : pystr;
  l_identity : TaskIdentity;
  l_workspace : ArtifactRef;
  l_workspace_url : pystr;
  l_verifier : ArtifactRef;
  l_issued_at : Z;
  l_expires_at : Z;
  l_slot_pool : list MinerSlotSet;
  l_commit_min : Z
}.

Record MinerTaskRequest := {
  t_protocol_version : Z;
  t_challenge_id : pystr;
  t_task_id : pystr;
  t_identity : TaskIdentity;
  t_workspace : ArtifactRef;
  t_workspace_url : pystr;
  t_expires_at : Z;
  t_slots : MinerSlotSet
}.

Inductive ResponseType := repository_patch_v1 | terminal_script_v1.
#[export] Instance ResponseType_eq_dec : EqDecision ResponseType. Proof. solve_decision. Defined.

Record MinerTaskResponse := {
  p_protocol_version : Z;
  p_challenge_id : pystr;
  p_task_id : pystr;
  p_response_type : ResponseType;
  p_submission : MinerArtifactRef;
  p_trajectory : MinerArtifactRef
}.

Definition task_type (i : TaskIdentity) : ResponseType :=
  if is_repository i then repository_patch_v1 else terminal_script_v1.

Definition expected_workspace_role (i : TaskIdentity) : ArchiveRole :=
  if is_repository i then role_workspace else role_terminal_environment.

Definition expected_submission (i : TaskIdentity) : UploadRole :=
  if is_repository i then role_patch else role_script.

Section leases.
Context `{!UnicodeData, !Sha256}.

Definition LeaseRequest_fields (r : LeaseRequest) : bool :=
  BoundedIdentifier (lr_request_id r)
  && ((1 <=? zlen (lr_candidates r)) && (zlen (lr_candidates r) <=? CANDIDATE_LIMIT))%Z
  && forallb (λ c, UID c.1 && BoundedIdentifier c.2) (lr_candidates r)
  && match lr_miners_per_task r with
     | Some n => ((1 <=? n) && (n <=? CANDIDATE_LIMIT))%Z
     | None => true
     end.

Definition validate_candidates (r : LeaseRequest) : result unit :=
  raise_if (has_duplicates (map fst (lr_candidates r))) ValueError
    "candidates must not repeat a uid".

Definition LeaseRequest_validate : LeaseRequest → result LeaseRequest :=
  model_validate LeaseRequest_fields validate_candidates.

Definition slot_upload_ids (slots : MinerSlotSet) : list pystr :=
  [s_upload_id (submission slots); s_upload_id (trajectory slots)].

Fixpoint add_upload_ids (seen : gset pystr) (ids : list pystr) : result (gset pystr) :=
  match ids with
  | [] => Ok seen
  | upload_id :: ids' =>
      raise_if (bool_decide (upload_id ∈ seen)) ValueError
        "slot pool contains a duplicate upload_id";;
      add_upload_ids ({[upload_id]} ∪ seen) ids'
  end.

(** The loop over the slot pool with its three growing sets. *)
Fixpoint check_pool (challenge task : pystr) (role : UploadRole) (uids : gset Z)
    (hotkeys upload_ids : gset pystr) (pool : list MinerSlotSet) : result unit :=
  match pool with
  | [] => Ok ()
  | slots :: pool' =>
      let sub := submission slots in
      raise_if (negb (bool_decide (s_challenge_id sub = challenge))
                || negb (bool_decide (s_task_id sub = task)))
        ValueError "slot does not match lease";;
      raise_if (negb (bool_decide (s_role sub = role))) ValueError
        "submission slot does not match task type";;
      raise_if (bool_decide (s_uid sub ∈ uids) || bool_decide (s_hotkey sub ∈ hotkeys)) ValueError
        "slot pool contains a duplicate miner";;
      upload_ids' ← add_upload_ids upload_ids (slot_upload_ids slots);
      check_pool challenge task role ({[s_uid sub]} ∪ uids) ({[s_hotkey sub]} ∪ hotkeys)
        upload_ids' pool'
  end.

Definition validate_bindings (l : LeaseResponse) : result unit :=
  let identity := l_identity l in
  id ← compute_task_id identity;
  raise_if (negb (bool_decide (l_task_id l = id))) ValueError
    "task identity does not match task_id";;
  raise_if (negb (bool_decide (ar_role (l_workspace l) = expected_workspace_role identity))
            || negb (bool_decide (ar_sha256 (l_workspace l) = workspace_digest identity)))
    ValueError "workspace does not match task identity";;
  raise_if (negb (bool_decide (ar_role (l_verifier l) = role_verifier))
            || negb (bool_decide (ar_sha256 (l_verifier l) = verifier_digest identity)))
    ValueError "verifier does not match task identity";;
  raise_if (l_expires_at l <=? l_issued_at l)%Z ValueError "lease must expire after issuance";;
  raise_if (zlen (l_slot_pool l) <? l_commit_min l)%Z ValueError
    "commit quorum exceeds the slot pool";;
  check_pool (l_challenge_id l) (l_task_id l) (expected_submission identity) ∅ ∅ ∅ (l_slot_pool l).

Definition LeaseResponse_fields (l : LeaseResponse) : bool :=
  exact_int 3 (l_protocol_version l) && BoundedIdentifier (l_challenge_id l)
  && HexDigest (l_task_id l) && identity_fields (l_identity l)
  && ArtifactRef_fields (l_workspace l) && BoundedURL (l_workspace_url l)
  && ArtifactRef_fields (l_verifier l) && Timestamp (l_issued_at l) && Timestamp (l_expires_at l)
  && ((1 <=? zlen (l_slot_pool l)) && (zlen (l_slot_pool l) <=? 1024))%Z
  && forallb (λ s, is_ok (MinerSlotSet_validate s)) (l_slot_pool l)
  && ((0 <? l_commit_min l) && (l_commit_min l <=? 1024))%Z.

Definition LeaseResponse_validate : LeaseResponse → result LeaseResponse :=
  model_validate LeaseResponse_fields validate_bindings.

Definition validate_slot_binding (t : MinerTaskRequest) : result unit :=
  let identity := t_identity t in
  let sub := submission (t_slots t) in
  id ← compute_task_id identity;
  raise_if (negb (bool_decide (t_task_id t = id))) ValueError
    "task identity does not match task_id";;
  raise_if (negb (bool_decide (ar_role (t_workspace t) = expected_workspace_role identity))
            || negb (bool_decide (ar_sha256 (t_workspace t) = workspace_digest identity)))
    ValueError "workspace does not match task identity";;
  raise_if (negb (bool_decide (s_challenge_id sub = t_challenge_id t))) ValueError
    "dispatch slots do not match challenge";;
  raise_if (negb (bool_decide (s_task_id sub = t_task_id t))) ValueError
    "dispatch slots do not match task";;
  raise_if (negb (bool_decide (s_role sub = expected_submission identity))) ValueError
    "submission slot does not match task type".

Definition MinerTaskRequest_fields (t : MinerTaskRequest) : bool :=
  exact_int 3 (t_protocol_version t) && BoundedIdentifier (t_challenge_id t)
  && HexDigest (t_task_id t) && identity_fields (t_identity t)
  && ArtifactRef_fields (t_workspace t) && BoundedURL (t_workspace_url t)
  && Timestamp (t_expires_at t) && is_ok (MinerSlotSet_validate (t_slots t)).

Definition MinerTaskRequest_validate : MinerTaskRequest → result MinerTaskRequest :=
  model_validate MinerTaskRequest_fields validate_slot_binding.

Definition validate_artifacts (r : MinerTaskResponse) : result unit :=
  let expected :=
    match p_response_type r with repository_patch_v1 => role_patch | terminal_script_v1 => role_script end in
  raise_if (negb (bool_decide (m_role (p_submission r) = expected))) ValueError
    "submission does not match response_type";;
  raise_if (negb (bool_decide (m_role (p_trajectory r) = role_trajectory))) ValueError
    "trajectory artifact is required";;
  raise_if (bool_decide (m_upload_id (p_submission r) = m_upload_id (p_trajectory r))) ValueError
    "submission and trajectory upload IDs must differ".

Definition MinerTaskResponse_fields (r : MinerTaskResponse) : bool :=
  exact_int 3 (p_protocol_version r) && BoundedIdentifier (p_challenge_id r)
  && HexDigest (p_task_id r) && is_ok (MinerArtifactRef_validate (p_submission r))
  && is_ok (MinerArtifactRef_validate (p_trajectory r)).

Definition MinerTaskResponse_validate : MinerTaskResponse → result MinerTaskResponse :=
  model_validate MinerTaskResponse_fields validate_artifacts.

Definition slot_mismatch_of (artifact : MinerArtifactRef) (slot : UploadSlot) : bool :=
  negb (bool_decide (m_upload_id artifact = s_upload_id slot))
  || negb (bool_decide (m_role artifact = s_role slot))
  || negb (bool_decide (m_format artifact = s_format slot))
  || (s_max_bytes slot <? m_size_bytes artifact)%Z.

Definition validate_miner_response (task : MinerTaskRequest) (response : MinerTaskResponse)
    : result unit :=
  raise_if (negb (bool_decide (p_challenge_id response = t_challenge_id task))
            || negb (bool_decide (p_task_id response = t_task_id task)))
    ValueError "miner response does not match its task";;
  raise_if (negb (bool_decide (p_response_type response = task_type (t_identity task))))
    ValueError "miner response type does not match its task";;
  for_each (λ '(artifact, slot),
      raise_if (slot_mismatch_of artifact slot) ValueError
        "miner artifact does not match its upload slot")
    [(p_submission response, submission (t_slots task));
     (p_trajectory response, trajectory (t_slots task))].
End leases.

(** ** Commits and reveals (api.py) *)

Definition EPISTULA_HEADERS : list pystr := map ustr
  ["Epistula-Version"; "Epistula-Timestamp"; "Epistula-Uuid"; "Epistula-Signed-By";
   "Epistula-Signed-For"; "Epistula-Request-Signature"]%string.

Record MinerSubmission := {
  ms_uid : Z;
  ms_hotkey : pystr;
  ms_request_id : pystr;
  ms_response_body : pystr;
  ms_response_headers : list (pystr * pystr);
  ms_error : pystr;
  ms_latency_ms : Z
}.

Record ChallengeCommitRequest := {
  c_protocol_version : Z;
  c_challenge_id : pystr;
  c_submissions : list MinerSubmission
}.

Record CommitRevealResponse := {
  v_protocol_version : Z;
  v_challenge_id : pystr;
  v_task_id : pystr;
  v_verifier : ArtifactRef;
  v_verifier_policy : pystr;
  v_verifier_url : pystr;
  v_grading_expires_at : Z;
  v_submission_grants : list ArtifactGrant;
  v_artifact_failures : list ArtifactFailure
}.

Definition command_gold_digest_v1 : pystr := ustr "command-gold-digest-v1".

Definition utf8_size (value : pystr) (maximum : Z) : result unit :=
  raw ← utf8_encode value;
  raise_if (maximum <? zlen raw)%Z ValueError "field exceeds its UTF-8 byte limit".

Section commits.
Context `{!UnicodeData}.

Definition MinerSubmission_fields (m : MinerSubmission) : bool :=
  UID (ms_uid m) && BoundedIdentifier (ms_hotkey m) && BoundedIdentifier (ms_request_id m)
  && is_ok (utf8_size (ms_response_body m) 16384) && is_ok (utf8_size (ms_error m) 4096)
  && forallb (λ h, is_ok (utf8_size h.2 512)) (ms_response_headers m)
  && BoundedSize (ms_latency_ms m).

Definition validate_response_shape (m : MinerSubmission) : result unit :=
  if negb (bool_decide (ms_response_body m = [])) then
    raise_if (negb (bool_decide (ms_error m = []))
              || negb (bool_decide ((list_to_set (map fst (ms_response_headers m)) : gset pystr)
                                    = list_to_set EPISTULA_HEADERS)))
      ValueError "signed response has an invalid envelope"
  else
    raise_if (bool_decide (ms_error m = []) || negb (bool_decide (ms_response_headers m = [])))
      ValueError "failed response has an invalid envelope".

Definition MinerSubmission_validate : MinerSubmission → result MinerSubmission :=
  model_validate MinerSubmission_fields validate_response_shape.

Definition commit_reject_duplicates (c : ChallengeCommitRequest) : result unit :=
  raise_if (has_duplicates (map ms_uid (c_submissions c))
            || has_duplicates (map ms_hotkey (c_submissions c)))
    ValueError "commit contains duplicate miner identities".

Definition ChallengeCommitRequest_fields (c : ChallengeCommitRequest) : bool :=
  exact_int 3 (c_protocol_version c) && BoundedIdentifier (c_challenge_id c)
  && (zlen (c_submissions c) <=? 1024)%Z
  && forallb (λ s, is_ok (MinerSubmission_validate s)) (c_submissions c).

Definition ChallengeCommitRequest_validate : ChallengeCommitRequest → result ChallengeCommitRequest :=
  model_validate ChallengeCommitRequest_fields commit_reject_duplicates.

(** [[*grants, *failures]] as identities. *)
Definition reveal_results (r : CommitRevealResponse) : list (Z * pystr) :=
  map (λ g, (g_uid g, g_hotkey g)) (v_submission_grants r)
  ++ map (λ f, (af_uid f, af_hotkey f)) (v_artifact_failures r).

Definition validate_results (r : CommitRevealResponse) : result unit :=
  raise_if (negb (bool_decide (ar_role (v_verifier r) = role_verifier))) ValueError
    "commit response must contain a verifier";;
  raise_if (1024 <? zlen (reveal_results r))%Z ValueError
    "commit response contains too many results";;
  raise_if (has_duplicates (map fst (reveal_results r)) || has_duplicates (map snd (reveal_results r)))
    ValueError "commit response contains duplicate miner identities".

Definition CommitRevealResponse_fields (r : CommitRevealResponse) : bool :=
  exact_int 3 (v_protocol_version r) && BoundedIdentifier (v_challenge_id r)
  && HexDigest (v_task_id r) && ArtifactRef_fields (v_verifier r)
  && bool_decide (v_verifier_policy r = command_gold_digest_v1) && BoundedURL (v_verifier_url r)
  && Timestamp (v_grading_expires_at r)
  && (zlen (v_submission_grants r) <=? 1024)%Z && forallb ArtifactGrant_fields (v_submission_grants r)
  && (zlen (v_artifact_failures r) <=? 1024)%Z
  && forallb ArtifactFailure_fields (v_artifact_failures r).

Definition CommitRevealResponse_validate : CommitRevealResponse → result CommitRevealResponse :=
  model_validate CommitRevealResponse_fields validate_results.

Definition validate_commit_reveal (lease : LeaseResponse) (request : ChallengeCommitRequest)
    (response : CommitRevealResponse) : result unit :=
  raise_if (negb (bool_decide (c_challenge_id request = l_challenge_id lease))
            || negb (bool_decide (v_challenge_id response = l_challenge_id lease)))
    ValueError "commit challenge binding mismatch";;
  raise_if (negb (bool_decide (v_task_id response = l_task_id lease))) ValueError
    "commit task binding mismatch";;
  raise_if (negb (bool_decide (ar_sha256 (v_verifier response) = ar_sha256 (l_verifier lease))))
    ValueError "commit verifier binding mismatch";;
  raise_if (negb (bool_decide (v_verifier_policy response = verifier_policy (l_identity lease))))
    ValueError "commit verifier policy mismatch";;
  let expected : gset (Z * pystr) :=
    list_to_set (map (λ m, (ms_uid m, ms_hotkey m)) (c_submissions request)) in
  let actual : gset (Z * pystr) := list_to_set (reveal_results response) in
  raise_if (negb (bool_decide (actual = expected))) ValueError
    "commit results do not match submitted miners".
End commits.

(** ** Feedback (api.py) *)

Definition FAILED_CHECK_MAX_BYTES : Z := 256 * 1024.
Definition FAILURE_NOTICE_MAX_BYTES : Z := 320 * 1024.
Definition TRACE_CHECK_MAX_BYTES : Z := 4 * 1024.
Definition FEEDBACK_LATENCY_MAX_MS : Z := 3600000.

(** [MinerReason | Literal["evaluation_failed", "passed"]] *)
Inductive ExplanationCode :=
  | code_reason (r : MinerReason) | code_evaluation_failed | code_passed.
#[export] Instance ExplanationCode_eq_dec : EqDecision ExplanationCode. Proof. solve_decision. Defined.

Record FailureExplanation := {
  fe_version : Z;
  fe_reason_code : ExplanationCode;
  fe_failed_check : option pystr
}.

Record MinerFailureNotice := {
  n_protocol_version : Z;
  n_challenge_id : pystr;
  n_task_id : pystr;
  n_uid : Z;
  n_hotkey : pystr;
  n_failure : FailureExplanation
}.

Inductive SubmissionStatus := status_passed | status_failed | status_rejected.
#[export] Instance SubmissionStatus_eq_dec : EqDecision SubmissionStatus. Proof. solve_decision. Defined.

Record TraceCheckRequest := {
  tc_protocol_version : Z;
  tc_challenge_id : pystr;
  tc_task_id : pystr;
  tc_uid : Z;
  tc_hotkey : pystr;
  tc_trajectory : MinerArtifactRef;
  tc_submission_status : SubmissionStatus
}.

Record FeedbackVerdict := {
  fv_uid : Z;
  fv_hotkey : pystr;
  fv_passed : bool;
  fv_grading_duration_ms : Z;
  fv_response_latency_ms : option Z;
  fv_reason_code : option MinerReason
}.

Record ChallengeFeedbackRequest := {
  cf_protocol_version : Z;
  cf_challenge_id : pystr;
  cf_task_id : pystr;
  cf_verdicts : list FeedbackVerdict
}.

Section feedback.
Context `{!UnicodeData, !Sha256}.

Definition bound_failed_check (value : option pystr) : result unit :=
  raise_if
    (match value with
     | None => false
     | Some v => bool_decide (v = []) || (FAILED_CHECK_MAX_BYTES <? zlen v)%Z
                 || (FAILED_CHECK_MAX_BYTES <? zlen (json_quote_ascii v))%Z
     end) ValueError "failed check exceeds its display limit".

Definition validate_failed_check_reason (f : FailureExplanation) : result unit :=
  raise_if (negb (bool_decide (fe_failed_check f = None))
            && negb (bool_decide (fe_reason_code f = code_reason CHECK_FAILED)))
    ValueError "only a failed comparison can include a check".

Definition FailureExplanation_fields (f : FailureExplanation) : bool :=
  exact_int 1 (fe_version f) && forallb wire_str (option_list (fe_failed_check f))
  && is_ok (bound_failed_check (fe_failed_check f)).

Definition FailureExplanation_validate : FailureExplanation → result FailureExplanation :=
  model_validate FailureExplanation_fields validate_failed_check_reason.

Definition MinerFailureNotice_fields (n : MinerFailureNotice) : bool :=
  exact_int 3 (n_protocol_version n) && BoundedIdentifier (n_challenge_id n)
  && HexDigest (n_task_id n) && UID (n_uid n) && BoundedIdentifier (n_hotkey n)
  && is_ok (FailureExplanation_validate (n_failure n)).

Definition validate_trajectory_role (t : TraceCheckRequest) : result unit :=
  raise_if (negb (bool_decide (m_role (tc_trajectory t) = role_trajectory))) ValueError
    "a trace check must reference a trajectory".

Definition TraceCheckRequest_fields (t : TraceCheckRequest) : bool :=
  exact_int 3 (tc_protocol_version t) && BoundedIdentifier (tc_challenge_id t)
  && HexDigest (tc_task_id t) && UID (tc_uid t) && BoundedIdentifier (tc_hotkey t)
  && is_ok (MinerArtifactRef_validate (tc_trajectory t)).

Definition TraceCheckRequest_validate : TraceCheckRequest → result TraceCheckRequest :=
  model_validate TraceCheckRequest_fields validate_trajectory_role.

Definition reason_only_when_not_passed (v : FeedbackVerdict) : result unit :=
  raise_if (fv_passed v && negb (bool_decide (fv_reason_code v = None))) ValueError
    "a passed verdict carries no reason code".

Definition FeedbackVerdict_fields (v : FeedbackVerdict) : bool :=
  UID (fv_uid v) && BoundedIdentifier (fv_hotkey v) && BoundedSize (fv_grading_duration_ms v)
  && match fv_response_latency_ms v with
     | Some n => ((0 <=? n) && (n <=? FEEDBACK_LATENCY_MAX_MS))%Z
     | None => true
     end.

Definition FeedbackVerdict_validate : FeedbackVerdict → result FeedbackVerdict :=
  model_validate FeedbackVerdict_fields reason_only_when_not_passed.

Definition feedback_reject_duplicates (f : ChallengeFeedbackRequest) : result unit :=
  raise_if (has_duplicates (map fv_uid (cf_verdicts f))
            || has_duplicates (map fv_hotkey (cf_verdicts f)))
    ValueError "feedback contains duplicate miner identities".

Definition ChallengeFeedbackRequest_fields (f : ChallengeFeedbackRequest) : bool :=
  exact_int 3 (cf_protocol_version f) && BoundedIdentifier (cf_challenge_id f)
  && HexDigest (cf_task_id f)
  && ((1 <=? zlen (cf_verdicts f)) && (zlen (cf_verdicts f) <=? 1024))%Z
  && forallb (λ v, is_ok (FeedbackVerdict_validate v)) (cf_verdicts f).

Definition ChallengeFeedbackRequest_validate
    : ChallengeFeedbackRequest → result ChallengeFeedbackRequest :=
  model_validate ChallengeFeedbackRequest_fields feedback_reject_duplicates.

(** *** Serialization *)

Section serialization.
Context (dump_commit : ChallengeCommitRequest → pystr) (dump_feedback : ChallengeFeedbackRequest → pystr)
  (dump_notice : MinerFailureNotice → pystr) (dump_trace : TraceCheckRequest → pystr).

Definition serialize_commit_request (request : ChallengeCommitRequest) : result bytes :=
  validated ← ChallengeCommitRequest_validate request;
  utf8_encode (dump_commit validated).

Definition serialize_feedback_request (request : ChallengeFeedbackRequest) : result bytes :=
  validated ← ChallengeFeedbackRequest_validate request;
  utf8_encode (dump_feedback validated).

Definition serialize_failure_notice (notice : MinerFailureNotice) : result bytes :=
  validated ← model_validate MinerFailureNotice_fields (λ _, Ok ()) notice;
  body ← utf8_encode (dump_notice validated);
  raise_if (FAILURE_NOTICE_MAX_BYTES <? zlen body)%Z ValueError
    "failure notice exceeds its byte limit";;
  mret body.

Definition serialize_trace_check_request (request : TraceCheckRequest) : result bytes :=
  validated ← TraceCheckRequest_validate request;
  body ← utf8_encode (dump_trace validated);
  raise_if (TRACE_CHECK_MAX_BYTES <? zlen body)%Z ValueError
    "trace check request exceeds its byte limit";;
  mret body.
End serialization.

Definition derive_miner_request_id (challenge_id : pystr) (uid : Z) (hotkey : pystr) : result pystr :=
  let material :=
    ustr "hone-v3-miner-request" ++ [0%N] ++ challenge_id ++ [0%N] ++ str_of_int uid ++ [0%N] ++ hotkey in
  raw ← utf8_encode material;
  mret (hexdigest (sha256 raw)).
End feedback.
