(* ===== verification/ApiSpec.v ===== *)
(** * Protocol records: what an accepted lease, reveal and response guarantee *)

From S2P Require Import Prelude PyFloat Text Json JsonSpec Canonical CanonicalSpec Wire Identity Api.

(** ** The slot pool *)

Section pool.
Context `{UD : !UnicodeData, SH : !Sha256}.
Implicit Types (pool : list MinerSlotSet) (seen : gset pystr).

Lemma add_upload_ids_Ok seen seen' (ids : list pystr) :
  add_upload_ids seen ids = Ok seen' ↔
  NoDup ids ∧ (∀ x, x ∈ ids → x ∉ seen) ∧ seen' = list_to_set ids ∪ seen.
Proof.
  revert seen. induction ids as [|x ids IH]; intros seen; cbn [add_upload_ids list_to_set].
  - split.
    + intros [= <-]. split_and!; [constructor|set_solver|set_solver].
    + intros (_ & _ & ->). f_equal. set_solver.
  - rewrite guard_Ok, bool_decide_eq_false, IH, NoDup_cons. split.
    + intros (Hx & Hnd & Hout & ->). split_and!; [|done| |set_solver].
      * intros Hin. apply (Hout x Hin). set_solver.
      * intros y [->|Hy]%elem_of_cons; [done|]. intros Hs. apply (Hout y Hy). set_solver.
    + intros ((Hx & Hnd) & Hout & ->). split_and!; [by apply Hout; left|done| |set_solver].
      intros y Hy [->%elem_of_singleton|Hs]%elem_of_union; [done|]. by apply (Hout y); [right|].
Qed.

(** A slot set bound to the lease. *)
Definition bound_slots (challenge task : pystr) (role : UploadRole) (slots : MinerSlotSet) : Prop :=
  s_challenge_id (submission slots) = challenge ∧ s_task_id (submission slots) = task
  ∧ s_role (submission slots) = role.

Definition pool_uids pool : list Z := map (λ s, s_uid (submission s)) pool.
Definition pool_hotkeys pool : list pystr := map (λ s, s_hotkey (submission s)) pool.
Definition pool_upload_ids pool : list pystr := concat (map slot_upload_ids pool).

Lemma check_pool_Ok (challenge task : pystr) (role : UploadRole) (uids : gset Z)
    (hks ups : gset pystr) pool :
  check_pool challenge task role uids hks ups pool = Ok () ↔
  Forall (bound_slots challenge task role) pool ∧
  NoDup (pool_uids pool) ∧ NoDup (pool_hotkeys pool) ∧ NoDup (pool_upload_ids pool) ∧
  (∀ u, u ∈ pool_uids pool → u ∉ uids) ∧ (∀ h, h ∈ pool_hotkeys pool → h ∉ hks) ∧
  (∀ x, x ∈ pool_upload_ids pool → x ∉ ups).
Proof.
  revert uids hks ups. induction pool as [|s pool IH]; intros uids hks ups; cbn [check_pool].
  { split; [|done]. intros _. split_and!; try constructor; by intros ? ?%not_elem_of_nil. }
  rewrite !guard_Ok. setoid_rewrite bind_Ok. setoid_rewrite add_upload_ids_Ok. setoid_rewrite IH.
  unfold pool_uids, pool_hotkeys, pool_upload_ids. cbn [map concat].
  rewrite Forall_cons, !NoDup_cons, NoDup_app. setoid_rewrite elem_of_app.
  setoid_rewrite elem_of_cons.
  rewrite !orb_false_iff, !negb_false_iff, !bool_decide_eq_true, !bool_decide_eq_false.
  fold (pool_uids pool) (pool_hotkeys pool) (pool_upload_ids pool). unfold bound_slots. split.
  - intros ((Hc & Ht) & Hr & (Hu & Hh) & seen & (Hnd & Hout & ->) & Hall & H1 & H2 & H3 & H4 & H5 & H6).
    split_and!; try done.
    + intros Hin. apply (H4 _ Hin). set_solver.
    + intros Hin. apply (H5 _ Hin). set_solver.
    + intros x Hx Hin. apply (H6 _ Hin). set_solver.
    + intros u [->|Hin]; [done|]. intros Hs. apply (H4 _ Hin). set_solver.
    + intros h [->|Hin]; [done|]. intros Hs. apply (H5 _ Hin). set_solver.
    + intros x [Hin|Hin]; [by apply Hout|]. intros Hs. apply (H6 _ Hin). set_solver.
  - intros (((Hc & Ht & Hr) & Hall) & (Hnu & H1) & (Hnh & H2) & (Hnd & Hdisj & H3) & H4 & H5 & H6).
    split_and!; [done|done|done|by apply H4; left|by apply H5; left|].
    exists (list_to_set (slot_upload_ids s) ∪ ups). split_and!; try done.
    + intros x Hx. apply H6. by left.
    + intros u Hin [->%elem_of_singleton|Hs]%elem_of_union; [done|]. by apply (H4 u); [right|].
    + intros h Hin [->%elem_of_singleton|Hs]%elem_of_union; [done|]. by apply (H5 h); [right|].
    + intros x Hin [Hx%elem_of_list_to_set|Hs]%elem_of_union; [by apply (Hdisj x); [apply elem_of_cons|]|].
      by apply (H6 x); [right|].
Qed.
End pool.

(** C28 (safety): in an accepted lease the task id is the identity's, the workspace
    and the verifier are the ones the identity pins, every slot is bound to the
    lease's challenge, task and submission kind, no UID, hotkey or upload id occurs
    twice in the whole pool, and the quorum can be met by the pool. *)
Theorem lease_accepted `{UD : !UnicodeData, SH : !Sha256} (l l' : LeaseResponse) :
  LeaseResponse_validate l = Ok l' →
  l' = l ∧ compute_task_id (l_identity l) = Ok (l_task_id l) ∧
  ar_sha256 (l_workspace l) = workspace_digest (l_identity l) ∧
  ar_sha256 (l_verifier l) = verifier_digest (l_identity l) ∧
  Forall (bound_slots (l_challenge_id l) (l_task_id l) (expected_submission (l_identity l)))
    (l_slot_pool l) ∧
  NoDup (pool_uids (l_slot_pool l)) ∧ NoDup (pool_hotkeys (l_slot_pool l)) ∧
  NoDup (pool_upload_ids (l_slot_pool l)) ∧
  (0 < l_commit_min l <= zlen (l_slot_pool l))%Z ∧ (l_issued_at l < l_expires_at l)%Z.
Proof.
  intros (Hf & Hb & ->)%model_validate_Ok. unfold validate_bindings in Hb.
  apply bind_Ok in Hb as (id & Hid & Hb). rewrite !guard_Ok in Hb.
  destruct Hb as (Ht & Hw & Hv & Hexp & Hq & Hpool).
  apply check_pool_Ok in Hpool as (Hall & H1 & H2 & H3 & _).
  rewrite ?orb_false_iff, ?negb_false_iff, ?bool_decide_eq_true in *.
  destruct Hw as [Hw1 Hw2], Hv as [Hv1 Hv2]. apply Z.leb_gt in Hexp. apply Z.ltb_ge in Hq.
  unfold LeaseResponse_fields in Hf. repeat (apply andb_true_iff in Hf as [Hf ?]).
  bool_simpl. split_and!; try done; try lia. congruence.
Qed.

(** ** Commit and reveal *)

Lemma NoDup_fst {A B} (l : list (A * B)) : NoDup (map fst l) → NoDup l.
Proof. apply NoDup_fmap_1. Qed.

(** C14 (safety, exactly one outcome): when the reveal of a commit is accepted, the
    grants and the failures together list every submitted miner exactly once and
    nobody else: the server can neither drop a miner nor grade one twice. *)
Theorem reveal_accounts_for_everyone `{UD : !UnicodeData} (lease : LeaseResponse)
    (request request' : ChallengeCommitRequest) (response response' : CommitRevealResponse) :
  ChallengeCommitRequest_validate request = Ok request' →
  CommitRevealResponse_validate response = Ok response' →
  validate_commit_reveal lease request response = Ok () →
  reveal_results response ≡ₚ map (λ m, (ms_uid m, ms_hotkey m)) (c_submissions request) ∧
  ar_sha256 (v_verifier response) = ar_sha256 (l_verifier lease).
Proof.
  intros (_ & Hreq & ->)%model_validate_Ok (_ & Hres & ->)%model_validate_Ok Hcr.
  unfold commit_reject_duplicates in Hreq. unfold validate_results in Hres.
  apply raise_if_Ok, orb_false_iff in Hreq as [Hu%has_duplicates_false _].
  rewrite !guard_Ok in Hres. destruct Hres as (_ & _ & Hres).
  apply raise_if_Ok, orb_false_iff in Hres as [Hv%has_duplicates_false _].
  unfold validate_commit_reveal in Hcr. rewrite !guard_Ok in Hcr.
  destruct Hcr as (_ & _ & Hver & _ & Hset). apply raise_if_Ok in Hset.
  rewrite !negb_false_iff, !bool_decide_eq_true in *. split; [|done].
  apply NoDup_Permutation.
  - by apply NoDup_fst.
  - apply NoDup_fst. by rewrite map_map.
  - intros x. rewrite <-!(elem_of_list_to_set (C := gset (Z * pystr))). by rewrite Hset.
Qed.

(** (safety): an accepted miner response answers its own task, and each of its
    two artifacts fills the slot issued for it: same upload id, role and format,
    and a size within the slot's limit. *)
Theorem miner_response_accepted (task : MinerTaskRequest) (response : MinerTaskResponse) :
  validate_miner_response task response = Ok () ↔
  p_challenge_id response = t_challenge_id task ∧ p_task_id response = t_task_id task ∧
  p_response_type response = task_type (t_identity task) ∧
  Forall (λ p : MinerArtifactRef * UploadSlot,
      m_upload_id p.1 = s_upload_id p.2 ∧ m_role p.1 = s_role p.2 ∧
      m_format p.1 = s_format p.2 ∧ (m_size_bytes p.1 <= s_max_bytes p.2)%Z)
    [(p_submission response, submission (t_slots task));
     (p_trajectory response, trajectory (t_slots task))].
Proof.
  unfold validate_miner_response, slot_mismatch_of. rewrite !guard_Ok, for_each_Ok.
  rewrite !Forall_cons, !Forall_nil. cbn [fst snd]. rewrite !raise_if_Ok.
  rewrite !orb_false_iff, !negb_false_iff, !bool_decide_eq_true, !Z.ltb_ge. tauto.
Qed.

(** ** Request ids *)

(** (safety): the request id of a dispatch binds the challenge, the UID and
    the hotkey: where SHA-256 does not collide, and challenge ids have no NUL
    character, the same id is derived only for the same triple. *)
Theorem request_id_binds `{SH : !Sha256} (c1 c2 h1 h2 : pystr) (u1 u2 : Z) (id : pystr) :
  (∀ x y, sha256 x = sha256 y → x = y) → 0%N ∉ c1 → 0%N ∉ c2 →
  derive_miner_request_id c1 u1 h1 = Ok id → derive_miner_request_id c2 u2 h2 = Ok id →
  c1 = c2 ∧ u1 = u2 ∧ h1 = h2.
Proof.
  intros Hsha H1 H2. unfold derive_miner_request_id.
  intros (r1 & Hr1 & [= <-])%bind_Ok (r2 & Hr2 & [= Hid])%bind_Ok.
  apply hexdigest_inj, Hsha in Hid as ->.
  pose proof (utf8_encode_inj _ _ _ Hr1 Hr2) as Heq.
  apply app_inv_head in Heq. injection Heq as Heq. cbn [app] in Heq.
  apply app_sep_inj in Heq as [-> Heq]; [|done|done].
  apply app_sep_inj in Heq as [Hu ->]; [|by apply str_of_int_chars..].
  split_and!; [done|by apply str_of_int_inj|done].
Qed.

(** ** Witnesses *)

(** A hash with 32 byte digests. *)
Definition sha_const : Sha256 := {| sha256 := λ _, replicate 32%nat (ascii_of_N 0) |}.

Definition sample_lease_id : pystr := replicate 64%nat 48%N.

Definition sample_slot (u : Z) (h : string) (role : UploadRole) (up : string) : UploadSlot :=
  {| s_challenge_id := ustr "c1"; s_task_id := sample_lease_id; s_uid := u; s_hotkey := ustr h;
     s_role := role; s_format := upload_format role; s_upload_id := ustr up;
     s_upload_url := ustr "https://u"; s_expires_at := 20; s_max_bytes := 100 |}.

Definition sample_slots (u : Z) (h a b : string) : MinerSlotSet :=
  {| submission := sample_slot u h role_script a; trajectory := sample_slot u h role_trajectory b |}.

Definition sample_lease : LeaseResponse :=
  {| l_protocol_version := 3; l_challenge_id := ustr "c1"; l_task_id := sample_lease_id;
     l_identity := sample_identity;
     l_workspace := {| ar_role := role_terminal_environment; ar_sha256 := replicate 64%nat 48%N;
                       ar_compressed_size := 1; ar_expanded_size := 1 |};
     l_workspace_url := ustr "https://w";
     l_verifier := {| ar_role := role_verifier; ar_sha256 := replicate 64%nat 49%N;
                      ar_compressed_size := 1; ar_expanded_size := 1 |};
     l_issued_at := 10; l_expires_at := 20;
     l_slot_pool := [sample_slots 1 "a" "x1" "x2"; sample_slots 2 "b" "x3" "x4"];
     l_commit_min := 2 |}.

Lemma lease_accepted_witness : NoDup (pool_upload_ids (l_slot_pool sample_lease)).
Proof.
  apply (lease_accepted (UD := ascii_unicode) (SH := sha_const) sample_lease sample_lease).
  vm_compute. reflexivity.
Defined.

Definition sample_commit : ChallengeCommitRequest :=
  {| c_protocol_version := 3; c_challenge_id := ustr "c1";
     c_submissions :=
       [{| ms_uid := 1; ms_hotkey := ustr "a"; ms_request_id := ustr "r"; ms_response_body := [];
           ms_response_headers := []; ms_error := ustr "no answer"; ms_latency_ms := 5 |}] |}.

Definition sample_reveal : CommitRevealResponse :=
  {| v_protocol_version := 3; v_challenge_id := ustr "c1"; v_task_id := sample_lease_id;
     v_verifier := l_verifier sample_lease; v_verifier_policy := command_gold_digest_v1;
     v_verifier_url := ustr "https://v"; v_grading_expires_at := 30; v_submission_grants := [];
     v_artifact_failures :=
       [{| af_uid := 1; af_hotkey := ustr "a"; af_reason := artifact_invalid |}] |}.

Definition sample_lease_gold : LeaseResponse :=
  {| l_protocol_version := 3; l_challenge_id := ustr "c1"; l_task_id := sample_lease_id;
     l_identity := match sample_identity with
       | TerminalTask t => TerminalTask
           {| t_instruction := t_instruction t; t_environment_sha256 := t_environment_sha256 t;
              t_verifier_sha256 := t_verifier_sha256 t;
              t_execution_profile_id := t_execution_profile_id t;
              t_result_tree_path := t_result_tree_path t;
              t_verifier_policy := command_gold_digest_v1;
              t_authoring_version := t_authoring_version t |}
       | i => i
       end;
     l_workspace := l_workspace sample_lease; l_workspace_url := ustr "https://w";
     l_verifier := l_verifier sample_lease; l_issued_at := 10; l_expires_at := 20;
     l_slot_pool := l_slot_pool sample_lease; l_commit_min := 2 |}.

Lemma reveal_accounts_for_everyone_witness :
  reveal_results sample_reveal ≡ₚ [(1%Z, ustr "a")].
Proof.
  apply (reveal_accounts_for_everyone (UD := ascii_unicode) sample_lease_gold sample_commit
    sample_commit sample_reveal sample_reveal); vm_compute; reflexivity.
Defined.

Definition sample_request_id : pystr :=
  default [] (result_to_option (derive_miner_request_id (H0 := sha_id) (ustr "c1") 7 (ustr "h"))).

Lemma request_id_binds_witness :
  ustr "c1" = ustr "c1" ∧ 7%Z = 7%Z ∧ ustr "h" = ustr "h".
Proof.
  apply (request_id_binds (SH := sha_id) (ustr "c1") (ustr "c1") (ustr "h") (ustr "h") 7 7
    sample_request_id);
    [intros x y Hxy; exact Hxy|apply (bool_decide_unpack _); vm_compute; done..| |];
    vm_compute; reflexivity.
Defined.
