(* ===== verification/Codecs.v ===== *)
(** * Lenient codecs and number parsing of the standard library

    [bytes.decode("utf-8", errors)], [str.encode("utf-8", "replace")],
    [bytes.decode("ascii", "replace")], and [int] of a string. *)

From Stdlib Require Import Decimal DecimalN DecimalFacts.
From S2P Require Import Prelude PyFloat Text.

Local Open Scope N_scope.

Definition in_range (lo hi c : N) : bool := (lo <=? c) && (c <=? hi).

(** The second byte a lead byte allows. *)
Definition second_ok (x y : N) : bool :=
  if x =? 224 then in_range 160 191 y
  else if x =? 237 then in_range 128 159 y
  else if x =? 240 then in_range 144 191 y
  else if x =? 244 then in_range 128 143 y
  else is_cont y.

(** Decoding that puts [bad] for every maximal ill-formed part: U+FFFD for
    ["replace"], nothing for ["ignore"]. *)
Fixpoint utf8_decode_lenient (bad : pystr) (bs : list N) : pystr :=
  match bs with
  | [] => []
  | x :: r =>
      if x <? 128 then x :: utf8_decode_lenient bad r
      else if in_range 194 223 x then
        match r with
        | y :: r1 =>
            if is_cont y then cp2 x y :: utf8_decode_lenient bad r1
            else bad ++ utf8_decode_lenient bad r
        | [] => bad
        end
      else if in_range 224 239 x then
        match r with
        | y :: r1 =>
            if negb (second_ok x y) then bad ++ utf8_decode_lenient bad r
            else match r1 with
                 | z :: r2 =>
                     if is_cont z then cp3 x y z :: utf8_decode_lenient bad r2
                     else bad ++ utf8_decode_lenient bad r1
                 | [] => bad
                 end
        | [] => bad
        end
      else if in_range 240 244 x then
        match r with
        | y :: r1 =>
            if negb (second_ok x y) then bad ++ utf8_decode_lenient bad r
            else match r1 with
                 | z :: r2 =>
                     if negb (is_cont z) then bad ++ utf8_decode_lenient bad r1
                     else match r2 with
                          | w :: r3 =>
                              if is_cont w then cp4 x y z w :: utf8_decode_lenient bad r3
                              else bad ++ utf8_decode_lenient bad r2
                          | [] => bad
                          end
                 | [] => bad
                 end
        | [] => bad
        end
      else bad ++ utf8_decode_lenient bad r
  end.

Definition REPLACEMENT : N := 0xFFFD.

(** [bs.decode("utf-8", "replace")] and [bs.decode("utf-8", "ignore")] *)
Definition decode_replace (bs : bytes) : pystr := utf8_decode_lenient [REPLACEMENT] (map N_of_ascii bs).
Definition decode_ignore (bs : bytes) : pystr := utf8_decode_lenient [] (map N_of_ascii bs).

(** [s.encode("utf-8", "replace")]: a lone surrogate is written ["?"]. *)
Definition encode_replace (s : pystr) : bytes :=
  map ascii_of_N (utf8_bytes (map (λ c, if scalar c then c else 63) s)).

(** [bs.decode("ascii", "replace")] *)
Definition ascii_decode_replace (bs : bytes) : pystr :=
  map (λ b, let c := N_of_ascii b in if c <? 128 then c else REPLACEMENT) bs.

(** ** [int(s)] *)

Definition digits_value (ds : pystr) : Z :=
  fold_left (λ acc d, (acc * 10 + Z.of_N (d - 48))%Z) ds 0%Z.

Definition digit_groups (s : pystr) : option Z :=
  let groups := split_on 95 s in
  if forallb (λ g, negb (bool_decide (g = [])) && forallb is_digit g) groups
  then Some (digits_value (concat groups)) else None.

(** [Py_ISSPACE] *)
Definition c_isspace (c : N) : bool := (9 <=? c) && (c <=? 13) || (c =? 32).

(** [int(s)] for an ASCII string: digits, an optional sign, single underscores between
    digits and surrounding whitespace. *)
Definition py_int (s : pystr) : option Z :=
  match strip c_isspace s with
  | c :: r =>
      if c =? 45 then Z.opp <$> digit_groups r
      else if c =? 43 then digit_groups r
      else digit_groups (c :: r)
  | [] => None
  end.

(** [int(s)] of ASCII digits: CPython refuses more than 4300 of them. *)
Definition int_of_digits (s : pystr) : result Z :=
  if (4300 <? zlen s)%Z then
    Raise (Exn ValueError (ustr "Exceeds the limit (4300 digits) for integer string conversion: value has "
      ++ str_of_int (zlen s) ++ ustr " digits; use sys.set_int_max_str_digits() to increase the limit"))
  else Ok (digits_value s).

(** [unicodedata.decimal] *)
Class UnicodeDigits := { py_decimal : N → option N }.

(** [int(s)] for any string: CPython first maps a string that is not ASCII to ASCII
    digits and spaces. *)
Definition int_text `{!UnicodeDigits} (s : pystr) : result Z :=
  let to_ascii c :=
    if c <? 127 then c else if py_isspace c then 32
    else match py_decimal c with Some d => 48 + d | None => 63 end in
  let t := if forallb (λ c, c <? 128) s then s else map to_ascii s in
  if (4300 <? zlen (filter (λ c, is_digit c = true) t))%Z then raise ValueError "too many digits"
  else match py_int t with
       | Some z => Ok z
       | None => raise ValueError "invalid literal for int()"
       end.

Example decode_replace_ex :
  decode_replace (map ascii_of_N [97; 195; 40; 226; 130; 172; 240; 159; 255])
  = [97; 0xFFFD; 40; 0x20AC; 0xFFFD; 0xFFFD].
Proof. reflexivity. Qed.

Example py_int_ex : py_int (ustr " -1_20 ") = Some (-120)%Z ∧ py_int (ustr "1__2") = None.
Proof. split; reflexivity. Qed.

(** ** [int] of [str] *)

Lemma fold_digits_pos (d : Decimal.uint) (acc : positive) :
  fold_left (λ a c, a * 10 + Z.of_N (c - 48)%N)%Z (uint_chars d) (Z.pos acc) = Z.pos (Pos.of_uint_acc d acc).
Proof.
  revert acc. induction d as [|d IH|d IH|d IH|d IH|d IH|d IH|d IH|d IH|d IH|d IH]; intros acc;
    cbn [uint_chars fold_left Pos.of_uint_acc]; [done|..]; rewrite <-IH; f_equal; lia.
Qed.

Lemma digits_value_uint (d : Decimal.uint) : digits_value (uint_chars d) = Z.of_N (N.of_uint d).
Proof.
  unfold digits_value, N.of_uint.
  induction d as [|d IH|d _|d _|d _|d _|d _|d _|d _|d _|d _]; cbn [uint_chars fold_left Pos.of_uint];
    [done|exact IH|..]; cbn [Z.of_N]; by rewrite <-fold_digits_pos.
Qed.

Lemma uint_chars_digits (d : Decimal.uint) : forallb is_digit (uint_chars d) = true.
Proof. by induction d. Qed.

Lemma strip_none (p : N → bool) (s : pystr) : forallb (λ c, negb (p c)) s = true → strip p s = s.
Proof.
  assert (Hdrop : ∀ l, forallb (λ c, negb (p c)) l = true → drop_while p l = l).
  { intros [|c l]; [done|]. simpl. intros [Hc%negb_true_iff _]%andb_true_iff. by rewrite Hc. }
  intros Hs. unfold strip. rewrite (Hdrop s) by done. rewrite Hdrop; [apply rev_involutive|].
  rewrite forallb_forall in *. intros c Hc. apply Hs. by apply in_rev.
Qed.

Lemma py_int_digits (s : pystr) :
  s ≠ [] → forallb is_digit s = true → py_int s = Some (digits_value s).
Proof.
  intros Hne Hd. unfold py_int.
  rewrite strip_none.
  2:{ rewrite forallb_forall in *. intros c Hc%Hd. unfold is_digit in Hc. unfold c_isspace.
      rewrite andb_true_iff, !N.leb_le in Hc.
      rewrite negb_true_iff, !orb_false_iff, !andb_false_iff, !N.leb_gt, !N.eqb_neq. lia. }
  assert (Hg : digit_groups s = Some (digits_value s)).
  { unfold digit_groups. assert (Hsp : split_on 95%N s = [s]).
    { clear -Hd. induction s as [|c s IH]; [done|]. simpl in Hd. apply andb_true_iff in Hd as [Hc Hd].
      simpl. rewrite IH by done. rewrite bool_decide_eq_false_2; [done|]. by intros ->. }
    rewrite Hsp. cbn [forallb concat]. by rewrite bool_decide_eq_false_2, Hd, app_nil_r by done. }
  destruct s as [|c r] eqn:Hsr; [done|]. simpl in Hd. apply andb_true_iff in Hd as [Hc _].
  unfold is_digit in Hc. rewrite andb_true_iff, !N.leb_le in Hc.
  rewrite (proj2 (N.eqb_neq c 45)), (proj2 (N.eqb_neq c 43)) by lia. done.
Qed.

Lemma str_of_int_digits (z : Z) :
  (0 <= z)%Z → str_of_int z ≠ [] ∧ forallb is_digit (str_of_int z) = true ∧ digits_value (str_of_int z) = z.
Proof.
  intros Hz. assert (str_of_int z = uint_chars (N.to_uint (Z.to_N z))) as -> by (by destruct z).
  split_and!; [|apply uint_chars_digits|].
  - destruct (uint_head (Z.to_N z)) as (c & r & -> & _). done.
  - rewrite digits_value_uint, of_uint_to_uint. lia.
Qed.

Lemma py_int_str (z : Z) : (0 <= z)%Z → py_int (str_of_int z) = Some z.
Proof. intros (Hne & Hd & Hv)%str_of_int_digits. by rewrite py_int_digits, Hv. Qed.

(** A number below [2 ^ n] has at most [n] digits. *)
Lemma double_digits (d : Decimal.uint) :
  (Decimal.nb_digits (Decimal.Little.double d) ≤ S (Decimal.nb_digits d))%nat
  ∧ (Decimal.nb_digits (Decimal.Little.succ_double d) ≤ S (Decimal.nb_digits d))%nat.
Proof. induction d; simpl; lia. Qed.

Lemma to_little_uint_digits (p : positive) :
  (Decimal.nb_digits (Pos.to_little_uint p) ≤ Pos.size_nat p)%nat.
Proof.
  induction p as [p IH|p IH|]; cbn [Pos.to_little_uint Pos.size_nat]; [| |done].
  - pose proof (double_digits (Pos.to_little_uint p)). lia.
  - pose proof (double_digits (Pos.to_little_uint p)). lia.
Qed.


Lemma str_of_int_length (n : nat) (z : Z) :
  (0 <= z < 2 ^ Z.of_nat n)%Z → (1 ≤ n)%nat → (length (str_of_int z) ≤ n)%nat.
Proof.
  intros [Hz Hlt] Hn. destruct z as [|p|p]; [done| |lia]. cbn [str_of_int Z.to_N N.to_uint].
  rewrite length_uint_chars. unfold Pos.to_uint. rewrite DecimalFacts.nb_digits_rev.
  etransitivity; [apply to_little_uint_digits|].
  assert (Hs : (2 ^ (Z.of_nat (Pos.size_nat p) - 1) <= Z.pos p)%Z).
  { clear. induction p as [p IH|p IH|]; cbn [Pos.size_nat]; [..|done];
      rewrite Nat2Z.inj_succ; replace (Z.succ (Z.of_nat (Pos.size_nat p)) - 1)%Z
        with (Z.succ (Z.of_nat (Pos.size_nat p) - 1)) by lia;
      (rewrite Z.pow_succ_r; [lia|]); destruct p; simpl; lia. }
  assert (Hlt' : (Z.of_nat (Pos.size_nat p) - 1 < Z.of_nat n)%Z).
  { apply (Z.pow_lt_mono_r_iff 2); [lia..|]. lia. }
  lia.
Qed.

(** [int(str(z))], for a number of at most 4300 binary digits. *)
Lemma int_text_str `{UD : !UnicodeDigits} (z : Z) :
  (0 <= z < 2 ^ 4300)%Z → int_text (str_of_int z) = Ok z.
Proof.
  intros Hz. unfold int_text. pose proof (str_of_int_length 4300 z) as Hlen.
  assert (Hd : forallb is_digit (str_of_int z) = true).
  { destruct z; [done|apply uint_chars_digits|lia]. }
  assert (Ha : forallb (λ c, c <? 128) (str_of_int z) = true).
  { rewrite forallb_forall in *. intros c Hc%Hd. unfold is_digit in Hc.
    rewrite andb_true_iff, !N.leb_le in Hc. apply N.ltb_lt. lia. }
  rewrite Ha, py_int_str by lia.
  rewrite (proj2 (Z.ltb_ge _ _)); [done|]. unfold zlen. pose proof (length_filter (λ c, is_digit c = true) (str_of_int z)).
  specialize (Hlen Hz). lia.
Qed.
