(* ===== verification/FileSystem.v ===== *)
(** * A directory tree, and the inspection of an untrusted one
    ([src/rlvr/v3/tree.py], the path checks of [grading.py]).

    A tree is a value of [node].  [lstat] sees its constructor; what is behind a
    symbolic link is not modelled, only whether [os.walk] lists the link among the
    directories.  The inspection walks the tree the way [os.walk] does, top down
    with sorted names; a failing system call, which the source turns into a
    [TreeError], is not part of the model. *)

From S2P Require Import Prelude PyFloat Text Json Canonical Identity.

Inductive node :=
  | NFile (mode nlink : Z) (content : bytes)
  | NDir (mode : Z) (children : list (pystr * node))
  | NLink (to_dir : bool)
  | NOther.

Abbreviation fspath := (list pystr).

Section node_ind.
Context (P : node → Prop).
Context (HFile : ∀ m k c, P (NFile m k c))
  (HDir : ∀ m ch, Forall (λ nc, P nc.2) ch → P (NDir m ch))
  (HLink : ∀ b, P (NLink b)) (HOther : P NOther).

Fixpoint node_nested_ind (n : node) : P n :=
  match n with
  | NFile m k c => HFile m k c
  | NDir m ch =>
      HDir m ch ((fix go (l : list (pystr * node)) : Forall (λ nc, P nc.2) l :=
        match l with
        | [] => Forall_nil_2 _
        | nc :: l' => Forall_cons_2 _ nc _ (node_nested_ind nc.2) (go l')
        end) ch)
  | NLink b => HLink b
  | NOther => HOther
  end.
End node_ind.

(** [lstat] of a name in a directory. *)
Definition child (name : pystr) (children : list (pystr * node)) : option node :=
  snd <$> find (λ nc, bool_decide (nc.1 = name)) children.

Fixpoint fs_lookup (n : node) (path : fspath) : option node :=
  match path with
  | [] => Some n
  | name :: path' =>
      match n with
      | NDir _ children => child name children ≫= λ c, fs_lookup c path'
      | _ => None
      end
  end.

Definition is_dir (n : node) : bool := match n with NDir _ _ => true | _ => false end.

(** A regular file with one link. *)
Definition is_plain_file (n : node) : bool :=
  match n with NFile _ nlink _ => (nlink =? 1)%Z | _ => false end.

Definition st_size (n : node) : Z := match n with NFile _ _ c => zlen c | _ => 0 end.

(** The lists [directories] and [files] of [os.walk]. *)
Definition walk_dir (n : node) : bool :=
  match n with NDir _ _ => true | NLink to_dir => to_dir | _ => false end.

Section tree.
Context `{!UnicodeData}.

(** ** The walk *)

Definition name_le {A} (p q : pystr * A) : bool := str_le p.1 q.1.

(** Every entry below [n] in the order of the walk, with its relative path: the
    sorted directories and then the sorted files of a directory, then the entries
    of each of its real directories. *)
Fixpoint walk (n : node) (rel : fspath) : list (fspath * node) :=
  match n with
  | NDir _ children =>
      let below := map (λ '(name, c), (name, (c, walk c))) children in
      let directories := sort_by name_le (filter (λ e, walk_dir e.2.1 = true) below) in
      let files := sort_by name_le (filter (λ e, walk_dir e.2.1 = false) below) in
      map (λ e, (rel ++ [e.1], e.2.1)) (directories ++ files)
      ++ concat (map (λ e, e.2.2 (rel ++ [e.1])) (filter (λ e, is_dir e.2.1 = true) directories))
  | _ => []
  end.

Record TreeLimits := {
  max_entries : Z;
  max_tree_file_bytes : Z;
  max_total_file_bytes : Z;
  max_path_bytes : Z
}.

Definition check_tree_limits (l : TreeLimits) : result unit :=
  raise_if (existsb (λ v, v <=? 0)%Z
      [max_entries l; max_tree_file_bytes l; max_total_file_bytes l; max_path_bytes l])
    ValueError "tree limits must be positive integers".

Record TreeReport := { entries : list pystr; file_bytes : Z }.

Definition as_posix (rel : fspath) : pystr := join [slash] rel.

Definition over (limits : option TreeLimits) (limit : TreeLimits → Z) (v : Z) : bool :=
  match limits with Some l => (limit l <? v)%Z | None => false end.

Definition dot_git : pystr := ustr ".git".

(** One turn of the loop over the entries: the number of entries and the bytes
    inspected so far. *)
Definition inspect_entry (limits : option TreeLimits) (st : Z * Z) (e : fspath * node)
    : result (Z * Z) :=
  let relative := as_posix e.1 in
  let '(count, total) := st in
  catch (validate_relative_path relative) is_value_error
    (λ _, raise TreeError "result tree contains an unsafe path");;
  raise_if (bool_decide (dot_git ∈ split_on slash relative)) TreeError
    "result tree contains .git metadata";;
  (match limits with
   | Some l =>
       raw ← utf8_encode relative;
       raise_if (max_path_bytes l <? zlen raw)%Z TreeError
         "result tree path exceeds the policy limit"
   | None => Ok ()
   end);;
  raise_if (negb (is_dir e.2) && negb (is_plain_file e.2)) TreeError
    "result tree contains an unsafe entry";;
  let count := (count + 1)%Z in
  raise_if (over limits max_entries count) TreeError "result tree contains too many entries";;
  if is_dir e.2 then mret (count, total)
  else
    raise_if (over limits max_tree_file_bytes (st_size e.2)) TreeError
      "result tree file exceeds the policy limit";;
    let total := (total + st_size e.2)%Z in
    raise_if (over limits max_total_file_bytes total) TreeError
      "result tree exceeds the total byte limit";;
    mret (count, total).

Fixpoint inspect_loop (limits : option TreeLimits) (st : Z * Z) (es : list (fspath * node))
    : result (Z * Z) :=
  match es with
  | [] => Ok st
  | e :: es' => st' ← inspect_entry limits st e; inspect_loop limits st' es'
  end.

Definition IXUSR : Z := 64.

(** The second loop: 0o755 for the root, the directories and the executables, 0o644
    for the other files. *)
Fixpoint normalize_modes (n : node) : node :=
  match n with
  | NDir _ children => NDir 493 (map (λ '(name, c), (name, normalize_modes c)) children)
  | NFile mode nlink content =>
      NFile (if negb (Z.land mode IXUSR =? 0)%Z then 493 else 420) nlink content
  | n => n
  end.

Definition inspect_tree (root : node) (limits : option TreeLimits) (normalize : bool)
    : result (TreeReport * node) :=
  raise_if (negb (is_dir root)) TreeError "result tree root is not a directory";;
  let inspected := walk root [] in
  '(count, total) ← inspect_loop limits (0, 0)%Z inspected;
  mret ({| entries := sort_by str_le (map (λ e, as_posix e.1) inspected); file_bytes := total |},
        if normalize then normalize_modes root else root).
End tree.

(** ** Directories and files named by a task *)

Definition segments_of (relative : pystr) : fspath :=
  if bool_decide (relative = dot) then [] else split_on slash relative.

(** [_task_directory]: every component on the way is a directory, not a link. *)
Definition task_directory (root : node) (relative : pystr) : option fspath :=
  let segments := segments_of relative in
  match fs_lookup root segments with
  | Some (NDir _ _) => Some segments
  | _ => None
  end.

(** Replace the node at a path. *)
Fixpoint fs_update (n : node) (path : fspath) (f : node → node) : node :=
  match path with
  | [] => f n
  | name :: path' =>
      match n with
      | NDir mode children =>
          NDir mode (map (λ nc, if bool_decide (nc.1 = name)
                                then (nc.1, fs_update nc.2 path' f) else nc) children)
      | n => n
      end
  end.

Definition inspect_result_tree `{!UnicodeData} (workspace : node) (result_tree : fspath)
    (limits : TreeLimits) : result node :=
  match fs_lookup workspace result_tree with
  | Some ((NDir _ _) as tree) =>
      '(_, tree') ← inspect_tree tree (Some limits) true;
      mret (fs_update workspace result_tree (λ _, tree'))
  | _ => raise TreeError "result tree path is unavailable or unsafe"
  end.

(** ** Lemmas *)

Section walk_lemmas.
Context `{UD : !UnicodeData}.
Implicit Types (n m : node) (rel p : fspath) (limits : option TreeLimits).

Lemma child_elem (name : pystr) (children : list (pystr * node)) n :
  child name children = Some n → (name, n) ∈ children.
Proof.
  unfold child. intros ([k c] & Hf & ->)%fmap_Some.
  apply find_some in Hf as [Hin Hk]. apply bool_decide_eq_true in Hk. simpl in *. subst.
  by apply list_elem_of_In.
Qed.

(** The walk visits every node below the root. *)
Lemma walk_complete n rel p m :
  p ≠ [] → fs_lookup n p = Some m → (rel ++ p, m) ∈ walk n rel.
Proof.
  revert rel p m. induction n as [fm fk fc|mode ch IH|fb|] using node_nested_ind; intros rel p m Hp Hl;
    (destruct p as [|name p]; [done|]); simpl in Hl; try done.
  apply bind_Some in Hl as (c & Hc & Hl). apply child_elem in Hc.
  assert (Hbelow : (name, (c, walk c)) ∈ map (λ '(name, c), (name, (c, walk c))) ch).
  { apply list_elem_of_fmap. by exists (name, c). }
  cbn [walk]. destruct (decide (p = [])) as [->|Hne].
  - simpl in Hl. injection Hl as <-. apply elem_of_app. left. apply list_elem_of_fmap.
    exists (name, (c, walk c)). split; [done|]. apply elem_of_app.
    destruct (walk_dir c) eqn:Hw; [left|right]; apply elem_of_sort_by, list_elem_of_filter; done.
  - assert (Hd : is_dir c = true) by (by destruct c, p).
    apply elem_of_app. right. apply list_elem_of_In, in_concat.
    exists (walk c (rel ++ [name])). rewrite <-!list_elem_of_In. split.
    + apply list_elem_of_fmap. exists (name, (c, walk c)). split; [done|].
      apply list_elem_of_filter. split; [done|]. apply elem_of_sort_by, list_elem_of_filter.
      split; [|done]. by destruct c.
    + rewrite Forall_forall in IH. replace (rel ++ name :: p) with ((rel ++ [name]) ++ p)
        by (by rewrite <-(assoc_L (++))).
      by apply (IH _ Hc).
Qed.

Definition entry_safe limits (e : fspath * node) : Prop :=
  validate_relative_path (as_posix e.1) = Ok (as_posix e.1) ∧
  (dot_git ∉ split_on slash (as_posix e.1)) ∧
  (is_dir e.2 = true ∨ is_plain_file e.2 = true) ∧
  (∀ l, limits = Some l → is_dir e.2 = false → (st_size e.2 <= max_tree_file_bytes l)%Z).

Lemma inspect_entry_Ok limits (st st' : Z * Z) (e : fspath * node) :
  inspect_entry limits st e = Ok st' →
  entry_safe limits e ∧ st'.1 = (st.1 + 1)%Z ∧
  (∀ l, limits = Some l → (st'.1 <= max_entries l)%Z) ∧
  (∀ l, limits = Some l → (st.2 <= max_total_file_bytes l)%Z → (st'.2 <= max_total_file_bytes l)%Z).
Proof.
  destruct st as [count total]. unfold inspect_entry.
  intros (path & Hpath & H1)%bind_Ok. rewrite guard_Ok in H1. destruct H1 as [Hgit H1].
  apply bind_Ok in H1 as ([] & _ & H1). rewrite !guard_Ok in H1.
  destruct H1 as (Hsafe & Hcount & H1). apply bool_decide_eq_false in Hgit.
  assert (Hv : validate_relative_path (as_posix e.1) = Ok (as_posix e.1)).
  { unfold catch in Hpath. destruct (validate_relative_path _) as [q|x] eqn:Hq;
      [|destruct (is_value_error _) in Hpath; discriminate].
    by apply validate_relative_path_Ok in Hq as [-> _]. }
  assert (Hkind : is_dir e.2 = true ∨ is_plain_file e.2 = true).
  { destruct (is_dir e.2), (is_plain_file e.2); auto. }
  assert (Hcnt : ∀ l, limits = Some l → (count + 1 <= max_entries l)%Z).
  { intros l ->. by apply Z.ltb_ge in Hcount. }
  unfold entry_safe. destruct (is_dir e.2) eqn:Hd.
  - injection H1 as <-. split_and!; try done; by intros l ->.
  - rewrite !guard_Ok in H1. destruct H1 as (Hf & Ht & [= <-]).
    split_and!; try done.
    + intros l -> _. by apply Z.ltb_ge in Hf.
    + intros l -> _. by apply Z.ltb_ge in Ht.
Qed.

Lemma inspect_loop_Ok limits (st st' : Z * Z) (es : list (fspath * node)) :
  inspect_loop limits st es = Ok st' →
  Forall (entry_safe limits) es ∧ st'.1 = (st.1 + zlen es)%Z ∧
  (∀ l, limits = Some l → (st.1 <= max_entries l)%Z → (st'.1 <= max_entries l)%Z) ∧
  (∀ l, limits = Some l → (st.2 <= max_total_file_bytes l)%Z → (st'.2 <= max_total_file_bytes l)%Z).
Proof.
  revert st. induction es as [|e es IH]; intros st; simpl.
  - intros [= <-]. split_and!; [constructor| |done|done]. unfold zlen. simpl. lia.
  - intros (st1 & (He & Hc & Hm & Ht)%inspect_entry_Ok & (Hes & Hc' & Hm' & Ht')%IH)%bind_Ok.
    split_and!; [by constructor| | |].
    + rewrite Hc', Hc. unfold zlen. simpl. lia.
    + intros l Hl _. by apply Hm', Hm.
    + intros l Hl H0. by apply Ht', Ht.
Qed.

Lemma child_map (f : node → node) (name : pystr) (ch : list (pystr * node)) :
  child name (map (λ '(k, c), (k, f c)) ch) = f <$> child name ch.
Proof.
  unfold child. induction ch as [|[k c] ch IH]; simpl; [done|].
  by case_bool_decide.
Qed.

Lemma normalize_lookup n p : fs_lookup (normalize_modes n) p = normalize_modes <$> fs_lookup n p.
Proof.
  revert p. induction n as [fm fk fc|mode ch IH|fb|] using node_nested_ind; intros [|name p]; try done.
  cbn [normalize_modes fs_lookup]. rewrite child_map.
  destruct (child name ch) as [c|] eqn:Hc; [|done]. simpl.
  apply child_elem in Hc. rewrite Forall_forall in IH. apply (IH _ Hc).
Qed.
End walk_lemmas.

Lemma inspect_tree_Ok `{UD : !UnicodeData} (root root' : node) (limits : option TreeLimits)
    (normalize : bool) (report : TreeReport) :
  inspect_tree root limits normalize = Ok (report, root') →
  is_dir root = true ∧
  (∀ p n, p ≠ [] → fs_lookup root p = Some n → entry_safe limits (p, n)) ∧
  (∀ l, limits = Some l → (0 <= max_entries l)%Z → (0 <= max_total_file_bytes l)%Z →
     (zlen (entries report) <= max_entries l)%Z ∧ (file_bytes report <= max_total_file_bytes l)%Z) ∧
  ∀ p, fs_lookup root' p = (if normalize then normalize_modes else id) <$> fs_lookup root p.
Proof.
  unfold inspect_tree. rewrite guard_Ok. intros [Hd Hrest].
  apply bind_Ok in Hrest as ([count total] & Hl & [= <- <-]).
  apply inspect_loop_Ok in Hl as (Hall & Hc & Hm & Ht). split_and!.
  - by apply negb_false_iff.
  - intros p n Hp Hn. rewrite Forall_forall in Hall. apply Hall.
    by apply (walk_complete root []).
  - intros l Hl H1 H2. specialize (Hm l Hl H1). specialize (Ht l Hl H2). simpl in *.
    split; [|done]. rewrite Hc in Hm. unfold zlen. rewrite length_sort_by, length_map.
    unfold zlen in Hm. lia.
  - intros p. destruct normalize; [apply normalize_lookup|]. by rewrite option_fmap_id.
Qed.

(** (safety): an accepted tree has only directories and regular files with a
    single link, at normalized relative paths, and nothing named [.git]; the
    limits of entries, file size and total size hold.  With normalization every
    node keeps its kind and content and has mode 0o755, or 0o644 for a file that
    is not executable. *)
Theorem inspected_tree_safe `{UD : !UnicodeData} (root root' : node) (limits : option TreeLimits)
    (normalize : bool) (report : TreeReport) :
  inspect_tree root limits normalize = Ok (report, root') →
  is_dir root = true ∧
  (∀ p n, p ≠ [] → fs_lookup root p = Some n → entry_safe limits (p, n)) ∧
  (∀ l, limits = Some l → (0 <= max_entries l)%Z → (0 <= max_total_file_bytes l)%Z →
     (zlen (entries report) <= max_entries l)%Z ∧ (file_bytes report <= max_total_file_bytes l)%Z) ∧
  ∀ p, fs_lookup root' p = (if normalize then normalize_modes else id) <$> fs_lookup root p.
Proof. apply inspect_tree_Ok. Qed.

(** ** Witness *)

Definition sample_tree : node :=
  NDir 448 [(ustr "b", NDir 448 [(ustr "c", NFile 448 1 (bstr "x"))]);
            (ustr "a", NFile 384 1 (bstr "yy"))].

Definition sample_tree_limits : TreeLimits :=
  {| max_entries := 10; max_tree_file_bytes := 10; max_total_file_bytes := 10;
     max_path_bytes := 10 |}.

Lemma inspected_tree_safe_witness :
  is_dir sample_tree = true ∧
  fs_lookup (normalize_modes sample_tree) [ustr "b"; ustr "c"] = Some (NFile 493 1 (bstr "x")).
Proof.
  split.
  - apply (inspected_tree_safe (UD := ascii_unicode) sample_tree (normalize_modes sample_tree)
      (Some sample_tree_limits) true
      {| entries := [ustr "a"; ustr "b"; ustr "b/c"]; file_bytes := 3 |}).
    vm_compute. reflexivity.
  - vm_compute. reflexivity.
Defined.
