(* ===== verification/Archive.v ===== *)
(** * Artifact archives ([src/rlvr/v3/archive.py])

    A [.tar.zst] file is its bytes.  The decompressor of the zstandard package is the
    class [Zstd], the reader of [tarfile] the class [Tar]: the members it yields and
    the exception that ends the iteration, if any.  The destination is a [node], built
    by the [mkdir], [open] and [chmod] calls of the source; [umask] is the process's.
    [extract_archive] returns what is left at the destination and the outcome. *)

From S2P Require Import Prelude PyFloat Text Json JsonSpec Canonical CanonicalSpec Wire Identity Api FileSystem.

Local Open Scope Z_scope.

Record ArchiveLimits := {
  max_compressed_bytes : Z;
  max_expanded_bytes : Z;
  max_file_bytes : Z;
  max_archive_entries : Z;
  max_archive_path_bytes : Z;
  max_zstd_window_bytes : Z
}.

Definition check_archive_limits (l : ArchiveLimits) : result unit :=
  raise_if (existsb (λ v, v <=? 0)
      [max_compressed_bytes l; max_expanded_bytes l; max_file_bytes l; max_archive_entries l;
       max_archive_path_bytes l; max_zstd_window_bytes l])
    ValueError "archive limits must be positive integers".

Record ExtractionReport := {
  xr_entries : list pystr;
  xr_expanded_bytes : Z;
  xr_file_bytes : Z
}.

(** A streaming decompressor: its state, [decompress], [eof], [unused_data], [flush]. *)
Class Zstd := {
  zstate : Type;
  z_window : bytes → result Z;
  z_new : Z → zstate;
  z_decompress : zstate → bytes → result (bytes * zstate);
  z_eof : zstate → bool;
  z_unused : zstate → bytes;
  z_flush : zstate → result bytes
}.

Inductive MemberType := member_file | member_dir | member_other.
#[export] Instance MemberType_eq_dec : EqDecision MemberType. Proof. solve_decision. Defined.

(** A [TarInfo], with what [extractfile] reads. *)
Record TarInfo := {
  ti_name : pystr;
  ti_type : MemberType;
  ti_sparse : bool;
  ti_size : Z;
  ti_mode : Z;
  ti_content : result bytes
}.

Class Tar := { tar_read : bytes → list TarInfo * option exn }.

(** Reads of [n] bytes until the end of the file. *)
Fixpoint read_chunks (fuel n : nat) (content : bytes) : list bytes :=
  match fuel, content with
  | S fuel, _ :: _ => take n content :: read_chunks fuel n (drop n content)
  | _, _ => []
  end.

Definition chunks_of (n : nat) (content : bytes) : list bytes :=
  read_chunks (length content) n content.

(** [except <p> as exc: raise ArchiveError(msg)] *)
Definition as_archive_error {A} (p : exn_class → bool) (msg : string) (m : result A) : result A :=
  catch m p (λ _, raise ArchiveError msg).

Definition os_error (c : exn_class) : bool := bool_decide (c = OSError).
Definition zstd_error (c : exn_class) : bool := os_error c || bool_decide (c = ZstdError).
Definition tar_error (c : exn_class) : bool := os_error c || bool_decide (c = TarError).

(** ** Verification and decompression *)

Section decompression.
Context `{!Sha256, !Zstd}.

(** [content]: what [stat] and [open] of the path see, [None] when they fail. *)
Definition verify_archive_file (content : option bytes) (ref : ArtifactRef) (limits : ArchiveLimits)
    : result unit :=
  raise_if (max_expanded_bytes limits <? ar_expanded_size ref) ArchiveError
    "advertised expanded size exceeds the policy limit";;
  match content with
  | None => raise ArchiveError "archive is unavailable"
  | Some c =>
      raise_if (negb (zlen c =? ar_compressed_size ref)) ArchiveError
        "compressed archive size does not match its reference";;
      raise_if (max_compressed_bytes limits <? zlen c) ArchiveError
        "compressed archive exceeds the policy limit";;
      raise_if (negb (bool_decide (hexdigest (sha256 c) = ar_sha256 ref))) ArchiveError
        "archive digest does not match its reference"
  end.

(** [if chunk: written += len(chunk); if written > advertised_size: raise; write] *)
Definition write_chunk (advertised_size : Z) (expanded chunk : bytes) : result bytes :=
  raise_if (negb (bool_decide (chunk = [])) && (advertised_size <? zlen expanded + zlen chunk))
    ArchiveError "expanded archive exceeds its advertised size";;
  mret (expanded ++ chunk).

(** The loop over the compressed chunks: the state, the bytes written and the
    chunks not read. *)
Fixpoint decompress_loop (advertised_size : Z) (z : zstate) (expanded : bytes)
    (chunks : list bytes) : result (zstate * bytes * list bytes) :=
  match chunks with
  | [] => Ok (z, expanded, [])
  | compressed_chunk :: chunks' =>
      '(chunk, z') ← z_decompress z compressed_chunk;
      expanded' ← write_chunk advertised_size expanded chunk;
      if z_eof z' then mret (z', expanded', chunks')
      else decompress_loop advertised_size z' expanded' chunks'
  end.

Definition decompress_archive (source : bytes) (limits : ArchiveLimits) (advertised_size : Z)
    : result bytes :=
  as_archive_error zstd_error "archive decompression failed"
    (window ← z_window (take 18 source);
     raise_if (max_zstd_window_bytes limits <? window) ArchiveError
       "archive compression window exceeds the policy limit";;
     '(z, expanded, rest) ←
       decompress_loop advertised_size (z_new (max_zstd_window_bytes limits)) [] (chunks_of 64 source);
     raise_if (z_eof z && (negb (bool_decide (z_unused z = [])) || negb (bool_decide (rest = []))))
       ArchiveError "archive has trailing compressed data";;
     final ← z_flush z;
     expanded ← write_chunk advertised_size expanded final;
     raise_if (negb (z_eof z)) ArchiveError "archive compression stream is truncated";;
     mret expanded).
End decompression.

(** ** Inspection of the members *)

Section members.
Context `{!UnicodeData}.

Definition validate_name (name : pystr) (limits : ArchiveLimits) : result fspath :=
  as_archive_error is_value_error "archive path is not valid Unicode NFC"
    (validate_protocol_string name);;
  raw ← utf8_encode name;
  raise_if (max_archive_path_bytes limits <? zlen raw) ArchiveError
    "archive path exceeds the policy limit";;
  raise_if (contains [0%N] name || contains [92%N] name || startswith [slash] name) ArchiveError
    "archive path is unsafe";;
  let segments := split_on slash name in
  raise_if (existsb (λ s, bool_decide (s ∈ [[]; dot; dotdot])) segments) ArchiveError
    "archive path is not normalized";;
  mret segments.

Definition is_file (m : TarInfo) : bool := bool_decide (ti_type m = member_file).

(** One turn of the loop over the members: their number, the paths, the bytes. *)
Definition inspect_member (limits : ArchiveLimits) (st : Z * gmap fspath bool * Z) (m : TarInfo)
    : result (Z * gmap fspath bool * Z) :=
  let '(count, paths, file_bytes) := st in
  raise_if (max_archive_entries limits <=? count) ArchiveError "archive contains too many entries";;
  raise_if (ti_sparse m || bool_decide (ti_type m = member_other)) ArchiveError
    "archive contains an unsupported entry type";;
  segments ← validate_name (ti_name m) limits;
  raise_if (bool_decide (is_Some (paths !! segments))) ArchiveError
    "archive contains a duplicate path";;
  file_bytes ←
    (if is_file m then
       raise_if ((ti_size m <? 0) || (max_file_bytes limits <? ti_size m)) ArchiveError
         "archive file exceeds the policy limit";;
       raise_if (max_expanded_bytes limits <? file_bytes + ti_size m) ArchiveError
         "archive files exceed the policy limit";;
       mret (file_bytes + ti_size m)
     else mret file_bytes);
  mret (count + 1, <[segments := is_file m]> paths, file_bytes).

Fixpoint inspect_members_loop (limits : ArchiveLimits) (st : Z * gmap fspath bool * Z)
    (members : list TarInfo) : result (Z * gmap fspath bool * Z) :=
  match members with
  | [] => Ok st
  | m :: members' =>
      st' ← inspect_member limits st m;
      inspect_members_loop limits st' members'
  end.

(** Is a file used as a parent directory of [path]? *)
Definition file_above (paths : gmap fspath bool) (path : fspath) : bool :=
  existsb (λ depth, default false (paths !! take depth path)) (seq 1 (length path - 1)).

Definition inspect_members (archive : list TarInfo * option exn) (limits : ArchiveLimits)
    : result (list TarInfo * Z) :=
  let '(members, tail_error) := archive in
  '(_, paths, file_bytes) ← inspect_members_loop limits (0, ∅, 0) members;
  (match tail_error with Some e => Raise e | None => Ok () end);;
  raise_if (existsb (file_above paths) (map (λ m, split_on slash (ti_name m)) members)) ArchiveError
    "archive file is used as a parent directory";;
  mret (members, file_bytes).
End members.

(** ** Extraction *)

(** Set the entry [name] of a directory. *)
Fixpoint put_child (name : pystr) (c : node) (children : list (pystr * node)) : list (pystr * node) :=
  match children with
  | [] => [(name, c)]
  | nc :: children' =>
      if bool_decide (nc.1 = name) then (name, c) :: children'
      else nc :: put_child name c children'
  end.

Section extraction.
Context (umask : Z).

Definition masked (mode : Z) : Z := Z.land mode (Z.lnot umask).

(** [path.mkdir(mode, parents=True, exist_ok=True)]: missing parents get the default
    mode. *)
Fixpoint mkdir_p (n : node) (path : fspath) (mode : Z) : result node :=
  match path with
  | [] => if is_dir n then Ok n else raise OSError "File exists"
  | name :: path' =>
      match n with
      | NDir m children =>
          let below :=
            match child name children with
            | Some c => c
            | None => NDir (masked (if bool_decide (path' = []) then mode else 511)) []
            end in
          c ← mkdir_p below path' mode;
          mret (NDir m (put_child name c children))
      | _ => raise OSError "Not a directory"
      end
  end.

(** [os.open(path, O_CREAT | O_EXCL | O_WRONLY | O_NOFOLLOW)] and writing [file]. *)
Fixpoint create_excl (n : node) (path : fspath) (file : node) : result node :=
  match path with
  | [] => raise OSError "File exists"
  | name :: path' =>
      match n with
      | NDir m children =>
          match child name children, path' with
          | Some c, _ =>
              c' ← create_excl c path' file;
              mret (NDir m (put_child name c' children))
          | None, [] => mret (NDir m (put_child name file children))
          | None, _ :: _ => raise OSError "No such file or directory"
          end
      | _ => raise OSError "Not a directory"
      end
  end.

Definition chmod_node (mode : Z) (n : node) : node :=
  match n with
  | NDir _ children => NDir mode children
  | NFile _ nlink content => NFile mode nlink content
  | n => n
  end.

(** The copy loop of one member. *)
Fixpoint copy_chunks (size copied : Z) (chunks : list bytes) : result Z :=
  match chunks with
  | [] => Ok copied
  | chunk :: chunks' =>
      raise_if (size <? copied + zlen chunk) ArchiveError "archive file exceeds its declared size";;
      copy_chunks size (copied + zlen chunk) chunks'
  end.

Definition member_mode (m : TarInfo) : Z :=
  if negb (Z.land (ti_mode m) IXUSR =? 0) then 493 else 420.

Definition extract_member (dest : node) (m : TarInfo) : result node :=
  let output := split_on slash (ti_name m) in
  if bool_decide (ti_type m = member_dir) then
    dest ← mkdir_p dest output 493;
    mret (fs_update dest output (chmod_node 493))
  else
    dest ← mkdir_p dest (removelast output) 493;
    content ← ti_content m;
    dest ← create_excl dest output (NFile (member_mode m) 1 content);
    copied ← copy_chunks (ti_size m) 0 (chunks_of (Z.to_nat (Z.shiftl 1 20)) content);
    raise_if (negb (copied =? ti_size m)) ArchiveError "archive file is truncated";;
    mret dest.

Fixpoint extract_members (dest : node) (members : list TarInfo) : result node :=
  match members with
  | [] => Ok dest
  | m :: members' => dest' ← extract_member dest m; extract_members dest' members'
  end.

Context `{!UnicodeData, !Sha256, !Zstd, !Tar}.

(** What is left at the destination, and the outcome. *)
Definition extract_archive (content : option bytes) (ref : ArtifactRef) (destination : option node)
    (limits : ArchiveLimits) (scratch_is_dir : bool) : option node * result ExtractionReport :=
  match destination with
  | Some d => (Some d, raise ArchiveError "archive destination already exists")
  | None =>
      match (raise_if (negb scratch_is_dir) ArchiveError "archive scratch directory is unavailable";;
             verify_archive_file content ref limits;;
             expanded ← decompress_archive (default [] content) limits (ar_expanded_size ref);
             raise_if (negb (zlen expanded =? ar_expanded_size ref)) ArchiveError
               "expanded archive size does not match its reference";;
             as_archive_error tar_error "archive tar payload is invalid"
               ('(members, file_bytes) ← inspect_members (tar_read expanded) limits;
                mret (expanded, members, file_bytes))) with
      | Raise e => (None, Raise e)
      | Ok (expanded, members, file_bytes) =>
          match as_archive_error tar_error "archive tar payload is invalid"
                  (extract_members (NDir (masked 448) []) members) with
          | Ok d =>
              (Some d, Ok {| xr_entries := map ti_name members; xr_expanded_bytes := zlen expanded;
                             xr_file_bytes := file_bytes |})
          (* [shutil.rmtree(dest)]; other exceptions would leave the tree there *)
          | Raise e => (None, Raise e)
          end
      end
  end.
End extraction.
