(* ===== verification/ArchiveSpec.v ===== *)
(** * Archives: what an extraction leaves behind

    [extraction_faithful]: a successful extraction authenticated the bytes it read
    and the destination holds exactly the files of the archive.  [extraction_atomic]:
    a failed one raises [ArchiveError] and leaves nothing. *)

From S2P Require Import Prelude PyFloat Text Json JsonSpec Canonical CanonicalSpec Wire Identity Api FileSystem Archive.

Local Open Scope Z_scope.

(** ** Building the tree *)

Section build.
Context (umask : Z).
Implicit Types (n c x : node) (p path : fspath).

Lemma child_put (name k : pystr) c (ch : list (pystr * node)) :
  child k (put_child name c ch) = if bool_decide (k = name) then Some c else child k ch.
Proof.
  unfold child. induction ch as [|[k' c'] ch IH]; simpl.
  - destruct (decide (name = k)) as [->|Hk]; [by rewrite !bool_decide_eq_true_2|].
    by rewrite !bool_decide_eq_false_2.
  - destruct (decide (k' = name)) as [->|Hn].
    + rewrite (bool_decide_eq_true_2 (name = name)) by done. simpl.
      destruct (decide (name = k)) as [->|Hk]; [by rewrite !bool_decide_eq_true_2|].
      by rewrite !bool_decide_eq_false_2.
    + rewrite (bool_decide_eq_false_2 (k' = name)) by done. simpl.
      destruct (decide (k' = k)) as [->|Hk]; [by rewrite bool_decide_eq_true_2, bool_decide_eq_false_2|].
      by rewrite bool_decide_eq_false_2.
Qed.

Lemma lookup_put (m m' : Z) (name : pystr) c (ch : list (pystr * node)) k p :
  fs_lookup (NDir m (put_child name c ch)) (k :: p)
  = if bool_decide (k = name) then fs_lookup c p else fs_lookup (NDir m' ch) (k :: p).
Proof. simpl. rewrite child_put. by case_bool_decide. Qed.

(** The trees have the same files; [extra]: and also one more. *)
Definition with_files (extra : fspath → node → Prop) n n' : Prop :=
  is_dir n' = is_dir n ∧
  ∀ p x, is_dir x = false → fs_lookup n' p = Some x ↔ fs_lookup n p = Some x ∨ extra p x.

Definition same_files n n' : Prop := with_files (λ _ _, False) n n'.

Lemma same_files_lookup n n' p x :
  same_files n n' → is_dir x = false → fs_lookup n' p = Some x ↔ fs_lookup n p = Some x.
Proof. intros [_ Hs] Hx. rewrite Hs by done. tauto. Qed.

Lemma with_files_put (extra extra' : fspath → node → Prop) (m m' : Z) (name : pystr) c c'
    (ch : list (pystr * node)) :
  default (NDir m' []) (child name ch) = c → with_files extra c c' →
  (∀ p x, extra' p x ↔ ∃ p', p = name :: p' ∧ extra p' x) →
  with_files extra' (NDir m ch) (NDir m (put_child name c' ch)).
Proof.
  intros Hc [_ Hf] He. split; [done|]. intros [|k p] x Hx.
  - rewrite He. split; [intros [= <-]; done|]. intros [[= <-]|(? & ? & _)]; done.
  - rewrite (lookup_put m m), He. case_bool_decide as Hk.
    + subst k. rewrite Hf by done. simpl. destruct (child name ch) as [c0|]; simpl in Hc; subst c; simpl.
      * naive_solver.
      * assert (fs_lookup (NDir m' []) p ≠ Some x) by (destruct p; simpl; intros [= <-]; done).
        naive_solver.
    + naive_solver.
Qed.

Lemma mkdir_p_Ok n n' path (mode : Z) :
  mkdir_p umask n path mode = Ok n' →
  same_files n n' ∧ ∃ m ch, fs_lookup n' path = Some (NDir m ch).
Proof.
  revert n n'. induction path as [|name path IH]; intros n n'; cbn [mkdir_p].
  - destruct n as [|m ch| |]; simpl; try done. intros [= <-]. split; [|by exists m, ch].
    split; [done|]. naive_solver.
  - destruct n as [|m ch| |]; try done.
    intros (c & Hc & [= <-])%bind_Ok. apply IH in Hc as [Hs (m' & ch' & Hd)]. split.
    + eapply (with_files_put _ _ m _ name); [|exact Hs|naive_solver].
      destruct (child name ch); simpl; reflexivity.
    + exists m', ch'. by rewrite (lookup_put m m), bool_decide_eq_true_2.
Qed.

Lemma create_excl_Ok n n' path file :
  is_dir file = false → create_excl n path file = Ok n' →
  with_files (λ p x, p = path ∧ x = file) n n'.
Proof.
  intros Hfile. revert n n'. induction path as [|name path IH]; intros n n'; [done|]. cbn [create_excl].
  destruct n as [|m ch| |]; try done. destruct (child name ch) as [c|] eqn:Hc.
  - intros (c' & Hc' & [= <-])%bind_Ok. apply IH in Hc'.
    eapply (with_files_put _ _ m 0 name); [by rewrite Hc|exact Hc'|naive_solver].
  - destruct path; [|done]. intros [= <-]. split; [done|]. intros [|k p] x Hx.
    { split; [intros [= <-]; done|]. naive_solver. }
    rewrite (lookup_put m m). case_bool_decide as Hk.
    + subst k. simpl. rewrite Hc. simpl. split.
      * destruct file, p; simpl in *; naive_solver.
      * intros [?|[[= ->] ->]]; done.
    + naive_solver.
Qed.

Lemma chmod_files n path (mode m : Z) (ch : list (pystr * node)) :
  fs_lookup n path = Some (NDir m ch) → same_files n (fs_update n path (chmod_node mode)).
Proof.
  revert n. induction path as [|name path IH]; intros n Hl.
  - injection Hl as ->. split; [done|]. intros [|k p] x Hx; simpl; [|tauto].
    split; [intros [= <-]; done|]. intros [[= <-]|[]]; done.
  - destruct n as [|m0 ch0| |]; simpl in Hl; try done.
    apply bind_Some in Hl as (c & Hc & Hl). apply IH in Hl as [_ Hl]. split; [done|].
    assert (Hch : ∀ k, child k (map (λ nc, if bool_decide (nc.1 = name)
        then (nc.1, fs_update nc.2 path (chmod_node mode)) else nc) ch0)
      = (λ c, if bool_decide (k = name) then fs_update c path (chmod_node mode) else c) <$> child k ch0).
    { intros k. unfold child. clear. induction ch0 as [|[k' c'] ch0 IH]; simpl; [done|].
      destruct (decide (k' = name)) as [->|Hn].
      - rewrite (bool_decide_eq_true_2 (name = name)) by done. simpl.
        destruct (decide (name = k)) as [->|Hk]; [by rewrite !bool_decide_eq_true_2|].
        by rewrite bool_decide_eq_false_2.
      - rewrite (bool_decide_eq_false_2 (k' = name)) by done. simpl.
        destruct (decide (k' = k)) as [->|Hk]; [|by rewrite bool_decide_eq_false_2].
        by rewrite bool_decide_eq_true_2, bool_decide_eq_false_2. }
    intros [|k p] x Hx; cbn [fs_update fs_lookup].
    + split; [intros [= <-]; done|]. intros [[= <-]|[]]; done.
    + rewrite Hch. destruct (child k ch0) as [ck|] eqn:Hk; simpl; [|tauto].
      case_bool_decide; [|tauto]. subst. rewrite Hc in Hk. injection Hk as <-. by apply Hl.
Qed.

Lemma copy_chunks_Ok (size copied : Z) (chunks : list bytes) (r : Z) :
  copy_chunks size copied chunks = Ok r → r = copied + zlen (concat chunks).
Proof.
  revert copied. induction chunks as [|c chunks IH]; intros copied; simpl.
  - intros [= <-]. unfold zlen. simpl. lia.
  - intros [_ Hr]%guard_Ok. apply IH in Hr. rewrite Hr. unfold zlen. rewrite length_app. lia.
Qed.

Lemma concat_chunks_of (k : nat) (content : bytes) : (0 < k)%nat → concat (chunks_of k content) = content.
Proof.
  intros Hk. unfold chunks_of.
  assert (Hg : ∀ fuel l, (length l <= fuel)%nat → concat (read_chunks fuel k l) = l).
  { intros fuel. induction fuel as [|fuel IH]; intros l Hl.
    - by destruct l; simpl in *; [|lia].
    - destruct l as [|a l]; [done|]. cbn [read_chunks concat]. rewrite IH, take_drop; [done|].
      rewrite length_drop. simpl in *. lia. }
  by apply Hg.
Qed.

(** The file a member leaves. *)
Definition member_leaves (m : TarInfo) p x : Prop :=
  ∃ content, ti_type m ≠ member_dir ∧ ti_content m = Ok content ∧ zlen content = ti_size m ∧
    p = split_on slash (ti_name m) ∧ x = NFile (member_mode m) 1 content.

Lemma extract_member_Ok n n' (m : TarInfo) :
  extract_member umask n m = Ok n' → with_files (member_leaves m) n n'.
Proof.
  unfold extract_member. case_bool_decide as Ht.
  - intros (d & (Hs & md & ch & Hd)%mkdir_p_Ok & [= <-])%bind_Ok.
    pose proof (chmod_files _ _ 493 _ _ Hd) as Hs'. destruct Hs as [Hd1 Hs1], Hs' as [Hd2 Hs2].
    split; [congruence|]. intros p x Hx. rewrite Hs2, Hs1 by done. unfold member_leaves. naive_solver.
  - intros (d & (Hs & _)%mkdir_p_Ok & Hr)%bind_Ok.
    apply bind_Ok in Hr as (content & Hcont & Hr). apply bind_Ok in Hr as (d' & Hd' & Hr).
    apply bind_Ok in Hr as (copied & Hcopy & Hr). apply guard_Ok in Hr as [Hsz [= ->]].
    apply create_excl_Ok in Hd' as [Hd1 Hf]; [|done]. apply copy_chunks_Ok in Hcopy.
    rewrite concat_chunks_of in Hcopy by (change (Z.shiftl 1 20) with 1048576; lia).
    apply negb_false_iff, Z.eqb_eq in Hsz. destruct Hs as [Hd2 Hs]. split; [congruence|].
    intros p x Hx. rewrite Hf, Hs by done. unfold member_leaves.
    assert (zlen content = ti_size m) by lia. rewrite Hcont. naive_solver.
Qed.

Lemma extract_members_Ok n n' (members : list TarInfo) :
  extract_members umask n members = Ok n' →
  with_files (λ p x, ∃ m, m ∈ members ∧ member_leaves m p x) n n'.
Proof.
  revert n. induction members as [|m members IH]; intros n; simpl.
  - intros [= <-]. split; [done|]. intros p x _. split; [tauto|].
    intros [?|(m & Hm%not_elem_of_nil & _)]; done.
  - intros (d & [Hd1 H1]%extract_member_Ok & [Hd2 H2]%IH)%bind_Ok. split; [congruence|].
    intros p x Hx. rewrite H2, H1 by done. setoid_rewrite elem_of_cons. naive_solver.
Qed.
End build.

(** ** Inspection *)

Section inspect.
Context `{UD : !UnicodeData}.
Implicit Types (m : TarInfo) (limits : ArchiveLimits) (members : list TarInfo).

Lemma as_archive_error_Ok {A} (q : exn_class → bool) (msg : string) (r : result A) (x : A) :
  as_archive_error q msg r = Ok x ↔ r = Ok x.
Proof. unfold as_archive_error, catch. destruct r; [done|]. destruct (q _); split; done. Qed.

(** A member an extraction accepts: a plain file or a directory at a normalized,
    relative, bounded path. *)
Definition member_safe limits m : Prop :=
  ti_sparse m = false ∧ ti_type m ≠ member_other ∧
  (∀ s, s ∈ split_on slash (ti_name m) → s ∉ [[]; dot; dotdot]) ∧
  (∃ raw, utf8_encode (ti_name m) = Ok raw ∧ zlen raw <= max_archive_path_bytes limits) ∧
  (ti_type m = member_file → 0 <= ti_size m <= max_file_bytes limits).

Lemma validate_name_Ok limits (name : pystr) (segments : fspath) :
  validate_name name limits = Ok segments →
  segments = split_on slash name ∧ (∀ s, s ∈ segments → s ∉ [[]; dot; dotdot]) ∧
  ∃ raw, utf8_encode name = Ok raw ∧ zlen raw <= max_archive_path_bytes limits.
Proof.
  unfold validate_name. intros (? & _ & H1)%bind_Ok. apply bind_Ok in H1 as (raw & Hraw & H1).
  rewrite !guard_Ok in H1. destruct H1 as (Hlen%Z.ltb_ge & _ & Hseg & [= <-]).
  split_and!; [done| |by exists raw]. intros s Hs Hbad.
  assert (existsb (λ s, bool_decide (s ∈ [[]; dot; dotdot])) (split_on slash name) = true); [|congruence].
  apply existsb_exists. exists s. rewrite <-list_elem_of_In. split; [done|]. by apply bool_decide_eq_true.
Qed.

Definition paths_of members : list fspath := map (λ m, split_on slash (ti_name m)) members.
Definition file_sizes members : Z :=
  foldr Z.add 0 (map (λ m, if is_file m then ti_size m else 0) members).

Lemma inspect_member_Ok limits (c c' b b' : Z) (paths paths' : gmap fspath bool) m :
  inspect_member limits (c, paths, b) m = Ok (c', paths', b') →
  member_safe limits m ∧ c' = c + 1 ∧ c' <= max_archive_entries limits ∧
  paths !! split_on slash (ti_name m) = None ∧
  paths' = <[split_on slash (ti_name m) := is_file m]> paths ∧
  b' = b + (if is_file m then ti_size m else 0) ∧
  (b <= max_expanded_bytes limits → b' <= max_expanded_bytes limits).
Proof.
  unfold inspect_member. rewrite !guard_Ok. intros (Hc%Z.leb_gt & Hk & H1).
  apply orb_false_iff in Hk as [Hsp Hk%bool_decide_eq_false].
  apply bind_Ok in H1 as (segs & (-> & Hseg & Hraw)%validate_name_Ok & H1).
  rewrite guard_Ok in H1. destruct H1 as [Hnew H1]. apply bool_decide_eq_false in Hnew.
  apply bind_Ok in H1 as (fb & Hfb & [= <- <- <-]).
  assert (paths !! split_on slash (ti_name m) = None) by (by apply eq_None_not_Some).
  destruct (is_file m) eqn:Hf.
  - rewrite !guard_Ok in Hfb. destruct Hfb as (Hsz & Htot%Z.ltb_ge & [= <-]).
    apply orb_false_iff in Hsz as [Hs1%Z.ltb_ge Hs2%Z.ltb_ge]. unfold member_safe.
    by split_and!; try done; try lia.
  - injection Hfb as <-. unfold is_file in Hf. apply bool_decide_eq_false in Hf. unfold member_safe.
    by split_and!; try done; try lia.
Qed.

Lemma inspect_loop_spec limits (st st' : Z * gmap fspath bool * Z) members :
  inspect_members_loop limits st members = Ok st' →
  Forall (member_safe limits) members ∧ st'.1.1 = st.1.1 + zlen members ∧
  (st.1.1 <= max_archive_entries limits → st'.1.1 <= max_archive_entries limits) ∧
  NoDup (paths_of members) ∧ (∀ p, p ∈ paths_of members → st.1.2 !! p = None) ∧
  st'.2 = st.2 + file_sizes members ∧
  (st.2 <= max_expanded_bytes limits → st'.2 <= max_expanded_bytes limits).
Proof.
  revert st. induction members as [|m members IH]; intros [[c paths] b]; simpl.
  - intros [= <-]. split_and!; simpl; try done.
    + unfold zlen. simpl. lia.
    + constructor.
    + by intros p ?%not_elem_of_nil.
    + unfold file_sizes. simpl. lia.
  - intros ([[c1 paths1] b1] & H1 & H2)%bind_Ok.
    apply inspect_member_Ok in H1 as (Hm & -> & Hc & Hnew & -> & -> & Hb).
    apply IH in H2 as (Hall & Hc' & Hmax & Hnd & Hpaths & Hb' & Hbmax). simpl in *.
    split_and!; try done; try tauto.
    + by constructor.
    + rewrite Hc'. unfold zlen. simpl. lia.
    + constructor; [|done]. intros Hin. specialize (Hpaths _ Hin). by rewrite lookup_insert_eq in Hpaths.
    + intros p [->|Hp]%elem_of_cons; [done|]. specialize (Hpaths _ Hp).
      by apply lookup_insert_None in Hpaths as [? _].
    + rewrite Hb'. unfold file_sizes. simpl. lia.
Qed.

Lemma inspect_members_Ok limits (archive : list TarInfo * option exn) members (b : Z) :
  inspect_members archive limits = Ok (members, b) →
  archive = (members, None) ∧ Forall (member_safe limits) members ∧ NoDup (paths_of members) ∧
  b = file_sizes members ∧
  (0 <= max_archive_entries limits → zlen members <= max_archive_entries limits) ∧
  (0 <= max_expanded_bytes limits → b <= max_expanded_bytes limits).
Proof.
  destruct archive as [ms tail]. unfold inspect_members.
  intros ([[c paths] fb] & (Hall & Hc & Hmax & Hnd & _ & Hb & Hbmax)%inspect_loop_spec & H1)%bind_Ok.
  destruct tail; [done|]. cbn [mbind result_bind] in H1. apply guard_Ok in H1 as [_ [= <- <-]].
  simpl in *. split_and!; try done.
  intros H0. specialize (Hmax H0). lia.
Qed.

Lemma paths_of_names members : NoDup (paths_of members) → NoDup (map ti_name members).
Proof.
  intros H'. apply (NoDup_fmap_1 (split_on slash)). change (fmap ?f ?l) with (map f l).
  rewrite map_map. exact H'.
Qed.

(** *** The exceptions *)

(** Only [ArchiveError]s, or exceptions the next handler turns into one. *)
Definition raises_only {A} (q : exn_class → bool) (r : result A) : Prop :=
  match r with Ok _ => True | Raise e => exn_cls e = ArchiveError ∨ q (exn_cls e) = true end.

Lemma raises_bind {A B} q (r : result A) (f : A → result B) :
  raises_only q r → (∀ x, r = Ok x → raises_only q (f x)) → raises_only q (r ≫= f).
Proof. destruct r; simpl; auto. Qed.

Lemma raises_guard q (b : bool) (msg : string) : raises_only q (raise_if b ArchiveError msg).
Proof. destruct b; [by left|done]. Qed.

Lemma raises_handler {A} q q' (msg : string) (r : result A) :
  raises_only q r → raises_only q' (as_archive_error q msg r).
Proof.
  unfold as_archive_error, catch. destruct r as [x|e]; simpl; [done|].
  intros [He|He]; [|rewrite He; by left]. destruct (q (exn_cls e)); by left.
Qed.

Lemma validate_name_raises limits (name : pystr) q :
  wf_str name = true → raises_only q (validate_name name limits).
Proof.
  intros Hw. unfold validate_name.
  apply raises_bind.
  { apply (raises_handler is_value_error). pose proof (validate_protocol_string_fueled name) as Hf.
    destruct (validate_protocol_string name); [done|by right]. }
  intros [] Hv. rewrite as_archive_error_Ok in Hv.
  unfold utf8_encode. rewrite valid_str_scalar by done. cbn [mbind result_bind].
  repeat (apply raises_bind; [apply raises_guard|intros _ _]). done.
Qed.

Lemma inspect_members_raises limits members (tail : option exn) q :
  (∀ m, m ∈ members → wf_str (ti_name m) = true) →
  (∀ e, tail = Some e → q (exn_cls e) = true) →
  raises_only q (inspect_members (members, tail) limits).
Proof.
  intros Hw Ht. unfold inspect_members. apply raises_bind.
  - generalize (0, ∅ : gmap fspath bool, 0). induction members as [|m members IH]; intros st; [done|].
    cbn [inspect_members_loop]. apply raises_bind; [|intros; apply IH; intros; apply Hw; by right].
    destruct st as [[c paths] b]. unfold inspect_member.
    do 2 (apply raises_bind; [apply raises_guard|intros _ _]).
    apply raises_bind; [apply validate_name_raises, Hw; by left|intros segs _].
    apply raises_bind; [apply raises_guard|intros _ _].
    apply raises_bind; [|done]. destruct (is_file m); [|done].
    do 2 (apply raises_bind; [apply raises_guard|intros _ _]). done.
  - intros [[c paths] b] _. apply raises_bind; [destruct tail; [right; by apply Ht|done]|intros _ _].
    apply raises_bind; [apply raises_guard|done].
Qed.

Lemma tree_op_raises (umask mode : Z) (n file : node) path :
  raises_only tar_error (mkdir_p umask n path mode) ∧ raises_only tar_error (create_excl n path file).
Proof.
  revert n. induction path as [|name path IH]; intros n; cbn [mkdir_p create_excl].
  - split; [destruct (is_dir n); [done|]|]; by right.
  - destruct n as [|m ch| |]; try (split; by right). split.
    + apply raises_bind; [apply IH|done].
    + destruct (child name ch) as [c|]; [apply raises_bind; [apply IH|done]|].
      destruct path; [done|by right].
Qed.

Lemma extract_members_raises (umask : Z) (n : node) members :
  (∀ m, m ∈ members → raises_only tar_error (ti_content m)) →
  raises_only tar_error (extract_members umask n members).
Proof.
  revert n. induction members as [|m members IH]; intros n Hc; [done|]. cbn [extract_members].
  apply raises_bind; [|intros; apply IH; intros; apply Hc; by right].
  unfold extract_member. case_bool_decide.
  - apply raises_bind; [by apply (tree_op_raises _ _ _ NOther)|done].
  - apply raises_bind; [by apply (tree_op_raises _ _ _ NOther)|intros d _].
    apply raises_bind; [apply Hc; by left|intros content _].
    apply raises_bind; [apply (tree_op_raises 0 0)|intros d' _].
    apply raises_bind; [|intros; apply raises_bind; [apply raises_guard|done]].
    generalize (chunks_of (Z.to_nat (Z.shiftl 1 20)) content) 0. intros cs.
    induction cs as [|c cs IHc]; intros k; [done|]. cbn [copy_chunks].
    apply raises_bind; [apply raises_guard|intros; apply IHc].
Qed.

(** Decompression raises what the decompressor raises. *)
Lemma decompress_raises `{!Sha256, !Zstd} (source : bytes) limits (advertised : Z) :
  (∀ b, raises_only zstd_error (z_window b)) →
  (∀ z b, raises_only zstd_error (z_decompress z b)) →
  (∀ z, raises_only zstd_error (z_flush z)) →
  raises_only (λ _, false) (decompress_archive source limits advertised).
Proof.
  intros Hwin Hdec Hflush. apply (raises_handler zstd_error).
  assert (Hwrite : ∀ e c, raises_only zstd_error (write_chunk advertised e c)).
  { intros. apply raises_bind; [apply raises_guard|done]. }
  apply raises_bind; [done|intros w _]. apply raises_bind; [apply raises_guard|intros _ _].
  apply raises_bind.
  - generalize (z_new (max_zstd_window_bytes limits)) ([] : bytes).
    induction (chunks_of 64 source) as [|c cs IH]; intros z e; [done|]. cbn [decompress_loop].
    apply raises_bind; [done|intros [chunk z'] _]. apply raises_bind; [done|intros e' _].
    destruct (z_eof z'); [done|apply IH].
  - intros [[z expanded] rest] _. apply raises_bind; [apply raises_guard|intros _ _].
    apply raises_bind; [done|intros f _]. apply raises_bind; [done|intros x _].
    apply raises_bind; [apply raises_guard|done].
Qed.
End inspect.

(** ** What an archive decompresses to *)

Section stream.
Context `{ZS : !Zstd}.

(** The decompressor, fed the bytes of [source] in chunks, one after another, gives [out]. *)
Inductive decompresses : zstate → bytes → bytes → zstate → Prop :=
  | decompresses_end z : decompresses z [] [] z
  | decompresses_chunk z chunk out z1 source rest z2 :
      z_decompress z chunk = Ok (out, z1) → decompresses z1 source rest z2 →
      decompresses z (chunk ++ source) (out ++ rest) z2.

(** All of [source] is one complete stream, of an accepted window, and [expanded] is its
    content. *)
Definition expands (window : Z) (source expanded : bytes) : Prop :=
  ∃ advertised z out final, z_window (take 18 source) = Ok advertised ∧ advertised <= window ∧
    decompresses (z_new window) source out z ∧ z_eof z = true ∧ z_unused z = [] ∧
    z_flush z = Ok final ∧ expanded = out ++ final.

Lemma write_chunk_Ok (advertised : Z) (expanded chunk expanded' : bytes) :
  write_chunk advertised expanded chunk = Ok expanded' → expanded' = expanded ++ chunk.
Proof. unfold write_chunk. rewrite guard_Ok. by intros [_ [= <-]]. Qed.

Lemma decompress_loop_Ok (advertised : Z) (chunks : list bytes) : ∀ z expanded z' expanded' rest,
  decompress_loop advertised z expanded chunks = Ok (z', expanded', rest) →
  ∃ fed out, chunks = fed ++ rest ∧ decompresses z (concat fed) out z' ∧ expanded' = expanded ++ out.
Proof.
  induction chunks as [|chunk chunks IH]; intros z expanded z' expanded' rest; cbn [decompress_loop].
  { intros [= <- <- <-]. exists [], []. split_and!; [done|constructor|by rewrite app_nil_r]. }
  intros H. apply bind_Ok in H as ([out z1] & Hz & H). apply bind_Ok in H as (e1 & ->%write_chunk_Ok & H).
  destruct (z_eof z1).
  - injection H as <- <- <-. exists [chunk], out. split_and!; [done| |done]. cbn [concat].
    rewrite <-(app_nil_r out). by econstructor; [|constructor].
  - apply IH in H as (fed & out' & -> & Hd & ->). exists (chunk :: fed), (out ++ out').
    split_and!; [done| |by rewrite (assoc_L (++))]. cbn [concat]. by econstructor.
Qed.

Lemma decompress_archive_Ok `{SH : !Sha256} (source expanded : bytes) (limits : ArchiveLimits) (advertised : Z) :
  decompress_archive source limits advertised = Ok expanded → expands (max_zstd_window_bytes limits) source expanded.
Proof.
  unfold decompress_archive. rewrite as_archive_error_Ok. intros H. apply bind_Ok in H as (w & Hw & H).
  apply guard_Ok in H as [Hle%Z.ltb_ge H]. apply bind_Ok in H as ([[z e] rest] & Hloop & H).
  apply guard_Ok in H as [Htrail H]. apply bind_Ok in H as (final & Hf & H). apply bind_Ok in H as (e' & ->%write_chunk_Ok & H).
  apply guard_Ok in H as [Heof%negb_false_iff [= <-]]. rewrite Heof in Htrail. cbn [andb] in Htrail.
  apply orb_false_iff in Htrail as [Hun%negb_false_iff%bool_decide_eq_true_1 ->%negb_false_iff%bool_decide_eq_true_1].
  apply decompress_loop_Ok in Hloop as (fed & out & Hchunks & Hd & ->). rewrite app_nil_r in Hchunks.
  rewrite <-Hchunks, concat_chunks_of in Hd by lia. exists w, z, out, final. by rewrite app_nil_l.
Qed.
End stream.

(** ** Theorems *)

Lemma extract_archive_Ok `{UD : !UnicodeData, SH : !Sha256, ZS : !Zstd, TR : !Tar} (umask : Z)
    (content : option bytes) (ref : ArtifactRef) (limits : ArchiveLimits) (scratch : bool)
    (left_there : option node) (report : ExtractionReport) :
  check_archive_limits limits = Ok () →
  extract_archive umask content ref None limits scratch = (left_there, Ok report) →
  ∃ archive expanded members tree,
    content = Some archive ∧ left_there = Some tree ∧
    hexdigest (sha256 archive) = ar_sha256 ref ∧ zlen archive = ar_compressed_size ref ∧
    expands (max_zstd_window_bytes limits) archive expanded ∧
    zlen expanded = ar_expanded_size ref ∧ tar_read expanded = (members, None) ∧
    xr_entries report = map ti_name members ∧ NoDup (xr_entries report) ∧
    zlen members <= max_archive_entries limits ∧ Forall (member_safe limits) members ∧
    xr_file_bytes report <= max_expanded_bytes limits ∧ is_dir tree = true ∧
    ∀ p x, is_dir x = false →
      fs_lookup tree p = Some x ↔ ∃ m, m ∈ members ∧ member_leaves m p x.
Proof.
  intros Hlim%raise_if_Ok. unfold extract_archive.
  destruct (raise_if (negb scratch) _ _ ≫= _) as [[[expanded members] fb]|e] eqn:Hread; [|done].
  rewrite guard_Ok, seq_Ok in Hread. destruct Hread as (_ & Hver & Hread).
  apply bind_Ok in Hread as (ex & Hex & Hread). apply decompress_archive_Ok in Hex. apply guard_Ok in Hread as [Hsz Hread].
  rewrite as_archive_error_Ok in Hread. apply bind_Ok in Hread as ([ms b] & Hins & [= -> -> ->]).
  apply inspect_members_Ok in Hins as (Htar & Hsafe & Hnd & -> & Hmax & Hbmax).
  destruct (as_archive_error _ _ (extract_members _ _ _)) as [tree|e] eqn:Hext; [|done].
  intros [= <- <-]. rewrite as_archive_error_Ok in Hext. apply extract_members_Ok in Hext as [Hd Hf].
  unfold verify_archive_file in Hver. apply guard_Ok in Hver as [_ Hver].
  destruct content as [archive|]; [|done]. rewrite !guard_Ok, raise_if_Ok in Hver.
  destruct Hver as (Hcs & _ & Hsha). bool_simpl.
  assert (Hpos : 0 <= max_expanded_bytes limits ∧ 0 <= max_archive_entries limits).
  { simpl in Hlim. rewrite !orb_false_iff, !Z.leb_gt in Hlim. lia. }
  exists archive, expanded, members, tree. split_and!; try done; try tauto.
  - by apply paths_of_names.
  - intros p x Hx. rewrite Hf by done. split; [|tauto]. intros [Hl|?]; [|done].
    destruct p; simpl in Hl; [|done]. by injection Hl as <-.
Qed.

(** C13 (safety): when an extraction succeeds, the bytes it read are the ones the
    reference names (digest and size), all of them are one complete stream that the
    decompressor, fed one piece after another, expands to a tar payload of the advertised
    size, and the destination holds exactly the files of the tar payload, with their declared
    sizes and mode 0o755 or 0o644 and a single link, at distinct, normalized,
    relative paths; there is no symbolic link or special file, and the limits of
    entries, path length, file size and total size hold. *)
Theorem extraction_faithful `{UD : !UnicodeData, SH : !Sha256, ZS : !Zstd, TR : !Tar} (umask : Z)
    (content : option bytes) (ref : ArtifactRef) (limits : ArchiveLimits) (scratch : bool)
    (left_there : option node) (report : ExtractionReport) :
  check_archive_limits limits = Ok () →
  extract_archive umask content ref None limits scratch = (left_there, Ok report) →
  ∃ archive expanded members tree,
    content = Some archive ∧ left_there = Some tree ∧
    hexdigest (sha256 archive) = ar_sha256 ref ∧ zlen archive = ar_compressed_size ref ∧
    expands (max_zstd_window_bytes limits) archive expanded ∧
    zlen expanded = ar_expanded_size ref ∧ tar_read expanded = (members, None) ∧
    xr_entries report = map ti_name members ∧ NoDup (xr_entries report) ∧
    zlen members <= max_archive_entries limits ∧ Forall (member_safe limits) members ∧
    xr_file_bytes report <= max_expanded_bytes limits ∧ is_dir tree = true ∧
    ∀ p x, is_dir x = false →
      fs_lookup tree p = Some x ↔ ∃ m, m ∈ members ∧ member_leaves m p x.
Proof. apply extract_archive_Ok. Qed.

(** (error, atomic): an extraction that fails raises [ArchiveError], whatever the
    archive contains, and leaves the destination as it was, provided the
    decompressor and the tar reader raise only their documented exceptions. *)
Theorem extraction_atomic `{UD : !UnicodeData, SH : !Sha256, ZS : !Zstd, TR : !Tar} (umask : Z)
    (content : option bytes) (ref : ArtifactRef) (destination left_there : option node)
    (limits : ArchiveLimits) (scratch : bool) (e : exn) :
  (∀ b, raises_only zstd_error (z_window b)) →
  (∀ z b, raises_only zstd_error (z_decompress z b)) →
  (∀ z, raises_only zstd_error (z_flush z)) →
  (∀ data members tail, tar_read data = (members, tail) →
     (∀ m, m ∈ members → wf_str (ti_name m) = true ∧ raises_only tar_error (ti_content m)) ∧
     (∀ e, tail = Some e → tar_error (exn_cls e) = true)) →
  extract_archive umask content ref destination limits scratch = (left_there, Raise e) →
  exn_cls e = ArchiveError ∧ left_there = destination.
Proof.
  intros Hwin Hdec Hflush Htar. unfold extract_archive. destruct destination as [d|].
  { by intros [= <- <-]. }
  assert (Hfirst : raises_only (λ _, false)
    (raise_if (negb scratch) ArchiveError "archive scratch directory is unavailable";;
     verify_archive_file content ref limits;;
     expanded ← decompress_archive (default [] content) limits (ar_expanded_size ref);
     raise_if (negb (zlen expanded =? ar_expanded_size ref)) ArchiveError
       "expanded archive size does not match its reference";;
     as_archive_error tar_error "archive tar payload is invalid"
       ('(members, file_bytes) ← inspect_members (tar_read expanded) limits;
        mret (expanded, members, file_bytes)))).
  { apply raises_bind; [apply raises_guard|intros _ _]. apply raises_bind.
    { unfold verify_archive_file. apply raises_bind; [apply raises_guard|intros _ _].
      destruct content; [|by left]. repeat (apply raises_bind; [apply raises_guard|intros _ _]).
      apply raises_guard. }
    intros _ _. apply raises_bind; [by apply decompress_raises|].
    intros expanded _. apply raises_bind; [apply raises_guard|intros _ _].
    apply (raises_handler tar_error). destruct (tar_read expanded) as [ms tail] eqn:Hr.
    destruct (Htar _ _ _ Hr) as [Hms Htl].
    apply raises_bind; [|by intros [??] _]. apply inspect_members_raises; [|done].
    intros m Hm. by apply Hms. }
  destruct (raise_if (negb scratch) _ _ ≫= _) as [[[expanded members] fb]|e'] eqn:Hread.
  - assert (Hms : ∀ m, m ∈ members → raises_only tar_error (ti_content m)).
    { rewrite guard_Ok, seq_Ok in Hread. destruct Hread as (_ & _ & Hread).
      apply bind_Ok in Hread as (ex & _ & Hread). apply guard_Ok in Hread as [_ Hread].
      rewrite as_archive_error_Ok in Hread. apply bind_Ok in Hread as ([ms b] & Hins & [= -> -> ->]).
      apply inspect_members_Ok in Hins as (Hr & _). intros m Hm. by apply (Htar _ _ _ Hr). }
    pose proof (raises_handler tar_error (λ _, false) "archive tar payload is invalid" _
      (extract_members_raises umask (NDir (masked umask 448) []) members Hms)) as Hx.
    destruct (as_archive_error _ _ (extract_members _ _ _)); intros [= <- <-].
    split; [|done]. by destruct Hx.
  - intros [= <- <-]. split; [|done]. by destruct Hfirst.
Qed.

(** ** Witnesses *)

(** A decompressor that stores, a tar reader that knows one archive. *)
Definition store_zstd : Zstd :=
  {| zstate := bool; z_window := λ _, Ok 8; z_new := λ _, false;
     z_decompress := λ _ c, Ok (c, true); z_eof := λ z, z; z_unused := λ _, [];
     z_flush := λ _, Ok [] |}.

Definition hello : TarInfo :=
  {| ti_name := ustr "src/hello.sh"; ti_type := member_file; ti_sparse := false; ti_size := 2;
     ti_mode := 64; ti_content := Ok (bstr "ls") |}.
Definition folder : TarInfo :=
  {| ti_name := ustr "src"; ti_type := member_dir; ti_sparse := false; ti_size := 0;
     ti_mode := 0; ti_content := Ok [] |}.
Definition one_tar : Tar := {| tar_read := λ _, ([hello; folder], None) |}.

Definition sample_archive_limits : ArchiveLimits :=
  {| max_compressed_bytes := 100; max_expanded_bytes := 100; max_file_bytes := 10;
     max_archive_entries := 4; max_archive_path_bytes := 20; max_zstd_window_bytes := 8 |}.

Definition sample_ref : ArtifactRef :=
  {| ar_role := role_verifier; ar_sha256 := hexdigest (bstr "abc"); ar_compressed_size := 3;
     ar_expanded_size := 3 |}.

Definition extracted : option node * result ExtractionReport :=
  extract_archive (H := ascii_unicode) (H0 := sha_id) (H1 := store_zstd) (H2 := one_tar) 18
    (Some (bstr "abc")) sample_ref None sample_archive_limits true.

Lemma extraction_faithful_witness :
  ∃ tree, extracted.1 = Some tree ∧
    fs_lookup tree [ustr "src"; ustr "hello.sh"] = Some (NFile 493 1 (bstr "ls")).
Proof.
  destruct (extraction_faithful (UD := ascii_unicode) (SH := sha_id) (ZS := store_zstd) (TR := one_tar)
    18 (Some (bstr "abc")) sample_ref sample_archive_limits true extracted.1
    {| xr_entries := [ustr "src/hello.sh"; ustr "src"]; xr_expanded_bytes := 3; xr_file_bytes := 2 |})
    as (archive & expanded & members & tree & _ & Htree & _ & _ & _ & _ & Htar & _ & _ & _ & _ & _ & _ & Hf).
  - reflexivity.
  - vm_compute. reflexivity.
  - exists tree. split; [done|]. apply Hf; [done|]. exists hello. injection Htar as <-.
    split; [by left|]. exists (bstr "ls"). split_and!; [done|done|vm_compute; reflexivity..].
Defined.

Lemma extraction_atomic_witness :
  let outcome := extract_archive (H := ascii_unicode) (H0 := sha_id) (H1 := store_zstd)
    (H2 := one_tar) 18 (Some (bstr "abd")) sample_ref None sample_archive_limits true in
  outcome.1 = None.
Proof.
  intros outcome.
  apply (extraction_atomic (UD := ascii_unicode) (SH := sha_id) (ZS := store_zstd) (TR := one_tar)
    18 (Some (bstr "abd")) sample_ref None outcome.1 sample_archive_limits true
    (Exn ArchiveError (ustr "archive digest does not match its reference"))).
  - by intros b.
  - by intros z b.
  - by intros z.
  - intros data members tail [= <- <-]. split; [|done].
    intros m Hm. repeat (apply elem_of_cons in Hm as [->|Hm]; [split; [vm_compute; reflexivity|done]|]).
    by apply not_elem_of_nil in Hm.
  - vm_compute. reflexivity.
Defined.
