(* ===== verification/Workspace.v ===== *)
(** * The workspace cache and its copies ([src/rlvr/v3/workspace.py])

    The cache directory is the map from the names in it to what is there; a
    workspace is cached under the digest of its archive.  The staging directory of
    an extraction never survives a call of [ensure_cached_workspace] that returns, so it is
    not part of the map.  A link counts as existing when it leads to a directory. *)

From S2P Require Import Prelude PyFloat Text Json JsonSpec Canonical CanonicalSpec Wire Identity Api FileSystem Archive ArchiveSpec.

Local Open Scope Z_scope.

Definition cached_workspace_dir (ref : ArtifactRef) : pystr := ar_sha256 ref.

(** [_trusted_directory] and [Path.exists] of what [lstat] finds. *)
Definition trusted_directory (n : option node) : bool :=
  match n with Some (NDir _ _) => true | _ => false end.

Definition path_exists (n : option node) : bool :=
  match n with Some (NLink to_dir) => to_dir | Some _ => true | None => false end.

Section ensure.
Context `{!UnicodeData, !Sha256, !Zstd, !Tar}.
Context (umask : Z).

(** The cache after the call, and the name of the cached workspace. *)
Definition ensure_cached_workspace (cache_ok scratch_ok : bool) (cache : gmap pystr node)
    (archive : option bytes) (ref : ArtifactRef) (limits : ArchiveLimits)
    : gmap pystr node * result pystr :=
  if negb cache_ok || negb scratch_ok then
    (cache, raise WorkspaceError "workspace directories are unavailable")
  else
    let target := cached_workspace_dir ref in
    if path_exists (cache !! target) then
      (cache, if trusted_directory (cache !! target) then Ok target
              else raise WorkspaceError "cached workspace is invalid")
    else
      let failed :=
        (cache, if trusted_directory (cache !! target) then Ok target
                else raise WorkspaceError "workspace could not be cached") in
      match extract_archive umask archive ref None limits scratch_ok with
      | (Some staging, Ok _) =>
          (* [os.replace] of a directory over a link fails *)
          if bool_decide (cache !! target = None) then (<[target := staging]> cache, Ok target)
          else failed
      | (_, Raise e) =>
          if bool_decide (exn_cls e = ArchiveError) || os_error (exn_cls e) then failed
          else (cache, Raise e)
      | (None, Ok _) => failed
      end.
End ensure.

(** ** Copies

    The tree belongs to the process that copies it, so the owner's bits of a mode say what
    it may do, unless it is privileged ([superuser]). *)

Definition IRUSR : Z := 256.

(** Opening a file; listing a directory, with an [lstat] of what is in it. *)
Definition may_read (superuser : bool) (mode : Z) : bool := superuser || negb (Z.land mode IRUSR =? 0).

Definition may_list (superuser : bool) (mode : Z) (children : list (pystr * node)) : bool :=
  may_read superuser mode &&
  (superuser || bool_decide (children = []) || negb (Z.land mode IXUSR =? 0)).

Definition permission_denied : exn := Exn OSError (ustr "Permission denied").

(** One entry of [_copy_tree], with what is below it. *)
Fixpoint copy_entry (superuser : bool) (n : node) : result node :=
  match n with
  | NDir mode children =>
      _ ← (if may_list superuser mode children then Ok () else Raise permission_denied);
      NDir 493 <$> mapM (λ '(name, c), c' ← copy_entry superuser c; mret (name, c')) children
  | NFile mode nlink content =>
      raise_if (negb (nlink =? 1)) WorkspaceError "cached workspace contains an unsafe entry";;
      _ ← (if may_read superuser mode then Ok () else Raise permission_denied);
      mret (NFile (if negb (Z.land mode IXUSR =? 0) then 493 else 420) 1 content)
  | _ => raise WorkspaceError "cached workspace contains an unsafe entry"
  end.

(** [fault]: what becomes of the calls of the copy for reasons other than permissions, as a
    full disk.  [target]: what is at the destination before; on failure nothing is left there
    that was not before. *)
Definition materialize_workspace (superuser : bool) (fault : result unit) (cached : option node) (parent_ok : bool)
    (target : option node) : result node :=
  raise_if (negb (trusted_directory cached)) WorkspaceError "cached workspace is unavailable";;
  raise_if (negb parent_ok) WorkspaceError "workspace parent is unavailable";;
  raise_if (bool_decide (is_Some target)) WorkspaceError "workspace destination already exists";;
  catch (fault;; copy_entry superuser (default NOther cached)) os_error
    (λ _, raise WorkspaceError "workspace could not be materialized").

(** ** Properties *)

(** Only directories and plain files. *)
Fixpoint plain_tree (n : node) : bool :=
  match n with
  | NDir _ children => forallb (λ nc, plain_tree nc.2) children
  | n => is_plain_file n
  end.

(** Every directory may be listed, every file may be read. *)
Fixpoint readable_tree (superuser : bool) (n : node) : bool :=
  match n with
  | NDir mode children => may_list superuser mode children && forallb (λ nc, readable_tree superuser nc.2) children
  | NFile mode _ _ => may_read superuser mode
  | _ => true
  end.

Lemma allowed_Ok (b : bool) (u : unit) : (if b then Ok () else Raise permission_denied) = Ok u ↔ b = true.
Proof. destruct b, u; naive_solver. Qed.

Lemma copy_entry_spec (superuser : bool) (n t : node) :
  copy_entry superuser n = Ok t ↔ plain_tree n = true ∧ readable_tree superuser n = true ∧ t = normalize_modes n.
Proof.
  revert t. induction n as [m k c|m ch IH|b|] using node_nested_ind; intros t;
    cbn [copy_entry plain_tree readable_tree normalize_modes is_plain_file].
  - rewrite guard_Ok, negb_false_iff, bind_Ok. setoid_rewrite allowed_Ok. split.
    + intros (Hk & _ & Hr & [= <-]). split_and!; [done|done|]. apply Z.eqb_eq in Hk. by subst.
    + intros (Hk & Hr & ->). split; [done|]. exists (). split; [done|]. apply Z.eqb_eq in Hk. by subst.
  - rewrite bind_Ok. setoid_rewrite allowed_Ok. setoid_rewrite fmap_Ok. setoid_rewrite mapM_Ok. rewrite andb_true_iff.
    assert (Hch : ∀ l, Forall2 (λ x y, (let '(name, c) := x in c' ← copy_entry superuser c; mret (name, c')) = Ok y) ch l
      ↔ forallb (λ nc, plain_tree nc.2) ch = true ∧ forallb (λ nc, readable_tree superuser nc.2) ch = true ∧
        l = map (λ '(name, c), (name, normalize_modes c)) ch).
    { clear -IH. induction IH as [|[name c] ch Hc Hch IH']; intros l; simpl.
      - split; [by inversion 1|intros (_ & _ & ->); constructor].
      - rewrite !andb_true_iff. split.
        + inversion 1 as [|? y ? l' Hy Hl]; subst. apply IH' in Hl as (? & ? & ->).
          apply bind_Ok in Hy as (c' & (? & ? & ->)%Hc & [= <-]). done.
        + intros ([Hp Hall] & [Hr Hrs] & ->). constructor; [|by apply IH'].
          apply bind_Ok. eexists. split; [by apply Hc|done]. }
    setoid_rewrite Hch. split; [naive_solver|]. intros (Hp & [Hl Hr] & ->). exists (). eauto 10.
  - split; [done|naive_solver].
  - split; [done|naive_solver].
Qed.

(** A copy fails because of an entry of another kind, or of a permission. *)
Lemma copy_entry_Raise (superuser : bool) (n : node) (e : exn) :
  copy_entry superuser n = Raise e → exn_cls e = WorkspaceError ∨ exn_cls e = OSError.
Proof.
  induction n as [m k c|m ch IH|b|] using node_nested_ind; cbn [copy_entry].
  - destruct (k =? 1); cbn [negb raise_if mbind result_bind]; [|intros [= <-]; by left].
    destruct (may_read superuser m); cbn [mbind result_bind]; [done|]. intros [= <-]. by right.
  - destruct (may_list superuser m ch); cbn [mbind result_bind]; [|intros [= <-]; by right]. intros H.
    assert (Hm : mapM (λ '(name, c), c' ← copy_entry superuser c; mret (name, c')) ch = Raise e) by (destruct (mapM _ ch); [done|by injection H as ->]).
    clear -IH Hm. induction IH as [|[name c] ch Hc _ IH']; [done|]. cbn [mapM snd] in *.
    destruct (copy_entry superuser c) as [c'|e']; [|injection Hm as ->; by apply Hc]. cbn [mbind result_bind mret result_ret] in Hm.
    destruct (mapM _ ch) as [l|e']; [done|]. apply IH'. exact Hm.
  - intros [= <-]. by left.
  - intros [= <-]. by left.
Qed.

(** What [materialize_workspace] gives, whether or not a call fails. *)
Lemma materialize_Ok (superuser : bool) (fault : result unit) (cached target : option node) (parent_ok : bool) (t : node) :
  materialize_workspace superuser fault cached parent_ok target = Ok t ↔
  ∃ m ch, fault = Ok () ∧ cached = Some (NDir m ch) ∧ parent_ok = true ∧ target = None ∧
    plain_tree (NDir m ch) = true ∧ readable_tree superuser (NDir m ch) = true ∧ t = normalize_modes (NDir m ch).
Proof.
  unfold materialize_workspace. rewrite !guard_Ok, !negb_false_iff, bool_decide_eq_false, <-eq_None_not_Some.
  assert (Hcatch : catch (fault;; copy_entry superuser (default NOther cached)) os_error
      (λ _, raise WorkspaceError "workspace could not be materialized") = Ok t ↔
    fault = Ok () ∧ copy_entry superuser (default NOther cached) = Ok t).
  { destruct fault as [[]|e]; cbn [mbind result_bind catch]; [|destruct (os_error _); naive_solver].
    destruct (copy_entry _ _) as [t'|e]; cbn [catch]; [naive_solver|]. destruct (os_error _); naive_solver. }
  rewrite Hcatch, copy_entry_spec. unfold trusted_directory. destruct cached as [[]|]; naive_solver.
Qed.

(** C26 (equivalence): materializing a cached workspace succeeds exactly when the
    cached tree is a directory of directories and plain files which the process may list
    and read, its destination is free, its parent is a directory and no call fails; the copy
    then has the names, the kinds and the contents of the cached tree with normalized
    modes. Every failure is a [WorkspaceError], that of a permission or of a call too. *)
Theorem materialize_spec (superuser : bool) (fault : result unit) (cached target : option node) (parent_ok : bool) (t : node) :
  (materialize_workspace superuser fault cached parent_ok target = Ok t ↔
   ∃ m ch, fault = Ok () ∧ cached = Some (NDir m ch) ∧ parent_ok = true ∧ target = None ∧
     plain_tree (NDir m ch) = true ∧ readable_tree superuser (NDir m ch) = true ∧ t = normalize_modes (NDir m ch)) ∧
  ((∀ e, fault = Raise e → os_error (exn_cls e) = true) →
   ∀ e, materialize_workspace superuser fault cached parent_ok target = Raise e → exn_cls e = WorkspaceError).
Proof.
  split; [apply materialize_Ok|]. intros Hfault e. unfold materialize_workspace.
  destruct (trusted_directory cached); cbn [negb raise_if mbind result_bind]; [|by intros [= <-]].
  destruct parent_ok; cbn [negb raise_if mbind result_bind]; [|by intros [= <-]].
  destruct (bool_decide (is_Some target)); cbn [negb raise_if mbind result_bind]; [by intros [= <-]|].
  destruct fault as [[]|e']; cbn [mbind result_bind catch].
  - destruct (copy_entry superuser _) as [t'|e'] eqn:Hc; [done|]. cbn [catch].
    apply copy_entry_Raise in Hc as [Hc|Hc]; rewrite Hc; cbn [os_error]; [by intros [= <-]|by intros [= <-]].
  - rewrite (Hfault e' eq_refl). by intros [= <-].
Qed.

Section authentic.
Context `{UD : !UnicodeData, SH : !Sha256, ZS : !Zstd, TR : !Tar}.
Context (umask : Z).

(** Every workspace in the cache was extracted from an archive with the digest it
    is named after. *)
Definition authentic (cache : gmap pystr node) : Prop :=
  ∀ name d, cache !! name = Some d → trusted_directory (Some d) = true →
    ∃ archive ref limits report,
      ar_sha256 ref = name ∧ hexdigest (sha256 archive) = name ∧
      extract_archive umask (Some archive) ref None limits true = (Some d, Ok report).
End authentic.

(** (invariant): the cache stays content addressed.  The call only ever adds the
    requested workspace, never replaces one, and when it succeeds the workspace it
    names is there and was extracted from an archive with that very digest. *)
Theorem cache_authentic `{UD : !UnicodeData, SH : !Sha256, ZS : !Zstd, TR : !Tar} (umask : Z)
    (cache_ok scratch_ok : bool) (cache cache' : gmap pystr node) (archive : option bytes)
    (ref : ArtifactRef) (limits : ArchiveLimits) (r : result pystr) :
  check_archive_limits limits = Ok () →
  authentic umask cache →
  ensure_cached_workspace umask cache_ok scratch_ok cache archive ref limits = (cache', r) →
  authentic umask cache' ∧ cache ⊆ cache' ∧
  (∀ name, name ≠ ar_sha256 ref → cache' !! name = cache !! name) ∧
  (∀ name, r = Ok name → name = ar_sha256 ref ∧ trusted_directory (cache' !! name) = true).
Proof.
  intros Hlim Hauth. unfold ensure_cached_workspace, cached_workspace_dir.
  assert (Hkeep : ∀ q : result pystr, (∀ name, q = Ok name → name = ar_sha256 ref ∧
      trusted_directory (cache !! name) = true) → (cache, q) = (cache', r) →
    authentic umask cache' ∧ cache ⊆ cache' ∧
    (∀ name, name ≠ ar_sha256 ref → cache' !! name = cache !! name) ∧
    (∀ name, r = Ok name → name = ar_sha256 ref ∧ trusted_directory (cache' !! name) = true)).
  { by intros q Hq [= <- <-]. }
  assert (Htr : ∀ (msg : string) (name : pystr),
    (if trusted_directory (cache !! ar_sha256 ref) then Ok (ar_sha256 ref)
     else raise WorkspaceError msg) = Ok name →
    name = ar_sha256 ref ∧ trusted_directory (cache !! name) = true).
  { intros msg name. destruct (trusted_directory _) eqn:Ht; [|done]. by intros [= <-]. }
  destruct (negb cache_ok || negb scratch_ok) eqn:Hok; [by apply Hkeep|].
  apply orb_false_iff in Hok as [_ ->%negb_false_iff].
  destruct (path_exists _); [apply Hkeep, Htr|].
  destruct (extract_archive _ _ _ _ _ _) as [[staging|] [report|e]] eqn:Hx;
    try (destruct (bool_decide _ || _); [apply Hkeep, Htr|by apply Hkeep]); [|apply Hkeep, Htr].
  case_bool_decide as Hnone; [|apply Hkeep, Htr]. intros [= <- <-]. split_and!.
  - pose proof (extract_archive_Ok _ _ _ _ _ _ _ Hlim Hx) as
      (raw & expanded & members & tree & -> & [= ->] & Hsha & _).
    intros name d. destruct (decide (name = ar_sha256 ref)) as [->|Hne].
    + rewrite lookup_insert_eq. intros [= ->] _. by exists raw, ref, limits, report.
    + rewrite lookup_insert_ne by done. apply Hauth.
  - by apply insert_subseteq.
  - intros name Hne. by rewrite lookup_insert_ne.
  - intros name [= <-]. split; [done|]. rewrite lookup_insert_eq.
    pose proof (extract_archive_Ok _ _ _ _ _ _ _ Hlim Hx) as
      (raw & expanded & members & tree & -> & [= ->] & Hrest).
    by destruct Hrest as (_ & _ & _ & _ & _ & _ & _ & _ & _ & _ & Hd & _), tree.
Qed.

(** ** Witnesses *)

(** A file that its owner may not read. *)
Lemma materialize_spec_witness :
  let tree mode := NDir 493 [(ustr "a", NFile 420 1 (bstr "x")); (ustr "b", NFile mode 1 (bstr "y"))] in
  materialize_workspace false (Ok ()) (Some (tree 256)) true None
    = Ok (NDir 493 [(ustr "a", NFile 420 1 (bstr "x")); (ustr "b", NFile 420 1 (bstr "y"))]) ∧
  ∀ e, materialize_workspace false (Ok ()) (Some (tree 0)) true None = Raise e → exn_cls e = WorkspaceError.
Proof.
  intros tree. split.
  - apply (materialize_spec false (Ok ()) (Some (tree 256)) None true). eexists _, _. by repeat split.
  - apply (materialize_spec false (Ok ()) (Some (tree 0)) None true NOther). done.
Defined.

Lemma cache_authentic_witness :
  let after := ensure_cached_workspace (H := ascii_unicode) (H0 := sha_id) (H1 := store_zstd)
    (H2 := one_tar) 18 true true ∅ (Some (bstr "abc")) sample_ref sample_archive_limits in
  trusted_directory (after.1 !! ar_sha256 sample_ref) = true.
Proof.
  intros after.
  apply (cache_authentic (UD := ascii_unicode) (SH := sha_id) (ZS := store_zstd) (TR := one_tar) 18
    true true ∅ after.1 (Some (bstr "abc")) sample_ref sample_archive_limits
    (Ok (ar_sha256 sample_ref))); [reflexivity| |vm_compute; reflexivity|reflexivity].
  intros name d. by rewrite lookup_empty.
Defined.
