(* ===== verification/Download.v ===== *)
(** * Authenticated downloads ([src/rlvr/v3/download.py], [src/rlvr/v3/submission.py])

    The HTTP client is a function from URLs to responses; a response has its status,
    the two headers the code reads, the raw chunks, and the exception that ends the
    stream, if any.  Parsing a URL is the class [UrlParser] ([httpx.URL]).  A download
    returns the content left at its destination; a failed one leaves nothing there. *)

From S2P Require Import Prelude PyFloat Text Json JsonSpec Canonical CanonicalSpec Wire Identity Api Codecs Archive.

Local Open Scope Z_scope.

Record URL := {
  url_scheme : pystr;
  url_raw_host : bytes;
  url_userinfo : bytes;
  url_port : option Z;
  url_fragment : pystr
}.

(** [None]: [httpx.InvalidURL]. *)
Class UrlParser := { parse_url : pystr → option URL }.

Record HttpResponse := {
  status_code : Z;
  content_encoding : option pystr;
  content_length : option pystr;
  raw_chunks : list bytes;
  stream_error : option exn
}.

(** [s.lower()], on the ASCII letters: no other character lowers to one of the
    letters the code compares with. *)
Definition ascii_lower (s : pystr) : pystr :=
  map (λ c, if in_range 65 90 c then (c + 32)%N else c) s.

(** [raw.decode("ascii")] *)
Definition ascii_decode (raw : bytes) : result pystr :=
  if forallb (λ b, (N_of_ascii b <? 128)%N) raw then Ok (map N_of_ascii raw)
  else raise UnicodeDecodeError "ordinal not in range(128)".

Definition normalize_https_origin `{!UrlParser} (url : pystr) : result pystr :=
  catch
    (match parse_url url with
     | None => raise ValueError "InvalidURL"
     | Some parsed =>
         raise_if (negb (bool_decide (url_scheme parsed = ustr "https"))
                   || bool_decide (url_raw_host parsed = [])
                   || negb (bool_decide (url_userinfo parsed = []))
                   || negb (bool_decide (url_fragment parsed = []))) ValueError "";;
         host ← ascii_decode (url_raw_host parsed);
         let port := match url_port parsed with None | Some 0 => 443 | Some p => p end in
         mret (ustr "https://" ++ ascii_lower host ++ ustr ":" ++ str_of_int port)
     end)
    is_value_error (λ _, raise ArtifactDownloadError "artifact URL is invalid").

(** The loop over the raw chunks: the bytes written so far. *)
Fixpoint receive (size_bytes : Z) (output : bytes) (chunks : list bytes) : result bytes :=
  match chunks with
  | [] => Ok output
  | chunk :: chunks' =>
      raise_if (size_bytes <? zlen output + zlen chunk) ArtifactDownloadError
        "artifact response is too large";;
      receive size_bytes (output ++ chunk) chunks'
  end.

(** [except ArtifactDownloadError: raise], [except (OSError, httpx.HTTPError, ValueError)] *)
Definition download_caught (c : exn_class) : bool :=
  bool_decide (c = OSError) || bool_decide (c = HTTPError) || is_value_error c.

Section download.
Context `{!UrlParser, !Sha256}.
Context (http : pystr → result HttpResponse).

Definition check_headers (size_bytes : Z) (response : HttpResponse) : result unit :=
  raise_if (negb (status_code response =? 200)) ArtifactDownloadError "artifact request failed";;
  raise_if
    (match content_encoding response with
     | Some encoding => negb (bool_decide (ascii_lower (strip py_isspace encoding) = ustr "identity"))
     | None => false
     end) ArtifactDownloadError "artifact response encoding is not supported";;
  match content_length response with
  | Some text =>
      raise_if (bool_decide (text = []) || negb (forallb is_digit text)) ArtifactDownloadError
        "artifact response length is invalid";;
      length ← int_of_digits text;
      raise_if (negb (length =? size_bytes)) ArtifactDownloadError
        "artifact response length does not match"
  | None => Ok ()
  end.

Definition download_object (url sha256_hex : pystr) (size_bytes max_bytes : Z)
    (destination_exists : bool) (allowed_origins : gset pystr) : result bytes :=
  catch
    (raise_if (size_bytes <? 0) ArtifactDownloadError "artifact size is invalid";;
     raise_if (max_bytes <=? 0) ArtifactDownloadError "artifact download limit is invalid";;
     raise_if (max_bytes <? size_bytes) ArtifactDownloadError "artifact exceeds the download limit";;
     origin ← normalize_https_origin url;
     raise_if (negb (bool_decide (origin ∈ allowed_origins))) ArtifactDownloadError
       "artifact origin is not allowed";;
     raise_if destination_exists ArtifactDownloadError "artifact destination already exists";;
     response ← http url;
     check_headers size_bytes response;;
     output ← receive size_bytes [] (raw_chunks response);
     (match stream_error response with Some e => Raise e | None => Ok () end);;
     raise_if (negb (zlen output =? size_bytes)) ArtifactDownloadError
       "artifact response is truncated";;
     raise_if (negb (bool_decide (hexdigest (sha256 output) = sha256_hex))) ArtifactDownloadError
       "artifact digest does not match";;
     mret output)
    download_caught (λ _, raise ArtifactDownloadError "artifact download failed").

(** The artifact format of an [ArtifactRef] has only one value. *)
Definition download_artifact (url : pystr) (ref : ArtifactRef) (destination_exists : bool)
    (limits : ArchiveLimits) (allowed_origins : gset pystr) : result bytes :=
  download_object url (ar_sha256 ref) (ar_compressed_size ref) (max_compressed_bytes limits)
    destination_exists allowed_origins.

(** ** Submissions (submission.py) *)

Record SubmissionLimits := { limit_patch_bytes : Z; limit_script_bytes : Z }.

Definition check_submission_limits (l : SubmissionLimits) : result unit :=
  raise_if (existsb (λ v, v <=? 0) [limit_patch_bytes l; limit_script_bytes l]) ValueError
    "submission limits must be positive integers".

Record FetchedSubmission := {
  fetched_bytes : bytes;
  artifact_role : UploadRole;
  fetched_format : GrantFormat;
  fetched_size : Z;
  fetched_sha256 : pystr
}.

Definition submission_cap (limits : SubmissionLimits) (format : GrantFormat) : Z :=
  match format with grant_diff => limit_patch_bytes limits | grant_script => limit_script_bytes limits end.

(** [secured]: does the [chmod] succeed? *)
Definition fetch_submission (grant : ArtifactGrant) (destination_exists secured : bool)
    (limits : SubmissionLimits) (allowed_origins : gset pystr) : result FetchedSubmission :=
  content ← download_object (g_read_url grant) (g_sha256 grant) (g_size_bytes grant)
    (submission_cap limits (g_format grant)) destination_exists allowed_origins;
  raise_if (negb secured) ArtifactDownloadError "submission could not be secured";;
  mret {| fetched_bytes := content;
          artifact_role := match g_format grant with grant_diff => role_patch | grant_script => role_script end;
          fetched_format := g_format grant; fetched_size := g_size_bytes grant;
          fetched_sha256 := g_sha256 grant |}.
End download.

(** ** Properties *)

Lemma catch_Ok {A} (m : result A) (p : exn_class → bool) (c : exn_class) (msg : string) (x : A) :
  catch m p (λ _, raise c msg) = Ok x ↔ m = Ok x.
Proof. unfold catch. destruct m; [done|]. destruct (p _); split; done. Qed.

Lemma receive_Ok (size : Z) (output r : bytes) (chunks : list bytes) :
  receive size output chunks = Ok r → r = output ++ concat chunks.
Proof.
  revert output. induction chunks as [|c chunks IH]; intros output; simpl.
  - intros [= <-]. by rewrite app_nil_r.
  - intros [_ Hr]%guard_Ok. apply IH in Hr. by rewrite Hr, <-(assoc_L (++)).
Qed.

Lemma download_object_Ok `{!UrlParser, !Sha256} (http : pystr → result HttpResponse)
    (url digest : pystr) (size max : Z) (there : bool) (origins : gset pystr) (content : bytes) :
  download_object http url digest size max there origins = Ok content →
  ∃ origin response,
    normalize_https_origin url = Ok origin ∧ origin ∈ origins ∧ there = false ∧
    http url = Ok response ∧ status_code response = 200 ∧ stream_error response = None ∧
    content = concat (raw_chunks response) ∧ hexdigest (sha256 content) = digest ∧
    zlen content = size ∧ 0 <= size <= max.
Proof.
  unfold download_object. rewrite catch_Ok, !guard_Ok. intros (Hs & _ & Hm & H1).
  apply bind_Ok in H1 as (origin & Ho & H1). rewrite !guard_Ok in H1.
  destruct H1 as (Hin & Hthere & H1). apply bind_Ok in H1 as (response & Hr & H1).
  rewrite seq_Ok in H1. destruct H1 as (Hhead & H1).
  apply bind_Ok in H1 as (output & Hrec & H1). rewrite seq_Ok, !guard_Ok in H1.
  destruct H1 as (Herr & Hlen & Hsha & [= ->]). apply receive_Ok in Hrec.
  unfold check_headers in Hhead. apply guard_Ok in Hhead as [Hst _]. bool_simpl.
  exists origin, response. split_and!; try done; try lia.
  by destruct (stream_error response).
Qed.

(** (safety): what a download leaves at its destination came in one complete,
    successful HTTPS response from a pinned origin, and has exactly the promised
    size, within the limit, and the promised digest; an existing file is never
    overwritten. *)
Theorem download_authentic `{UP : !UrlParser, SH : !Sha256} (http : pystr → result HttpResponse)
    (grant : ArtifactGrant) (there secured : bool) (limits : SubmissionLimits) (origins : gset pystr)
    (fetched : FetchedSubmission) :
  fetch_submission http grant there secured limits origins = Ok fetched →
  there = false ∧ hexdigest (sha256 (fetched_bytes fetched)) = g_sha256 grant ∧
  zlen (fetched_bytes fetched) = g_size_bytes grant ∧
  g_size_bytes grant <= submission_cap limits (g_format grant) ∧
  ∃ origin response,
    normalize_https_origin (g_read_url grant) = Ok origin ∧ origin ∈ origins ∧
    http (g_read_url grant) = Ok response ∧ status_code response = 200 ∧
    stream_error response = None ∧ fetched_bytes fetched = concat (raw_chunks response).
Proof.
  unfold fetch_submission. intros (content & Hc & H1)%bind_Ok. apply guard_Ok in H1 as [_ [= <-]].
  apply download_object_Ok in Hc as (o & r & Ho & Hin & -> & Hr & Hst & Herr & Hcon & Hsha & Hlen & Hb).
  simpl. split_and!; try done; try lia. by exists o, r.
Qed.

(** ** Witness *)

Definition one_url : UrlParser :=
  {| parse_url := λ _, Some {| url_scheme := ustr "https"; url_raw_host := bstr "A.example";
                               url_userinfo := []; url_port := None; url_fragment := [] |} |}.

Definition two_chunks (url : pystr) : result HttpResponse :=
  Ok {| status_code := 200; content_encoding := None; content_length := Some (ustr "3");
        raw_chunks := [bstr "ab"; bstr "c"]; stream_error := None |}.

Definition sample_grant : ArtifactGrant :=
  {| g_uid := 7; g_hotkey := ustr "hk"; g_upload_id := ustr "up"; g_sha256 := hexdigest (bstr "abc");
     g_size_bytes := 3; g_format := grant_diff; g_read_url := ustr "https://a.example/x" |}.

Lemma download_authentic_witness :
  hexdigest (bstr "abc") = g_sha256 sample_grant.
Proof.
  apply (download_authentic (UP := one_url) (SH := sha_id) two_chunks sample_grant false true
    {| limit_patch_bytes := 10; limit_script_bytes := 10 |} {[ustr "https://a.example:443"]}
    {| fetched_bytes := bstr "abc"; artifact_role := role_patch; fetched_format := grant_diff;
       fetched_size := 3; fetched_sha256 := hexdigest (bstr "abc") |}).
  vm_compute. reflexivity.
Defined.
