(* ===== verification/ProblemClient.v ===== *)
(** * The problem-server client ([src/rlvr/problemserver/client.py],
    [src/rlvr/v3/client.py])

    The transport is a function from the number of an attempt to what it yields: an
    answer (status, the headers the code reads, the decoded chunks) or an exception.
    Signing and sleeping have no effect here.  JSON parsing and dumping by pydantic
    and httpx are the class [WireJson]; every parsed model is validated by the
    definitions of [Api]. *)

From S2P Require Import Prelude PyFloat Text Json JsonSpec Canonical CanonicalSpec Wire Identity Api Codecs.

Local Open Scope Z_scope.

Definition MAX_DETAIL_CHARS : Z := 200.
Definition RETRY_AFTER_CUSHION_S : float := f1.

(** [status >= 500 or status in _RETRYABLE_STATUSES] *)
Definition RETRYABLE_STATUSES : list Z := [408; 425].
Definition retryable (status : Z) : bool :=
  (500 <=? status) || bool_decide (status ∈ RETRYABLE_STATUSES).

Inductive LeaseCategory :=
  | LEASED | EMPTY | PACED | DENIED | REJECTED | UNAVAILABLE | TRANSPORT | MALFORMED.
#[export] Instance LeaseCategory_eq_dec : EqDecision LeaseCategory. Proof. solve_decision. Defined.

Definition category_value (c : LeaseCategory) : pystr :=
  ustr (match c with
        | LEASED => "leased" | EMPTY => "empty" | PACED => "paced" | DENIED => "denied"
        | REJECTED => "rejected" | UNAVAILABLE => "unavailable" | TRANSPORT => "transport"
        | MALFORMED => "malformed" end)%string.

Definition status_category (status : Z) : LeaseCategory :=
  if status =? 204 then EMPTY
  else if status =? 429 then PACED
  else if (status =? 401) || (status =? 403) then DENIED
  else if retryable status then UNAVAILABLE
  else REJECTED.

Definition parse_retry_after (header : option pystr) : result (option Z) :=
  match header with
  | None => Ok None
  | Some raw =>
      let candidate := strip (λ c, (c =? 32)%N || (c =? 9)%N) raw in
      if bool_decide (candidate = []) || negb (forallb is_digit candidate) then Ok None
      else Some <$> int_of_digits candidate
  end.

Definition next_lease_not_before (retry_after_s : Z) (now : float) : float :=
  fadd (fadd now (float_of_int retry_after_s)) RETRY_AFTER_CUSHION_S.

(** A response kept in memory: its body is already bounded. *)
Record Response := {
  rsp_status : Z;
  rsp_retry_after : option pystr;
  rsp_content : bytes
}.

Record PostOutcome := {
  po_response : option Response;
  po_transport_error : pystr;
  po_protocol_error : pystr;
  po_retry_after_s : option Z;
  po_retry_after_from_prior : bool;
  po_retry_exhausted : bool
}.

(** What one attempt sees. *)
Record Answer := {
  an_status : Z;
  an_retry_after : option pystr;
  an_content_length : option pystr;
  an_chunks : list bytes;
  an_stream_error : option exn
}.

(** [str(e).strip() or type(e).__name__] *)
Definition transport_text (e : exn) : pystr :=
  let text := strip py_isspace (exn_msg e) in
  if bool_decide (text = []) then exn_name e else text.

(** What the loop of [post_result] keeps across attempts. *)
Record PostState := {
  last_response : option Response;
  last_protocol_error : pystr;
  last_retry_after_s : option Z;
  last_retry_after_attempt : option Z
}.

Definition post_init : PostState :=
  {| last_response := None; last_protocol_error := []; last_retry_after_s := None;
     last_retry_after_attempt := None |}.

Class WireJson := {
  read_lease : bytes → result LeaseResponse;
  read_reveal : bytes → result CommitRevealResponse;
  read_feedback : bytes → result (Z * pystr * pystr);
  dump_lease_request : LeaseRequest → pystr;
  dump_commit_request : ChallengeCommitRequest → pystr;
  dump_feedback_request : ChallengeFeedbackRequest → pystr;
  (* the string members of [response.json()], when it is an object *)
  response_json : bytes → option (pystr → option pystr)
}.

Record V3LeaseOutcome := {
  lo_category : LeaseCategory;
  lo_challenge : option LeaseResponse;
  lo_status : option Z;
  lo_detail : pystr;
  lo_retry_after_s : option Z;
  lo_transport_error : pystr
}.

Section client.
Context `{!UnicodeData, !Sha256, !WireJson}.

Definition bounded_detail (text : pystr) : pystr :=
  let collapsed := join [32%N] (split_ws text) in
  let printable := filter (λ c, py_isprintable c = true) collapsed in
  if MAX_DETAIL_CHARS <? zlen printable
  then slice_to (MAX_DETAIL_CHARS - 3) printable ++ ustr "..." else printable.

Definition response_detail (r : Response) : pystr :=
  let body := strip py_isspace (decode_replace (rsp_content r)) in
  let payload := if startswith [123%N] body then response_json (rsp_content r) else None in
  let value key := match payload with
                   | Some get => match get (ustr key) with
                                 | Some v => if bool_decide (strip py_isspace v = []) then None else Some v
                                 | None => None
                                 end
                   | None => None
                   end in
  match value "detail"%string, value "error"%string, value "message"%string with
  | Some v, _, _ | None, Some v, _ | None, None, Some v => bounded_detail v
  | None, None, None => bounded_detail body
  end.

(** ** Posting *)

Context (retries max_response_bytes : Z).

(** The loop over the chunks of [_read_bounded]. *)
Fixpoint read_body (body : bytes) (chunks : list bytes) : result bytes :=
  match chunks with
  | [] => Ok body
  | chunk :: chunks' =>
      let body' := body ++ chunk in
      raise_if (max_response_bytes <? zlen body') RuntimeError
        "problem-server response exceeds byte limit";;
      read_body body' chunks'
  end.

Definition read_bounded (a : Answer) : result bytes :=
  (match an_content_length a with
   | None | Some [] => Ok ()
   | Some declared =>
       match (if 4300 <? zlen (filter (λ c, is_digit c = true) declared) then None
              else py_int declared) with
       | None => raise RuntimeError "invalid problem-server content-length"
       | Some n => raise_if ((n <? 0) || (max_response_bytes <? n)) RuntimeError
                     "problem-server response exceeds byte limit"
       end
   end);;
  body ← read_body [] (an_chunks a);
  match an_stream_error a with Some e => Raise e | None => Ok body end.

Definition with_response (st : PostState) (r : Response) (protocol_error : option pystr) : PostState :=
  {| last_response := Some r;
     last_protocol_error := default (last_protocol_error st) protocol_error;
     last_retry_after_s := last_retry_after_s st;
     last_retry_after_attempt := last_retry_after_attempt st |}.

Definition with_retry_after (st : PostState) (ra : option Z) (attempt : Z) : PostState :=
  match ra with
  | None => st
  | Some s =>
      {| last_response := last_response st; last_protocol_error := last_protocol_error st;
         last_retry_after_s := Some s; last_retry_after_attempt := Some attempt |}
  end.

Definition from_prior (st : PostState) (attempt : Z) : bool :=
  match last_retry_after_attempt st with Some a => negb (a =? attempt) | None => false end.

(** The [except Exception] clause of one attempt: [None] goes on. *)
Definition attempt_failed (st : PostState) (attempt : Z) (e : exn) : PostState * option PostOutcome :=
  (st,
   if attempt =? retries then
     Some {| po_response := last_response st; po_transport_error := transport_text e;
             po_protocol_error := last_protocol_error st; po_retry_after_s := last_retry_after_s st;
             po_retry_after_from_prior := negb (bool_decide (last_retry_after_attempt st = None));
             po_retry_exhausted := true |}
   else None).

(** One attempt: the state after it, and the outcome if the loop ends. *)
Definition post_attempt (st : PostState) (attempt : Z) (yielded : result Answer)
    : PostState * option PostOutcome :=
  match yielded with
  | Raise e => attempt_failed st attempt e
  | Ok a =>
      match read_bounded a with
      | Raise e =>
          if bool_decide (exn_cls e = RuntimeError) then
            let r := {| rsp_status := an_status a; rsp_retry_after := an_retry_after a;
                        rsp_content := [] |} in
            let st := with_response st r (Some (bounded_detail (exn_msg e))) in
            match parse_retry_after (rsp_retry_after r) with
            | Raise e => attempt_failed st attempt e
            | Ok ra =>
                let st := with_retry_after st ra attempt in
                if retryable (an_status a) && (attempt <? retries) then (st, None)
                else
                  (st, Some {| po_response := Some r; po_transport_error := [];
                               po_protocol_error := last_protocol_error st;
                               po_retry_after_s := last_retry_after_s st;
                               po_retry_after_from_prior := from_prior st attempt;
                               po_retry_exhausted := retryable (an_status a) |})
            end
          else attempt_failed st attempt e
      | Ok content =>
          let r := {| rsp_status := an_status a; rsp_retry_after := an_retry_after a;
                      rsp_content := content |} in
          let st := with_response st r None in
          match parse_retry_after (rsp_retry_after r) with
          | Raise e => attempt_failed st attempt e
          | Ok ra =>
              let st := with_retry_after st ra attempt in
              if retryable (an_status a) then
                (st,
                 if attempt =? retries then
                   Some {| po_response := Some r; po_transport_error := []; po_protocol_error := [];
                           po_retry_after_s := last_retry_after_s st;
                           po_retry_after_from_prior := from_prior st attempt;
                           po_retry_exhausted := true |}
                 else None)
              else
                (st, Some {| po_response := Some r; po_transport_error := []; po_protocol_error := [];
                             po_retry_after_s := None; po_retry_after_from_prior := false;
                             po_retry_exhausted := false |})
          end
      end
  end.

Fixpoint post_loop (st : PostState) (attempts : list Z) (transport : Z → result Answer) : PostOutcome :=
  match attempts with
  | [] =>
      {| po_response := None; po_transport_error := ustr "retries exhausted"; po_protocol_error := [];
         po_retry_after_s := None; po_retry_after_from_prior := false; po_retry_exhausted := false |}
  | attempt :: attempts' =>
      match post_attempt st attempt (transport attempt) with
      | (_, Some outcome) => outcome
      | (st', None) => post_loop st' attempts' transport
      end
  end.

Definition post_result (transport : Z → result Answer) : PostOutcome :=
  post_loop post_init (seqZ 1 retries) transport.

Definition post (transport : Z → result Answer) : option Response :=
  let outcome := post_result transport in
  if po_retry_exhausted outcome || negb (bool_decide (po_protocol_error outcome = [])) then None
  else po_response outcome.

(** ** Leases, commits and feedback (v3/client.py) *)

Definition lease_outcome (c : LeaseCategory) (challenge : option LeaseResponse) (status : option Z)
    (detail : pystr) (retry_after : option Z) (transport_error : pystr) : V3LeaseOutcome :=
  {| lo_category := c; lo_challenge := challenge; lo_status := status; lo_detail := detail;
     lo_retry_after_s := retry_after; lo_transport_error := transport_error |}.

(** [server]: how the problem server answers a body on a path; [request_id] is a
    fresh UUID. *)
Definition lease (server : pystr → bytes → Z → result Answer) (request_id : pystr)
    (candidates : list (Z * pystr)) (miners_per_task : option Z) : result V3LeaseOutcome :=
  request ← LeaseRequest_validate
    {| lr_request_id := request_id; lr_candidates := candidates; lr_miners_per_task := miners_per_task |};
  body ← utf8_encode (dump_lease_request request);
  let outcome := post_result (server (ustr "/v3/challenges/lease") body) in
  match po_response outcome with
  | None =>
      let error := bounded_detail (po_transport_error outcome) in
      mret (lease_outcome TRANSPORT None None error None error)
  | Some response =>
      let status := rsp_status response in
      retry_after ← (match po_retry_after_s outcome with
                     | Some s => mret (Some s)
                     | None => parse_retry_after (rsp_retry_after response)
                     end);
      if negb (bool_decide (po_transport_error outcome = [])) then
        mret (lease_outcome TRANSPORT None (Some status)
                (if bool_decide (po_protocol_error outcome = []) then response_detail response
                 else po_protocol_error outcome)
                retry_after (bounded_detail (po_transport_error outcome)))
      else if negb (bool_decide (po_protocol_error outcome = [])) then
        mret (lease_outcome (if status =? 200 then MALFORMED else status_category status) None
                (Some status) (po_protocol_error outcome) retry_after [])
      else if negb (status =? 200) then
        mret (lease_outcome (status_category status) None (Some status) (response_detail response)
                retry_after [])
      else
        match (challenge ← read_lease (rsp_content response); LeaseResponse_validate challenge) with
        | Raise e =>
            mret (lease_outcome MALFORMED None (Some status) (bounded_detail (exn_msg e)) retry_after [])
        | Ok challenge => mret (lease_outcome LEASED (Some challenge) (Some status) [] retry_after [])
        end
  end.

Definition commit (server : pystr → bytes → Z → result Answer) (request : ChallengeCommitRequest)
    : result (option CommitRevealResponse) :=
  body ← serialize_commit_request dump_commit_request request;
  match post (server (ustr "/v3/challenges/commit") body) with
  | None => mret None
  | Some response =>
      if negb (rsp_status response =? 200) then mret None
      else mret (result_to_option
                   (r ← read_reveal (rsp_content response); CommitRevealResponse_validate r))
  end.

Definition feedback_response_fields (r : Z * pystr * pystr) : bool :=
  exact_int 3 r.1.1 && BoundedIdentifier r.1.2 && HexDigest r.2.

Definition feedback (server : pystr → bytes → Z → result Answer) (request : ChallengeFeedbackRequest)
    : result bool :=
  body ← serialize_feedback_request dump_feedback_request request;
  match post (server (ustr "/v3/challenges/feedback") body) with
  | None => mret false
  | Some response =>
      if negb (rsp_status response =? 200) then mret false
      else match (r ← read_feedback (rsp_content response);
                  model_validate feedback_response_fields (λ _, Ok ()) r) with
           | Raise _ => mret false
           | Ok (_, challenge_id, task_id) =>
               mret (bool_decide (challenge_id = cf_challenge_id request)
                     && bool_decide (task_id = cf_task_id request))
           end
  end.
End client.

(** ** The interface of the round *)

(** What a round asks of the problem server, and what every implementation promises:
    the models it returns are validated. *)
Class V3Client := {
  client_lease : list (Z * pystr) → Z → result V3LeaseOutcome;
  client_commit : ChallengeCommitRequest → result (option CommitRevealResponse);
  client_feedback : ChallengeFeedbackRequest → result bool
}.

Class V3ClientLaws `{!UnicodeData, !Sha256, !V3Client} : Prop := {
  leased_valid : ∀ (offered : list (Z * pystr)) (n : Z) (o : V3LeaseOutcome) (l : LeaseResponse),
    client_lease offered n = Ok o → lo_challenge o = Some l → LeaseResponse_validate l = Ok l;
  revealed_valid : ∀ (request : ChallengeCommitRequest) (r : CommitRevealResponse),
    client_commit request = Ok (Some r) →
    ChallengeCommitRequest_validate request = Ok request ∧ CommitRevealResponse_validate r = Ok r
}.

Section implementation.
Context `{UD : !UnicodeData, SH : !Sha256, WJ : !WireJson}.
Context (retries max_response_bytes : Z) (server : pystr → bytes → Z → result Answer)
  (request_id : pystr).

Definition http_client : V3Client :=
  {| client_lease := λ offered n, lease retries max_response_bytes server request_id offered (Some n);
     client_commit := commit retries max_response_bytes server;
     client_feedback := feedback retries max_response_bytes server |}.

Lemma lease_Ok (offered : list (Z * pystr)) (n : option Z) (o : V3LeaseOutcome) :
  lease retries max_response_bytes server request_id offered n = Ok o →
  (∀ l, lo_challenge o = Some l →
     lo_category o = LEASED ∧ lo_status o = Some 200 ∧ lo_transport_error o = [] ∧
     LeaseResponse_validate l = Ok l) ∧
  (lo_category o = LEASED → is_Some (lo_challenge o)).
Proof.
  unfold lease. intros (q & _ & H1)%bind_Ok. apply bind_Ok in H1 as (body & _ & H1).
  destruct (po_response _) as [r|]; [|by injection H1 as <-].
  apply bind_Ok in H1 as (ra & _ & H1).
  assert (Hcat : ∀ s, status_category s ≠ LEASED).
  { intros s. unfold status_category. by repeat case_match. }
  destruct (negb _); [by injection H1 as <-|]. destruct (negb _).
  { injection H1 as <-. split; [done|]. simpl. case_match; [done|]. by intros ?%Hcat. }
  destruct (rsp_status r =? 200) eqn:Hst; cbn [negb] in H1.
  2:{ injection H1 as <-. split; [done|]. by intros ?%Hcat. }
  apply Z.eqb_eq in Hst. destruct (read_lease _ ≫= _) as [l|e] eqn:Hl; injection H1 as <-; [|done].
  apply bind_Ok in Hl as (l' & _ & Hv). pose proof (proj1 (model_validate_Ok _ _ _ _) Hv) as (_ & _ & ->).
  split; [|by eexists]. simpl. intros l [= <-]. rewrite Hst. done.
Qed.

#[export] Instance http_client_laws : V3ClientLaws (H1 := http_client).
Proof.
  split.
  - intros offered n o l Ho Hl. by apply lease_Ok in Ho as [Hv _]; apply Hv in Hl as (_ & _ & _ & ?).
  - intros request r. cbn [client_commit http_client]. unfold commit.
    intros (body & Hb & H1)%bind_Ok. unfold serialize_commit_request in Hb.
    apply bind_Ok in Hb as (q & Hq & _). pose proof (proj1 (model_validate_Ok _ _ _ _) Hq) as (_ & _ & ->).
    split; [done|]. destruct (post _ _ _) as [response|]; [|done].
    destruct (negb _); [done|]. injection H1 as H1.
    destruct (read_reveal _ ≫= _) as [r'|] eqn:Hr; [|done]. injection H1 as ->.
    apply bind_Ok in Hr as (r1 & _ & Hv). by pose proof (proj1 (model_validate_Ok _ _ _ _) Hv) as (_ & _ & ->).
Qed.
End implementation.

(** ** Properties *)

Section post_lemmas.
Context `{UD : !UnicodeData}.
Context (retries max_response_bytes : Z).

Lemma read_body_Ok (body r : bytes) (chunks : list bytes) :
  zlen body <= max_response_bytes → read_body max_response_bytes body chunks = Ok r →
  r = body ++ concat chunks ∧ zlen r <= max_response_bytes.
Proof.
  revert body. induction chunks as [|c chunks IH]; intros body Hb; simpl.
  - intros [= <-]. by rewrite app_nil_r.
  - intros (Hc%Z.ltb_ge & Hr)%guard_Ok. apply IH in Hr as [-> ?]; [|done].
    split; [by rewrite <-(assoc_L (++))|done].
Qed.

Lemma read_bounded_Ok (a : Answer) (content : bytes) :
  0 <= max_response_bytes → read_bounded max_response_bytes a = Ok content →
  content = concat (an_chunks a) ∧ zlen content <= max_response_bytes ∧ an_stream_error a = None.
Proof.
  intros Hmax. unfold read_bounded. rewrite seq_Ok. intros [_ H1].
  apply bind_Ok in H1 as (body & Hb & H1). apply read_body_Ok in Hb as [Hb ?]; [|done].
  destruct (an_stream_error a); [done|]. by injection H1 as <-.
Qed.

Lemma bounded_detail_printable (text : pystr) (c : N) :
  c ∈ text → py_isspace c = false → py_isprintable c = true → bounded_detail text ≠ [].
Proof.
  intros Hc Hs Hp. unfold bounded_detail.
  assert (Hin : c ∈ filter (λ c, py_isprintable c = true) (join [32%N] (split_ws text))).
  { apply list_elem_of_filter. split; [done|].
    assert (Hsplit : ∃ w, w ∈ split_ws text ∧ c ∈ w).
    { unfold split_ws. assert (Hg : ∀ cur, c ∈ cur ∨ c ∈ text → ∃ w, w ∈ split_ws_aux cur text ∧ c ∈ w).
      { clear Hc. induction text as [|d text IH]; intros cur Hcur; simpl.
        - destruct cur as [|e cur]; [destruct Hcur as [H|H]; by apply not_elem_of_nil in H|].
          exists (rev (e :: cur)). split; [by left|]. destruct Hcur as [H|H]; [|by apply not_elem_of_nil in H].
          by apply list_elem_of_In, in_rev; rewrite rev_involutive; apply list_elem_of_In.
        - destruct (py_isspace d) eqn:Hd.
          + assert (Hcases : c ∈ cur ∨ c ∈ text).
            { destruct Hcur as [?|[->|?]%elem_of_cons]; [by left|congruence|by right]. }
            destruct cur as [|e cur].
            * apply IH. destruct Hcases as [H|?]; [by apply not_elem_of_nil in H|by right].
            * destruct Hcases as [H|H].
              -- exists (rev (e :: cur)). split; [by left|].
                 by apply list_elem_of_In, in_rev; rewrite rev_involutive; apply list_elem_of_In.
              -- destruct (IH [] (or_intror H)) as (w & Hw & ?). exists w. split; [by right|done].
          + apply IH. destruct Hcur as [?|[->|?]%elem_of_cons].
            * left. by right.
            * left. by left.
            * by right. }
      apply Hg. by right. }
    destruct Hsplit as (w & Hw & Hcw). clear - Hw Hcw. induction (split_ws text) as [|v vs IH].
    - by apply not_elem_of_nil in Hw.
    - apply elem_of_cons in Hw as [->|Hw]; simpl; destruct vs as [|v' vs]; try done.
      + apply elem_of_app. by left.
      + by apply not_elem_of_nil in Hw.
      + apply elem_of_app. right. right. by apply IH. }
  destruct (filter _ _) as [|d l]; [by apply not_elem_of_nil in Hin|]. case_match; [|done].
  destruct (slice_to _ _); done.
Qed.

(** An outcome [post] accepts comes from an answer that was read completely. *)
Lemma post_attempt_accepted (st st' : PostState) (attempt : Z) (yielded : result Answer)
    (o : PostOutcome) (r : Response) :
  0 <= max_response_bytes →
  (∀ c, (33 <= c < 127)%N → py_isprintable c = true) →
  (∀ a e, yielded = Ok a → an_stream_error a = Some e → exn_cls e ≠ RuntimeError) →
  post_attempt retries max_response_bytes st attempt yielded = (st', Some o) →
  po_retry_exhausted o = false → po_protocol_error o = [] → po_response o = Some r →
  ∃ a, yielded = Ok a ∧ rsp_status r = an_status a ∧ retryable (an_status a) = false ∧
    an_stream_error a = None ∧ rsp_content r = concat (an_chunks a) ∧
    zlen (rsp_content r) <= max_response_bytes.
Proof.
  intros Hmax Hprint Herr. unfold post_attempt, attempt_failed.
  destruct yielded as [a|e]; [|destruct (_ =? _); intros [= <- <-]; done].
  destruct (read_bounded max_response_bytes a) as [content|e] eqn:Hread.
  - apply read_bounded_Ok in Hread as (-> & Hlen & Hse); [|done].
    destruct (parse_retry_after _) as [ra|e]; [|destruct (_ =? _); intros [= <- <-]; done].
    destruct (retryable (an_status a)) eqn:Hre.
    { destruct (_ =? _); intros [= <- <-]; done. }
    intros [= <- <-] _ _ [= <-]. by exists a.
  - case_bool_decide as Hcls; [|destruct (_ =? _); intros [= <- <-]; done].
    destruct (parse_retry_after _) as [ra|e']; [|destruct (_ =? _); intros [= <- <-]; done].
    destruct (retryable (an_status a) && _); [done|]. intros [= <- <-] _ Hproto _. exfalso.
    cbn [po_protocol_error with_retry_after] in Hproto.
    assert (Hdet : bounded_detail (exn_msg e) = []).
    { revert Hproto. unfold with_retry_after. by destruct ra. }
    assert (Hp : 112%N ∈ exn_msg e ∨ an_stream_error a = Some e).
    { revert Hread. unfold read_bounded. generalize (@an_content_length a). intros cl Hread.
      assert (Hguard : ∀ q : result unit, q = Raise e →
        q = raise RuntimeError "invalid problem-server content-length" ∨
        q = raise RuntimeError "problem-server response exceeds byte limit" → 112%N ∈ exn_msg e).
      { intros q -> [[= ->]|[= ->]]; apply list_elem_of_In; simpl; tauto. }
      destruct (match cl with Some (_ :: _) => _ | _ => _ end) as [[]|e1] eqn:Hcl.
      - cbn [mbind result_bind] in Hread. destruct (read_body _ _ _) as [body|e2] eqn:Hb.
        + cbn [mbind result_bind] in Hread. right. destruct (an_stream_error a); congruence.
        + left. injection Hread as ->. clear - Hb. revert Hb. generalize ([] : bytes).
          induction (an_chunks a) as [|c cs IH]; intros b; simpl; [done|].
          destruct (_ <? _); simpl; [|apply IH]. intros [= <-]. apply list_elem_of_In. simpl. tauto.
      - left. injection Hread as ->. apply (Hguard _ Hcl). destruct cl as [[|d ds]|]; try done.
        destruct (if _ <? _ then _ else _); [|by left]. destruct (_ || _); [by right|done]. }
    destruct Hp as [Hp|Hp]; [|by apply (Herr a e)].
    by apply (bounded_detail_printable _ 112) in Hp; [|done|apply Hprint].
Qed.
End post_lemmas.

(** (safety): a response [post] hands out was answered by one of the attempts, is
    not a failure the client retries, and carries the complete body, within the byte
    limit; a refused or truncated body is never mistaken for an empty one. *)
Theorem post_complete `{UD : !UnicodeData} (retries max_bytes : Z) (transport : Z → result Answer)
    (r : Response) :
  0 <= max_bytes →
  (∀ c, (33 <= c < 127)%N → py_isprintable c = true) →
  (∀ k a e, transport k = Ok a → an_stream_error a = Some e → exn_cls e ≠ RuntimeError) →
  post retries max_bytes transport = Some r →
  ∃ k a, 1 <= k <= retries ∧ transport k = Ok a ∧ rsp_status r = an_status a ∧
    retryable (an_status a) = false ∧ an_stream_error a = None ∧
    rsp_content r = concat (an_chunks a) ∧ zlen (rsp_content r) <= max_bytes.
Proof.
  intros Hmax Hprint Herr. unfold post, post_result.
  assert (Hg : ∀ st, let o := post_loop retries max_bytes st (seqZ 1 retries) transport in
    (if po_retry_exhausted o || negb (bool_decide (po_protocol_error o = [])) then None
     else po_response o) = Some r →
    ∃ k a, k ∈ seqZ 1 retries ∧ transport k = Ok a ∧ rsp_status r = an_status a ∧
      retryable (an_status a) = false ∧ an_stream_error a = None ∧
      rsp_content r = concat (an_chunks a) ∧ zlen (rsp_content r) <= max_bytes).
  { induction (seqZ 1 retries) as [|k ks IH]; intros st; cbn [post_loop]; [done|].
    destruct (post_attempt _ _ _ _ _) as [st' [o|]] eqn:Ho.
    - cbv zeta. destruct (po_retry_exhausted o) eqn:Hex; [done|].
      case_bool_decide as Hpe; [|done]. cbn [orb negb]. intros Hr.
      destruct (post_attempt_accepted _ _ _ _ _ _ _ _ Hmax Hprint (Herr k) Ho Hex Hpe Hr)
        as (a & Ha & Hrest). exists k, a. split; [by left|done].
    - cbv zeta. intros Hr. apply IH in Hr as (k' & a & Hk & Hrest). exists k', a. split; [by right|done]. }
  intros Hr. apply Hg in Hr as (k & a & Hk%elem_of_seqZ & Hrest). exists k, a. split; [lia|done].
Qed.

(** (functional): a lease attempt that returns has the category [LEASED] exactly
    when it carries a challenge; that challenge was answered with status 200, after
    no transport error, and passed every check of [LeaseResponse]. *)
Theorem lease_classified `{UD : !UnicodeData, SH : !Sha256, WJ : !WireJson} (retries max_bytes : Z)
    (server : pystr → bytes → Z → result Answer) (request_id : pystr) (offered : list (Z * pystr))
    (n : option Z) (o : V3LeaseOutcome) :
  lease retries max_bytes server request_id offered n = Ok o →
  (lo_category o = LEASED ↔ is_Some (lo_challenge o)) ∧
  ∀ l, lo_challenge o = Some l →
    lo_status o = Some 200 ∧ lo_transport_error o = [] ∧ LeaseResponse_validate l = Ok l.
Proof.
  intros [H1 H2]%lease_Ok. split; [split; [done|]|]; [intros [l Hl]; by apply H1 in Hl as (? & _)|].
  intros l Hl. by apply H1 in Hl as (_ & ? & ? & ?).
Qed.

(** (error): [parse_retry_after] is meant to be fail-closed, but a header of more
    than 4300 digits, which is valid delta-seconds, raises [ValueError]. *)
Theorem retry_after_raises (digits : nat) :
  (4300 < digits)%nat →
  ∃ e, parse_retry_after (Some (replicate digits 57%N)) = Raise e ∧ exn_cls e = ValueError.
Proof.
  intros Hd. set (p := λ c : N, (c =? 32)%N || (c =? 9)%N).
  assert (Hdrop : ∀ k, drop_while p (replicate k 57%N) = replicate k 57%N) by (by intros []).
  assert (Hstrip : strip p (replicate digits 57%N) = replicate digits 57%N).
  { unfold strip. rewrite Hdrop.
    assert (Hrev : rev (replicate digits 57%N) = replicate digits 57%N).
    { clear. induction digits as [|k IH]; [done|]. simpl. rewrite IH. clear.
      by induction k as [|k IH]; simpl; [|rewrite IH]. }
    by rewrite Hrev, Hdrop, Hrev. }
  unfold parse_retry_after. fold p. rewrite Hstrip.
  assert (Hall : forallb is_digit (replicate digits 57%N) = true).
  { clear. by induction digits. }
  rewrite Hall. destruct digits as [|k]; [lia|]. rewrite bool_decide_eq_false_2 by done. cbn [orb negb].
  unfold int_of_digits, zlen. rewrite length_replicate.
  rewrite (proj2 (Z.ltb_lt 4300 (Z.of_nat (S k)))) by lia. by eexists.
Qed.

(** ** Witnesses *)

Definition one_answer (k : Z) : result Answer :=
  Ok {| an_status := if k =? 1 then 503 else 200; an_retry_after := Some (ustr "5");
        an_content_length := Some (ustr "2"); an_chunks := [bstr "{"; bstr "}"];
        an_stream_error := None |}.

Lemma post_complete_witness :
  retryable 200 = false ∧
  post (H := ascii_unicode) 3 10 one_answer
  = Some {| rsp_status := 200; rsp_retry_after := Some (ustr "5"); rsp_content := bstr "{}" |}.
Proof.
  assert (Hp : post (H := ascii_unicode) 3 10 one_answer
    = Some {| rsp_status := 200; rsp_retry_after := Some (ustr "5"); rsp_content := bstr "{}" |})
    by (vm_compute; reflexivity).
  split; [|exact Hp].
  destruct (post_complete (UD := ascii_unicode) 3 10 one_answer
    {| rsp_status := 200; rsp_retry_after := Some (ustr "5"); rsp_content := bstr "{}" |})
    as (k & a & _ & _ & Hst & Hre & _).
  - done.
  - intros c Hc. unfold py_isprintable, ascii_unicode. simpl. apply andb_true_iff.
    rewrite N.leb_le, N.ltb_lt. lia.
  - by intros k a e [= <-].
  - exact Hp.
  - by rewrite <-Hst in Hre.
Defined.

Definition no_json : WireJson :=
  {| read_lease := λ _, raise ValidationError "1 validation error";
     read_reveal := λ _, raise ValidationError "1 validation error";
     read_feedback := λ _, raise ValidationError "1 validation error";
     dump_lease_request := λ _, []; dump_commit_request := λ _, []; dump_feedback_request := λ _, [];
     response_json := λ _, None |}.

Lemma lease_classified_witness :
  ¬ is_Some (@None LeaseResponse).
Proof.
  assert (H' := lease_classified (UD := ascii_unicode) (SH := sha_id) (WJ := no_json) 2 10
    (λ _ _, one_answer) (ustr "r1") [(1, ustr "hk")] (Some 4)
    (lease_outcome MALFORMED None (Some 200) (ustr "1 validation error") (Some 5) [])).
  destruct H' as [[_ Hc] _]; [vm_compute; reflexivity|].
  intros Hs. discriminate (Hc Hs).
Defined.

Lemma retry_after_raises_witness :
  is_ok (parse_retry_after (Some (replicate 4301 57%N))) = false.
Proof. destruct (retry_after_raises 4301) as (e & -> & _); [lia|reflexivity]. Defined.
