(* ===== verification/Supervisor.v ===== *)
(** * The container supervisor ([src/rlvr/v3/supervisor.py])

    The host is the record [host]: what [lstat] says of a mount source, whether the
    container runtime is there, what a run of the container produced on its pipes,
    and the answers of the control commands.  [run_container] also returns the
    docker commands it issued, in order.  The guard that watches the disk usage
    while the container runs is a thread of its own ([Guard]); here it is only
    whether it can be started. *)

From S2P Require Import Prelude PyFloat Text Json Canonical Wire Codecs.

Local Open Scope Z_scope.

(** ** Policy and requests *)

Definition image_char (c : N) : bool :=
  ((65 <=? c) && (c <=? 90) || (97 <=? c) && (c <=? 122) || is_digit c
   || existsb (N.eqb c) [46; 95; 58; 47; 45])%N.

(** [^[A-Za-z0-9._:/-]+@sha256:[0-9a-f]{64}$]: the at sign is in no other part. *)
Definition image_pinned (s : pystr) : bool :=
  match split_on 64%N s with
  | [name; digest] =>
      negb (bool_decide (name = [])) && forallb image_char name
      && startswith (ustr "sha256:") digest
      && (zlen (drop 7 digest) =? 64) && forallb is_lower_hex (drop 7 digest)
  | _ => false
  end.

Definition name_head (c : N) : bool := ((97 <=? c) && (c <=? 122))%N || is_digit c.
Definition name_char (c : N) : bool := name_head c || (c =? 95)%N || (c =? 45)%N.

(** [^[a-z0-9][a-z0-9_-]{0,n-1}$] *)
Definition token_name (n : Z) (s : pystr) : bool :=
  match s with
  | c :: r => name_head c && forallb name_char r && (zlen r <=? n - 1)
  | [] => false
  end.

Definition nul_free (s : pystr) : bool := negb (contains [0%N] s).

Definition absolute_container_path (value : pystr) (allow_root : bool) : bool :=
  startswith [slash] value && negb (startswith [slash; slash] value)
  && (allow_root || negb (bool_decide (value = [slash])))
  && bool_decide (normpath value = value) && nul_free value.

Record SupervisorPolicy := {
  sp_image : pystr;
  candidate_uid : Z;
  candidate_gid : Z;
  memory_bytes : Z;
  cpus : Z;
  pids_limit : Z;
  tmpfs_bytes : Z;
  max_file_bytes : Z;
  watchdog_slack_s : Z;
  max_workspace_bytes : Z;
  trusted_uid : Z;
  trusted_gid : Z
}.

Definition check_supervisor_policy (p : SupervisorPolicy) : result SupervisorPolicy :=
  raise_if (negb (image_pinned (sp_image p))) ValueError "supervisor image must be digest-pinned";;
  raise_if (existsb (λ v, v <? 1)
      [candidate_uid p; candidate_gid p; trusted_uid p; trusted_gid p])
    ValueError "supervisor users must be unprivileged";;
  raise_if (existsb (λ v, v <? 1)
      [memory_bytes p; cpus p; pids_limit p; tmpfs_bytes p; max_file_bytes p; watchdog_slack_s p;
       max_workspace_bytes p])
    ValueError "supervisor limits must be positive integers";;
  mret p.

(** What [lstat] says of a host path. *)
Inductive FileKind := kind_dir | kind_file | kind_link | kind_other.
#[export] Instance FileKind_eq_dec : EqDecision FileKind. Proof. solve_decision. Defined.

Record Mount := { mount_host : pystr; mount_container : pystr; read_only : bool }.

Record ContainerRequest := {
  cr_name : pystr;
  cr_argv : list pystr;
  cr_cwd : pystr;
  cr_mounts : list Mount;
  cr_stdin : bytes;
  cr_timeout_s : Z;
  cr_max_stdout_bytes : Z;
  cr_max_stderr_bytes : Z;
  cr_trusted : bool
}.

Record ContainerResult := {
  exit_code : Z;
  oom_killed : bool;
  timed_out : bool;
  stdout : bytes;
  stderr : bytes;
  stdout_overflow : bool;
  stderr_overflow : bool
}.

Definition comma_free (s : pystr) : bool := negb (contains [44%N] s).

Definition mountable (k : option FileKind) : bool :=
  bool_decide (k = Some kind_dir) || bool_decide (k = Some kind_file).

Definition check_mount (lstat : pystr → option FileKind) (m : Mount) : result Mount :=
  raise_if (negb (startswith [slash] (mount_host m)) || negb (comma_free (mount_host m)))
    ValueError "mount source must be an absolute safe path";;
  raise_if (bool_decide (lstat (mount_host m) = None)) ValueError "mount source is unavailable";;
  raise_if (negb (mountable (lstat (mount_host m)))) ValueError "mount source is invalid";;
  raise_if (negb (absolute_container_path (mount_container m) false)
            || negb (comma_free (mount_container m)))
    ValueError "mount target is invalid";;
  mret m.

Definition check_request (r : ContainerRequest) : result ContainerRequest :=
  raise_if (negb (token_name 64 (cr_name r))) ValueError "container name is invalid";;
  raise_if (bool_decide (cr_argv r = [])
            || existsb (λ item, bool_decide (item = []) || negb (nul_free item)) (cr_argv r)
            || negb (absolute_container_path (default [] (head (cr_argv r))) false))
    ValueError "container argv is invalid";;
  raise_if (negb (absolute_container_path (cr_cwd r) true)) ValueError
    "container working directory is invalid";;
  raise_if (has_duplicates (map mount_container (cr_mounts r))) ValueError
    "container mount targets must be unique";;
  raise_if ((cr_timeout_s r <? 1) || (3600 <? cr_timeout_s r)) ValueError
    "container timeout is invalid";;
  raise_if ((cr_max_stdout_bytes r <? 1) || (cr_max_stderr_bytes r <? 1)) ValueError
    "container output limits must be positive";;
  mret r.

(** ** Draining a pipe *)

(** [_drain]: the chunks read from a pipe before its end, each at most 8192 bytes. *)
Fixpoint drain (limit : Z) (output : bytes) (overflow : bool) (chunks : list bytes) : bytes * bool :=
  match chunks with
  | [] => (output, overflow)
  | chunk :: chunks' =>
      let remaining := limit - zlen output in
      drain limit
        (if 0 <? remaining then output ++ slice_to remaining chunk else output)
        (overflow || (remaining <? zlen chunk)) chunks'
  end.

(** ** Running a container *)

Abbreviation command := (list pystr).

Record host := {
  runtime_ok : pystr → bool;
  lstat : pystr → option FileKind;
  guard_starts : bool;
  (* the chunks on stdout and stderr, and whether the watchdog expired *)
  launch : command → bytes → Z → result (list bytes * list bytes * bool);
  (* the return code and the standard output of a control command *)
  control : command → result (Z * pystr)
}.

Definition opt (name : string) (v : Z) : pystr := ustr name ++ str_of_int v.

Definition run_command (docker : pystr) (request : ContainerRequest) (policy : SupervisorPolicy)
    : command :=
  let uid := if cr_trusted request then trusted_uid policy else candidate_uid policy in
  let gid := if cr_trusted request then trusted_gid policy else candidate_gid policy in
  [docker; ustr "run"; ustr "--name"; cr_name request; ustr "-i"; ustr "--network=none";
   ustr "--ipc=none"; ustr "--cap-drop=ALL"; ustr "--security-opt=no-new-privileges";
   ustr "--read-only"; ustr "--log-driver=none";
   opt "--memory=" (memory_bytes policy);
   opt "--memory-swap=" (memory_bytes policy);
   opt "--cpus=" (cpus policy);
   opt "--pids-limit=" (pids_limit policy);
   opt "--ulimit=fsize=" (max_file_bytes policy) ++ ustr ":" ++ str_of_int (max_file_bytes policy);
   opt "--tmpfs=/tmp:rw,exec,nosuid,nodev,size=" (tmpfs_bytes policy);
   opt "--user=" uid ++ ustr ":" ++ str_of_int gid;
   ustr "--workdir"; cr_cwd request;
   ustr "--env"; ustr "PATH=/usr/local/bin:/usr/bin:/bin"; ustr "--env"; ustr "HOME=/tmp";
   ustr "--env"; ustr "LANG=C.UTF-8"; ustr "--env"; ustr "LC_ALL=C.UTF-8"]
  ++ concat (map (λ m,
       [ustr "--mount";
        ustr "type=bind,source=" ++ mount_host m ++ ustr ",target=" ++ mount_container m
        ++ (if read_only m then ustr ",readonly" else [])]) (cr_mounts request))
  ++ [sp_image policy; ustr "/usr/bin/timeout"; ustr "--signal=TERM"; ustr "--kill-after=1";
      str_of_int (cr_timeout_s request)]
  ++ cr_argv request.

Definition kill_command (docker name : pystr) : command := [docker; ustr "kill"; name].
Definition inspect_command (docker name : pystr) : command :=
  [docker; ustr "inspect"; ustr "--format";
   ustr "{{.State.Status}} {{.State.ExitCode}} {{.State.OOMKilled}}"; name].
Definition rm_command (docker name : pystr) : command := [docker; ustr "rm"; ustr "-f"; name].

(** The state of the stopped container, from the output of [docker inspect]. *)
Definition parse_state (returncode : Z) (out : pystr) : result (Z * bool) :=
  match split_ws out with
  | [status; code; oom] =>
      raise_if (negb (returncode =? 0)) SupervisorError "container state is unavailable";;
      raise_if (negb (bool_decide (status = ustr "exited"))) SupervisorError
        "container did not stop";;
      match py_int code with
      | None => raise SupervisorError "container state is invalid"
      | Some exit_code =>
          raise_if (negb ((0 <=? exit_code) && (exit_code <=? 255))
                    || negb (bool_decide (oom = ustr "true") || bool_decide (oom = ustr "false")))
            SupervisorError "container state is invalid";;
          mret (exit_code, bool_decide (oom = ustr "true"))
      end
  | _ => raise SupervisorError "container state is unavailable"
  end.

Section run.
Context (h : host) (docker : pystr).

(** The [try] block once the container may exist: the outcome and the commands. *)
Definition run_body (request : ContainerRequest) (policy : SupervisorPolicy)
    : result ContainerResult * list command :=
  let name := cr_name request in
  let cmd := run_command docker request policy in
  match launch h cmd (cr_stdin request) (cr_timeout_s request + watchdog_slack_s policy) with
  | Raise e => (Raise e, [cmd])
  | Ok (out_chunks, err_chunks, watchdog) =>
      let '(out, out_over) := drain (cr_max_stdout_bytes request) [] false out_chunks in
      let '(err, err_over) := drain (cr_max_stderr_bytes request) [] false err_chunks in
      let kills := if watchdog then [kill_command docker name] else [] in
      let killed := if watchdog then control h (kill_command docker name) else Ok (0, []) in
      match killed with
      | Raise e => (Raise e, cmd :: kills)
      | Ok _ =>
          let issued := cmd :: kills ++ [inspect_command docker name] in
          ((inspected ← control h (inspect_command docker name);
            '(code, oom) ← parse_state inspected.1 inspected.2;
            mret {| exit_code := code; oom_killed := oom;
                    timed_out := watchdog || (((code =? 124) || (code =? 137)) && negb oom);
                    stdout := out; stderr := err; stdout_overflow := out_over;
                    stderr_overflow := err_over |}), issued)
      end
  end.

(** The [finally] clause: the container is removed whatever happened; a failing
    removal replaces the outcome. *)
Definition with_cleanup (name : pystr) (body : result ContainerResult * list command)
    : result ContainerResult * list command :=
  let issued := body.2 ++ [rm_command docker name] in
  match control h (rm_command docker name) with
  | Raise e => (Raise e, issued)
  | Ok (returncode, _) =>
      if negb (returncode =? 0) then (raise SupervisorError "container cleanup failed", issued)
      else (body.1, issued)
  end.

Definition run_container (request : ContainerRequest) (policy : SupervisorPolicy)
    : result ContainerResult * list command :=
  if negb (runtime_ok h docker) then (raise SupervisorError "container runtime is unavailable", [])
  else
    match for_each (λ m,
        raise_if (bool_decide (lstat h (mount_host m) = None)) SupervisorError
          "container mount is unavailable";;
        raise_if (negb (mountable (lstat h (mount_host m)))) SupervisorError
          "container mount is invalid") (cr_mounts request) with
    | Raise e => (Raise e, [])
    | Ok _ =>
        let writable := filter (λ m, read_only m = false) (cr_mounts request) in
        if negb (bool_decide (writable = [])) && negb (guard_starts h)
        then (raise SupervisorError "workspace guard is unavailable", [])
        else with_cleanup (cr_name request) (run_body request policy)
    end.
End run.

(** ** Lemmas *)

Lemma slice_to_zlen {A} (n : Z) (l : list A) : 0 <= n → zlen (slice_to n l) = Z.min n (zlen l).
Proof. apply slice_to_length. Qed.

Lemma drain_spec (limit : Z) (output : bytes) (overflow : bool) (chunks : list bytes) :
  zlen output <= limit →
  drain limit output overflow chunks
  = (output ++ slice_to (limit - zlen output) (concat chunks),
     overflow || (limit - zlen output <? zlen (concat chunks))).
Proof.
  revert output overflow. induction chunks as [|c chunks IH]; intros output overflow Hle;
    cbn [drain concat].
  { rewrite slice_to_nonneg by lia. rewrite take_nil, app_nil_r.
    replace (limit - zlen output <? zlen (@nil ascii)) with false; [by rewrite orb_false_r|].
    symmetry. apply Z.ltb_ge. unfold zlen at 1. simpl. lia. }
  set (remaining := limit - zlen output) in *.
  assert (Hout : (if 0 <? remaining then output ++ slice_to remaining c else output)
    = output ++ slice_to remaining c).
  { destruct (Z.ltb_spec 0 remaining); [done|]. replace remaining with 0 by lia.
    rewrite slice_to_nonneg by lia. simpl. by rewrite app_nil_r. }
  assert (Hlen : zlen (output ++ slice_to remaining c) = zlen output + Z.min remaining (zlen c)).
  { unfold zlen at 1. rewrite length_app, Nat2Z.inj_add. fold (zlen output).
    fold (zlen (slice_to remaining c)). rewrite slice_to_length by lia. done. }
  rewrite Hout, IH by lia. rewrite Hlen, <-(assoc_L (++)). f_equal.
  - f_equal. rewrite !slice_to_nonneg by lia. rewrite take_app. f_equal. f_equal.
    unfold zlen in *. lia.
  - rewrite <-orb_assoc. f_equal. unfold zlen in *. rewrite length_app.
    apply eq_true_iff_eq. rewrite orb_true_iff, !Z.ltb_lt. lia.
Qed.

Lemma parse_state_range (rc : Z) (out : pystr) (code : Z) (oom : bool) :
  parse_state rc out = Ok (code, oom) → 0 <= code <= 255.
Proof.
  unfold parse_state. destruct (split_ws out) as [|s1 [|s2 [|s3 [|]]]]; try done.
  rewrite !guard_Ok. intros (_ & _ & Hc). destruct (py_int s2) as [c|]; [|done].
  rewrite guard_Ok in Hc. destruct Hc as [Hb [= <- <-]].
  apply orb_false_iff in Hb as [Hb _]. apply negb_false_iff, andb_true_iff in Hb. lia.
Qed.

Section run_lemmas.
Context (h : host) (docker : pystr).
Implicit Types (request : ContainerRequest) (policy : SupervisorPolicy) (cmds : list command).

Lemma run_body_shape request policy :
  ∃ cmds, (run_body h docker request policy).2 = run_command docker request policy :: cmds.
Proof.
  unfold run_body. destruct (launch _ _ _ _) as [[[oc ec] w]|e]; [|by eexists].
  destruct (drain _ _ _ oc), (drain _ _ _ ec). case_match; by eexists.
Qed.

Lemma run_body_Ok request policy (r : ContainerResult) cmds :
  0 <= cr_max_stdout_bytes request → 0 <= cr_max_stderr_bytes request →
  run_body h docker request policy = (Ok r, cmds) →
  0 <= exit_code r <= 255 ∧
  zlen (stdout r) <= cr_max_stdout_bytes request ∧ zlen (stderr r) <= cr_max_stderr_bytes request ∧
  (stdout_overflow r = false → ∃ oc ec w, launch h (run_command docker request policy)
     (cr_stdin request) (cr_timeout_s request + watchdog_slack_s policy) = Ok (oc, ec, w) ∧
     stdout r = concat oc).
Proof.
  intros H1 H2. unfold run_body. destruct (launch _ _ _ _) as [[[oc ec] w]|e]; [|done].
  rewrite !drain_spec by done. change (zlen (@nil ascii)) with 0. rewrite !Z.sub_0_r. cbn [app orb].
  case_match; [|done]. intros [= Hr _].
  apply bind_Ok in Hr as (ins & _ & Hr). apply bind_Ok in Hr as ([code oom] & Hp & [= <-]). simpl.
  rewrite !slice_to_length by done. split; [by eapply parse_state_range|]. split; [lia|]. split; [lia|].
  intros Ho. exists oc, ec, w. split; [done|]. apply slice_to_all.
  apply Z.ltb_ge in Ho. lia.
Qed.
End run_lemmas.

(** ** Properties *)

(** (safety): a container is never left behind.  Either no command was issued
    (and the call failed), or the first command is the run itself and the last one
    removes the container, on every path: a failed launch, an expired watchdog, a
    container that did not stop, unreadable state.  A result is only returned when
    that removal succeeded; its exit code is a byte and its streams are within the
    request's limits, complete if no overflow is reported. *)
Theorem container_removed (h : host) (docker : pystr) (request : ContainerRequest)
    (policy : SupervisorPolicy) (r : result ContainerResult) (cmds : list command) :
  run_container h docker request policy = (r, cmds) →
  (cmds = [] ∧ is_ok r = false ∨
   head cmds = Some (run_command docker request policy) ∧
   last cmds = Some (rm_command docker (cr_name request))) ∧
  ∀ res, r = Ok res → 0 <= cr_max_stdout_bytes request → 0 <= cr_max_stderr_bytes request →
    (∃ out, control h (rm_command docker (cr_name request)) = Ok (0, out)) ∧
    0 <= exit_code res <= 255 ∧
    zlen (stdout res) <= cr_max_stdout_bytes request ∧
    zlen (stderr res) <= cr_max_stderr_bytes request ∧
    (stdout_overflow res = false → ∃ oc ec w, launch h (run_command docker request policy)
       (cr_stdin request) (cr_timeout_s request + watchdog_slack_s policy) = Ok (oc, ec, w) ∧
       stdout res = concat oc).
Proof.
  unfold run_container. case_match; [by intros [= <- <-]; split; [left|]|].
  case_match; [|by intros [= <- <-]; split; [left|]].
  case_match; [by intros [= <- <-]; split; [left|]|].
  unfold with_cleanup. pose proof (run_body_shape h docker request policy) as [tl Htl].
  destruct (run_body h docker request policy) as [body bcmds] eqn:Hb. simpl in Htl. subst bcmds.
  assert (Hshape : ∀ cmds, cmds = (run_command docker request policy :: tl)
      ++ [rm_command docker (cr_name request)] →
    head cmds = Some (run_command docker request policy) ∧
    last cmds = Some (rm_command docker (cr_name request))).
  { intros ? ->. split; [done|]. by rewrite last_snoc. }
  destruct (control h (rm_command docker (cr_name request))) as [[rc out]|e] eqn:Hc;
    [|intros [= <- <-]; split; [right; by apply Hshape|done]].
  destruct (Z.eqb_spec rc 0) as [->|]; simpl.
  2:{ intros [= <- <-]. split; [right; by apply Hshape|done]. }
  intros [= <- <-]. split; [right; by apply Hshape|]. intros res -> H1' H2'.
  split; [by eexists|]. by eapply run_body_Ok.
Qed.

(** (safety, sandbox): every container is started without network, without
    capabilities or new privileges, with a read-only root and as an unprivileged
    user (the candidate's unless the request is trusted); these options precede
    the pinned image and the candidate's own arguments come after it. *)
Theorem container_sandboxed (docker : pystr) (request : ContainerRequest)
    (policy policy' : SupervisorPolicy) :
  check_supervisor_policy policy = Ok policy' →
  ∃ options, run_command docker request policy
    = options ++ [sp_image policy; ustr "/usr/bin/timeout"; ustr "--signal=TERM";
                  ustr "--kill-after=1"; str_of_int (cr_timeout_s request)] ++ cr_argv request ∧
  Forall (.∈ options)
    [ustr "--network=none"; ustr "--cap-drop=ALL"; ustr "--security-opt=no-new-privileges";
     ustr "--read-only"; opt "--memory=" (memory_bytes policy); opt "--pids-limit=" (pids_limit policy)] ∧
  ∃ uid gid, opt "--user=" uid ++ ustr ":" ++ str_of_int gid ∈ options ∧ 1 <= uid ∧ 1 <= gid ∧
    (cr_trusted request = false → uid = candidate_uid policy ∧ gid = candidate_gid policy).
Proof.
  unfold check_supervisor_policy. rewrite !guard_Ok. intros (_ & Hu & _ & _).
  cbn [existsb] in Hu. rewrite !orb_false_iff, !Z.ltb_ge in Hu. destruct Hu as (? & ? & ? & ? & _).
  eexists (_ ++ _). split; [unfold run_command; rewrite <-(assoc_L (++)); reflexivity|].
  split.
  - repeat (apply Forall_cons; split; [|]); [..|constructor]; apply elem_of_app; left; set_solver.
  - do 2 eexists. split; [apply elem_of_app; left; do 17 right; left|].
    destruct (cr_trusted request); split_and!; try done; lia.
Qed.

(** ** Witnesses *)

Definition sample_policy : SupervisorPolicy :=
  {| sp_image := ustr "r/img@sha256:" ++ replicate 64%nat 97%N;
     candidate_uid := 1000; candidate_gid := 1000; memory_bytes := 1; cpus := 1; pids_limit := 1;
     tmpfs_bytes := 1; max_file_bytes := 1; watchdog_slack_s := 1; max_workspace_bytes := 1;
     trusted_uid := 65534; trusted_gid := 65534 |}.

Definition sample_request : ContainerRequest :=
  {| cr_name := ustr "run-1"; cr_argv := [ustr "/usr/bin/true"]; cr_cwd := ustr "/work";
     cr_mounts := [{| mount_host := ustr "/h"; mount_container := ustr "/work"; read_only := false |}];
     cr_stdin := []; cr_timeout_s := 10; cr_max_stdout_bytes := 3; cr_max_stderr_bytes := 3;
     cr_trusted := false |}.

Definition sample_host : host :=
  {| runtime_ok := λ _, true; lstat := λ _, Some kind_dir; guard_starts := true;
     launch := λ _ _ _, Ok ([bstr "ab"; bstr "cd"], [], false);
     control := λ cmd, if bool_decide (cmd !! 1%nat = Some (ustr "inspect"))
                       then Ok (0, ustr "exited 7 false") else Ok (0, []) |}.

Definition sample_result : ContainerResult :=
  {| exit_code := 7; oom_killed := false; timed_out := false; stdout := bstr "abc"; stderr := [];
     stdout_overflow := true; stderr_overflow := false |}.

Lemma container_removed_witness :
  0 <= exit_code sample_result <= 255 ∧ zlen (stdout sample_result) <= 3.
Proof.
  destruct (container_removed sample_host (ustr "/usr/bin/docker") sample_request sample_policy
    (Ok sample_result)
    [run_command (ustr "/usr/bin/docker") sample_request sample_policy;
     inspect_command (ustr "/usr/bin/docker") (ustr "run-1");
     rm_command (ustr "/usr/bin/docker") (ustr "run-1")]) as [_ Hr].
  - vm_compute. reflexivity.
  - destruct (Hr sample_result eq_refl) as (_ & H1 & H2 & _); [simpl; lia|simpl; lia|].
    split; [exact H1|exact H2].
Defined.

Lemma container_sandboxed_witness :
  ∃ options, run_command (ustr "/usr/bin/docker") sample_request sample_policy
    = options ++ [sp_image sample_policy; ustr "/usr/bin/timeout"; ustr "--signal=TERM";
                  ustr "--kill-after=1"; str_of_int 10] ++ [ustr "/usr/bin/true"].
Proof.
  destruct (container_sandboxed (ustr "/usr/bin/docker") sample_request sample_policy sample_policy)
    as (options & H & _).
  - vm_compute. reflexivity.
  - exists options. exact H.
Defined.
