(* ===== verification/Guard.v ===== *)
(** * A container while it runs ([src/rlvr/v3/supervisor.py])

    [run_process] is the child process of [docker run] with the threads that drain its
    pipes; Supervisor takes its outcome as given.  [guard_workspace] is the thread that
    kills a container over its disk budget, one [tick] for each turn of its loop, and
    [allocated_bytes] what it measures.  The clock and the kernel are inputs.

    [guard_enforces]: when the guard kills.  [guard_hidden]: what it does not see. *)

From S2P Require Import Prelude PyFloat Text Json Canonical Wire Codecs Supervisor.

Local Open Scope Z_scope.

(** ** The child process *)

(** What happens to the child: whether it starts, what its pipes deliver until the readers
    are joined, whether it ends before the watchdog, whether [killpg] and [kill] reach
    it, and its return code. *)
Record child_process := {
  ch_popen : result unit;
  ch_stdout : list bytes;
  ch_stderr : list bytes;
  ch_in_time : bool;
  ch_killpg : bool;
  ch_returncode : Z
}.

Inductive signal := KillGroup | KillChild.

(** The signals the watchdog sends. *)
Definition watchdog_signals (c : child_process) : list signal :=
  if ch_in_time c then [] else if ch_killpg c then [KillGroup] else [KillGroup; KillChild].

(** The return code, both streams, their overflow, and whether the watchdog expired. *)
Definition run_process (c : child_process) (stdout_limit stderr_limit : Z) : result (Z * bytes * bytes * bool * bool * bool) :=
  match ch_popen c with
  | Raise e =>
      if bool_decide (exn_cls e = OSError) || is_value_error (exn_cls e)
      then raise SupervisorError "container launch failed" else Raise e
  | Ok _ =>
      let '(out, out_overflow) := drain stdout_limit [] false (ch_stdout c) in
      let '(err, err_overflow) := drain stderr_limit [] false (ch_stderr c) in
      mret (ch_returncode c, out, err, out_overflow, err_overflow, negb (ch_in_time c))
  end.

(** [_control]: what [subprocess.run] raises, or the return code and the output. *)
Definition control_call (answer : result (Z * pystr)) : result (Z * pystr) :=
  match answer with
  | Ok a => Ok a
  | Raise e =>
      if bool_decide (exn_cls e = OSError) || is_value_error (exn_cls e) || bool_decide (exn_cls e = OtherError)
      then raise SupervisorError "container control operation failed" else Raise e
  end.

(** ** What the guard measures *)

(** An entry of the workspace, with the blocks [lstat] reports ([None]: it fails).  A
    directory that cannot be listed is skipped by [os.walk] with all below it; a link to
    a directory is no file and is not followed. *)
Inductive usage :=
  | UseFile (blocks : option Z)
  | UseDirLink (blocks : option Z)
  | UseDir (blocks : option Z) (listable : bool) (children : list usage).

Definition block_bytes (blocks : option Z) : Z := match blocks with Some n => n * 512 | None => 0 end.

Definition sum_of {A} (f : A → Z) (l : list A) : Z := foldr (λ x n, f x + n) 0 l.

(** [_allocated_bytes], below a root. *)
Fixpoint allocated_bytes (u : usage) : Z :=
  match u with
  | UseDir blocks true children =>
      block_bytes blocks
      + sum_of (λ c, match c with UseFile b => block_bytes b | UseDirLink _ | UseDir _ _ _ => allocated_bytes c end) children
  | _ => 0
  end.

(** ** The guard *)

(** A turn: whether [stop.wait] returned true, the workspaces, the flag after measuring them,
    and the answer of [docker kill]. *)
Record tick := {
  tk_stop : bool;
  tk_roots : list usage;
  tk_stop_set : bool;
  tk_kill : result (Z * pystr)
}.

Inductive guard_end := Watching | Stopped | Killed | Died (e : exn).

Section guard.
Context (docker name : pystr) (budget : Z).

Definition over_budget (t : tick) : bool := budget <? sum_of allocated_bytes (tk_roots t).

(** The commands of the thread, and how it ended after these turns. *)
Fixpoint guard_workspace (ticks : list tick) : list (list pystr) * guard_end :=
  match ticks with
  | [] => ([], Watching)
  | t :: rest =>
      if tk_stop t then ([], Stopped)
      else if over_budget t && negb (tk_stop_set t) then
        let kill := kill_command docker name in
        match control_call (tk_kill t) with
        | Raise e => ([kill], Died e)
        | Ok (returncode, _) =>
            if returncode =? 0 then ([kill], Killed)
            else let '(issued, e) := guard_workspace rest in (kill :: issued, e)
        end
      else guard_workspace rest
  end.
End guard.

(** ** Properties *)

(** The process a supervisor launches, as the host of [run_container] sees it. *)
Definition launched (c : child_process) : result (list bytes * list bytes * bool) :=
  match ch_popen c with
  | Ok _ => Ok (ch_stdout c, ch_stderr c, negb (ch_in_time c))
  | Raise e => if bool_decide (exn_cls e = OSError) || is_value_error (exn_cls e)
               then raise SupervisorError "container launch failed" else Raise e
  end.

(** (refinement): the container's result is that of its process: both streams and their overflow
    are what the drained pipes of the child held within the limits (the beginning of what
    was delivered, marked when there was more), it timed out when the watchdog killed
    it, and a child that cannot be started fails the run. *)
Theorem process_result (h : host) (docker : pystr) (request : ContainerRequest) (policy : SupervisorPolicy) (c : child_process)
    (r : ContainerResult) (issued : list (list pystr)) :
  launch h (run_command docker request policy) (cr_stdin request) (cr_timeout_s request + watchdog_slack_s policy) = launched c →
  1 <= cr_max_stdout_bytes request → 1 <= cr_max_stderr_bytes request →
  run_body h docker request policy = (Ok r, issued) →
  run_process c (cr_max_stdout_bytes request) (cr_max_stderr_bytes request) =
    Ok (ch_returncode c, stdout r, stderr r, stdout_overflow r, stderr_overflow r, negb (ch_in_time c)) ∧
  stdout r = slice_to (cr_max_stdout_bytes request) (concat (ch_stdout c)) ∧
  stdout_overflow r = (cr_max_stdout_bytes request <? zlen (concat (ch_stdout c))) ∧
  (ch_in_time c = false → timed_out r = true ∧ watchdog_signals c ≠ []).
Proof.
  intros Hl H1 H2. unfold run_body. rewrite Hl. unfold launched, run_process.
  destruct (ch_popen c) as [u|e]; [|by destruct (_ || _)]. rewrite !drain_spec by (change (zlen (@nil ascii)) with 0; lia).
  change (zlen (@nil ascii)) with 0. rewrite !Z.sub_0_r. cbn [app orb]. case_match eqn:Hk; [|done]. intros [= Hr _].
  apply bind_Ok in Hr as (ins & _ & (st & _ & Hr)%bind_Ok). destruct st as [code oom]. injection Hr as <-. cbn. split_and!; try done.
  intros Hw. unfold watchdog_signals. rewrite Hw. split; [done|]. by destruct (ch_killpg c).
Qed.

(** *** The measure *)

(** All the blocks in use. *)
Fixpoint disk_use (u : usage) : Z :=
  match u with
  | UseFile b | UseDirLink b => block_bytes b
  | UseDir b _ children => block_bytes b + sum_of disk_use children
  end.

(** What [os.walk] sees: directories that can be listed, and links that use no block. *)
Fixpoint in_sight (u : usage) : bool :=
  match u with
  | UseFile _ => true
  | UseDirLink b => block_bytes b =? 0
  | UseDir _ listable children => listable && forallb in_sight children
  end.

Definition is_directory (u : usage) : bool := match u with UseDir _ _ _ => true | _ => false end.

(** Induction below the children too. *)
Lemma usage_ind' (P : usage → Prop) :
  (∀ b, P (UseFile b)) → (∀ b, P (UseDirLink b)) → (∀ b l cs, Forall P cs → P (UseDir b l cs)) → ∀ u, P u.
Proof.
  intros Hf Hl Hd. fix IH 1. intros [b|b|b l cs]; [apply Hf|apply Hl|]. apply Hd.
  induction cs as [|c cs IHcs]; constructor; [apply IH|exact IHcs].
Qed.

Lemma allocated_child (u : usage) :
  in_sight u = true → match u with UseFile b => block_bytes b | UseDirLink _ | UseDir _ _ _ => allocated_bytes u end = disk_use u.
Proof.
  induction u as [b|b|b l cs IH] using usage_ind'; cbn [in_sight disk_use allocated_bytes]; [done|by intros ->%Z.eqb_eq|].
  intros [-> Hcs]%andb_true_iff. f_equal. induction IH as [|c cs Hc _ IHcs]; [done|].
  cbn [forallb] in Hcs. apply andb_true_iff in Hcs as [Hs Hcs]. cbn [sum_of foldr]. rewrite (Hc Hs). f_equal. by apply IHcs.
Qed.

(** (equivalence): what the guard measures of a workspace is the disk it uses, every file and
    directory at any depth, as long as every directory can be listed. *)
Theorem measure_exact (roots : list usage) :
  Forall (λ u, is_directory u = true ∧ in_sight u = true) roots → sum_of allocated_bytes roots = sum_of disk_use roots.
Proof.
  induction 1 as [|u roots [Hd Hs] _ IH]; [done|]. cbn [sum_of foldr]. f_equal; [|exact IH].
  pose proof (allocated_child u Hs) as Ha. by destruct u.
Qed.

(** *** The guard *)

Section enforcing.
Context (docker name : pystr) (budget : Z).

Abbreviation guarded := (guard_workspace docker name budget).

(** A turn that neither stops the guard nor fails to ask docker. *)
Definition goes_on (t : tick) : Prop :=
  tk_stop t = false ∧ tk_stop_set t = false ∧ is_ok (control_call (tk_kill t)) = true.

Lemma guard_kills (pre rest : list tick) (t : tick) (out : pystr) :
  Forall goes_on pre → goes_on t → over_budget budget t = true → control_call (tk_kill t) = Ok (0, out) →
  (guarded (pre ++ t :: rest)).2 = Killed.
Proof.
  intros Hpre (Ht & Hts & _) Ho Hk. induction Hpre as [|p pre (Hs & Hset & Hok) _ IH]; cbn [app guard_workspace].
  - by rewrite Ht, Ho, Hts, Hk.
  - rewrite Hs, Hset. destruct (_ && _); [|exact IH]. apply is_ok_true in Hok as [[rc o] ->].
    destruct (rc =? 0); [done|]. destruct (guarded _) as [issued e]. exact IH.
Qed.

Lemma guard_issued (ticks : list tick) (c : list pystr) :
  c ∈ (guarded ticks).1 → c = kill_command docker name ∧
    ∃ t, t ∈ ticks ∧ over_budget budget t = true ∧ tk_stop t = false ∧ tk_stop_set t = false.
Proof.
  induction ticks as [|t rest IH]; cbn [guard_workspace]; [by intros ?%elem_of_nil|].
  assert (Hrest : c ∈ (guarded rest).1 → c = kill_command docker name ∧
    ∃ t', t' ∈ t :: rest ∧ over_budget budget t' = true ∧ tk_stop t' = false ∧ tk_stop_set t' = false).
  { intros [Hc (t' & Hin & H)]%IH. split; [done|]. exists t'. split; [by right|done]. }
  destruct (tk_stop t) eqn:Hs; [by intros ?%elem_of_nil|]. destruct (over_budget budget t && _) eqn:Ho; [|exact Hrest].
  apply andb_true_iff in Ho as [Ho Hset%negb_true_iff].
  assert (Hhere : c = kill_command docker name → c = kill_command docker name ∧
    ∃ t', t' ∈ t :: rest ∧ over_budget budget t' = true ∧ tk_stop t' = false ∧ tk_stop_set t' = false)
    by (intros ->; split; [done|]; exists t; split_and!; [left|done|done|done]).
  destruct (control_call (tk_kill t)) as [[rc o]|e]; [destruct (rc =? 0)|].
  - by intros ->%list_elem_of_singleton; apply Hhere.
  - destruct (guarded rest) as [issued e]. intros [->|Hc]%elem_of_cons; [by apply Hhere|by apply Hrest].
  - by intros ->%list_elem_of_singleton; apply Hhere.
Qed.

(** (safety): the guard kills its own container, and only in a turn that measured more than the
    budget while the run was on; and when a turn measures that, it does kill: after turns
    in which docker answered, the first one in which docker succeeds ends the container. *)
Theorem guard_enforces (pre rest : list tick) (t : tick) (out : pystr) :
  Forall goes_on pre → goes_on t → over_budget budget t = true → control_call (tk_kill t) = Ok (0, out) →
  (guarded (pre ++ t :: rest)).2 = Killed ∧
  ∀ ticks c, c ∈ (guarded ticks).1 → c = kill_command docker name ∧
    ∃ t, t ∈ ticks ∧ budget < sum_of allocated_bytes (tk_roots t) ∧ tk_stop t = false ∧ tk_stop_set t = false.
Proof.
  intros Hpre Ht Ho Hk. split; [by eapply guard_kills|]. intros ticks c [Hc (t' & Hin & Ho' & H)]%guard_issued.
  split; [done|]. exists t'. apply Z.ltb_lt in Ho'. done.
Qed.

(** (error): the guard can be blinded and it can be lost.  A candidate that takes the read
    permission from a directory of its workspace can fill the disk below it with any
    number of bytes: the guard measures nothing there and never kills.  And the first
    call of docker that raises (a timeout of ten seconds is enough) ends the guard: what
    any later turn would measure changes nothing. *)
Theorem guard_hidden (bytes_written : Z) :
  0 <= budget → 0 <= bytes_written →
  (∃ u, is_directory u = true ∧ bytes_written <= disk_use u ∧ ∀ ticks, Forall (λ t, tk_roots t = [u]) ticks →
     (guarded ticks).1 = []) ∧
  ∀ pre t e, Forall goes_on pre → Forall (λ p, over_budget budget p = false) pre → tk_stop t = false → tk_stop_set t = false →
    over_budget budget t = true → control_call (tk_kill t) = Raise e →
    ∀ rest, guarded (pre ++ t :: rest) = ([kill_command docker name], Died e).
Proof.
  intros Hb Hw. split.
  - exists (UseDir (Some 0) true [UseDir (Some 0) false [UseFile (Some bytes_written)]]). split_and!; [done|cbn; lia|].
    induction 1 as [|t ticks Ht _ IH]; [done|]. cbn [guard_workspace]. unfold over_budget. rewrite Ht.
    cbn [sum_of foldr allocated_bytes block_bytes]. rewrite (proj2 (Z.ltb_ge _ _)) by lia. cbn [andb].
    by destruct (tk_stop t).
  - intros pre t e Hgo Hin Ht Hts Ho Hk rest. induction Hin as [|p pre Hp _ IH]; cbn [app guard_workspace].
    + by rewrite Ht, Ho, Hts, Hk.
    + apply Forall_cons in Hgo as [(Hs & _) Hgo]. rewrite Hs, Hp. cbn [andb]. by apply IH.
Qed.
End enforcing.

(** ** Witnesses *)

Definition small_child : child_process :=
  {| ch_popen := Ok (); ch_stdout := [bstr "he"; bstr "llo"]; ch_stderr := []; ch_in_time := false; ch_killpg := true;
     ch_returncode := -9 |}.

Definition small_request : ContainerRequest :=
  {| cr_name := ustr "c"; cr_argv := [ustr "/bin/true"]; cr_cwd := ustr "/"; cr_mounts := []; cr_stdin := [];
     cr_trusted := false; cr_timeout_s := 1; cr_max_stdout_bytes := 4; cr_max_stderr_bytes := 4 |}.

Definition small_host : host :=
  {| runtime_ok := λ _, true; lstat := λ _, None; guard_starts := true; launch := λ _ _ _, launched small_child;
     control := λ c, if bool_decide (c !! 1%nat = Some (ustr "inspect")) then Ok (0, ustr "exited 137 false") else Ok (0, []) |}.

(** Four bytes are kept of five. *)
Lemma process_result_witness :
  ∃ r issued, run_body small_host (ustr "/d") small_request sample_policy = (Ok r, issued) ∧ stdout r = bstr "hell" ∧ timed_out r = true.
Proof.
  destruct (run_body small_host (ustr "/d") small_request sample_policy) as [[r|e] issued] eqn:Hr;
    [|exfalso; revert Hr; vm_compute; discriminate].
  exists r, issued. destruct (process_result small_host (ustr "/d") small_request sample_policy small_child r issued)
    as (_ & Hs & _ & Ht).
  - reflexivity.
  - vm_compute. discriminate.
  - vm_compute. discriminate.
  - exact Hr.
  - split; [reflexivity|]. split; [rewrite Hs; vm_compute; reflexivity|]. exact (proj1 (Ht eq_refl)).
Defined.

Definition small_tree : usage := UseDir (Some 8) true [UseFile (Some 24); UseDir (Some 8) true [UseFile None]].

Lemma measure_exact_witness : sum_of allocated_bytes [small_tree] = 20480 ∧ sum_of disk_use [small_tree] = 20480.
Proof.
  assert (H := measure_exact [small_tree]). split; [reflexivity|]. rewrite <-H; [reflexivity|].
  repeat constructor.
Defined.

(** Docker fails once, then kills. *)
Definition small_tick (answer : Z) : tick :=
  {| tk_stop := false; tk_roots := [small_tree]; tk_stop_set := false; tk_kill := Ok (answer, []) |}.

Lemma guard_enforces_witness :
  (guard_workspace (ustr "/d") (ustr "c") 4096 ([small_tick 1] ++ small_tick 0 :: [])).2 = Killed.
Proof.
  apply (guard_enforces (ustr "/d") (ustr "c") 4096 [small_tick 1] [] (small_tick 0) []).
  - repeat constructor.
  - repeat constructor.
  - reflexivity.
  - reflexivity.
Defined.

Lemma guard_hidden_witness :
  ∃ u, is_directory u = true ∧ 10 ^ 15 <= disk_use u ∧ allocated_bytes u <= 10 * 1024 ^ 3.
Proof.
  destruct (guard_hidden (ustr "/d") (ustr "c") 0 (10 ^ 15)) as [(u & Hd & Hu & Hall) _]; [lia|lia|].
  exists u. split; [exact Hd|]. split; [exact Hu|].
  specialize (Hall [{| tk_stop := false; tk_roots := [u]; tk_stop_set := false; tk_kill := Ok (0, []) |}] ltac:(repeat constructor)).
  cbn [guard_workspace tk_stop over_budget tk_roots sum_of foldr tk_stop_set tk_kill] in Hall. unfold over_budget in Hall.
  cbn [tk_roots sum_of foldr negb] in Hall. destruct (Z.ltb_spec 0 (allocated_bytes u + 0)); [discriminate Hall|]. lia.
Defined.
