(* ===== verification/Manifest.v ===== *)
(** * Verifier manifests ([src/rlvr/v3/manifest.py])

    The parsed JSON value is a [pyobj]; the verifier directory is a [node]. *)

From S2P Require Import Prelude PyFloat Text Json JsonSpec Canonical CanonicalSpec Wire Identity FileSystem Supervisor.

Local Open Scope Z_scope.

Definition MAX_OUTPUT : Z := Z.shiftl 8 20.
Definition MAX_MANIFEST : Z := Z.shiftl 1 20.

Inductive TaskType := repository_patch | terminal_script.
#[export] Instance TaskType_eq_dec : EqDecision TaskType. Proof. solve_decision. Defined.

Definition task_type_value (t : TaskType) : pystr :=
  match t with
  | repository_patch => ustr "repository_patch_v1"
  | terminal_script => ustr "terminal_script_v1"
  end.

Record Expectation := { exp_exit_code : Z; exp_stdout : pystr; exp_stderr : option pystr }.
Record SetupStep := { setup_argv : list pystr; setup_timeout_s : Z; setup_max_output_bytes : Z }.

(** What both kinds of check have. *)
Record CheckCommon := {
  check_id : pystr;
  check_argv : list pystr;
  check_timeout_s : Z;
  check_max_stdout_bytes : Z;
  check_max_stderr_bytes : Z;
  check_expect : Expectation
}.

Inductive Check :=
  | InvocationCheck (common : CheckCommon) (cwd : pystr) (stdin : option pystr)
  | InspectionCheck (common : CheckCommon).

Definition common (c : Check) : CheckCommon :=
  match c with InvocationCheck k _ _ => k | InspectionCheck k => k end.

Record VerifierManifest := {
  manifest_version : Z;
  manifest_task_type : TaskType;
  manifest_setup : option SetupStep;
  manifest_checks : list Check
}.

Definition merr {A} (msg : string) : result A := raise ManifestError msg.

(** ** Fields of a JSON object *)

Definition dict_get (d : list (pyobj * pyobj)) (k : string) : option pyobj :=
  snd <$> find (λ kv, match kv.1 with PStr s => bool_decide (s = ustr k) | _ => false end) d.

(** [set(value) == required] for a dict with distinct keys. *)
Definition same_keys (d : list (pyobj * pyobj)) (required : list string) : bool :=
  forallb (λ kv, match kv.1 with
                 | PStr s => existsb (λ k, bool_decide (s = ustr k)) required
                 | _ => false
                 end) d
  && forallb (λ k, bool_decide (is_Some (dict_get d k))) required.

Definition exact_keys (value : pyobj) (required : list string) : result (list (pyobj * pyobj)) :=
  match value with
  | PDict d =>
      raise_if (negb (same_keys d required)) ManifestError "manifest fields do not match the schema";;
      mret d
  | _ => merr "manifest fields do not match the schema"
  end.

(** [item[k]] of a key that [exact_keys] required. *)
Definition item (d : list (pyobj * pyobj)) (k : string) : pyobj := default PNone (dict_get d k).

Definition bounded_int (value : pyobj) (low high : Z) : result Z :=
  match value with
  | PInt z =>
      raise_if (negb ((low <=? z) && (z <=? high))) ManifestError
        "manifest integer is outside its allowed range";;
      mret z
  | _ => merr "manifest integer is outside its allowed range"
  end.

Section manifest.
Context `{!UnicodeData}.

Definition absolute_executable (value : pystr) (inspection : bool) : result unit :=
  raise_if (negb (startswith [slash] value) || startswith [slash; slash] value
            || bool_decide (value = [slash]) || negb (bool_decide (normpath value = value))
            || contains [0%N] value)
    ManifestError "manifest executable path is invalid";;
  raise_if (inspection && existsb (λ root, bool_decide (value = root) || startswith (root ++ [slash]) value)
              [ustr "/result"; ustr "/verify"])
    ManifestError "inspection executable is not trusted".

Definition argument (value : pyobj) : result pystr :=
  match value with
  | PStr s =>
      raw ← utf8_encode s;
      raise_if (negb ((1 <=? zlen raw) && (zlen raw <=? 65536)) || contains [0%N] s) ManifestError
        "manifest argument is invalid";;
      mret s
  | _ => merr "manifest argument is invalid"
  end.

Definition argv (value : pyobj) (inspection : bool) : result (list pystr) :=
  match value with
  | PList l =>
      raise_if (negb ((1 <=? zlen l) && (zlen l <=? 64))) ManifestError "manifest argv is invalid";;
      r ← mapM argument l;
      absolute_executable (default [] (head r)) inspection;;
      mret r
  | _ => merr "manifest argv is invalid"
  end.

Definition relative (value : pyobj) : result pystr :=
  match value with
  | PStr s => catch (validate_relative_path s) is_value_error (λ _, merr "manifest path is invalid")
  | _ => merr "manifest path is invalid"
  end.

Definition rooted (value : pyobj) (root : pystr) : result pystr :=
  path ← relative value;
  raise_if (bool_decide (path = root) || negb (startswith (root ++ [slash]) path)) ManifestError
    "manifest reference has the wrong root";;
  mret path.

Definition rooted_nullable (value : pyobj) (root : pystr) : result (option pystr) :=
  match value with
  | PNone => Ok None
  | _ => Some <$> rooted value root
  end.

Definition gold : pystr := ustr "gold".
Definition inputs : pystr := ustr "inputs".

Definition expectation (value : pyobj) : result Expectation :=
  d ← exact_keys value ["exit_code"; "stdout"; "stderr"]%string;
  code ← bounded_int (item d "exit_code") 0 255;
  out ← rooted (item d "stdout") gold;
  err ← rooted_nullable (item d "stderr") gold;
  mret {| exp_exit_code := code; exp_stdout := out; exp_stderr := err |}.

Definition setup (value : pyobj) : result (option SetupStep) :=
  match value with
  | PNone => Ok None
  | _ =>
      d ← exact_keys value ["argv"; "timeout_s"; "max_output_bytes"]%string;
      a ← argv (item d "argv") false;
      t ← bounded_int (item d "timeout_s") 1 300;
      m ← bounded_int (item d "max_output_bytes") 1 MAX_OUTPUT;
      mret (Some {| setup_argv := a; setup_timeout_s := t; setup_max_output_bytes := m |})
  end.

Definition check_common_keys : list string :=
  ["check_id"; "kind"; "argv"; "timeout_s"; "max_stdout_bytes"; "max_stderr_bytes"; "expect"]%string.

Definition shared_fields (d : list (pyobj * pyobj)) (inspection : bool) : result CheckCommon :=
  match item d "check_id" with
  | PStr id =>
      raise_if (negb (token_name 32 id)) ManifestError "manifest check ID is invalid";;
      a ← argv (item d "argv") inspection;
      t ← bounded_int (item d "timeout_s") 1 300;
      o ← bounded_int (item d "max_stdout_bytes") 1 MAX_OUTPUT;
      e ← bounded_int (item d "max_stderr_bytes") 1 MAX_OUTPUT;
      x ← expectation (item d "expect");
      mret {| check_id := id; check_argv := a; check_timeout_s := t; check_max_stdout_bytes := o;
              check_max_stderr_bytes := e; check_expect := x |}
  | _ => merr "manifest check ID is invalid"
  end.

(** [value.get("kind") == kind] *)
Definition kind_is (d : list (pyobj * pyobj)) (kind : string) : bool :=
  match dict_get d "kind" with Some (PStr s) => bool_decide (s = ustr kind) | _ => false end.

Definition check (value : pyobj) : result Check :=
  match value with
  | PDict d0 =>
      if kind_is d0 "invocation" then
        d ← exact_keys value (check_common_keys ++ ["cwd"; "stdin"]%string);
        k ← shared_fields d false;
        c ← relative (item d "cwd");
        i ← rooted_nullable (item d "stdin") inputs;
        mret (InvocationCheck k c i)
      else if kind_is d0 "inspection" then
        d ← exact_keys value check_common_keys;
        k ← shared_fields d true;
        mret (InspectionCheck k)
      else merr "manifest check kind is invalid"
  | _ => merr "manifest check is invalid"
  end.

Definition parse_manifest (raw : bytes) (task_type : TaskType) : result VerifierManifest :=
  catch
    (value ← parse_strict_json raw;
     root ← exact_keys value ["manifest_version"; "task_type"; "setup"; "checks"]%string;
     raise_if (match item root "task_type" with
               | PStr s => negb (bool_decide (s = task_type_value task_type))
               | _ => true
               end) ManifestError "manifest task type does not match";;
     version ← bounded_int (item root "manifest_version") 1 1;
     match item root "checks" with
     | PList raw_checks =>
         raise_if (negb ((1 <=? zlen raw_checks) && (zlen raw_checks <=? 64))) ManifestError
           "manifest check count is invalid";;
         checks ← mapM check raw_checks;
         raise_if (has_duplicates (map (λ c, check_id (common c)) checks)) ManifestError
           "manifest check IDs are not unique";;
         s ← setup (item root "setup");
         mret {| manifest_version := version; manifest_task_type := task_type;
                 manifest_setup := s; manifest_checks := checks |}
     | _ => merr "manifest check count is invalid"
     end)
    (λ c, (is_value_error c || bool_decide (c = TypeError)) && negb (bool_decide (c = ManifestError)))
    (λ _, merr "manifest is invalid").

(** ** The verifier directory *)

Definition fs_child (current : node) (name : pystr) : option node :=
  match current with NDir _ children => child name children | _ => None end.

(** [_regular_file]: no component is a link, the last one is a regular file. *)
Fixpoint regular_walk (current : node) (segments : list pystr) : result node :=
  match segments with
  | [] =>
      match current with
      | NFile _ _ _ => Ok current
      | _ => merr "manifest reference is not a regular file"
      end
  | segment :: segments' =>
      match fs_child current segment with
      | None => merr "manifest reference is unavailable"
      | Some (NLink _) => merr "manifest reference is a symbolic link"
      | Some n => regular_walk n segments'
      end
  end.

Definition regular_file (root : node) (rel : pystr) : result node :=
  regular_walk root (split_on slash rel).

Definition file_content (n : node) : bytes := match n with NFile _ _ c => c | _ => [] end.

Definition verify_prefix : pystr := ustr "/verify/".

Definition check_references (root : node) (c : Check) : result unit :=
  (match c with
   | InvocationCheck _ _ (Some i) => regular_file root i;; mret ()
   | InvocationCheck _ _ None => mret ()
   | InspectionCheck k =>
       for_each (λ a,
         if startswith verify_prefix a then
           rel ← relative (PStr (ustr "checks/" ++ drop (length verify_prefix) a));
           regular_file root rel;; mret ()
         else mret ()) (tail (check_argv k))
   end);;
  let k := common c in
  out ← regular_file root (exp_stdout (check_expect k));
  raise_if (check_max_stdout_bytes k <? st_size out) ManifestError
    "expected stdout exceeds its check limit";;
  match exp_stderr (check_expect k) with
  | Some e =>
      err ← regular_file root e;
      raise_if (check_max_stderr_bytes k <? st_size err) ManifestError
        "expected stderr exceeds its check limit"
  | None => Ok ()
  end.

Definition layout_names : list pystr := map ustr ["checks"; "inputs"; "gold"]%string.

Definition load_manifest (root : node) (task_type : TaskType) : result VerifierManifest :=
  match root with
  | NDir _ children =>
      raise_if (existsb (λ nc, negb (bool_decide (nc.1 ∈ ustr "manifest.json" :: layout_names)))
                  children) ManifestError "verifier directory has an unexpected entry";;
      for_each (λ name,
        raise_if (match child name children with Some n => negb (is_dir n) | None => false end)
          ManifestError "verifier directory layout is invalid") layout_names;;
      manifest_file ← regular_file root (ustr "manifest.json");
      raise_if (MAX_MANIFEST <? st_size manifest_file) ManifestError "manifest file is too large";;
      manifest ← parse_manifest (file_content manifest_file) task_type;
      for_each (check_references root) (manifest_checks manifest);;
      mret manifest
  | _ => merr "verifier directory is invalid"
  end.
End manifest.

(** ** Lemmas *)

Section manifest_lemmas.
Context `{UD : !UnicodeData}.

Lemma regular_walk_Ok (root f : node) (segments : list pystr) :
  regular_walk root segments = Ok f →
  fs_lookup root segments = Some f ∧ ∃ m k c, f = NFile m k c.
Proof.
  revert root. induction segments as [|s segments IH]; intros root; simpl.
  - destruct root; try done. intros [= <-]. eauto.
  - destruct (fs_child root s) as [n|] eqn:Hc; [|done]. unfold fs_child in Hc.
    destruct root as [|m ch| |]; try done. rewrite Hc. simpl.
    intros Hr. apply IH. by destruct n.
Qed.

Lemma bounded_int_Ok (v : pyobj) (low high z : Z) :
  bounded_int v low high = Ok z → v = PInt z ∧ low <= z <= high.
Proof.
  unfold bounded_int. destruct v; try done. rewrite guard_Ok. intros [Hb [= <-]].
  apply negb_false_iff, andb_true_iff in Hb. rewrite !Z.leb_le in Hb. done.
Qed.

Lemma rooted_Ok (v : pyobj) (root p : pystr) :
  rooted v root = Ok p → startswith (root ++ [slash]) p = true ∧
  validate_relative_path p = Ok p.
Proof.
  unfold rooted. intros (q & Hq & Hp)%bind_Ok. rewrite guard_Ok in Hp.
  destruct Hp as [Hb [= <-]]. apply orb_false_iff in Hb as [_ Hb%negb_false_iff]. split; [done|].
  unfold relative, catch in Hq. destruct v; try done.
  destruct (validate_relative_path s) as [r|e] eqn:Hr; [|by destruct (is_value_error _)].
  injection Hq as <-. pose proof (validate_relative_path_Ok _ _ Hr) as [-> _]. done.
Qed.

Lemma argv_Ok (v : pyobj) (inspection : bool) (r : list pystr) :
  argv v inspection = Ok r →
  1 <= zlen r <= 64 ∧ ∃ exe args, r = exe :: args ∧ absolute_executable exe inspection = Ok ().
Proof.
  unfold argv. destruct v; try done. rewrite guard_Ok. intros [Hb H'].
  apply negb_false_iff, andb_true_iff in Hb. rewrite !Z.leb_le in Hb.
  apply bind_Ok in H' as (x & Hx & H'). apply seq_Ok in H' as [He [= <-]].
  apply mapM_Ok, Forall2_length in Hx. unfold zlen in *. rewrite <-Hx. split; [done|].
  destruct x as [|exe args]; [simpl in Hx; lia|]. by exists exe, args.
Qed.

(** The fields common to both kinds of check are within their bounds. *)
Definition sound_common (inspection : bool) (k : CheckCommon) : Prop :=
  1 <= check_timeout_s k <= 300 ∧ 1 <= check_max_stdout_bytes k <= MAX_OUTPUT ∧
  1 <= check_max_stderr_bytes k <= MAX_OUTPUT ∧
  0 <= exp_exit_code (check_expect k) <= 255 ∧
  startswith (gold ++ [slash]) (exp_stdout (check_expect k)) = true ∧
  (∃ exe args, check_argv k = exe :: args ∧ absolute_executable exe inspection = Ok ()).

Lemma shared_fields_Ok (d : list (pyobj * pyobj)) (inspection : bool) (k : CheckCommon) :
  shared_fields d inspection = Ok k → sound_common inspection k.
Proof.
  unfold shared_fields. destruct (item d "check_id"); try done. rewrite guard_Ok.
  intros [_ H']. apply bind_Ok in H' as (a & [_ Ha]%argv_Ok & H').
  apply bind_Ok in H' as (t & [_ Ht]%bounded_int_Ok & H').
  apply bind_Ok in H' as (o & [_ Ho]%bounded_int_Ok & H').
  apply bind_Ok in H' as (e & [_ He]%bounded_int_Ok & H').
  apply bind_Ok in H' as (x & Hx & [= <-]).
  unfold expectation in Hx. apply bind_Ok in Hx as (dx & _ & Hx).
  apply bind_Ok in Hx as (c & [_ Hc]%bounded_int_Ok & Hx).
  apply bind_Ok in Hx as (out & [Hout _]%rooted_Ok & Hx).
  apply bind_Ok in Hx as (er & _ & [= <-]).
  unfold sound_common. simpl. tauto.
Qed.

Definition is_inspection (c : Check) : bool :=
  match c with InspectionCheck _ => true | InvocationCheck _ _ _ => false end.

Lemma check_Ok (v : pyobj) (c : Check) :
  check v = Ok c → sound_common (is_inspection c) (common c).
Proof.
  unfold check. destruct v; try done. case_match.
  - intros (d & _ & H')%bind_Ok. apply bind_Ok in H' as (k & Hk%shared_fields_Ok & H').
    apply bind_Ok in H' as (cw & _ & H'). by apply bind_Ok in H' as (i & _ & [= <-]).
  - case_match; [|done]. intros (d & _ & H')%bind_Ok.
    by apply bind_Ok in H' as (k & Hk%shared_fields_Ok & [= <-]).
Qed.

Lemma parse_manifest_Ok (raw : bytes) (tt : TaskType) (m : VerifierManifest) :
  parse_manifest raw tt = Ok m →
  manifest_task_type m = tt ∧ manifest_version m = 1 ∧ 1 <= zlen (manifest_checks m) <= 64 ∧
  NoDup (map (λ c, check_id (common c)) (manifest_checks m)) ∧
  Forall (λ c, sound_common (is_inspection c) (common c)) (manifest_checks m).
Proof.
  unfold parse_manifest, catch. case_match eqn:Hm; [|by destruct (_ && _)]. intros [= <-].
  apply bind_Ok in Hm as (v & _ & Hm). apply bind_Ok in Hm as (root & _ & Hm).
  rewrite guard_Ok in Hm. destruct Hm as [_ Hm].
  apply bind_Ok in Hm as (ver & [_ Hver]%bounded_int_Ok & Hm).
  destruct (item root "checks"); try done. rewrite guard_Ok in Hm. destruct Hm as [Hb Hm].
  apply negb_false_iff, andb_true_iff in Hb. rewrite !Z.leb_le in Hb.
  apply bind_Ok in Hm as (cs & Hcs & Hm). rewrite guard_Ok in Hm. destruct Hm as [Hdup Hm].
  apply bind_Ok in Hm as (s & _ & [= <-]). simpl. apply has_duplicates_false in Hdup.
  apply mapM_Ok in Hcs. split_and!; try done; try lia.
  - apply Forall2_length in Hcs. unfold zlen in *. lia.
  - apply Forall2_length in Hcs. unfold zlen in *. lia.
  - clear -Hcs. induction Hcs; constructor; [by eapply check_Ok|done].
Qed.

(** The files a check of a loaded manifest refers to are there. *)
Definition references_present (root : node) (c : Check) : Prop :=
  (∃ m k out, fs_lookup root (split_on slash (exp_stdout (check_expect (common c))))
     = Some (NFile m k out) ∧ zlen out <= check_max_stdout_bytes (common c)) ∧
  (∀ e, exp_stderr (check_expect (common c)) = Some e →
     ∃ m k err, fs_lookup root (split_on slash e) = Some (NFile m k err) ∧
       zlen err <= check_max_stderr_bytes (common c)) ∧
  (∀ k cwd i, c = InvocationCheck k cwd (Some i) →
     ∃ m l content, fs_lookup root (split_on slash i) = Some (NFile m l content)).

Lemma check_references_Ok (root : node) (c : Check) :
  check_references root c = Ok () → references_present root c.
Proof.
  unfold check_references. rewrite seq_Ok. intros [Href H'].
  apply bind_Ok in H' as (out & Hout & H'). rewrite guard_Ok in H'. destruct H' as [Hs%Z.ltb_ge H'].
  apply regular_walk_Ok in Hout as (Hlo & mo & ko & co & ->). split_and!.
  - by exists mo, ko, co.
  - intros e He. rewrite He in H'. apply bind_Ok in H' as (err & Herr & H').
    apply raise_if_Ok, Z.ltb_ge in H'. apply regular_walk_Ok in Herr as (Hle & me & ke & ce & ->).
    by exists me, ke, ce.
  - intros k cwd i ->. apply bind_Ok in Href as (f & Hf & _).
    apply regular_walk_Ok in Hf as (Hf & m & l & content & ->). by exists m, l, content.
Qed.
End manifest_lemmas.

(** (safety): a loaded manifest has the task's type, one to 64 checks with
    distinct ids, and every check is sound: limits within their bounds, an absolute
    executable (which for a trusted inspection is not in the candidate's result nor
    in the verifier mount), an expected stdout below [gold/], and every file it
    refers to is a regular file reached without links, no larger than the limit of
    the stream it is compared with. *)
Theorem loaded_manifest_sound `{UD : !UnicodeData} (root : node) (tt : TaskType)
    (m : VerifierManifest) :
  load_manifest root tt = Ok m →
  manifest_task_type m = tt ∧ 1 <= zlen (manifest_checks m) <= 64 ∧
  NoDup (map (λ c, check_id (common c)) (manifest_checks m)) ∧
  Forall (λ c, sound_common (is_inspection c) (common c) ∧ references_present root c)
    (manifest_checks m).
Proof.
  unfold load_manifest. destruct root as [|mode children| |]; try done.
  rewrite guard_Ok, seq_Ok. intros (_ & _ & H').
  apply bind_Ok in H' as (f & _ & H'). rewrite guard_Ok in H'. destruct H' as [_ H'].
  apply bind_Ok in H' as (m' & Hm%parse_manifest_Ok & H'). apply seq_Ok in H' as [Hrefs [= <-]].
  destruct Hm as (H1 & _ & H2 & H3 & H4). apply for_each_Ok in Hrefs.
  split; [done|]. split; [done|]. split; [done|].
  apply Forall_and. split; [done|]. eapply Forall_impl; [exact Hrefs|].
  intros c Hc. by apply check_references_Ok.
Qed.

Section manifest_errors.
Context `{UD : !UnicodeData}.

Lemma parse_strict_json_fueled (raw : bytes) : fueled (parse_strict_json raw).
Proof.
  pose proof (parse_strict_json_class raw) as Hc.
  destruct (parse_strict_json raw); [done|]. simpl. by rewrite Hc.
Qed.

Lemma bounded_int_fueled (v : pyobj) (lo hi : Z) : fueled (bounded_int v lo hi).
Proof. unfold bounded_int, merr. fueled_tac. Qed.

Lemma exact_keys_fueled (v : pyobj) (ks : list string) : fueled (exact_keys v ks).
Proof. unfold exact_keys, merr. fueled_tac. Qed.

Lemma relative_fueled (v : pyobj) : fueled (relative v).
Proof.
  unfold relative, catch, merr. destruct v; try done.
  pose proof (validate_relative_path_fueled s) as Hp.
  destruct (validate_relative_path s) as [|x]; [done|]. simpl in Hp. by rewrite Hp.
Qed.

Lemma rooted_fueled (v : pyobj) (root : pystr) : fueled (rooted v root).
Proof. pose proof relative_fueled. unfold rooted. fueled_tac. Qed.

Lemma rooted_nullable_fueled (v : pyobj) (root : pystr) : fueled (rooted_nullable v root).
Proof. pose proof rooted_fueled. unfold rooted_nullable. destruct v; try done; fueled_tac. Qed.

Lemma argv_fueled (v : pyobj) (i : bool) : fueled (argv v i).
Proof.
  assert (Harg : ∀ x, fueled (argument x)) by (intros []; unfold argument, merr; fueled_tac).
  unfold argv, merr, absolute_executable. fueled_tac.
Qed.

Lemma expectation_fueled (v : pyobj) : fueled (expectation v).
Proof.
  pose proof exact_keys_fueled. pose proof bounded_int_fueled. pose proof rooted_fueled.
  pose proof rooted_nullable_fueled. unfold expectation. fueled_tac.
Qed.

Lemma setup_fueled (v : pyobj) : fueled (setup v).
Proof.
  pose proof exact_keys_fueled. pose proof bounded_int_fueled. pose proof argv_fueled.
  unfold setup. fueled_tac.
Qed.

Lemma shared_fields_fueled (d : list (pyobj * pyobj)) (i : bool) : fueled (shared_fields d i).
Proof.
  pose proof expectation_fueled. pose proof bounded_int_fueled. pose proof argv_fueled.
  unfold shared_fields, merr. fueled_tac.
Qed.

Lemma check_fueled (v : pyobj) : fueled (check v).
Proof.
  pose proof exact_keys_fueled. pose proof shared_fields_fueled. pose proof relative_fueled.
  pose proof rooted_nullable_fueled. unfold check, merr. destruct v; fueled_tac.
Qed.
End manifest_errors.

(** (error): parsing a manifest never fails with anything but [ManifestError],
    on any input bytes. *)
Theorem parse_manifest_error `{UD : !UnicodeData} (raw : bytes) (tt : TaskType) :
  match parse_manifest raw tt with
  | Ok m => manifest_task_type m = tt
  | Raise e => exn_cls e = ManifestError
  end.
Proof.
  destruct (parse_manifest raw tt) as [m|e] eqn:Hp; [by apply parse_manifest_Ok in Hp as [? _]|].
  revert Hp. unfold parse_manifest, catch. set (body := parse_strict_json raw ≫= _).
  assert (Hbody : fueled body).
  { pose proof parse_strict_json_fueled. pose proof exact_keys_fueled.
    pose proof bounded_int_fueled. pose proof check_fueled. pose proof setup_fueled.
    unfold body, merr. fueled_tac. }
  destruct body as [m|x]; [done|]. simpl in Hbody. rewrite Hbody. simpl.
  case_bool_decide as Hm; simpl; [by intros [= <-]|by intros [= <-]].
Qed.

(** ** Witness *)

Definition manifest_text : bytes := bstr
  "{'checks':[{'argv':['/usr/bin/true'],'check_id':'c1','cwd':'.','expect':{'exit_code':0,'stderr':null,'stdout':'gold/out'},'kind':'invocation','max_stderr_bytes':10,'max_stdout_bytes':10,'stdin':null,'timeout_s':5}],'manifest_version':1,'setup':null,'task_type':'terminal_script_v1'}".

(** The same text with double quotes. *)
Definition json_of (s : bytes) : bytes :=
  map (λ c, if Ascii.eqb c "'"%char then ascii_of_N 34 else c) s.

Definition sample_verifier : node :=
  NDir 493 [(ustr "manifest.json", NFile 420 1 (json_of manifest_text));
            (ustr "gold", NDir 493 [(ustr "out", NFile 420 1 (bstr "ok"))])].

Definition sample_manifest : VerifierManifest :=
  {| manifest_version := 1; manifest_task_type := terminal_script; manifest_setup := None;
     manifest_checks :=
       [InvocationCheck
          {| check_id := ustr "c1"; check_argv := [ustr "/usr/bin/true"]; check_timeout_s := 5;
             check_max_stdout_bytes := 10; check_max_stderr_bytes := 10;
             check_expect := {| exp_exit_code := 0; exp_stdout := ustr "gold/out";
                                exp_stderr := None |} |} (ustr ".") None] |}.

Lemma loaded_manifest_sound_witness : 1 <= zlen (manifest_checks sample_manifest) <= 64.
Proof.
  apply (loaded_manifest_sound (UD := ascii_unicode) sample_verifier terminal_script sample_manifest).
  vm_compute. reflexivity.
Defined.
