(* ===== verification/Feedback.v ===== *)
(** * The bounded display of a failed check ([src/rlvr/v3/feedback.py]) *)

From S2P Require Import Prelude PyFloat Text Json JsonSpec Canonical CanonicalSpec Wire Identity Api FileSystem Supervisor Manifest.

Local Open Scope Z_scope.

Definition INLINE_SCRIPT_PLACEHOLDER : pystr := ustr "<inline script below>".
Definition WORK : pystr := ustr "/work".
Definition INTERPRETERS : list pystr := [ustr "/usr/bin/python3"; ustr "/usr/local/bin/python3"].

Definition path_character (c : N) : bool :=
  ((65 <=? c) && (c <=? 90) || (97 <=? c) && (c <=? 122) || is_digit c
   || existsb (N.eqb c) [95; 45; 46; 47])%N.

Definition escaped_bytes (text : pystr) : Z := zlen (json_quote_ascii text).

(** [None] stands for a value that is not a string. *)
Definition is_bounded_display (value : option pystr) : bool :=
  match value with
  | Some v => (0 <? zlen v) && (zlen v <=? FAILED_CHECK_MAX_BYTES)
              && (escaped_bytes v <=? FAILED_CHECK_MAX_BYTES)
  | None => false
  end.

Definition path_characters (value : pystr) : bool :=
  negb (bool_decide (value = [])) && forallb path_character value.

Definition no_parent (value : pystr) : bool := negb (bool_decide (dotdot ∈ split_on slash value)).

Definition eligible_cwd (cwd : pystr) : bool :=
  path_characters cwd && bool_decide (normpath cwd = cwd)
  && (bool_decide (cwd = WORK) || startswith (WORK ++ [slash]) cwd).

(** [posixpath.join(cwd, name)] of a relative name. *)
Definition path_join (cwd name : pystr) : pystr :=
  if bool_decide (cwd = []) || endswith [slash] cwd then cwd ++ name else cwd ++ [slash] ++ name.

Definition eligible_script (script cwd : pystr) : bool :=
  if (FAILED_CHECK_MAX_BYTES <? zlen script) || negb (path_characters script)
     || negb (no_parent script) || startswith (ustr "-") script
     || negb (endswith (ustr ".py") script)
  then false
  else
    let resolved :=
      normpath (if startswith [slash] script then script else path_join cwd script) in
    startswith (WORK ++ [slash]) resolved.

Definition json_list_ascii (items : list pystr) : pystr :=
  [91%N] ++ join [44%N] (map json_quote_ascii items) ++ [93%N].

Definition newline : pystr := [10%N].

(** The script shown inline, if the command is eligible at all. *)
Definition shown_script (argv : list pystr) (cwd : pystr) : option (option pystr) :=
  match argv with
  | exe :: args =>
      if negb (existsb (λ i, bool_decide (exe = i)) INTERPRETERS) then None
      else match args with
           | [flag; script] =>
               if bool_decide (flag = ustr "-c") then
                 if bool_decide (script = []) then None else Some (Some script)
               else None
           | [script] => if eligible_script script cwd then Some None else None
           | _ => None
           end
  | [] => None
  end.

Definition display_text (argv : list pystr) (cwd : pystr) (exit_code : Z) (inline : option pystr)
    (stdin_text stdout_text : pystr) (stderr_text : option pystr) : pystr :=
  let shown_argv :=
    match inline with Some _ => <[2%nat := INLINE_SCRIPT_PLACEHOLDER]> argv | None => argv end in
  let lines :=
    [ustr "Command (argv): " ++ json_list_ascii shown_argv;
     ustr "Working directory: " ++ json_quote_ascii cwd;
     ustr "Stdin: " ++ json_quote_ascii stdin_text;
     ustr "Required exit code: " ++ str_of_int exit_code;
     ustr "Required stdout: " ++ json_quote_ascii stdout_text;
     ustr "Required stderr: " ++
       match stderr_text with None => ustr "not checked" | Some t => json_quote_ascii t end] in
  join newline (lines ++ match inline with Some s => [ustr "Inline script:"; s] | None => [] end).

Definition render_failed_check (c : Check) (request : ContainerRequest) (expected_stdout : bytes)
    (expected_stderr : option bytes) : option pystr :=
  match c with
  | InspectionCheck _ => None
  | InvocationCheck k _ check_stdin =>
      if cr_trusted request || negb (bool_decide (cr_argv request = check_argv k)) then None
      else if negb (eligible_cwd (cr_cwd request)) then None
      else
        inline ← shown_script (check_argv k) (cr_cwd request);
        if negb (Bool.eqb (bool_decide (expected_stderr = None))
                          (bool_decide (exp_stderr (check_expect k) = None))) then None
        else if bool_decide (check_stdin = None) && negb (bool_decide (cr_stdin request = []))
        then None
        else if existsb (λ raw : bytes, FAILED_CHECK_MAX_BYTES <? zlen raw)
                  [cr_stdin request; expected_stdout; default [] expected_stderr]
        then None
        else
          stdin_text ← result_to_option (utf8_decode (cr_stdin request));
          stdout_text ← result_to_option (utf8_decode expected_stdout);
          stderr_text ← (match expected_stderr with
                         | None => Some None
                         | Some e => Some <$> result_to_option (utf8_decode e)
                         end);
          let display := display_text (check_argv k) (cr_cwd request)
                           (exp_exit_code (check_expect k)) inline stdin_text stdout_text
                           stderr_text in
          if escaped_bytes display <=? FAILED_CHECK_MAX_BYTES then Some display else None
  end.

Lemma bounded_of_escaped (d : pystr) :
  d ≠ [] → escaped_bytes d <= FAILED_CHECK_MAX_BYTES → is_bounded_display (Some d) = true.
Proof.
  intros Hd He. unfold is_bounded_display. pose proof (json_quote_ascii_length d).
  unfold escaped_bytes in *. rewrite !andb_true_iff, Z.ltb_lt, !Z.leb_le.
  destruct d as [|c d]; [done|]. unfold zlen in *. simpl length in *. lia.
Qed.

Lemma join_nonempty {A} (sep : list A) (x : A) (w : list A) (ws : list (list A)) :
  join sep ((x :: w) :: ws) ≠ [].
Proof. by destruct ws. Qed.

(** (bounds): a rendered display is always a bounded one (not empty, at most
    256 KiB even when JSON-escaped), and is only rendered for an untrusted run of an
    invocation check: the exact command of the check, a Python interpreter, inside
    the work directory. *)
Theorem render_bounded (c : Check) (request : ContainerRequest) (out : bytes)
    (err : option bytes) (display : pystr) :
  render_failed_check c request out err = Some display →
  is_bounded_display (Some display) = true ∧ is_inspection c = false ∧
  cr_trusted request = false ∧ cr_argv request = check_argv (common c) ∧
  eligible_cwd (cr_cwd request) = true ∧
  ∃ exe args, check_argv (common c) = exe :: args ∧ exe ∈ INTERPRETERS.
Proof.
  unfold render_failed_check. destruct c as [k cwd i|k]; [|done]. cbn [common is_inspection].
  case_match eqn:Ht; [done|]. apply orb_false_iff in Ht as [Ht Ha].
  apply negb_false_iff, bool_decide_eq_true in Ha. case_match eqn:Hc; [done|].
  apply negb_false_iff in Hc. intros Hd. apply bind_Some in Hd as (inl & Hinl & Hd).
  repeat (case_match; [done|]).
  apply bind_Some in Hd as (t1 & _ & Hd). apply bind_Some in Hd as (t2 & _ & Hd).
  apply bind_Some in Hd as (t3 & _ & Hd).
  set (disp := display_text _ _ _ _ _ _ _) in Hd.
  destruct (Z.leb_spec (escaped_bytes disp) FAILED_CHECK_MAX_BYTES) as [Hb|]; [|done].
  injection Hd as <-. split_and!; [|reflexivity|exact Ht|exact Ha|exact Hc|].
  - apply bounded_of_escaped; [|exact Hb]. apply (join_nonempty newline 67%N).
  - unfold shown_script in Hinl. destruct (check_argv k) as [|exe args]; [done|].
    exists exe, args. split; [done|]. case_match eqn:He; [done|].
    apply negb_false_iff, existsb_exists in He as (x & Hx & ->%bool_decide_eq_true).
    by apply list_elem_of_In.
Qed.

(** ** Witness *)

Definition shown_check : Check :=
  InvocationCheck
    {| check_id := ustr "c1"; check_argv := [ustr "/usr/bin/python3"; ustr "t.py"];
       check_timeout_s := 5; check_max_stdout_bytes := 10; check_max_stderr_bytes := 10;
       check_expect := {| exp_exit_code := 0; exp_stdout := ustr "gold/out"; exp_stderr := None |} |}
    (ustr ".") None.

Definition shown_request : ContainerRequest :=
  {| cr_name := ustr "run-1"; cr_argv := [ustr "/usr/bin/python3"; ustr "t.py"];
     cr_cwd := ustr "/work"; cr_mounts := []; cr_stdin := []; cr_timeout_s := 10;
     cr_max_stdout_bytes := 3; cr_max_stderr_bytes := 3; cr_trusted := false |}.

Definition shown_display : pystr :=
  default [] (render_failed_check shown_check shown_request (bstr "ok") None).

Lemma render_bounded_witness : is_bounded_display (Some shown_display) = true.
Proof.
  apply (render_bounded shown_check shown_request (bstr "ok") None shown_display).
  vm_compute. reflexivity.
Defined.
