(* ===== verification/Patch.v ===== *)
(** * Patches ([src/rlvr/v3/patch.py])

    The workspace is a [node]; a run of git (on the host, or in a container) is a
    variable that takes the workspace to its outcome and the changed workspace. *)

From S2P Require Import Prelude PyFloat Text Json JsonSpec Canonical CanonicalSpec Wire Codecs FileSystem Supervisor.

Local Open Scope Z_scope.

Definition ALLOWED_MODES : list bytes := [bstr "100644"; bstr "100755"].
Definition BINARY_MARKERS : list bytes :=
  [bstr "GIT binary patch"; bstr "Binary files "; bstr "literal "; bstr "delta "].
Definition COPY_RENAME_MARKERS : list bytes := map bstr
  ["copy from "; "copy to "; "copy old "; "copy new "; "rename from "; "rename to ";
   "rename old "; "rename new "; "similarity index "; "dissimilarity index "]%string.
Definition MODE_PREFIXES : list bytes := map bstr
  ["old mode "; "new mode "; "new file mode "; "deleted file mode "]%string.
Definition REASON_LIMIT : Z := 200.

Record PatchLimits := { max_patch_bytes : Z; git_timeout_s : Z }.

Definition check_patch_limits (l : PatchLimits) : result unit :=
  raise_if ((max_patch_bytes l <=? 0) || (git_timeout_s l <=? 0)) ValueError
    "patch limits must be positive integers".

Inductive PatchStatus := patch_applied | patch_rejected.
#[export] Instance PatchStatus_eq_dec : EqDecision PatchStatus. Proof. solve_decision. Defined.

Record PatchResult := {
  patch_status : PatchStatus;
  patch_reason : pystr;
  patch_reason_code : option MinerReason
}.

(** [__post_init__] *)
Definition mk_patch_result (st : PatchStatus) (reason : pystr) (code : option MinerReason)
    : result PatchResult :=
  raise_if (bool_decide (st = patch_applied) && negb (bool_decide (reason = []))) ValueError
    "an applied patch cannot have a rejection reason";;
  raise_if (bool_decide (st = patch_rejected) && negb ((0 <? zlen reason) && (zlen reason <=? REASON_LIMIT)))
    ValueError "a rejected patch requires a bounded reason";;
  mret {| patch_status := st; patch_reason := reason; patch_reason_code := code |}.

(** [next((line.strip() for line in reason.splitlines() if line.strip()), "")] *)
Definition first_line (reason : pystr) : pystr :=
  default [] (head (filter (λ l, l ≠ []) (map (strip py_isspace) (str_splitlines reason)))).

Definition rejected (reason : pystr) (code : MinerReason) : result PatchResult :=
  let line := first_line reason in
  let line := if bool_decide (line = []) then ustr "patch rejected" else line in
  mk_patch_result patch_rejected (slice_to REASON_LIMIT line) (Some code).

Definition static_reject (reason : string) : result PatchResult :=
  rejected (ustr reason) PATCH_STATIC_REJECTED.

Definition digit_byte (b : ascii) : bool := is_digit (N_of_ascii b).

(** The mode of a mode line, [_MODE_LINE.fullmatch(line).group(1)]. *)
Definition mode_of_line (line : bytes) : option bytes :=
  match filter (λ p, startswith p line = true) MODE_PREFIXES with
  | p :: _ =>
      let digits := drop (length p) line in
      if negb (bool_decide (digits = [])) && forallb digit_byte digits then Some digits else None
  | [] => None
  end.

(** The reason a line is refused for, if it is. *)
Definition line_rejection (line : bytes) : option string :=
  if existsb (λ m, startswith m line) BINARY_MARKERS then Some "binary patches are not supported"%string
  else if existsb (λ m, startswith m line) COPY_RENAME_MARKERS
  then Some "copy and rename patches are not supported"%string
  else match mode_of_line line with
       | Some mode =>
           if bool_decide (mode ∈ ALLOWED_MODES) then None
           else Some "patch contains an unsupported file mode"%string
       | None => None
       end.

Definition static_rejection (patch : bytes) (limits : PatchLimits) : result (option PatchResult) :=
  if max_patch_bytes limits <? zlen patch then
    Some <$> static_reject "patch exceeds the policy byte limit"
  else if contains [ascii_of_N 0] patch then Some <$> static_reject "patch contains a NUL byte"
  else match utf8_decode patch with
  | Raise e =>
      if bool_decide (exn_cls e = UnicodeDecodeError)
      then Some <$> static_reject "patch is not valid UTF-8" else Raise e
  | Ok _ =>
      match omap line_rejection (bytes_splitlines patch) with
      | msg :: _ => Some <$> static_reject msg
      | [] => Ok None
      end
  end.

Section apply.
Context `{!UnicodeData}.

(** [_walk_tree]: the message of a rejected result, and the normalized workspace. *)
Definition walk_tree (workspace : node) (baseline : bool) : result (option pystr * node) :=
  match inspect_tree workspace None (negb baseline) with
  | Ok (_, workspace') => Ok (None, workspace')
  | Raise e =>
      if bool_decide (exn_cls e = TreeError) then
        if baseline then raise PatchToolError "workspace could not be inspected"
        else Ok (Some (ustr "patched workspace: " ++ exn_msg e), workspace)
      else Raise e
  end.

(** The end of both variants: inspect the patched workspace. *)
Definition finish_patch (workspace : node) : result (PatchResult * node) :=
  '(post_error, workspace') ← walk_tree workspace false;
  match post_error with
  | Some msg => r ← rejected msg RESULT_TREE_INVALID; mret (r, workspace')
  | None => r ← mk_patch_result patch_applied [] None; mret (r, workspace')
  end.

(** ** git on the host *)

Section on_host.
(* the return code, the streams and the changed workspace of a git command;
   [which]: the resolved executable *)
Context (run_git : list pystr → node → result (Z * bytes * bytes * node)).
Context (which : pystr → option pystr) (patch_path : pystr).

(** [_run_git] *)
Definition run_git_checked (command : list pystr) (workspace : node)
    : result (Z * bytes * bytes * node) :=
  catch (run_git command workspace)
    (λ c, bool_decide (c = OSError)) (λ _, raise PatchToolError "git execution failed").

Definition apply_patch (workspace : node) (patch : bytes) (limits : PatchLimits)
    (git_binary expected_git_version : pystr) : result (PatchResult * node) :=
  rejection ← static_rejection patch limits;
  match rejection with
  | Some r => mret (r, workspace)
  | None =>
      walk_tree workspace true;;
      if bool_decide (patch = []) then r ← mk_patch_result patch_applied [] None; mret (r, workspace)
      else match which git_binary with
      | None => raise PatchToolError "git executable is unavailable"
      | Some executable =>
          '(rc, out, _, _) ← run_git_checked [executable; ustr "--version"] workspace;
          raise_if (negb (rc =? 0)) PatchToolError "git version check failed";;
          match split_ws (strip py_isspace (ascii_decode_replace out)) with
          | w1 :: w2 :: w3 :: _ =>
              raise_if (negb (bool_decide (w1 = ustr "git") && bool_decide (w2 = ustr "version")))
                PatchToolError "git returned an invalid version";;
              raise_if (negb (bool_decide (w3 = expected_git_version))) PatchToolError
                "git version does not match release policy";;
              '(rc, _, err, _) ← run_git_checked
                  [executable; ustr "apply"; ustr "--check"; ustr "-p1"; patch_path] workspace;
              if negb (rc =? 0) then
                r ← rejected (decode_replace err) PATCH_APPLY_FAILED; mret (r, workspace)
              else
                '(rc, _, _, patched) ← run_git_checked
                    [executable; ustr "apply"; ustr "-p1"; patch_path] workspace;
                raise_if (negb (rc =? 0)) PatchToolError "git apply failed after a successful check";;
                finish_patch patched
          | _ => raise PatchToolError "git returned an invalid version"
          end
      end
  end.
End on_host.

(** ** git in a container *)

Section in_container.
Context (lstat : pystr → option FileKind).
Context (run : ContainerRequest → node → result (ContainerResult * node)).

(** [ContainerRequest(...)]: the mounts and the request are validated. *)
Definition mk_request (r : ContainerRequest) : result ContainerRequest :=
  mapM (check_mount lstat) (cr_mounts r);; check_request r.

Definition git_request (name : pystr) (argv : list pystr) (root patch_path : pystr)
    (limits : PatchLimits) : ContainerRequest :=
  {| cr_name := name; cr_argv := argv; cr_cwd := ustr "/workspace";
     cr_mounts :=
       [{| mount_host := root; mount_container := ustr "/workspace"; read_only := false |};
        {| mount_host := patch_path; mount_container := ustr "/submission.diff"; read_only := true |}];
     cr_stdin := []; cr_timeout_s := git_timeout_s limits; cr_max_stdout_bytes := 65536;
     cr_max_stderr_bytes := 65536; cr_trusted := false |}.

(** [invoke] *)
Definition invoke (name : pystr) (argv : list pystr) (root patch_path : pystr) (limits : PatchLimits)
    (workspace : node) : result (ContainerResult * node) :=
  catch
    (request ← mk_request (git_request name argv root patch_path limits); run request workspace)
    (λ c, bool_decide (c = SupervisorError)) (λ _, raise PatchToolError "git container failed").

Definition hit_limit (r : ContainerResult) : bool :=
  timed_out r || oom_killed r || stdout_overflow r || stderr_overflow r.

Definition git : pystr := ustr "/usr/bin/git".

Definition apply_patch_in_container (workspace : node) (patch : bytes) (limits : PatchLimits)
    (root patch_path run_prefix : pystr) : result (PatchResult * node) :=
  rejection ← static_rejection patch limits;
  match rejection with
  | Some r => mret (r, workspace)
  | None =>
      walk_tree workspace true;;
      if bool_decide (patch = []) then r ← mk_patch_result patch_applied [] None; mret (r, workspace)
      else
        '(checked, workspace) ← invoke (run_prefix ++ ustr "-patch-check")
            [git; ustr "apply"; ustr "--check"; ustr "-p1"; ustr "/submission.diff"]
            root patch_path limits workspace;
        if hit_limit checked then
          r ← rejected (ustr "git check exceeded its limits") PATCH_APPLY_FAILED; mret (r, workspace)
        else if (exit_code checked =? 126) || (exit_code checked =? 127) then
          raise PatchToolError "git is unavailable in the sandbox"
        else if negb (exit_code checked =? 0) then
          r ← rejected (decode_replace (stderr checked)) PATCH_APPLY_FAILED; mret (r, workspace)
        else
          '(applied, workspace) ← invoke (run_prefix ++ ustr "-patch-apply")
              [git; ustr "apply"; ustr "-p1"; ustr "/submission.diff"]
              root patch_path limits workspace;
          if negb (exit_code applied =? 0) || hit_limit applied then
            r ← rejected (ustr "git apply failed") PATCH_APPLY_FAILED; mret (r, workspace)
          else finish_patch workspace
  end.
End in_container.
End apply.

(** ** Lemmas *)

Lemma rejected_Ok (reason : pystr) (code : MinerReason) :
  ∃ r, rejected reason code = Ok r ∧ patch_status r = patch_rejected ∧
    patch_reason_code r = Some code ∧ 0 < zlen (patch_reason r) <= REASON_LIMIT.
Proof.
  unfold rejected, mk_patch_result. set (line := first_line reason).
  set (shown := if bool_decide (line = []) then ustr "patch rejected" else line).
  assert (Hne : 0 < zlen shown).
  { unfold shown. case_bool_decide; [done|]. destruct line; [done|]. unfold zlen. simpl. lia. }
  assert (Hl : 0 < zlen (slice_to REASON_LIMIT shown) <= REASON_LIMIT).
  { rewrite slice_to_length by done. unfold REASON_LIMIT. lia. }
  rewrite (bool_decide_eq_false_2 (patch_rejected = patch_applied)) by done.
  rewrite (bool_decide_eq_true_2 (patch_rejected = patch_rejected)) by done.
  rewrite (proj2 (Z.ltb_lt 0 _)), (proj2 (Z.leb_le _ REASON_LIMIT)) by lia.
  eexists. split; [reflexivity|]. done.
Qed.

Lemma omap_nil {A B} (f : A → option B) (l : list A) :
  omap f l = [] ↔ Forall (λ x, f x = None) l.
Proof.
  induction l as [|x l IH]; simpl; [by split|].
  rewrite Forall_cons, <-IH. destruct (f x); [|naive_solver]. split; [done|]. by intros [? _].
Qed.

(** A line no patch may have: it starts with a marker of a binary, copied or renamed
    file, or it is a mode line with another mode. *)
Inductive bad_line (line : bytes) : Prop :=
  | bad_marker (m rest : bytes) :
      m ∈ BINARY_MARKERS ++ COPY_RENAME_MARKERS → line = m ++ rest → bad_line line
  | bad_mode (p mode : bytes) :
      p ∈ MODE_PREFIXES → line = p ++ mode → mode ≠ [] → forallb digit_byte mode = true →
      mode ≠ bstr "100644" → mode ≠ bstr "100755" → bad_line line.

(** A patch that passes the static gate. *)
Definition statically_fine (patch : bytes) (limits : PatchLimits) : Prop :=
  zlen patch <= max_patch_bytes limits ∧ contains [ascii_of_N 0] patch = false ∧
  is_ok (utf8_decode patch) = true ∧ Forall (λ line, ¬ bad_line line) (bytes_splitlines patch).

Lemma existsb_startswith (ms : list bytes) (line : bytes) :
  existsb (λ m, startswith m line) ms = true ↔ ∃ m rest, m ∈ ms ∧ line = m ++ rest.
Proof.
  rewrite existsb_exists. split.
  - intros (m & Hm & [rest ->]%startswith_spec). exists m, rest. by rewrite list_elem_of_In.
  - intros (m & rest & Hm & ->). exists m. rewrite <-list_elem_of_In, startswith_spec. split; [done|by exists rest].
Qed.

(** No mode prefix starts another one, so the first match is the only one. *)
Lemma mode_prefix_unique (p p' k k' : bytes) :
  p ∈ MODE_PREFIXES → p' ∈ MODE_PREFIXES → p ++ k = p' ++ k' → p = p'.
Proof.
  unfold MODE_PREFIXES. rewrite !list_elem_of_In. simpl.
  intros [<-|[<-|[<-|[<-|[]]]]] [<-|[<-|[<-|[<-|[]]]]] Heq; done || discriminate Heq.
Qed.

Lemma mode_of_line_Some (line mode : bytes) :
  mode_of_line line = Some mode ↔
  ∃ p, p ∈ MODE_PREFIXES ∧ line = p ++ mode ∧ mode ≠ [] ∧ forallb digit_byte mode = true.
Proof.
  unfold mode_of_line. destruct (filter _ MODE_PREFIXES) as [|p ps] eqn:Hf.
  - split; [done|]. intros (p & Hp & -> & _).
    assert (Hin : p ∈ filter (λ p', startswith p' (p ++ mode) = true) MODE_PREFIXES).
    { apply list_elem_of_filter. rewrite startswith_spec. split; [by exists mode|done]. }
    rewrite Hf in Hin. by apply not_elem_of_nil in Hin.
  - assert (Hin : p ∈ p :: ps) by (by left). rewrite <-Hf in Hin.
    apply list_elem_of_filter in Hin as [[k ->]%startswith_spec Hp]. rewrite drop_app_length.
    destruct (negb (bool_decide (k = [])) && forallb digit_byte k) eqn:Hk.
    + apply andb_true_iff in Hk as [Hne%negb_true_iff%bool_decide_eq_false Hd]. split.
      * intros [= <-]. eauto.
      * intros (p' & Hp' & Heq & _). pose proof (mode_prefix_unique _ _ _ _ Hp Hp' Heq) as ->.
        by apply app_inv_head in Heq as ->.
    + split; [done|]. intros (p' & Hp' & Heq & Hne & Hd).
      pose proof (mode_prefix_unique _ _ _ _ Hp Hp' Heq) as ->. apply app_inv_head in Heq as ->.
      by rewrite bool_decide_eq_false_2, Hd in Hk.
Qed.

Lemma line_rejection_None (line : bytes) : line_rejection line = None ↔ ¬ bad_line line.
Proof.
  unfold line_rejection. destruct (existsb (λ m, startswith m line) BINARY_MARKERS) eqn:Hb.
  { split; [done|]. intros Hn. destruct Hn. apply existsb_startswith in Hb as (m & rest & Hm & ->).
    eapply bad_marker; [|done]. apply elem_of_app. by left. }
  destruct (existsb (λ m, startswith m line) COPY_RENAME_MARKERS) eqn:Hc.
  { split; [done|]. intros Hn. destruct Hn. apply existsb_startswith in Hc as (m & rest & Hm & ->).
    eapply bad_marker; [|done]. apply elem_of_app. by right. }
  assert (Hmark : ∀ m rest, m ∈ BINARY_MARKERS ++ COPY_RENAME_MARKERS → line ≠ m ++ rest).
  { intros m rest [Hm|Hm]%elem_of_app ->; [rewrite <-not_true_iff_false in Hb; apply Hb
                                          |rewrite <-not_true_iff_false in Hc; apply Hc];
      apply existsb_startswith; eauto. }
  destruct (mode_of_line line) as [mode|] eqn:Ho.
  - apply mode_of_line_Some in Ho as (p & Hp & -> & Hne & Hd). case_bool_decide as Ha.
    + split; [intros _|done]. intros [m rest Hm Heq|p' mode' Hp' Heq _ _ H1 H2]; [by eapply Hmark|].
      pose proof (mode_prefix_unique _ _ _ _ Hp Hp' Heq) as ->. apply app_inv_head in Heq as ->.
      unfold ALLOWED_MODES in Ha. set_solver.
    + split; [done|]. intros Hn. destruct Hn. eapply bad_mode; [done..| |]; intros ->; apply Ha;
        unfold ALLOWED_MODES; set_solver.
  - split; [intros _|done]. intros [m rest Hm Heq|p mode Hp Heq Hne Hd _ _]; [by eapply Hmark|].
    enough (mode_of_line line = Some mode) by congruence. apply mode_of_line_Some. eauto.
Qed.

Lemma utf8_decode_class (bs : bytes) (e : exn) :
  utf8_decode bs = Raise e → exn_cls e = UnicodeDecodeError.
Proof. unfold utf8_decode. case_match; [done|]. by intros [= <-]. Qed.

Lemma static_rejection_cases (patch : bytes) (limits : PatchLimits) :
  (statically_fine patch limits ∧ static_rejection patch limits = Ok None) ∨
  (¬ statically_fine patch limits ∧
   ∃ r, static_rejection patch limits = Ok (Some r) ∧ patch_status r = patch_rejected ∧
     patch_reason_code r = Some PATCH_STATIC_REJECTED ∧ 0 < zlen (patch_reason r) <= REASON_LIMIT).
Proof.
  assert (Hrej : ∀ msg, ∃ r, (Some <$> static_reject msg) = Ok (Some r) ∧
    patch_status r = patch_rejected ∧ patch_reason_code r = Some PATCH_STATIC_REJECTED ∧
    0 < zlen (patch_reason r) <= REASON_LIMIT).
  { intros msg. destruct (rejected_Ok (ustr msg) PATCH_STATIC_REJECTED) as (r & Hr & Hs).
    exists r. unfold static_reject. by rewrite Hr. }
  unfold static_rejection, statically_fine.
  destruct (Z.ltb_spec (max_patch_bytes limits) (zlen patch)).
  { right. split; [lia|]. apply Hrej. }
  destruct (contains _ patch); [right; split; [naive_solver|apply Hrej]|].
  destruct (utf8_decode patch) as [s|e] eqn:Hd.
  - destruct (omap line_rejection (bytes_splitlines patch)) as [|msg msgs] eqn:Ho.
    + left. apply omap_nil in Ho. split_and!; try done.
      eapply Forall_impl; [exact Ho|]. intros line. apply line_rejection_None.
    + right. split; [|apply Hrej]. intros (_ & _ & _ & Hl).
      enough (omap line_rejection (bytes_splitlines patch) = []) by congruence. apply omap_nil.
      eapply Forall_impl; [exact Hl|]. intros line. apply line_rejection_None.
  - apply utf8_decode_class in Hd. rewrite bool_decide_eq_true_2 by done.
    right. split; [naive_solver|apply Hrej].
Qed.

(** C25 (functional): the static gate always answers: it lets a patch through exactly
    when it is within the byte limit, has no NUL, is UTF-8 and has no line that is
    a binary, copy or rename marker or sets a mode other than 100644 or 100755;
    otherwise the patch is rejected with a reason of 1 to 200 characters. *)
Theorem static_gate (patch : bytes) (limits : PatchLimits) :
  (statically_fine patch limits ↔ static_rejection patch limits = Ok None) ∧
  (¬ statically_fine patch limits ↔
   ∃ r, static_rejection patch limits = Ok (Some r) ∧ patch_status r = patch_rejected ∧
     patch_reason_code r = Some PATCH_STATIC_REJECTED ∧ 0 < zlen (patch_reason r) <= REASON_LIMIT).
Proof.
  destruct (static_rejection_cases patch limits) as [[Hf He]|[Hf (r & He & Hr)]].
  - split; [done|]. split; [done|]. intros (r & Hr & _). congruence.
  - split; [split; [done|congruence]|]. split; [eauto|done].
Qed.

Section apply_lemmas.
Context `{UD : !UnicodeData}.

Lemma finish_patch_applied (workspace workspace' : node) (r : PatchResult) :
  finish_patch workspace = Ok (r, workspace') → patch_status r = patch_applied →
  ∃ report, inspect_tree workspace None true = Ok (report, workspace').
Proof.
  unfold finish_patch, walk_tree. simpl negb.
  destruct (inspect_tree workspace None true) as [[rep w]|e].
  - intros [= <- <-] _. by exists rep.
  - case_bool_decide; [|done]. cbn [mbind result_bind].
    destruct (rejected_Ok (ustr "patched workspace: " ++ exn_msg e) RESULT_TREE_INVALID)
      as (r' & -> & Hs & _).
    intros [= <- <-] Ha. congruence.
Qed.
End apply_lemmas.

(** (safety): when a non-empty patch is reported as applied, it passed the static
    gate, [git apply --check] and [git apply] both exited with zero within their
    limits, and the workspace left behind is a safe tree: directories and plain
    files only, normalized paths, no [.git], normalized modes. *)
Theorem applied_patch_safe `{UD : !UnicodeData} (lstat : pystr → option FileKind)
    (run : ContainerRequest → node → result (ContainerResult * node)) (workspace workspace' : node)
    (patch : bytes) (limits : PatchLimits) (root patch_path prefix : pystr) (r : PatchResult) :
  patch ≠ [] →
  apply_patch_in_container lstat run workspace patch limits root patch_path prefix
    = Ok (r, workspace') →
  patch_status r = patch_applied →
  statically_fine patch limits ∧
  (∃ q1 q2 checked applied w1 w2,
     run q1 workspace = Ok (checked, w1) ∧ exit_code checked = 0 ∧ hit_limit checked = false ∧
     run q2 w1 = Ok (applied, w2) ∧ exit_code applied = 0 ∧ hit_limit applied = false ∧
     ∀ p, fs_lookup workspace' p = normalize_modes <$> fs_lookup w2 p) ∧
  (∀ p n, p ≠ [] → fs_lookup workspace' p = Some n →
     (is_dir n = true ∨ is_plain_file n = true) ∧ dot_git ∉ split_on slash (as_posix p)).
Proof.
  intros Hne Happ Hst. unfold apply_patch_in_container in Happ.
  apply bind_Ok in Happ as (rej & Hrej & Happ). destruct rej as [r0|].
  { injection Happ as <- <-.
    destruct (static_rejection_cases patch limits) as [[_ He]|[_ (r' & He & Hs & _)]];
      rewrite He in Hrej; [done|]. injection Hrej as <-. congruence. }
  assert (Hfine : statically_fine patch limits).
  { destruct (static_rejection_cases patch limits) as [[Hf _]|[_ (r' & He & _)]]; [done|congruence]. }
  apply bind_Ok in Happ as (w0 & _ & Happ). rewrite bool_decide_eq_false_2 in Happ by done.
  assert (Hinv : ∀ name argv w c w', invoke lstat run name argv root patch_path limits w = Ok (c, w') →
    ∃ q, run q w = Ok (c, w')).
  { intros name argv w c w' Hi. unfold invoke, catch in Hi.
    destruct (_ ≫= _) as [x|e] eqn:Hx in Hi; [|by destruct (bool_decide _)].
    injection Hi as ->. apply bind_Ok in Hx as (q & _ & Hq). by exists q. }
  assert (Hcontra : ∀ msg code w, (r ← rejected msg code; mret (r, w)) ≠ Ok (r, workspace')).
  { intros msg code w Hr. destruct (rejected_Ok msg code) as (r' & He & Hs & _).
    rewrite He in Hr. injection Hr as <- _. congruence. }
  apply bind_Ok in Happ as ([checked w1] & [q1 Hq1]%Hinv & Happ).
  destruct (hit_limit checked) eqn:Hhit1; [by apply Hcontra in Happ|].
  destruct (_ || _) in Happ; [done|].
  destruct (Z.eqb_spec (exit_code checked) 0) as [Hex1|]; [|by apply Hcontra in Happ].
  cbn [negb] in Happ. apply bind_Ok in Happ as ([applied w2] & [q2 Hq2]%Hinv & Happ).
  destruct (Z.eqb_spec (exit_code applied) 0) as [Hex2|]; [|by apply Hcontra in Happ].
  destruct (hit_limit applied) eqn:Hhit2; [by apply Hcontra in Happ|]. cbn [negb orb] in Happ.
  destruct (finish_patch_applied _ _ _ Happ Hst) as (report & Hrep).
  apply inspect_tree_Ok in Hrep as (_ & Hsafe & _ & Hlook).
  split; [done|]. split; [by exists q1, q2, checked, applied, w1, w2|].
  intros p n Hp Hn. rewrite Hlook in Hn. apply fmap_Some in Hn as (m & Hm & ->).
  destruct (Hsafe p m Hp Hm) as (_ & Hgit & Hkind & _). split; [|done]. by destruct m.
Qed.

(** ** Witness *)

Definition ok_result : ContainerResult :=
  {| exit_code := 0; oom_killed := false; timed_out := false; stdout := []; stderr := [];
     stdout_overflow := false; stderr_overflow := false |}.

Lemma applied_patch_safe_witness :
  statically_fine (bstr "x") {| max_patch_bytes := 10; git_timeout_s := 5 |}.
Proof.
  apply (applied_patch_safe (UD := ascii_unicode) (λ _, Some kind_dir) (λ _ w, Ok (ok_result, w))
    sample_tree (normalize_modes sample_tree) (bstr "x") {| max_patch_bytes := 10; git_timeout_s := 5 |}
    (ustr "/w") (ustr "/p") (ustr "r") {| patch_status := patch_applied; patch_reason := [];
                                           patch_reason_code := None |}).
  - discriminate.
  - vm_compute. reflexivity.
  - reflexivity.
Defined.
