(* ===== verification/Grading.v ===== *)
(** * Grading one submission ([src/rlvr/v3/grading.py])

    The workspace is a [node], changed by every untrusted container; the verifier
    directory is a [node] that does not change.  [run] is [run_container]: the
    result and the workspace after it. *)

From S2P Require Import Prelude PyFloat Text Json JsonSpec Canonical CanonicalSpec Wire Identity Api Codecs FileSystem Supervisor Manifest Feedback Patch.

Local Open Scope Z_scope.

Definition SCRIPT_TIMEOUT_S : Z := 300.
Definition SCRIPT_OUTPUT_BYTES : Z := Z.shiftl 1 20.

Inductive CheckKind := invocation | inspection.
Inductive Outcome := passed | failed | skipped.
#[export] Instance Outcome_eq_dec : EqDecision Outcome. Proof. solve_decision. Defined.

Record CheckResult := {
  res_check_id : pystr;
  res_kind : CheckKind;
  res_outcome : Outcome;
  res_exit_code : option Z
}.

Inductive EvaluationStatus := eval_passed | eval_failed | eval_rejected | eval_abandoned.
#[export] Instance EvaluationStatus_eq_dec : EqDecision EvaluationStatus.
Proof. solve_decision. Defined.

Inductive ReasonCode := miner_reason (r : MinerReason) | round_reason (r : RoundReason).
#[export] Instance ReasonCode_eq_dec : EqDecision ReasonCode. Proof. solve_decision. Defined.

Record EvaluationResult := {
  ev_status : EvaluationStatus;
  ev_reason : pystr;
  ev_checks : list CheckResult;
  ev_script_exit_code : option Z;
  ev_reason_code : option ReasonCode;
  ev_stage : option Stage;
  ev_failed_check : option pystr
}.

(** [CheckResult.__post_init__]: of its three tests only the last can fail here. *)
Definition check_check_result (c : CheckResult) : result CheckResult :=
  raise_if (bool_decide (res_outcome c = skipped) && negb (bool_decide (res_exit_code c = None)))
    ValueError "a skipped check cannot have an exit code";;
  mret c.

(** [EvaluationResult.__post_init__] *)
Definition mk_evaluation (ev : EvaluationResult) : result EvaluationResult :=
  (if bool_decide (ev_status ev = eval_passed) then
     raise_if (negb (bool_decide (ev_reason ev = []))) ValueError
       "a passed evaluation cannot have a reason"
   else
     raise_if (negb ((0 <? zlen (ev_reason ev)) && (zlen (ev_reason ev) <=? 200))) ValueError
       "a non-passing evaluation requires a bounded reason");;
  raise_if
    (negb (bool_decide (ev_failed_check ev = None))
     && (negb (bool_decide (ev_status ev = eval_failed))
         || negb (bool_decide (ev_reason_code ev = Some (miner_reason CHECK_FAILED)))
         || negb (bool_decide (ev_stage ev = Some CHECK))
         || negb (is_bounded_display (ev_failed_check ev))))
    ValueError "only a failed check can carry a bounded check display";;
  mret ev.

Definition kind (c : Check) : CheckKind := if is_inspection c then inspection else invocation.

Definition result_of (c : Check) (o : Outcome) (code : option Z) : CheckResult :=
  {| res_check_id := check_id (common c); res_kind := kind c; res_outcome := o;
     res_exit_code := code |}.

Definition skipped_result (c : Check) : CheckResult := result_of c skipped None.

Definition stop (st : EvaluationStatus) (reason : pystr) (manifest : VerifierManifest)
    (completed : list CheckResult) (script_exit_code : option Z) (code : option ReasonCode)
    (stage : Stage) (failed_check : option pystr) : result EvaluationResult :=
  let remaining := drop (length completed) (manifest_checks manifest) in
  mk_evaluation
    {| ev_status := st; ev_reason := slice_to 200 reason;
       ev_checks := completed ++ map skipped_result remaining;
       ev_script_exit_code := script_exit_code; ev_reason_code := code; ev_stage := Some stage;
       ev_failed_check := failed_check |}.

Definition container_failure (r : ContainerResult) : option pystr :=
  if timed_out r then Some (ustr "container timed out")
  else if oom_killed r then Some (ustr "container exceeded its memory limit")
  else if stdout_overflow r || stderr_overflow r then Some (ustr "container exceeded its output limit")
  else None.

Definition resource_reason (r : ContainerResult) : option MinerReason :=
  if timed_out r then Some TIMEOUT
  else if oom_killed r then Some MEMORY_LIMIT
  else if stdout_overflow r || stderr_overflow r then Some OUTPUT_LIMIT
  else None.

(** [_failed_check_or_none] *)
Definition failed_check_or_none (c : Check) (request : ContainerRequest) (out : bytes)
    (err : option bytes) : option pystr :=
  let display := render_failed_check c request out err in
  if is_bounded_display display then display else None.

(** [str(PurePosixPath(base, relative))] for a normalized base and relative path. *)
Definition work_cwd (base rel : pystr) : pystr :=
  if bool_decide (rel = dot) then base else base ++ [slash] ++ rel.

Section grading.
Context `{!UnicodeData}.
Context (lstat : pystr → option FileKind).
Context (run : ContainerRequest → node → result (ContainerResult * node)).
(* the host paths of the workspace, of the result tree and of the verifier *)
Context (workspace_path result_path verifier_path run_prefix : pystr).
Context (verifier : node).

(** [(verifier_dir / relative).read_bytes()] *)
Definition read_bytes (rel : pystr) : result bytes :=
  match fs_lookup verifier (split_on slash rel) with
  | Some (NFile _ _ content) => Ok content
  | _ => raise OSError "file not found"
  end.

(** The exceptions the verifier's handlers catch. *)
Definition caught (c : exn_class) : bool :=
  bool_decide (c = OSError) || bool_decide (c = SupervisorError) || is_value_error c.

Definition check_request_name (c : Check) : pystr := run_prefix ++ ustr "-" ++ check_id (common c).

(** The request of one check. *)
Definition check_container_request (work_base : pystr) (c : Check) : result ContainerRequest :=
  let k := common c in
  match c with
  | InvocationCheck _ cwd stdin =>
      stdin ← (match stdin with None => mret [] | Some i => read_bytes i end);
      mk_request lstat
        {| cr_name := check_request_name c; cr_argv := check_argv k;
           cr_cwd := work_cwd work_base cwd;
           cr_mounts := [{| mount_host := workspace_path; mount_container := WORK;
                            read_only := false |}];
           cr_stdin := stdin; cr_timeout_s := check_timeout_s k;
           cr_max_stdout_bytes := check_max_stdout_bytes k;
           cr_max_stderr_bytes := check_max_stderr_bytes k; cr_trusted := false |}
  | InspectionCheck _ =>
      mk_request lstat
        {| cr_name := check_request_name c; cr_argv := check_argv k; cr_cwd := ustr "/result";
           cr_mounts := [{| mount_host := result_path; mount_container := ustr "/result";
                            read_only := true |};
                         {| mount_host := verifier_path ++ ustr "/checks";
                            mount_container := ustr "/verify"; read_only := true |}];
           cr_stdin := []; cr_timeout_s := check_timeout_s k;
           cr_max_stdout_bytes := check_max_stdout_bytes k;
           cr_max_stderr_bytes := check_max_stderr_bytes k; cr_trusted := true |}
  end.

(** Does the container's outcome match the expectation? *)
Definition matches (expect : Expectation) (out : bytes) (err : option bytes) (r : ContainerResult)
    : bool :=
  (exit_code r =? exp_exit_code expect) && bool_decide (stdout r = out)
  && match err with None => true | Some e => bool_decide (stderr r = e) end.

Section checks.
Context (manifest : VerifierManifest) (work_base : pystr) (host_work_base result_tree : fspath)
  (tree_limits : TreeLimits) (script_exit_code : option Z).

Definition stop_here (st : EvaluationStatus) (reason : string) (completed : list CheckResult)
    (code : option ReasonCode) (stage : Stage) (shown : option pystr) : result EvaluationResult :=
  stop st (ustr reason) manifest completed script_exit_code code stage shown.

(** The [except (OSError, SupervisorError, ValueError)] clause of one check. *)
Definition on_exception (completed : list CheckResult) (e : exn) : result EvaluationResult :=
  if caught (exn_cls e) then
    stop_here eval_abandoned "validator could not run the verifier" completed
      (Some (round_reason VERIFIER_UNAVAILABLE)) CHECK None
  else Raise e.

(** A [_stop] made inside the [try] block. *)
Definition guarded (completed : list CheckResult) (m : result EvaluationResult)
    : result EvaluationResult :=
  match m with Ok r => Ok r | Raise e => on_exception completed e end.

(** The loop over the checks. *)
Fixpoint check_loop (completed : list CheckResult) (workspace : node) (checks : list Check)
    : result EvaluationResult :=
  match checks with
  | [] =>
      mk_evaluation
        {| ev_status := eval_passed; ev_reason := []; ev_checks := completed;
           ev_script_exit_code := script_exit_code; ev_reason_code := None;
           ev_stage := Some CHECK; ev_failed_check := None |}
  | c :: checks' =>
      if match c with
         | InvocationCheck _ cwd _ =>
             match task_directory (default NOther (fs_lookup workspace host_work_base)) cwd with
             | None => true | Some _ => false end
         | InspectionCheck _ => false
         end
      then
        let completed := completed ++ [result_of c failed None] in
        guarded completed
          (stop_here eval_failed "candidate working directory is unavailable" completed
             (Some (miner_reason WORKING_DIRECTORY_INVALID)) CHECK None)
      else
        match (request ← check_container_request work_base c;
               '(container, workspace') ← run request workspace;
               mret (request, container, workspace')) with
        | Raise e => on_exception completed e
        | Ok (request, container, workspace') =>
            let infrastructure :=
              bool_decide (container_failure container = None) && is_inspection c
              && ((exit_code container =? 126) || (exit_code container =? 127)) in
            if infrastructure then
              let completed := completed ++ [result_of c failed (Some (exit_code container))] in
              guarded completed
                (stop_here eval_abandoned "verifier executable is unavailable" completed
                   (Some (round_reason VERIFIER_UNAVAILABLE)) CHECK None)
            else match container_failure container with
            | Some failure =>
                let completed := completed ++ [result_of c failed (Some (exit_code container))] in
                guarded completed
                  (stop eval_failed failure manifest completed script_exit_code
                     (miner_reason <$> resource_reason container) CHECK None)
            | None =>
                let expect := check_expect (common c) in
                match (out ← read_bytes (exp_stdout expect);
                       err ← (match exp_stderr expect with
                              | None => mret None
                              | Some e => Some <$> read_bytes e
                              end);
                       mret (out, err)) with
                | Raise e => on_exception completed e
                | Ok (out, err) =>
                    let ok := matches expect out err container in
                    let done := completed ++
                      [result_of c (if ok then passed else failed) (Some (exit_code container))] in
                    if negb ok then
                      guarded done
                        (stop_here eval_failed "candidate output did not match the verifier" done
                           (Some (miner_reason CHECK_FAILED)) CHECK
                           (failed_check_or_none c request out err))
                    else if is_inspection c then check_loop done workspace' checks'
                    else
                      match inspect_result_tree workspace' result_tree tree_limits with
                      | Ok workspace'' => check_loop done workspace'' checks'
                      | Raise e =>
                          if bool_decide (exn_cls e = TreeError) then
                            let done := completed ++
                              [result_of c failed (Some (exit_code container))] in
                            guarded done
                              (stop_here eval_failed "candidate result tree became invalid" done
                                 (Some (miner_reason RESULT_TREE_INVALID)) RESULT_TREE None)
                          else on_exception done e
                      end
                end
            end
        end
  end.

Definition run_checks (workspace : node) : result EvaluationResult :=
  match inspect_result_tree workspace result_tree tree_limits with
  | Ok workspace' => check_loop [] workspace' (manifest_checks manifest)
  | Raise e =>
      if bool_decide (exn_cls e = TreeError) then
        stop_here eval_failed "candidate result tree is invalid" []
          (Some (miner_reason RESULT_TREE_INVALID)) RESULT_TREE None
      else Raise e
  end.
End checks.

(** ** Setup *)

(** The evaluation that setup ends, if it does, and the workspace after it. *)
Definition run_setup (work_base : pystr) (manifest : VerifierManifest) (workspace : node)
    : result (option EvaluationResult * node) :=
  match manifest_setup manifest with
  | None => Ok (None, workspace)
  | Some s =>
      match (request ← mk_request lstat
               {| cr_name := run_prefix ++ ustr "-setup"; cr_argv := setup_argv s; cr_cwd := work_base;
                  cr_mounts := [{| mount_host := workspace_path; mount_container := WORK;
                                   read_only := false |}];
                  cr_stdin := []; cr_timeout_s := setup_timeout_s s;
                  cr_max_stdout_bytes := setup_max_output_bytes s;
                  cr_max_stderr_bytes := setup_max_output_bytes s; cr_trusted := false |};
             '(r, workspace') ← run request workspace;
             let failure :=
               match container_failure r with
               | Some f => Some f
               | None => if negb (exit_code r =? 0) then Some (ustr "task setup failed") else None
               end in
             match failure with
             | Some f =>
                 ev ← stop eval_failed f manifest [] None
                   (Some (miner_reason (default SETUP_FAILED (resource_reason r)))) SETUP None;
                 mret (Some ev, workspace')
             | None => mret (None, workspace')
             end) with
      | Ok r => Ok r
      | Raise e =>
          if caught (exn_cls e) then
            ev ← stop eval_abandoned (ustr "validator could not run task setup") manifest [] None
              (Some (round_reason SETUP_UNAVAILABLE)) SETUP None;
            mret (Some ev, workspace)
          else Raise e
      end
  end.

(** ** The two kinds of task *)

Definition stop_round (manifest : VerifierManifest) (st : EvaluationStatus) (reason : string)
    (code : ReasonCode) (stage : Stage) : result EvaluationResult :=
  stop st (ustr reason) manifest [] None (Some code) stage None.

Definition evaluate_repository (workspace : node) (patch : bytes) (identity : RepositoryTaskIdentity)
    (manifest : VerifierManifest) (tree_limits : TreeLimits) (patch_limits : PatchLimits)
    (patch_path : pystr) : result EvaluationResult :=
  raise_if (negb (bool_decide (manifest_task_type manifest = repository_patch))) ValueError
    "repository task contract does not match";;
  let cwd := r_working_directory identity in
  match task_directory workspace cwd with
  | None =>
      stop_round manifest eval_abandoned "repository working directory is unavailable"
        (round_reason WORKSPACE_INVALID) WORKSPACE_MATERIALIZATION
  | Some _ =>
      match apply_patch_in_container lstat run workspace patch patch_limits workspace_path patch_path
              run_prefix with
      | Raise e =>
          if bool_decide (exn_cls e = PatchToolError) then
            mk_evaluation
              {| ev_status := eval_abandoned; ev_reason := ustr "validator could not apply the patch";
                 ev_checks := []; ev_script_exit_code := None;
                 ev_reason_code := Some (round_reason PATCH_TOOL_FAILED); ev_stage := Some PATCH;
                 ev_failed_check := None |}
          else Raise e
      | Ok (applied, workspace) =>
          if bool_decide (patch_status applied = patch_rejected) then
            mk_evaluation
              {| ev_status := eval_rejected; ev_reason := patch_reason applied; ev_checks := [];
                 ev_script_exit_code := None;
                 ev_reason_code :=
                   Some (miner_reason (default PATCH_REJECTED (patch_reason_code applied)));
                 ev_stage := Some PATCH; ev_failed_check := None |}
          else
            let work_base := work_cwd WORK cwd in
            match task_directory workspace cwd with
            | None =>
                stop_round manifest eval_failed "patch removed the repository working directory"
                  (miner_reason WORKING_DIRECTORY_INVALID) PATCH
            | Some host_work_base =>
                '(setup_failure, workspace) ← run_setup work_base manifest workspace;
                match setup_failure with
                | Some ev => mret ev
                | None =>
                    run_checks manifest work_base host_work_base [] tree_limits None workspace
                end
            end
      end
  end.

(** The run of the submitted script; [script_dir]: the host directory it is written to. *)
Definition script_request (path script_dir : pystr) (script_timeout_s script_max_output_bytes : Z)
    : result ContainerRequest :=
  mk_request lstat
    {| cr_name := run_prefix ++ ustr "-script";
       cr_argv := map ustr ["/usr/bin/bash"; "--noprofile"; "--norc"; "/submission/script.sh"]%string;
       cr_cwd := work_cwd WORK path;
       cr_mounts := [{| mount_host := workspace_path; mount_container := WORK; read_only := false |};
                     {| mount_host := script_dir; mount_container := ustr "/submission"; read_only := true |}];
       cr_stdin := []; cr_timeout_s := script_timeout_s; cr_max_stdout_bytes := script_max_output_bytes;
       cr_max_stderr_bytes := script_max_output_bytes; cr_trusted := false |}.

Definition evaluate_terminal (environment : node) (script : bytes)
    (identity : TerminalScriptTaskIdentity) (manifest : VerifierManifest) (tree_limits : TreeLimits)
    (max_script_bytes : Z) (script_timeout_s script_max_output_bytes : Z) (script_dir : pystr)
    : result EvaluationResult :=
  raise_if (negb (bool_decide (manifest_task_type manifest = terminal_script))) ValueError
    "terminal task contract does not match";;
  checked ← validate_script script max_script_bytes;
  match script_status checked with
  | script_rejected =>
      mk_evaluation
        {| ev_status := eval_rejected; ev_reason := script_reason checked; ev_checks := [];
           ev_script_exit_code := None; ev_reason_code := Some (miner_reason SCRIPT_REJECTED);
           ev_stage := Some SCRIPT; ev_failed_check := None |}
  | script_accepted =>
      let path := t_result_tree_path identity in
      match task_directory environment path with
      | None =>
          stop_round manifest eval_abandoned "terminal result tree is unavailable"
            (round_reason WORKSPACE_INVALID) WORKSPACE_MATERIALIZATION
      | Some result_tree =>
          '(setup_failure, workspace) ← run_setup (work_cwd WORK path) manifest environment;
          match setup_failure with
          | Some ev => mret ev
          | None =>
              match task_directory workspace path with
              | None =>
                  stop_round manifest eval_failed "setup removed the terminal result directory"
                    (miner_reason WORKING_DIRECTORY_INVALID) SETUP
              | Some _ =>
                  match (request ← script_request path script_dir script_timeout_s script_max_output_bytes;
                         run request workspace) with
                  | Raise e =>
                      if caught (exn_cls e) then
                        stop_round manifest eval_abandoned "validator could not run the script"
                          (round_reason SCRIPT_UNAVAILABLE) SCRIPT
                      else Raise e
                  | Ok (r, workspace) =>
                      match container_failure r with
                      | Some failure =>
                          stop eval_failed failure manifest [] (Some (exit_code r))
                            (miner_reason <$> resource_reason r) SCRIPT None
                      | None =>
                          run_checks manifest WORK [] result_tree tree_limits (Some (exit_code r))
                            workspace
                      end
                  end
              end
          end
      end
  end.
End grading.
