(* ===== verification/GradingSpec.v ===== *)
(** * Grading: what a passed verdict means, and what every report lists

    [check_passes] is the specification of one passed check, [all_pass] of a whole
    suite; [verdict_passed] shows that grading answers "passed" exactly for it. *)

From S2P Require Import Prelude PyFloat Text Json JsonSpec Canonical CanonicalSpec Wire Identity Api Codecs FileSystem Supervisor Manifest Feedback Patch Grading.

Local Open Scope Z_scope.

Lemma matches_true (expect : Expectation) (out : bytes) (err : option bytes) (r : ContainerResult) :
  matches expect out err r = true ↔
  exit_code r = exp_exit_code expect ∧ stdout r = out ∧ ∀ e, err = Some e → stderr r = e.
Proof.
  unfold matches. rewrite !andb_true_iff, Z.eqb_eq, bool_decide_eq_true.
  destruct err as [e|]; [rewrite bool_decide_eq_true|]; naive_solver.
Qed.

Section verdict.
Context `{UD : !UnicodeData}.
Context (lstat : pystr → option FileKind).
Context (run : ContainerRequest → node → result (ContainerResult * node)).
Context (workspace_path result_path verifier_path run_prefix : pystr) (verifier : node).
Context (manifest : VerifierManifest) (work_base : pystr) (host_work_base result_tree : fspath)
  (tree_limits : TreeLimits) (script_exit_code : option Z).
Implicit Types (c : Check) (ws : node) (ev : EvaluationResult) (completed : list CheckResult).

Local Abbreviation request_of :=
  (check_container_request lstat workspace_path result_path verifier_path run_prefix verifier work_base).
Local Abbreviation loop :=
  (check_loop lstat run workspace_path result_path verifier_path run_prefix verifier manifest
     work_base host_work_base result_tree tree_limits script_exit_code).

(** One check passes in the workspace [ws] and leaves [ws']: its working directory is
    there, the container ran within its limits, the exit code, stdout and stderr are
    the expected ones, and after an untrusted run the result tree is still valid. *)
Definition check_passes c ws ws' : Prop :=
  (∀ k cwd i, c = InvocationCheck k cwd i →
     is_Some (task_directory (default NOther (fs_lookup ws host_work_base)) cwd)) ∧
  ∃ request container ws1 out err,
    request_of c = Ok request ∧ run request ws = Ok (container, ws1) ∧
    container_failure container = None ∧
    (is_inspection c = true → exit_code container ≠ 126 ∧ exit_code container ≠ 127) ∧
    read_bytes verifier (exp_stdout (check_expect (common c))) = Ok out ∧
    (match exp_stderr (check_expect (common c)) with
     | None => err = None
     | Some e => ∃ b, read_bytes verifier e = Ok b ∧ err = Some b
     end) ∧
    exit_code container = exp_exit_code (check_expect (common c)) ∧ stdout container = out ∧
    (∀ e, err = Some e → stderr container = e) ∧
    if is_inspection c then ws' = ws1
    else inspect_result_tree ws1 result_tree tree_limits = Ok ws'.

Inductive all_pass : node → list Check → Prop :=
  | all_pass_nil ws : all_pass ws []
  | all_pass_cons ws ws' c checks :
      check_passes c ws ws' → all_pass ws' checks → all_pass ws (c :: checks).

(** ** Stopping never passes *)

Lemma mk_evaluation_Ok ev ev' : mk_evaluation ev = Ok ev' → ev' = ev.
Proof. unfold mk_evaluation. intros ([] & _ & H1)%bind_Ok. apply seq_Ok in H1 as [_ [= <-]]. done. Qed.

Lemma stop_Ok (st : EvaluationStatus) (reason : pystr) completed (se : option Z)
    (code : option ReasonCode) (stage : Stage) (shown : option pystr) ev :
  stop st reason manifest completed se code stage shown = Ok ev →
  ev_status ev = st ∧
  ev_checks ev = completed ++ map skipped_result (drop (length completed) (manifest_checks manifest)).
Proof. unfold stop. by intros ->%mk_evaluation_Ok. Qed.

Lemma on_exception_Ok completed (e : exn) ev :
  on_exception manifest script_exit_code completed e = Ok ev →
  ev_status ev = eval_abandoned ∧
  ev_checks ev = completed ++ map skipped_result (drop (length completed) (manifest_checks manifest)).
Proof. unfold on_exception, stop_here. case_match; [|done]. apply stop_Ok. Qed.

Lemma guarded_Ok (st : EvaluationStatus) (reason : pystr) completed (code : option ReasonCode)
    (stage : Stage) (shown : option pystr) ev :
  guarded manifest script_exit_code completed
    (stop st reason manifest completed script_exit_code code stage shown) = Ok ev →
  (ev_status ev = st ∨ ev_status ev = eval_abandoned) ∧
  ev_checks ev = completed ++ map skipped_result (drop (length completed) (manifest_checks manifest)).
Proof.
  unfold guarded. destruct (stop _ _ _ _ _ _ _ _) eqn:Hs.
  - intros [= <-]. apply stop_Ok in Hs as [-> ?]. auto.
  - intros [? ?]%on_exception_Ok. auto.
Qed.

(** ** The report *)

(** The results of a list of checks that all passed. *)
Definition passed_results (checks : list Check) (rs : list CheckResult) : Prop :=
  Forall2 (λ c r, ∃ code, r = result_of c passed (Some code)) checks rs.

(** Every check of the manifest is reported once, in order: first those that
    passed, then at most one that failed, then the skipped ones. *)
Definition well_reported ev : Prop :=
  ∃ done failing rest rs,
    manifest_checks manifest = done ++ failing ++ rest ∧ (length failing <= 1)%nat ∧
    passed_results done rs ∧
    (∃ fs, ev_checks ev = rs ++ fs ++ map skipped_result rest ∧
       Forall2 (λ c r, ∃ code, r = result_of c failed code) failing fs) ∧
    (ev_status ev = eval_passed → failing = [] ∧ rest = []) ∧
    (ev_status ev = eval_passed ∨ ev_status ev = eval_failed ∨ ev_status ev = eval_abandoned).

Lemma passed_results_length (checks : list Check) (rs : list CheckResult) :
  passed_results checks rs → length rs = length checks.
Proof using Type. intros H'. symmetry. exact (Forall2_length _ _ _ H'). Qed.

Lemma reported_stop (done rest : list Check) (rs : list CheckResult) ev :
  manifest_checks manifest = done ++ rest → passed_results done rs →
  (ev_status ev = eval_failed ∨ ev_status ev = eval_abandoned) →
  ev_checks ev = rs ++ map skipped_result (drop (length rs) (manifest_checks manifest)) →
  well_reported ev.
Proof using Type.
  intros Hm Hrs Hst Hev. exists done, [], rest, rs.
  split_and!; [exact Hm|apply Nat.le_0_l|exact Hrs| | |right; exact Hst].
  - exists []. split; [|constructor]. rewrite Hev, Hm, (passed_results_length _ _ Hrs), drop_app_length.
    done.
  - intros Hp. destruct Hst as [Hst|Hst]; by rewrite Hst in Hp.
Qed.

Lemma reported_failed (done rest : list Check) c (code : option Z) (rs : list CheckResult) ev :
  manifest_checks manifest = done ++ c :: rest → passed_results done rs →
  (ev_status ev = eval_failed ∨ ev_status ev = eval_abandoned) →
  ev_checks ev = (rs ++ [result_of c failed code])
    ++ map skipped_result (drop (length (rs ++ [result_of c failed code])) (manifest_checks manifest)) →
  well_reported ev.
Proof.
  intros Hm Hrs Hst Hev. exists done, [c], rest, rs. split_and!; [done|simpl; lia|done| | |tauto].
  - exists [result_of c failed code]. split; [|constructor; [by eexists|constructor]].
    rewrite Hev, Hm, length_app, (passed_results_length _ _ Hrs). simpl.
    rewrite (cons_middle c done rest), (assoc_L (++)).
    replace (length done + 1)%nat with (length (done ++ [c])) by (rewrite length_app; simpl; lia).
    rewrite drop_app_length, <-(assoc_L (++)). done.
  - intros Hp. destruct Hst; congruence.
Qed.

Lemma passed_results_snoc (done : list Check) c (code : Z) (rs : list CheckResult) :
  passed_results done rs → passed_results (done ++ [c]) (rs ++ [result_of c passed (Some code)]).
Proof. intros H'. apply Forall2_app; [done|]. constructor; [by eexists|constructor]. Qed.

(** The loop: its report, and that it passes exactly when all checks do. *)
Lemma loop_spec (done : list Check) (rs : list CheckResult) ws (checks : list Check) ev :
  manifest_checks manifest = done ++ checks → passed_results done rs →
  loop rs ws checks = Ok ev →
  well_reported ev ∧ (ev_status ev = eval_passed → all_pass ws checks).
Proof.
  revert done rs ws. induction checks as [|c checks IH]; intros done rs ws Hm Hrs;
    cbn [check_loop].
  { intros ->%mk_evaluation_Ok. split; [|constructor].
    exists done, [], [], rs. rewrite app_nil_r in Hm.
    split_and!; [by rewrite app_nil_r|simpl; lia|done| |done|by left].
    exists []. split; [by rewrite app_nil_r|constructor]. }
  assert (Hfail : ∀ code ev, ev_checks ev = (rs ++ [result_of c failed code])
      ++ map skipped_result (drop (length (rs ++ [result_of c failed code])) (manifest_checks manifest)) →
    (ev_status ev = eval_failed ∨ ev_status ev = eval_abandoned) →
    well_reported ev ∧ (ev_status ev = eval_passed → all_pass ws (c :: checks))).
  { intros code ev' Hc Hst. split; [by eapply reported_failed|]. destruct Hst; congruence. }
  assert (Hexc : ∀ e, on_exception manifest script_exit_code rs e = Ok ev →
    well_reported ev ∧ (ev_status ev = eval_passed → all_pass ws (c :: checks))).
  { intros e [Hst Hc]%on_exception_Ok. split; [by eapply reported_stop; eauto|congruence]. }
  destruct (match c with InvocationCheck _ _ _ => _ | _ => _ end) eqn:Hcwd.
  { intros [Hst Hc]%guarded_Ok. by eapply Hfail. }
  destruct (_ ≫= _) as [[[request container] ws1]|e] eqn:Hreq; [|apply Hexc].
  apply bind_Ok in Hreq as (q & Hq & Hreq). apply bind_Ok in Hreq as ([r w] & Hr & [= -> -> ->]).
  destruct (bool_decide _ && _ && _) eqn:Hinf.
  { intros [Hst Hc]%guarded_Ok. eapply Hfail; [exact Hc|tauto]. }
  destruct (container_failure container) as [f|] eqn:Hcf.
  { intros [Hst Hc]%guarded_Ok. by eapply Hfail. }
  destruct (_ ≫= _) as [[out err]|e] eqn:Hread; [|apply Hexc].
  apply bind_Ok in Hread as (o & Ho & Hread). apply bind_Ok in Hread as (er & Her & [= -> ->]).
  destruct (matches _ out err container) eqn:Hmat; simpl negb; cbv iota.
  2:{ intros [Hst Hc]%guarded_Ok. by eapply Hfail. }
  assert (Hpass : ∀ ws', (if is_inspection c then ws' = ws1
      else inspect_result_tree ws1 result_tree tree_limits = Ok ws') → check_passes c ws ws').
  { intros ws' Hws'. split.
    - intros k cwd i ->. destruct (task_directory _ _); [by eexists|done].
    - apply matches_true in Hmat as (Hcode & Hout & Herr).
      exists request, container, ws1, out, err. split_and!; try done.
      + intros Hi. rewrite Hi, bool_decide_eq_true_2 in Hinf by done. simpl in Hinf.
        by apply orb_false_iff in Hinf as [?%Z.eqb_neq ?%Z.eqb_neq].
      + destruct (exp_stderr _); [|by injection Her as <-].
        apply fmap_Ok in Her as (b & Hb & ->). by exists b. }
  assert (Hrec : ∀ ws', check_passes c ws ws' →
    loop (rs ++ [result_of c passed (Some (exit_code container))]) ws' checks = Ok ev →
    well_reported ev ∧ (ev_status ev = eval_passed → all_pass ws (c :: checks))).
  { intros ws' Hp Hl. apply (IH (done ++ [c])) in Hl as [H1 H2].
    - split; [done|]. intros Hst. econstructor; eauto.
    - by rewrite Hm, <-(assoc_L (++)).
    - by apply passed_results_snoc. }
  destruct (is_inspection c) eqn:Hi; [by apply Hrec, Hpass|].
  destruct (inspect_result_tree ws1 result_tree tree_limits) as [ws2|e] eqn:Hins.
  { by apply Hrec, Hpass. }
  destruct (bool_decide (exn_cls e = TreeError)); [intros [Hst Hc]%guarded_Ok; by eapply Hfail|].
  intros [Hst Hc]%on_exception_Ok.
  split; [|congruence]. apply (reported_stop (done ++ [c]) checks
    (rs ++ [result_of c passed (Some (exit_code container))]) ev); [| |by right|exact Hc].
  - by rewrite Hm, <-(assoc_L (++)).
  - by apply passed_results_snoc.
Qed.

(** Conversely, when all checks pass the loop answers "passed". *)
Lemma all_pass_loop ws (checks : list Check) :
  all_pass ws checks → ∀ rs, ∃ ev, loop rs ws checks = Ok ev ∧ ev_status ev = eval_passed.
Proof.
  induction 1 as [ws|ws ws' c checks [Hcwd Hp] _ IH]; intros rs; cbn [check_loop]; [by eexists|].
  destruct Hp as (request & container & ws1 & out & err & Hreq & Hrun & Hcf & Hex & Hout & Herr & Hcode & Hso & Hse & Hws).
  pose proof (proj2 (matches_true _ _ _ _) (conj Hcode (conj Hso Hse))) as Hm.
  assert (Hguard : match c with
    | InvocationCheck _ cwd _ =>
        match task_directory (default NOther (fs_lookup ws host_work_base)) cwd with
        | None => true | Some _ => false end
    | InspectionCheck _ => false end = false).
  { destruct c as [k cwd i|k]; [|done]. destruct (Hcwd k cwd i eq_refl) as [p ->]. done. }
  rewrite Hguard, Hreq. cbn [mbind result_bind]. rewrite Hrun. cbn [mbind result_bind mret result_ret].
  assert (Hinf : bool_decide (container_failure container = None) && is_inspection c
      && ((exit_code container =? 126) || (exit_code container =? 127)) = false).
  { destruct (is_inspection c); [|by rewrite andb_false_r].
    destruct (Hex eq_refl) as [?%Z.eqb_neq ?%Z.eqb_neq]. apply andb_false_iff. right.
    by apply orb_false_iff. }
  rewrite Hinf, Hcf, Hout. cbn [mbind result_bind].
  assert (Herr' : match exp_stderr (check_expect (common c)) with
    | Some e => Some <$> read_bytes verifier e | None => mret None end = Ok err).
  { destruct (exp_stderr _); [|by subst]. by destruct Herr as (b & -> & ->). }
  rewrite Herr'. cbn [mbind result_bind mret result_ret]. rewrite Hm. cbn [negb].
  destruct (is_inspection c); [subst; apply IH|]. rewrite Hws. apply IH.
Qed.

(** Grading passes exactly when every check does. *)
Lemma run_checks_passed (workspace : node) :
  (∃ ev, run_checks lstat run workspace_path result_path verifier_path run_prefix verifier manifest
           work_base host_work_base result_tree tree_limits script_exit_code workspace = Ok ev ∧
         ev_status ev = eval_passed) ↔
  ∃ workspace', inspect_result_tree workspace result_tree tree_limits = Ok workspace' ∧
    all_pass workspace' (manifest_checks manifest).
Proof.
  unfold run_checks. split.
  - intros (ev & Hev & Hst). destruct (inspect_result_tree _ _ _) as [w|e].
    + exists w. split; [done|]. apply (loop_spec [] []) in Hev
        as [_ Hp]; [by apply Hp|done|constructor].
    + destruct (bool_decide _); [|done]. apply stop_Ok in Hev as [Hs _]. congruence.
  - intros (w & -> & Hp). by apply all_pass_loop.
Qed.
End verdict.

(** C4 (equivalence): grading answers "passed" exactly when the result tree was
    valid to begin with and every check of the manifest passes in turn, each in the
    workspace the previous one left.  A miner therefore passes if and only if the
    whole hidden suite does; no error path of the validator can make it pass. *)
Theorem verdict_passed `{UD : !UnicodeData} (lstat : pystr → option FileKind)
    (run : ContainerRequest → node → result (ContainerResult * node))
    (workspace_path result_path verifier_path prefix : pystr) (verifier : node)
    (manifest : VerifierManifest) (work_base : pystr) (host_work_base result_tree : fspath)
    (limits : TreeLimits) (script_exit_code : option Z) (workspace : node) :
  (∃ ev, run_checks lstat run workspace_path result_path verifier_path prefix verifier manifest
           work_base host_work_base result_tree limits script_exit_code workspace = Ok ev ∧
         ev_status ev = eval_passed) ↔
  ∃ workspace', inspect_result_tree workspace result_tree limits = Ok workspace' ∧
    all_pass lstat run workspace_path result_path verifier_path prefix verifier work_base
      host_work_base result_tree limits workspace' (manifest_checks manifest).
Proof. apply run_checks_passed. Qed.

Section evaluators.
Context `{UD : !UnicodeData}.
Context (lstat : pystr → option FileKind).
Context (run : ContainerRequest → node → result (ContainerResult * node)).
Context (workspace_path result_path verifier_path run_prefix : pystr) (verifier : node).
Context (manifest : VerifierManifest).

(** Every check of the manifest passed, somewhere below the work directory. *)
Definition suite_passed : Prop :=
  ∃ work_base host_work_base result_tree limits workspace,
    all_pass lstat run workspace_path result_path verifier_path run_prefix verifier work_base
      host_work_base result_tree limits workspace (manifest_checks manifest).

(** The hidden suite of a repository task passed on a workspace and a patch: the patch was
    applied to that workspace, the setup succeeded on what it left, the tree was valid, and
    every check passed in turn in the working directory of the task. *)
Definition repository_suite (workspace : node) (patch : bytes) (identity : RepositoryTaskIdentity)
    (limits : TreeLimits) (patch_limits : PatchLimits) (patch_path : pystr) : Prop :=
  let work_base := work_cwd WORK (r_working_directory identity) in
  ∃ applied patched base ready checked,
    apply_patch_in_container lstat run workspace patch patch_limits workspace_path patch_path run_prefix = Ok (applied, patched) ∧
    patch_status applied ≠ patch_rejected ∧
    task_directory patched (r_working_directory identity) = Some base ∧
    run_setup lstat run workspace_path run_prefix work_base manifest patched = Ok (None, ready) ∧
    inspect_result_tree ready [] limits = Ok checked ∧
    all_pass lstat run workspace_path result_path verifier_path run_prefix verifier work_base base [] limits checked
      (manifest_checks manifest).

(** That of a terminal task: the setup succeeded on the environment, the submitted script ran
    on what it left, the result tree was valid, and every check passed in turn. *)
Definition terminal_suite (environment : node) (script : bytes) (identity : TerminalScriptTaskIdentity)
    (limits : TreeLimits) (max_script_bytes timeout_s max_output_bytes : Z) (script_dir : pystr) : Prop :=
  let path := t_result_tree_path identity in
  ∃ accepted result_tree ready request outcome ran checked,
    validate_script script max_script_bytes = Ok accepted ∧ script_status accepted = script_accepted ∧
    task_directory environment path = Some result_tree ∧
    run_setup lstat run workspace_path run_prefix (work_cwd WORK path) manifest environment = Ok (None, ready) ∧
    script_request lstat workspace_path run_prefix path script_dir timeout_s max_output_bytes = Ok request ∧
    run request ready = Ok (outcome, ran) ∧ container_failure outcome = None ∧
    inspect_result_tree ran result_tree limits = Ok checked ∧
    all_pass lstat run workspace_path result_path verifier_path run_prefix verifier WORK [] result_tree limits checked
      (manifest_checks manifest).

Lemma repository_suite_passed (workspace : node) (patch : bytes) (identity : RepositoryTaskIdentity)
    (limits : TreeLimits) (patch_limits : PatchLimits) (patch_path : pystr) :
  repository_suite workspace patch identity limits patch_limits patch_path → suite_passed.
Proof.
  intros (applied & patched & base & ready & checked & _ & _ & _ & _ & _ & H). by eexists _, _, _, _, _.
Qed.

Lemma terminal_suite_passed (environment : node) (script : bytes) (identity : TerminalScriptTaskIdentity)
    (limits : TreeLimits) (a b c : Z) (dir : pystr) :
  terminal_suite environment script identity limits a b c dir → suite_passed.
Proof.
  intros (accepted & tree & ready & q & o & ran & checked & _ & _ & _ & _ & _ & _ & _ & _ & H). by eexists _, _, _, _, _.
Qed.

Lemma stop_round_status st (reason : string) code (stage : Stage) ev :
  stop_round manifest st reason code stage = Ok ev → ev_status ev = st.
Proof. unfold stop_round. by intros [? _]%stop_Ok. Qed.

Lemma run_setup_status (work_base : pystr) (workspace w : node) ev :
  run_setup lstat run workspace_path run_prefix work_base manifest workspace = Ok (Some ev, w) →
  ev_status ev ≠ eval_passed.
Proof.
  unfold run_setup. destruct (manifest_setup manifest) as [s|]; [|done].
  destruct (mk_request _ _ ≫= _) as [[o w']|e] eqn:Hr.
  - intros [= -> ->]. apply bind_Ok in Hr as (q & _ & Hr). apply bind_Ok in Hr as ([c w1] & _ & Hr).
    destruct (match container_failure c with Some _ => _ | None => _ end); [|done].
    apply bind_Ok in Hr as (ev' & Hs & [= <- <-]). apply stop_Ok in Hs as [-> _]. done.
  - destruct (caught _); [|done]. intros (ev' & Hs & [= <- <-])%bind_Ok.
    apply stop_Ok in Hs as [-> _]. done.
Qed.

Lemma evaluate_repository_passed (workspace : node) (patch : bytes) (identity : RepositoryTaskIdentity)
    (tree_limits : TreeLimits) (patch_limits : PatchLimits) (patch_path : pystr) ev :
  evaluate_repository lstat run workspace_path result_path verifier_path run_prefix verifier workspace
    patch identity manifest tree_limits patch_limits patch_path = Ok ev →
  ev_status ev = eval_passed → repository_suite workspace patch identity tree_limits patch_limits patch_path.
Proof.
  unfold evaluate_repository. intros [_ H1]%guard_Ok Hp.
  destruct (task_directory workspace _); [|apply stop_round_status in H1; congruence].
  destruct (apply_patch_in_container _ _ _ _ _ _ _ _) as [[applied w]|e] eqn:Hpatch.
  2:{ destruct (bool_decide _); [|done]. apply mk_evaluation_Ok in H1 as ->. done. }
  destruct (bool_decide (patch_status applied = patch_rejected)) eqn:Hrej; [by apply mk_evaluation_Ok in H1 as ->|].
  apply bool_decide_eq_false in Hrej. cbv zeta in H1.
  destruct (task_directory w _) as [base|] eqn:Hbase; [|apply stop_round_status in H1; congruence].
  apply bind_Ok in H1 as ([o w'] & Hs & H1). destruct o as [ev'|].
  - injection H1 as ->. by apply run_setup_status in Hs.
  - destruct (proj1 (run_checks_passed lstat run workspace_path result_path verifier_path run_prefix verifier manifest
      (work_cwd WORK (r_working_directory identity)) base [] tree_limits None w')) as (checked & Hi & Hall); [by exists ev|].
    by exists applied, w, base, w', checked.
Qed.

Lemma evaluate_terminal_passed (environment : node) (script : bytes)
    (identity : TerminalScriptTaskIdentity) (tree_limits : TreeLimits) (a b c : Z) (dir : pystr) ev :
  evaluate_terminal lstat run workspace_path result_path verifier_path run_prefix verifier environment
    script identity manifest tree_limits a b c dir = Ok ev →
  ev_status ev = eval_passed → terminal_suite environment script identity tree_limits a b c dir.
Proof.
  unfold evaluate_terminal. intros [_ H1]%guard_Ok Hp. apply bind_Ok in H1 as (accepted & Haccepted & H1).
  destruct (script_status accepted) eqn:Hstatus; [|by apply mk_evaluation_Ok in H1 as ->]. cbv zeta in H1.
  destruct (task_directory environment _) as [tree|] eqn:Htree; [|apply stop_round_status in H1; congruence].
  apply bind_Ok in H1 as ([o w'] & Hs & H1). destruct o as [ev'|].
  { injection H1 as ->. by apply run_setup_status in Hs. }
  destruct (task_directory w' _); [|apply stop_round_status in H1; congruence].
  destruct (script_request _ _ _ _ _ _ _ ≫= _) as [[r w2]|e] eqn:Hrun.
  2:{ destruct (caught _); [|done]. apply stop_round_status in H1. congruence. }
  apply bind_Ok in Hrun as (request & Hrequest & Hrun).
  destruct (container_failure r) eqn:Hfail; [apply stop_Ok in H1 as [? _]; congruence|].
  destruct (proj1 (run_checks_passed lstat run workspace_path result_path verifier_path run_prefix verifier manifest
    WORK [] tree tree_limits (Some (exit_code r)) w2)) as (checked & Hi & Hall); [by exists ev|].
  by exists accepted, tree, w', request, r, w2, checked.
Qed.
End evaluators.

(** (functional): every report lists the checks of the manifest once, in order:
    passed ones, then at most one failed one, then skipped ones without an exit
    code; a passed report has neither failed nor skipped checks, and grading itself
    never rejects. *)
Theorem report_complete `{UD : !UnicodeData} (lstat : pystr → option FileKind)
    (run : ContainerRequest → node → result (ContainerResult * node))
    (workspace_path result_path verifier_path prefix : pystr) (verifier : node)
    (manifest : VerifierManifest) (work_base : pystr) (host_work_base result_tree : fspath)
    (limits : TreeLimits) (script_exit_code : option Z) (workspace : node) (ev : EvaluationResult) :
  run_checks lstat run workspace_path result_path verifier_path prefix verifier manifest
    work_base host_work_base result_tree limits script_exit_code workspace = Ok ev →
  well_reported manifest ev.
Proof.
  unfold run_checks. destruct (inspect_result_tree _ _ _) as [w|e].
  - intros Hl. by eapply (loop_spec _ _ _ _ _ _ _ manifest _ _ _ _ _ [] []) in Hl
      as [Hw _]; [|done|constructor].
  - case_match; [|done]. intros [Hst Hc]%stop_Ok.
    eapply (reported_stop) with (done := []) (rest := manifest_checks manifest) (rs := []);
      [done|constructor|by left|exact Hc].
Qed.

(** ** Witness *)

Definition echo_run (q : ContainerRequest) (w : node) : result (ContainerResult * node) :=
  Ok ({| exit_code := 0; oom_killed := false; timed_out := false; stdout := bstr "no"; stderr := [];
         stdout_overflow := false; stderr_overflow := false |}, w).

Definition sample_report : EvaluationResult :=
  {| ev_status := eval_failed; ev_reason := ustr "candidate output did not match the verifier";
     ev_checks := [{| res_check_id := ustr "c1"; res_kind := invocation; res_outcome := failed;
                      res_exit_code := Some 0 |}];
     ev_script_exit_code := None; ev_reason_code := Some (miner_reason CHECK_FAILED);
     ev_stage := Some CHECK; ev_failed_check := None |}.

Lemma report_complete_witness : well_reported sample_manifest sample_report.
Proof.
  apply (report_complete (UD := ascii_unicode) (λ _, Some kind_dir) echo_run (ustr "/w") (ustr "/w")
    (ustr "/v") (ustr "r") sample_verifier sample_manifest (ustr "/work") [] [] sample_tree_limits
    None sample_tree sample_report).
  vm_compute. reflexivity.
Defined.
