(* ===== verification/Selection.v ===== *)
(** * Selection: which miners a validator offers a task to
    ([src/rlvr/v3/selection.py]).

    A registration is the pair of a UID and a hotkey.  The metagraph arrays are
    optional sequences.  The cryptographic shuffle of [next_offer] is the
    variable [shuffle], of which the code relies on returning a permutation. *)

From S2P Require Import Prelude PyFloat.

Abbreviation registration := (Z * pystr)%type.

(** ** The order of tuples [(int, str)] used by [fresh.sort()] *)

Definition reg_le (p q : registration) : bool :=
  if (p.1 =? q.1)%Z then str_le p.2 q.2 else (p.1 <? q.1)%Z.

(** ** Eligibility *)

Definition validating (permits : list bool) (trust : option (list float)) (uid : Z) : bool :=
  if negb ((uid <? zlen permits)%Z && default false (permits !! Z.to_nat uid)) then false
  else match trust with
       | None => true
       | Some ts =>
           if (zlen ts <=? uid)%Z then true
           else default false (fltb f0 <$> (ts !! Z.to_nat uid))
       end.

Definition eligible_miners (serving : list registration)
    (validator_permits : option (list bool)) (validator_trust : option (list float))
    (owner_hotkey : option pystr) : list registration :=
  let permits := default [] validator_permits in
  filter (λ r, Some r.2 ≠ owner_hotkey ∧ validating permits validator_trust r.1 = false)
    serving.

(** ** The offered order *)

Section next_offer.
Context (shuffle : list registration → list registration).

Definition kept_of (previous : option (list registration)) (eligible : gset registration)
    : list registration :=
  filter (.∈ eligible) (default [] previous).

Definition fresh_of (kept : list registration) (eligible : gset registration)
    : list registration :=
  shuffle (sort_by reg_le (elements (eligible ∖ list_to_set kept))).

Definition next_offer (previous : option (list registration))
    (eligible : list registration) (limit : Z) : list registration :=
  let eligible_set := list_to_set eligible in
  let kept := kept_of previous eligible_set in
  slice_to limit (kept ++ fresh_of kept eligible_set).

Definition choose_candidates (serving : list registration)
    (validator_permits : option (list bool)) (limit : Z) (owner_hotkey : option pystr)
    : list registration :=
  next_offer None (eligible_miners serving validator_permits None owner_hotkey) limit.
End next_offer.

(** [random.shuffle] rearranges its argument. *)
Definition is_shuffle (shuffle : list registration → list registration) : Prop :=
  ∀ l, shuffle l ≡ₚ l.

(** ** Lemmas *)

Section offers.
Context (sh : list registration → list registration) (Hsh : is_shuffle sh).
Implicit Types (kept prev el : list registration) (E : gset registration).

Lemma fresh_of_perm kept E : fresh_of sh kept E ≡ₚ elements (E ∖ list_to_set kept).
Proof. unfold fresh_of. rewrite (Hsh _). apply sort_by_perm. Qed.

Lemma elem_of_fresh_of kept E r : r ∈ fresh_of sh kept E ↔ r ∈ E ∧ r ∉ kept.
Proof. rewrite fresh_of_perm. set_solver. Qed.

(** The order before it is cut at the limit: a duplicate-free enumeration of
    the eligible set. *)
Lemma offer_full_spec (previous : option (list registration)) el :
  NoDup (default [] previous) →
  let kept := kept_of previous (list_to_set el) in
  let full := kept ++ fresh_of sh kept (list_to_set el) in
  NoDup full ∧ ∀ r, r ∈ full ↔ r ∈ el.
Proof.
  intros Hnd kept full. split.
  - apply NoDup_app. split_and!.
    + by apply NoDup_filter.
    + intros r Hr. rewrite elem_of_fresh_of. tauto.
    + rewrite fresh_of_perm. apply NoDup_elements.
  - intros r. unfold full. rewrite elem_of_app, elem_of_fresh_of.
    unfold kept, kept_of. rewrite list_elem_of_filter, elem_of_list_to_set.
    destruct (decide (r ∈ default [] previous)); naive_solver.
Qed.
End offers.

Lemma kept_of_all (prev : list registration) (E : gset registration) :
  (∀ r, r ∈ prev → r ∈ E) → kept_of (Some prev) E = prev.
Proof. apply filter_all. Qed.

Lemma validating_true (permits : list bool) (trust : option (list float)) (uid : Z) :
  (0 <= uid)%Z →
  validating permits trust uid = true ↔
  permits !! Z.to_nat uid = Some true ∧
  ∀ ts t, trust = Some ts → ts !! Z.to_nat uid = Some t → fltb f0 t = true.
Proof.
  intros Hu. unfold validating, zlen.
  destruct (permits !! Z.to_nat uid) as [[]|] eqn:Hp; simpl.
  - apply lookup_lt_Some in Hp. rewrite (proj2 (Z.ltb_lt _ _)) by lia. simpl.
    destruct trust as [ts|]; [|naive_solver].
    destruct (Z.leb_spec (Z.of_nat (length ts)) uid) as [Hle|Hlt].
    + split; [|done]. intros _. split; [done|]. intros ? t [= <-] Ht%lookup_lt_Some. lia.
    + destruct (lookup_lt_is_Some_2 ts (Z.to_nat uid)) as [t Ht]; [lia|].
      rewrite Ht. simpl. naive_solver.
  - rewrite andb_false_r. naive_solver.
  - rewrite andb_false_r. naive_solver.
Qed.

(** ** Properties *)

(** (functional): the offered list has no duplicates, names eligible miners
    only, is as long as the limit and the number of distinct eligible miners
    allow, and starts with the still eligible miners of the previous order, in
    their previous order. *)
Theorem next_offer_spec (sh : list registration → list registration)
    (prev : option (list registration)) (eligible : list registration) (limit : Z) :
  is_shuffle sh → (0 <= limit)%Z → NoDup (default [] prev) →
  let offered := next_offer sh prev eligible limit in
  NoDup offered ∧
  (∀ r, r ∈ offered → r ∈ eligible) ∧
  zlen offered = Z.min limit (Z.of_nat (size (list_to_set eligible : gset registration))) ∧
  slice_to limit (filter (.∈ eligible) (default [] prev)) `prefix_of` offered.
Proof.
  intros Hs Hlim Hnd offered.
  pose proof (offer_full_spec sh Hs prev eligible Hnd) as [Hfnd Hfin]. simpl in *.
  set (full := _ ++ _) in Hfnd, Hfin. split_and!.
  - eapply sublist_NoDup; [exact Hfnd|apply slice_to_sublist].
  - intros r Hr. apply Hfin. by eapply elem_of_slice_to.
  - unfold offered, next_offer. rewrite slice_to_length by done. f_equal.
    unfold zlen. f_equal. apply NoDup_same_elements_length; [done|apply NoDup_elements|].
    intros r. rewrite elem_of_elements, elem_of_list_to_set. apply Hfin.
  - unfold offered, next_offer. rewrite !slice_to_nonneg by done.
    assert (Hk : kept_of prev (list_to_set eligible) = filter (.∈ eligible) (default [] prev)).
    { apply list_filter_iff. intros r. apply elem_of_list_to_set. }
    rewrite Hk, take_app. apply prefix_app_r. done.
Qed.

(** (functional): a miner is eligible exactly when it serves, is not the
    owner, and does not hold a permit together with a positive or unknown
    validator trust; the serving order is kept. *)
Theorem eligible_miners_spec (serving : list registration) (permits : option (list bool))
    (trust : option (list float)) (owner : option pystr) :
  (∀ r, r ∈ serving → (0 <= r.1)%Z) →
  let el := eligible_miners serving permits trust owner in
  el `sublist_of` serving ∧
  ∀ r, r ∈ el ↔ r ∈ serving ∧ owner ≠ Some r.2 ∧
    ¬ (default [] permits !! Z.to_nat r.1 = Some true ∧
       ∀ ts t, trust = Some ts → ts !! Z.to_nat r.1 = Some t → fltb f0 t = true).
Proof.
  intros Hnn el. split; [apply sublist_filter|]. intros r. unfold el, eligible_miners.
  rewrite list_elem_of_filter.
  assert (Hv : (0 <= r.1)%Z → validating (default [] permits) trust r.1 = true ↔
    default [] permits !! Z.to_nat r.1 = Some true ∧
    ∀ ts t, trust = Some ts → ts !! Z.to_nat r.1 = Some t → fltb f0 t = true).
  { intros H0. apply validating_true. done. }
  rewrite <-not_true_iff_false. split.
  - intros [[Ho Hval] Hin]. split_and!; [done|congruence|]. by rewrite <-Hv by auto.
  - intros (Hin & Ho & Hval). split; [split; [congruence|]|done]. by rewrite Hv by auto.
Qed.

(** (safety, no redraw): once an order has been offered, offering again to
    the same eligible miners returns the very same list, whatever the second
    shuffle draws: a failed lease cannot be retried against a different draw. *)
Theorem next_offer_no_redraw (sh1 sh2 : list registration → list registration)
    (prev : option (list registration)) (eligible : list registration) (limit : Z) :
  is_shuffle sh1 → is_shuffle sh2 → (0 <= limit)%Z → NoDup (default [] prev) →
  let offered := next_offer sh1 prev eligible limit in
  next_offer sh2 (Some offered) eligible limit = offered.
Proof.
  intros H1 H2 Hlim Hnd offered.
  pose proof (offer_full_spec sh1 H1 prev eligible Hnd) as [Hfnd Hfin]. simpl in *.
  set (full := _ ++ _) in Hfnd, Hfin.
  assert (Hoff : offered = slice_to limit full) by done.
  assert (Hkept : kept_of (Some offered) (list_to_set eligible) = offered).
  { apply kept_of_all. intros r Hr. rewrite Hoff in Hr.
    apply elem_of_slice_to in Hr. set_solver. }
  unfold next_offer. rewrite Hkept.
  destruct (decide (zlen full <= limit)%Z) as [Hle|Hgt].
  - assert (Hnil : fresh_of sh2 offered (list_to_set eligible) = []).
    { apply elem_of_nil_inv. intros r. rewrite (elem_of_fresh_of sh2 H2).
      rewrite elem_of_list_to_set, <-Hfin, Hoff, slice_to_all by done. tauto. }
    rewrite Hnil, app_nil_r. apply slice_to_all.
    rewrite Hoff, slice_to_all; done.
  - rewrite slice_to_nonneg by done. rewrite take_app_length'; [done|].
    pose proof (slice_to_length limit full Hlim) as Hlen. rewrite <-Hoff in Hlen.
    unfold zlen in *. lia.
Qed.

(** ** Witnesses *)

Definition miner_a : registration := (1%Z, ustr "a").
Definition miner_b : registration := (2%Z, ustr "b").
Definition miner_c : registration := (3%Z, ustr "c").

Lemma is_shuffle_rev : is_shuffle (@rev registration).
Proof. intros l. symmetry. apply Permutation_rev. Qed.

Lemma is_shuffle_id : is_shuffle (λ l, l).
Proof. intros l. done. Qed.

Lemma next_offer_no_redraw_witness :
  let offered := next_offer (@rev _) None [miner_a; miner_b; miner_c] 2 in
  offered = [miner_c; miner_b] ∧
  next_offer (λ l, l) (Some offered) [miner_a; miner_b; miner_c] 2 = offered.
Proof.
  split; [vm_compute; reflexivity|].
  apply (next_offer_no_redraw (@rev _) (λ l, l) None [miner_a; miner_b; miner_c] 2).
  - apply is_shuffle_rev.
  - apply is_shuffle_id.
  - lia.
  - apply NoDup_nil_2.
Defined.

Lemma next_offer_spec_witness :
  next_offer (λ l, l) (Some [miner_c; miner_b]) [miner_a; miner_c] 2 = [miner_c; miner_a] ∧
  [miner_c] `prefix_of` next_offer (λ l, l) (Some [miner_c; miner_b]) [miner_a; miner_c] 2.
Proof.
  split; [vm_compute; reflexivity|].
  apply (next_offer_spec (λ l, l) (Some [miner_c; miner_b]) [miner_a; miner_c] 2).
  - apply is_shuffle_id.
  - lia.
  - apply (bool_decide_unpack _). vm_compute. done.
Defined.

Lemma eligible_miners_spec_witness :
  eligible_miners [miner_a; miner_b; miner_c] (Some [false; true; true; false])
    (Some [f0; f0; f1; f0]) (Some (ustr "c")) = [miner_a] ∧
  eligible_miners [miner_a; miner_b; miner_c] (Some [false; true; true; false])
    (Some [f0; f0; f1; f0]) (Some (ustr "c")) `sublist_of` [miner_a; miner_b; miner_c].
Proof.
  split; [vm_compute; reflexivity|].
  apply (eligible_miners_spec [miner_a; miner_b; miner_c]).
  intros r Hr. repeat (apply elem_of_cons in Hr as [->|Hr]; [simpl; lia|]).
  by apply not_elem_of_nil in Hr.
Defined.
