(* ===== verification/Round.v ===== *)
(** * Round policy, results, payments and scores ([src/rlvr/v3/round.py])

    The records of a round, the helpers of [evaluate_round] (which is in
    [EvaluateRound]), and what happens to a finished round: [compute_round_payments]
    and [apply_round_scores].  A Python dict of payments is an association list in
    insertion order. *)

From S2P Require Import Prelude PyFloat Text Json JsonSpec Canonical CanonicalSpec Wire Identity Api EvalEngine EvalEngineSpec FileSystem Archive Download Supervisor Manifest Feedback Patch Grading.

Local Open Scope Z_scope.

(** ** Policy *)

Record RoundPolicy := {
  workspace_archive : ArchiveLimits;
  verifier_archive : ArchiveLimits;
  submission_limits : SubmissionLimits;
  tree_policy : TreeLimits;
  patch_policy : PatchLimits;
  script_policy : Z;
  supervisor_policy : SupervisorPolicy;
  artifact_origins : gset pystr;
  policy_profile_id : pystr;
  policy_verifier_policy : pystr;
  dispatch_concurrency : Z;
  grading_concurrency : Z;
  miners_per_task : Z;
  commit_quorum : Z;
  min_lease_s : Z
}.

Definition check_round_policy (p : RoundPolicy) : result unit :=
  raise_if (dispatch_concurrency p <? 1) ValueError "dispatch concurrency must be positive";;
  raise_if (grading_concurrency p <? 1) ValueError "grading concurrency must be positive";;
  raise_if (negb ((1 <=? miners_per_task p) && (miners_per_task p <=? 1024))) ValueError
    "miners per task must be between 1 and 1024";;
  raise_if (negb ((1 <=? commit_quorum p) && (commit_quorum p <=? miners_per_task p))) ValueError
    "commit quorum must be between 1 and miners per task";;
  raise_if (min_lease_s p <? 1) ValueError "minimum lease window must be positive".

(** ** Results *)

Record MinerEvaluation := {
  me_uid : Z;
  me_hotkey : pystr;
  me_latency_ms : Z;
  me_result : EvaluationResult;
  me_grading_duration_ms : Z;
  me_trajectory : option MinerArtifactRef
}.

Inductive RoundStatus := completed | unavailable | abandoned.
#[export] Instance RoundStatus_eq_dec : EqDecision RoundStatus. Proof. solve_decision. Defined.

Record RoundResult := {
  rr_status : RoundStatus;
  rr_reason : pystr;
  rr_evaluations : list MinerEvaluation;
  rr_retry_after_s : option Z;
  rr_reason_code : option RoundReason;
  rr_stage : option Stage;
  rr_challenge_id : option pystr;
  rr_task_id : option pystr;
  rr_assigned_miners : list (Z * pystr);
  rr_diagnostic_evaluations : list MinerEvaluation;
  rr_dispatch_failures : list (Z * pystr * MinerReason);
  rr_checks_total : option Z
}.

(** The constructor with only its first three fields given. *)
Definition bare_result (st : RoundStatus) (reason : pystr) (evaluations : list MinerEvaluation)
    : RoundResult :=
  {| rr_status := st; rr_reason := reason; rr_evaluations := evaluations; rr_retry_after_s := None;
     rr_reason_code := None; rr_stage := None; rr_challenge_id := None; rr_task_id := None;
     rr_assigned_miners := []; rr_diagnostic_evaluations := []; rr_dispatch_failures := [];
     rr_checks_total := None |}.

Definition did_pass (m : MinerEvaluation) : bool :=
  bool_decide (ev_status (me_result m) = eval_passed).

(** ** Helpers of the round *)

(** The names [_remove_tree] is willing to remove. *)
Definition managed_name (name : pystr) : bool :=
  startswith (ustr "hone-v3-round-") name
  || ((zlen name =? 64) && forallb is_lower_hex name)
  || (startswith (ustr "miner-") name
      && let digits := drop 6 name in negb (bool_decide (digits = [])) && forallb is_digit digits).

(** [_remove_tree] of an entry that is [n]; [removed]: do [chmod] and [rm] exist, and
    does [rm] succeed? *)
Definition remove_tree (name : pystr) (n : option node) (removed : result unit) : result unit :=
  raise_if (match n with Some (NDir _ _) => false | _ => true end) ValueError
    "cleanup target must be a real directory";;
  raise_if (negb (managed_name name)) ValueError "cleanup target is outside the managed workspace";;
  removed.

Section helpers.
Context `{!UnicodeData, !Sha256}.

Definition failed_submission (challenge_id : pystr) (uid : Z) (hotkey error : pystr)
    : result MinerSubmission :=
  request_id ← derive_miner_request_id challenge_id uid hotkey;
  let text := slice_to 4096 error in
  MinerSubmission_validate
    {| ms_uid := uid; ms_hotkey := hotkey; ms_request_id := request_id; ms_response_body := [];
       ms_response_headers := [];
       ms_error := if bool_decide (text = []) then ustr "miner unavailable" else text;
       ms_latency_ms := 0 |}.

(** The format of a grant and of an upload are the same strings. *)
Definition same_format (g : GrantFormat) (u : UploadFormat) : bool :=
  match g, u with
  | grant_diff, unified_diff_v1 | grant_script, bash_script_v1 => true
  | _, _ => false
  end.

Definition grant_matches_signed_response (grant : ArtifactGrant) (response : option MinerTaskResponse)
    : bool :=
  match response with
  | None => false
  | Some r =>
      let s := p_submission r in
      bool_decide (g_upload_id grant = m_upload_id s) && bool_decide (g_sha256 grant = m_sha256 s)
      && (g_size_bytes grant =? m_size_bytes s) && same_format (g_format grant) (m_format s)
  end.

Definition verdict (grant : ArtifactGrant) (evaluation : MinerEvaluation) : result FeedbackVerdict :=
  let passed := did_pass evaluation in
  let latency := me_latency_ms evaluation in
  FeedbackVerdict_validate
    {| fv_uid := g_uid grant; fv_hotkey := g_hotkey grant; fv_passed := passed;
       fv_grading_duration_ms := me_grading_duration_ms evaluation;
       fv_response_latency_ms :=
         if (0 <=? latency) && (latency <=? FEEDBACK_LATENCY_MAX_MS) then Some latency else None;
       fv_reason_code :=
         match ev_reason_code (me_result evaluation) with
         | Some (miner_reason r) => if passed then None else Some r
         | _ => None
         end |}.

(** The last evaluation of a registration, as a dict built in order keeps it. *)
Definition evaluation_of (evaluations : list MinerEvaluation) (registration : Z * pystr)
    : option MinerEvaluation :=
  find (λ m, bool_decide ((me_uid m, me_hotkey m) = registration)) (rev evaluations).

Definition diagnostic_feedback (challenge_id task_id : pystr) (grants : list ArtifactGrant)
    (evaluations : list MinerEvaluation) : result ChallengeFeedbackRequest :=
  verdicts ← mapM (λ g,
      match evaluation_of evaluations (g_uid g, g_hotkey g) with
      | Some m => verdict g m
      | None => raise KeyError ""
      end) grants;
  ChallengeFeedbackRequest_validate
    {| cf_protocol_version := 3; cf_challenge_id := challenge_id; cf_task_id := task_id;
       cf_verdicts := verdicts |}.

(** [post]: the client's [feedback]. Every exception is a refusal. *)
Definition send_diagnostic_feedback (post : ChallengeFeedbackRequest → result bool)
    (challenge_id task_id : pystr) (grants : list ArtifactGrant) (evaluations : list MinerEvaluation)
    : bool :=
  if bool_decide (grants = []) then true
  else match (request ← diagnostic_feedback challenge_id task_id grants evaluations; post request) with
       | Ok accepted => accepted
       | Raise _ => false
       end.
End helpers.

(** ** Payments *)

(** [d[k] = v] *)
Fixpoint dict_set {V} (k : Z) (v : V) (d : list (Z * V)) : list (Z * V) :=
  match d with
  | [] => [(k, v)]
  | (k', v') :: d' => if k' =? k then (k, v) :: d' else (k', v') :: dict_set k v d'
  end.

(** [min(xs, default=None)] *)
Definition min_list (xs : list Z) : option Z :=
  match xs with [] => None | x :: xs' => Some (foldl Z.min x xs') end.

Section payments.
Context `{!PyMath}.

Definition round_payment (fastest : option Z) (half_life floor : float) (m : MinerEvaluation) : float :=
  if negb (did_pass m) then f0
  else match fastest with
       | None => f1
       | Some fastest =>
           if negb (isfinite half_life) || fleb half_life f0 then f1
           else
             let delay := Z.max 0 (me_latency_ms m - fastest) in
             fadd floor (fmul (fsub f1 floor)
                           (fpow f2 (fdiv (float_of_int (- delay)) half_life)))
       end.

Definition fastest_pass (evaluations : list MinerEvaluation) : option Z :=
  min_list (filter (λ l, (0 <? l) = true)
              (map me_latency_ms (filter (λ m, did_pass m = true) evaluations))).

Definition compute_round_payments (r : RoundResult) (speed_half_life_ms speed_floor : float)
    : list (Z * float) :=
  if negb (bool_decide (rr_status r = completed)) then []
  else
    let fastest := fastest_pass (rr_evaluations r) in
    let floor := fmin f1 (fmax f0 speed_floor) in
    foldl (λ payments m, dict_set (me_uid m) (round_payment fastest speed_half_life_ms floor m) payments)
      [] (rr_evaluations r).



(** [now], [now']: the clock at the two engine calls. *)
Definition apply_round_scores (r : RoundResult) (e : engine) (now now' : float)
    (active_hotkeys : gmap Z pystr) (speed_half_life_ms speed_floor : float) : result (bool * engine) :=
  if negb (bool_decide (rr_status r = completed)) then mret (false, e)
  else
    let eligible :=
      filter (λ m, active_hotkeys !! me_uid m = Some (me_hotkey m)) (rr_evaluations r) in
    let payments :=
      compute_round_payments (bare_result completed (rr_reason r) eligible)
        speed_half_life_ms speed_floor in
    let dispatched : gset Z := list_to_set (map me_uid eligible) in
    let hotkeys := foldl (λ d m, dict_set (me_uid m) (me_hotkey m) d) [] eligible in
    '(e, observed_at) ← update e now payments (Some hotkeys) (Some dispatched) None;
    e ← record_nonserving e now' (dom active_hotkeys) (Some observed_at);
    mret (true, e).
End payments.

(** ** Lemmas *)

Section dict.
Context {V : Type}.
Implicit Types (d : list (Z * V)).

Lemma dict_set_fresh (k : Z) (v : V) d : k ∉ map fst d → dict_set k v d = d ++ [(k, v)].
Proof.
  induction d as [|[k' v'] d IH]; simpl; [done|]. intros [Hk Hd]%not_elem_of_cons.
  rewrite (proj2 (Z.eqb_neq k' k)) by done. by rewrite IH.
Qed.

(** Building a dict from distinct keys only appends. *)
Lemma dict_build {A} (key : A → Z) (val : A → V) (l : list A) d :
  NoDup (map fst d ++ map key l) →
  foldl (λ d x, dict_set (key x) (val x) d) d l = d ++ map (λ x, (key x, val x)) l.
Proof.
  revert d. induction l as [|x l IH]; intros d Hnd; simpl; [by rewrite app_nil_r|].
  simpl in Hnd. assert (Hx : key x ∉ map fst d).
  { apply NoDup_app in Hnd as (_ & Hdis & _). intros Hin. apply (Hdis _ Hin). by left. }
  rewrite dict_set_fresh by done. rewrite IH; [by rewrite <-(assoc_L (++))|].
  rewrite map_app. simpl. by rewrite <-(assoc_L (++)).
Qed.
End dict.

Lemma NoDup_map_filter {A B} (f : A → B) (P : A → Prop) `{!∀ x, Decision (P x)} (l : list A) :
  NoDup (map f l) → NoDup (map f (filter P l)).
Proof.
  intros Hnd. apply (sublist_NoDup _ _ Hnd), (fmap_sublist f), sublist_filter.
Qed.

(** ** Properties *)

Section scores.
Context `{PM : !PyMath, NP : !NumPy}.
Implicit Types (r : RoundResult) (active : gmap Z pystr) (m : MinerEvaluation).

(** The evaluations of miners that are still registered with the same hotkey. *)
Definition eligible_evaluations r active : list MinerEvaluation :=
  filter (λ m, active !! me_uid m = Some (me_hotkey m)) (rr_evaluations r).

(** What the round records for a UID: its payment, or zero for an observed miner that
    is gone. *)
Definition round_observation (e : engine) r active (half_life floor : float) (uid : Z) : option float :=
  match find (λ m, bool_decide (me_uid m = uid)) (eligible_evaluations r active) with
  | Some m =>
      Some (round_payment (fastest_pass (eligible_evaluations r active)) half_life
              (fmin f1 (fmax f0 floor)) m)
  | None =>
      if decide (decay e = true ∧ is_Some (histories e !! uid) ∧ uid ∉ dom active) then Some f0 else None
  end.

Lemma observed_evaluations (e : engine) (ms : list MinerEvaluation) (pay : MinerEvaluation → float)
    (uid : Z) :
  NoDup (map me_uid ms) →
  observed e (map (λ m, (me_uid m, pay m)) ms) (Some (list_to_set (map me_uid ms))) uid
  = pay <$> find (λ m, bool_decide (me_uid m = uid)) ms.
Proof.
  intros Hnd. unfold observed. destruct (find _ ms) as [m|] eqn:Hf; simpl.
  - apply find_some in Hf as [Hin Hu%bool_decide_eq_true].
    assert (Hl : (list_to_map (map (λ m, (me_uid m, pay m)) ms) : gmap Z float) !! uid = Some (pay m)).
    { apply elem_of_list_to_map_1.
      - rewrite <-list_fmap_compose. by apply Hnd.
      - apply list_elem_of_fmap. exists m. subst. split; [done|]. by apply list_elem_of_In. }
    by rewrite Hl.
  - assert (Hno : uid ∉ map me_uid ms).
    { intros (m & Hm & Hin)%list_elem_of_fmap. apply list_elem_of_In in Hin.
      apply (find_none _ _ Hf) in Hin. by apply bool_decide_eq_false in Hin. }
    assert (Hl : (list_to_map (map (λ m, (me_uid m, pay m)) ms) : gmap Z float) !! uid = None).
    { apply not_elem_of_list_to_map_1. by rewrite <-list_fmap_compose. }
    rewrite Hl. destruct (decay e); [|done]. rewrite decide_False; [done|]. set_solver.
Qed.
End scores.

(** (functional): scoring a completed round records at most one observation per
    UID, at one timestamp: the payment of every evaluated miner that still holds its
    registration (zero unless it passed), and zero for a scored miner that is no
    longer active.  A miner whose hotkey changed since the lease, and an active miner
    that was not offered, keep their history.  A round that was abandoned or
    unavailable leaves the engine untouched. *)
Theorem round_scores `{PM : !PyMath, NP : !NumPy} (r : RoundResult) (e : engine) (now now' : float)
    (active : gmap Z pystr) (half_life floor : float) :
  wf e → isfinite now = true → fltb now f0 = false →
  NoDup (map me_uid (rr_evaluations r)) → Forall (λ m, 0 <= me_uid m) (rr_evaluations r) →
  (rr_status r ≠ completed → apply_round_scores r e now now' active half_life floor = Ok (false, e)) ∧
  (rr_status r = completed →
   ∃ e', apply_round_scores r e now now' active half_life floor = Ok (true, e') ∧
     ∀ uid, histories e' !! uid =
       window_after e (round_observation e r active half_life floor uid) now (histories e !! uid)).
Proof.
  intros Hwf Hn1 Hn2 Hnd Hpos. unfold apply_round_scores. split; intros Hst.
  { by rewrite bool_decide_eq_false_2. }
  rewrite bool_decide_eq_true_2 by done. cbn [negb].
  fold (eligible_evaluations r active). set (ms := eligible_evaluations r active).
  assert (Hms : NoDup (map me_uid ms)) by (by apply NoDup_map_filter).
  set (pay := round_payment (fastest_pass ms) half_life (fmin f1 (fmax f0 floor))).
  assert (Hpay : compute_round_payments (bare_result completed (rr_reason r) ms) half_life floor
    = map (λ m, (me_uid m, pay m)) ms).
  { unfold compute_round_payments. simpl. by rewrite (dict_build me_uid pay). }
  rewrite Hpay, (dict_build me_uid me_hotkey) by done. simpl ([] ++ _).
  destruct (challenge_slots e now now' (map (λ m, (me_uid m, pay m)) ms)
    (Some (map (λ m, (me_uid m, me_hotkey m)) ms)) (list_to_set (map me_uid ms)) (dom active))
    as (e1 & e2 & Hu & Hns & Hh); try done.
  - assert (Hge : Forall (λ m, 0 <= me_uid m) ms).
    { rewrite Forall_forall in *. intros m Hm. apply Hpos. by apply list_elem_of_filter in Hm as [_ ?]. }
    rewrite Forall_forall in Hge. split_and!.
    + by rewrite <-list_fmap_compose.
    + apply Forall_fmap, Forall_forall. intros m Hm. by apply Hge.
    + apply Forall_fmap, Forall_forall. intros m Hm. by apply Hge.
    + intros u Hu. apply (elem_of_list_to_set (C := gset Z)), list_elem_of_fmap in Hu as (m & -> & Hm).
      by apply Hge.
  - assert (Hin : ∀ u, u ∈ map me_uid ms → u ∈ dom active).
    { intros u (m & -> & Hm)%list_elem_of_fmap. apply list_elem_of_filter in Hm as [Hm _].
      by apply elem_of_dom. }
    intros u [Hu|Hu]; apply Hin.
    + by rewrite <-list_fmap_compose in Hu.
    + by rewrite elem_of_list_to_set in Hu.
  - rewrite Hu. cbn [mbind result_bind]. rewrite Hns. exists e2. split; [done|].
    intros uid. rewrite Hh, observed_evaluations by done. unfold round_observation. fold ms.
    by destruct (find _ ms).
Qed.

(** ** Witness *)

Definition graded_as (st : EvaluationStatus) : EvaluationResult :=
  {| ev_status := st; ev_reason := []; ev_checks := []; ev_script_exit_code := None;
     ev_reason_code := None; ev_stage := None; ev_failed_check := None |}.

Definition sample_evaluation (uid : Z) (hotkey : string) (st : EvaluationStatus) : MinerEvaluation :=
  {| me_uid := uid; me_hotkey := ustr hotkey; me_latency_ms := 900; me_result := graded_as st;
     me_grading_duration_ms := 5; me_trajectory := None |}.

Definition sample_round : RoundResult :=
  bare_result completed [] [sample_evaluation 0 "a" eval_passed; sample_evaluation 1 "b" eval_failed;
                            sample_evaluation 2 "old" eval_passed].

Definition sample_active : gmap Z pystr :=
  {[0 := ustr "a"; 1 := ustr "b"; 2 := ustr "new"]}.

Lemma round_scores_witness :
  ∃ e', apply_round_scores (H := naive_math) sample_round engine_a f2 f2
          sample_active f1 f1 = Ok (true, e') ∧
    histories e' !! 0 = Some [(f1, f1); (f2, f1)] ∧ histories e' !! 1 = Some [(f2, f0)] ∧
    histories e' !! 2 = None.
Proof.
  destruct (round_scores (PM := naive_math) (NP := naive_numpy) sample_round engine_a f2 f2 sample_active
    f1 f1) as [_ Hc].
  - apply engine_a_wf.
  - reflexivity.
  - reflexivity.
  - apply (bool_decide_unpack _). vm_compute. done.
  - apply (bool_decide_unpack _). vm_compute. done.
  - destruct (Hc eq_refl) as (e' & He & Hh). exists e'. split; [exact He|].
    rewrite !Hh. split_and!; vm_compute; reflexivity.
Defined.
