(* ===== verification/EvaluateRound.v ===== *)
(** * One round, from lease to verdicts ([evaluate_round] of [src/rlvr/v3/round.py])

    The round is written in the monad [round_m]: the Python locals that [finish]
    reads (stage, evaluations, dispatch failures, number of checks) are the state, an
    early [return] and an exception are outcomes that keep it.  [RoundHost] is what
    the round finds outside: clocks, disk space, directories, HTTP, containers, and
    the order in which running gradings finish.  What a grading finds when it gets its
    slot ([now_grade], [free_grade], [copy_fault], [remove_workspace]) and how long it
    takes ([grade_ms]) depends on that order in the program: here both are inputs, so that
    a host is one schedule.  The problem server and the miners are the classes
    [V3Client] and [V3Solver].  Every offered miner is dispatched at once; their writes
    touch distinct keys, so they are modelled in slot order. *)

From S2P Require Import Prelude PyFloat Text Json JsonSpec Canonical CanonicalSpec Wire Identity Api ProblemClient FileSystem Archive ArchiveSpec Workspace Download Supervisor Manifest Feedback Patch Grading EvalEngine EvalEngineSpec Round.

Local Open Scope Z_scope.

Class V3Solver := {
  serving : list (Z * pystr);
  solve_v3 : Z * pystr → MinerTaskRequest → result (MinerSubmission * option MinerTaskResponse)
}.

Record RoundHost := {
  now_lease : float;
  now_dispatch : float;
  now_reveal : float;
  now_grade : nat → float;
  grade_ms : nat → Z;
  free_workspace : Z;
  free_verifier : Z;
  free_grade : nat → Z;
  make_dirs : result unit;
  make_round_dir : result unit;
  work_entries : list (pystr * node);
  cache_entries : gmap pystr node;
  remove : pystr → result unit;
  unlink : pystr → result unit;
  http_workspace : pystr → result HttpResponse;
  http_verifier : pystr → result HttpResponse;
  http_submission : nat → pystr → result HttpResponse;
  submission_secured : nat → bool;
  copy_fault : nat → result unit;
  remove_workspace : nat → result unit;
  host_lstat : nat → pystr → option FileKind;
  host_run : nat → ContainerRequest → node → result (ContainerResult * node);
  host_umask : Z;
  host_superuser : bool;
  round_dir : pystr;
  patch_file : nat → pystr;
  script_dir : nat → pystr;
  finish_order : list nat
}.

(** ** The monad *)

Record RoundState := {
  rs_stage : Stage;
  rs_evaluations : list MinerEvaluation;
  rs_dispatch_failures : gmap (Z * pystr) MinerReason;
  rs_checks_total : option Z;
  (* the answer to the diagnostic feedback: a refusal is printed *)
  rs_feedback_accepted : option bool
}.

Inductive step (A : Type) := Next (a : A) | Return (r : RoundResult) | Throw (e : exn).
Arguments Next {A} _.
Arguments Return {A} _.
Arguments Throw {A} _.

Definition round_m (A : Type) : Type := RoundState → step A * RoundState.

#[export] Instance round_ret : MRet round_m := λ A a st, (Next a, st).
#[export] Instance round_bind : MBind round_m := λ A B f m st,
  match m st with
  | (Next a, st') => f a st'
  | (Return r, st') => (Return r, st')
  | (Throw e, st') => (Throw e, st')
  end.

Definition call {A} (m : result A) : round_m A := λ st,
  (match m with Ok a => Next a | Raise e => Throw e end, st).

Definition return_with {A} (f : RoundState → RoundResult) : round_m A := λ st, (Return (f st), st).

Definition set_stage (s : Stage) : round_m unit := λ st,
  (Next (), {| rs_stage := s; rs_evaluations := rs_evaluations st;
               rs_dispatch_failures := rs_dispatch_failures st;
               rs_checks_total := rs_checks_total st;
               rs_feedback_accepted := rs_feedback_accepted st |}).

Definition add_evaluations (es : list MinerEvaluation) : round_m unit := λ st,
  (Next (), {| rs_stage := rs_stage st; rs_evaluations := rs_evaluations st ++ es;
               rs_dispatch_failures := rs_dispatch_failures st;
               rs_checks_total := rs_checks_total st;
               rs_feedback_accepted := rs_feedback_accepted st |}).

Definition dispatch_failed (registration : Z * pystr) (reason : MinerReason) : round_m unit := λ st,
  (Next (), {| rs_stage := rs_stage st; rs_evaluations := rs_evaluations st;
               rs_dispatch_failures := <[registration := reason]> (rs_dispatch_failures st);
               rs_checks_total := rs_checks_total st;
               rs_feedback_accepted := rs_feedback_accepted st |}).

Definition set_checks_total (n : Z) : round_m unit := λ st,
  (Next (), {| rs_stage := rs_stage st; rs_evaluations := rs_evaluations st;
               rs_dispatch_failures := rs_dispatch_failures st; rs_checks_total := Some n;
               rs_feedback_accepted := rs_feedback_accepted st |}).

Fixpoint round_mapM {A B} (f : A → round_m B) (l : list A) : round_m (list B) :=
  match l with
  | [] => mret []
  | x :: l' => y ← f x; ys ← round_mapM f l'; mret (y :: ys)
  end.

(** [stage.value.replace("_", " ")] *)
Definition stage_text (s : Stage) : pystr :=
  ustr match s with
  | LEASE => "lease" | WORKSPACE_DOWNLOAD => "workspace download"
  | WORKSPACE_EXTRACTION => "workspace extraction" | DISPATCH => "dispatch" | COMMIT => "commit"
  | VERIFIER_DOWNLOAD => "verifier download" | VERIFIER_EXTRACTION => "verifier extraction"
  | VERIFIER_MANIFEST => "verifier manifest" | SUBMISSION_DOWNLOAD => "submission download"
  | WORKSPACE_MATERIALIZATION => "workspace materialization" | GRADING => "grading"
  | PATCH => "patch" | SETUP => "setup" | SCRIPT => "script" | CHECK => "check"
  | RESULT_TREE => "result tree" | CLEANUP => "cleanup"
  end%string.

Definition registration_of (slots : MinerSlotSet) : Z * pystr :=
  (s_uid (submission slots), s_hotkey (submission slots)).

Definition registration_le (a b : Z * pystr * MinerReason) : bool :=
  if a.1.1 =? b.1.1 then str_le a.1.2 b.1.2 else a.1.1 <? b.1.1.

Definition by_uid (ms : list MinerEvaluation) : list MinerEvaluation :=
  sort_by (λ a b, me_uid a <=? me_uid b) ms.

(** ** Scheduling of the gradings *)

Inductive task_fault :=
  | FaultAbandon (reason : pystr) (code : RoundReason) (stage : option Stage)
      (evaluations : list MinerEvaluation)
  | FaultCrash (e : exn).

(** What [gather] returns for one task: [TaskSkipped] is the [None] of a task that
    found the round dead. *)
Inductive task_outcome :=
  | TaskGraded (evaluations : list MinerEvaluation)
  | TaskSkipped
  | TaskFault (f : task_fault).

Definition is_fault (o : task_outcome) : bool := match o with TaskFault _ => true | _ => false end.

(** Waiting tasks get the free slots in order; in a dead round they end at once. *)
Fixpoint take_slots (slots : nat) (dead : bool) (waiting running : list nat) (done : gmap nat task_outcome)
    : list nat * list nat * gmap nat task_outcome :=
  match waiting with
  | [] => ([], running, done)
  | i :: waiting' =>
      if (slots <=? length running)%nat then (waiting, running, done)
      else if dead then take_slots slots dead waiting' running (<[i := TaskSkipped]> done)
      else take_slots slots dead waiting' (running ++ [i]) done
  end.

(** [order] picks the running task that finishes next; each round finishes one, so
    the number of tasks is enough fuel. *)
Fixpoint gather_loop (fuel slots : nat) (grade : nat → task_outcome) (order : list nat) (dead : bool)
    (waiting running : list nat) (done : gmap nat task_outcome) : gmap nat task_outcome :=
  let '(waiting, running, done) := take_slots slots dead waiting running done in
  match fuel, running with
  | S fuel, first :: _ =>
      let k := (default 0 (head order) mod length running)%nat in
      let i := default first (running !! k) in
      let o := grade i in
      gather_loop fuel slots grade (tail order) (dead || is_fault o) waiting (delete k running)
        (<[i := o]> done)
  | _, _ => done
  end.

Definition gather (slots n : nat) (grade : nat → task_outcome) (order : list nat) : list task_outcome :=
  let done := gather_loop n slots grade order false (seq 0 n) [] ∅ in
  map (λ i, default TaskSkipped (done !! i)) (seq 0 n).

(** ** The round *)

Section round.
Context `{!UnicodeData, !Sha256, !Zstd, !Tar, !UrlParser, !V3Client, !V3Solver}.
Context (policy : RoundPolicy) (h : RoundHost) (lease : LeaseResponse) (offered : list (Z * pystr)).

(** The closure [finish]. *)
Definition finish (st : RoundState) (status : RoundStatus) (reason : pystr) (code : option RoundReason)
    (failure_stage : option Stage) : RoundResult :=
  let observed := by_uid (rs_evaluations st) in
  {| rr_status := status; rr_reason := reason;
     rr_evaluations := if bool_decide (status = completed) then observed else [];
     rr_retry_after_s := None; rr_reason_code := code;
     rr_stage := Some (default (rs_stage st) failure_stage);
     rr_challenge_id := Some (l_challenge_id lease); rr_task_id := Some (l_task_id lease);
     rr_assigned_miners := map registration_of (l_slot_pool lease);
     rr_diagnostic_evaluations := observed;
     rr_dispatch_failures :=
       sort_by registration_le
         (map (λ kv, (kv.1.1, kv.1.2, kv.2)) (map_to_list (rs_dispatch_failures st)));
     rr_checks_total := rs_checks_total st |}.

Definition abandon {A} (reason : string) (code : RoundReason) : round_m A :=
  return_with (λ st, finish st abandoned (ustr reason) (Some code) None).

(** [if cond: return finish("abandoned", ...)] *)
Definition abandon_if (cond : bool) (reason : string) (code : RoundReason) : round_m unit :=
  if cond then abandon reason code else mret ().

(** [lease.expires_at - time.time() < policy.min_lease_s] *)
Definition too_short (now : float) : bool :=
  fltb (fsub (float_of_int (l_expires_at lease)) now) (float_of_int (min_lease_s policy)).

Definition check_lease : round_m unit :=
  let pool : gset (Z * pystr) := list_to_set (map registration_of (l_slot_pool lease)) in
  let expected := Z.min (miners_per_task policy) (zlen offered) in
  abandon_if (negb (Z.of_nat (size pool) =? expected)
              || negb (bool_decide (pool = list_to_set (slice_to expected offered))))
    "lease pool is not the first miners the validator offered" SLOT_POOL_MISMATCH;;
  abandon_if (negb (l_commit_min lease =? commit_quorum policy))
    "lease quorum differs from release policy" LEASE_QUORUM_MISMATCH;;
  abandon_if (too_short (now_lease h))
    "lease leaves miners less time than release policy requires" LEASE_TOO_SHORT;;
  abandon_if (negb (bool_decide (execution_profile_id (l_identity lease) = policy_profile_id policy)))
    "unsupported execution profile" UNSUPPORTED_PROFILE;;
  abandon_if (negb (bool_decide (verifier_policy (l_identity lease) = policy_verifier_policy policy)))
    "unsupported verifier policy" UNSUPPORTED_VERIFIER_POLICY.

(** *** The workspace cache *)

Definition staging_prefix : pystr := ustr ".workspace-".

(** One entry of the cache directory that is not the target. *)
Definition evict_entry (entry : pystr * node) : result unit :=
  let '(name, n) := entry in
  if bool_decide (name = cached_workspace_dir (l_workspace lease)) then Ok ()
  else if is_dir n then remove_tree name (Some n) (remove h name)
  else if startswith staging_prefix name then unlink h name
  else Ok ().

(** What the eviction leaves. *)
Definition kept_entry (entry : pystr * node) : bool :=
  bool_decide (entry.1 = cached_workspace_dir (l_workspace lease))
  || negb (is_dir entry.2 || startswith staging_prefix entry.1).

Definition clean_up : round_m unit :=
  call (make_dirs h);;
  set_stage CLEANUP;;
  call (for_each (λ '(name, n),
    if startswith (ustr "hone-v3-round-") name && is_dir n then remove_tree name (Some n) (remove h name)
    else Ok ()) (work_entries h));;
  call (for_each evict_entry (map_to_list (cache_entries h))).

(** The cached workspace. *)
Definition prepare_workspace : round_m node :=
  let ref := l_workspace lease in
  set_stage WORKSPACE_MATERIALIZATION;;
  clean_up;;
  let cache := filter (λ kv, kept_entry kv = true) (cache_entries h) in
  set_stage WORKSPACE_MATERIALIZATION;;
  call (make_round_dir h);;
  set_stage WORKSPACE_DOWNLOAD;;
  archive ←
    (if path_exists (cache !! cached_workspace_dir ref) then mret None
     else
       abandon_if (free_workspace h <? ar_compressed_size ref + 2 * ar_expanded_size ref)
         "insufficient workspace storage" INSUFFICIENT_STORAGE;;
       content ← call (download_artifact (http_workspace h) (l_workspace_url lease) ref false
                         (workspace_archive policy) (artifact_origins policy));
       mret (Some content));
  set_stage WORKSPACE_EXTRACTION;;
  let outcome :=
    ensure_cached_workspace (host_umask h) true true cache archive ref (workspace_archive policy) in
  name ← call outcome.2;
  mret (default NOther (outcome.1 !! name)).

(** *** Dispatch *)

Definition task_request (slots : MinerSlotSet) : result MinerTaskRequest :=
  MinerTaskRequest_validate
    {| t_protocol_version := 3; t_challenge_id := l_challenge_id lease; t_task_id := l_task_id lease;
       t_identity := l_identity lease; t_workspace := l_workspace lease;
       t_workspace_url := l_workspace_url lease; t_expires_at := l_expires_at lease;
       t_slots := slots |}.

Definition not_served (registration : Z * pystr) (error : string) (reason : MinerReason)
    : round_m (MinerSubmission * option MinerTaskResponse) :=
  dispatch_failed registration reason;;
  s ← call (failed_submission (l_challenge_id lease) registration.1 registration.2 (ustr error));
  mret (s, None).

Definition dispatch (slots : MinerSlotSet) : round_m (MinerSubmission * option MinerTaskResponse) :=
  let registration := registration_of slots in
  if negb (bool_decide (registration ∈ serving)) then
    not_served registration "miner is not serving" NOT_SERVING
  else
    task ← call (task_request slots);
    match solve_v3 registration task with
    | Raise _ => not_served registration "miner dispatch failed" DISPATCH_FAILED
    | Ok (s, None) => dispatch_failed registration RESPONSE_UNAVAILABLE;; mret (s, None)
    | Ok (s, Some parsed) => mret (s, Some parsed)
    end.

Definition sender (s : MinerSubmission) : Z * pystr := (ms_uid s, ms_hotkey s).

(** Dicts keyed by registration: the last entry of a key wins. *)
Definition signed_of (dispatched : list (MinerSubmission * option MinerTaskResponse))
    : gmap (Z * pystr) MinerTaskResponse :=
  foldl (λ d sp, match sp.2 with Some parsed => <[sender sp.1 := parsed]> d | None => d end)
    ∅ dispatched.

Definition submissions_of (submissions : list MinerSubmission) : gmap (Z * pystr) MinerSubmission :=
  foldl (λ d s, <[sender s := s]> d) ∅ submissions.

(** The commit, after the miners were asked; what the grading needs of it. *)
Definition dispatch_and_commit
    : round_m (gmap (Z * pystr) MinerTaskResponse * list MinerSubmission * CommitRevealResponse) :=
  set_stage DISPATCH;;
  abandon_if (too_short (now_dispatch h))
    "lease leaves miners less time than release policy requires" LEASE_TOO_SHORT;;
  dispatched ← round_mapM dispatch (l_slot_pool lease);
  let submissions := map fst dispatched in
  let signed := signed_of dispatched in
  abandon_if (Z.of_nat (size signed) <? l_commit_min lease)
    "signed response quorum was not met" QUORUM_NOT_MET;;
  commit ← call (ChallengeCommitRequest_validate
    {| c_protocol_version := 3; c_challenge_id := l_challenge_id lease; c_submissions := submissions |});
  set_stage COMMIT;;
  revealed ← call (client_commit commit);
  match revealed with
  | None => abandon "commit or verifier reveal failed" COMMIT_FAILED
  | Some revealed =>
      (match validate_commit_reveal lease commit revealed with
       | Ok _ => mret ()
       | Raise e =>
           if is_value_error (exn_cls e) || bool_decide (exn_cls e = TypeError) then
             abandon "commit response did not match the lease" REVEAL_MISMATCH
           else call (Raise e)
       end);;
      now ← call (float_to_int (now_reveal h));
      abandon_if (v_grading_expires_at revealed <=? now) "grading window expired" GRADING_EXPIRED;;
      mret (signed, submissions, revealed)
  end.

(** *** The verifier *)

Definition manifest_type : TaskType :=
  if is_repository (l_identity lease) then repository_patch else terminal_script.

Definition fetch_verifier (revealed : CommitRevealResponse) : round_m (node * VerifierManifest) :=
  let ref := v_verifier revealed in
  set_stage VERIFIER_DOWNLOAD;;
  abandon_if (free_verifier h <? ar_compressed_size ref + 2 * ar_expanded_size ref
                + max_total_file_bytes (tree_policy policy) * grading_concurrency policy)
    "insufficient verifier storage" INSUFFICIENT_STORAGE;;
  content ← call (download_artifact (http_verifier h) (v_verifier_url revealed) ref false
                    (verifier_archive policy) (artifact_origins policy));
  set_stage VERIFIER_EXTRACTION;;
  let outcome := extract_archive (host_umask h) (Some content) ref None (verifier_archive policy) true in
  report ← call outcome.2;
  let verifier := default NOther outcome.1 in
  set_stage VERIFIER_MANIFEST;;
  manifest ← call (load_manifest verifier manifest_type);
  set_checks_total (zlen (manifest_checks manifest));;
  mret (verifier, manifest).

(** *** Judging *)

Definition failure_reason (r : FailureReason) : MinerReason :=
  match r with
  | slot_mismatch => SLOT_MISMATCH | artifact_invalid => ARTIFACT_INVALID
  | trajectory_invalid => TRAJECTORY_INVALID
  end.

(** [d[k]] *)
Definition dict_get {A} (d : gmap (Z * pystr) A) (k : Z * pystr) : result A :=
  match d !! k with Some a => Ok a | None => raise KeyError "" end.

Definition reject_failure (submissions : gmap (Z * pystr) MinerSubmission) (f : ArtifactFailure)
    : result MinerEvaluation :=
  s ← dict_get submissions (af_uid f, af_hotkey f);
  let reason := failure_reason (af_reason f) in
  ev ← mk_evaluation
    {| ev_status := eval_rejected; ev_reason := miner_reason_value reason; ev_checks := [];
       ev_script_exit_code := None; ev_reason_code := Some (miner_reason reason);
       ev_stage := Some COMMIT; ev_failed_check := None |};
  mret {| me_uid := af_uid f; me_hotkey := af_hotkey f; me_latency_ms := ms_latency_ms s;
          me_result := ev; me_grading_duration_ms := 0; me_trajectory := None |}.

Definition expected_format : GrantFormat :=
  if is_repository (l_identity lease) then grant_diff else grant_script.

Definition check_grant (signed : gmap (Z * pystr) MinerTaskResponse) (g : ArtifactGrant) : round_m unit :=
  abandon_if (negb (bool_decide (g_format g = expected_format)))
    "submission format did not match the task" SUBMISSION_FORMAT_MISMATCH;;
  abandon_if (negb (grant_matches_signed_response g (signed !! (g_uid g, g_hotkey g))))
    "submission grant did not match the signed response" SUBMISSION_GRANT_MISMATCH.

(** [groups.setdefault(grant.sha256, []).append(grant)] *)
Fixpoint add_to_group (groups : list (pystr * list ArtifactGrant)) (g : ArtifactGrant)
    : list (pystr * list ArtifactGrant) :=
  match groups with
  | [] => [(g_sha256 g, [g])]
  | (digest, gs) :: groups' =>
      if bool_decide (digest = g_sha256 g) then (digest, gs ++ [g]) :: groups'
      else (digest, gs) :: add_to_group groups' g
  end.

Definition group_grants (grants : list ArtifactGrant) : list (list ArtifactGrant) :=
  map snd (foldl add_to_group [] grants).

Section grading.
Context (signed : gmap (Z * pystr) MinerTaskResponse) (submissions : gmap (Z * pystr) MinerSubmission)
  (revealed : CommitRevealResponse) (cached verifier : node) (manifest : VerifierManifest)
  (challenge_tag : pystr).

Definition verdicts (grants : list ArtifactGrant) (r : EvaluationResult) (duration_ms : Z)
    : result (list MinerEvaluation) :=
  mapM (λ g,
    s ← dict_get submissions (g_uid g, g_hotkey g);
    response ← dict_get signed (g_uid g, g_hotkey g);
    mret {| me_uid := g_uid g; me_hotkey := g_hotkey g; me_latency_ms := ms_latency_ms s;
            me_result := r; me_grading_duration_ms := duration_ms;
            me_trajectory := Some (p_trajectory response) |}) grants.

(** [str(path)] below a host directory. *)
Definition below (dir name : pystr) : pystr := dir ++ [slash] ++ name.

(** The evaluation of one submission in its own copy of the workspace. *)
Definition evaluate (index : nat) (uid : Z) (workspace : node) (content : bytes)
    : result EvaluationResult :=
  let run_prefix := ustr "v3-" ++ challenge_tag ++ ustr "-" ++ str_of_int uid in
  let workspace_path := below (round_dir h) (ustr "miner-" ++ str_of_int uid) in
  let verifier_path := below (round_dir h) (ustr "verifier") in
  match l_identity lease with
  | RepositoryTask identity =>
      evaluate_repository (host_lstat h index) (host_run h index) workspace_path workspace_path
        verifier_path run_prefix verifier workspace content identity manifest (tree_policy policy)
        (patch_policy policy) (patch_file h index)
  | TerminalTask identity =>
      evaluate_terminal (host_lstat h index) (host_run h index) workspace_path
        (work_cwd workspace_path (t_result_tree_path identity)) verifier_path run_prefix verifier
        workspace content identity manifest (tree_policy policy) (script_policy policy)
        SCRIPT_TIMEOUT_S SCRIPT_OUTPUT_BYTES (script_dir h index)
  end.

(** The two [except Exception] clauses before the evaluation. *)
Definition fetch (index : nat) (g : ArtifactGrant) : bytes + task_fault :=
  match fetch_submission (http_submission h index) g false (submission_secured h index)
          (submission_limits policy) (artifact_origins policy) with
  | Ok f => inl (fetched_bytes f)
  | Raise _ => inr (FaultAbandon (ustr "submission download failed") SUBMISSION_DOWNLOAD_FAILED
                      (Some SUBMISSION_DOWNLOAD) [])
  end.

Definition materialize (index : nat) : node + task_fault :=
  match materialize_workspace (host_superuser h) (copy_fault h index) (Some cached) true None with
  | Ok w => inl w
  | Raise e =>
      inr (FaultAbandon
             (ustr "validator failed during workspace materialization (" ++ exn_name e ++ ustr ")")
             WORKSPACE_MATERIALIZATION_FAILED (Some WORKSPACE_MATERIALIZATION) [])
  end.

(** The evaluation with its [finally] clause, and the last test. *)
Definition judge (index : nat) (grants : list ArtifactGrant) (uid : Z) (workspace : node)
    (content : bytes) : list MinerEvaluation + task_fault :=
  let graded :=
    r ← evaluate index uid workspace content;
    ms ← verdicts grants r (Z.min (2 ^ 53 - 1) (grade_ms h index));
    mret (r, ms) in
  match remove_tree (ustr "miner-" ++ str_of_int uid) (Some workspace) (remove_workspace h index) with
  | Raise e =>
      inr (FaultAbandon (ustr "validator failed during cleanup (" ++ exn_name e ++ ustr ")")
             CLEANUP_FAILED (Some CLEANUP)
             (match graded with Ok (_, ms) => ms | Raise _ => [] end))
  | Ok _ =>
      match graded with
      | Raise e => inr (FaultCrash e)
      | Ok (r, ms) =>
          if bool_decide (ev_status r = eval_abandoned) then
            inr (FaultAbandon (ev_reason r)
                   (match ev_reason_code r with Some (round_reason c) => c | _ => VALIDATOR_ERROR end)
                   (ev_stage r) ms)
          else inl ms
      end
  end.

Definition grade_once (index : nat) (grants : list ArtifactGrant) : list MinerEvaluation + task_fault :=
  match grants with
  | [] => inr (FaultCrash (Exn OtherError (ustr "IndexError")))
  | g :: _ =>
      match fetch index g with
      | inr f => inr f
      | inl content =>
          match float_to_int (now_grade h index) with
          | Raise e => inr (FaultCrash e)
          | Ok now =>
              if v_grading_expires_at revealed <=? now then
                inr (FaultAbandon (ustr "grading window expired") GRADING_EXPIRED
                       (Some WORKSPACE_MATERIALIZATION) [])
              else if free_grade h index <? max_total_file_bytes (tree_policy policy) then
                inr (FaultAbandon (ustr "insufficient grading storage") INSUFFICIENT_STORAGE
                       (Some WORKSPACE_MATERIALIZATION) [])
              else
                match materialize index with
                | inr f => inr f
                | inl workspace => judge index grants (g_uid g) workspace content
                end
          end
      end
  end.

Definition grade (groups : list (list ArtifactGrant)) (index : nat) : task_outcome :=
  match grade_once index (default [] (groups !! index)) with
  | inl ms => TaskGraded ms
  | inr f => TaskFault f
  end.
End grading.

(** The evaluations the outcomes carry, and the first fault in grant order. *)
Definition observed_of (outcomes : list task_outcome) : list MinerEvaluation :=
  concat (map (λ o, match o with
                    | TaskGraded ms | TaskFault (FaultAbandon _ _ _ ms) => ms
                    | TaskSkipped | TaskFault (FaultCrash _) => []
                    end) outcomes).

Definition first_fault (outcomes : list task_outcome) : option task_fault :=
  head (omap (λ o, match o with TaskFault f => Some f | _ => None end) outcomes).

Definition settle (outcomes : list task_outcome) : round_m unit :=
  add_evaluations (observed_of outcomes);;
  match first_fault outcomes with
  | None => mret ()
  | Some (FaultCrash e) => call (Raise e)
  | Some (FaultAbandon reason code stage _) =>
      return_with (λ st, finish st abandoned reason (Some code) stage)
  end.

Definition grade_all (signed : gmap (Z * pystr) MinerTaskResponse) (submissions : list MinerSubmission)
    (revealed : CommitRevealResponse) (cached verifier : node) (manifest : VerifierManifest)
    : round_m unit :=
  let by_registration := submissions_of submissions in
  rejected ← call (mapM (reject_failure by_registration) (v_artifact_failures revealed));
  add_evaluations rejected;;
  set_stage COMMIT;;
  _ ← round_mapM (check_grant signed) (v_submission_grants revealed);
  raw ← call (utf8_encode (l_challenge_id lease));
  let challenge_tag := slice_to 12 (hexdigest (sha256 raw)) in
  let groups := group_grants (v_submission_grants revealed) in
  set_stage GRADING;;
  settle (gather (Z.to_nat (grading_concurrency policy)) (length groups)
            (grade signed by_registration revealed cached verifier manifest challenge_tag groups)
            (finish_order h)).

(** The diagnostic feedback: the evaluations sorted by UID are sent. *)
Definition send_feedback (revealed : CommitRevealResponse) : round_m unit := λ st,
  (Next (),
   {| rs_stage := rs_stage st; rs_evaluations := by_uid (rs_evaluations st);
      rs_dispatch_failures := rs_dispatch_failures st; rs_checks_total := rs_checks_total st;
      rs_feedback_accepted :=
        Some (send_diagnostic_feedback client_feedback (l_challenge_id lease) (l_task_id lease)
                (v_submission_grants revealed) (by_uid (rs_evaluations st))) |}).

Definition round_body : round_m RoundResult :=
  check_lease;;
  cached ← prepare_workspace;
  '(signed, submissions, revealed) ← dispatch_and_commit;
  '(verifier, manifest) ← fetch_verifier revealed;
  grade_all signed submissions revealed cached verifier manifest;;
  set_stage GRADING;;
  send_feedback revealed;;
  return_with (λ st, finish st completed [] None None).

(** The reason code of an exception, by stage. *)
Definition stage_reason (s : Stage) : RoundReason :=
  match s with
  | WORKSPACE_DOWNLOAD => WORKSPACE_DOWNLOAD_FAILED
  | WORKSPACE_EXTRACTION => WORKSPACE_EXTRACTION_FAILED
  | WORKSPACE_MATERIALIZATION => WORKSPACE_MATERIALIZATION_FAILED
  | VERIFIER_DOWNLOAD => VERIFIER_DOWNLOAD_FAILED
  | VERIFIER_EXTRACTION | VERIFIER_MANIFEST => VERIFIER_INVALID
  | CLEANUP => CLEANUP_FAILED
  | _ => VALIDATOR_ERROR
  end.

Definition initial_state : RoundState :=
  {| rs_stage := LEASE; rs_evaluations := []; rs_dispatch_failures := ∅; rs_checks_total := None;
     rs_feedback_accepted := None |}.

(** The [try] block with its [except Exception]. *)
Definition run_round : RoundResult :=
  match round_body initial_state with
  | (Next r, _) | (Return r, _) => r
  | (Throw e, st) =>
      finish st abandoned
        (ustr "validator failed during " ++ stage_text (rs_stage st) ++ ustr " (" ++ exn_name e ++ ustr ")")
        (Some (stage_reason (rs_stage st))) None
  end.
End round.

Definition unavailable_result (reason : pystr) (retry_after_s : option Z) : RoundResult :=
  {| rr_status := unavailable; rr_reason := reason; rr_evaluations := [];
     rr_retry_after_s := retry_after_s; rr_reason_code := Some LEASE_UNAVAILABLE;
     rr_stage := Some LEASE; rr_challenge_id := None; rr_task_id := None; rr_assigned_miners := [];
     rr_diagnostic_evaluations := []; rr_dispatch_failures := []; rr_checks_total := None |}.

Definition evaluate_round
    `{!UnicodeData, !Sha256, !Zstd, !Tar, !UrlParser, !V3Client, !V3Solver}
    (policy : RoundPolicy) (h : RoundHost) (offered : list (Z * pystr)) : result RoundResult :=
  if bool_decide (offered = []) then
    mret (unavailable_result (ustr "no eligible miners to offer") None)
  else
    outcome ← client_lease offered (miners_per_task policy);
    match lo_challenge outcome with
    | None =>
        let reason := if bool_decide (lo_detail outcome = []) then category_value (lo_category outcome)
                      else lo_detail outcome in
        mret (unavailable_result (slice_to 200 reason) (lo_retry_after_s outcome))
    | Some lease => mret (run_round policy h lease offered)
    end.
