(* ===== verification/EvaluateRoundSpec.v ===== *)
(** * What a round guarantees

    [gather_spec] describes every schedule of the gradings.  [completed_judges_all]:
    a completed round has exactly one verdict for each of the first miners offered.
    [passed_was_graded]: behind a pass is one chain of evidence, [earned_by], from the
    lease to the last check of the hidden suite.  [order_irrelevant]: two schedules of a
    completed round give the same verdicts, or one of them abandons it. *)

From S2P Require Import Prelude PyFloat Text Json JsonSpec Canonical CanonicalSpec Wire Identity Api ApiSpec ProblemClient FileSystem Archive ArchiveSpec Workspace Download Supervisor Manifest Feedback Patch Grading GradingSpec EvalEngine EvalEngineSpec Round EvaluateRound.

Local Open Scope Z_scope.

(** ** Schedules *)

Section gather.
Context (slots n : nat) (grade : nat → task_outcome).
Implicit Types (waiting running : list nat) (done : gmap nat task_outcome) (dead : bool).

Record sound dead waiting running done : Prop := {
  sound_distinct : NoDup (waiting ++ running);
  sound_open : ∀ j, j ∈ waiting ++ running → done !! j = None ∧ (j < n)%nat;
  sound_all : ∀ j, (j < n)%nat → j ∈ waiting ++ running ∨ is_Some (done !! j);
  sound_done : ∀ j o, done !! j = Some o →
    (o = grade j ∧ (is_fault o = true → dead = true)) ∨ (o = TaskSkipped ∧ dead = true);
  sound_dead : dead = true → ∃ j o, done !! j = Some o ∧ is_fault o = true ∧ (j < n)%nat
}.

Lemma take_slots_sound dead waiting running done waiting' running' done' :
  sound dead waiting running done →
  take_slots slots dead waiting running done = (waiting', running', done') →
  sound dead waiting' running' done' ∧ (waiting' = [] ∨ (slots <= length running')%nat) ∧
  (length waiting' + length running' <= length waiting + length running)%nat.
Proof.
  revert running done. induction waiting as [|i waiting IH]; intros running done Hs; cbn [take_slots].
  { intros [= <- <- <-]. auto. }
  destruct (slots <=? length running)%nat eqn:Hfull.
  { intros [= <- <- <-]. apply Nat.leb_le in Hfull. auto. }
  destruct Hs as [Hnd Hopen Hall Hdone Hdead]. simpl in Hnd. apply NoDup_cons in Hnd as [Hi Hnd].
  assert (Hnone : done !! i = None ∧ (i < n)%nat) by (apply Hopen; by left).
  destruct dead.
  - intros H1. apply IH in H1 as (? & ? & Hlen); [split_and!; [done|done|simpl; lia]|]. split.
    + done.
    + intros j Hj. destruct (Hopen j) as [Hjn ?]; [by right|]. split; [|done].
      rewrite lookup_insert_ne; [done|]. intros ->. done.
    + intros j Hj. destruct (decide (j = i)) as [->|Hne].
      * right. by rewrite lookup_insert_eq.
      * destruct (Hall j Hj) as [[->|?]%elem_of_cons|?]; [done|by left|right].
        by rewrite lookup_insert_ne.
    + intros j o. destruct (decide (j = i)) as [->|Hne].
      * rewrite lookup_insert_eq. intros [= <-]. by right.
      * rewrite lookup_insert_ne by done. apply Hdone.
    + intros _. destruct (Hdead eq_refl) as (j & o & Hj & Hf & ?). exists j, o. split_and!; try done.
      rewrite lookup_insert_ne; [done|]. intros ->. destruct Hnone. congruence.
  - assert (Hperm : waiting ++ running ++ [i] ≡ₚ i :: waiting ++ running).
    { rewrite (assoc_L (++)). symmetry. apply Permutation_cons_append. }
    intros H1. apply IH in H1 as (? & ? & Hlen); [split_and!; [done|done|]|].
    { rewrite length_app in Hlen. simpl in *. lia. }
    split; try done.
    + rewrite Hperm. by constructor.
    + intros j. rewrite Hperm. apply Hopen.
    + intros j Hj. rewrite Hperm. by apply Hall.
Qed.

Lemma finish_sound dead waiting running done (i : nat) (k : nat) :
  sound dead waiting running done → running !! k = Some i →
  sound (dead || is_fault (grade i)) waiting (delete k running) (<[i := grade i]> done).
Proof.
  intros [Hnd Hopen Hall Hdone Hdead] Hk.
  assert (Hperm : waiting ++ running ≡ₚ i :: waiting ++ delete k running).
  { rewrite (delete_Permutation running k i Hk) at 1. symmetry. apply Permutation_middle. }
  rewrite Hperm in Hnd. apply NoDup_cons in Hnd as [Hi Hnd].
  assert (Hnone : done !! i = None ∧ (i < n)%nat) by (apply Hopen; rewrite Hperm; by left).
  split.
  - done.
  - intros j Hj. destruct (Hopen j) as [Hjn ?]; [rewrite Hperm; by right|]. split; [|done].
    rewrite lookup_insert_ne; [done|]. intros ->. done.
  - intros j Hj. destruct (decide (j = i)) as [->|Hne]; [right; by rewrite lookup_insert_eq|].
    destruct (Hall j Hj) as [Hin|?]; [left|right; by rewrite lookup_insert_ne].
    rewrite Hperm in Hin. by apply elem_of_cons in Hin as [?|?].
  - intros j o. destruct (decide (j = i)) as [->|Hne].
    + rewrite lookup_insert_eq. intros [= <-]. left. split; [done|]. intros ->. apply orb_true_r.
    + rewrite lookup_insert_ne by done. intros [[-> Hf]|[-> ->]]%Hdone; [left|by right].
      split; [done|]. intros Hx. by rewrite Hf.
  - destruct dead.
    + intros _. destruct (Hdead eq_refl) as (j & o & Hj & Hf & ?). exists j, o. split_and!; try done.
      rewrite lookup_insert_ne; [done|]. intros ->. destruct Hnone. congruence.
    + simpl. intros Hf. exists i, (grade i). rewrite lookup_insert_eq. by destruct Hnone.
Qed.

Lemma gather_loop_sound (fuel : nat) (order : list nat) dead waiting running done :
  (0 < slots)%nat → (length waiting + length running <= fuel)%nat →
  sound dead waiting running done →
  ∃ dead', sound dead' [] [] (gather_loop fuel slots grade order dead waiting running done).
Proof.
  intros Hslots. revert order dead waiting running done.
  induction fuel as [|fuel IH]; intros order dead waiting running done Hlen Hs; cbn [gather_loop];
    destruct (take_slots slots dead waiting running done) as [[w r] d] eqn:Ha;
    apply (take_slots_sound _ _ _ _ _ _ _ Hs) in Ha as (Hs' & Hfull & Hle).
  - exists dead. assert (w = [] ∧ r = []) as [-> ->]; [|done].
    split; apply length_zero_iff_nil; lia.
  - destruct r as [|first r].
    { exists dead. destruct Hfull as [->|Hx]; [done|simpl in Hx; lia]. }
    set (k := (default 0 (head order) mod length (first :: r))%nat).
    assert (Hk : (k < length (first :: r))%nat) by (apply Nat.mod_upper_bound; simpl; lia).
    destruct (lookup_lt_is_Some_2 _ _ Hk) as [i Hi]. rewrite Hi. cbn [default].
    apply IH; [|by apply finish_sound]. rewrite length_delete by (by eexists). simpl in *. lia.
Qed.

(** Under every schedule either some grading reports a fault, or every one of them
    ran and none did; a grading that ran reports its own outcome. *)
Lemma gather_spec (order : list nat) :
  (0 < slots)%nat →
  let outcomes := gather slots n grade order in
  (∃ o, o ∈ outcomes ∧ is_fault o = true ∧ ∃ j, (j < n)%nat ∧ o = grade j) ∨
  (outcomes = map grade (seq 0 n) ∧ Forall (λ o, is_fault o = false) outcomes).
Proof.
  intros Hslots. unfold gather.
  destruct (gather_loop_sound n order false (seq 0 n) [] ∅ Hslots) as [dead Hs].
  { rewrite length_seq. simpl. lia. }
  { split; rewrite ?app_nil_r.
    - apply NoDup_seq.
    - intros j Hj%elem_of_seq. split; [apply lookup_empty|lia].
    - intros j Hj. left. apply elem_of_seq. lia.
    - intros j o. by rewrite lookup_empty.
    - done. }
  set (done := gather_loop _ _ _ _ _ _ _ _) in *. destruct Hs as [_ _ Hall Hdone Hdead].
  assert (Hget : ∀ j, (j < n)%nat → ∃ o, done !! j = Some o).
  { intros j Hj. destruct (Hall j Hj) as [Hx|?]; [by apply not_elem_of_nil in Hx|done]. }
  assert (Hin : ∀ j o, (j < n)%nat → done !! j = Some o →
    o ∈ map (λ i, default TaskSkipped (done !! i)) (seq 0 n)).
  { intros j o Hj Ho. apply list_elem_of_fmap. exists j. rewrite Ho. split; [done|].
    apply elem_of_seq. lia. }
  destruct dead.
  - left. destruct (Hdead eq_refl) as (j & o & Ho & Hf & Hj). exists o. split_and!; [by eapply Hin|done|].
    exists j. split; [done|]. destruct (Hdone j o Ho) as [[? _]|[-> _]]; done.
  - right. assert (Heq : map (λ i, default TaskSkipped (done !! i)) (seq 0 n) = map grade (seq 0 n)).
    { apply map_ext_in. intros j Hj%in_seq. destruct (Hget j) as [o Ho]; [lia|]. rewrite Ho. simpl.
      destruct (Hdone j o Ho) as [[? _]|[_ ?]]; done. }
    split; [done|]. rewrite Heq. apply Forall_fmap, Forall_forall. intros j Hj%elem_of_seq.
    destruct (Hget j) as [o Ho]; [lia|]. destruct (Hdone j o Ho) as [[-> Hf]|[_ ?]]; [|done].
    simpl. destruct (is_fault (grade j)); [|done]. by discriminate Hf.
Qed.
End gather.

(** ** Steps that neither complete the round nor judge a miner *)

(** A round that was abandoned: nobody is judged, and the reason is known. *)
Definition faulted (r : RoundResult) : Prop :=
  rr_status r = abandoned ∧ rr_evaluations r = [] ∧ is_Some (rr_reason_code r) ∧ is_Some (rr_stage r).

Definition quiet {A} (m : round_m A) : Prop :=
  ∀ st o st', m st = (o, st') →
    rs_evaluations st' = rs_evaluations st ∧ ∀ r, o = Return r → faulted r.

Create HintDb quiet.

Section quiet.
Context {A B : Type}.

Lemma quiet_ret (x : A) : quiet (mret x).
Proof. by intros st o st' [= <- <-]. Qed.

Lemma quiet_call (m : result A) : quiet (call m).
Proof. by intros st o st' [= <- <-]; destruct m. Qed.

Lemma quiet_bind (m : round_m A) (f : A → round_m B) :
  quiet m → (∀ x, quiet (f x)) → quiet (m ≫= f).
Proof.
  intros Hm Hf st o st'. unfold mbind, round_bind. destruct (m st) as [[x|r|e] st1] eqn:Hst;
    apply Hm in Hst as [He Hr].
  - intros [He' Hr']%Hf. rewrite He', He. done.
  - intros [= <- <-]. split; [done|]. intros r' [= <-]. by apply Hr.
  - by intros [= <- <-].
Qed.

Lemma quiet_mapM (f : A → round_m B) (l : list A) : (∀ x, quiet (f x)) → quiet (round_mapM f l).
Proof.
  intros Hf. induction l as [|x l IH]; simpl; [by intros st o st' [= <- <-]|].
  intros st o st'. unfold mbind, round_bind. destruct (f x st) as [[y|r|e] st1] eqn:Hst;
    apply Hf in Hst as [He Hr].
  - destruct (round_mapM f l st1) as [[ys|r|e] st2] eqn:Hst2; apply IH in Hst2 as [He2 Hr2];
      intros [= <- <-]; rewrite He2, He; done.
  - intros [= <- <-]. split; [done|]. intros r' [= <-]. by apply Hr.
  - by intros [= <- <-].
Qed.

(** A step before a completed end. *)
Lemma quiet_then (m : round_m A) (f : A → round_m B) (st st' : RoundState) (r : RoundResult) :
  quiet m → (m ≫= f) st = (Return r, st') → rr_status r = completed →
  ∃ x st1, m st = (Next x, st1) ∧ rs_evaluations st1 = rs_evaluations st ∧ f x st1 = (Return r, st').
Proof.
  intros Hm. unfold mbind, round_bind. destruct (m st) as [[x|r'|e] st1] eqn:Hst;
    pose proof (Hm _ _ _ Hst) as [He Hr].
  - intros H1 _. by exists x, st1.
  - intros [= -> ->] Hc. destruct (Hr r eq_refl) as [Hx _]. congruence.
  - done.
Qed.
End quiet.

Lemma quiet_stage (s : Stage) : quiet (set_stage s).
Proof. by intros st o st' [= <- <-]. Qed.

Lemma quiet_total (n : Z) : quiet (set_checks_total n).
Proof. by intros st o st' [= <- <-]. Qed.

Lemma quiet_failed (registration : Z * pystr) (reason : MinerReason) :
  quiet (dispatch_failed registration reason).
Proof. by intros st o st' [= <- <-]. Qed.

#[export] Hint Resolve quiet_ret quiet_call quiet_stage quiet_total quiet_failed quiet_mapM : quiet.

Ltac quiet_tac :=
  repeat match goal with
  | |- quiet (_ ≫= _) => apply quiet_bind; [|intros ?]
  | |- quiet (round_mapM _ _) => apply quiet_mapM; intros ?
  | |- quiet (match ?x with _ => _ end) => destruct x
  | |- quiet (let '_ := ?x in _) => destruct x
  end; auto with quiet.

Section body.
Context `{UD : !UnicodeData, SH : !Sha256, ZS : !Zstd, TR : !Tar, UP : !UrlParser, VC : !V3Client,
  VS : !V3Solver}.
Context (policy : RoundPolicy) (h : RoundHost) (lease : LeaseResponse) (offered : list (Z * pystr)).

Lemma quiet_abandon {A} (reason : string) (code : RoundReason) : quiet (abandon (A := A) lease reason code).
Proof. intros st o st' [= <- <-]. split; [done|]. intros r [= <-]. by repeat split; eexists. Qed.

Lemma quiet_abandon_if (cond : bool) (reason : string) (code : RoundReason) :
  quiet (abandon_if lease cond reason code).
Proof. unfold abandon_if. destruct cond; [apply quiet_abandon|apply quiet_ret]. Qed.

Hint Resolve quiet_abandon quiet_abandon_if : quiet.

Lemma quiet_check_lease : quiet (check_lease policy h lease offered).
Proof. unfold check_lease. quiet_tac. Qed.

Lemma quiet_prepare : quiet (prepare_workspace policy h lease).
Proof. unfold prepare_workspace, clean_up. cbv zeta. quiet_tac. Qed.

Lemma quiet_dispatch (slots : MinerSlotSet) : quiet (dispatch lease slots).
Proof. unfold dispatch, not_served. cbv zeta. quiet_tac. Qed.

Lemma quiet_commit : quiet (dispatch_and_commit policy h lease).
Proof.
  unfold dispatch_and_commit. cbv zeta. quiet_tac. apply quiet_dispatch.
Qed.

Lemma quiet_verifier (revealed : CommitRevealResponse) : quiet (fetch_verifier policy h lease revealed).
Proof. unfold fetch_verifier. cbv zeta. quiet_tac. Qed.

Lemma quiet_check_grant (signed : gmap (Z * pystr) MinerTaskResponse) (g : ArtifactGrant) :
  quiet (check_grant lease signed g).
Proof. unfold check_grant. quiet_tac. Qed.

(** *** What each step establishes when the round goes on *)

Lemma call_Next {A} (m : result A) (st st' : RoundState) (x : A) :
  call m st = (Next x, st') → m = Ok x ∧ st' = st.
Proof. unfold call. destruct m; [|done]. by intros [= -> ->]. Qed.

Lemma abandon_if_Next (cond : bool) (reason : string) (code : RoundReason) (st st' : RoundState) (x : unit) :
  abandon_if lease cond reason code st = (Next x, st') → cond = false.
Proof. unfold abandon_if. by destruct cond. Qed.

Lemma bind_Next {A B} (m : round_m A) (f : A → round_m B) (st st' : RoundState) (y : B) :
  (m ≫= f) st = (Next y, st') ↔ ∃ x st1, m st = (Next x, st1) ∧ f x st1 = (Next y, st').
Proof.
  unfold mbind, round_bind. destruct (m st) as [[x|r|e] st1]; split; try done.
  - intros H1. by exists x, st1.
  - by intros (x' & st1' & [= <- <-] & H1).
  - by intros (x' & st1' & ? & ?).
  - by intros (x' & st1' & ? & ?).
Qed.

Lemma mapM_Next {A B} (f : A → round_m B) (l : list A) (ys : list B) (st st' : RoundState) :
  round_mapM f l st = (Next ys, st') →
  Forall2 (λ x y, ∃ s s', f x s = (Next y, s')) l ys.
Proof.
  revert ys st st'. induction l as [|x l IH]; intros ys st st'; cbn [round_mapM].
  - intros [= <- _]. constructor.
  - intros (y & st1 & Hy & H1)%bind_Next. apply bind_Next in H1 as (zs & st2 & Hz & [= <- _]).
    constructor; [by exists st, st1|]. by eapply IH.
Qed.

(** The pool is the first miners offered, without repetition. *)
Definition first_offered : list (Z * pystr) :=
  slice_to (Z.min (miners_per_task policy) (zlen offered)) offered.

Lemma check_lease_Next (st st' : RoundState) (x : unit) :
  check_lease policy h lease offered st = (Next x, st') →
  0 <= miners_per_task policy →
  NoDup first_offered ∧
  (∀ reg, reg ∈ map registration_of (l_slot_pool lease) ↔ reg ∈ first_offered) ∧
  l_commit_min lease = commit_quorum policy.
Proof.
  unfold check_lease. intros (u & st1 & Hpool%abandon_if_Next & H1)%bind_Next Hmin.
  apply bind_Next in H1 as (u' & st2 & Hq%abandon_if_Next & _).
  apply orb_false_iff in Hpool as [Hsize Hset]. bool_simpl. split; [|split; [|done]].
  - assert (Hlen : length first_offered = size (list_to_set (C := gset (Z * pystr)) first_offered)).
    { unfold first_offered. rewrite <-Hset. apply Nat2Z.inj. rewrite Hsize.
      pose proof (slice_to_length (Z.min (miners_per_task policy) (zlen offered)) offered) as Hl.
      unfold zlen in *. rewrite Hl; lia. }
    apply has_duplicates_false. unfold has_duplicates. by rewrite negb_false_iff, Nat.eqb_eq.
  - intros reg. unfold first_offered. rewrite <-!(elem_of_list_to_set (C := gset (Z * pystr))).
    by rewrite Hset.
Qed.

(** *** Dispatch and commit *)

Lemma failed_submission_sender (reg : Z * pystr) (error : pystr) (s : MinerSubmission) :
  failed_submission (l_challenge_id lease) reg.1 reg.2 error = Ok s → sender s = reg.
Proof.
  unfold failed_submission. intros (q & _ & H1)%bind_Ok.
  apply (proj1 (model_validate_Ok _ _ _ _)) in H1 as (_ & _ & ->). by destruct reg.
Qed.

(** An answer of the miner, or the record of its failure. *)
Definition dispatched_as (slots : MinerSlotSet) (y : MinerSubmission * option MinerTaskResponse) : Prop :=
  match y.2 with
  | Some parsed => ∃ task, task_request lease slots = Ok task ∧
      solve_v3 (registration_of slots) task = Ok (y.1, Some parsed)
  | None => True
  end ∧
  (sender y.1 = registration_of slots ∨
   ∃ task parsed, solve_v3 (registration_of slots) task = Ok (y.1, parsed)).

Lemma dispatch_Next (slots : MinerSlotSet) (y : MinerSubmission * option MinerTaskResponse)
    (st st' : RoundState) :
  dispatch lease slots st = (Next y, st') → dispatched_as slots y.
Proof.
  assert (Hns : ∀ (error : string) (reason : MinerReason) s s',
    not_served lease (registration_of slots) error reason s = (Next y, s') → dispatched_as slots y).
  { intros error reason s s'. unfold not_served.
    intros (u & s1 & _ & H1)%bind_Next. apply bind_Next in H1 as (sub & s2 & Hs & [= <- _]).
    apply call_Next in Hs as [Hs _]. apply failed_submission_sender in Hs. by split; [|left]. }
  unfold dispatch. destruct (negb _); [apply Hns|].
  intros (task & s1 & [Htask _]%call_Next & H1)%bind_Next.
  destruct (solve_v3 _ task) as [[s [parsed|]]|e] eqn:Hsolve.
  - injection H1 as <- _. split; [by exists task|]. right. by eauto.
  - apply bind_Next in H1 as (u & s2 & _ & [= <- _]). split; [done|]. right. by eauto.
  - by apply Hns in H1.
Qed.

Lemma commit_Next (st st' : RoundState) (signed : gmap (Z * pystr) MinerTaskResponse)
    (submissions : list MinerSubmission) (revealed : CommitRevealResponse) :
  dispatch_and_commit policy h lease st = (Next (signed, submissions, revealed), st') →
  ∃ dispatched commit,
    Forall2 dispatched_as (l_slot_pool lease) dispatched ∧ submissions = map fst dispatched ∧
    signed = signed_of dispatched ∧ l_commit_min lease <= Z.of_nat (size signed) ∧
    (c_challenge_id commit = l_challenge_id lease ∧ c_submissions commit = submissions) ∧
    client_commit commit = Ok (Some revealed) ∧
    validate_commit_reveal lease commit revealed = Ok ().
Proof.
  unfold dispatch_and_commit. intros (u & s1 & _ & H1)%bind_Next.
  apply bind_Next in H1 as (u2 & s2 & _ & H1). apply bind_Next in H1 as (dispatched & s3 & Hd & H1).
  apply bind_Next in H1 as (u4 & s4 & Hq%abandon_if_Next & H1). apply Z.ltb_ge in Hq.
  apply bind_Next in H1 as (commit & s5 & [Hc _]%call_Next & H1).
  apply bind_Next in H1 as (u6 & s6 & _ & H1).
  apply bind_Next in H1 as (rev & s7 & [Hrev _]%call_Next & H1).
  destruct rev as [rev|]; [|done].
  apply bind_Next in H1 as (u8 & s8 & Hv & H1).
  apply bind_Next in H1 as (now & s9 & _ & H1). apply bind_Next in H1 as (u10 & s10 & _ & [= <- <- <- _]).
  apply (proj1 (model_validate_Ok _ _ _ _)) in Hc as (_ & _ & Hc).
  exists dispatched, commit. rewrite Hc in *. split_and!; try done.
  - eapply Forall2_impl; [by eapply mapM_Next|]. intros slots y (s & s' & Hy). by eapply dispatch_Next.
  - destruct (validate_commit_reveal lease _ rev) as [[]|e]; [done|]. by destruct (_ || _) in Hv.
Qed.

(** *** Workspace and verifier *)

(** The cached tree: what the cache has under the digest of the lease's workspace, after the
    clean-up, downloaded and extracted where it was not there before. *)
Definition workspace_cached (cached : node) : Prop :=
  ∃ archive name,
    (∀ content, archive = Some content →
       download_artifact (http_workspace h) (l_workspace_url lease) (l_workspace lease) false
         (workspace_archive policy) (artifact_origins policy) = Ok content) ∧
    let outcome := ensure_cached_workspace (host_umask h) true true
      (filter (λ kv, kept_entry lease kv = true) (cache_entries h)) archive (l_workspace lease) (workspace_archive policy) in
    outcome.2 = Ok name ∧ cached = default NOther (outcome.1 !! name).

(** The verifier: what the archive of the reveal extracts to, with its manifest. *)
Definition verifier_fetched (revealed : CommitRevealResponse) (verifier : node) (manifest : VerifierManifest) : Prop :=
  ∃ content report,
    download_artifact (http_verifier h) (v_verifier_url revealed) (v_verifier revealed) false
      (verifier_archive policy) (artifact_origins policy) = Ok content ∧
    extract_archive (host_umask h) (Some content) (v_verifier revealed) None (verifier_archive policy) true
      = (Some verifier, Ok report) ∧
    load_manifest verifier (manifest_type lease) = Ok manifest.

Lemma prepare_Next (st st' : RoundState) (cached : node) :
  prepare_workspace policy h lease st = (Next cached, st') → workspace_cached cached.
Proof.
  unfold prepare_workspace. cbv zeta. do 5 (intros (? & ? & _ & H1)%bind_Next; revert H1).
  intros (archive & s1 & Ha & H1)%bind_Next. apply bind_Next in H1 as (u & s2 & _ & H1).
  apply bind_Next in H1 as (name & s3 & [Hname _]%call_Next & [= <- _]). exists archive, name.
  split; [|done]. intros content ->. destruct (path_exists _); [done|].
  apply bind_Next in Ha as (u' & s4 & _ & Ha). apply bind_Next in Ha as (c & s5 & [Hc _]%call_Next & [= <- _]). exact Hc.
Qed.

Lemma extract_archive_left (umask : Z) (content : option bytes) (ref : ArtifactRef) (limits : ArchiveLimits)
    (scratch : bool) (report : ExtractionReport) :
  (extract_archive umask content ref None limits scratch).2 = Ok report →
  ∃ tree, extract_archive umask content ref None limits scratch = (Some tree, Ok report).
Proof.
  unfold extract_archive. destruct (_ ≫= _) as [[[expanded members] size]|e]; [|done].
  destruct (as_archive_error _ _ (extract_members _ _ _)) as [tree|e]; [|done]. cbn [snd]. intros ->. by exists tree.
Qed.

Lemma verifier_Next (revealed : CommitRevealResponse) (verifier : node) (manifest : VerifierManifest) (st st' : RoundState) :
  fetch_verifier policy h lease revealed st = (Next (verifier, manifest), st') → verifier_fetched revealed verifier manifest.
Proof.
  unfold fetch_verifier. cbv zeta. do 2 (intros (? & ? & _ & H1)%bind_Next; revert H1).
  intros (content & s1 & [Hc _]%call_Next & H1)%bind_Next. apply bind_Next in H1 as (u & s2 & _ & H1).
  apply bind_Next in H1 as (report & s3 & [Hx _]%call_Next & H1). apply bind_Next in H1 as (u' & s4 & _ & H1).
  apply bind_Next in H1 as (m & s5 & [Hm _]%call_Next & H1). apply bind_Next in H1 as (u6 & s6 & _ & H1).
  apply extract_archive_left in Hx as [tree Hx]. rewrite Hx in Hm, H1. cbn [fst] in Hm, H1. injection H1 as <- <- _.
  by exists content, report.
Qed.

(** *** Grading *)

Lemma first_fault_None (outcomes : list task_outcome) :
  first_fault outcomes = None → Forall (λ o, is_fault o = false) outcomes.
Proof.
  unfold first_fault. induction outcomes as [|o outcomes IH]; [by constructor|].
  simpl. destruct o; simpl; try done; (intros; constructor; [done|by apply IH]).
Qed.

Lemma add_to_group_perm (groups : list (pystr * list ArtifactGrant)) (g : ArtifactGrant) :
  concat (map snd (add_to_group groups g)) ≡ₚ g :: concat (map snd groups).
Proof.
  induction groups as [|[d gs] groups IH]; simpl; [done|]. case_bool_decide; simpl.
  - rewrite <-(assoc_L (++)). simpl. symmetry. apply Permutation_middle.
  - rewrite IH. symmetry. apply Permutation_middle.
Qed.

(** The groups hold every grant once. *)
Lemma group_grants_perm (grants : list ArtifactGrant) : concat (group_grants grants) ≡ₚ grants.
Proof.
  unfold group_grants.
  assert (Hg : ∀ groups, concat (map snd (foldl add_to_group groups grants))
    ≡ₚ grants ++ concat (map snd groups)).
  { induction grants as [|g grants IH]; intros groups; simpl; [done|].
    rewrite IH, add_to_group_perm. symmetry. apply Permutation_middle. }
  rewrite Hg. simpl. by rewrite app_nil_r.
Qed.

(** The grants of a group have the same digest. *)
Lemma group_grants_same (grants gs : list ArtifactGrant) (g g' : ArtifactGrant) :
  gs ∈ group_grants grants → g ∈ gs → g' ∈ gs → g_sha256 g = g_sha256 g'.
Proof.
  unfold group_grants.
  assert (Hinv : ∀ groups, (∀ d l x, (d, l) ∈ groups → x ∈ l → g_sha256 x = d) →
    ∀ d l x, (d, l) ∈ foldl add_to_group groups grants → x ∈ l → g_sha256 x = d).
  { clear. induction grants as [|y grants IH]; intros groups Hg; [done|]. simpl. apply IH.
    induction groups as [|[d0 l0] groups IH']; intros d l x Hin Hx; simpl in Hin.
    - apply elem_of_cons in Hin as [[= -> ->]|Hin]; [|by apply not_elem_of_nil in Hin].
      by apply list_elem_of_singleton in Hx as ->.
    - case_bool_decide as Hd.
      + apply elem_of_cons in Hin as [[= -> ->]|Hin].
        * apply elem_of_app in Hx as [Hx|Hx]; [|by apply list_elem_of_singleton in Hx as ->].
          apply (Hg _ l0); [by left|done].
        * apply (Hg _ l); [by right|done].
      + apply elem_of_cons in Hin as [[= -> ->]|Hin]; [apply (Hg _ l0); [by left|done]|].
        apply (IH' ltac:(intros d' l' x' Hin' Hx'; apply (Hg d' l' x'); [by right|done]) _ l); done. }
  intros ([d l] & -> & Hin)%list_elem_of_fmap H1 H2. simpl in *.
  rewrite (Hinv [] ltac:(by intros ??? ?%not_elem_of_nil) d l g), (Hinv [] ltac:(by intros ??? ?%not_elem_of_nil) d l g'); done.
Qed.

Definition evaluated (m : MinerEvaluation) : Z * pystr := (me_uid m, me_hotkey m).

Definition grant_of (g : ArtifactGrant) : Z * pystr := (g_uid g, g_hotkey g).

Section provenance.
Context (signed : gmap (Z * pystr) MinerTaskResponse) (submissions : gmap (Z * pystr) MinerSubmission)
  (revealed : CommitRevealResponse) (cached verifier : node) (manifest : VerifierManifest)
  (tag : pystr).

(** [m] is the verdict of the grading [index] of the group [gs]: some bytes with the
    digest of the group were evaluated in a copy of the cached workspace. *)
Definition graded_by (index : nat) (gs : list ArtifactGrant) (m : MinerEvaluation) : Prop :=
  ∃ g0 g content workspace response s,
    head gs = Some g0 ∧ g ∈ gs ∧ evaluated m = grant_of g ∧
    fetch policy h index g0 = inl content ∧ hexdigest (sha256 content) = g_sha256 g0 ∧
    materialize_workspace (host_superuser h) (copy_fault h index) (Some cached) true None = Ok workspace ∧
    evaluate policy h lease verifier manifest tag index (g_uid g0) workspace content = Ok (me_result m) ∧
    signed !! grant_of g = Some response ∧ me_trajectory m = Some (p_trajectory response) ∧
    submissions !! grant_of g = Some s ∧ me_latency_ms m = ms_latency_ms s.

Lemma dict_get_Ok {A} (d : gmap (Z * pystr) A) (k : Z * pystr) (a : A) :
  dict_get d k = Ok a ↔ d !! k = Some a.
Proof. unfold dict_get. destruct (d !! k); naive_solver. Qed.

Lemma verdicts_Ok (gs : list ArtifactGrant) (r : EvaluationResult) (ms : list MinerEvaluation) (d : Z) :
  verdicts signed submissions gs r d = Ok ms →
  map evaluated ms = map grant_of gs ∧
  ∀ m, m ∈ ms → ∃ g response s, g ∈ gs ∧ evaluated m = grant_of g ∧ me_result m = r ∧
    signed !! grant_of g = Some response ∧ me_trajectory m = Some (p_trajectory response) ∧
    submissions !! grant_of g = Some s ∧ me_latency_ms m = ms_latency_ms s.
Proof.
  unfold verdicts. rewrite mapM_Ok. induction 1 as [|g m gs ms Hg _ [IH1 IH2]]; simpl.
  - split; [done|]. by intros m ?%not_elem_of_nil.
  - apply bind_Ok in Hg as (s & Hs%dict_get_Ok & Hg). apply bind_Ok in Hg as (rp & Hrp%dict_get_Ok & [= <-]).
    split; [by rewrite IH1|]. intros m [->|Hm]%elem_of_cons.
    + exists g, rp, s. split_and!; try done. by left.
    + destruct (IH2 m Hm) as (g' & rp' & s' & ? & Hrest). exists g', rp', s'. split; [by right|done].
Qed.

Lemma grade_once_graded (index : nat) (gs : list ArtifactGrant) (ms : list MinerEvaluation) :
  grade_once policy h lease signed submissions revealed cached verifier manifest tag index gs = inl ms →
  map evaluated ms = map grant_of gs ∧ Forall (graded_by index gs) ms.
Proof.
  unfold grade_once. destruct gs as [|g0 gs]; [done|].
  destruct (fetch policy h index g0) as [content|] eqn:Hf; [|done].
  destruct (float_to_int _) as [now|]; [|done]. destruct (_ <=? now); [done|].
  destruct (free_grade h index <? _); [done|]. unfold materialize.
  destruct (materialize_workspace _ _ _ _ _) as [w|] eqn:Hw; [|done].
  unfold judge. destruct (remove_tree _ _ _); [|done].
  destruct (_ ≫= _) as [[r ms']|] eqn:Hev; [|done]. destruct (bool_decide _); [done|].
  intros [= ->]. apply bind_Ok in Hev as (r' & Hr & Hev). apply bind_Ok in Hev as (ms' & Hms & [= -> ->]).
  apply verdicts_Ok in Hms as [Hregs Hms]. split; [done|]. rewrite Forall_forall. intros m Hm.
  destruct (Hms m Hm) as (g & rp & s & Hg & Hreg & <- & H1 & H2 & H3 & H4).
  assert (Hsha : hexdigest (sha256 content) = g_sha256 g0).
  { unfold fetch in Hf. destruct (fetch_submission _ _ _ _ _ _) as [f|] eqn:Hfetch; [|done]. injection Hf as <-.
    unfold fetch_submission in Hfetch. apply bind_Ok in Hfetch as (content & Hc & Hfetch).
    apply guard_Ok in Hfetch as [_ [= <-]]. by apply download_object_Ok in Hc as (o & rs & _ & _ & _ & _ & _ & _ & _ & Hsha & _). }
  exists g0, g, content, w, rp, s. done.
Qed.
End provenance.

Lemma reject_failure_Ok (submissions : gmap (Z * pystr) MinerSubmission) (f : ArtifactFailure)
    (m : MinerEvaluation) :
  reject_failure submissions f = Ok m →
  evaluated m = (af_uid f, af_hotkey f) ∧ ev_status (me_result m) = eval_rejected.
Proof.
  unfold reject_failure. intros (s & _ & H1)%bind_Ok. apply bind_Ok in H1 as (ev & Hev & [= <-]).
  unfold mk_evaluation in Hev. apply bind_Ok in Hev as ([] & _ & Hev).
  apply seq_Ok in Hev as [_ [= <-]]. done.
Qed.

Lemma check_grants_Next (signed : gmap (Z * pystr) MinerTaskResponse) (gs : list ArtifactGrant)
    (ys : list unit) (st st' : RoundState) :
  round_mapM (check_grant lease signed) gs st = (Next ys, st') →
  Forall (λ g, g_format g = expected_format lease ∧
               grant_matches_signed_response g (signed !! grant_of g) = true) gs.
Proof.
  intros Hm%mapM_Next. induction Hm as [|g y gs ys (s & s' & Hg) _ IH]; constructor; [|done].
  unfold check_grant in Hg. apply bind_Next in Hg as (u & s1 & Hf%abandon_if_Next & Hg%abandon_if_Next).
  bool_simpl. done.
Qed.

(** *** A completed round *)

(** What a completed round did: [dispatched] are the answers in slot order, [graded]
    the verdicts of each group. *)
Record round_trace := {
  tr_dispatched : list (MinerSubmission * option MinerTaskResponse);
  tr_commit : ChallengeCommitRequest;
  tr_revealed : CommitRevealResponse;
  tr_cached : node;
  tr_verifier : node;
  tr_manifest : VerifierManifest;
  tr_tag : pystr;
  tr_rejected : list MinerEvaluation;
  tr_graded : list (list MinerEvaluation)
}.
Definition tr_signed (t : round_trace) : gmap (Z * pystr) MinerTaskResponse :=
  signed_of (tr_dispatched t).
Definition tr_submissions (t : round_trace) : gmap (Z * pystr) MinerSubmission :=
  submissions_of (map fst (tr_dispatched t)).
Definition tr_groups (t : round_trace) : list (list ArtifactGrant) :=
  group_grants (v_submission_grants (tr_revealed t)).
Definition tr_grade (t : round_trace)
    : nat → list ArtifactGrant → list MinerEvaluation + task_fault :=
  grade_once policy h lease (tr_signed t) (tr_submissions t) (tr_revealed t) (tr_cached t) (tr_verifier t)
    (tr_manifest t) (tr_tag t).

Record trace_ok (r : RoundResult) (t : round_trace) : Prop := {
  ok_pool : 0 <= miners_per_task policy → NoDup first_offered ∧
    ∀ reg, reg ∈ map registration_of (l_slot_pool lease) ↔ reg ∈ first_offered;
  ok_dispatched : Forall2 dispatched_as (l_slot_pool lease) (tr_dispatched t);
  ok_quorum : l_commit_min lease <= Z.of_nat (size (tr_signed t));
  ok_cached : workspace_cached (tr_cached t);
  ok_verifier : verifier_fetched (tr_revealed t) (tr_verifier t) (tr_manifest t);
  ok_tag : ∃ raw, utf8_encode (l_challenge_id lease) = Ok raw ∧ tr_tag t = slice_to 12 (hexdigest (sha256 raw));
  ok_commit : (c_challenge_id (tr_commit t) = l_challenge_id lease ∧ c_submissions (tr_commit t) = map fst (tr_dispatched t)) ∧
    client_commit (tr_commit t) = Ok (Some (tr_revealed t)) ∧
    validate_commit_reveal lease (tr_commit t) (tr_revealed t) = Ok ();
  ok_rejected : mapM (reject_failure (tr_submissions t)) (v_artifact_failures (tr_revealed t))
    = Ok (tr_rejected t);
  ok_grants : Forall (λ g, g_format g = expected_format lease ∧
    grant_matches_signed_response g (tr_signed t !! grant_of g) = true)
    (v_submission_grants (tr_revealed t));
  ok_graded : length (tr_graded t) = length (tr_groups t) ∧
    ∀ i ms, tr_graded t !! i = Some ms → tr_grade t i (default [] (tr_groups t !! i)) = inl ms;
  ok_evaluations : rr_evaluations r = by_uid (tr_rejected t ++ concat (tr_graded t))
}.

Lemma settle_Next (groups : list (list ArtifactGrant)) (grade : nat → list MinerEvaluation + task_fault)
    (slots : nat) (order : list nat) (st st' : RoundState) (u : unit) :
  (0 < slots)%nat →
  settle lease (gather slots (length groups)
    (λ i, match grade i with inl ms => TaskGraded ms | inr f => TaskFault f end) order) st = (Next u, st') →
  ∃ graded, length graded = length groups ∧
    (∀ i ms, graded !! i = Some ms → grade i = inl ms) ∧
    rs_evaluations st' = rs_evaluations st ++ concat graded.
Proof.
  intros Hslots. set (task := λ i : nat, match grade i with inl ms => TaskGraded ms | inr f => TaskFault f end).
  unfold settle. intros (u1 & st1 & [= <- <-] & H1)%bind_Next.
  destruct (first_fault _) as [f|] eqn:Hff; [by destruct f|]. injection H1 as _ <-. simpl.
  apply first_fault_None in Hff.
  destruct (gather_spec slots (length groups) task order Hslots) as [(o & Ho & Hf & _)|[Heq _]].
  { rewrite Forall_forall in Hff. apply Hff in Ho. congruence. }
  rewrite Heq in Hff |- *. clear Heq.
  assert (Hall : ∃ graded, length graded = length groups ∧
    (∀ i ms, graded !! i = Some ms → grade i = inl ms) ∧
    map task (seq 0 (length groups)) = map TaskGraded graded).
  { exists (map (λ i, match grade i with inl ms => ms | inr _ => [] end) (seq 0 (length groups))).
    assert (Hinl : ∀ i, i ∈ seq 0 (length groups) → ∃ ms, grade i = inl ms).
    { intros i Hi. rewrite Forall_forall in Hff.
      assert (Hno : is_fault (task i) = false) by (apply Hff, list_elem_of_fmap; by exists i).
      unfold task in Hno. destruct (grade i) as [ms|f]; [by exists ms|done]. }
    split_and!; [by rewrite length_map, length_seq| |].
    - intros i ms Hi. rewrite list_lookup_fmap in Hi. apply fmap_Some in Hi as (j & Hj & ->).
      apply lookup_seq in Hj as [-> Hj]. destruct (Hinl (0 + i)%nat) as [ms' Hms].
      { apply elem_of_seq. lia. }
      simpl in *. by rewrite Hms.
    - rewrite map_map. apply map_ext_in. intros i Hi%list_elem_of_In. unfold task.
      destruct (Hinl i Hi) as [ms Hms]. by rewrite Hms. }
  destruct Hall as (graded & Hlen & Hget & Hmap). exists graded. split_and!; [done|done|].
  rewrite Hmap. f_equal. unfold observed_of. rewrite map_map. by rewrite map_id.
Qed.

(** Grading ends the round only by abandoning it. *)
Definition abandons {A} (m : round_m A) : Prop :=
  ∀ st r st', m st = (Return r, st') → faulted r.

Lemma quiet_abandons {A} (m : round_m A) : quiet m → abandons m.
Proof. intros Hm st r st' H1. by apply Hm in H1 as [_ Hr]; apply Hr. Qed.

Lemma abandons_bind {A B} (m : round_m A) (f : A → round_m B) :
  abandons m → (∀ x, abandons (f x)) → abandons (m ≫= f).
Proof.
  intros Hm Hf st r st'. unfold mbind, round_bind. destruct (m st) as [[x|r'|e] st1] eqn:Hst.
  - apply Hf.
  - intros [= -> ->]. by eapply Hm.
  - done.
Qed.

Lemma abandons_settle (outcomes : list task_outcome) : abandons (settle lease outcomes).
Proof.
  unfold settle. apply abandons_bind; [done|intros _].
  destruct (first_fault outcomes) as [[]|]; [|done..]. intros st r st' [= <- _].
  by repeat split; eexists.
Qed.

Lemma abandons_grade_all (signed : gmap (Z * pystr) MinerTaskResponse) (submissions : list MinerSubmission)
    (revealed : CommitRevealResponse) (cached verifier : node) (manifest : VerifierManifest) :
  abandons (grade_all policy h lease signed submissions revealed cached verifier manifest).
Proof.
  unfold grade_all. cbv zeta. apply abandons_bind; [apply quiet_abandons, quiet_call|intros rej].
  apply abandons_bind; [done|intros _]. apply abandons_bind; [done|intros _].
  apply abandons_bind; [apply quiet_abandons, quiet_mapM; intros g; apply quiet_check_grant|intros _].
  apply abandons_bind; [apply quiet_abandons, quiet_call|intros raw].
  apply abandons_bind; [done|intros _]. apply abandons_settle.
Qed.

(** The round ends completed, faulted or with an exception. *)
Definition ends {A} (m : round_m A) : Prop :=
  ∀ st, match (m st).1 with
        | Next _ => False
        | Return r => rr_status r = completed ∨ faulted r
        | Throw _ => True
        end.

Lemma ends_bind {A B} (m : round_m A) (f : A → round_m B) :
  abandons m → (∀ x, ends (f x)) → ends (m ≫= f).
Proof.
  intros Hm Hf st. unfold mbind, round_bind. destruct (m st) as [[x|r|e] st1] eqn:Hst; simpl.
  - apply Hf.
  - right. by eapply Hm.
  - done.
Qed.

Lemma round_body_ends : ends (round_body policy h lease offered).
Proof.
  apply ends_bind; [apply quiet_abandons, quiet_check_lease|intros _].
  apply ends_bind; [apply quiet_abandons, quiet_prepare|intros cached].
  apply ends_bind; [apply quiet_abandons, quiet_commit|intros [[signed submissions] revealed]].
  apply ends_bind; [apply quiet_abandons, quiet_verifier|intros [verifier manifest]].
  apply ends_bind; [apply abandons_grade_all|intros _].
  apply ends_bind; [done|intros _]. apply ends_bind; [done|intros _]. intros st. by left.
Qed.

Lemma run_round_completed (r : RoundResult) :
  0 < grading_concurrency policy →
  run_round policy h lease offered = r → rr_status r = completed → ∃ t, trace_ok r t.
Proof.
  intros Hconc. unfold run_round.
  destruct (round_body policy h lease offered initial_state) as [[r'|r'|e] st'] eqn:Hb;
    intros <- Hst; [| |done]; unfold round_body in Hb.
  { pose proof (round_body_ends initial_state) as He. unfold round_body in He. by rewrite Hb in He. }
  apply quiet_then in Hb as (u1 & s1 & Hlease & He1 & Hb); [|apply quiet_check_lease|done].
  apply quiet_then in Hb as (cached & s2 & Hprep%prepare_Next & He2 & Hb); [|apply quiet_prepare|done].
  apply quiet_then in Hb as ([[signed submissions] revealed] & s3 & Hcommit & He3 & Hb);
    [|apply quiet_commit|done].
  apply quiet_then in Hb as ([verifier manifest] & s4 & Hver%verifier_Next & He4 & Hb); [|apply quiet_verifier|done].
  apply commit_Next in Hcommit as (dispatched & commit & Hd & -> & -> & Hq & Hc1 & Hc2 & Hc3).
  assert (He : rs_evaluations s4 = []) by (by rewrite He4, He3, He2, He1).
  clear He1 He2 He3 He4. unfold mbind at 1, round_bind at 1 in Hb.
  destruct (grade_all _ _ _ _ _ _ _ _ _ s4) as [[u|r''|e] s5] eqn:Hg; [| |done].
  2:{ injection Hb as -> ->. apply abandons_grade_all in Hg as [Hx _]. congruence. }
  injection Hb as Hr _. unfold grade_all in Hg. cbv zeta in Hg.
  apply bind_Next in Hg as (rejected & s6 & [Hrej ->]%call_Next & Hg).
  apply bind_Next in Hg as (u7 & s7 & [= <- <-] & Hg). apply bind_Next in Hg as (u8 & s8 & [= <- <-] & Hg).
  apply bind_Next in Hg as (us & s9 & Hgr & Hg).
  pose proof (quiet_mapM _ _ (quiet_check_grant _) _ _ _ Hgr) as [He9 _].
  apply check_grants_Next in Hgr. apply bind_Next in Hg as (raw & s10 & [Hraw ->]%call_Next & Hg).
  apply bind_Next in Hg as (u11 & s11 & [= <- <-] & Hg).
  apply settle_Next in Hg as (graded & Hlen & Hget & Hev); [|lia].
  cbn [rs_evaluations] in *. rewrite He9, He in Hev. simpl in Hev.
  exists {| tr_dispatched := dispatched; tr_commit := commit; tr_revealed := revealed; tr_cached := cached;
       tr_verifier := verifier; tr_manifest := manifest;
       tr_tag := slice_to 12 (hexdigest (sha256 raw)); tr_rejected := rejected; tr_graded := graded |}.
  split; try done.
  - intros Hmin. by destruct (check_lease_Next _ _ _ Hlease Hmin) as (? & ? & _).
  - by exists raw.
  - subst r'. simpl. rewrite Hev. apply sort_by_sorted_id, sort_by_sorted. intros x y.
    rewrite !Z.leb_le. lia.
Qed.
End body.

(** ** Properties *)

(** The miners answer for themselves: a submission names the registration it was
    asked of. *)
Class V3SolverLaws `{!V3Solver} : Prop := {
  solver_identity : ∀ (registration : Z * pystr) (task : MinerTaskRequest) (s : MinerSubmission)
    (parsed : option MinerTaskResponse),
    solve_v3 registration task = Ok (s, parsed) → sender s = registration
}.

Section judged.
Context `{UD : !UnicodeData, SH : !Sha256, ZS : !Zstd, TR : !Tar, UP : !UrlParser, VC : !V3Client,
  VS : !V3Solver, CL : !V3ClientLaws, SL : !V3SolverLaws}.
Context (policy : RoundPolicy) (h : RoundHost) (lease : LeaseResponse) (offered : list (Z * pystr)).

Lemma dispatched_senders (pool : list MinerSlotSet)
    (dispatched : list (MinerSubmission * option MinerTaskResponse)) :
  Forall2 (dispatched_as lease) pool dispatched → map sender (map fst dispatched) = map registration_of pool.
Proof.
  induction 1 as [|slots y pool dispatched [_ Hy] _ IH]; [done|]. simpl. rewrite IH. f_equal.
  destruct Hy as [?|(task & parsed & Hs)]; [done|]. by eapply solver_identity.
Qed.

Lemma concat_map_evaluated (graded : list (list MinerEvaluation)) (groups : list (list ArtifactGrant)) :
  length graded = length groups →
  (∀ i ms, graded !! i = Some ms → map evaluated ms = map grant_of (default [] (groups !! i))) →
  map evaluated (concat graded) = map grant_of (concat groups).
Proof.
  revert groups. induction graded as [|ms graded IH]; intros [|gs groups] Hlen Hget; try done.
  simpl. rewrite !map_app. f_equal; [by apply (Hget 0%nat)|].
  apply IH; [by injection Hlen|]. intros i ms'. apply (Hget (S i)).
Qed.

(** The verdicts of a completed round are the results of its reveal. *)
Lemma trace_evaluated (r : RoundResult) (t : round_trace) :
  trace_ok policy h lease offered r t →
  map evaluated (rr_evaluations r) ≡ₚ reveal_results (tr_revealed t).
Proof.
  intros Ht. rewrite (ok_evaluations _ _ _ _ _ _ Ht). unfold by_uid. rewrite sort_by_perm, map_app.
  unfold reveal_results. rewrite (Permutation_app_comm (map _ _) (map _ _)). apply Permutation_app.
  - destruct (ok_graded _ _ _ _ _ _ Ht) as [Hlen Hget].
    rewrite (concat_map_evaluated _ _ Hlen); [|intros i ms Hi; by eapply grade_once_graded, Hget].
    unfold tr_groups. apply (Permutation_map grant_of), group_grants_perm.
  - pose proof (ok_rejected _ _ _ _ _ _ Ht) as Hr%mapM_Ok.
    induction Hr as [|f m fs ms Hf _ IH]; [done|]. simpl.
    apply reject_failure_Ok in Hf as [-> _]. by rewrite IH.
Qed.
End judged.

(** One lease: the verdicts are those of the first miners offered, one per UID. *)
Lemma run_round_judges `{UD : !UnicodeData, SH : !Sha256, ZS : !Zstd, TR : !Tar, UP : !UrlParser,
    VC : !V3Client, VS : !V3Solver, CL : !V3ClientLaws, SL : !V3SolverLaws} (policy : RoundPolicy)
    (h : RoundHost) (lease : LeaseResponse) (offered : list (Z * pystr)) (r : RoundResult) :
  check_round_policy policy = Ok () → run_round policy h lease offered = r → rr_status r = completed →
  map evaluated (rr_evaluations r) ≡ₚ first_offered policy offered ∧ NoDup (map me_uid (rr_evaluations r)).
Proof.
  intros Hpol H1 Hst. unfold check_round_policy in Hpol.
  rewrite !guard_Ok, raise_if_Ok in Hpol. destruct Hpol as (_ & Hgc%Z.ltb_ge & Hmp & _).
  apply negb_false_iff, andb_true_iff in Hmp as [Hmp%Z.leb_le _].
  destruct (run_round_completed policy h lease offered r ltac:(lia) H1 Hst) as [t Ht].
  destruct (ok_pool _ _ _ _ _ _ Ht ltac:(lia)) as [Hnd Hpool].
  destruct (ok_commit _ _ _ _ _ _ Ht) as ([_ Hsub] & Hrev & Hval).
  apply revealed_valid in Hrev as [Hcv Hrv].
  apply (proj1 (model_validate_Ok _ _ _ _)) in Hrv as (_ & Hres & _).
  unfold validate_results in Hres. rewrite !guard_Ok, raise_if_Ok in Hres.
  destruct Hres as (_ & _ & Hdup). apply orb_false_iff in Hdup as [Hdu Hdh].
  apply has_duplicates_false in Hdu, Hdh.
  unfold validate_commit_reveal in Hval. rewrite !guard_Ok, raise_if_Ok in Hval.
  destruct Hval as (_ & _ & _ & _ & Hset). apply negb_false_iff, bool_decide_eq_true in Hset.
  pose proof (trace_evaluated _ _ _ _ _ _ Ht) as Hperm.
  split.
  - rewrite Hperm. apply NoDup_Permutation; [by eapply NoDup_fst|exact Hnd|].
    intros reg. rewrite <-Hpool.
    rewrite <-(dispatched_senders lease _ _ (ok_dispatched _ _ _ _ _ _ Ht)), <-Hsub.
    rewrite <-!(elem_of_list_to_set (C := gset (Z * pystr))). by rewrite Hset.
  - assert (Hp : map me_uid (rr_evaluations r) ≡ₚ map fst (reveal_results (tr_revealed t))).
    { rewrite <-Hperm, map_map. done. }
    by rewrite Hp.
Qed.

(** C1 (safety): a completed round has exactly one verdict for each of the first
    [miners_per_task] miners the validator offered, neither more nor fewer, whatever
    the problem server and the miners answered and however the gradings were
    interleaved. *)
Theorem completed_judges_all `{UD : !UnicodeData, SH : !Sha256, ZS : !Zstd, TR : !Tar, UP : !UrlParser,
    VC : !V3Client, VS : !V3Solver, CL : !V3ClientLaws, SL : !V3SolverLaws} (policy : RoundPolicy)
    (h : RoundHost) (offered : list (Z * pystr)) (r : RoundResult) :
  check_round_policy policy = Ok () →
  evaluate_round policy h offered = Ok r → rr_status r = completed →
  map evaluated (rr_evaluations r)
    ≡ₚ slice_to (Z.min (miners_per_task policy) (zlen offered)) offered ∧
  NoDup (map me_uid (rr_evaluations r)).
Proof.
  intros Hpol. unfold evaluate_round. case_bool_decide; [intros [= <-]; done|].
  intros (o & Ho & H1)%bind_Ok. destruct (lo_challenge o) as [lease|]; [|by injection H1 as <-].
  injection H1 as H1. by apply (run_round_judges policy h lease offered).
Qed.

Section graded.
Context `{UD : !UnicodeData, SH : !Sha256, ZS : !Zstd, TR : !Tar, UP : !UrlParser, VC : !V3Client,
  VS : !V3Solver, CL : !V3ClientLaws, SL : !V3SolverLaws}.
Context (policy : RoundPolicy) (h : RoundHost) (lease : LeaseResponse) (offered : list (Z * pystr)).

(** A signed response kept by the round was the answer of that very miner. *)
Lemma signed_of_dispatched (pool : list MinerSlotSet)
    (dispatched : list (MinerSubmission * option MinerTaskResponse)) (reg : Z * pystr)
    (response : MinerTaskResponse) :
  Forall2 (dispatched_as lease) pool dispatched → signed_of dispatched !! reg = Some response →
  ∃ slots task s, slots ∈ pool ∧ registration_of slots = reg ∧ task_request lease slots = Ok task ∧
    solve_v3 reg task = Ok (s, Some response) ∧ (s, Some response) ∈ dispatched.
Proof.
  unfold signed_of. intros Hd.
  assert (Hg : ∀ d : gmap (Z * pystr) MinerTaskResponse,
    foldl (λ d sp, match sp.2 with Some parsed => <[sender sp.1 := parsed]> d | None => d end)
      d dispatched !! reg = Some response →
    d !! reg = Some response ∨
    ∃ slots task s, slots ∈ pool ∧ registration_of slots = reg ∧ task_request lease slots = Ok task ∧
      solve_v3 reg task = Ok (s, Some response) ∧ (s, Some response) ∈ dispatched).
  { induction Hd as [|slots [s [parsed|]] pool dispatched [H1 H2] _ IH]; intros d; simpl; [by left| |].
    - intros [Hl|(sl & task & s' & ? & ? & ? & ? & ?)]%IH.
      + destruct H1 as (task & Htask & Hs). simpl in Hs. assert (Hid := Hs).
        apply solver_identity in Hid. destruct (decide (sender s = reg)) as [Hreg|Hne].
        * subst reg. rewrite lookup_insert_eq in Hl. injection Hl as ->.
          right. exists slots, task, s. rewrite Hid. split_and!; try done; by left.
        * left. by rewrite lookup_insert_ne in Hl.
      + right. exists sl, task, s'. split_and!; try done; by right.
    - intros [Hl|(sl & task & s' & ? & ? & ? & ? & ?)]%IH; [by left|].
      right. exists sl, task, s'. split_and!; try done; by right. }
  intros [Hl|?]%Hg; [by rewrite lookup_empty in Hl|done].
Qed.

(** Every judged miner is one of a group, or was rejected by the reveal. *)
Lemma trace_members (r : RoundResult) (t : round_trace) (m : MinerEvaluation) :
  trace_ok policy h lease offered r t → m ∈ rr_evaluations r →
  ev_status (me_result m) = eval_rejected ∨
  ∃ i gs, tr_groups t !! i = Some gs ∧
    graded_by policy h lease (tr_signed t) (tr_submissions t) (tr_cached t) (tr_verifier t)
      (tr_manifest t) (tr_tag t) i gs m.
Proof.
  intros Ht. rewrite (ok_evaluations _ _ _ _ _ _ Ht). unfold by_uid.
  rewrite elem_of_sort_by, elem_of_app. intros [Hm|Hm].
  - left. pose proof (ok_rejected _ _ _ _ _ _ Ht) as Hr%mapM_Ok.
    apply list_elem_of_lookup_1 in Hm as [k Hk].
    destruct (Forall2_lookup_r _ _ _ _ _ Hr Hk) as (f & _ & Hf). by apply reject_failure_Ok in Hf as [_ ?].
  - right. apply list_elem_of_In, in_concat in Hm as (ms & Hms & Hm).
    apply list_elem_of_In in Hms, Hm. apply list_elem_of_lookup_1 in Hms as [i Hi].
    destruct (ok_graded _ _ _ _ _ _ Ht) as [Hlen Hget].
    pose proof (lookup_lt_Some _ _ _ Hi) as Hlt. rewrite Hlen in Hlt.
    destruct (lookup_lt_is_Some_2 _ _ Hlt) as [gs Hgs]. specialize (Hget _ _ Hi). rewrite Hgs in Hget.
    unfold tr_grade in Hget. cbn [default] in Hget.
    destruct (grade_once_graded policy h lease _ _ _ _ _ _ _ _ _ _ Hget) as [_ Hall].
    rewrite Forall_forall in Hall. exists i, gs. split; [done|]. by apply Hall.
Qed.
End graded.

(** The signed response of a grant names the same bytes. *)
Lemma grant_matches_digest (g : ArtifactGrant) (response : MinerTaskResponse) :
  grant_matches_signed_response g (Some response) = true → g_sha256 g = m_sha256 (p_submission response).
Proof. unfold grant_matches_signed_response. intros Hg. bool_simpl. tauto. Qed.

(** What stands behind a pass. *)
Record evidence := {
  pe_slots : MinerSlotSet;
  pe_task : MinerTaskRequest;
  pe_sent : MinerSubmission;
  pe_response : MinerTaskResponse;
  pe_commit : ChallengeCommitRequest;
  pe_revealed : CommitRevealResponse;
  (* the group of grants with its number, its first one, and the miner's *)
  pe_index : nat;
  pe_group : list ArtifactGrant;
  pe_first : ArtifactGrant;
  pe_grant : ArtifactGrant;
  pe_content : bytes;
  pe_cached : node;
  pe_workspace : node;
  pe_verifier : node;
  pe_manifest : VerifierManifest;
  pe_tag : pystr
}.

Section earned.
Context `{UD : !UnicodeData, SH : !Sha256, ZS : !Zstd, TR : !Tar, UP : !UrlParser, VC : !V3Client, VS : !V3Solver}.
Context (policy : RoundPolicy) (h : RoundHost) (lease : LeaseResponse) (m : MinerEvaluation).

(** The hidden suite of the task passed, run the way [evaluate] runs it. *)
Definition lease_suite (verifier : node) (manifest : VerifierManifest) (tag : pystr) (index : nat) (uid : Z)
    (workspace : node) (content : bytes) : Prop :=
  let prefix := ustr "v3-" ++ tag ++ ustr "-" ++ str_of_int uid in
  let workspace_path := below (round_dir h) (ustr "miner-" ++ str_of_int uid) in
  let verifier_path := below (round_dir h) (ustr "verifier") in
  match l_identity lease with
  | RepositoryTask identity =>
      repository_suite (host_lstat h index) (host_run h index) workspace_path workspace_path verifier_path prefix
        verifier manifest workspace content identity (tree_policy policy) (patch_policy policy) (patch_file h index)
  | TerminalTask identity =>
      terminal_suite (host_lstat h index) (host_run h index) workspace_path
        (work_cwd workspace_path (t_result_tree_path identity)) verifier_path prefix
        verifier manifest workspace content identity (tree_policy policy) (script_policy policy)
        SCRIPT_TIMEOUT_S SCRIPT_OUTPUT_BYTES (script_dir h index)
  end.

(** The chain from the lease to the verdict [m]. *)
Record earned_by (e : evidence) : Prop := {
  (* the miner has slots in the pool of the lease, was asked for the task of these slots,
     and answered with a signed response *)
  earned_slots : pe_slots e ∈ l_slot_pool lease ∧ registration_of (pe_slots e) = evaluated m;
  earned_task : task_request lease (pe_slots e) = Ok (pe_task e);
  earned_answer : solve_v3 (evaluated m) (pe_task e) = Ok (pe_sent e, Some (pe_response e));
  (* its submission was committed for this challenge, and the reveal belongs to the commit *)
  earned_commit : c_challenge_id (pe_commit e) = l_challenge_id lease ∧ pe_sent e ∈ c_submissions (pe_commit e);
  earned_reveal : client_commit (pe_commit e) = Ok (Some (pe_revealed e)) ∧
    validate_commit_reveal lease (pe_commit e) (pe_revealed e) = Ok ();
  (* the reveal grants the bytes the response names, in a group of grants with one digest *)
  earned_group : group_grants (v_submission_grants (pe_revealed e)) !! pe_index e = Some (pe_group e) ∧
    head (pe_group e) = Some (pe_first e) ∧ pe_grant e ∈ pe_group e;
  earned_grant : grant_of (pe_grant e) = evaluated m ∧
    grant_matches_signed_response (pe_grant e) (Some (pe_response e)) = true;
  (* these bytes were fetched; they have the digest the miner signed *)
  earned_content : fetch policy h (pe_index e) (pe_first e) = inl (pe_content e) ∧
    hexdigest (sha256 (pe_content e)) = m_sha256 (p_submission (pe_response e));
  (* the workspace is a copy of the cached tree of the lease's workspace *)
  earned_workspace : workspace_cached policy h lease (pe_cached e) ∧
    materialize_workspace (host_superuser h) (copy_fault h (pe_index e)) (Some (pe_cached e)) true None
    = Ok (pe_workspace e);
  (* the verifier and its manifest are those of the reveal *)
  earned_verifier : verifier_fetched policy h lease (pe_revealed e) (pe_verifier e) (pe_manifest e);
  earned_tag : ∃ raw, utf8_encode (l_challenge_id lease) = Ok raw ∧ pe_tag e = slice_to 12 (hexdigest (sha256 raw));
  (* the verdict is that of evaluating these bytes in this copy with this verifier, and
     the whole suite passed there *)
  earned_verdict : evaluate policy h lease (pe_verifier e) (pe_manifest e) (pe_tag e) (pe_index e)
    (g_uid (pe_first e)) (pe_workspace e) (pe_content e) = Ok (me_result m);
  earned_suite : lease_suite (pe_verifier e) (pe_manifest e) (pe_tag e) (pe_index e) (g_uid (pe_first e))
    (pe_workspace e) (pe_content e);
  earned_trajectory : me_trajectory m = Some (p_trajectory (pe_response e))
}.
End earned.

(** The lease of these offers, and what the pass stands on under it. *)
Definition pass_earned `{!UnicodeData, !Sha256, !Zstd, !Tar, !UrlParser, !V3Client, !V3Solver} (policy : RoundPolicy)
    (h : RoundHost) (offered : list (Z * pystr)) (m : MinerEvaluation) : Prop :=
  ∃ o lease e, client_lease offered (miners_per_task policy) = Ok o ∧ lo_challenge o = Some lease ∧
    earned_by policy h lease m e.

Lemma run_round_passed `{UD : !UnicodeData, SH : !Sha256, ZS : !Zstd, TR : !Tar, UP : !UrlParser,
    VC : !V3Client, VS : !V3Solver, CL : !V3ClientLaws, SL : !V3SolverLaws} (policy : RoundPolicy)
    (h : RoundHost) (lease : LeaseResponse) (offered : list (Z * pystr)) (r : RoundResult)
    (m : MinerEvaluation) :
  check_round_policy policy = Ok () → run_round policy h lease offered = r → rr_status r = completed →
  m ∈ rr_evaluations r → did_pass m = true → ∃ e, earned_by policy h lease m e.
Proof.
  intros Hpol H1 Hst Hm Hp%bool_decide_eq_true.
  assert (Hgc : 0 < grading_concurrency policy).
  { unfold check_round_policy in Hpol. rewrite !guard_Ok, Z.ltb_ge in Hpol. lia. }
  destruct (run_round_completed policy h lease offered r Hgc H1 Hst) as [t Ht].
  destruct (trace_members policy h lease offered r t m Ht Hm) as [Hrej|(i & gs & Hgs & Hgr)]; [congruence|].
  destruct Hgr as (g0 & g & content & w & response & s & Hhd & Hg & Hreg & Hfetch & Hsha & Hw & Hev & Hsig & Htr & _).
  destruct (signed_of_dispatched lease _ _ _ _ (ok_dispatched _ _ _ _ _ _ Ht) Hsig)
    as (slots & task & s' & Hslots & Hsreg & Htask & Hsolve & Hdisp).
  assert (Hgin : g ∈ v_submission_grants (tr_revealed t)).
  { rewrite <-(group_grants_perm (v_submission_grants _)). apply list_elem_of_In, in_concat. exists gs.
    rewrite <-!list_elem_of_In. split; [by eapply list_elem_of_lookup_2|done]. }
  pose proof (ok_grants _ _ _ _ _ _ Ht) as Hmatch. rewrite Forall_forall in Hmatch.
  apply Hmatch in Hgin as [_ Hgin]. rewrite Hsig in Hgin. pose proof (grant_matches_digest _ _ Hgin) as Hdigest.
  assert (Hsame : g_sha256 g0 = g_sha256 g).
  { eapply group_grants_same; [by eapply list_elem_of_lookup_2| |exact Hg].
    destruct gs as [|x gs]; [done|]. injection Hhd as ->. by left. }
  destruct (ok_commit _ _ _ _ _ _ Ht) as ([Hc1 Hc2] & Hc3 & Hc4).
  exists {| pe_slots := slots; pe_task := task; pe_sent := s'; pe_response := response; pe_commit := tr_commit t;
       pe_revealed := tr_revealed t; pe_index := i; pe_group := gs; pe_first := g0; pe_grant := g; pe_content := content;
       pe_cached := tr_cached t; pe_workspace := w; pe_verifier := tr_verifier t; pe_manifest := tr_manifest t;
       pe_tag := tr_tag t |}.
  split; cbn; rewrite ?Hreg; try done.
  - split; [done|]. rewrite Hc2. apply list_elem_of_fmap. by exists (s', Some response).
  - split; [done|]. by rewrite Hsha, Hsame.
  - split; [apply (ok_cached _ _ _ _ _ _ Ht)|done].
  - apply (ok_verifier _ _ _ _ _ _ Ht).
  - apply (ok_tag _ _ _ _ _ _ Ht).
  - unfold lease_suite, evaluate in *. destruct (l_identity lease).
    + by eapply evaluate_repository_passed.
    + by eapply evaluate_terminal_passed.
Qed.

(** C3 (safety): in a completed round a miner passes only by its own work: under the lease of
    these offers it was asked for the task of its own slots and answered with a signed
    response; the commit for this challenge holds its submission; the bytes that the reveal
    grants for it have the digest it signed; they were evaluated in a copy of the lease's
    workspace with the verifier and the manifest of that reveal; and the whole hidden suite
    passed there, from the patch or the script to the last check. *)
Theorem passed_was_graded `{UD : !UnicodeData, SH : !Sha256, ZS : !Zstd, TR : !Tar, UP : !UrlParser,
    VC : !V3Client, VS : !V3Solver, CL : !V3ClientLaws, SL : !V3SolverLaws} (policy : RoundPolicy)
    (h : RoundHost) (offered : list (Z * pystr)) (r : RoundResult) (m : MinerEvaluation) :
  check_round_policy policy = Ok () →
  evaluate_round policy h offered = Ok r → rr_status r = completed →
  m ∈ rr_evaluations r → did_pass m = true → pass_earned policy h offered m.
Proof.
  intros Hpol. unfold evaluate_round. case_bool_decide; [intros [= <-]; done|].
  intros (o & Ho & H1)%bind_Ok. destruct (lo_challenge o) as [lease|] eqn:Hl; [|by injection H1 as <-].
  injection H1 as H1. intros Hc Hm Hp. destruct (run_round_passed policy h lease offered r m Hpol H1 Hc Hm Hp) as [e He].
  by exists o, lease, e.
Qed.

(** C29 (error, atomic): a leased round always ends with a result.  Unless it is
    completed it judges nobody, whatever was graded before the fault, and it carries a
    reason code and the stage it stopped in. *)
Theorem faults_judge_nobody `{UD : !UnicodeData, SH : !Sha256, ZS : !Zstd, TR : !Tar, UP : !UrlParser,
    VC : !V3Client, VS : !V3Solver} (policy : RoundPolicy) (h : RoundHost) (lease : LeaseResponse)
    (offered : list (Z * pystr)) :
  let r := run_round policy h lease offered in
  rr_status r = completed ∨
  rr_status r = abandoned ∧ rr_evaluations r = [] ∧ is_Some (rr_reason_code r) ∧ is_Some (rr_stage r).
Proof.
  cbv zeta. unfold run_round.
  pose proof (round_body_ends policy h lease offered initial_state) as He.
  destruct (round_body policy h lease offered initial_state) as [[r|r|e] st']; simpl in He |- *; [done|done|].
  right. repeat split; by eexists.
Qed.

(** ** Schedules of the gradings

    When a grading gets its slot decides what it finds: the clock, the free disk, whether its
    copy and its clean-up go through, and how long it takes. *)

Record schedule := {
  sc_order : list nat;
  sc_now : nat → float;
  sc_free : nat → Z;
  sc_ms : nat → Z;
  sc_copy : nat → result unit;
  sc_removed : nat → result unit
}.

(** The same round under another schedule. *)
Definition under (h : RoundHost) (s : schedule) : RoundHost :=
  {| now_lease := now_lease h; now_dispatch := now_dispatch h; now_reveal := now_reveal h;
     now_grade := sc_now s; grade_ms := sc_ms s; free_workspace := free_workspace h;
     free_verifier := free_verifier h; free_grade := sc_free s; make_dirs := make_dirs h;
     make_round_dir := make_round_dir h; work_entries := work_entries h;
     cache_entries := cache_entries h; remove := remove h; unlink := unlink h;
     http_workspace := http_workspace h; http_verifier := http_verifier h;
     http_submission := http_submission h; submission_secured := submission_secured h;
     copy_fault := sc_copy s; remove_workspace := sc_removed s; host_lstat := host_lstat h;
     host_run := host_run h; host_umask := host_umask h; host_superuser := host_superuser h; round_dir := round_dir h;
     patch_file := patch_file h; script_dir := script_dir h; finish_order := sc_order s |}.

(** A verdict without the time it took, and a result with such verdicts. *)
Definition untimed (m : MinerEvaluation) : MinerEvaluation :=
  {| me_uid := me_uid m; me_hotkey := me_hotkey m; me_latency_ms := me_latency_ms m; me_result := me_result m;
     me_grading_duration_ms := 0; me_trajectory := me_trajectory m |}.

Definition untimed_result (r : RoundResult) : RoundResult :=
  {| rr_status := rr_status r; rr_reason := rr_reason r; rr_evaluations := map untimed (rr_evaluations r);
     rr_retry_after_s := rr_retry_after_s r; rr_reason_code := rr_reason_code r; rr_stage := rr_stage r;
     rr_challenge_id := rr_challenge_id r; rr_task_id := rr_task_id r; rr_assigned_miners := rr_assigned_miners r;
     rr_diagnostic_evaluations := map untimed (rr_diagnostic_evaluations r);
     rr_dispatch_failures := rr_dispatch_failures r; rr_checks_total := rr_checks_total r |}.

(** A grading of the schedule starts inside of the grading window, with room on the disk,
    and its copy and its clean-up go through. *)
Definition timely (policy : RoundPolicy) (revealed : CommitRevealResponse) (s : schedule) (i : nat) : Prop :=
  ∃ now, float_to_int (sc_now s i) = Ok now ∧ now < v_grading_expires_at revealed ∧
    max_total_file_bytes (tree_policy policy) <= sc_free s i ∧ sc_copy s i = Ok () ∧ sc_removed s i = Ok ().

Lemma settle_no_fault (lease : LeaseResponse) (outcomes : list task_outcome) (st st' : RoundState)
    (u : unit) :
  settle lease outcomes st = (Next u, st') → Forall (λ o, is_fault o = false) outcomes.
Proof.
  unfold settle. intros (u1 & st1 & _ & H1)%bind_Next.
  destruct (first_fault outcomes) as [f|] eqn:Hff; [by destruct f|]. by apply first_fault_None.
Qed.

Section schedules.
Context `{UD : !UnicodeData, SH : !Sha256, UP : !UrlParser}.
Context (policy : RoundPolicy) (h : RoundHost) (lease : LeaseResponse) (s : schedule).
Context (signed : gmap (Z * pystr) MinerTaskResponse) (revealed : CommitRevealResponse)
  (cached verifier : node) (manifest : VerifierManifest).

Lemma verdicts_untimed (submissions : gmap (Z * pystr) MinerSubmission) (gs : list ArtifactGrant) (r : EvaluationResult)
    (d d' : Z) (ms : list MinerEvaluation) :
  verdicts signed submissions gs r d = Ok ms →
  ∃ ms', verdicts signed submissions gs r d' = Ok ms' ∧ map untimed ms' = map untimed ms.
Proof.
  unfold verdicts. rewrite mapM_Ok. induction 1 as [|g m gs ms Hg _ IH]; [by exists []|].
  destruct IH as (ms' & Hms' & Heq). apply bind_Ok in Hg as (sub & Hs & (rp & Hrp & [= <-])%bind_Ok).
  cbn [mapM]. rewrite Hs. cbn [mbind result_bind]. rewrite Hrp. cbn [mbind result_bind mret result_ret]. rewrite Hms'.
  eexists. split; [reflexivity|]. cbn [map]. by rewrite Heq.
Qed.

(** A grading that gave verdicts gives the same ones under another schedule, unless it is
    not timely there. *)
Lemma grade_once_under (submissions : gmap (Z * pystr) MinerSubmission) (tag : pystr) (i : nat)
    (gs : list ArtifactGrant) (ms : list MinerEvaluation) :
  grade_once policy h lease signed submissions revealed cached verifier manifest tag i gs = inl ms →
  match grade_once policy (under h s) lease signed submissions revealed cached verifier manifest tag i gs with
  | inl ms' => map untimed ms' = map untimed ms
  | inr _ => ¬ timely policy revealed s i
  end.
Proof.
  unfold grade_once. destruct gs as [|g gs]; [done|]. change (fetch policy (under h s)) with (fetch policy h).
  destruct (fetch policy h i g) as [content|]; [|done].
  destruct (float_to_int (now_grade h i)) as [now|]; [|done]. destruct (_ <=? now); [done|].
  destruct (free_grade h i <? _); [done|]. unfold materialize.
  destruct (materialize_workspace _ _ _ _ _) as [w|] eqn:Hw; [|done].
  pose proof Hw as (m & ch & Hf & Hc & _ & _ & Hplain & Hread & Hwt)%materialize_Ok. unfold judge.
  destruct (remove_tree _ _ (remove_workspace h i)) as [[]|] eqn:Hrm; [|done].
  destruct (_ ≫= _) as [[r ms0]|] eqn:Hev; [|done]. destruct (bool_decide (ev_status r = eval_abandoned)) eqn:Hab; [done|].
  intros [= ->]. apply bind_Ok in Hev as (r' & Hr & (ms' & Hms & [= -> ->])%bind_Ok).
  cbn [now_grade free_grade copy_fault remove_workspace grade_ms host_superuser under].
  change (evaluate policy (under h s)) with (evaluate policy h).
  destruct (float_to_int (sc_now s i)) as [now'|] eqn:Hnow; [|by intros (n & Hn & _); rewrite Hnow in Hn].
  destruct (Z.leb_spec (v_grading_expires_at revealed) now') as [Hle|Hgt];
    [intros (n & Hn & Hlt & _); rewrite Hnow in Hn; injection Hn as <-; lia|].
  destruct (Z.ltb_spec (sc_free s i) (max_total_file_bytes (tree_policy policy))) as [Hlt|Hge];
    [by intros (n & _ & _ & Hn & _); lia|].
  destruct (materialize_workspace _ (sc_copy s i) _ _ _) as [w'|e] eqn:Hw'.
  2:{ intros (n & _ & _ & _ & Hcopy & _). rewrite Hcopy, <-Hf, Hw in Hw'. done. }
  assert (w' = w) as ->.
  { apply materialize_Ok in Hw' as (m' & ch' & _ & Hc' & _ & _ & _ & _ & ->). rewrite Hc in Hc'. by injection Hc' as <- <-. }
  destruct (verdicts_untimed submissions (g :: gs) r (Z.min (2 ^ 53 - 1) (grade_ms h i)) (Z.min (2 ^ 53 - 1) (sc_ms s i)) ms Hms)
    as (ms' & Hms' & Heq).
  rewrite Hr. cbn [mbind result_bind]. rewrite Hms'. cbn [mbind result_bind mret result_ret].
  destruct (remove_tree _ _ (sc_removed s i)) as [[]|e] eqn:Hrm'.
  - rewrite Hab. exact Heq.
  - intros (n & _ & _ & _ & _ & Hremoved). rewrite Hremoved in Hrm'. revert Hrm Hrm'. unfold remove_tree, raise_if.
    repeat case_match; done.
Qed.

Lemma first_fault_is_fault (outcomes : list task_outcome) (o : task_outcome) :
  o ∈ outcomes → is_fault o = true → ∃ f, first_fault outcomes = Some f.
Proof.
  intros Ho Hf. destruct (first_fault outcomes) as [f|] eqn:Hff; [by exists f|]. apply first_fault_None in Hff.
  rewrite Forall_forall in Hff. apply Hff in Ho. congruence.
Qed.

(** The states two schedules reach. *)
Definition same_state (st st' : RoundState) : Prop :=
  rs_stage st' = rs_stage st ∧ map untimed (rs_evaluations st') = map untimed (rs_evaluations st) ∧
  rs_dispatch_failures st' = rs_dispatch_failures st ∧ rs_checks_total st' = rs_checks_total st.

Definition late : Prop :=
  ∃ i, (i < length (group_grants (v_submission_grants revealed)))%nat ∧ ¬ timely policy revealed s i.

Lemma observed_untimed (grade grade' : nat → task_outcome) (l : list nat) :
  (∀ i, i ∈ l → ∃ ms ms', grade i = TaskGraded ms ∧ grade' i = TaskGraded ms' ∧ map untimed ms' = map untimed ms) →
  map untimed (observed_of (map grade' l)) = map untimed (observed_of (map grade l)).
Proof.
  unfold observed_of. induction l as [|i l IH]; intros H; [done|]. cbn [map concat]. rewrite !map_app, IH.
  - destruct (H i) as (ms & ms' & -> & -> & ->); [by left|done].
  - intros j Hj. apply H. by right.
Qed.

Lemma settle_under (n : nat) (grade grade' : nat → task_outcome) (slots : nat) (order : list nat) (st st1 : RoundState) (u : unit) :
  (0 < slots)%nat →
  (∀ i ms, (i < n)%nat → grade i = TaskGraded ms →
     (∃ ms', grade' i = TaskGraded ms' ∧ map untimed ms' = map untimed ms) ∨
     (is_fault (grade' i) = true ∧ ¬ timely policy revealed s i)) →
  (∀ i, grade i ≠ TaskSkipped) →
  settle lease (gather slots n grade order) st = (Next u, st1) →
  match settle lease (gather slots n grade' (sc_order s)) st with
  | (Next _, st2) => same_state st1 st2
  | (Return r, _) => rr_status r = abandoned ∧ rr_evaluations r = [] ∧ ∃ i, (i < n)%nat ∧ ¬ timely policy revealed s i
  | (Throw _, _) => ∃ i, (i < n)%nat ∧ ¬ timely policy revealed s i
  end.
Proof.
  intros Hslots Hrel Hskip Hg. pose proof (settle_no_fault lease _ _ _ _ Hg) as Hok.
  destruct (gather_spec slots n grade order Hslots) as [(o & Ho & Hf & _)|[Heq _]].
  { rewrite Forall_forall in Hok. apply Hok in Ho. congruence. }
  rewrite Heq in Hg, Hok.
  assert (Hgraded : ∀ i, (i < n)%nat → ∃ ms, grade i = TaskGraded ms).
  { intros i Hi. rewrite Forall_forall in Hok. specialize (Hok (grade i)). destruct (grade i) as [ms| |f] eqn:Hgi; [by exists ms|by destruct (Hskip i)|].
    assert (Hx : is_fault (TaskFault f) = false); [|done]. apply Hok, list_elem_of_fmap. exists i. split; [done|apply elem_of_seq; lia]. }
  unfold settle. cbn [mbind round_bind add_evaluations].
  destruct (gather_spec slots n grade' (sc_order s) Hslots) as [(o & Ho & Hf & j & Hj & ->)|[Heq' Hok']].
  - destruct (first_fault_is_fault _ _ Ho Hf) as [f ->].
    assert (Hlate : ∃ i, (i < n)%nat ∧ ¬ timely policy revealed s i).
    { exists j. split; [done|]. destruct (Hgraded j Hj) as [ms Hms].
      destruct (Hrel j ms Hj Hms) as [(ms' & Hms' & _)|[_ Ht]]; [by rewrite Hms' in Hf|done]. }
    destruct f as [reason code stage es|e]; cbn; [|done]. split_and!; [done|done|exact Hlate].
  - rewrite Heq'.
    assert (Hnone : ∀ g, Forall (λ o, is_fault o = false) (map g (seq 0 n)) → first_fault (map g (seq 0 n)) = None).
    { intros g Hall. destruct (first_fault (map g (seq 0 n))) as [f|] eqn:Hff; [|done]. exfalso. unfold first_fault in Hff.
      destruct (omap _ (map g (seq 0 n))) as [|f' fs] eqn:Hom; [done|].
      assert (Hin : f' ∈ f' :: fs) by left. rewrite <-Hom in Hin. apply list_elem_of_omap in Hin as (o & Ho & Hfo).
      rewrite Forall_forall in Hall. apply Hall in Ho. by destruct o. }
    rewrite Heq' in Hok'. rewrite (Hnone grade' Hok'). unfold settle in Hg. cbn [mbind round_bind add_evaluations] in Hg.
    rewrite (Hnone grade Hok) in Hg. injection Hg as _ <-. cbn [mret round_ret]. split_and!; [done| |done|done].
    cbn [rs_evaluations]. rewrite !map_app. f_equal. apply observed_untimed. intros i Hi%elem_of_seq.
    destruct (Hgraded i ltac:(lia)) as [ms Hms]. exists ms. rewrite Forall_forall in Hok'.
    destruct (Hrel i ms ltac:(lia) Hms) as [(ms' & Hms' & Heqm)|[Hf _]]; [by exists ms'|].
    rewrite Hok' in Hf; [done|]. apply list_elem_of_fmap. exists i. split; [done|apply elem_of_seq; lia].
Qed.

Lemma grade_all_under (submissions : list MinerSubmission) (st st1 : RoundState) (u : unit) :
  0 < grading_concurrency policy →
  grade_all policy h lease signed submissions revealed cached verifier manifest st = (Next u, st1) →
  match grade_all policy (under h s) lease signed submissions revealed cached verifier manifest st with
  | (Next _, st2) => same_state st1 st2
  | (Return r, _) => rr_status r = abandoned ∧ rr_evaluations r = [] ∧ late
  | (Throw _, _) => late
  end.
Proof.
  intros Hc. unfold grade_all. cbv zeta. rewrite !bind_Next.
  intros (rej & s1 & H1 & Hg). unfold mbind at 1, round_bind at 1. rewrite H1. revert Hg. rewrite !bind_Next.
  intros (u2 & s2 & H2 & Hg). unfold mbind at 1, round_bind at 1. rewrite H2. revert Hg. rewrite !bind_Next.
  intros (u3 & s3 & H3 & Hg). unfold mbind at 1, round_bind at 1. rewrite H3. revert Hg. rewrite !bind_Next.
  intros (u4 & s4 & H4 & Hg). unfold mbind at 1, round_bind at 1. rewrite H4. revert Hg. rewrite !bind_Next.
  intros (raw & s5 & H5 & Hg). unfold mbind at 1, round_bind at 1. rewrite H5. revert Hg. rewrite !bind_Next.
  intros (u6 & s6 & H6 & Hg). unfold mbind at 1, round_bind at 1. rewrite H6.
  cbn [finish_order under]. eapply settle_under; [lia| | |exact Hg].
  - intros i ms Hi Hms. unfold grade in *.
    destruct (grade_once policy h _ _ _ _ _ _ _ _ i _) as [ms0|f] eqn:Ho; [|done]. injection Hms as ->.
    pose proof (grade_once_under _ _ _ _ _ Ho) as Hu.
    destruct (grade_once policy (under h s) _ _ _ _ _ _ _ _ i _) as [ms'|f]; [left; by exists ms'|right; by split].
  - intros i. unfold grade. by destruct (grade_once _ _ _ _ _ _ _ _ _ _ _ _).
Qed.
End schedules.

Lemma by_uid_untimed (ms : list MinerEvaluation) : map untimed (by_uid ms) = by_uid (map untimed ms).
Proof. unfold by_uid. symmetry. by apply sort_by_map. Qed.

Lemma finish_untimed (lease : LeaseResponse) (st st' : RoundState) :
  same_state st st' →
  untimed_result (finish lease st' completed [] None None) = untimed_result (finish lease st completed [] None None).
Proof.
  intros (H1 & H2 & H3 & H4). unfold untimed_result, finish. cbv zeta.
  cbn [rr_status rr_reason rr_evaluations rr_retry_after_s rr_reason_code rr_stage rr_challenge_id rr_task_id
    rr_assigned_miners rr_diagnostic_evaluations rr_dispatch_failures rr_checks_total].
  rewrite !bool_decide_eq_true_2 by done. by rewrite H1, H3, H4, !by_uid_untimed, H2.
Qed.

(** C15 (equivalence, interleaving): the schedule of the concurrent gradings cannot change the
    verdicts of a completed round. Under any other order of finishing, and whatever the
    clock, the disk, the copies and the clean-ups of the gradings are there, the round gives
    the same result up to the recorded durations; or it is abandoned and judges nobody, and
    then some grading was not timely under that schedule: it started after the grading window
    or without room on the disk, or its copy or its clean-up failed. What the network and the
    containers answer to a grading is taken as given. *)
Theorem order_irrelevant `{UD : !UnicodeData, SH : !Sha256, ZS : !Zstd, TR : !Tar, UP : !UrlParser,
    VC : !V3Client, VS : !V3Solver} (policy : RoundPolicy) (h : RoundHost) (lease : LeaseResponse)
    (offered : list (Z * pystr)) (s : schedule) :
  check_round_policy policy = Ok () →
  rr_status (run_round policy h lease offered) = completed →
  let other := run_round policy (under h s) lease offered in
  untimed_result other = untimed_result (run_round policy h lease offered) ∨
  (rr_status other = abandoned ∧ rr_evaluations other = [] ∧
   ∃ signed submissions revealed before after,
     dispatch_and_commit policy h lease before = (Next (signed, submissions, revealed), after) ∧
     late policy s revealed).
Proof.
  intros Hpol. assert (Hgc : 0 < grading_concurrency policy).
  { unfold check_round_policy in Hpol. rewrite !guard_Ok, Z.ltb_ge in Hpol. lia. }
  unfold run_round. pose proof (round_body_ends policy h lease offered initial_state) as He.
  destruct (round_body policy h lease offered initial_state) as [[r|r|e] st'] eqn:Hb; [done| |done].
  intros Hst. unfold round_body in Hb |- *.
  apply quiet_then in Hb as (u1 & s1 & Hlease & _ & Hb); [|apply quiet_check_lease|done].
  apply quiet_then in Hb as (cached & s2 & Hprep & _ & Hb); [|apply quiet_prepare|done].
  apply quiet_then in Hb as ([[signed submissions] revealed] & s3 & Hcommit & _ & Hb);
    [|apply quiet_commit|done].
  apply quiet_then in Hb as ([verifier manifest] & s4 & Hver & _ & Hb); [|apply quiet_verifier|done].
  change (check_lease policy (under h s)) with (check_lease policy h).
  change (prepare_workspace policy (under h s)) with (prepare_workspace policy h).
  change (dispatch_and_commit policy (under h s)) with (dispatch_and_commit policy h).
  unfold mbind, round_bind. rewrite Hlease, Hprep, Hcommit.
  change (fetch_verifier policy (under h s)) with (fetch_verifier policy h). rewrite Hver.
  unfold mbind, round_bind in Hb.
  destruct (grade_all policy h lease signed submissions revealed cached verifier manifest s4)
    as [[[]|r'|e] s5] eqn:Hg.
  - pose proof (grade_all_under policy h lease s signed revealed cached verifier manifest submissions s4 s5 () Hgc Hg) as Hu.
    destruct (grade_all policy (under h s) lease signed submissions revealed cached verifier manifest s4) as [[[]|r'|e] s6].
    + left. cbn in Hb. injection Hb as <- _. destruct Hu as (H1 & H2 & H3 & H4). apply finish_untimed.
      split_and!; [done| |exact H3|exact H4]. cbn. fold (by_uid (rs_evaluations s6)) (by_uid (rs_evaluations s5)).
      by rewrite !by_uid_untimed, H2.
    + right. destruct Hu as (H1 & H2 & H3). split_and!; [done|done|]. by exists signed, submissions, revealed, s2, s3.
    + right. split_and!; [done|done|]. by exists signed, submissions, revealed, s2, s3.
  - injection Hb as -> ->. apply abandons_grade_all in Hg as [Hx _]. congruence.
  - done.
Qed.

(** ** A leftover staging directory *)

Lemma for_each_raises {A} (f : A → result unit) (l : list A) (x : A) (e : exn) :
  x ∈ l → f x = Raise e → ∃ e', for_each f l = Raise e'.
Proof.
  intros Hx Hf. induction l as [|y l IH]; [by apply not_elem_of_nil in Hx|]. cbn [for_each].
  apply elem_of_cons in Hx as [<-|Hx].
  - rewrite Hf. by eexists.
  - destruct (f y) as [[]|e']; [by apply IH|by eexists].
Qed.

Lemma staging_unmanaged (name : pystr) : startswith staging_prefix name = true → managed_name name = false.
Proof.
  rewrite startswith_spec. intros [k ->]. unfold managed_name. rewrite !orb_false_iff.
  split_and!; [done| |done]. apply andb_false_iff. by right.
Qed.

(** (error): [ensure_cached_workspace] stages an extraction in a directory called
    [.workspace-...] of the cache, and the round means to clear leftovers of that
    name.  But its clean-up hands every directory to [_remove_tree], which refuses
    that name: when a validator dies during an extraction, every later round is
    abandoned with [CLEANUP_FAILED] until the directory is removed by hand. *)
Theorem stale_staging_abandons `{UD : !UnicodeData, SH : !Sha256, ZS : !Zstd, TR : !Tar, UP : !UrlParser,
    VC : !V3Client, VS : !V3Solver} (policy : RoundPolicy) (h : RoundHost) (lease : LeaseResponse)
    (offered : list (Z * pystr)) (name : pystr) (mode : Z) (children : list (pystr * node)) :
  cache_entries h !! name = Some (NDir mode children) →
  startswith staging_prefix name = true → name ≠ ar_sha256 (l_workspace lease) →
  (check_lease policy h lease offered initial_state).1 = Next () →
  make_dirs h = Ok () → work_entries h = [] →
  let r := run_round policy h lease offered in
  rr_status r = abandoned ∧ rr_reason_code r = Some CLEANUP_FAILED.
Proof.
  intros Hentry Hname Hne Hlease Hdirs Hwork. cbv zeta. unfold run_round, round_body.
  unfold mbind at 1, round_bind at 1.
  destruct (check_lease policy h lease offered initial_state) as [o s1] eqn:Hc; simpl in Hlease; subst o.
  destruct (for_each_raises (evict_entry h lease) (map_to_list (cache_entries h))
    (name, NDir mode children) (Exn ValueError (ustr "cleanup target is outside the managed workspace")))
    as [e He].
  - by apply elem_of_map_to_list.
  - unfold evict_entry, cached_workspace_dir. rewrite bool_decide_eq_false_2 by done. cbn [is_dir].
    unfold remove_tree. by rewrite staging_unmanaged.
  - unfold prepare_workspace, clean_up. cbv zeta.
    unfold mbind, round_bind, set_stage, call. rewrite Hdirs, Hwork. cbn [for_each]. rewrite He.
    rewrite ?Hc. done.
Qed.

(** ** A completed round

    Two miners are offered; the first answers and passes, the second does not serve. *)

Definition zeros : pystr := replicate 64%nat 48%N.

Definition round_slots (u : Z) (h a b : string) : MinerSlotSet :=
  let slot role up :=
    {| s_challenge_id := ustr "c1"; s_task_id := zeros; s_uid := u; s_hotkey := ustr h; s_role := role;
       s_format := upload_format role; s_upload_id := ustr up; s_upload_url := ustr "https://u";
       s_expires_at := 2000; s_max_bytes := 100 |} in
  {| submission := slot role_script a; trajectory := slot role_trajectory b |}.

Definition round_identity : TaskIdentity :=
  TerminalTask {| t_instruction := ustr "do it"; t_environment_sha256 := zeros;
                  t_verifier_sha256 := zeros; t_execution_profile_id := ustr "p1";
                  t_result_tree_path := ustr "out"; t_verifier_policy := command_gold_digest_v1;
                  t_authoring_version := ustr "1" |}.

Definition round_lease : LeaseResponse :=
  {| l_protocol_version := 3; l_challenge_id := ustr "c1"; l_task_id := zeros;
     l_identity := round_identity;
     l_workspace := {| ar_role := role_terminal_environment; ar_sha256 := zeros;
                       ar_compressed_size := 1; ar_expanded_size := 1 |};
     l_workspace_url := ustr "https://w";
     l_verifier := {| ar_role := role_verifier; ar_sha256 := zeros; ar_compressed_size := 1;
                      ar_expanded_size := 1 |};
     l_issued_at := 10; l_expires_at := 2000;
     l_slot_pool := [round_slots 1 "a" "x1" "x2"; round_slots 2 "b" "x3" "x4"]; l_commit_min := 1 |}.

Definition round_reveal : CommitRevealResponse :=
  {| v_protocol_version := 3; v_challenge_id := ustr "c1"; v_task_id := zeros;
     v_verifier := l_verifier round_lease; v_verifier_policy := command_gold_digest_v1;
     v_verifier_url := ustr "https://v"; v_grading_expires_at := 3000;
     v_submission_grants :=
       [{| g_uid := 1; g_hotkey := ustr "a"; g_upload_id := ustr "x1"; g_sha256 := zeros;
           g_size_bytes := 2; g_format := grant_script; g_read_url := ustr "https://a.example/x" |}];
     v_artifact_failures :=
       [{| af_uid := 2; af_hotkey := ustr "b"; af_reason := artifact_invalid |}] |}.

Definition round_response : MinerTaskResponse :=
  let artifact role up :=
    {| m_role := role; m_format := upload_format role; m_upload_id := ustr up; m_sha256 := zeros;
       m_size_bytes := 2 |} in
  {| p_protocol_version := 3; p_challenge_id := ustr "c1"; p_task_id := zeros;
     p_response_type := terminal_script_v1; p_submission := artifact role_script "x1";
     p_trajectory := artifact role_trajectory "x2" |}.

Definition round_client : V3Client :=
  {| client_lease := λ _ _, Ok (lease_outcome LEASED (Some round_lease) (Some 200) [] None []);
     client_commit := λ q, _ ← ChallengeCommitRequest_validate (H := ascii_unicode) q; Ok (Some round_reveal);
     client_feedback := λ _, Ok true |}.

Definition round_solver : V3Solver :=
  {| serving := [(1, ustr "a")];
     solve_v3 := λ r _,
       Ok ({| ms_uid := r.1; ms_hotkey := r.2; ms_request_id := ustr "r"; ms_response_body := ustr "{}";
              ms_response_headers := map (λ k, (k, ustr "v")) EPISTULA_HEADERS; ms_error := [];
              ms_latency_ms := 5 |}, Some round_response) |}.

Definition tar_file (name : string) (content : bytes) : TarInfo :=
  {| ti_name := ustr name; ti_type := member_file; ti_sparse := false; ti_size := zlen content;
     ti_mode := 420; ti_content := Ok content |}.
Definition tar_folder (name : string) : TarInfo :=
  {| ti_name := ustr name; ti_type := member_dir; ti_sparse := false; ti_size := 0; ti_mode := 0;
     ti_content := Ok [] |}.

Definition round_tar : Tar :=
  {| tar_read := λ data,
       (if bool_decide (data = bstr "w") then [tar_folder "out"]
        else [tar_file "manifest.json" (json_of manifest_text); tar_folder "gold";
              tar_file "gold/out" (bstr "ok")], None) |}.

Definition round_archive_limits : ArchiveLimits :=
  {| max_compressed_bytes := 100; max_expanded_bytes := 1000; Archive.max_file_bytes := 500;
     max_archive_entries := 8; max_archive_path_bytes := 20; max_zstd_window_bytes := 8 |}.

Definition round_tree_limits : TreeLimits :=
  {| max_entries := 20; max_tree_file_bytes := 1000; max_total_file_bytes := 5000;
     max_path_bytes := 40 |}.

Definition round_policy : RoundPolicy :=
  {| workspace_archive := round_archive_limits; verifier_archive := round_archive_limits;
     submission_limits := {| limit_patch_bytes := 10; limit_script_bytes := 10 |};
     tree_policy := round_tree_limits;
     patch_policy := {| max_patch_bytes := 10; git_timeout_s := 5 |}; script_policy := 10;
     supervisor_policy :=
       {| sp_image := ustr "i"; candidate_uid := 65534; candidate_gid := 65534; memory_bytes := 1;
          cpus := 1; pids_limit := 1; tmpfs_bytes := 1; max_file_bytes := 1; watchdog_slack_s := 1;
          max_workspace_bytes := 1; trusted_uid := 1; trusted_gid := 1 |};
     artifact_origins := {[ustr "https://a.example:443"]}; policy_profile_id := ustr "p1";
     policy_verifier_policy := command_gold_digest_v1; dispatch_concurrency := 4;
     grading_concurrency := 2; miners_per_task := 2; commit_quorum := 1; min_lease_s := 600 |}.

Definition serve (content : string) (url : pystr) : result HttpResponse :=
  Ok {| status_code := 200; content_encoding := None; content_length := None;
        raw_chunks := [bstr content]; stream_error := None |}.

Definition round_host (cache : gmap pystr node) : RoundHost :=
  {| now_lease := float_of_int 100; now_dispatch := float_of_int 110; now_reveal := float_of_int 500;
     now_grade := λ _, float_of_int 510; grade_ms := λ _, 7; free_workspace := 100000;
     free_verifier := 100000; free_grade := λ _, 100000; make_dirs := Ok (); make_round_dir := Ok ();
     work_entries := []; cache_entries := cache; remove := λ _, Ok (); unlink := λ _, Ok ();
     http_workspace := serve "w"; http_verifier := serve "v"; http_submission := λ _, serve "ls";
     submission_secured := λ _, true; copy_fault := λ _, Ok (); remove_workspace := λ _, Ok ();
     host_lstat := λ _ _, Some kind_dir;
     host_run := λ _ _ w,
       Ok ({| exit_code := 0; oom_killed := false; timed_out := false; stdout := bstr "ok"; stderr := [];
              stdout_overflow := false; stderr_overflow := false |}, w);
     host_umask := 18; host_superuser := false; round_dir := ustr "/tmp/hone-v3-round-1"; patch_file := λ _, ustr "/tmp/p";
     script_dir := λ _, ustr "/tmp/s"; finish_order := [] |}.

Definition round_offered : list (Z * pystr) := [(1, ustr "a"); (2, ustr "b"); (3, ustr "c")].

Definition sample_run (cache : gmap pystr node) : result RoundResult :=
  evaluate_round (H := ascii_unicode) (H0 := sha_const) (H1 := store_zstd) (H2 := round_tar)
    (H3 := one_url) (H4 := round_client) (H5 := round_solver) round_policy (round_host cache)
    round_offered.

Definition round_result : RoundResult :=
  match sample_run ∅ with Ok r => r | Raise _ => unavailable_result [] None end.

Lemma round_client_laws : V3ClientLaws (H := ascii_unicode) (H0 := sha_const) (H1 := round_client).
Proof.
  split.
  - intros offered n o l [= <-] [= <-]. vm_compute. reflexivity.
  - intros q r. unfold client_commit, round_client.
    intros (c & Hc & [= <-])%bind_Ok. split; [|vm_compute; reflexivity].
    pose proof Hc as (_ & _ & ->)%model_validate_Ok. exact Hc.
Qed.

Lemma round_solver_laws : V3SolverLaws (H := round_solver).
Proof. split. intros [uid hotkey] task s parsed [= <- <-]. done. Qed.

Lemma completed_judges_all_witness :
  map evaluated (rr_evaluations round_result) ≡ₚ [(1, ustr "a"); (2, ustr "b")].
Proof.
  apply (completed_judges_all (UD := ascii_unicode) (SH := sha_const) (ZS := store_zstd) (TR := round_tar)
    (UP := one_url) (VC := round_client) (VS := round_solver) (CL := round_client_laws)
    (SL := round_solver_laws) round_policy (round_host ∅) round_offered round_result);
    [reflexivity|vm_compute; reflexivity..].
Defined.


Lemma passed_was_graded_witness :
  ∃ m lease e, m ∈ rr_evaluations round_result ∧ did_pass m = true ∧
    earned_by (UD := ascii_unicode) (SH := sha_const) (ZS := store_zstd) (TR := round_tar)
      (UP := one_url) (VC := round_client) (VS := round_solver) round_policy (round_host ∅) lease m e ∧
    hexdigest (sha256 (Sha256 := sha_const) (pe_content e)) = m_sha256 (p_submission (pe_response e)).
Proof.
  destruct (rr_evaluations round_result) as [|m ms] eqn:Hms; [vm_compute in Hms; discriminate Hms|].
  destruct (passed_was_graded (UD := ascii_unicode) (SH := sha_const) (ZS := store_zstd) (TR := round_tar)
    (UP := one_url) (VC := round_client) (VS := round_solver) (CL := round_client_laws)
    (SL := round_solver_laws) round_policy (round_host ∅) round_offered round_result m)
    as (o & lease & e & _ & _ & He).
  - reflexivity.
  - vm_compute. reflexivity.
  - vm_compute. reflexivity.
  - rewrite Hms. by left.
  - vm_compute in Hms. injection Hms as <- _. reflexivity.
  - exists m, lease, e. split_and!; [by left| |done|].
    + vm_compute in Hms. injection Hms as <- _. reflexivity.
    + by destruct (earned_content _ _ _ _ _ He) as [_ Hsha].
Defined.

(** Two miners answer with different scripts, so that two gradings run. *)

Definition ones : pystr := concat (replicate 32%nat [48%N; 49%N]).

Definition sha_pair : Sha256 :=
  {| sha256 := λ data, replicate 32%nat (ascii_of_N (if bool_decide (data = bstr "rm") then 1 else 0)) |}.

Definition pair_reveal : CommitRevealResponse :=
  let grant u h up digest :=
    {| g_uid := u; g_hotkey := ustr h; g_upload_id := ustr up; g_sha256 := digest; g_size_bytes := 2;
       g_format := grant_script; g_read_url := ustr "https://a.example/x" |} in
  {| v_protocol_version := 3; v_challenge_id := ustr "c1"; v_task_id := zeros;
     v_verifier := l_verifier round_lease; v_verifier_policy := command_gold_digest_v1;
     v_verifier_url := ustr "https://v"; v_grading_expires_at := 3000;
     v_submission_grants := [grant 1 "a" "x1" zeros; grant 2 "b" "x3" ones]%string;
     v_artifact_failures := [] |}.

Definition pair_response (uid : Z) : MinerTaskResponse :=
  let artifact role up digest :=
    {| m_role := role; m_format := upload_format role; m_upload_id := ustr up; m_sha256 := digest;
       m_size_bytes := 2 |} in
  {| p_protocol_version := 3; p_challenge_id := ustr "c1"; p_task_id := zeros;
     p_response_type := terminal_script_v1;
     p_submission :=
       if uid =? 1 then artifact role_script "x1"%string zeros else artifact role_script "x3"%string ones;
     p_trajectory := artifact role_trajectory (if uid =? 1 then "x2"%string else "x4"%string) zeros |}.

Definition pair_client : V3Client :=
  {| client_lease := λ _ _, Ok (lease_outcome LEASED (Some round_lease) (Some 200) [] None []);
     client_commit := λ q, _ ← ChallengeCommitRequest_validate (H := ascii_unicode) q; Ok (Some pair_reveal);
     client_feedback := λ _, Ok true |}.

Definition pair_solver : V3Solver :=
  {| serving := [(1, ustr "a"); (2, ustr "b")];
     solve_v3 := λ r _,
       Ok ({| ms_uid := r.1; ms_hotkey := r.2; ms_request_id := ustr "r"; ms_response_body := ustr "{}";
              ms_response_headers := map (λ k, (k, ustr "v")) EPISTULA_HEADERS; ms_error := [];
              ms_latency_ms := 5 |}, Some (pair_response r.1)) |}.

(** The schedule of the host [h], which grades in order. *)
Definition in_order : schedule :=
  {| sc_order := [0; 1]%nat; sc_now := λ _, float_of_int 510; sc_free := λ _, 100000; sc_ms := λ _, 7;
     sc_copy := λ _, Ok (); sc_removed := λ _, Ok () |}.

(** The second one finishes first, and both take longer. *)
Definition reversed : schedule :=
  {| sc_order := [1; 0]%nat; sc_now := λ i, float_of_int (600 + Z.of_nat i); sc_free := λ _, 50000;
     sc_ms := λ i, 1000 + Z.of_nat i; sc_copy := λ _, Ok (); sc_removed := λ _, Ok () |}.

(** The second one gets its slot after the window. *)
Definition overdue : schedule :=
  {| sc_order := [0; 1]%nat; sc_now := λ i, float_of_int (if (i =? 1)%nat then 4000 else 510);
     sc_free := λ _, 100000; sc_ms := λ _, 7; sc_copy := λ _, Ok (); sc_removed := λ _, Ok () |}.

Definition pair_host : RoundHost :=
  let h := round_host ∅ in
  {| now_lease := now_lease h; now_dispatch := now_dispatch h; now_reveal := now_reveal h;
     now_grade := now_grade h; grade_ms := grade_ms h; free_workspace := free_workspace h;
     free_verifier := free_verifier h; free_grade := free_grade h; make_dirs := make_dirs h;
     make_round_dir := make_round_dir h; work_entries := work_entries h; cache_entries := cache_entries h;
     remove := remove h; unlink := unlink h; http_workspace := http_workspace h;
     http_verifier := http_verifier h;
     http_submission := λ i, serve (if (i =? 0)%nat then "ls" else "rm");
     submission_secured := submission_secured h; copy_fault := copy_fault h;
     remove_workspace := remove_workspace h; host_lstat := host_lstat h; host_run := host_run h;
     host_umask := host_umask h; host_superuser := host_superuser h; round_dir := round_dir h;
     patch_file := patch_file h; script_dir := script_dir h; finish_order := finish_order h |}.

Definition pair_run (s : schedule) : RoundResult :=
  run_round (H := ascii_unicode) (H0 := sha_pair) (H1 := store_zstd) (H2 := round_tar) (H3 := one_url)
    (H4 := pair_client) (H5 := pair_solver) round_policy (under pair_host s) round_lease round_offered.

Lemma order_irrelevant_witness :
  rr_status (pair_run in_order) = completed ∧ length (rr_evaluations (pair_run in_order)) = 2%nat ∧
  untimed_result (pair_run reversed) = untimed_result (pair_run in_order) ∧
  rr_status (pair_run overdue) = abandoned ∧ rr_evaluations (pair_run overdue) = [].
Proof.
  split; [vm_compute; reflexivity|]. split; [vm_compute; reflexivity|].
  destruct (order_irrelevant (UD := ascii_unicode) (SH := sha_pair) (ZS := store_zstd) (TR := round_tar)
    (UP := one_url) (VC := pair_client) (VS := pair_solver) round_policy (under pair_host in_order) round_lease
    round_offered reversed) as [Hsame|(Hst & _)]; [reflexivity|vm_compute; reflexivity| |].
  2:{ exfalso. vm_compute in Hst. discriminate Hst. }
  split; [exact Hsame|].
  destruct (order_irrelevant (UD := ascii_unicode) (SH := sha_pair) (ZS := store_zstd) (TR := round_tar)
    (UP := one_url) (VC := pair_client) (VS := pair_solver) round_policy (under pair_host in_order) round_lease
    round_offered overdue) as [Hsame'|(Hst & Hev & _)]; [reflexivity|vm_compute; reflexivity| |by split].
  exfalso. apply (f_equal rr_status) in Hsame'. vm_compute in Hsame'. discriminate Hsame'.
Defined.

Definition sample_leased (cache : gmap pystr node) : RoundResult :=
  run_round (H := ascii_unicode) (H0 := sha_const) (H1 := store_zstd) (H2 := round_tar)
    (H3 := one_url) (H4 := round_client) (H5 := round_solver) round_policy (round_host cache) round_lease round_offered.

Definition leftover : pystr := ustr ".workspace-k3f".

Lemma stale_staging_abandons_witness :
  rr_reason_code (sample_leased {[leftover := NDir 448 []]}) = Some CLEANUP_FAILED.
Proof.
  apply (stale_staging_abandons (UD := ascii_unicode) (SH := sha_const) (ZS := store_zstd)
    (TR := round_tar) (UP := one_url) (VC := round_client) (VS := round_solver) round_policy
    (round_host {[leftover := NDir 448 []]}) round_lease round_offered leftover 448 []);
    [reflexivity|reflexivity|vm_compute; congruence|vm_compute; reflexivity|reflexivity|reflexivity].
Defined.
