(* ===== verification/Protocol.v ===== *)
(** * Request signing and replay defence ([src/rlvr/protocol.py])

    The chain's key stack is the class [Keypair]: whether it could be imported, and
    what its verification answers; without it signatures fall back to HMAC-SHA256,
    written out here.  Headers are a mapping from names to values, clocks are
    milliseconds, and the request's UUID is an argument. *)

From S2P Require Import Prelude PyFloat Text Json JsonSpec Canonical CanonicalSpec Wire Identity Codecs Api.

Local Open Scope Z_scope.

Class Keypair := {
  have_crypto : bool;
  (* Keypair(ss58_address=address).verify(message, signature) *)
  keypair_verify : pystr → pystr → bytes → result bool
}.

Definition EPISTULA_VERSION : pystr := ustr "2".
Definition FALLBACK_NAMESPACE : bytes := bstr "rlvr-epistula-fallback-v1".

Section hmac.
Context `{!Sha256}.

(** [hmac.new(key, msg, hashlib.sha256)]: blocks of 64 bytes. *)
Definition xor_bytes (k : N) (bs : bytes) : bytes := map (λ b, ascii_of_N (N.lxor (N_of_ascii b) k)) bs.

Definition hmac_block (key : bytes) : bytes :=
  let k := if 64 <? zlen key then sha256 key else key in
  k ++ replicate (64 - length k) (ascii_of_N 0).

Definition hmac_sha256 (key msg : bytes) : bytes :=
  let block := hmac_block key in
  sha256 (xor_bytes 0x5C block ++ sha256 (xor_bytes 0x36 block ++ msg)).

Definition body_hash (body : bytes) : pystr := hexdigest (sha256 body).

Definition signing_message (hash uuid : pystr) (timestamp : Z) (signed_for : pystr) : pystr :=
  hash ++ ustr "." ++ uuid ++ ustr "." ++ str_of_int timestamp ++ ustr "." ++ signed_for.

Definition hmac_key (signed_by : pystr) : result bytes :=
  name ← utf8_encode signed_by;
  mret (sha256 (FALLBACK_NAMESPACE ++ name)).

Definition hmac_sign (signed_by message : pystr) : result pystr :=
  key ← hmac_key signed_by;
  text ← utf8_encode message;
  mret (ustr "0x" ++ hexdigest (hmac_sha256 key text)).
End hmac.

(** ** Signers *)

(** What [sign_message] may be given: nothing, a name, or an object.  [inner] is its
    attribute [hotkey] when that is neither missing nor the object itself, [address]
    its [ss58_address] (empty when missing), [text] what [str] gives, and [sign] its
    method of that name. *)
Inductive Hotkey :=
  | NoHotkey
  | HotkeyName (name : pystr)
  | HotkeyObject (inner : option Hotkey) (address text : pystr) (sign : option (pystr → result bytes)).

Fixpoint keypair_address (hotkey : Hotkey) : pystr :=
  match hotkey with
  | NoHotkey => []
  | HotkeyName name => name
  | HotkeyObject (Some inner) _ _ _ => keypair_address inner
  | HotkeyObject None address text _ => if bool_decide (address = []) then text else address
  end.

(** The [sign] method of the signer: of the inner key when it has one. *)
Definition signer_of (hotkey : Hotkey) : option (pystr → result bytes) :=
  match hotkey with
  | HotkeyObject (Some (HotkeyObject _ _ _ (Some sign))) _ _ _ => Some sign
  | HotkeyObject _ _ _ sign => sign
  | _ => None
  end.

Definition dict_of (names values : list pystr) : list (pystr * pystr) := zip names values.

(** A mapping of header names to values. *)
Abbreviation headers := (pystr → option pystr).

Section signing.
Context `{!Sha256, !Keypair, !UnicodeDigits}.

Definition sign_message (hotkey : Hotkey) (body : bytes) (signed_for : option pystr)
    (timestamp : Z) (uuid : pystr) : result (list (pystr * pystr)) :=
  let signed_for := default [] signed_for in
  let signed_by := keypair_address hotkey in
  let message := signing_message (body_hash body) uuid timestamp signed_for in
  signature ←
    (match signer_of hotkey with
     | Some sign =>
         if have_crypto then s ← sign message; mret (ustr "0x" ++ hexdigest s)
         else hmac_sign signed_by message
     | None => hmac_sign signed_by message
     end);
  mret (dict_of EPISTULA_HEADERS
          [EPISTULA_VERSION; str_of_int timestamp; uuid; signed_by; signed_for; signature]).

(** ** Verification *)

Definition SS58_ALPHABET : pystr := ustr "123456789ABCDEFGHJKLMNPQRSTUVWXYZabcdefghijkmnopqrstuvwxyz".

Definition looks_like_ss58 (value : pystr) : bool :=
  (46 <=? zlen value) && (zlen value <=? 49) && negb (startswith (ustr "0x") value)
  && forallb (λ c, bool_decide (c ∈ SS58_ALPHABET)) value.

(** [bytes.fromhex]: whitespace may stand before a pair of digits. *)
Fixpoint from_hex (s : pystr) : result bytes :=
  match s with
  | [] => Ok []
  | c :: r =>
      if c_isspace c then from_hex r
      else match r with
           | d :: r' =>
               match hex_val c, hex_val d with
               | Some h, Some l => cons (ascii_of_N (16 * h + l)) <$> from_hex r'
               | _, _ => raise ValueError "non-hexadecimal number found in fromhex() arg"
               end
           | [] => raise ValueError "non-hexadecimal number found in fromhex() arg"
           end
  end.

(** [hmac.compare_digest] of two strings: only ASCII may be compared. *)
Definition compare_digest (expected signature : pystr) : result bool :=
  raise_if (negb (forallb (λ c, (c <? 128)%N) (expected ++ signature))) TypeError
    "comparing strings with non-ASCII characters is not supported";;
  mret (bool_decide (expected = signature)).

(** The headers that are required, with the timestamp read. *)
Record SignedHeaders := {
  h_version : pystr;
  h_signature : pystr;
  h_timestamp : Z;
  h_uuid : pystr;
  h_signed_by : pystr;
  h_signed_for : pystr
}.

Definition read_headers (h : headers) : option SignedHeaders :=
  version ← h (ustr "Epistula-Version");
  signature ← h (ustr "Epistula-Request-Signature");
  timestamp ← h (ustr "Epistula-Timestamp");
  timestamp ← result_to_option (int_text timestamp);
  uuid ← h (ustr "Epistula-Uuid");
  signed_by ← h (ustr "Epistula-Signed-By");
  mret {| h_version := version; h_signature := signature; h_timestamp := timestamp; h_uuid := uuid;
          h_signed_by := signed_by; h_signed_for := default [] (h (ustr "Epistula-Signed-For")) |}.

(** The checks before the signature itself. *)
Definition envelope_ok (s : SignedHeaders) (allowed_delta_ms now : Z) (expected_signed_for : pystr) : bool :=
  bool_decide (h_version s = EPISTULA_VERSION) && negb (bool_decide (h_signed_by s = []))
  && negb (bool_decide (h_uuid s = [])) && negb (allowed_delta_ms <? 0)
  && (bool_decide (expected_signed_for = []) || bool_decide (h_signed_for s = expected_signed_for))
  && negb (h_timestamp s + allowed_delta_ms <? now)
  && negb (now <? h_timestamp s - allowed_delta_ms).

Definition message_ok (signed_by signature message : pystr) : result bool :=
  if looks_like_ss58 signed_by then
    if negb (have_crypto && startswith (ustr "0x") signature) then mret false
    else
      match (sig ← from_hex (drop 2 signature); keypair_verify signed_by message sig) with
      | Ok b => mret b
      | Raise _ => mret false
      end
  else if have_crypto then mret false
  else
    expected ← hmac_sign signed_by message;
    compare_digest expected signature.

Definition signed_message (s : SignedHeaders) (body : bytes) : pystr :=
  signing_message (body_hash body) (h_uuid s) (h_timestamp s) (h_signed_for s).

(** [now]: the argument [now_ms], or the clock in milliseconds. *)
Definition verify_signature (h : headers) (body : bytes) (allowed_delta_ms now : Z)
    (expected_signed_for : option pystr) : result bool :=
  match read_headers h with
  | None => mret false
  | Some s =>
      if envelope_ok s allowed_delta_ms now (default [] expected_signed_for) 
      then message_ok (h_signed_by s) (h_signature s) (signed_message s body)
      else mret false
  end.
End signing.

(** [dict(...).get] *)
Definition dict_lookup (d : list (pystr * pystr)) : headers := λ k,
  snd <$> List.find (λ kv, bool_decide (kv.1 = k)) d.

(** The default [allowed_delta_ms]. *)
Definition ALLOWED_DELTA_MS : Z := 8000.

(** ** Replay cache *)

Record NonceCache := {
  window_ms : Z;
  max_nonces : Z;
  seen : list (pystr * Z)   (* in the order they were added *)
}.

Definition NonceCache_init (window max_entries : Z) : NonceCache :=
  {| window_ms := Z.max 0 window; max_nonces := Z.max 1 max_entries; seen := [] |}.

Definition with_seen (c : NonceCache) (s : list (pystr * Z)) : NonceCache :=
  {| window_ms := window_ms c; max_nonces := max_nonces c; seen := s |}.

(** The stale prefix goes. *)
Definition prune (c : NonceCache) (now : Z) : NonceCache :=
  with_seen c (drop_while (λ e, e.2 <? now - window_ms c) (seen c)).

Definition check_and_add (c : NonceCache) (uuid : pystr) (now : Z) : bool * NonceCache :=
  if bool_decide (uuid = []) then (false, c)
  else
    let c := prune c now in
    if bool_decide (uuid ∈ map fst (seen c)) then (false, c)
    else if max_nonces c <=? zlen (seen c) then (false, c)
    else (true, with_seen c (seen c ++ [(uuid, now)])).
