(* ===== verification/ProtocolSpec.v ===== *)
(** * Signatures and replays

    [sign_verify]: what is signed verifies.  [signature_binds]: a signature vouches for
    one body, one UUID and one timestamp.  [no_replay] and [replay_accepted]: the
    replay cache holds a nonce for as long as its window, which the source sets to half
    of the time a request stays fresh. *)

From S2P Require Import Prelude PyFloat Text Json JsonSpec Canonical CanonicalSpec Wire Identity Codecs Api ApiSpec Protocol.

Local Open Scope Z_scope.

(** ** The signed message *)

Lemma hexdigest_no_dot (bs : bytes) : 46%N ∉ hexdigest bs.
Proof.
  unfold hexdigest. intros Hin%list_elem_of_In. apply in_concat in Hin as (l & Hl & Hin).
  apply in_map_iff in Hl as (b & <- & _). pose proof (N_ascii_bounded b).
  assert (Hx : ∀ n, (n < 16)%N → hex_digit n ≠ 46%N) by (intros n; unfold hex_digit; case_match; lia).
  destruct Hin as [Hin|[Hin|[]]]; apply Hx in Hin; try done.
  - apply N.Div0.div_lt_upper_bound. lia.
  - by apply N.mod_lt.
Qed.

(** The message can be taken apart when the recipient has no dot. *)
Lemma signing_message_inj (x x' : bytes) (u u' sf sf' : pystr) (t t' : Z) :
  signing_message (hexdigest x) u t sf = signing_message (hexdigest x') u' t' sf' →
  46%N ∉ sf → 46%N ∉ sf' → x = x' ∧ u = u' ∧ t = t' ∧ sf = sf'.
Proof.
  unfold signing_message. change (ustr ".") with [46%N]. cbn [app]. intros He Hsf Hsf'.
  apply app_sep_inj in He as [->%hexdigest_inj He]; [|apply hexdigest_no_dot..].
  assert (Hre : ∀ (a b c : pystr), a ++ 46%N :: b ++ 46%N :: c = (a ++ 46%N :: b) ++ 46%N :: c).
  { intros a b c. by rewrite <-(assoc_L (++)). }
  rewrite !Hre in He. apply app_sep_inj_r in He as [He ->]; [|done..].
  apply app_sep_inj_r in He as [-> He%str_of_int_inj]; [|by apply str_of_int_chars..]. done.
Qed.

(** ** Hexadecimal *)

Lemma from_hex_digest (bs : bytes) : from_hex (hexdigest bs) = Ok bs.
Proof.
  induction bs as [|b bs IH]; [done|]. unfold hexdigest. cbn [map concat app from_hex].
  pose proof (N_ascii_bounded b) as Hb.
  assert (Hh : (N_of_ascii b / 16 < 16)%N) by (apply N.Div0.div_lt_upper_bound; lia).
  assert (Hl : (N_of_ascii b mod 16 < 16)%N) by (by apply N.mod_lt).
  assert (Hs : ∀ n, (n < 16)%N → c_isspace (hex_digit n) = false).
  { intros n Hn. unfold c_isspace, hex_digit. destruct (N.ltb_spec n 10);
      rewrite orb_false_iff, andb_false_iff, !N.leb_gt, N.eqb_neq; lia. }
  rewrite Hs, !hex_val_digit by done. fold (hexdigest bs). rewrite IH. simpl. do 2 f_equal.
  rewrite <-(N.div_mod' (N_of_ascii b) 16). apply ascii_N_embedding.
Qed.

Lemma hexdigest_ascii (bs : bytes) : forallb (λ c, (c <? 128)%N) (hexdigest bs) = true.
Proof.
  apply forallb_forall. intros c Hin. unfold hexdigest in Hin. apply in_concat in Hin as (l & Hl & Hin).
  apply in_map_iff in Hl as (b & <- & _). pose proof (N_ascii_bounded b).
  assert (Hx : ∀ n, (n < 16)%N → (hex_digit n <? 128)%N = true).
  { intros n Hn. unfold hex_digit. apply N.ltb_lt. case_match; lia. }
  destruct Hin as [<-|[<-|[]]]; apply Hx; [apply N.Div0.div_lt_upper_bound; lia|by apply N.mod_lt].
Qed.

(** ** Documented facts *)

(** Documented facts on Unicode and SHA-256. *)
Class UnicodeLaws `{!UnicodeData} : Prop := {
  nfc_ascii (s : pystr) : forallb (λ c, (c <? 128)%N) s = true → nfc s = s
}.
Class Sha256Laws `{!Sha256} : Prop := {
  sha256_length (b : bytes) : length (sha256 b) = 32%nat
}.

Section facts.
Context `{UD : !UnicodeData, SH : !Sha256, UL : !UnicodeLaws, SL : !Sha256Laws}.

Lemma hexdigest_length (b : bytes) : length (hexdigest b) = (2 * length b)%nat.
Proof. induction b as [|x b IH]; [done|]. unfold hexdigest in *. simpl in *. lia. Qed.

Lemma ascii_wire_str (s : pystr) : forallb (λ c, (c <? 128)%N) s = true → wire_str s = true.
Proof.
  intros Ha. unfold wire_str, validate_protocol_string. rewrite bool_decide_eq_true_2 by (by apply nfc_ascii).
  cbn [negb raise_if mbind result_bind].
  assert (Hs : existsb is_surrogate s = false).
  { apply not_true_is_false. rewrite existsb_exists. intros (c & Hc & Hsur).
    rewrite forallb_forall in Ha. apply Ha, N.ltb_lt in Hc. unfold is_surrogate in Hsur.
    rewrite andb_true_iff, !N.leb_le in Hsur. lia. }
  by rewrite Hs.
Qed.

Lemma digest_identifier (b : bytes) : BoundedIdentifier (hexdigest (sha256 b)) = true.
Proof.
  unfold BoundedIdentifier, len_between, zlen. rewrite ascii_wire_str by apply hexdigest_ascii.
  by rewrite hexdigest_length, sha256_length.
Qed.

Lemma hexdigest_lower (b : bytes) : forallb is_lower_hex (hexdigest b) = true.
Proof.
  apply forallb_forall. intros c Hin. unfold hexdigest in Hin. apply in_concat in Hin as (l & Hl & Hin).
  apply in_map_iff in Hl as (x & <- & _). pose proof (N_ascii_bounded x).
  assert (Hx : ∀ n, (n < 16)%N → is_lower_hex (hex_digit n) = true).
  { intros n Hn. unfold is_lower_hex, is_digit, hex_digit.
    destruct (N.ltb_spec n 10); rewrite orb_true_iff, !andb_true_iff, !N.leb_le; lia. }
  destruct Hin as [<-|[<-|[]]]; apply Hx; [apply N.Div0.div_lt_upper_bound; lia|by apply N.mod_lt].
Qed.

Lemma digest_hex (b : bytes) : HexDigest (hexdigest (sha256 b)) = true.
Proof.
  unfold HexDigest, zlen. rewrite hexdigest_lower, ascii_wire_str by apply hexdigest_ascii.
  by rewrite hexdigest_length, sha256_length.
Qed.
End facts.

Definition ascii_laws : UnicodeLaws (H := ascii_unicode).
Proof. by constructor. Qed.

Definition const_laws : Sha256Laws (H := sha_const).
Proof. by constructor. Qed.

Section verification.
Context `{SH : !Sha256, KP : !Keypair, UG : !UnicodeDigits}.
Implicit Types (s : SignedHeaders) (h : headers) (body : bytes) (delta now : Z).

(** A request that verifies. *)
Lemma verify_true h body delta now (expected : option pystr) :
  verify_signature h body delta now expected = Ok true ↔
  ∃ s, read_headers h = Some s ∧ envelope_ok s delta now (default [] expected) = true ∧
    message_ok (h_signed_by s) (h_signature s) (signed_message s body) = Ok true.
Proof.
  unfold verify_signature. destruct (read_headers h) as [s|].
  - destruct (envelope_ok s delta now (default [] expected)) eqn:He.
    + split; [by exists s|]. by intros (s' & [= <-] & _ & Hm).
    + split; [done|]. intros (s' & [= <-] & He' & _). congruence.
  - split; [done|]. by intros (s' & ? & _).
Qed.

Lemma envelope_true s delta now (expected : pystr) :
  envelope_ok s delta now expected = true ↔
  h_version s = EPISTULA_VERSION ∧ h_signed_by s ≠ [] ∧ h_uuid s ≠ [] ∧ 0 <= delta ∧
  (expected = [] ∨ h_signed_for s = expected) ∧ h_timestamp s - delta <= now <= h_timestamp s + delta.
Proof.
  unfold envelope_ok. rewrite !andb_true_iff, orb_true_iff, !negb_true_iff, !Z.ltb_ge, !bool_decide_eq_true,
    !bool_decide_eq_false. naive_solver lia.
Qed.

Lemma read_signed (ver uuid by_ for_ sig : pystr) (ts : Z) :
  0 <= ts < 2 ^ 4300 →
  read_headers (dict_lookup (dict_of EPISTULA_HEADERS [ver; str_of_int ts; uuid; by_; for_; sig])) =
  Some {| h_version := ver; h_signature := sig; h_timestamp := ts; h_uuid := uuid; h_signed_by := by_;
          h_signed_for := for_ |}.
Proof.
  intros Hts. set (d := dict_of _ _).
  assert (H1 : dict_lookup d (ustr "Epistula-Version") = Some ver) by reflexivity.
  assert (H2 : dict_lookup d (ustr "Epistula-Request-Signature") = Some sig) by reflexivity.
  assert (H3 : dict_lookup d (ustr "Epistula-Timestamp") = Some (str_of_int ts)) by reflexivity.
  assert (H4 : dict_lookup d (ustr "Epistula-Uuid") = Some uuid) by reflexivity.
  assert (H5 : dict_lookup d (ustr "Epistula-Signed-By") = Some by_) by reflexivity.
  assert (H6 : dict_lookup d (ustr "Epistula-Signed-For") = Some for_) by reflexivity.
  clearbody d. unfold read_headers. by rewrite H1, H2, H3, H4, H5, H6; simpl; rewrite int_text_str.
Qed.

(** A signer other parties can check: with the key stack, a real key that verifies what
    it signs; without it, any other name. *)
Definition authentic (hotkey : Hotkey) : Prop :=
  if have_crypto then
    looks_like_ss58 (keypair_address hotkey) = true ∧
    ∃ sign, signer_of hotkey = Some sign ∧
      ∀ m sig, sign m = Ok sig → keypair_verify (keypair_address hotkey) m sig = Ok true
  else looks_like_ss58 (keypair_address hotkey) = false.

Lemma hmac_self (signed_by m sig : pystr) : hmac_sign signed_by m = Ok sig → compare_digest sig sig = Ok true.
Proof.
  unfold hmac_sign. intros (k & _ & (t & _ & He)%bind_Ok)%bind_Ok.
  assert (Ha : forallb (λ c, (c <? 128)%N) sig = true).
  { injection He as <-. apply hexdigest_ascii. }
  unfold compare_digest. rewrite forallb_app, Ha. simpl. by rewrite bool_decide_eq_true_2.
Qed.

Lemma signed_accepted (hotkey : Hotkey) (m : pystr) (signature : pystr) :
  authentic hotkey →
  match signer_of hotkey with
  | Some sign => if have_crypto then s ← sign m; mret (ustr "0x" ++ hexdigest s)
                 else hmac_sign (keypair_address hotkey) m
  | None => hmac_sign (keypair_address hotkey) m
  end = Ok signature →
  message_ok (keypair_address hotkey) signature m = Ok true.
Proof.
  unfold authentic, message_ok. destruct have_crypto.
  - intros (-> & sign & -> & Hv). intros (sig & Hs & He)%bind_Ok.
    assert (signature = ustr "0x" ++ hexdigest sig) as -> by (by injection He).
    assert (Hp : startswith (ustr "0x") (ustr "0x" ++ hexdigest sig) = true).
    { apply startswith_spec. by eexists. }
    rewrite Hp. cbn [andb negb]. change (drop 2 (ustr "0x" ++ hexdigest sig)) with (hexdigest sig).
    rewrite from_hex_digest. cbn [mbind result_bind]. by rewrite (Hv _ _ Hs).
  - intros -> Hs. assert (Hh : hmac_sign (keypair_address hotkey) m = Ok signature) by (by destruct (signer_of hotkey)).
    rewrite Hh. cbn [mbind result_bind]. by eapply hmac_self.
Qed.
End verification.

(** ** The replay cache *)

Lemma drop_while_keeps {A} (p : A → bool) (l : list A) (x : A) :
  x ∈ l → x ∈ drop_while p l ∨ p x = true.
Proof.
  induction l as [|y l IH]; [by intros ?%not_elem_of_nil|]. simpl. intros [->|Hin]%elem_of_cons.
  - destruct (p y) eqn:Hp; [by right|]. left. by left.
  - destruct (p y); [by apply IH|]. left. by right.
Qed.

Lemma drop_while_suffix {A} (p : A → bool) (l : list A) : drop_while p l `suffix_of` l.
Proof. induction l as [|x l IH]; simpl; [done|]. destruct (p x); [by apply suffix_cons_r|done]. Qed.

(** What the cache guarantees about its own size and entries. *)
Record cache_ok (c : NonceCache) : Prop := {
  cache_size : zlen (seen c) <= max_nonces c;
  cache_distinct : NoDup (map fst (seen c))
}.

Lemma check_and_add_ok (c c' : NonceCache) (u : pystr) (now : Z) (b : bool) :
  check_and_add c u now = (b, c') → cache_ok c →
  cache_ok c' ∧ window_ms c' = window_ms c ∧ max_nonces c' = max_nonces c.
Proof.
  intros Hc [Hs Hd]. unfold check_and_add in Hc. case_bool_decide; [by injection Hc as _ <-|].
  set (p := prune c now) in Hc. assert (Hp : seen p `suffix_of` seen c) by apply drop_while_suffix.
  assert (Hok : cache_ok p).
  { destruct Hp as [k Hk]. constructor.
    - change (max_nonces p) with (max_nonces c). rewrite Hk in Hs. unfold zlen in *. rewrite length_app in Hs. lia.
    - rewrite Hk, map_app in Hd. by apply NoDup_app in Hd as (_ & _ & ?). }
  assert (Hw : window_ms p = window_ms c ∧ max_nonces p = max_nonces c) by done. clearbody p.
  case_bool_decide as Hin; [injection Hc as _ <-; done|].
  destruct (Z.leb_spec (max_nonces p) (zlen (seen p))); injection Hc as _ <-; [done|].
  split; [|done]. destruct Hok as [Hs' Hd']. constructor; cbn [seen with_seen max_nonces].
  - unfold zlen in *. rewrite length_app. cbn [length]. lia.
  - rewrite map_app. apply NoDup_app. split_and!; [done| |apply NoDup_singleton].
    intros x Hx [= ->]%list_elem_of_singleton. done.
Qed.

(** A nonce that was accepted stays for the window. *)
Definition held (c : NonceCache) (now : Z) (u : pystr) (t : Z) : Prop :=
  (u, t) ∈ seen c ∨ t < now - window_ms c.

Lemma check_and_add_holds (c c' : NonceCache) (u v : pystr) (t now now' : Z) (b : bool) :
  check_and_add c v now' = (b, c') → now <= now' → held c now u t → held c' now' u t.
Proof.
  intros Hc Hle Hh. assert (Hp : held (prune c now') now' u t).
  { destruct Hh as [Hin|Hlt]; [|right; simpl; lia].
    apply (drop_while_keeps (λ e : pystr * Z, e.2 <? now' - window_ms c)) in Hin as [Hin|Hlt%Z.ltb_lt]; [by left|].
    right. exact Hlt. }
  unfold check_and_add in Hc. case_bool_decide.
  { injection Hc as _ <-. destruct Hh as [?|?]; [by left|right; lia]. }
  case_bool_decide; [by injection Hc as _ <-|].
  destruct (_ <=? _); injection Hc as _ <-; [done|].
  destruct Hp as [Hp|Hp]; [left; simpl; apply elem_of_app; by left|by right].
Qed.

Lemma check_and_add_true (c c' : NonceCache) (u : pystr) (now : Z) :
  check_and_add c u now = (true, c') →
  (u, now) ∈ seen c' ∧ ∀ t, held c now u t → t < now - window_ms c.
Proof.
  intros Hc. unfold check_and_add in Hc. case_bool_decide; [done|].
  case_bool_decide as Hin; [done|]. destruct (_ <=? _); [done|]. injection Hc as <-. split.
  { simpl. apply elem_of_app. right. by left. }
  intros t [Ht|Ht]; [|done].
  apply (drop_while_keeps (λ e : pystr * Z, e.2 <? now - window_ms c)) in Ht as [Ht|Hlt%Z.ltb_lt]; [|done].
  destruct Hin. by apply (list_elem_of_fmap_2 fst) in Ht.
Qed.

(** ** A receiver *)

Section receiver.
Context `{SH : !Sha256, KP : !Keypair, UG : !UnicodeDigits}.
Context (delta : Z) (me : option pystr).

(** A request arrives: it is verified at one reading of the clock and its nonce is
    checked at another. *)
Record arrival := {
  ar_headers : headers;
  ar_body : bytes;
  ar_verified : Z;
  ar_checked : Z
}.

Definition uuid_of (h : headers) : pystr := default [] (h (ustr "Epistula-Uuid")).

Definition receive (c : NonceCache) (a : arrival) : bool * NonceCache :=
  match verify_signature (ar_headers a) (ar_body a) delta (ar_verified a) me with
  | Ok true => check_and_add c (uuid_of (ar_headers a)) (ar_checked a)
  | _ => (false, c)
  end.

(** Every arrival with the receiver's answer. *)
Fixpoint receive_all (c : NonceCache) (l : list arrival) : list (arrival * bool) :=
  match l with
  | [] => []
  | a :: l' => let '(b, c') := receive c a in (a, b) :: receive_all c' l'
  end.

(** The clock does not run backwards, from [now] on. *)
Fixpoint clock_ok (now : Z) (l : list arrival) : Prop :=
  match l with
  | [] => True
  | a :: l' => now <= ar_verified a ∧ ar_verified a <= ar_checked a ∧ clock_ok (ar_checked a) l'
  end.

(** The header values behind a successful reading. *)
Lemma read_headers_fields (h : headers) (s : SignedHeaders) :
  read_headers h = Some s →
  h (ustr "Epistula-Signed-By") = Some (h_signed_by s) ∧
  h (ustr "Epistula-Request-Signature") = Some (h_signature s) ∧ uuid_of h = h_uuid s.
Proof.
  unfold read_headers, uuid_of. rewrite !bind_Some.
  intros (v & _ & (sg & -> & (t & _ & (z & _ & (u & -> & (b & -> & [= <-])%bind_Some)%bind_Some)%bind_Some)%bind_Some)%bind_Some).
  done.
Qed.

Lemma receive_true (c c' : NonceCache) (a : arrival) :
  receive c a = (true, c') →
  ∃ s, read_headers (ar_headers a) = Some s ∧ uuid_of (ar_headers a) = h_uuid s ∧
    h_timestamp s - delta <= ar_verified a <= h_timestamp s + delta ∧
    check_and_add c (h_uuid s) (ar_checked a) = (true, c').
Proof.
  unfold receive. destruct (verify_signature _ _ _ _ _) as [[]|] eqn:Hv; [|done..].
  apply verify_true in Hv as (s & Hs & (_ & _ & _ & _ & _ & Ht)%envelope_true & _).
  apply read_headers_fields in Hs as Hu. destruct Hu as (_ & _ & Hu).
  rewrite Hu. intros Hc. by exists s.
Qed.

Lemma receive_all_member (l : list arrival) (c : NonceCache) (b : arrival) :
  (b, true) ∈ receive_all c l → ∃ cb cb', receive cb b = (true, cb').
Proof.
  revert c. induction l as [|a l IH]; intros c; simpl; [by intros ?%not_elem_of_nil|].
  destruct (receive c a) as [r c1] eqn:Hr. intros [[= -> <-]|Hin]%elem_of_cons; [by exists c, c1|by eapply IH].
Qed.

(** An accepted nonce is accepted again only after its window. *)
Lemma receive_all_holds (l : list arrival) (c : NonceCache) (now t : Z) (u : pystr) (b : arrival) :
  clock_ok now l → held c now u t → (b, true) ∈ receive_all c l → uuid_of (ar_headers b) = u →
  t < ar_checked b - window_ms c.
Proof.
  revert c now. induction l as [|a l IH]; intros c now Hclk Hh Hin Hu; [by apply not_elem_of_nil in Hin|].
  destruct Hclk as (Hv & Hc & Hclk). simpl in Hin. destruct (receive c a) as [r c1] eqn:Hr.
  assert (Hw : window_ms c1 = window_ms c).
  { unfold receive, check_and_add in Hr. repeat case_match; simplify_eq; done. }
  apply elem_of_cons in Hin as [[= <- <-]|Hin].
  - apply receive_true in Hr as (s & _ & Hs & _ & Hcheck). rewrite Hu in Hs. subst.
    apply check_and_add_true in Hcheck as [_ Hold]. apply Hold. destruct Hh; [by left|right; lia].
  - rewrite <-Hw. eapply (IH c1); [exact Hclk| |exact Hin|exact Hu].
    unfold receive in Hr. destruct (verify_signature _ _ _ _ _) as [[]|].
    { eapply check_and_add_holds; [exact Hr| |exact Hh]. lia. }
    all: injection Hr as _ <-; destruct Hh; [by left|right; lia].
Qed.
End receiver.

(** What the signer's headers say, and that they verify. *)
Lemma signed_headers `{SH : !Sha256, KP : !Keypair, UG : !UnicodeDigits} (hotkey : Hotkey) (body : bytes)
    (signed_for : option pystr) (timestamp : Z) (uuid : pystr) (hs : list (pystr * pystr)) :
  sign_message hotkey body signed_for timestamp uuid = Ok hs → 0 <= timestamp < 2 ^ 4300 →
  ∃ signature,
    hs = dict_of EPISTULA_HEADERS [EPISTULA_VERSION; str_of_int timestamp; uuid; keypair_address hotkey;
                                   default [] signed_for; signature] ∧
    read_headers (dict_lookup hs) =
      Some {| h_version := EPISTULA_VERSION; h_signature := signature; h_timestamp := timestamp; h_uuid := uuid;
              h_signed_by := keypair_address hotkey; h_signed_for := default [] signed_for |} ∧
    (authentic hotkey →
     message_ok (keypair_address hotkey) signature
       (signing_message (body_hash body) uuid timestamp (default [] signed_for)) = Ok true).
Proof.
  unfold sign_message. intros (signature & Hs & [= <-])%bind_Ok Hts. exists signature.
  split; [done|]. split; [by apply read_signed|]. intros Ha. by apply signed_accepted.
Qed.

Lemma signed_verifies `{SH : !Sha256, KP : !Keypair, UG : !UnicodeDigits} (hotkey : Hotkey) (body : bytes)
    (signed_for expected : option pystr) (timestamp delta now : Z) (uuid : pystr)
    (hs : list (pystr * pystr)) :
  sign_message hotkey body signed_for timestamp uuid = Ok hs →
  authentic hotkey → keypair_address hotkey ≠ [] → uuid ≠ [] → 0 <= timestamp < 2 ^ 4300 →
  (default [] expected = [] ∨ default [] expected = default [] signed_for) →
  timestamp - delta <= now <= timestamp + delta →
  verify_signature (dict_lookup hs) body delta now expected = Ok true.
Proof.
  intros Hsign Hauth Hby Hu Hts Hfor Hnow.
  destruct (signed_headers _ _ _ _ _ _ Hsign Hts) as (signature & _ & Hread & Hok).
  apply verify_true. eexists. split; [exact Hread|]. split; [|by apply Hok].
  apply envelope_true. cbn [h_version h_signed_by h_uuid h_signed_for h_timestamp].
  split_and!; try done; [lia|naive_solver|lia..].
Qed.

(** (roundtrip): what a signer signs verifies at any receiver it was signed for,
    within the clock skew: with the key stack when the signer's key is a real one that
    verifies what it signs, without it when its name does not look like a real key. *)
Theorem sign_verify `{SH : !Sha256, KP : !Keypair, UG : !UnicodeDigits} (hotkey : Hotkey) (body : bytes)
    (signed_for expected : option pystr) (timestamp delta now : Z) (uuid : pystr)
    (hs : list (pystr * pystr)) :
  sign_message hotkey body signed_for timestamp uuid = Ok hs →
  authentic hotkey → keypair_address hotkey ≠ [] → uuid ≠ [] → 0 <= timestamp < 2 ^ 4300 →
  (default [] expected = [] ∨ default [] expected = default [] signed_for) →
  timestamp - delta <= now <= timestamp + delta →
  verify_signature (dict_lookup hs) body delta now expected = Ok true.
Proof. apply signed_verifies. Qed.

(** (safety): a signature vouches for one request.  If a receiver accepts two requests
    from the same signer with the same signature, then they have the same body, the
    same UUID and the same timestamp, so a replayed signature carries its nonce with
    it.  This holds as far as one signature verifies for one message only and SHA-256
    does not collide on the two bodies; the receiver's name has no dot. *)
Theorem signature_binds `{SH : !Sha256, KP : !Keypair, UG : !UnicodeDigits} (h h' : headers)
    (body body' : bytes) (delta now delta' now' : Z) (me : pystr) :
  verify_signature h body delta now (Some me) = Ok true →
  verify_signature h' body' delta' now' (Some me) = Ok true →
  me ≠ [] → 46%N ∉ me →
  h (ustr "Epistula-Signed-By") = h' (ustr "Epistula-Signed-By") →
  h (ustr "Epistula-Request-Signature") = h' (ustr "Epistula-Request-Signature") →
  (∀ by_ sig m m', message_ok by_ sig m = Ok true → message_ok by_ sig m' = Ok true → m = m') →
  (sha256 body = sha256 body' → body = body') →
  body = body' ∧ uuid_of h = uuid_of h' ∧
  ∃ s s', read_headers h = Some s ∧ read_headers h' = Some s' ∧ h_timestamp s = h_timestamp s'.
Proof.
  intros (s & Hs & He & Hm)%verify_true (s' & Hs' & He' & Hm')%verify_true Hme Hdot Hby Hsig Hone Hsha.
  apply envelope_true in He as (_ & _ & _ & _ & [?|Hf] & _); [done|].
  apply envelope_true in He' as (_ & _ & _ & _ & [?|Hf'] & _); [done|].
  destruct (read_headers_fields h s Hs) as (B1 & B2 & B3), (read_headers_fields h' s' Hs') as (B1' & B2' & B3').
  rewrite B1, B1' in Hby. rewrite B2, B2' in Hsig. injection Hby as Hby. injection Hsig as Hsig.
  rewrite <-Hby, <-Hsig in Hm'.
  assert (Heq := Hone _ _ _ _ Hm Hm'). unfold signed_message, body_hash in Heq. simpl in Hf, Hf'.
  rewrite Hf, Hf' in Heq. apply signing_message_inj in Heq as (Hb & Hu & Ht & _); [|done..].
  split; [by apply Hsha|]. split; [congruence|]. by exists s, s'.
Qed.

(** C10 (safety, replays): whatever came before, a receiver that accepted a request
    accepts a copy of it (the same headers, with any body) later only if its nonce
    window is too short for the skew it allows: less than twice the skew, plus the time
    that passed between verifying the copy and checking its nonce. *)
Theorem no_replay `{SH : !Sha256, KP : !Keypair, UG : !UnicodeDigits} (delta : Z) (me : option pystr)
    (c c' : NonceCache) (a b : arrival) (later : list arrival) :
  receive delta me c a = (true, c') → ar_verified a <= ar_checked a →
  clock_ok (ar_checked a) later → (b, true) ∈ receive_all delta me c' later →
  read_headers (ar_headers b) = read_headers (ar_headers a) →
  window_ms c < 2 * delta + (ar_checked b - ar_verified b).
Proof.
  intros Ha Hle Hclk Hb Hsame.
  apply receive_true in Ha as (s & Hs & Hu & Ht & Hc).
  assert (Hw : window_ms c' = window_ms c) by (unfold check_and_add in Hc; repeat case_match; simplify_eq; done).
  apply check_and_add_true in Hc as [Hin _].
  destruct (receive_all_member _ _ _ _ _ Hb) as (cb & cb' & Hrb).
  apply receive_true in Hrb as (s' & Hs' & Hu' & Ht' & _).
  assert (Hss : s' = s) by congruence. rewrite Hss in Hu', Ht'.
  pose proof (receive_all_holds _ _ _ _ _ (ar_checked a) (h_uuid s) _ Hclk (or_introl Hin) Hb Hu') as Hold.
  rewrite Hw in Hold. lia.
Qed.

(** (safety, replays): the window of the source is that short.  A request whose
    timestamp is ahead of the receiver's clock, as the 8 seconds of allowed skew
    permit, is accepted by a fresh cache with a window of 8 seconds, and the very same
    request is accepted again once 8 seconds have passed, for as long as its timestamp
    is still fresh. *)
Theorem replay_accepted `{SH : !Sha256, KP : !Keypair, UG : !UnicodeDigits} (h : headers) (body : bytes)
    (s : SignedHeaders) (me : option pystr) (now later max_entries : Z) :
  read_headers h = Some s →
  verify_signature h body ALLOWED_DELTA_MS now me = Ok true →
  now + ALLOWED_DELTA_MS < later <= h_timestamp s + ALLOWED_DELTA_MS →
  let arrives t := {| ar_headers := h; ar_body := body; ar_verified := t; ar_checked := t |} in
  map snd (receive_all ALLOWED_DELTA_MS me (NonceCache_init ALLOWED_DELTA_MS max_entries)
             [arrives now; arrives later]) = [true; true].
Proof.
  intros Hs Hv Hl arrives.
  assert (Hv' : verify_signature h body ALLOWED_DELTA_MS later me = Ok true).
  { apply verify_true in Hv as (s' & Hs' & He & Hm). apply verify_true. exists s'. split; [done|].
    split; [|done]. apply envelope_true in He as (? & ? & ? & ? & ? & ?). apply envelope_true.
    assert (s' = s) as -> by congruence. split_and!; try done; unfold ALLOWED_DELTA_MS in *; lia. }
  assert (Hu : uuid_of h ≠ []).
  { apply verify_true in Hv as (s' & Hs' & (_ & _ & Hu & _)%envelope_true & _).
    apply read_headers_fields in Hs' as (_ & _ & ->). done. }
  assert (Hadd : ∀ t old, drop_while (λ e : pystr * Z, e.2 <? t - ALLOWED_DELTA_MS) old = [] →
    check_and_add {| window_ms := ALLOWED_DELTA_MS; max_nonces := Z.max 1 max_entries; seen := old |} (uuid_of h) t
    = (true, {| window_ms := ALLOWED_DELTA_MS; max_nonces := Z.max 1 max_entries; seen := [(uuid_of h, t)] |})).
  { intros t old Hold. unfold check_and_add, prune, with_seen. cbn [window_ms max_nonces seen].
    rewrite Hold. rewrite !bool_decide_eq_false_2 by (done || apply not_elem_of_nil).
    change (zlen (@nil (pystr * Z))) with 0. by rewrite (proj2 (Z.leb_gt _ _)) by lia. }
  cbn [receive_all]. unfold receive at 1. cbn [ar_headers ar_body ar_verified ar_checked arrives].
  rewrite Hv. unfold NonceCache_init. change (Z.max 0 ALLOWED_DELTA_MS) with ALLOWED_DELTA_MS.
  rewrite Hadd by done. unfold receive. cbn [ar_headers ar_body ar_verified ar_checked arrives].
  rewrite Hv', Hadd; [done|]. cbn [drop_while snd]. by rewrite (proj2 (Z.ltb_lt _ _)) by lia.
Qed.

(** ** Witnesses: no key stack, a signer with an opaque name *)

Definition no_keypair : Keypair :=
  {| have_crypto := false; keypair_verify := λ _ _ _, Ok false |}.

(** A key stack in which a signature is the message itself. *)
Definition echo_keypair : Keypair :=
  {| have_crypto := true; keypair_verify := λ _ m sig, match utf8_encode m with Ok text => Ok (bool_decide (text = sig)) | Raise e => Raise e end |}.

Definition no_digits : UnicodeDigits := {| py_decimal := λ _, None |}.

Definition validator_key : pystr := ustr "5FHneW46xGXgs5mUiveU4sbTyGBzmstUspZC92UhjJM694ty".

Definition sample_signed (timestamp : Z) : list (pystr * pystr) :=
  match sign_message (H := sha_const) (H0 := no_keypair) (HotkeyName (ustr "val")) (bstr "{}")
          (Some (ustr "me")) timestamp (ustr "u1") with
  | Ok hs => hs
  | Raise _ => []
  end.

Lemma sign_verify_witness :
  verify_signature (H := sha_const) (H0 := no_keypair) (H1 := no_digits) (dict_lookup (sample_signed 20000))
    (bstr "{}") 8000 13000 (Some (ustr "me")) = Ok true.
Proof.
  apply (sign_verify (SH := sha_const) (KP := no_keypair) (UG := no_digits) (HotkeyName (ustr "val"))
    (bstr "{}") (Some (ustr "me")) (Some (ustr "me")) 20000 8000 13000 (ustr "u1")).
  - vm_compute. reflexivity.
  - vm_compute. reflexivity.
  - discriminate.
  - discriminate.
  - split; [lia|vm_compute; reflexivity].
  - right. reflexivity.
  - lia.
Defined.

Lemma replay_accepted_witness :
  map snd (receive_all (SH := sha_const) (KP := no_keypair) (UG := no_digits) 8000 (Some (ustr "me"))
    (NonceCache_init 8000 100000)
    [{| ar_headers := dict_lookup (sample_signed 20000); ar_body := bstr "{}"; ar_verified := 13000;
        ar_checked := 13000 |};
     {| ar_headers := dict_lookup (sample_signed 20000); ar_body := bstr "{}"; ar_verified := 27000;
        ar_checked := 27000 |}]) = [true; true].
Proof.
  eapply (replay_accepted (SH := sha_const) (KP := no_keypair) (UG := no_digits)
    (dict_lookup (sample_signed 20000)) (bstr "{}") _ (Some (ustr "me")) 13000 27000).
  - vm_compute. reflexivity.
  - vm_compute. reflexivity.
  - vm_compute. split; [reflexivity|discriminate].
Defined.

Definition arrives_at (t : Z) : arrival :=
  {| ar_headers := dict_lookup (sample_signed 20000); ar_body := bstr "{}"; ar_verified := t; ar_checked := t |}.

Definition first_seen : NonceCache := {| window_ms := 8000; max_nonces := 100000; seen := [(ustr "u1", 13000)] |}.

Lemma no_replay_witness : 8000 < 2 * 8000 + (27000 - 27000).
Proof.
  apply (no_replay (SH := sha_const) (KP := no_keypair) (UG := no_digits) 8000 (Some (ustr "me"))
    (NonceCache_init 8000 100000) first_seen (arrives_at 13000) (arrives_at 27000) [arrives_at 27000]).
  - vm_compute. reflexivity.
  - simpl. lia.
  - simpl. lia.
  - left.
  - reflexivity.
Defined.

(** A key whose signature is the message. *)
Definition echo_key : Hotkey := HotkeyObject None validator_key [] (Some utf8_encode).

Definition echo_signed : list (pystr * pystr) :=
  match sign_message (H := sha_id) (H0 := echo_keypair) echo_key (bstr "{}") (Some (ustr "me")) 20000 (ustr "u1") with
  | Ok hs => hs
  | Raise _ => []
  end.

Lemma echo_one (by_ sig m m' : pystr) :
  message_ok (H := sha_id) (H0 := echo_keypair) by_ sig m = Ok true →
  message_ok (H := sha_id) (H0 := echo_keypair) by_ sig m' = Ok true → m = m'.
Proof.
  unfold message_ok. destruct (looks_like_ss58 by_); [|done]. destruct (negb _); [done|].
  destruct (from_hex (drop 2 sig)) as [s|]; [|done]. cbn [mbind result_bind keypair_verify echo_keypair].
  destruct (utf8_encode m) as [b|] eqn:Hb; [|done]. destruct (utf8_encode m') as [b'|] eqn:Hb'; [|done].
  cbn [mret result_ret]. intros [= ->%bool_decide_eq_true] [= ->%bool_decide_eq_true]. by eapply utf8_encode_inj.
Qed.

Lemma signature_binds_witness :
  bstr "{}" = bstr "{}" ∧ uuid_of (dict_lookup echo_signed) = uuid_of (dict_lookup echo_signed).
Proof.
  destruct (signature_binds (SH := sha_id) (KP := echo_keypair) (UG := no_digits) (dict_lookup echo_signed)
    (dict_lookup echo_signed) (bstr "{}") (bstr "{}") 8000 13000 8000 14000 (ustr "me")) as (Hb & Hu & _).
  - vm_compute. reflexivity.
  - vm_compute. reflexivity.
  - discriminate.
  - vm_compute. intros H. repeat (apply elem_of_cons in H as [H|H]; [discriminate H|]). by apply not_elem_of_nil in H.
  - reflexivity.
  - reflexivity.
  - exact echo_one.
  - intros H. reflexivity.
  - split; [exact Hb|exact Hu].
Defined.
