(* ===== verification/Live.v ===== *)
(** * Dispatching a task to a miner ([src/rlvr/neurons/live.py])

    [solve_v3] is one dispatch.  What it finds (signing time and UUID, clocks, the HTTP
    exchange, and which of exchange, send budget and deadline comes first) is a
    [DispatchEnv].  The slot of the send gate is followed by the number of times the
    dispatch calls [release] on its permit, and the gate itself is a state machine.
    pydantic's JSON is the class [MinerJson].

    [solve_v3_typed], [answer_authentic]: what a dispatch returns.  [gate_conserved]:
    no slot of the gate is lost or given twice. *)

From S2P Require Import Prelude PyFloat Text Json JsonSpec Canonical CanonicalSpec Wire Identity Codecs Api ApiSpec Protocol ProtocolSpec ProblemClient FileSystem Archive ArchiveSpec Workspace Download Supervisor Manifest Feedback Patch Grading GradingSpec EvalEngine EvalEngineSpec Round EvaluateRound EvaluateRoundSpec.

Local Open Scope Z_scope.

Class MinerJson := {
  dump_task : MinerTaskRequest → pystr;            (* task.model_dump_json() *)
  read_response : bytes → result MinerTaskResponse (* MinerTaskResponse.model_validate_json *)
}.

(** ** The send gate *)

(** A permit is its index, with the flag [_released]. *)
Record SendGate := {
  gate_capacity : Z;
  gate_available : Z;
  gate_released : list bool
}.

Definition SendGate_init (capacity : Z) : result SendGate :=
  raise_if (capacity <? 1) ValueError "send gate capacity must be a positive integer";;
  mret {| gate_capacity := capacity; gate_available := capacity; gate_released := [] |}.

(** [None]: no slot is free and the caller waits. *)
Definition gate_acquire (g : SendGate) : option SendGate :=
  if 0 <? gate_available g then
    Some {| gate_capacity := gate_capacity g; gate_available := gate_available g - 1;
            gate_released := gate_released g ++ [false] |}
  else None.

(** A [BoundedSemaphore] refuses to be released beyond its bound. *)
Definition gate_release (g : SendGate) (permit : nat) : result SendGate :=
  match gate_released g !! permit with
  | Some false =>
      raise_if (gate_capacity g <=? gate_available g) ValueError
        "BoundedSemaphore released too many times";;
      mret {| gate_capacity := gate_capacity g; gate_available := gate_available g + 1;
              gate_released := <[permit := true]> (gate_released g) |}
  | _ => mret g
  end.

(** ** Responses *)

Record MinerReply := {
  reply_status : Z;
  reply_header : headers;
  reply_chunks : list bytes;
  reply_error : option exn   (* raised after the chunks *)
}.

(** The loop over the chunks. *)
Fixpoint read_reply (limit : Z) (body : bytes) (chunks : list bytes) (error : option exn) : result (option bytes) :=
  match chunks with
  | [] => match error with Some e => Raise e | None => Ok (Some body) end
  | chunk :: chunks' =>
      let body := body ++ chunk in
      if limit <? zlen body then Ok None else read_reply limit body chunks' error
  end.

Definition read_bounded_response `{!UnicodeDigits} (r : MinerReply) (limit : Z) : result (option bytes) :=
  let read := read_reply limit [] (reply_chunks r) (reply_error r) in
  match reply_header r (ustr "content-length") with
  | None | Some [] => read
  | Some declared =>
      match int_text declared with
      | Ok n => if (n <? 0) || (limit <? n) then Ok None else read
      | Raise _ => Ok None
      end
  end.

(** ** One dispatch *)

Inductive Race := Answered | AnswerTimedOut | NotSent.

Record DispatchEnv := {
  de_sign_time : Z;
  de_sign_uuid : pystr;
  de_clock : float;
  de_exchange : result MinerReply;
  de_verify_time : Z;
  de_race : Race;
  de_streamed : bool;      (* the request iterator was started *)
  de_elapsed : Z           (* milliseconds since the start, at the end *)
}.

Record LiveSolverClient := {
  lc_uid : Z;
  lc_hotkey : pystr;
  lc_wallet : Hotkey
}.

Definition SOLVE_DEADLINE_GRACE_S : float := float_of_int 10.
Definition COMMIT_RESERVE_S : float := float_of_int 30.

Definition elapsed_ms (elapsed : Z) : Z := Z.min (2 ^ 53 - 1) (Z.max 0 elapsed).

(** The longest prefix that is UTF-8, dropping bytes from the end. *)
Fixpoint longest_text (n : nat) (raw : bytes) : option pystr :=
  match n with
  | O => None
  | S n' =>
      match utf8_decode (take n raw) with
      | Ok s => Some s
      | Raise _ => longest_text n' raw
      end
  end.

Definition bounded_error (value : pystr) : pystr :=
  let raw := take 4096 (encode_replace value) in
  default (ustr "miner request failed") (longest_text (length raw) raw).

Section dispatch.
Context `{!UnicodeData, !Sha256, !Keypair, !UnicodeDigits, !MinerJson}.
Context (client : LiveSolverClient) (env : DispatchEnv) (task : MinerTaskRequest).

Abbreviation answer := (MinerSubmission * option MinerTaskResponse)%type.

Definition failed (request_id message : pystr) : result answer :=
  let error := bounded_error message in
  s ← MinerSubmission_validate
        {| ms_uid := lc_uid client; ms_hotkey := lc_hotkey client; ms_request_id := request_id;
           ms_response_body := []; ms_response_headers := [];
           ms_error := if bool_decide (error = []) then ustr "miner request failed" else error;
           ms_latency_ms := elapsed_ms (de_elapsed env) |};
  mret (s, None).

(** The answer of the miner, once it was read. *)
Definition accept_answer (request_id signed_by : pystr) (reply_headers : list (pystr * pystr)) (body : bytes)
    : result answer :=
  authentic ←
    (if bool_decide (dict_lookup reply_headers (ustr "Epistula-Signed-By") = Some (lc_hotkey client))
     then verify_signature (dict_lookup reply_headers) body ALLOWED_DELTA_MS (de_verify_time env) (Some signed_by)
     else mret false);
  if negb authentic then failed request_id (ustr "invalid or unauthenticated miner response")
  else
    match (text ← utf8_decode body;
           parsed ← read_response body;
           validate_miner_response task parsed;;
           mret (text, parsed)) with
    | Raise e => if is_value_error (exn_cls e) then failed request_id (ustr "invalid V3 miner response") else Raise e
    | Ok (text, parsed) =>
        s ← MinerSubmission_validate
              {| ms_uid := lc_uid client; ms_hotkey := lc_hotkey client; ms_request_id := request_id;
                 ms_response_body := text; ms_response_headers := reply_headers; ms_error := [];
                 ms_latency_ms := elapsed_ms (de_elapsed env) |};
        mret (s, Some parsed)
    end.

(** The headers that are kept of a reply. *)
Definition kept_headers (r : MinerReply) : list (pystr * pystr) :=
  map (λ name, (name, default [] (reply_header r name))) EPISTULA_HEADERS.

Definition exchange (request_id signed_by : pystr) : result answer :=
  match (reply ← de_exchange env;
         if (reply_status reply <? 200) || (300 <=? reply_status reply) then
           detail ← read_bounded_response reply 512;
           let rendered := match detail with Some d => decode_replace d | None => [] end in
           failed request_id (ustr "HTTP " ++ str_of_int (reply_status reply) ++ ustr ": " ++ rendered)
         else
           body ← read_bounded_response reply 16384;
           match body with
           | None => failed request_id (ustr "miner response exceeds byte limit")
           | Some body => accept_answer request_id signed_by (kept_headers reply) body
           end) with
  | Ok a => Ok a
  | Raise e => failed request_id (ustr "dispatch failed: " ++ exn_msg e)
  end.

Definition lease_budget : float :=
  fsub (fsub (fsub (float_of_int (t_expires_at task)) (de_clock env)) SOLVE_DEADLINE_GRACE_S) COMMIT_RESERVE_S.

(** Everything after the slot was acquired; the second component counts the calls of
    [permit.release]. *)
Definition dispatch (request_id : pystr) (body : bytes) : result answer * nat :=
  match sign_message (lc_wallet client) body (Some (lc_hotkey client)) (de_sign_time env) (de_sign_uuid env) with
  | Raise e => (failed request_id (ustr "dispatch signing failed: " ++ exn_msg e), 1%nat)
  | Ok _ =>
      if fleb lease_budget f0 then (failed request_id (ustr "lease too short to dispatch"), 1%nat)
      else
        (match de_race env with
         | Answered => exchange request_id (keypair_address (lc_wallet client))
         | AnswerTimedOut => failed request_id (ustr "miner response exceeded the solve deadline")
         | NotSent =>
             failed request_id (ustr "request body did not reach transport before signature deadline")
         end, if de_streamed env then 2%nat else 1%nat)
  end.

(** [None] for the releases when the slot was never asked for. *)
Definition solve_v3 : result answer * option nat :=
  let slot := submission (t_slots task) in
  match (raise_if (negb (s_uid slot =? lc_uid client) || negb (bool_decide (s_hotkey slot = lc_hotkey client)))
           ValueError "V3 task slots do not match the target miner";;
         request_id ← derive_miner_request_id (t_challenge_id task) (lc_uid client) (lc_hotkey client);
         body ← utf8_encode (dump_task task);
         mret (request_id, body)) with
  | Raise e => (Raise e, None)
  | Ok (request_id, body) => let '(r, releases) := dispatch request_id body in (r, Some releases)
  end.
End dispatch.

(** ** The gate never loses a slot *)

(** What may happen to a gate, in any interleaving of the dispatches that share it:
    one acquires a slot, or one calls [release] on its permit, maybe again. *)
Inductive gate_event := Acquire | Release (permit : nat).

Inductive gate_steps : SendGate → list gate_event → SendGate → Prop :=
  | gate_done g : gate_steps g [] g
  | gate_step_acquire g g1 g2 evs :
      gate_acquire g = Some g1 → gate_steps g1 evs g2 → gate_steps g (Acquire :: evs) g2
  | gate_step_release g g1 g2 (i : nat) evs :
      gate_release g i = Ok g1 → gate_steps g1 evs g2 → gate_steps g (Release i :: evs) g2.

(** The slots that are out. *)
Definition outstanding (g : SendGate) : Z := zlen (filter (λ b, b = false) (gate_released g)).

Definition gate_sound (g : SendGate) : Prop :=
  gate_available g + outstanding g = gate_capacity g ∧ 0 <= gate_available g.

Lemma acquire_sound (g g' : SendGate) :
  gate_acquire g = Some g' → gate_sound g → gate_sound g' ∧ gate_capacity g' = gate_capacity g.
Proof.
  unfold gate_acquire, gate_sound, outstanding. destruct (Z.ltb_spec 0 (gate_available g)); [|done].
  intros [= <-] [Hs Hn]. cbn [gate_available gate_released gate_capacity].
  rewrite filter_app. unfold zlen in *. rewrite length_app.
  change (length (filter (λ b, b = false) [false])) with 1%nat. split; [|done]. lia.
Qed.

Lemma release_sound (g : SendGate) (i : nat) :
  gate_sound g → ∃ g', gate_release g i = Ok g' ∧ gate_sound g' ∧ gate_capacity g' = gate_capacity g ∧
    gate_released g' !! i ≠ Some false.
Proof.
  unfold gate_release. destruct (gate_released g !! i) as [[]|] eqn:Hi; [eexists; by rewrite Hi| |eexists; by rewrite Hi].
  intros [Hs Hn]. destruct (list_elem_of_split_length _ _ _ Hi) as (l & k & Hl & ->).
  unfold gate_sound, outstanding in *. rewrite Hl in *. rewrite filter_app in Hs.
  rewrite filter_cons_True in Hs by done. unfold zlen in *. rewrite length_app in Hs. simpl in Hs.
  rewrite (proj2 (Z.leb_gt _ _)) by lia. cbn [raise_if mbind result_bind].
  eexists. split; [done|]. cbn [gate_available gate_released gate_capacity].
  rewrite insert_app_r_alt by lia. rewrite Nat.sub_diag. simpl. split_and!; [|lia|done|].
  - rewrite filter_app, filter_cons_False, length_app by done. lia.
  - rewrite lookup_app_r by lia. by rewrite Nat.sub_diag.
Qed.

(** ** Bounded errors *)

Lemma longest_text_Some (n : nat) (raw : bytes) (s : pystr) :
  longest_text n raw = Some s → ∃ k, (1 ≤ k ≤ n)%nat ∧ utf8_decode (take k raw) = Ok s.
Proof.
  induction n as [|n IH]; [done|]. cbn [longest_text].
  destruct (utf8_decode (take (S n) raw)) as [t|] eqn:Hd.
  - intros [= ->]. exists (S n). split; [lia|done].
  - intros (k & Hk & Hs)%IH. exists k. split; [lia|done].
Qed.

Lemma bounded_error_size (message : pystr) : is_ok (utf8_size (bounded_error message) 4096) = true.
Proof.
  unfold bounded_error. destruct (longest_text _ _) as [s|] eqn:Hs; [|by vm_compute].
  apply longest_text_Some in Hs as (k & _ & Hd%utf8_encode_decode). simpl.
  unfold utf8_size. rewrite Hd. cbn [mbind result_bind].
  rewrite (proj2 (Z.ltb_ge _ _)); [done|]. unfold zlen. rewrite !length_take. lia.
Qed.

(** ** What a dispatch returns *)

Section results.
Context `{UD : !UnicodeData, SH : !Sha256, KP : !Keypair, UG : !UnicodeDigits, MJ : !MinerJson,
  UL : !UnicodeLaws, SL : !Sha256Laws}.
Implicit Types (client : LiveSolverClient) (env : DispatchEnv) (task : MinerTaskRequest).

(** A client whose failures can be reported. *)
Definition client_ok client (request_id : pystr) : Prop :=
  UID (lc_uid client) = true ∧ BoundedIdentifier (lc_hotkey client) = true ∧
  BoundedIdentifier request_id = true.

(** A dispatch that produced [s] and [parsed]. *)
Definition well_typed client (request_id : pystr) (s : MinerSubmission) (parsed : option MinerTaskResponse) : Prop :=
  MinerSubmission_validate s = Ok s ∧ ms_uid s = lc_uid client ∧ ms_hotkey s = lc_hotkey client ∧
  ms_request_id s = request_id ∧ (parsed = None ↔ ms_error s ≠ []).

Lemma elapsed_ok (z : Z) : BoundedSize (elapsed_ms z) = true.
Proof.
  unfold BoundedSize, elapsed_ms, SAFE_INTEGER_MAX. rewrite andb_true_iff, !Z.leb_le. lia.
Qed.

Lemma failed_typed client env (request_id message : pystr) :
  client_ok client request_id →
  ∃ s, failed client env request_id message = Ok (s, None) ∧ well_typed client request_id s None.
Proof.
  intros (Hu & Hh & Hr). unfold failed.
  set (e := if bool_decide (bounded_error message = []) then _ else _).
  assert (He : e ≠ [] ∧ is_ok (utf8_size e 4096) = true).
  { unfold e. case_bool_decide; [by vm_compute|]. split; [done|apply bounded_error_size]. }
  clearbody e. destruct He as [Hne He]. set (s := {| ms_uid := _ |}).
  assert (Hv : MinerSubmission_validate s = Ok s).
  { apply model_validate_Ok. split_and!; [| |done].
    - unfold MinerSubmission_fields. cbn [ms_uid ms_hotkey ms_request_id ms_response_body ms_error
        ms_response_headers ms_latency_ms s forallb]. by rewrite Hu, Hh, Hr, He, elapsed_ok.
    - unfold validate_response_shape. cbn [ms_response_body ms_error ms_response_headers s].
      rewrite !bool_decide_eq_true_2, bool_decide_eq_false_2 by done. done. }
  exists s. rewrite Hv. split; [done|]. by split_and!.
Qed.

(** An answer that is a response came from the miner and fits the task. *)
Definition authentic_answer client env task (signed_by : pystr) (s : MinerSubmission) (r : MinerTaskResponse) : Prop :=
  ∃ body : bytes,
    utf8_decode body = Ok (ms_response_body s) ∧ read_response body = Ok r ∧
    validate_miner_response task r = Ok () ∧ zlen body <= 16384 ∧
    dict_lookup (ms_response_headers s) (ustr "Epistula-Signed-By") = Some (lc_hotkey client) ∧
    verify_signature (dict_lookup (ms_response_headers s)) body ALLOWED_DELTA_MS (de_verify_time env)
      (Some signed_by) = Ok true.

Definition good_result client env task (request_id signed_by : pystr)
    (a : MinerSubmission * option MinerTaskResponse) : Prop :=
  well_typed client request_id a.1 a.2 ∧
  match a.2 with Some r => authentic_answer client env task signed_by a.1 r | None => True end.

Lemma failed_good client env task (request_id signed_by message : pystr) :
  client_ok client request_id →
  ∃ a, failed client env request_id message = Ok a ∧ good_result client env task request_id signed_by a.
Proof. intros (s & Hs & Hw)%(failed_typed client env request_id message). by exists (s, None). Qed.

Lemma accept_good client env task (request_id signed_by : pystr) (hs : list (pystr * pystr)) (body : bytes)
    (a : MinerSubmission * option MinerTaskResponse) :
  client_ok client request_id → zlen body <= 16384 →
  accept_answer client env task request_id signed_by hs body = Ok a →
  good_result client env task request_id signed_by a.
Proof.
  intros Hc Hb. unfold accept_answer. intros (auth & Hauth & Ha)%bind_Ok.
  assert (Hfail : ∀ m, failed client env request_id m = Ok a → good_result client env task request_id signed_by a).
  { intros m Hm. destruct (failed_good client env task request_id signed_by m Hc) as (a' & Ha' & Hg). congruence. }
  destruct auth; cbn [negb] in Ha; [|by eapply Hfail].
  case_bool_decide as Hby; [|done].
  destruct (utf8_decode body ≫= _) as [[text parsed]|e] eqn:Hp.
  2:{ destruct (is_value_error (exn_cls e)); [by eapply Hfail|done]. }
  apply bind_Ok in Hp as (t & Ht & (r & Hr & [Hval [= -> ->]]%seq_Ok)%bind_Ok).
  apply bind_Ok in Ha as (s & Hs & [= <-]). pose proof Hs as (_ & _ & ->)%model_validate_Ok.
  split; cbn [fst snd]; [|by exists body; split_and!]. by split_and!.
Qed.

Lemma read_reply_size (limit : Z) (body : bytes) (chunks : list bytes) (e : option exn) (b : bytes) :
  zlen body <= limit → read_reply limit body chunks e = Ok (Some b) → zlen b <= limit.
Proof.
  revert body. induction chunks as [|c chunks IH]; intros body Hb; cbn [read_reply].
  - destruct e; [done|]. by intros [= <-].
  - destruct (Z.ltb_spec limit (zlen (body ++ c))); [done|]. by apply IH.
Qed.

Lemma read_bounded_size (r : MinerReply) (limit : Z) (b : bytes) :
  0 <= limit → read_bounded_response r limit = Ok (Some b) → zlen b <= limit.
Proof.
  intros Hl. assert (Hz : zlen (@nil ascii) <= limit) by done. unfold read_bounded_response.
  destruct (reply_header r _) as [[|c d]|]; [by apply read_reply_size| |by apply read_reply_size].
  destruct (int_text (c :: d)) as [n|]; [|done]. destruct (_ || _); [done|]. by apply read_reply_size.
Qed.

Lemma exchange_good client env task (request_id signed_by : pystr) :
  client_ok client request_id →
  ∃ a, exchange client env task request_id signed_by = Ok a ∧ good_result client env task request_id signed_by a.
Proof.
  intros Hc. unfold exchange. destruct (de_exchange env ≫= _) as [a|e] eqn:Hx; [|by apply failed_good].
  exists a. split; [done|]. apply bind_Ok in Hx as (reply & _ & Hx).
  assert (Hfail : ∀ m, failed client env request_id m = Ok a → good_result client env task request_id signed_by a).
  { intros m Hm. destruct (failed_good client env task request_id signed_by m Hc) as (a' & Ha' & Hg). congruence. }
  destruct (_ || _); [apply bind_Ok in Hx as (d & _ & Hx); by eapply Hfail|].
  apply bind_Ok in Hx as ([body|] & Hbody & Hx); [|by eapply Hfail].
  eapply accept_good; [done| |exact Hx]. by eapply read_bounded_size in Hbody.
Qed.

Lemma valid_task_client client task (request_id : pystr) :
  MinerTaskRequest_validate task = Ok task →
  s_uid (submission (t_slots task)) = lc_uid client →
  s_hotkey (submission (t_slots task)) = lc_hotkey client →
  derive_miner_request_id (t_challenge_id task) (lc_uid client) (lc_hotkey client) = Ok request_id →
  client_ok client request_id.
Proof.
  intros (Hf & _ & _)%model_validate_Ok Hu Hh Hid. unfold MinerTaskRequest_fields in Hf.
  apply andb_true_iff in Hf as [_ (slots & Hs)%is_ok_true]. apply model_validate_Ok in Hs as (Hf & _ & ->).
  apply andb_true_iff in Hf as [(sub & (Hf & _ & ->)%model_validate_Ok)%is_ok_true _].
  unfold UploadSlot_fields in Hf. rewrite !andb_true_iff in Hf.
  destruct Hf as [[[[[[[_ _] H1] H2] _] _] _] _]. rewrite Hu in H1. rewrite Hh in H2.
  split_and!; [done|done|]. unfold derive_miner_request_id in Hid.
  apply bind_Ok in Hid as (raw & _ & [= <-]). apply digest_identifier.
Qed.

Lemma dispatch_good client env task (request_id : pystr) (body : bytes) :
  client_ok client request_id →
  ∃ a n, dispatch client env task request_id body = (Ok a, n) ∧ (1 ≤ n)%nat ∧
    good_result client env task request_id (keypair_address (lc_wallet client)) a.
Proof.
  intros Hc. unfold dispatch.
  assert (Hf : ∀ m, ∃ a, failed client env request_id m = Ok a ∧
    good_result client env task request_id (keypair_address (lc_wallet client)) a) by (intros m; by apply failed_good).
  destruct (sign_message _ _ _ _ _) as [hs|e].
  2:{ destruct (Hf (ustr "dispatch signing failed: " ++ exn_msg e)) as (a & -> & Hg). by exists a, 1%nat. }
  destruct (fleb _ f0).
  { destruct (Hf (ustr "lease too short to dispatch")) as (a & -> & Hg). by exists a, 1%nat. }
  set (n := if de_streamed env then 2%nat else 1%nat).
  assert (Hn : (1 ≤ n)%nat) by (unfold n; destruct (de_streamed env); lia).
  destruct (de_race env).
  - destruct (exchange_good client env task request_id (keypair_address (lc_wallet client)) Hc) as (a & -> & Hg).
    by exists a, n.
  - destruct (Hf (ustr "miner response exceeded the solve deadline")) as (a & -> & Hg). by exists a, n.
  - destruct (Hf (ustr "request body did not reach transport before signature deadline")) as (a & -> & Hg).
    by exists a, n.
Qed.
End results.

(** ** The miners of a round *)

Section solver.
Context `{UD : !UnicodeData, SH : !Sha256, KP : !Keypair, UG : !UnicodeDigits, MJ : !MinerJson}.

Definition registration_of_client (c : LiveSolverClient) : Z * pystr := (lc_uid c, lc_hotkey c).

(** The clients as the solvers of a round; [envs] is what each dispatch finds. *)
Definition live_solver (clients : list LiveSolverClient) (envs : LiveSolverClient → DispatchEnv) : V3Solver :=
  {| serving := map registration_of_client clients;
     EvaluateRound.solve_v3 := λ registration task,
       match List.find (λ c, bool_decide (registration_of_client c = registration)) clients with
       | Some c => (solve_v3 c (envs c) task).1
       | None => raise KeyError "registration"
       end |}.

Definition sent_by (c : LiveSolverClient) (r : result (MinerSubmission * option MinerTaskResponse)) : Prop :=
  match r with Ok a => sender a.1 = registration_of_client c | Raise _ => True end.

Lemma validated_sent (c : LiveSolverClient) (m : MinerSubmission) (p : option MinerTaskResponse) :
  sender m = registration_of_client c → sent_by c (s ← MinerSubmission_validate m; mret (s, p)).
Proof.
  intros Hm. destruct (MinerSubmission_validate m) as [s|] eqn:Hs; [|done].
  by apply model_validate_Ok in Hs as (_ & _ & ->).
Qed.

Lemma failed_sent (c : LiveSolverClient) (env : DispatchEnv) (id m : pystr) : sent_by c (failed c env id m).
Proof. by apply validated_sent. Qed.

Lemma exchange_sent (c : LiveSolverClient) (env : DispatchEnv) (task : MinerTaskRequest) (id by_ : pystr) :
  sent_by c (exchange c env task id by_).
Proof.
  unfold exchange. destruct (de_exchange env ≫= _) as [a|e] eqn:Hx; [|apply failed_sent].
  apply bind_Ok in Hx as (reply & _ & Hx). unfold sent_by.
  assert (Hf : ∀ m, failed c env id m = Ok a → sender a.1 = registration_of_client c).
  { intros m Hm. pose proof (failed_sent c env id m) as Hs. by rewrite Hm in Hs. }
  destruct (_ || _); [apply bind_Ok in Hx as (d & _ & Hx); by eapply Hf|].
  apply bind_Ok in Hx as ([body|] & _ & Hx); [|by eapply Hf].
  unfold accept_answer in Hx. apply bind_Ok in Hx as (auth & _ & Hx).
  destruct auth; cbn [negb] in Hx; [|by eapply Hf].
  destruct (utf8_decode body ≫= _) as [[text parsed]|e].
  - match type of Hx with (_ ← MinerSubmission_validate ?m; mret (_, ?p)) = _ =>
      pose proof (validated_sent c m p eq_refl) as Hs end. by rewrite Hx in Hs.
  - destruct (is_value_error _); [by eapply Hf|done].
Qed.

Lemma solve_v3_sent (c : LiveSolverClient) (env : DispatchEnv) (task : MinerTaskRequest) :
  sent_by c (solve_v3 c env task).1.
Proof.
  unfold solve_v3. destruct (_ ;; _) as [[id body]|]; [|done]. unfold dispatch.
  destruct (sign_message _ _ _ _ _); [|apply failed_sent]. destruct (fleb _ _); [apply failed_sent|].
  destruct (de_race env); [apply exchange_sent|apply failed_sent..].
Qed.

(** What a round relies on: every answer names the registration it was asked of. *)
#[export] Instance live_solver_laws (clients : list LiveSolverClient) (envs : LiveSolverClient → DispatchEnv) :
  V3SolverLaws (H := live_solver clients envs).
Proof.
  split. intros registration task s parsed. cbn [EvaluateRound.solve_v3 live_solver].
  destruct (List.find _ clients) as [c|] eqn:Hf; [|done].
  apply find_some in Hf as [_ <-%bool_decide_eq_true]. intros Hr.
  pose proof (solve_v3_sent c (envs c) task) as Hs. by rewrite Hr in Hs.
Qed.
End solver.

(** ** Properties *)

(** C9 (type): a dispatch of a valid task to its own miner always returns, whatever the
    miner, the network, the clocks and the signer do: a submission that passes its own
    validation, names the miner and the request, and carries an error exactly when
    there is no parsed response; and the slot of the send gate was given back. *)
Theorem solve_v3_typed `{UD : !UnicodeData, SH : !Sha256, KP : !Keypair, UG : !UnicodeDigits,
    MJ : !MinerJson, UL : !UnicodeLaws, SL : !Sha256Laws} (client : LiveSolverClient) (env : DispatchEnv)
    (task : MinerTaskRequest) (request_id : pystr) (body : bytes) :
  MinerTaskRequest_validate task = Ok task →
  s_uid (submission (t_slots task)) = lc_uid client →
  s_hotkey (submission (t_slots task)) = lc_hotkey client →
  derive_miner_request_id (t_challenge_id task) (lc_uid client) (lc_hotkey client) = Ok request_id →
  utf8_encode (dump_task task) = Ok body →
  ∃ s parsed n, solve_v3 client env task = (Ok (s, parsed), Some n) ∧ (1 ≤ n)%nat ∧
    MinerSubmission_validate s = Ok s ∧ ms_uid s = lc_uid client ∧ ms_hotkey s = lc_hotkey client ∧
    ms_request_id s = request_id ∧ (parsed = None ↔ ms_error s ≠ []).
Proof.
  intros Hv Hu Hh Hid Hb. assert (Hc : client_ok client request_id).
  { by eapply valid_task_client. }
  unfold solve_v3. rewrite Hu, Hh, Z.eqb_refl, bool_decide_eq_true_2 by done.
  cbn [negb orb raise_if mbind result_bind]. rewrite Hid. cbn [mbind result_bind]. rewrite Hb.
  cbn [mbind result_bind mret result_ret].
  destruct (dispatch_good client env task request_id body Hc) as ([s p] & n & -> & Hn & Hw & _).
  by exists s, p, n.
Qed.

(** C11 (safety): a response that a dispatch returns came from the miner: its exact body
    of at most 16 KiB was signed by the miner's hotkey for this validator, decodes to
    the response, and fits the slots of the task. *)
Theorem answer_authentic `{UD : !UnicodeData, SH : !Sha256, KP : !Keypair, UG : !UnicodeDigits,
    MJ : !MinerJson, UL : !UnicodeLaws, SL : !Sha256Laws} (client : LiveSolverClient) (env : DispatchEnv)
    (task : MinerTaskRequest) (s : MinerSubmission) (r : MinerTaskResponse) (n : option nat) :
  MinerTaskRequest_validate task = Ok task → solve_v3 client env task = (Ok (s, Some r), n) →
  ∃ body : bytes,
    utf8_decode body = Ok (ms_response_body s) ∧ read_response body = Ok r ∧
    validate_miner_response task r = Ok () ∧ zlen body <= 16384 ∧
    dict_lookup (ms_response_headers s) (ustr "Epistula-Signed-By") = Some (lc_hotkey client) ∧
    verify_signature (dict_lookup (ms_response_headers s)) body ALLOWED_DELTA_MS (de_verify_time env)
      (Some (keypair_address (lc_wallet client))) = Ok true.
Proof.
  intros Hv Hs. unfold solve_v3 in Hs. destruct (_ ;; _) as [[id body]|] eqn:Hp; [|done].
  apply guard_Ok in Hp as [Hm (i & Hid & (b & Hb & [= -> ->])%bind_Ok)%bind_Ok].
  rewrite orb_false_iff, !negb_false_iff, Z.eqb_eq, bool_decide_eq_true in Hm. destruct Hm as [Hu Hh].
  assert (Hc : client_ok client id) by (by eapply valid_task_client).
  destruct (dispatch_good client env task id body Hc) as (a & m & Hd & _ & _ & Ha).
  rewrite Hd in Hs. injection Hs as -> _. exact Ha.
Qed.

(** (invariant): however the dispatches that share a gate interleave, and however
    often each calls [release], the free slots and the slots that are out add up to
    the capacity, a release never raises and returns its slot, and a dispatch waits
    only while every slot is out. *)
Theorem gate_conserved (capacity : Z) (g0 g : SendGate) (events : list gate_event) :
  SendGate_init capacity = Ok g0 → gate_steps g0 events g →
  gate_available g + outstanding g = capacity ∧ 0 <= gate_available g ∧
  (∀ i, ∃ g', gate_release g i = Ok g' ∧ gate_released g' !! i ≠ Some false) ∧
  (gate_acquire g = None → outstanding g = capacity).
Proof.
  intros H0 Hsteps. apply guard_Ok in H0 as [Hcap%Z.ltb_ge [= <-]].
  set (g0 := {| gate_capacity := capacity; gate_available := capacity; gate_released := [] |}) in Hsteps.
  assert (Hg0 : gate_sound g0 ∧ gate_capacity g0 = capacity).
  { unfold gate_sound, outstanding, g0, zlen. simpl. lia. }
  clearbody g0. induction Hsteps as [g|g g1 g2 evs Hacq _ IH|g g1 g2 i evs Hrel _ IH].
  - destruct Hg0 as [[Hs Hn] Hc]. rewrite Hc in Hs. split_and!; [done|done| |].
    + intros i. destruct (release_sound g i) as (g' & Hg' & _ & _ & Hr); [by split; [rewrite Hc|]|].
      by exists g'.
    + unfold gate_acquire. destruct (Z.ltb_spec 0 (gate_available g)); [done|]. lia.
  - apply IH. apply acquire_sound in Hacq as [Hs Hc]; [|by destruct Hg0]. split; [done|]. by destruct Hg0; congruence.
  - apply IH. destruct Hg0 as [Hs Hc]. destruct (release_sound g i Hs) as (g' & Hg' & Hs' & Hc' & _).
    rewrite Hg' in Hrel. injection Hrel as <-. split; [done|congruence].
Qed.

(** ** Witnesses *)

Definition sample_json : MinerJson :=
  {| dump_task := λ _, ustr "{}"; read_response := λ _, Ok round_response |}.

Definition sample_client : LiveSolverClient :=
  {| lc_uid := 1; lc_hotkey := ustr "a"; lc_wallet := HotkeyName (ustr "val") |}.

Definition sample_task : MinerTaskRequest :=
  {| t_protocol_version := 3; t_challenge_id := ustr "c1"; t_task_id := zeros; t_identity := round_identity;
     t_workspace := l_workspace round_lease; t_workspace_url := ustr "https://w"; t_expires_at := 2000;
     t_slots := round_slots 1 "a" "x1" "x2" |}.

(** The miner answers in time, with a signed response. *)
Definition sample_dispatch : DispatchEnv :=
  {| de_sign_time := 500000; de_sign_uuid := ustr "u1"; de_clock := float_of_int 500;
     de_exchange :=
       hs ← sign_message (H := sha_const) (H0 := no_keypair) (HotkeyName (ustr "a")) (bstr "{}")
              (Some (ustr "val")) 510000 (ustr "u2");
       mret {| reply_status := 200; reply_header := dict_lookup hs; reply_chunks := [bstr "{"; bstr "}"];
               reply_error := None |};
     de_verify_time := 510500; de_race := Answered; de_streamed := true; de_elapsed := 10000 |}.

Definition sample_answer : result (MinerSubmission * option MinerTaskResponse) * option nat :=
  solve_v3 (H := ascii_unicode) (H0 := sha_const) (H1 := no_keypair) (H2 := no_digits) (H3 := sample_json)
    sample_client sample_dispatch sample_task.

Lemma solve_v3_typed_witness :
  ∃ s n, sample_answer = (Ok (s, Some round_response), Some n) ∧ ms_uid s = 1.
Proof.
  destruct (solve_v3_typed (UD := ascii_unicode) (SH := sha_const) (KP := no_keypair) (UG := no_digits)
    (MJ := sample_json) (UL := ascii_laws) (SL := const_laws) sample_client sample_dispatch sample_task
    (hexdigest (replicate 32%nat (ascii_of_N 0))) (bstr "{}")) as (s & p & n & Hs & _ & _ & Hu & _).
  - vm_compute. reflexivity.
  - reflexivity.
  - reflexivity.
  - vm_compute. reflexivity.
  - reflexivity.
  - assert (Hp : p = Some round_response).
    { vm_compute in Hs. injection Hs as _ <- _. vm_compute. reflexivity. }
    rewrite Hp in Hs. exists s, n. split; [exact Hs|exact Hu].
Defined.

Lemma answer_authentic_witness :
  ∃ s body, utf8_decode body = Ok (ms_response_body s) ∧ zlen body <= 16384.
Proof.
  destruct sample_answer as [[[s [r|]]|] n] eqn:Hs; [|vm_compute in Hs; discriminate Hs..].
  destruct (answer_authentic (UD := ascii_unicode) (SH := sha_const) (KP := no_keypair) (UG := no_digits)
    (MJ := sample_json) (UL := ascii_laws) (SL := const_laws) sample_client sample_dispatch sample_task s r n)
    as (body & Hb & _ & _ & Hz & _).
  - vm_compute. reflexivity.
  - exact Hs.
  - exists s, body. split; [exact Hb|exact Hz].
Defined.

Lemma gate_conserved_witness : ∃ g, gate_available g + outstanding g = 2 ∧ gate_released g = [true; false].
Proof.
  exists {| gate_capacity := 2; gate_available := 1; gate_released := [true; false] |}. split; [|reflexivity].
  apply (gate_conserved 2 {| gate_capacity := 2; gate_available := 2; gate_released := [] |} _
    [Acquire; Release 0; Release 0; Acquire]).
  - reflexivity.
  - eapply gate_step_acquire; [reflexivity|]. eapply gate_step_release; [reflexivity|].
    eapply gate_step_release; [reflexivity|]. eapply gate_step_acquire; [reflexivity|]. apply gate_done.
Defined.
