(* ===== verification/Upload.v ===== *)
(** * Uploading the artifacts of a miner ([src/rlvr/v3/upload.py], [src/rlvr/v3/miner.py])

    The object store is the class [Storage]: a state, what a conditional [PUT] answers
    and does to it, and what waiting does.  [StorageLaws] is the contract of a store
    that honours [If-None-Match: *].

    [upload_stored]: a reference that is returned names an object that holds the bytes.
    [upload_accepted]: what a miner answers fits the task the validator checks it
    against. *)

From S2P Require Import Prelude PyFloat Text Json JsonSpec Canonical CanonicalSpec Wire Identity Codecs Api ApiSpec FileSystem Archive Download ProtocolSpec EvaluateRoundSpec.

Local Open Scope Z_scope.

(** [put]: a [PUT] with [If-None-Match: *]; its status, or the exception of httpx. *)
Class Storage := {
  storage : Type;
  put : pystr → bytes → storage → result Z * storage;
  wait_s : Z → storage → storage
}.

Section upload.
Context `{!Storage, !Sha256, !UrlParser}.

(** What the reply to an attempt means: stop, try again, or fail. *)
Inductive Attempt := Uploaded | Again | Rejected (e : exn).

Definition upload_rejected : exn := Exn ArtifactUploadError (ustr "artifact upload was rejected").
Definition upload_failed : exn := Exn ArtifactUploadError (ustr "artifact upload failed").

Definition read_attempt (reply : result Z) (attempt : Z) (ambiguous : bool) : Attempt :=
  match reply with
  | Ok status =>
      if (status =? 200) || (status =? 201) then Uploaded
      else if ((status =? 409) || (status =? 412)) && ambiguous then Uploaded
      else if (500 <=? status) && (status <=? 599) && (attempt <? 2) then Again
      else Rejected upload_rejected
  | Raise e =>
      if bool_decide (exn_cls e = HTTPError)
      then (if attempt <? 2 then Again else Rejected upload_failed)
      else Rejected e
  end.

(** An attempt that is repeated has left the object in doubt. *)
Fixpoint put_loop (url : pystr) (contents : bytes) (attempts : list Z) (ambiguous : bool) (s : storage)
    : result unit * storage :=
  match attempts with
  | [] => (Ok (), s)
  | attempt :: attempts' =>
      let s := if attempt =? 0 then s else wait_s attempt s in
      let '(reply, s') := put url contents s in
      match read_attempt reply attempt ambiguous with
      | Uploaded => (Ok (), s')
      | Again => put_loop url contents attempts' true s'
      | Rejected e => (Raise e, s')
      end
  end.

(** [except (httpx.HTTPError, ValueError)] *)
Definition upload_caught (c : exn_class) : bool := bool_decide (c = HTTPError) || is_value_error c.

Definition artifact_ref (slot : UploadSlot) (contents : bytes) : MinerArtifactRef :=
  {| m_role := s_role slot; m_format := s_format slot; m_upload_id := s_upload_id slot;
     m_sha256 := hexdigest (sha256 contents); m_size_bytes := zlen contents |}.

Context `{!UnicodeData}.

Definition upload_artifact (slot : UploadSlot) (contents : bytes) (allowed_origins : gset pystr) (s : storage)
    : result MinerArtifactRef * storage :=
  if s_max_bytes slot <? zlen contents then (raise ArtifactUploadError "artifact exceeds its upload slot", s)
  else
    let '(r, s') :=
      match (origin ← normalize_https_origin (s_upload_url slot);
             raise_if (negb (bool_decide (origin ∈ allowed_origins))) ArtifactUploadError
               "artifact upload origin is not allowed") with
      | Raise e => (Raise e, s)
      | Ok _ => put_loop (s_upload_url slot) contents [0; 1; 2] false s
      end in
    (catch r upload_caught (λ _, Raise upload_failed);; MinerArtifactRef_validate (artifact_ref slot contents), s').

Definition upload_miner_result (task : MinerTaskRequest) (sub traj : bytes) (allowed_origins : gset pystr)
    (s : storage) : result MinerTaskResponse * storage :=
  let '(r1, s1) := upload_artifact (submission (t_slots task)) sub allowed_origins s in
  match r1 with
  | Raise e => (Raise e, s1)
  | Ok submission_ref =>
      let '(r2, s2) := upload_artifact (trajectory (t_slots task)) traj allowed_origins s1 in
      (trajectory_ref ← r2;
       MinerTaskResponse_validate
         {| p_protocol_version := 3; p_challenge_id := t_challenge_id task; p_task_id := t_task_id task;
            p_response_type := task_type (t_identity task);
            p_submission := submission_ref; p_trajectory := trajectory_ref |}, s2)
  end.
End upload.

(** A conditional [PUT] never overwrites; it may store without saying so; it reports
    success only when it stored, and a conflict only when the object exists.  For 412 that
    is what [If-None-Match] means; for 409 it is what the loop and its tests
    ([test_v3_upload.py]) take it to mean, while some stores also answer 409 to a write that
    races with another one. *)
Class StorageLaws `{!Storage} := {
  object : storage → pystr → option bytes;
  put_keeps (url u : pystr) (c d : bytes) (s : storage) :
    object s u = Some d → object (put url c s).2 u = Some d;
  put_stores (url : pystr) (c d : bytes) (s : storage) :
    object s url = None → object (put url c s).2 url = Some d → d = c;
  put_created (url : pystr) (c : bytes) (s : storage) (status : Z) :
    (put url c s).1 = Ok status → status = 200 ∨ status = 201 →
    object s url = None ∧ object (put url c s).2 url = Some c;
  put_conflict (url : pystr) (c : bytes) (s : storage) (status : Z) :
    (put url c s).1 = Ok status → status = 409 ∨ status = 412 → is_Some (object s url);
  put_other (url u : pystr) (c : bytes) (s : storage) :
    u ≠ url → object (put url c s).2 u = object s u;
  wait_objects (n : Z) (s : storage) (u : pystr) : object (wait_s n s) u = object s u
}.

(** ** The loop *)

Section stored.
Context `{ST : !Storage, SL : !StorageLaws}.
Implicit Types (url u : pystr) (c d : bytes) (s : storage).

(** What an uploader knows of its own object: nobody else writes it. *)
Definition own_object url c (ambiguous : bool) s : Prop :=
  object s url = None ∨ ambiguous = true ∧ object s url = Some c.

Lemma own_object_put url c (ambiguous : bool) s :
  own_object url c ambiguous s → own_object url c true (put url c s).2.
Proof.
  intros [Hn|[_ Hs]].
  - destruct (object (put url c s).2 url) as [d|] eqn:Hd; [|by left].
    right. split; [done|]. rewrite Hd. f_equal. by eapply put_stores.
  - right. split; [done|]. by apply put_keeps.
Qed.

Lemma uploaded_stored url c (attempt : Z) (ambiguous : bool) s :
  own_object url c ambiguous s → read_attempt (put url c s).1 attempt ambiguous = Uploaded →
  object (put url c s).2 url = Some c.
Proof.
  unfold read_attempt. destruct (put url c s).1 as [status|e] eqn:Hr; [|by repeat case_match].
  intros Hown. destruct (_ || _) eqn:H1.
  { intros _. rewrite orb_true_iff, !Z.eqb_eq in H1. by apply (put_created _ _ _ _ Hr H1). }
  destruct (_ && ambiguous) eqn:H2; [|by repeat case_match].
  intros _. rewrite andb_true_iff, orb_true_iff, !Z.eqb_eq in H2. destruct H2 as [H2 ->].
  destruct (put_conflict _ _ _ _ Hr H2) as [d Hd]. destruct Hown as [Hn|[_ Hs]]; [congruence|].
  by apply put_keeps.
Qed.

Lemma put_loop_stored url c (attempts : list Z) (ambiguous : bool) s s' :
  put_loop url c attempts ambiguous s = (Ok (), s') → last attempts = Some 2 →
  own_object url c ambiguous s → object s' url = Some c.
Proof.
  revert ambiguous s. induction attempts as [|a attempts IH]; intros ambiguous s; [done|]. cbn [put_loop].
  set (s0 := if a =? 0 then s else wait_s a s). intros Hl Hlast Hown.
  assert (Hown0 : own_object url c ambiguous s0).
  { unfold s0. destruct (a =? 0); [done|]. unfold own_object. by rewrite wait_objects. }
  clearbody s0. pose proof (uploaded_stored url c a ambiguous s0 Hown0) as Hup.
  pose proof (own_object_put url c ambiguous s0 Hown0) as Hput.
  destruct (put url c s0) as [reply s1]. cbn [fst snd] in *.
  destruct (read_attempt reply a ambiguous) eqn:Hr.
  - injection Hl as <-. by apply Hup.
  - destruct attempts as [|b attempts].
    { injection Hlast as ->. unfold read_attempt in Hr. change (2 <? 2) with false in Hr. 
      destruct reply; [rewrite andb_false_r in Hr|]; by repeat case_match. }
    by eapply IH.
  - done.
Qed.

Lemma put_loop_other url u c (attempts : list Z) (ambiguous : bool) s :
  u ≠ url → object (put_loop url c attempts ambiguous s).2 u = object s u.
Proof.
  intros Hne. revert ambiguous s. induction attempts as [|a attempts IH]; intros ambiguous s; [done|].
  cbn [put_loop]. set (s0 := if a =? 0 then s else wait_s a s).
  assert (H0 : object s0 u = object s u) by (unfold s0; case_match; [done|apply wait_objects]).
  pose proof (put_other url u c s0 Hne) as Hput. destruct (put url c s0) as [reply s1]. cbn [snd] in Hput.
  destruct (read_attempt reply a ambiguous); cbn [snd]; [congruence| |congruence]. rewrite IH. congruence.
Qed.

(** Attempts fail with the uploader's exception, or with what httpx raised. *)
Lemma put_loop_raises url c (attempts : list Z) (ambiguous : bool) s s' (e : exn) :
  (∀ s e, (put url c s).1 = Raise e → exn_cls e = HTTPError) →
  put_loop url c attempts ambiguous s = (Raise e, s') → exn_cls e = ArtifactUploadError.
Proof.
  intros Hh. revert ambiguous s. induction attempts as [|a attempts IH]; intros ambiguous s; [done|].
  cbn [put_loop]. set (s0 := if a =? 0 then s else wait_s a s). specialize (Hh s0).
  destruct (put url c s0) as [reply s1]. cbn [fst] in Hh.
  destruct (read_attempt reply a ambiguous) as [| |e'] eqn:Hr; [done|apply IH|].
  intros [= -> _]. unfold read_attempt in Hr. destruct reply as [status|e'].
  - repeat case_match; simplify_eq; done.
  - rewrite bool_decide_eq_true_2 in Hr by (by apply Hh). case_match; simplify_eq; done.
Qed.
End stored.

(** ** Artifacts *)

Section artifacts.
Context `{UD : !UnicodeData, SH : !Sha256, UP : !UrlParser, ST : !Storage, SL : !StorageLaws}.
Implicit Types (slot : UploadSlot) (c : bytes) (s : storage) (origins : gset pystr).

Lemma upload_artifact_Ok slot c origins s s' (r : MinerArtifactRef) :
  upload_artifact slot c origins s = (Ok r, s') →
  zlen c <= s_max_bytes slot ∧ r = artifact_ref slot c ∧ MinerArtifactRef_validate r = Ok r ∧
  (∃ origin, normalize_https_origin (s_upload_url slot) = Ok origin ∧ origin ∈ origins) ∧
  put_loop (s_upload_url slot) c [0; 1; 2] false s = (Ok (), s').
Proof.
  unfold upload_artifact. destruct (Z.ltb_spec (s_max_bytes slot) (zlen c)); [done|].
  destruct (origin ← _; _) as [[]|e] eqn:Ho.
  2:{ intros [= Hc _]. unfold catch in Hc. by destruct (upload_caught _). }
  apply bind_Ok in Ho as (origin & Ho & Hin). unfold raise_if in Hin. case_bool_decide as Hor; [|done].
  destruct (put_loop _ _ _ _ _) as [[[]|e] s1] eqn:Hl; intros [= Hc ->].
  2:{ unfold catch in Hc. by destruct (upload_caught _). }
  cbn [catch mbind result_bind] in Hc. pose proof Hc as (_ & _ & Hr)%model_validate_Ok. rewrite <-Hr in Hc.
  split_and!; [done|done|exact Hc|by exists origin|done].
Qed.

Lemma upload_artifact_stored slot c origins s s' (r : MinerArtifactRef) :
  upload_artifact slot c origins s = (Ok r, s') → object s (s_upload_url slot) = None →
  object s' (s_upload_url slot) = Some c.
Proof.
  intros (_ & _ & _ & _ & Hl)%upload_artifact_Ok Hn.
  eapply put_loop_stored; [exact Hl|done|]. by left.
Qed.

Lemma upload_artifact_other slot c origins s (u : pystr) :
  u ≠ s_upload_url slot → object (upload_artifact slot c origins s).2 u = object s u.
Proof.
  intros Hne. unfold upload_artifact. destruct (_ <? _); [done|]. destruct (origin ← _; _); [|done].
  pose proof (put_loop_other (s_upload_url slot) u c [0; 1; 2] false s Hne) as Hp.
  by destruct (put_loop _ _ _ _ _).
Qed.

Lemma normalize_raises (url : pystr) (e : exn) :
  normalize_https_origin url = Raise e → exn_cls e = ArtifactDownloadError.
Proof.
  unfold normalize_https_origin, catch. destruct (parse_url url) as [p|]; [|by intros [= <-]].
  destruct (raise_if _ _ _ ;; _) as [|e'] eqn:Hm; [done|].
  assert (He : is_value_error (exn_cls e') = true).
  { unfold raise_if, ascii_decode in Hm. destruct (_ || _); [by injection Hm as <-|].
    destruct (forallb _ _); [done|]. by injection Hm as <-. }
  rewrite He. by intros [= <-].
Qed.

(** Bytes that fit a valid slot fail to upload only by an upload error, or because the
    URL of the slot is not one. *)
Lemma upload_artifact_raises `{UL : !UnicodeLaws, SHL : !Sha256Laws} slot c origins s s' (e : exn) :
  UploadSlot_validate slot = Ok slot →
  (∀ s e, (put (s_upload_url slot) c s).1 = Raise e → exn_cls e = HTTPError) →
  upload_artifact slot c origins s = (Raise e, s') →
  exn_cls e = ArtifactUploadError ∨ exn_cls e = ArtifactDownloadError.
Proof.
  intros Hv Hh. unfold upload_artifact. destruct (Z.ltb_spec (s_max_bytes slot) (zlen c)) as [Hlt|Hlt].
  { intros [= <- _]. by left. }
  assert (Href : MinerArtifactRef_validate (artifact_ref slot c) = Ok (artifact_ref slot c)).
  { apply model_validate_Ok in Hv as (Hf & Hrole & _). apply model_validate_Ok. split_and!; [|done|done].
    unfold UploadSlot_fields in Hf. unfold MinerArtifactRef_fields, artifact_ref. simpl.
    rewrite digest_hex. rewrite !andb_true_iff in Hf. destruct Hf as [[[[[[[_ _] _] _] ->] _] _] Hmax].
    unfold PositiveBoundedSize in Hmax. unfold BoundedSize, zlen in *.
    rewrite andb_true_iff, Z.ltb_lt, Z.leb_le in Hmax. simpl. rewrite andb_true_iff, !Z.leb_le. lia. }
  destruct (origin ← _; _) as [[]|e'] eqn:Ho.
  - destruct (put_loop _ _ _ _ _) as [[[]|e'] s1] eqn:Hl; cbn [catch mbind result_bind].
    + by rewrite Href.
    + apply put_loop_raises in Hl; [|done]. unfold upload_caught. rewrite Hl. cbn. intros [= <- _]. by left.
  - intros [= He _]. unfold catch in He. destruct (upload_caught _); injection He as <-; [by left|].
    destruct (normalize_https_origin (s_upload_url slot)) as [origin|e0] eqn:Hn.
    + cbn [mbind result_bind] in Ho. unfold raise_if in Ho. case_match; [|done]. injection Ho as <-. by left.
    + injection Ho as <-. right. by eapply normalize_raises.
Qed.

Lemma valid_task_slots (task : MinerTaskRequest) :
  MinerTaskRequest_validate task = Ok task →
  validate_slot_binding task = Ok () ∧ validate_slots (t_slots task) = Ok () ∧
  UploadSlot_validate (submission (t_slots task)) = Ok (submission (t_slots task)) ∧
  UploadSlot_validate (trajectory (t_slots task)) = Ok (trajectory (t_slots task)).
Proof.
  intros (Hf & Hb & _)%model_validate_Ok. unfold MinerTaskRequest_fields in Hf.
  apply andb_true_iff in Hf as [_ (slots & Hs)%is_ok_true]. apply model_validate_Ok in Hs as (Hf & Hv & ->).
  apply andb_true_iff in Hf as [(sub & Hs)%is_ok_true (traj & Ht)%is_ok_true].
  split_and!; [done|done| |].
  - pose proof Hs as (_ & _ & He)%model_validate_Ok. by rewrite He in Hs.
  - pose proof Ht as (_ & _ & He)%model_validate_Ok. by rewrite He in Ht.
Qed.

(** What the references of two uploads make, for a valid task. *)
Lemma response_fits (task : MinerTaskRequest) (sub traj : bytes) :
  MinerTaskRequest_validate task = Ok task →
  let slots := t_slots task in
  let response :=
    {| p_protocol_version := 3; p_challenge_id := t_challenge_id task; p_task_id := t_task_id task;
       p_response_type := task_type (t_identity task);
       p_submission := artifact_ref (submission slots) sub; p_trajectory := artifact_ref (trajectory slots) traj |} in
  MinerArtifactRef_validate (p_submission response) = Ok (p_submission response) →
  MinerArtifactRef_validate (p_trajectory response) = Ok (p_trajectory response) →
  zlen sub <= s_max_bytes (submission slots) → zlen traj <= s_max_bytes (trajectory slots) →
  MinerTaskResponse_validate response = Ok response ∧ validate_miner_response task response = Ok ().
Proof.
  intros Hv slots response Hsub Htraj Hls Hlt.
  destruct (valid_task_slots task Hv) as (Hb & Hs & _ & _).
  apply model_validate_Ok in Hv as (Hf & _ & _). unfold MinerTaskRequest_fields in Hf.
  rewrite !andb_true_iff in Hf. destruct Hf as [[[[[[[_ Hc] Ht] _] _] _] _] _].
  unfold validate_slot_binding in Hb. apply bind_Ok in Hb as (id & _ & Hb).
  rewrite !guard_Ok in Hb. destruct Hb as (_ & _ & _ & _ & Hrole). 
  unfold validate_slots in Hs. rewrite !guard_Ok in Hs. destruct Hs as (_ & Htr & _ & _ & _ & _ & Hid).
  apply raise_if_Ok in Hid, Hrole. bool_simpl. split.
  - apply model_validate_Ok. split_and!; [| |done].
    + unfold MinerTaskResponse_fields. rewrite Hsub, Htraj. cbn [p_protocol_version p_challenge_id p_task_id response].
      by rewrite Hc, Ht.
    + unfold validate_artifacts. cbn [p_response_type p_submission p_trajectory m_role m_upload_id artifact_ref response].
      fold slots in Hrole, Htr, Hid. rewrite Hrole, Htr. unfold expected_submission, task_type.
      rewrite (bool_decide_eq_false_2 (s_upload_id _ = _)) by done. by destruct (is_repository _).
  - unfold validate_miner_response.
    cbn [p_challenge_id p_task_id p_response_type p_submission p_trajectory response].
    rewrite !bool_decide_eq_true_2 by done. unfold for_each, slot_mismatch_of, artifact_ref. simpl.
    rewrite !bool_decide_eq_true_2 by done. fold slots.
    by rewrite (proj2 (Z.ltb_ge _ _) Hls), (proj2 (Z.ltb_ge _ _) Hlt).
Qed.

(** What a miner answers. *)
Lemma upload_answers (task : MinerTaskRequest) (sub traj : bytes) origins s s' (r : MinerTaskResponse) :
  MinerTaskRequest_validate task = Ok task →
  s_upload_url (submission (t_slots task)) ≠ s_upload_url (trajectory (t_slots task)) →
  object s (s_upload_url (submission (t_slots task))) = None →
  object s (s_upload_url (trajectory (t_slots task))) = None →
  upload_miner_result task sub traj origins s = (Ok r, s') →
  MinerTaskResponse_validate r = Ok r ∧ validate_miner_response task r = Ok () ∧
  m_sha256 (p_submission r) = hexdigest (sha256 sub) ∧ m_sha256 (p_trajectory r) = hexdigest (sha256 traj) ∧
  object s' (s_upload_url (submission (t_slots task))) = Some sub ∧
  object s' (s_upload_url (trajectory (t_slots task))) = Some traj.
Proof.
  intros Hv Hne Hns Hnt. unfold upload_miner_result.
  destruct (upload_artifact (submission _) sub _ s) as [[r1|e] s1] eqn:H1; [|done].
  destruct (upload_artifact (trajectory _) traj _ s1) as [[r2|e] s2] eqn:H2; [|done].
  cbn [mbind result_bind]. pose proof (upload_artifact_stored _ _ _ _ _ _ H1 Hns) as Hst1.
  assert (Hnt1 : object s1 (s_upload_url (trajectory (t_slots task))) = None).
  { rewrite <-Hnt. change s1 with (Ok r1, s1).2. rewrite <-H1. by apply upload_artifact_other. }
  pose proof (upload_artifact_stored _ _ _ _ _ _ H2 Hnt1) as Hst2.
  assert (Hkeep : object s2 (s_upload_url (submission (t_slots task))) = Some sub).
  { rewrite <-Hst1. change s2 with (Ok r2, s2).2. rewrite <-H2. by apply upload_artifact_other. }
  apply upload_artifact_Ok in H1 as (Hl1 & -> & Hr1 & _), H2 as (Hl2 & -> & Hr2 & _).
  destruct (response_fits task sub traj Hv Hr1 Hr2 Hl1 Hl2) as [Hr Hfit]. rewrite Hr. intros [= <- <-].
  split_and!; [exact Hr|exact Hfit|done|done|exact Hkeep|done].
Qed.

(** A miner that does not answer: its uploads failed. *)
Lemma upload_raises `{UL : !UnicodeLaws, SHL : !Sha256Laws} (task : MinerTaskRequest) (sub traj : bytes) origins s s'
    (e : exn) :
  MinerTaskRequest_validate task = Ok task →
  (∀ url c s e, (put url c s).1 = Raise e → exn_cls e = HTTPError) →
  upload_miner_result task sub traj origins s = (Raise e, s') →
  exn_cls e = ArtifactUploadError ∨ exn_cls e = ArtifactDownloadError.
Proof.
  intros Hv Hh. destruct (valid_task_slots task Hv) as (_ & _ & Hs & Ht). unfold upload_miner_result.
  destruct (upload_artifact (submission _) sub _ s) as [[r1|e1] s1] eqn:H1.
  2:{ intros [= -> ->]. by eapply (upload_artifact_raises _ _ _ _ _ _ Hs (Hh _ _)). }
  destruct (upload_artifact (trajectory _) traj _ s1) as [[r2|e2] s2] eqn:H2.
  2:{ intros [= -> ->]. by eapply (upload_artifact_raises _ _ _ _ _ _ Ht (Hh _ _)). }
  apply upload_artifact_Ok in H1 as (Hl1 & -> & Hr1 & _), H2 as (Hl2 & -> & Hr2 & _).
  cbn [mbind result_bind]. by rewrite (proj1 (response_fits task sub traj Hv Hr1 Hr2 Hl1 Hl2)).
Qed.
End artifacts.

(** ** Properties *)

(** C22 (safety): in a store that honours [If-None-Match], where nobody else writes to the
    slot, a reference that an upload returns names an object that holds exactly the
    bytes, however many of the three attempts were lost, answered late or answered
    wrongly; it fits the slot, and no other object was touched. *)
Theorem upload_stored `{UD : !UnicodeData, SH : !Sha256, UP : !UrlParser, ST : !Storage, SL : !StorageLaws}
    (slot : UploadSlot) (contents : bytes) (allowed_origins : gset pystr) (s s' : storage)
    (r : MinerArtifactRef) :
  upload_artifact slot contents allowed_origins s = (Ok r, s') →
  object s (s_upload_url slot) = None →
  object s' (s_upload_url slot) = Some contents ∧
  (∀ u, u ≠ s_upload_url slot → object s' u = object s u) ∧
  slot_mismatch_of r slot = false ∧ m_sha256 r = hexdigest (sha256 contents) ∧ m_size_bytes r = zlen contents ∧
  ∃ origin, normalize_https_origin (s_upload_url slot) = Ok origin ∧ origin ∈ allowed_origins.
Proof.
  intros Hu Hn. split; [by eapply upload_artifact_stored|]. split.
  { intros u Hne. change s' with (Ok r, s').2. rewrite <-Hu. by apply upload_artifact_other. }
  apply upload_artifact_Ok in Hu as (Hl & -> & _ & Ho & _). unfold slot_mismatch_of. simpl.
  rewrite !bool_decide_eq_true_2 by done. by rewrite (proj2 (Z.ltb_ge _ _) Hl).
Qed.

(** (type): what a miner answers to a valid task is a valid response that fits the
    task, so the validator's own check of it succeeds, and both artifacts it names are
    in the store; a miner that does not answer fails with an upload error. *)
Theorem upload_accepted `{UD : !UnicodeData, SH : !Sha256, UP : !UrlParser, ST : !Storage, SL : !StorageLaws,
    UL : !UnicodeLaws, SHL : !Sha256Laws} (task : MinerTaskRequest) (sub traj : bytes)
    (allowed_origins : gset pystr) (s : storage) :
  MinerTaskRequest_validate task = Ok task →
  (∀ url c s e, (put url c s).1 = Raise e → exn_cls e = HTTPError) →
  let sub_url := s_upload_url (submission (t_slots task)) in
  let traj_url := s_upload_url (trajectory (t_slots task)) in
  sub_url ≠ traj_url → object s sub_url = None → object s traj_url = None →
  match upload_miner_result task sub traj allowed_origins s with
  | (Ok r, s') =>
      MinerTaskResponse_validate r = Ok r ∧ validate_miner_response task r = Ok () ∧
      m_sha256 (p_submission r) = hexdigest (sha256 sub) ∧
      m_sha256 (p_trajectory r) = hexdigest (sha256 traj) ∧
      object s' sub_url = Some sub ∧ object s' traj_url = Some traj
  | (Raise e, _) => exn_cls e = ArtifactUploadError ∨ exn_cls e = ArtifactDownloadError
  end.
Proof.
  intros Hv Hh sub_url traj_url Hne Hns Hnt.
  destruct (upload_miner_result _ _ _ _ _) as [[r|e] s'] eqn:Hu; [by eapply upload_answers|by eapply upload_raises].
Qed.

(** ** Witnesses: a store that loses replies *)

Inductive Fault := ReplyLost | Unavailable.

Definition flaky_put (url : pystr) (c : bytes) (s : (pystr → option bytes) * list Fault)
    : result Z * ((pystr → option bytes) * list Fault) :=
  let stored := λ u, if bool_decide (u = url) then Some c else s.1 u in
  match s.2 with
  | ReplyLost :: f =>
      (raise HTTPError "read timeout", (match s.1 url with Some _ => s.1 | None => stored end, f))
  | Unavailable :: f => (Ok 503, (s.1, f))
  | [] => match s.1 url with Some _ => (Ok 412, s) | None => (Ok 201, (stored, [])) end
  end.

Definition flaky_storage : Storage := {| storage := _; put := flaky_put; wait_s := λ _ s, s |}.

Definition flaky_laws : StorageLaws (H := flaky_storage).
Proof.
  refine {| object := λ s : @storage flaky_storage, s.1 : pystr → option bytes |};
    cbn [put flaky_storage wait_s]; unfold flaky_put.
  - intros url u c d [o [|[] f]]; simpl; destruct (o url) eqn:Ho; simpl; intros Hu; try done;
      case_bool_decide; congruence.
  - intros url c d [o [|[] f]]; simpl; intros Ho; rewrite ?Ho; simpl; rewrite ?bool_decide_eq_true_2; congruence.
  - intros url c [o [|[] f]] status; simpl; [|done|intros [= <-]; lia].
    destruct (o url) eqn:Ho; simpl; intros [= <-]; [lia|]. by rewrite bool_decide_eq_true_2.
  - intros url c [o [|[] f]] status; simpl; [|done|intros [= <-]; lia].
    destruct (o url) eqn:Ho; simpl; intros [= <-]; [by eexists|lia].
  - intros url u c [o [|[] f]] Hne; simpl; destruct (o url); simpl; try done; by rewrite bool_decide_eq_false_2.
  - done.
Defined.

(** The first reply is lost after the object was stored, so the second attempt finds
    its own object. *)
Definition one_lost : @storage flaky_storage := (λ _, None, [ReplyLost]).

Definition at_url (url : string) (slot : UploadSlot) : UploadSlot :=
  {| s_challenge_id := s_challenge_id slot; s_task_id := s_task_id slot; s_uid := s_uid slot;
     s_hotkey := s_hotkey slot; s_role := s_role slot; s_format := s_format slot;
     s_upload_id := s_upload_id slot; s_upload_url := ustr url; s_expires_at := s_expires_at slot;
     s_max_bytes := s_max_bytes slot |}.

Definition miner_slots : MinerSlotSet :=
  let slots := round_slots 1 "a" "x1" "x2" in
  {| submission := at_url "https://s" (submission slots); trajectory := at_url "https://t" (trajectory slots) |}.

Definition miner_task : MinerTaskRequest :=
  {| t_protocol_version := 3; t_challenge_id := ustr "c1"; t_task_id := zeros; t_identity := round_identity;
     t_workspace := l_workspace round_lease; t_workspace_url := ustr "https://w"; t_expires_at := 2000;
     t_slots := miner_slots |}.

Definition one_origin : gset pystr := {[ustr "https://a.example:443"]}.

Definition flaky_upload (contents : string) : result MinerArtifactRef * @storage flaky_storage :=
  upload_artifact (H := flaky_storage) (H0 := sha_const) (H1 := one_url) (H2 := ascii_unicode)
    (submission miner_slots) (bstr contents) one_origin one_lost.

Lemma upload_stored_witness : ∃ s' : @storage flaky_storage, s'.1 (ustr "https://s") = Some (bstr "echo").
Proof.
  destruct (flaky_upload "echo") as [[r|e] s'] eqn:Hu; [|vm_compute in Hu; discriminate Hu].
  exists s'. apply (upload_stored (UD := ascii_unicode) (SH := sha_const) (UP := one_url) (ST := flaky_storage)
    (SL := flaky_laws) (submission miner_slots) (bstr "echo") one_origin one_lost s' r); [exact Hu|reflexivity].
Defined.

Lemma flaky_raises (url : pystr) (c : bytes) (s : @storage flaky_storage) (e : exn) :
  (put (Storage := flaky_storage) url c s).1 = Raise e → exn_cls e = HTTPError.
Proof.
  cbn. unfold flaky_put. destruct s as [o [|[] f]]; simpl; [by destruct (o url)|by intros [= <-]|done].
Qed.

Definition flaky_answer : result MinerTaskResponse * @storage flaky_storage :=
  upload_miner_result (H := flaky_storage) (H0 := sha_const) (H1 := one_url) (H2 := ascii_unicode)
    miner_task (bstr "echo") (bstr "[]") one_origin one_lost.

Lemma upload_accepted_witness :
  ∃ r, MinerTaskResponse_validate (H := ascii_unicode) r = Ok r ∧
    validate_miner_response miner_task r = Ok () ∧ m_size_bytes (p_submission r) = 4.
Proof.
  pose proof (upload_accepted (UD := ascii_unicode) (SH := sha_const) (UP := one_url) (ST := flaky_storage)
    (SL := flaky_laws) (UL := ascii_laws) (SHL := const_laws) miner_task (bstr "echo") (bstr "[]") one_origin
    one_lost) as Hu.
  fold flaky_answer in Hu. destruct flaky_answer as [[r|e] s'] eqn:Ha; [|vm_compute in Ha; discriminate Ha].
  exists r. destruct Hu as (Hr & Hf & _).
  - vm_compute. reflexivity.
  - exact flaky_raises.
  - vm_compute. discriminate.
  - reflexivity.
  - reflexivity.
  - split; [exact Hr|]. split; [exact Hf|]. vm_compute in Ha. injection Ha as <- _. reflexivity.
Defined.
