(* ===== verification/ScoreState.v ===== *)
(** * The persisted score window ([_load_scores], [_save_scores] of
    [src/rlvr/neurons/decentralized.py])

    A score file is the JSON value it holds: what [json.dump] writes of finite floats,
    integers, strings, lists and dicts with string keys, [json.load] reads back.
    A file that is missing or unreadable is an exception.  [np.asarray(v, dtype=np.float64)] is the class
    [NumPyArray], and [str] of a float, list or dict the class [PyRepr]. *)

From Stdlib Require Import SpecFloat.
From S2P Require Import Prelude PyFloat Text Json JsonSpec Canonical CanonicalSpec Codecs EvalEngine EvalEngineSpec.

Local Open Scope Z_scope.

Class NumPyArray := {
  (* the vector, [None] when the array does not have one dimension *)
  np_asarray : pyobj → result (option (list float))
}.

Class PyRepr := { py_repr : pyobj → pystr }.

(** ** [float(x)]

    Digits are ASCII, as in [py_int]. *)

Definition ascii_low (c : N) : N := if ((65 <=? c) && (c <=? 90))%N then (c + 32)%N else c.

Fixpoint drop_underscores (prev : N) (s : pystr) : option pystr :=
  match s with
  | [] => if (prev =? 95)%N then None else Some []
  | c :: r =>
      if (c =? 95)%N then (if is_digit prev then drop_underscores c r else None)
      else if (prev =? 95)%N && negb (is_digit c) then None
      else cons c <$> drop_underscores c r
  end.

Fixpoint span_digits (s : pystr) : pystr * pystr :=
  match s with
  | c :: r => if is_digit c then let '(ds, rest) := span_digits r in (c :: ds, rest) else ([], s)
  | [] => ([], [])
  end.

Definition split_sign (s : pystr) : bool * pystr :=
  match s with
  | c :: r => if (c =? 45)%N then (true, r) else if (c =? 43)%N then (false, r) else (false, s)
  | [] => (false, [])
  end.

Definition exponent (s : pystr) : option Z :=
  match s with
  | [] => Some 0
  | c :: r =>
      let '(neg, ds) := split_sign r in
      if (ascii_low c =? 101)%N && negb (bool_decide (ds = [])) && forallb is_digit ds
      then Some (if neg then - digits_value ds else digits_value ds) else None
  end.

Definition unsigned_float (s : pystr) : option float :=
  let low := map ascii_low s in
  if bool_decide (low = ustr "inf") || bool_decide (low = ustr "infinity")
  then Some (S754_infinity false)
  else if bool_decide (low = ustr "nan") then Some S754_nan
  else
    let '(ip, r) := span_digits s in
    let '(fp, r) := match r with c :: r' => if (c =? 46)%N then span_digits r' else ([], r)
                    | [] => ([], []) end in
    if bool_decide (ip ++ fp = []) then None
    else (λ e, decimal_float (digits_value (ip ++ fp)) (e - zlen fp)) <$> exponent r.

Definition float_of_text (s : pystr) : result float :=
  let value :=
    t ← drop_underscores 0 (strip py_isspace s);
    let '(neg, u) := split_sign t in
    (λ x, if neg : bool then fopp x else x) <$> unsigned_float u in
  match value with
  | Some x => Ok x
  | None => raise ValueError "could not convert string to float"
  end.


(** [float(x)] *)
Definition py_float (v : pyobj) : result float :=
  match v with
  | PFloat x => Ok x
  | PBool b => Ok (if b then f1 else f0)
  | PInt z =>
      let x := float_of_int z in
      if isfinite x then Ok x else raise OverflowError "int too large to convert to float"
  | PStr s => float_of_text s
  | _ => raise TypeError "float() argument must be a string or a real number"
  end.

(** [str(x)] *)
Definition py_str `{!PyRepr} (v : pyobj) : pystr :=
  match v with
  | PStr s => s
  | PNone => ustr "None"
  | PBool b => ustr (if b then "True" else "False")
  | PInt z => str_of_int z
  | _ => py_repr v
  end.

(** [v == z], for an integer [z] *)
Definition py_eq_int (v : pyobj) (z : Z) : bool :=
  match v with
  | PBool b => Z.b2z b =? z
  | PInt n => n =? z
  | PFloat x => feqb x (float_of_int z)
  | _ => false
  end.

(** An [int] that is not a [bool]. *)
Definition plain_int (v : pyobj) : option Z := match v with PInt z => Some z | _ => None end.

(** ** Reading the document *)

Definition is_key (k : pystr) (kv : pyobj * pyobj) : bool :=
  match kv.1 with PStr s => bool_decide (s = k) | _ => false end.

(** [state.get(k, dflt)] *)
Definition state_get (state : pyobj) (k : string) (dflt : pyobj) : result pyobj :=
  match state with
  | PDict l => Ok (match List.find (is_key (ustr k)) l with Some kv => kv.2 | None => dflt end)
  | _ => raise OtherError "AttributeError"
  end.

(** [int(uid)] of a key of at most 4300 ASCII digits, the only keys an engine writes. *)
Definition int_of_key (k : pyobj) : result Z :=
  match k with
  | PStr s =>
      match py_int s with Some z => Ok z | None => raise ValueError "invalid literal for int()" end
  | _ => raise TypeError "int() argument must be a string"
  end.

Definition items (v : pyobj) : result (list (pyobj * pyobj)) :=
  match v with PDict l => Ok l | _ => raise OtherError "AttributeError" end.

Section load.
Context `{!PyMath, !NumPy, !NumPyArray, !PyRepr}.

(** [{int(uid): str(hotkey) ...}]: the last entry of a UID wins. *)
Definition read_hotkeys (v : pyobj) : result (gmap Z pystr) :=
  l ← items v;
  pairs ← mapM (λ kv : pyobj * pyobj, uid ← int_of_key kv.1; Ok (uid, py_str kv.2)) l;
  Ok (foldl (λ m p, <[p.1 := p.2]> m) ∅ pairs).

Definition hotkeys_in_range (num_uids : Z) (hotkeys : gmap Z pystr) : bool :=
  forallb (λ p, (0 <=? p.1) && (p.1 <? num_uids) && negb (bool_decide (p.2 = [])))
    (map_to_list hotkeys).

(** [window_seconds]: NumPy has no integer type for an [int] of more than 64 bits. *)
Definition check_window (v : pyobj) : result unit :=
  let bad := raise ValueError "window_seconds must be finite and positive" in
  match v with
  | PInt z =>
      if (- 2 ^ 63 <=? z) && (z <? 2 ^ 64) then (if z <=? 0 then bad else Ok ())
      else raise TypeError "ufunc 'isfinite' not supported for the input types"
  | PFloat x => if negb (isfinite x) || fleb x f0 then bad else Ok ()
  | _ => bad
  end.

Definition read_observation (item : pyobj) : result observation :=
  match item with
  | PList [ts; payment] =>
      raise_if (match ts, payment with PBool _, _ | _, PBool _ => true | _, _ => false end) ValueError
        "history values must be numeric";;
      ts ← py_float ts;
      payment ← py_float payment;
      raise_if (negb (isfinite ts) || fltb ts f0 || negb (isfinite payment) || fltb payment f0)
        ValueError "history values must be finite and non-negative";;
      mret (ts, payment)
  | _ => raise ValueError "history observations must be [timestamp, payment]"
  end.

Definition read_history (stored_max : Z) (v : pyobj) : result (list observation) :=
  match v with
  | PList l =>
      raise_if (bool_decide (l = []) || (stored_max <? zlen l)) ValueError
        "each history must contain 1..max_samples observations";;
      mapM read_observation l
  | _ => raise ValueError "each history must contain 1..max_samples observations"
  end.

Fixpoint read_histories (num_uids stored_max : Z) (raw : list (pyobj * pyobj))
    (acc : list (Z * list observation)) : result (list (Z * list observation)) :=
  match raw with
  | [] => Ok acc
  | (k, v) :: raw' =>
      uid ← int_of_key k;
      raise_if (bool_decide (uid ∈ map fst acc) || (uid <? 0) || (num_uids <=? uid)) ValueError
        "history UID must be unique and in range";;
      values ← read_history stored_max v;
      read_histories num_uids stored_max raw' (acc ++ [(uid, values)])
  end.

(** The comparison with the stored scores only prints; a failing conversion is
    caught when it is a [TypeError] or a [ValueError]. *)
Definition compare_stored_scores (v : pyobj) : result unit :=
  match np_asarray v with
  | Ok _ => Ok ()
  | Raise e =>
      if is_value_error (exn_cls e) || bool_decide (exn_cls e = TypeError) then Ok () else Raise e
  end.

Definition read_version_2 (e : engine) (state : pyobj) (num_uids : Z) (hotkeys : gmap Z pystr)
    : result (list (Z * list observation)) :=
  window ← state_get state "window_seconds" PNone;
  check_window window;;
  mx ← state_get state "max_samples" PNone;
  mn ← state_get state "min_samples" PNone;
  stored_max ←
    match plain_int mx, plain_int mn with
    | Some mx, Some mn =>
        if (mx <? 1) || negb ((1 <=? mn) && (mn <=? mx)) then raise ValueError "stored sample bounds are invalid"
        else Ok mx
    | _, _ => raise ValueError "stored sample bounds are invalid"
    end;
  raw ← state_get state "histories" PNone;
  raw ← match raw with PDict l => Ok l | _ => raise ValueError "histories must be a UID-keyed mapping" end;
  histories ← read_histories num_uids stored_max raw [];
  stored_scores ← state_get state "scores" PNone;
  compare_stored_scores stored_scores;;
  let kept := map (λ h, (h.1, slice_from (- max_samples e) h.2)) histories in
  raise_if (existsb (λ h, fltb f0 (fsum (map snd h.2)) && bool_decide (hotkeys !! h.1 = None)) kept)
    ValueError "every positive history must retain its owning hotkey";;
  mret kept.

(** The migration of a file with one scalar score per UID. *)
Definition read_version_1 (e : engine) (now : float) (scores : list float) (hotkeys : gmap Z pystr)
    : result (list (Z * list observation)) :=
  raise_if (existsb (λ uid, fltb f0 (nth uid scores f0) && bool_decide (hotkeys !! Z.of_nat uid = None))
              (seq 0 (length scores))) ValueError "every positive score must retain its owning hotkey";;
  migrated_at ← timestamp now None;
  mret (map (λ p : Z * pystr,
          (p.1, replicate (Z.to_nat (min_samples e)) (migrated_at, nth (Z.to_nat p.1) scores f0)))
         (filter (λ p, fltb f0 (nth (Z.to_nat p.1) scores f0) = true) (map_to_list hotkeys))).

(** The validated content: number of UIDs, histories, hotkeys, and whether the file
    had version 1. *)
Definition read_score_state (e : engine) (now : float) (state : pyobj)
    : result (Z * list (Z * list observation) * gmap Z pystr * bool) :=
  version ← state_get state "version" PNone;
  raise_if (negb (py_eq_int version 1 || py_eq_int version 2)) ValueError
    "unsupported score-state version";;
  '(num_uids, vector) ←
    (if py_eq_int version 1 then
       raw ← state_get state "scores" (PList []);
       a ← np_asarray raw;
       match a with
       | Some s =>
           if forallb isfinite s && forallb (λ x, negb (fltb x f0)) s then mret (zlen s, s)
           else raise ValueError "scores must be a finite non-negative vector"
       | None => raise ValueError "scores must be a finite non-negative vector"
       end
     else
       raw ← state_get state "num_uids" PNone;
       match plain_int raw with
       | Some n => if n <? 0 then raise ValueError "num_uids must be a non-negative integer"
                   else mret (n, [])
       | None => raise ValueError "num_uids must be a non-negative integer"
       end);
  raw ← state_get state "hotkeys" (PDict []);
  hotkeys ← read_hotkeys raw;
  raise_if (negb (hotkeys_in_range num_uids hotkeys)) ValueError
    "hotkey map must reference non-empty in-range UID slots";;
  histories ←
    (if py_eq_int version 1 then read_version_1 e now vector hotkeys
     else read_version_2 e state num_uids hotkeys);
  mret (num_uids, histories, hotkeys, py_eq_int version 1).

(** ** Writing it *)

Definition key (k : string) (v : pyobj) : pyobj * pyobj := (PStr (ustr k), v).
Definition uid_key (uid : Z) : pyobj := PStr (str_of_int uid).

Definition observation_value (o : observation) : pyobj := PList [PFloat o.1; PFloat o.2].

Definition by_key {A} (p q : Z * A) : bool := p.1 <=? q.1.

Definition score_document (e : engine) : pyobj :=
  PDict
    [key "version" (PInt 2);
     key "num_uids" (PInt (zlen (scores e)));
     key "window_seconds" (PFloat (window_seconds e));
     key "max_samples" (PInt (max_samples e));
     key "min_samples" (PInt (min_samples e));
     key "scores" (PList (map PFloat (scores e)));
     key "histories"
       (PDict (map (λ h, (uid_key h.1, PList (map observation_value h.2)))
                (sort_by by_key (map_to_list (histories e)))));
     key "hotkeys" (PDict (map (λ p, (uid_key p.1, PStr p.2)) (map_to_list (hotkeys e))))].

(** [write] is the outcome of the calls that write, sync and replace the file; [file]
    is what reading it gives. *)
Definition save_scores (path : pystr) (write : result unit) (e : engine) (file : result pyobj)
    : result (bool * result pyobj) :=
  if bool_decide (path = []) then mret (false, file)
  else
    match write with
    | Ok _ => mret (true, Ok (score_document e))
    | Raise x => if bool_decide (exn_cls x = OSError) then mret (false, file) else Raise x
    end.

(** The engine and the file: a migrated file is written back.  Every exception of the
    block is caught, and the engine only changes once the whole file is valid. *)
Definition load_scores (path : pystr) (now : float) (write : result unit) (e : engine)
    (file : result pyobj) : engine * result pyobj :=
  if bool_decide (path = []) then (e, file)
  else
    match (state ← file;
           '(num_uids, hs, hk, old) ← read_score_state e now state;
           e' ← restore e num_uids hs hk;
           mret (e', old)) with
    | Raise _ => (e, file)
    | Ok (e', old) =>
        (e', match save_scores path write e' file with
             | Ok (_, file') => if old : bool then file' else file
             | Raise _ => file
             end)
    end.
End load.

(** ** What is written is read back *)

Lemma foldl_insert {A} (l : list (Z * A)) (acc : gmap Z A) :
  NoDup (map fst l) → foldl (λ m p, <[p.1 := p.2]> m) acc l = list_to_map l ∪ acc.
Proof.
  revert acc. induction l as [|[k x] l IH]; intros acc Hnd; simpl; [by rewrite (left_id_L ∅ (∪))|].
  apply NoDup_cons in Hnd as [Hk Hnd]. rewrite IH by done.
  rewrite <-insert_union_l, insert_union_r; [done|].
  by apply not_elem_of_list_to_map_1.
Qed.

Lemma slice_from_neg {A} (n : Z) (l : list A) :
  1 <= n → slice_from (- n) l = drop (length l - Z.to_nat n) l.
Proof. intros Hn. unfold slice_from. rewrite (proj2 (Z.leb_gt _ _)) by lia. by rewrite Z.opp_involutive. Qed.

Lemma slice_from_twice {A} (n : Z) (l : list A) :
  1 <= n → slice_from (- n) (slice_from (- n) l) = slice_from (- n) l.
Proof.
  intros Hn. rewrite !slice_from_neg by done. rewrite length_drop.
  by replace (length l - (length l - Z.to_nat n) - Z.to_nat n)%nat with 0%nat by lia.
Qed.

Lemma slice_from_nonempty {A} (n : Z) (l : list A) : 1 <= n → l ≠ [] → slice_from (- n) l ≠ [].
Proof.
  intros Hn Hl Hs. apply (f_equal length) in Hs. rewrite slice_from_neg, length_drop in Hs by done.
  destruct l; [done|]. simpl in *. lia.
Qed.

Lemma mapM_map {A B C} (f : B → result C) (g : A → B) (h : A → C) (l : list A) :
  (∀ x, x ∈ l → f (g x) = Ok (h x)) → mapM f (map g l) = Ok (map h l).
Proof.
  intros Hf. apply mapM_Ok, Forall2_fmap, Forall_Forall2_diag, Forall_forall. intros x Hx. by apply Hf.
Qed.

(** Restoring: the histories become the kept ones. *)
Lemma restore_loop_spec `{PM : !PyMath, NP : !NumPy} (e : engine) (hs : list (Z * list observation)) :
  1 <= max_samples e → NoDup (map fst hs) →
  Forall (λ h, 0 <= h.1 < zlen (scores e) ∧ h.2 ≠ []) hs →
  ∃ e', restore_loop e hs = Ok e' ∧ zlen (scores e') = zlen (scores e) ∧
    histories e' = list_to_map (map (λ h, (h.1, slice_from (- max_samples e) h.2)) hs) ∪ histories e ∧
    min_samples e' = min_samples e ∧ max_samples e' = max_samples e.
Proof.
  revert e. induction hs as [|[uid h] hs IH]; intros e Hmx Hnd Hok; simpl.
  { exists e. by rewrite (left_id_L ∅ (∪)). }
  apply NoDup_cons in Hnd as [Huid Hnd]. apply Forall_cons in Hok as [[Hr Hne] Hok]. simpl in *.
  pose proof (slice_from_nonempty (max_samples e) h Hmx Hne) as Hk.
  destruct (slice_from (- max_samples e) h) as [|o k] eqn:Hs; [done|].
  unfold refresh_score. simpl. rewrite lookup_insert_eq, store_score_in_range by done.
  cbn [mbind result_bind mret result_ret].
  edestruct (IH (with_scores (with_histories e (<[uid:=o :: k]> (histories e)))
    (<[Z.to_nat uid:=history_score (min_samples e) (o :: k)]> (scores e)))) as (e' & He' & Hz & Hh & Hmn & Hm);
    [done|done|simpl; by rewrite zlen_insert|].
  exists e'. split; [exact He'|]. rewrite Hz, Hh. simpl. rewrite zlen_insert. split_and!; try done.
  rewrite <-insert_union_l, insert_union_r; [done|].
  apply not_elem_of_list_to_map_1. by rewrite <-list_fmap_compose.
Qed.

(** An engine whose state a restart may rely on: every miner with a history is known
    by its hotkey, and every known UID is a slot of the score vector. *)
Record owned (e : engine) : Prop := {
  owned_history uid : is_Some (histories e !! uid) → is_Some (hotkeys e !! uid);
  owned_range uid hk : hotkeys e !! uid = Some hk → 0 <= uid < zlen (scores e) ∧ hk ≠ []
}.

Section roundtrip.
Context `{PM : !PyMath, NP : !NumPy, NA : !NumPyArray, PR : !PyRepr}.

Lemma read_observation_value (o : observation) : good_obs o → read_observation (observation_value o) = Ok o.
Proof.
  destruct o as [ts p]. intros (H1 & H2 & H3 & H4). simpl in *. by rewrite H1, H2, H3, H4.
Qed.

Lemma read_histories_value (num_uids mx : Z) (hs acc : list (Z * list observation)) :
  NoDup (map fst (acc ++ hs)) →
  Forall (λ h, 0 <= h.1 < num_uids ∧ 1 <= zlen h.2 <= mx ∧ Forall good_obs h.2) hs →
  read_histories num_uids mx (map (λ h, (uid_key h.1, PList (map observation_value h.2))) hs) acc
  = Ok (acc ++ hs).
Proof.
  revert acc. induction hs as [|[uid h] hs IH]; intros acc Hnd Hok; simpl; [by rewrite app_nil_r|].
  apply Forall_cons in Hok as [(Hr & Hl & Hg) Hok]. simpl in *.
  rewrite py_int_str by lia. cbn [mbind result_bind].
  assert (Hni : uid ∉ map fst acc).
  { rewrite map_app in Hnd. apply NoDup_app in Hnd as (_ & Hd & _).
    intros Hu. apply (Hd uid Hu). rewrite map_cons. by left. }
  rewrite (bool_decide_eq_false_2 (uid ∈ map fst acc)) by done.
  rewrite (proj2 (Z.ltb_ge uid 0)), (proj2 (Z.leb_gt num_uids uid)) by lia. cbn [orb raise_if mbind result_bind].
  unfold read_history. assert (Hne : map observation_value h ≠ []).
  { destruct h; [unfold zlen in Hl; simpl in Hl; lia|done]. }
  rewrite (bool_decide_eq_false_2 (map observation_value h = [])) by done.
  unfold zlen in *. rewrite length_map, (proj2 (Z.ltb_ge _ _)) by lia. cbn [orb raise_if mbind result_bind].
  rewrite (mapM_map _ _ id); [|intros o Ho; rewrite Forall_forall in Hg; by apply read_observation_value, Hg].
  cbn [mbind result_bind]. rewrite map_id, IH; [by rewrite <-(assoc_L (++))| |done].
  by rewrite <-(assoc_L (++)).
Qed.

Lemma read_hotkeys_value (m : gmap Z pystr) :
  (∀ uid hk, m !! uid = Some hk → 0 <= uid) →
  read_hotkeys (PDict (map (λ p, (uid_key p.1, PStr p.2)) (map_to_list m))) = Ok m.
Proof.
  intros Hm. unfold read_hotkeys. cbn [items mbind result_bind].
  rewrite (mapM_map _ _ id).
  - cbn [mbind result_bind]. rewrite map_id, foldl_insert by apply NoDup_fst_map_to_list.
    by rewrite list_to_map_to_list, (right_id_L ∅ (∪)).
  - intros [uid hk] Hin%elem_of_map_to_list. cbn [fst snd int_of_key uid_key].
    by rewrite py_int_str by (by eapply Hm).
Qed.

(** The members of a document the engine wrote. *)
Section document.
Context (e : engine) (dflt : pyobj).
Local Abbreviation get k := (state_get (score_document e) k dflt).
Lemma get_version : get "version" = Ok (PInt 2). Proof. reflexivity. Qed.
Lemma get_num_uids : get "num_uids" = Ok (PInt (zlen (scores e))). Proof. reflexivity. Qed.
Lemma get_window : get "window_seconds" = Ok (PFloat (window_seconds e)). Proof. reflexivity. Qed.
Lemma get_max : get "max_samples" = Ok (PInt (max_samples e)). Proof. reflexivity. Qed.
Lemma get_min : get "min_samples" = Ok (PInt (min_samples e)). Proof. reflexivity. Qed.
Lemma get_scores : get "scores" = Ok (PList (map PFloat (scores e))). Proof. reflexivity. Qed.
Lemma get_histories : get "histories" =
  Ok (PDict (map (λ h, (uid_key h.1, PList (map observation_value h.2)))
               (sort_by by_key (map_to_list (histories e))))). Proof. reflexivity. Qed.
Lemma get_hotkeys : get "hotkeys" =
  Ok (PDict (map (λ p, (uid_key p.1, PStr p.2)) (map_to_list (hotkeys e)))). Proof. reflexivity. Qed.
End document.

(** The content of a document the engine wrote. *)
Lemma read_score_document (e e0 : engine) (now : float) :
  wf e → owned e → isfinite (window_seconds e) = true → fleb (window_seconds e) f0 = false →
  np_asarray (PList (map PFloat (scores e))) = Ok (Some (scores e)) →
  read_score_state e0 now (score_document e) =
  Ok (zlen (scores e),
      map (λ h, (h.1, slice_from (- max_samples e0) h.2)) (sort_by by_key (map_to_list (histories e))),
      hotkeys e, false).
Proof.
  intros Hwf Hown Hfin Hpos Hnp. pose proof (zlen_nonneg (scores e)).
  unfold read_score_state, read_version_2.
  rewrite get_version, get_num_uids, get_hotkeys. cbn [mbind result_bind py_eq_int orb negb raise_if plain_int Z.eqb Pos.eqb].
  rewrite (proj2 (Z.ltb_ge _ 0)) by lia. cbn [mbind result_bind mret result_ret].
  rewrite read_hotkeys_value by (intros uid hk Hhk; by eapply owned_range in Hhk as [[? _] _]).
  cbn [mbind result_bind].
  assert (Hrange : hotkeys_in_range (zlen (scores e)) (hotkeys e) = true).
  { apply forallb_forall. intros [uid hk] Hin%list_elem_of_In%elem_of_map_to_list. simpl.
    eapply owned_range in Hin as [Hr Hne]; [|done].
    rewrite (proj2 (Z.leb_le 0 uid)), (proj2 (Z.ltb_lt uid _)), bool_decide_eq_false_2 by (done || lia). done. }
  rewrite Hrange. cbn [negb raise_if mbind result_bind].
  rewrite get_window, get_max, get_min, get_histories, get_scores. cbn [mbind result_bind check_window plain_int].
  pose proof (wf_bounds e Hwf) as Hb.
  rewrite Hfin, Hpos, (proj2 (Z.ltb_ge _ 1)), (proj2 (Z.leb_le 1 _)), (proj2 (Z.leb_le _ (max_samples e))) by lia.
  cbn [negb orb andb mbind result_bind].
  rewrite (read_histories_value _ _ _ []).
  - cbn [mbind result_bind app]. unfold compare_stored_scores. rewrite Hnp. cbn [mbind result_bind].
    match goal with |- context [existsb ?f ?l] => assert (Hx : existsb f l = false) end.
    2:{ rewrite Hx. done. }
    apply not_true_iff_false. rewrite existsb_exists. intros (h & Hin & [_ Hn%bool_decide_eq_true]%andb_true_iff).
    apply in_map_iff in Hin as (h' & <- & Hin%list_elem_of_In). simpl in Hn.
    rewrite elem_of_sort_by in Hin. destruct h' as [uid h']. apply elem_of_map_to_list in Hin.
    destruct (owned_history e Hown uid) as [hk Hhk]; [by eexists|]. simpl in Hn. congruence.
  - simpl. rewrite sort_by_perm. apply NoDup_fst_map_to_list.
  - apply Forall_forall. intros [uid h]. rewrite elem_of_sort_by. intros Hin%elem_of_map_to_list. simpl.
    by apply (wf_hist e Hwf).
Qed.

(** Reading a written document into an engine [e0]: the scores are recomputed from the
    kept histories. *)
Lemma load_saved (path : pystr) (e e0 : engine) (now : float) (write : result unit) :
  path ≠ [] → wf e → wf e0 → owned e → isfinite (window_seconds e) = true →
  fleb (window_seconds e) f0 = false →
  np_asarray (PList (map PFloat (scores e))) = Ok (Some (scores e)) →
  ∃ e1, load_scores path now write e0 (Ok (score_document e)) = (e1, Ok (score_document e)) ∧
    wf e1 ∧ hotkeys e1 = hotkeys e ∧ zlen (scores e1) = zlen (scores e) ∧
    histories e1 = slice_from (- max_samples e0) <$> histories e ∧ min_samples e1 = min_samples e0.
Proof.
  intros Hpath Hwf Hwf0 Hown Hfin Hpos Hnp. pose proof (wf_bounds e0 Hwf0) as Hb.
  set (hs := sort_by by_key (map_to_list (histories e))).
  set (kept := map (λ h : Z * list observation, (h.1, slice_from (- max_samples e0) h.2)) hs).
  assert (Hfst : map fst kept = map fst hs) by (unfold kept; by rewrite map_map).
  assert (Hnd : NoDup (map fst hs)) by (unfold hs; rewrite sort_by_perm; apply NoDup_fst_map_to_list).
  assert (Hin : ∀ uid h, (uid, h) ∈ hs → histories e !! uid = Some h).
  { intros uid h Hi. unfold hs in Hi. rewrite elem_of_sort_by in Hi. by apply elem_of_map_to_list in Hi. }
  set (start := with_histories (with_scores e0 (np_zeros (zlen (scores e)))) ∅).
  assert (Hz : zlen (scores start) = zlen (scores e)).
  { unfold start, np_zeros, zlen. simpl. rewrite length_replicate. unfold zlen. lia. }
  destruct (restore_loop_spec start kept) as (e' & He' & Hz' & Hh & Hmn & Hm); [simpl; lia|by rewrite Hfst| |].
  { apply Forall_forall. intros [uid h'] Hi. unfold kept in Hi.
    apply list_elem_of_fmap in Hi as ([uid' h] & [= -> ->] & Hi%Hin).
    destruct (wf_hist e Hwf uid' h Hi) as (Hr & Hl & _). cbn [fst snd]. rewrite Hz. split; [done|].
    apply slice_from_nonempty; [lia|]. intros ->. unfold zlen in Hl. simpl in Hl. lia. }
  assert (Hres : restore e0 (zlen (scores e)) kept (hotkeys e) = Ok (with_hotkeys e' (hotkeys e))).
  { unfold restore. fold start. by rewrite He'. }
  exists (with_hotkeys e' (hotkeys e)). split_and!.
  - unfold load_scores. rewrite bool_decide_eq_false_2 by done. cbn [mbind result_bind].
    rewrite read_score_document by done. cbn [mbind result_bind]. fold hs kept. rewrite Hres.
    cbn [mbind result_bind mret result_ret]. unfold save_scores. rewrite bool_decide_eq_false_2 by done.
    destruct write as [[]|x]; [done|]. by case_bool_decide.
  - eapply wf_restore; [exact Hwf0| |exact Hres]. split; [apply zlen_nonneg|].
    apply Forall_forall. intros [uid h'] Hi. unfold kept in Hi.
    apply list_elem_of_fmap in Hi as ([uid' h] & [= -> ->] & Hi%Hin).
    destruct (wf_hist e Hwf uid' h Hi) as (Hr & Hl & Hg). simpl. split; [lia|].
    rewrite slice_from_neg by lia. by apply Forall_drop.
  - done.
  - simpl. by rewrite Hz', Hz.
  - simpl. rewrite Hh. unfold start. simpl. rewrite (right_id_L ∅ (∪)).
    unfold kept. rewrite map_map. simpl.
    rewrite (map_ext _ (prod_map id (slice_from (- max_samples e0)))).
    2:{ intros [uid h]. simpl. by rewrite slice_from_twice by lia. }
    change (map (prod_map id (slice_from (- max_samples e0))) hs)
      with (prod_map id (slice_from (- max_samples e0)) <$> hs).
    rewrite list_to_map_fmap. f_equal. rewrite <-(list_to_map_to_list (histories e)).
    apply list_to_map_proper; [done|]. apply sort_by_perm.
  - simpl. by rewrite Hmn.
Qed.
End roundtrip.

(** A window already holds no more than the latest observations. *)
Lemma window_kept `{PM : !PyMath, NP : !NumPy} (e : engine) :
  wf e → slice_from (- max_samples e) <$> histories e = histories e.
Proof.
  intros Hwf. apply map_eq. intros uid. rewrite lookup_fmap.
  destruct (histories e !! uid) as [h|] eqn:Hu; [|done]. simpl. f_equal.
  pose proof (wf_bounds e Hwf). destruct (wf_hist e Hwf uid h Hu) as (_ & Hl' & _).
  rewrite slice_from_neg by lia. unfold zlen in Hl'.
  by replace (length h - Z.to_nat (max_samples e))%nat with 0%nat by lia.
Qed.

Lemma wf_scores_eq `{PM : !PyMath, NP : !NumPy} (e e' : engine) :
  wf e → wf e' → zlen (scores e') = zlen (scores e) → histories e' = histories e →
  min_samples e' = min_samples e → scores e' = scores e.
Proof.
  intros Hwf Hwf' Hz Hh Hmn. unfold zlen in Hz. apply list_eq. intros i.
  destruct (decide (i < length (scores e))%nat) as [Hi|Hi].
  - rewrite (wf_scores e), (wf_scores e') by (done || lia). by rewrite Hh, Hmn.
  - rewrite !lookup_ge_None_2 by lia. done.
Qed.

(** (roundtrip): the score window survives a restart.  Once [_save_scores] says the
    file was replaced, [_load_scores] in a new validator brings back the hotkeys and
    the histories, cut to the latest observations if the release keeps fewer, and
    with the same window sizes exactly the scores; the file itself is not touched. *)
Theorem scores_survive_restart `{PM : !PyMath, NP : !NumPy, NA : !NumPyArray, PR : !PyRepr}
    (path : pystr) (e e0 : engine) (now : float) (write write' : result unit)
    (file file' : result pyobj) :
  wf e → wf e0 → owned e → isfinite (window_seconds e) = true → fleb (window_seconds e) f0 = false →
  np_asarray (PList (map PFloat (scores e))) = Ok (Some (scores e)) →
  save_scores path write e file = Ok (true, file') →
  ∃ e1, load_scores path now write' e0 file' = (e1, file') ∧ wf e1 ∧ owned e1 ∧
    hotkeys e1 = hotkeys e ∧ histories e1 = slice_from (- max_samples e0) <$> histories e ∧
    (max_samples e0 = max_samples e → min_samples e0 = min_samples e →
     histories e1 = histories e ∧ scores e1 = scores e).
Proof.
  intros Hwf Hwf0 Hown Hfin Hpos Hnp. unfold save_scores.
  case_bool_decide as Hpath; [done|]. destruct write as [[]|x]; [|by case_bool_decide].
  intros [= <-].
  destruct (load_saved path e e0 now write') as (e1 & Hl & Hwf1 & Hhk & Hz & Hh & Hmn); try done.
  exists e1. split; [done|]. split; [done|]. split.
  { constructor.
    - intros uid. rewrite Hh, Hhk, lookup_fmap, fmap_is_Some. apply (owned_history e Hown).
    - intros uid hk. rewrite Hhk, Hz. apply (owned_range e Hown). }
  split; [done|]. split; [done|]. intros Hmx Hmn'.
  assert (Hsame : histories e1 = histories e) by (rewrite Hh, Hmx; by apply window_kept).
  split; [done|]. apply wf_scores_eq; try done. by rewrite Hmn.
Qed.

(** ** Witness *)

Definition list_array : NumPyArray :=
  {| np_asarray := λ v, match v with PList l => Some <$> mapM py_float l | _ => Ok None end |}.
Definition no_repr : PyRepr := {| py_repr := λ _, [] |}.

(** Three slots, a window of two samples; UID 0 was paid twice. *)
Definition engine_b : engine :=
  Engine f1 2 1 true None [f1; f0; f0] {[ 0 := [(f1, f1); (f2, f1)] ]}
    (list_to_map [(0, ustr "a"); (2, ustr "b")]).

(** A fresh engine with a window of one sample. *)
Definition engine_c : engine := Engine f1 1 1 true None [] ∅ ∅.

Lemma scores_survive_restart_witness :
  ∃ e1 : engine, hotkeys e1 !! 2 = Some (ustr "b") ∧ histories e1 !! 0 = Some [(f2, f1)].
Proof.
  destruct (scores_survive_restart (PM := naive_math) (NP := naive_numpy) (NA := list_array) (PR := no_repr)
    (ustr "s.json") engine_b engine_c f1 (Ok ()) (Ok ()) (raise OSError "no file")
    (Ok (score_document engine_b))) as (e1 & _ & _ & _ & Hhk & Hh & _).
  - constructor; [simpl; lia| |].
    + intros uid h Hh. simpl in Hh. apply lookup_singleton_Some in Hh as [<- <-].
      split; [vm_compute; by split|]. split; [vm_compute; by split|]. repeat constructor.
    + intros i Hi. simpl in Hi. destruct i as [|[|[|i]]]; [vm_compute; reflexivity..|lia].
  - constructor; [simpl; lia| |].
    + intros uid h Hh. simpl in Hh. by rewrite lookup_empty in Hh.
    + intros i Hi. simpl in Hi. lia.
  - constructor.
    + intros uid [h Hh]. simpl in Hh. apply lookup_singleton_Some in Hh as [<- _]. by eexists.
    + intros uid hk Hhk. simpl in Hhk. apply lookup_insert_Some in Hhk as [[<- <-]|[_ Hhk]].
      { split; [vm_compute; by split|done]. }
      apply lookup_insert_Some in Hhk as [[<- <-]|[_ Hhk]]; [|by rewrite lookup_empty in Hhk].
      split; [vm_compute; by split|done].
  - reflexivity.
  - reflexivity.
  - vm_compute. reflexivity.
  - reflexivity.
  - exists e1. rewrite Hhk, Hh. split; reflexivity.
Defined.
