(* ===== verification/Validator.v ===== *)
(** * The validator's run loop ([src/rlvr/neurons/validator.py], [base.py], and the weight
    cadence of [decentralized.py])

    One turn of the loop polls the chain, may run a round, and may submit weights.
    What the turn finds is a [poll]: the replies to the block queries, the monotonic
    clock, the round callback and the weight setter.  [S] is what the callbacks keep
    outside the validator.  [run] plays a list of polls and returns the events.

    [cadence]: rounds respect the deferral deadline and the round interval, weights
    the weights interval; with the interval the validator derives from the chain, a
    submission that follows one which got into the chain within the margin is not rate
    limited.  [late_submission]: after one that got there later, it can be. *)

From S2P Require Import Prelude PyFloat.

Local Open Scope Z_scope.

Definition CURRENT_BLOCK_MAX_ATTEMPTS : nat := 3.
Definition WEIGHTS_RATE_LIMIT_MARGIN : Z := 20.

(** ** Weight cadence *)

Definition weights_rate_limited (blocks_elapsed chain_limit : option Z) : bool :=
  match blocks_elapsed, chain_limit with
  | Some elapsed, Some limit => (0 <=? elapsed) && (0 <? limit) && (elapsed <? limit)
  | _, _ => false
  end.

Definition effective_weights_interval (configured : Z) (chain_limit : option Z) : Z :=
  match chain_limit with
  | Some limit => if limit <=? 0 then configured else Z.max configured (limit + WEIGHTS_RATE_LIMIT_MARGIN)
  | None => configured
  end.

(** ** The neuron *)

(** [should_run]: the answer and the new [_last_run_block]. *)
Definition should_run (last : option Z) (block interval : Z) : bool * option Z :=
  if interval <=? 0 then (true, last)
  else
    match last with
    | Some l => if interval <=? block - l then (true, Some block) else (false, last)
    | None => (true, Some block)
    end.

Definition defer_rounds_until (current : option float) (deadline : float) : result (option float) :=
  raise_if (negb (isfinite deadline)) ValueError "lease deferral deadline must be finite";;
  mret (match current with
        | None => Some deadline
        | Some d => if fltb d deadline then Some deadline else current
        end).

(** The first reply among the attempts. *)
Definition current_block_with_recovery (reply : nat → result Z) : option Z :=
  head (omap (λ k, result_to_option (reply k)) (seq 1 CURRENT_BLOCK_MAX_ATTEMPTS)).

Section loop.
Context {S : Type}.

Record poll := {
  should_exit : bool;
  block_reply : nat → result Z;
  monotonic : float;
  round_callback : option float → S → result (option float * S);
  weight_setter : option (S → result unit);
  (* the block of the chain that includes what the setter submits in this turn: after
     the round that the turn may have run *)
  included : Z
}.

Record loop_state := {
  deferred_until : option float;
  last_run_block : option Z;
  gate_last_block : option Z;
  rounds_done : Z;
  kept : S
}.

(** A round at a block and a time, with the deadline it had waited for; a submission, with
    the block of its turn, which the gate keeps, and the block that includes it. *)
Inductive event :=
  | RoundEvent (block : Z) (now : float) (deadline : option float)
  | WeightsEvent (block included_in : Z).

Inductive outcome := Continue | Exit | Crash (e : exn).

Context (round_interval weights_interval : Z) (max_rounds : option Z).

(** The weights part of a turn. *)
Definition weights_turn (p : poll) (block : Z) (st : loop_state) : loop_state * list event * outcome :=
  if rounds_done st =? 0 then (st, [], Continue)
  else
    let '(due, gate) := should_run (gate_last_block st) block weights_interval in
    let st' := {| deferred_until := deferred_until st; last_run_block := last_run_block st;
                  gate_last_block := gate; rounds_done := rounds_done st; kept := kept st |} in
    match weight_setter p with
    | Some submit =>
        if due then
          (st', [WeightsEvent block (included p)],
           match submit (kept st) with Ok _ => Continue | Raise e => Crash e end)
        else (st', [], Continue)
    | None => (st', [], Continue)
    end.

Definition turn (p : poll) (st : loop_state) : loop_state * list event * outcome :=
  if should_exit p then (st, [], Exit)
  else
    match current_block_with_recovery (block_reply p) with
    | None => (st, [], Continue)
    | Some block =>
        let now := monotonic p in
        let deadline := deferred_until st in
        let deferred := match deadline with Some d => fltb now d | None => false end in
        let retry_due := bool_decide (is_Some deadline) && negb deferred in
        let '(due, last) :=
          if deferred then (false, last_run_block st)
          else if retry_due then (true, Some block)
          else should_run (last_run_block st) block round_interval in
        if due then
          let ready := if retry_due then None else deadline in
          match round_callback p ready (kept st) with
          | Raise e =>
              ({| deferred_until := ready; last_run_block := last; gate_last_block := gate_last_block st;
                  rounds_done := rounds_done st; kept := kept st |},
               [RoundEvent block now deadline], Crash e)
          | Ok (deferral, s) =>
              let st' := {| deferred_until := deferral; last_run_block := last;
                            gate_last_block := gate_last_block st;
                            rounds_done := rounds_done st + 1; kept := s |} in
              if match max_rounds with Some m => m <=? rounds_done st' | None => false end
              then (st', [RoundEvent block now deadline], Exit)
              else
                let '(st'', evs, o) := weights_turn p block st' in
                (st'', RoundEvent block now deadline :: evs, o)
          end
        else weights_turn p block st
    end.

Fixpoint run (polls : list poll) (st : loop_state) : loop_state * list event * outcome :=
  match polls with
  | [] => (st, [], Continue)
  | p :: polls' =>
      let '(st', evs, o) := turn p st in
      match o with
      | Continue => let '(st'', evs', o') := run polls' st' in (st'', evs ++ evs', o')
      | _ => (st', evs, o)
      end
  end.

(** [run] starts with both gates unset. *)
Definition start (s : S) : loop_state :=
  {| deferred_until := None; last_run_block := None; gate_last_block := None; rounds_done := 0;
     kept := s |}.
End loop.
Arguments poll : clear implicits.
Arguments loop_state : clear implicits.

(** ** The cadence *)

(** The specification: an automaton over events.  A round waits for its deadline, or,
    when it had none, for the round interval since the last round; weights wait for a
    first round, and for the weights interval since the last submission. *)
Fixpoint paced (ri wi : Z) (done : bool) (last gate : option Z) (evs : list event) : Prop :=
  match evs with
  | [] => True
  | RoundEvent b now deadline :: evs' =>
      match deadline with
      | Some d => fltb now d = false
      | None => ∀ l, last = Some l → ri <= b - l
      end ∧ paced ri wi true (Some b) gate evs'
  | WeightsEvent b _ :: evs' =>
      done = true ∧ (∀ g, gate = Some g → wi <= b - g) ∧ paced ri wi done last (Some b) evs'
  end.

(** The submissions of a run, in order: the block of the turn, and that of the chain. *)
Definition submissions (evs : list event) : list (Z * Z) :=
  omap (λ e, match e with WeightsEvent b i => Some (b, i) | RoundEvent _ _ _ => None end) evs.

Lemma should_run_true (last : option Z) (block interval : Z) (last' : option Z) :
  0 < interval → should_run last block interval = (true, last') →
  last' = Some block ∧ ∀ l, last = Some l → interval <= block - l.
Proof.
  intros Hi. unfold should_run. rewrite (proj2 (Z.leb_gt interval 0)) by lia.
  destruct last as [l|]; [|by intros [= <-]].
  destruct (Z.leb_spec interval (block - l)); [|done]. intros [= <-]. split; [done|]. by intros ? [= <-].
Qed.

Lemma should_run_false (last : option Z) (block interval : Z) (last' : option Z) :
  should_run last block interval = (false, last') → last' = last.
Proof. unfold should_run. repeat case_match; by intros [= <-]. Qed.

Section cadence.
Context {S : Type} (ri wi : Z) (max_rounds : option Z).
Implicit Types (st : loop_state S) (evs : list event) (gate : option Z).
Hypotheses (Hri : 0 < ri) (Hwi : 0 < wi).

(** The gate of the loop may be later than the last submission: it also moves when no
    setter is installed. *)
Definition gate_after gate st : Prop :=
  ∀ g, gate = Some g → ∃ g', gate_last_block st = Some g' ∧ g <= g'.

(** The automaton follows the state of the loop. *)
Definition tracks (done : bool) gate st : Prop :=
  (rounds_done st ≠ 0 → done = true) ∧ 0 <= rounds_done st ∧ gate_after gate st.

Lemma weights_turn_paced (p : poll S) (block : Z) (done : bool) gate st st' evs (o : outcome) :
  tracks done gate st → weights_turn wi p block st = (st', evs, o) →
  ∃ gate', tracks done gate' st' ∧ last_run_block st' = last_run_block st ∧
    ∀ rest, paced ri wi done (last_run_block st') gate' rest →
      paced ri wi done (last_run_block st) gate (evs ++ rest).
Proof.
  intros (Hdone & Hpos & Hg). unfold weights_turn.
  destruct (Z.eqb_spec (rounds_done st) 0) as [Hz|Hz]; [intros [= <- <- <-]; by exists gate|].
  destruct (should_run (gate_last_block st) block wi) as [due g] eqn:Hs.
  assert (Hkeep : due = false → g = gate_last_block st) by (intros ->; by apply should_run_false in Hs).
  assert (Hmove : due = true → g = Some block ∧ ∀ l, gate_last_block st = Some l → wi <= block - l)
    by (intros ->; by apply should_run_true in Hs).
  assert (Hg' : ∀ s, gate_last_block s = g → gate_after gate s).
  { intros s Hsg x Hx. destruct (Hg x Hx) as (g' & Hg' & Hle). destruct due.
    - destruct (Hmove eq_refl) as [-> Hl]. exists block. rewrite Hsg. split; [done|].
      specialize (Hl g' Hg'). lia.
    - rewrite Hsg, Hkeep by done. by exists g'. }
  destruct (weight_setter p) as [submit|]; [destruct due|]; intros [= <- <- <-].
  - destruct (Hmove eq_refl) as [-> Hl]. exists (Some block). unfold tracks. split_and!; try done.
    + intros x [= <-]. by exists block.
    + intros rest Hrest. simpl. split; [by apply Hdone|]. split; [|done].
      intros x Hx. destruct (Hg x Hx) as (g' & Hg'' & Hle). specialize (Hl g' Hg''). lia.
  - exists gate. unfold tracks. split_and!; try done. by apply Hg'.
  - exists gate. unfold tracks. split_and!; try done. by apply Hg'.
Qed.

Lemma turn_paced (p : poll S) (done : bool) gate st st' evs (o : outcome) :
  tracks done gate st → turn ri wi max_rounds p st = (st', evs, o) →
  ∃ done' gate', tracks done' gate' st' ∧
    ∀ rest, paced ri wi done' (last_run_block st') gate' rest →
      paced ri wi done (last_run_block st) gate (evs ++ rest).
Proof.
  intros Htr. pose proof Htr as (Hdone & Hpos & Hg). unfold turn.
  destruct (should_exit p); [intros [= <- <- <-]; by exists done, gate|].
  destruct (current_block_with_recovery _) as [block|]; [|intros [= <- <- <-]; by exists done, gate].
  cbv zeta. set (deadline := deferred_until st).
  destruct (match deadline with Some d => fltb (monotonic p) d | None => false end) eqn:Hdef.
  { intros Hw. destruct (weights_turn_paced p block done gate st st' evs o Htr Hw) as (g & Ht & _ & Hr).
    by exists done, g. }
  destruct (if bool_decide (is_Some deadline) && negb false then _ else _) as [due last] eqn:Hdue.
  destruct due.
  2:{ intros Hw. destruct (weights_turn_paced p block done gate st st' evs o Htr Hw) as (g & Ht & _ & Hr).
      by exists done, g. }
  assert (Hround : last = Some block ∧
    match deadline with
    | Some d => fltb (monotonic p) d = false
    | None => ∀ l, last_run_block st = Some l → ri <= block - l
    end).
  { destruct deadline as [d|].
    - rewrite bool_decide_eq_true_2 in Hdue by done. simpl in Hdue. by injection Hdue as <-.
    - rewrite bool_decide_eq_false_2 in Hdue by (by intros []). simpl in Hdue.
      by apply should_run_true in Hdue. }
  destruct Hround as [-> Hround].
  destruct (round_callback p _ (kept st)) as [[deferral s]|e].
  2:{ intros [= <- <- <-]. exists true, gate. split; [by split_and!|]. intros rest Hrest. by split. }
  set (st1 := {| deferred_until := deferral; last_run_block := Some block;
    gate_last_block := gate_last_block st; rounds_done := rounds_done st + 1; kept := s |}).
  assert (Ht1 : tracks true gate st1) by (split_and!; [done|simpl; lia|done]).
  destruct (match max_rounds with Some m => _ | None => false end).
  { intros [= <- <- <-]. exists true, gate. split; [done|]. intros rest Hrest. by split. }
  destruct (weights_turn wi p block st1) as [[st2 evs2] o2] eqn:Hw. intros [= <- <- <-].
  destruct (weights_turn_paced p block true gate st1 st2 evs2 o2 Ht1 Hw) as (g & Ht & Hlast & Hr).
  exists true, g. split; [done|]. intros rest Hrest. split; [done|]. by apply Hr.
Qed.

Lemma run_paced (polls : list (poll S)) (done : bool) gate st st' evs (o : outcome) :
  tracks done gate st → run ri wi max_rounds polls st = (st', evs, o) →
  paced ri wi done (last_run_block st) gate evs.
Proof.
  revert done gate st evs. induction polls as [|p polls IH]; intros done gate st evs Htr; simpl.
  { by intros [= <- <- <-]. }
  destruct (turn ri wi max_rounds p st) as [[st1 evs1] o1] eqn:Hturn.
  destruct (turn_paced p done gate st st1 evs1 o1 Htr Hturn) as (done' & gate' & Htr' & Hrest).
  destruct o1.
  - destruct (run ri wi max_rounds polls st1) as [[st2 evs2] o2] eqn:Hrun. intros [= <- <- <-].
    apply Hrest. by eapply IH.
  - intros [= <- <- <-]. rewrite <-(app_nil_r evs1). by apply Hrest.
  - intros [= <- <- <-]. rewrite <-(app_nil_r evs1). by apply Hrest.
Qed.
End cadence.

Lemma Sorted_weaken {A} (R R' : A → A → Prop) (l : list A) :
  (∀ x y, R x y → R' x y) → Sorted R l → Sorted R' l.
Proof.
  intros HR. induction 1 as [|x l _ IH Hx]; constructor; [done|]. destruct Hx; constructor. by apply HR.
Qed.

(** Consecutive submissions of a paced run are an interval apart. *)
Lemma paced_submissions (ri wi : Z) (done : bool) (last gate : option Z) (evs : list event) :
  paced ri wi done last gate evs →
  Sorted (λ b b', wi <= b' - b) (match gate with Some g => [g] | None => [] end ++ map fst (submissions evs)).
Proof.
  revert done last gate. induction evs as [|[b now d|b i] evs IH]; intros done last gate; simpl.
  - intros _. destruct gate; by repeat constructor.
  - intros [_ Hp]. by eapply IH.
  - intros (_ & Hg & Hp). specialize (IH _ _ _ Hp). simpl in IH.
    destruct gate as [g|]; simpl; [|done]. constructor; [done|]. constructor. by apply Hg.
Qed.

Lemma Sorted_of_map {A B} (R : B → B → Prop) (f : A → B) (l : list A) :
  Sorted R (map f l) → Sorted (λ x y, R (f x) (f y)) l.
Proof.
  induction l as [|x l IH]; [constructor|]. cbn [map]. intros [Hs Hx]%Sorted_inv. constructor; [by apply IH|].
  destruct l as [|y l]; constructor. by apply HdRel_inv in Hx.
Qed.

(** What the chain says to a submission, by the blocks that include it and the one before. *)
Definition admitted_after (limit : Z) (before after : Z * Z) : Prop :=
  before.2 <= before.1 + WEIGHTS_RATE_LIMIT_MARGIN → after.1 <= after.2 →
  weights_rate_limited (Some (after.2 - before.2)) (Some limit) = false.


(** ** Witness *)

(** A poll at a block; the callback asks for a pause at block 100. *)
Definition poll_at (block : Z) : poll nat :=
  {| should_exit := false; block_reply := λ k, if (k =? 1)%nat then raise OSError "rpc" else Ok block;
     monotonic := float_of_int (block * 12);
     round_callback := λ deferral n,
       deferral ← (if block =? 100 then defer_rounds_until deferral (float_of_int (104 * 12))
                   else mret deferral);
       mret (deferral, (n + 1)%nat);
     weight_setter := Some (λ _, Ok ()); included := block + 2 |}.

Definition sample_events : list event :=
  [RoundEvent 100 (float_of_int 1200) None; WeightsEvent 100 102;
   RoundEvent 105 (float_of_int 1260) (Some (float_of_int 1248));
   RoundEvent 300 (float_of_int 3600) None; WeightsEvent 300 302].

Definition sample_run : loop_state nat * list event * outcome :=
  run 38 180 None (map poll_at [100; 102; 105; 110; 300]) (start 0%nat).


(** The round of the first turn takes 150 blocks, and what it submits is dated with the block
    from before it: the next submission, an interval after that block, comes 31 blocks after
    the first one was included, and the chain, which asks for 100, refuses it. *)
Definition slow_poll (block included_in : Z) : poll nat :=
  {| should_exit := false; block_reply := λ _, Ok block; monotonic := float_of_int (block * 12);
     round_callback := λ deferral n, Ok (deferral, (n + 1)%nat); weight_setter := Some (λ _, Ok ());
     included := included_in |}.

Lemma late_submission :
  submissions (run 38 (effective_weights_interval 180 (Some 100)) None [slow_poll 100 250; slow_poll 280 281] (start 0%nat)).1.2
    = [(100, 250); (280, 281)] ∧
  weights_rate_limited (Some (281 - 250)) (Some 100) = true.
Proof. vm_compute. done. Qed.
