(* ===== verification/Release.v ===== *)
(** * Release policy ([src/rlvr/policy.py], [src/rlvr/v3/release.py])

    [RELEASE_POLICY] is the policy the validator runs with, [round_policy] what a round
    gets of it.  The service user and the path of docker are arguments.  The log line
    [summary] is in Tools. *)

From Stdlib Require Import SpecFloat.
From S2P Require Import Prelude PyFloat Text Json JsonSpec Canonical CanonicalSpec Wire Identity Api EvalEngine FileSystem Archive Download Supervisor Manifest Feedback Patch Grading Round.

Local Open Scope Z_scope.

Record ValidatorPolicy := {
  version : pystr;
  challenges_per_round : Z;
  verification_runs : Z;
  dispatch_fraction : float;
  payment_speed_half_life_ms : float;
  payment_speed_floor : float;
  owner_burn_share : float;
  score_window_max_samples : Z;
  score_window_min_samples : Z;
  policy_rank_decay : float;
  min_weight_observations : Z;
  decay_nonresponders : bool;
  round_interval_blocks : Z;
  weights_interval_blocks : Z;
  rust_image : pystr;
  rustc_version : pystr;
  rust_edition : pystr;
  rustc_flags : list pystr;
  rust_judge_version : pystr;
  rust_compile_timeout_s : float;
  rust_artifact_max_bytes : Z;
  rust_memory : pystr;
  rust_tmpfs_bytes : Z;
  problem_response_read_bytes : Z;
  v3_artifact_origins : list pystr;
  v3_execution_profile_id : pystr;
  v3_image : pystr;
  v3_memory_bytes : Z;
  v3_cpus : Z;
  v3_pids_limit : Z;
  v3_tmpfs_bytes : Z;
  v3_workspace_compressed_bytes : Z;
  v3_workspace_bytes : Z;
  v3_verifier_compressed_bytes : Z;
  v3_verifier_expanded_bytes : Z;
  v3_max_file_bytes : Z;
  v3_patch_bytes : Z;
  v3_script_bytes : Z;
  v3_problem_response_read_bytes : Z;
  v3_miners_per_task : Z;
  v3_commit_quorum : Z;
  v3_min_lease_s : Z
}.

(** The decimal literal [n / d]. *)
Definition literal (n d : Z) : float := fdiv (float_of_int n) (float_of_int d).

Definition RELEASE_POLICY : ValidatorPolicy :=
  {| version := ustr "2026-08-10"; challenges_per_round := 1; verification_runs := 1; dispatch_fraction := literal 1 2;
     payment_speed_half_life_ms := float_of_int 180000; payment_speed_floor := f1;
     owner_burn_share := f0; score_window_max_samples := 100; score_window_min_samples := 12;
     policy_rank_decay := literal 995 1000; min_weight_observations := 4; decay_nonresponders := true;
     round_interval_blocks := 38; weights_interval_blocks := 180;
     rust_image := ustr
       "ghcr.io/hone-subnet-org/hone-rust-sandbox@sha256:bc05667bf1dacdbeb1491f15aacfeacc99ef3607f3b65274d62a509a003625fa";
     rustc_version := ustr "1.89.0"; rust_edition := ustr "2021"; rustc_flags := [ustr "-C"; ustr "opt-level=2"];
     rust_judge_version := ustr "rust-exact-token-v1"; rust_memory := ustr "2g"; rust_compile_timeout_s := float_of_int 60;
     rust_artifact_max_bytes := 10000000; rust_tmpfs_bytes := 256 * 1024 * 1024;
     problem_response_read_bytes := 2 * 1024 * 1024;
     v3_artifact_origins := [ustr "https://hone-artifacts-o23247xbwz.s3.us-east-1.amazonaws.com:443"];
     v3_execution_profile_id := ustr "repo-polyglot-v1";
     v3_image := ustr
       "public.ecr.aws/t3h1r6x1/hone-subnet/polyglot-sandbox@sha256:87f7ea823a2ffde124040db0f271e59110e666afecfc68106c4b07fddb4eee08";
     v3_memory_bytes := 4 * 1024 ^ 3; v3_cpus := 2; v3_pids_limit := 256; v3_tmpfs_bytes := 1024 ^ 3;
     v3_workspace_compressed_bytes := 2 * 1024 ^ 3; v3_workspace_bytes := 10 * 1024 ^ 3;
     v3_verifier_compressed_bytes := 512 * 1024 ^ 2; v3_verifier_expanded_bytes := 2 * 1024 ^ 3;
     v3_max_file_bytes := 2 * 1024 ^ 3; v3_patch_bytes := 1024 ^ 2; v3_script_bytes := 1024 ^ 2;
     v3_problem_response_read_bytes := 32 * 1024 ^ 2; v3_miners_per_task := 128; v3_commit_quorum := 4;
     v3_min_lease_s := 600 |}.

Definition digest_pinned (image : pystr) : bool := contains (ustr "@sha256:") image.

Definition check_validator_policy (p : ValidatorPolicy) : result unit :=
  raise_if (negb (fltb f0 (dispatch_fraction p) && fleb (dispatch_fraction p) f1)) ValueError
    "dispatch_fraction must be in (0, 1]";;
  raise_if (negb (fleb f0 (payment_speed_floor p) && fleb (payment_speed_floor p) f1)) ValueError
    "payment_speed_floor must be in [0, 1]";;
  raise_if (negb (feqb (owner_burn_share p) f0)) ValueError "owner_burn_share must be zero";;
  raise_if (fleb (payment_speed_half_life_ms p) f0) ValueError
    "payment_speed_half_life_ms must be positive";;
  raise_if (negb ((1 <=? score_window_min_samples p)
                  && (score_window_min_samples p <=? score_window_max_samples p))) ValueError
    "score sample bounds are invalid";;
  raise_if (negb (fltb f0 (policy_rank_decay p) && fleb (policy_rank_decay p) f1)) ValueError
    "rank_decay must be in (0, 1]";;
  raise_if (negb ((1 <=? min_weight_observations p)
                  && (min_weight_observations p <=? score_window_max_samples p))) ValueError
    "min_weight_observations is outside the score window";;
  raise_if (challenges_per_round p <? 1) ValueError "challenges_per_round must be positive";;
  raise_if (verification_runs p <? 1) ValueError "verification_runs must be positive";;
  raise_if ((round_interval_blocks p <? 0) || (weights_interval_blocks p <? 0)) ValueError
    "block intervals must be non-negative";;
  raise_if (negb (digest_pinned (rust_image p))) ValueError "rust_image must be digest-pinned";;
  raise_if (negb (bool_decide (rust_edition p = ustr "2021") || bool_decide (rust_edition p = ustr "2024")))
    ValueError "unsupported Rust edition";;
  raise_if (fleb (rust_compile_timeout_s p) f0 || (rust_artifact_max_bytes p <=? 0)) ValueError
    "Rust compile limits must be positive";;
  raise_if ((rust_tmpfs_bytes p <=? 0) || (problem_response_read_bytes p <=? 0)) ValueError
    "Rust resource limits must be positive";;
  raise_if (bool_decide (v3_artifact_origins p = [])
            || existsb (λ o, negb (startswith (ustr "https://") o)) (v3_artifact_origins p)) ValueError
    "V3 artifact origins must be pinned HTTPS origins";;
  raise_if (negb (digest_pinned (v3_image p))) ValueError "V3 image must be digest-pinned";;
  raise_if (existsb (λ v, v <=? 0)
      [v3_memory_bytes p; v3_cpus p; v3_pids_limit p; v3_tmpfs_bytes p; v3_workspace_compressed_bytes p;
       v3_workspace_bytes p; v3_verifier_compressed_bytes p; v3_verifier_expanded_bytes p;
       v3_max_file_bytes p; v3_patch_bytes p; v3_script_bytes p; v3_miners_per_task p;
       v3_commit_quorum p; v3_min_lease_s p; v3_problem_response_read_bytes p]) ValueError
    "V3 resource limits must be positive integers".

(** [asdict(self)] *)
Definition policy_dict (p : ValidatorPolicy) : pyobj :=
  PDict (map (λ '(k, v), (PStr (ustr k), v))
    [("version", PStr (version p)); ("challenges_per_round", PInt (challenges_per_round p));
     ("verification_runs", PInt (verification_runs p)); ("dispatch_fraction", PFloat (dispatch_fraction p));
     ("payment_speed_half_life_ms", PFloat (payment_speed_half_life_ms p));
     ("payment_speed_floor", PFloat (payment_speed_floor p)); ("owner_burn_share", PFloat (owner_burn_share p));
     ("score_window_max_samples", PInt (score_window_max_samples p));
     ("score_window_min_samples", PInt (score_window_min_samples p)); ("rank_decay", PFloat (policy_rank_decay p));
     ("min_weight_observations", PInt (min_weight_observations p));
     ("decay_nonresponders", PBool (decay_nonresponders p));
     ("round_interval_blocks", PInt (round_interval_blocks p));
     ("weights_interval_blocks", PInt (weights_interval_blocks p)); ("rust_image", PStr (rust_image p));
     ("rustc_version", PStr (rustc_version p)); ("rust_edition", PStr (rust_edition p));
     ("rustc_flags", PList (map PStr (rustc_flags p))); ("rust_judge_version", PStr (rust_judge_version p));
     ("rust_compile_timeout_s", PFloat (rust_compile_timeout_s p));
     ("rust_artifact_max_bytes", PInt (rust_artifact_max_bytes p)); ("rust_memory", PStr (rust_memory p));
     ("rust_tmpfs_bytes", PInt (rust_tmpfs_bytes p));
     ("problem_response_read_bytes", PInt (problem_response_read_bytes p));
     ("v3_artifact_origins", PList (map PStr (v3_artifact_origins p)));
     ("v3_execution_profile_id", PStr (v3_execution_profile_id p)); ("v3_image", PStr (v3_image p));
     ("v3_memory_bytes", PInt (v3_memory_bytes p)); ("v3_cpus", PInt (v3_cpus p));
     ("v3_pids_limit", PInt (v3_pids_limit p)); ("v3_tmpfs_bytes", PInt (v3_tmpfs_bytes p));
     ("v3_workspace_compressed_bytes", PInt (v3_workspace_compressed_bytes p));
     ("v3_workspace_bytes", PInt (v3_workspace_bytes p));
     ("v3_verifier_compressed_bytes", PInt (v3_verifier_compressed_bytes p));
     ("v3_verifier_expanded_bytes", PInt (v3_verifier_expanded_bytes p));
     ("v3_max_file_bytes", PInt (v3_max_file_bytes p)); ("v3_patch_bytes", PInt (v3_patch_bytes p));
     ("v3_script_bytes", PInt (v3_script_bytes p));
     ("v3_problem_response_read_bytes", PInt (v3_problem_response_read_bytes p));
     ("v3_miners_per_task", PInt (v3_miners_per_task p)); ("v3_commit_quorum", PInt (v3_commit_quorum p));
     ("v3_min_lease_s", PInt (v3_min_lease_s p))]%string).

(** The first twelve hex digits of the digest of its JSON with sorted keys. *)
Definition fingerprint `{!FloatRepr, !Sha256} (p : ValidatorPolicy) : result pystr :=
  payload ← dumps (compact default_options) (sort_keys (policy_dict p));
  raw ← utf8_encode payload;
  mret (take 12 (hexdigest (sha256 raw))).

(** ** Sizing *)

Definition GRADING_CONCURRENCY_MAX : Z := 16.
Definition HOST_MEMORY_RESERVE_BYTES : Z := 4 * 1024 ^ 3.
Definition HOST_DISK_RESERVE_BYTES : Z := 2 * 1000 ^ 3.

(** Python's [//] and Rocq's [/] on [Z] both round down. *)
Definition default_grading_concurrency (p : ValidatorPolicy) (cpus memory_bytes free_disk_bytes : Z) : Z :=
  let by_cpu := cpus / v3_cpus p in
  let by_memory := (memory_bytes - HOST_MEMORY_RESERVE_BYTES) / v3_memory_bytes p in
  let by_disk := (free_disk_bytes - HOST_DISK_RESERVE_BYTES) / v3_workspace_bytes p in
  Z.max 1 (Z.min (Z.min (Z.min GRADING_CONCURRENCY_MAX by_cpu) by_memory) by_disk).

(** ** The policy of a round *)

Definition release_workspace_archive (p : ValidatorPolicy) : ArchiveLimits :=
  {| max_compressed_bytes := v3_workspace_compressed_bytes p;
     max_expanded_bytes := v3_workspace_bytes p; Archive.max_file_bytes := v3_max_file_bytes p;
     max_archive_entries := 200000; max_archive_path_bytes := 4096;
     max_zstd_window_bytes := 128 * 1024 ^ 2 |}.

Definition release_verifier_archive (p : ValidatorPolicy) : ArchiveLimits :=
  {| max_compressed_bytes := v3_verifier_compressed_bytes p;
     max_expanded_bytes := v3_verifier_expanded_bytes p; Archive.max_file_bytes := 512 * 1024 ^ 2;
     max_archive_entries := 20000; max_archive_path_bytes := 4096;
     max_zstd_window_bytes := 128 * 1024 ^ 2 |}.

(** The sandbox policy; the trusted user is the default of [SupervisorPolicy]. *)
Definition release_supervisor (p : ValidatorPolicy) (uid gid : Z) : SupervisorPolicy :=
  {| sp_image := v3_image p; candidate_uid := uid; candidate_gid := gid;
     memory_bytes := v3_memory_bytes p; cpus := v3_cpus p; pids_limit := v3_pids_limit p;
     tmpfs_bytes := v3_tmpfs_bytes p; Supervisor.max_file_bytes := v3_max_file_bytes p;
     watchdog_slack_s := 5; max_workspace_bytes := v3_workspace_bytes p; trusted_uid := 65534;
     trusted_gid := 65534 |}.

Definition release_trees (p : ValidatorPolicy) : TreeLimits :=
  {| max_entries := 200000; max_tree_file_bytes := v3_max_file_bytes p;
     max_total_file_bytes := v3_workspace_bytes p; max_path_bytes := 4096 |}.

(** [uid], [gid]: the service user; [docker]: whether [shutil.which] finds it. *)
Definition round_policy (p : ValidatorPolicy) (uid gid : Z) (docker : bool)
    (dispatch grading : Z) : result RoundPolicy :=
  raise_if ((uid =? 0) || (gid =? 0)) ValueError "V3 validator must run as an unprivileged service user";;
  raise_if (negb docker) ValueError "Docker is required for V3 grading";;
  check_archive_limits (release_workspace_archive p);;
  check_archive_limits (release_verifier_archive p);;
  let submissions := {| limit_patch_bytes := v3_patch_bytes p; limit_script_bytes := v3_script_bytes p |} in
  check_submission_limits submissions;;
  check_tree_limits (release_trees p);;
  let patch := {| max_patch_bytes := v3_patch_bytes p; git_timeout_s := 30 |} in
  check_patch_limits patch;;
  check_script_limits (v3_script_bytes p);;
  supervisor ← check_supervisor_policy (release_supervisor p uid gid);
  let policy :=
    {| workspace_archive := release_workspace_archive p; verifier_archive := release_verifier_archive p;
       submission_limits := submissions; tree_policy := release_trees p; patch_policy := patch;
       script_policy := v3_script_bytes p; supervisor_policy := supervisor;
       artifact_origins := list_to_set (v3_artifact_origins p);
       policy_profile_id := v3_execution_profile_id p;
       policy_verifier_policy := ustr "command-gold-digest-v1"; dispatch_concurrency := dispatch;
       grading_concurrency := grading; miners_per_task := v3_miners_per_task p;
       commit_quorum := v3_commit_quorum p; min_lease_s := v3_min_lease_s p |} in
  check_round_policy policy;;
  mret policy.

(** ** Properties *)

Lemma floor_bound (n r b q : Z) : 0 < b → q <= (n - r) / b → q * b + r <= n.
Proof. intros Hb Hq. pose proof (Z.mul_div_le (n - r) b Hb). nia. Qed.

(** (bounds): the default number of concurrent gradings is between 1 and 16, and
    unless it is 1 their sandboxes fit the host: CPUs, memory and disk, after the
    reserves. *)
Theorem default_grading_fits (p : ValidatorPolicy) (cpus memory disk : Z) :
  check_validator_policy p = Ok () →
  let c := default_grading_concurrency p cpus memory disk in
  1 <= c <= GRADING_CONCURRENCY_MAX ∧
  (1 < c → c * v3_cpus p <= cpus ∧ c * v3_memory_bytes p + HOST_MEMORY_RESERVE_BYTES <= memory ∧
           c * v3_workspace_bytes p + HOST_DISK_RESERVE_BYTES <= disk).
Proof.
  intros Hp c. unfold check_validator_policy in Hp. repeat apply guard_Ok in Hp as [_ Hp].
  apply raise_if_Ok in Hp. simpl in Hp. rewrite !orb_false_iff, !Z.leb_gt in Hp.
  destruct Hp as (Hmem & Hcpu & _ & _ & _ & Hws & _).
  assert (Hc : c = default_grading_concurrency p cpus memory disk) by done.
  unfold default_grading_concurrency, GRADING_CONCURRENCY_MAX in *. split; [lia|]. intros Hgt.
  split_and!.
  - pose proof (floor_bound cpus 0 (v3_cpus p) c Hcpu). rewrite Z.sub_0_r in *. lia.
  - apply floor_bound; lia.
  - apply floor_bound; lia.
Qed.

(** The release's limits pass their checks, whoever runs the validator. *)
Lemma release_limits (uid gid : Z) :
  let p := RELEASE_POLICY in
  check_archive_limits (release_workspace_archive p) = Ok () ∧
  check_archive_limits (release_verifier_archive p) = Ok () ∧
  check_submission_limits
    {| limit_patch_bytes := v3_patch_bytes p; limit_script_bytes := v3_script_bytes p |} = Ok () ∧
  check_tree_limits (release_trees p) = Ok () ∧
  check_patch_limits {| max_patch_bytes := v3_patch_bytes p; git_timeout_s := 30 |} = Ok () ∧
  check_script_limits (v3_script_bytes p) = Ok () ∧
  check_supervisor_policy (release_supervisor p uid gid) =
    (raise_if ((uid <? 1) || (gid <? 1)) ValueError "supervisor users must be unprivileged";;
     mret (release_supervisor p uid gid)).
Proof.
  split_and!; [vm_compute; reflexivity..|].
  unfold check_supervisor_policy.
  assert (Hi : image_pinned (sp_image (release_supervisor RELEASE_POLICY uid gid)) = true)
    by (vm_compute; reflexivity).
  rewrite Hi. cbn [negb raise_if mbind result_bind].
  assert (Hl : ∀ sp, sp = release_supervisor RELEASE_POLICY uid gid →
    existsb (λ v, v <? 1) [memory_bytes sp; cpus sp; pids_limit sp; tmpfs_bytes sp;
      Supervisor.max_file_bytes sp; watchdog_slack_s sp; max_workspace_bytes sp] = false)
    by (intros ? ->; vm_compute; reflexivity).
  rewrite Hl by done. cbn [raise_if mbind result_bind].
  cbn [existsb candidate_uid candidate_gid trusted_uid trusted_gid release_supervisor].
  by rewrite !orb_false_r.
Qed.

(** (safety): the release policy is a valid policy, and every round the validator
    starts under it has the limits the release fixes: it gets a policy that passes
    every check exactly when it does not run as root, docker is there, and the
    concurrencies are positive. *)
Theorem release_round_policy (uid gid dispatch grading : Z) (docker : bool) :
  check_validator_policy RELEASE_POLICY = Ok () ∧
  (is_ok (round_policy RELEASE_POLICY uid gid docker dispatch grading) = true ↔
   0 < uid ∧ 0 < gid ∧ docker = true ∧ 1 <= dispatch ∧ 1 <= grading) ∧
  ∀ policy, round_policy RELEASE_POLICY uid gid docker dispatch grading = Ok policy →
    check_round_policy policy = Ok () ∧ miners_per_task policy = 128 ∧ commit_quorum policy = 4 ∧
    min_lease_s policy = 600 ∧ check_archive_limits (workspace_archive policy) = Ok () ∧
    check_archive_limits (verifier_archive policy) = Ok () ∧
    check_tree_limits (tree_policy policy) = Ok () ∧ grading_concurrency policy = grading.
Proof.
  split; [vm_compute; reflexivity|].
  destruct (release_limits uid gid) as (H1 & H2 & H3 & H4 & H5 & H6 & H7).
  unfold round_policy. rewrite H1, H2, H3, H4, H5, H6, H7. cbn [mbind result_bind].
  assert (Hround : ∀ rp, dispatch_concurrency rp = dispatch → grading_concurrency rp = grading →
    miners_per_task rp = 128 → commit_quorum rp = 4 → min_lease_s rp = 600 →
    check_round_policy rp = Ok () ↔ 1 <= dispatch ∧ 1 <= grading).
  { intros rp Hd Hg Hm Hq Hl. unfold check_round_policy. rewrite Hd, Hg, Hm, Hq, Hl.
    rewrite !guard_Ok, !raise_if_Ok, (Z.ltb_ge dispatch), (Z.ltb_ge grading).
    split; [tauto|]. intros []. by split_and!. }
  split.
  - split.
    + intros [policy [Hr Hp]%guard_Ok]%is_ok_true. apply guard_Ok in Hp as [Hd Hp].
      apply bind_Ok in Hp as (sp & [Hu _]%guard_Ok & [Hp _]%seq_Ok). apply Hround in Hp; [|done..].
      bool_simpl. split_and!; try lia. by destruct docker.
    + intros (Hu & Hg & -> & Hd & Hgr).
      rewrite (proj2 (Z.eqb_neq uid 0)), (proj2 (Z.eqb_neq gid 0)), (proj2 (Z.ltb_ge uid 1)),
        (proj2 (Z.ltb_ge gid 1)) by lia.
      cbn [orb negb raise_if mbind result_bind mret result_ret].
      match goal with |- context [check_round_policy ?rp] =>
        rewrite (proj2 (Hround rp eq_refl eq_refl eq_refl eq_refl eq_refl) (conj Hd Hgr)) end.
      done.
  - intros policy [_ Hp]%guard_Ok. apply guard_Ok in Hp as [_ Hp].
    apply bind_Ok in Hp as (sp & [_ [= <-]]%guard_Ok & Hp). apply seq_Ok in Hp as [Hp [= <-]].
    split_and!; try done.
Qed.

(** ** Witness *)

Lemma default_grading_fits_witness :
  default_grading_concurrency RELEASE_POLICY 8 (32 * 1024 ^ 3) (100 * 1000 ^ 3) = 4 ∧
  4 * v3_memory_bytes RELEASE_POLICY + HOST_MEMORY_RESERVE_BYTES <= 32 * 1024 ^ 3.
Proof.
  split; [vm_compute; reflexivity|].
  apply (default_grading_fits RELEASE_POLICY 8 (32 * 1024 ^ 3) (100 * 1000 ^ 3));
    [vm_compute; reflexivity|vm_compute; reflexivity].
Defined.

Lemma release_round_policy_witness :
  is_ok (round_policy RELEASE_POLICY 1000 1000 true 256 4) = true.
Proof.
  destruct (release_round_policy 1000 1000 256 4 true) as (_ & Hiff & _).
  apply Hiff. split; [lia|]. split; [lia|]. split; [reflexivity|]. lia.
Defined.
