(* ===== verification/Runner.v ===== *)
(** * Inside the sandbox ([src/rlvr/execution/_runner.py], [_batch_runner.py],
    [_rust_batch_runner.py])

    The program that runs a candidate and prints its verdict.  The interpreter, the
    compiler and the processes they start are the class [Sandbox]: what a call ended
    in, what a supervisor reads from a child's pipe and when, and the levels of nesting
    that [json.dumps] encodes before the recursion limit stops it.  The limits of the
    parsers, and of the encoder of the batch, which run on other stacks, are not modelled.

    RunnerSpec has the theorems. *)

From Stdlib Require Import SpecFloat.
From S2P Require Import Prelude PyFloat Text Json JsonSpec Framing Codecs ScoreState.

Local Open Scope Z_scope.

(** ** [f"{x:.3f}"] *)

Definition zfill (n : nat) (s : pystr) : pystr := repeat 48%N (n - length s) ++ s.

(** [m] times two to the [e], rounded to an integer, half to even. *)
Definition round_half_even (m e : Z) : Z :=
  if 0 <=? e then m * 2 ^ e
  else
    let d := 2 ^ (- e) in
    let q := m / d in
    let r := 2 * (m mod d) in
    if (r <? d) || (r =? d) && Z.even q then q else q + 1.

Definition fixed_text (d : nat) (neg : bool) (q : Z) : pystr :=
  (if neg then [45%N] else []) ++ str_of_int (q / 10 ^ Z.of_nat d) ++ [46%N]
  ++ zfill d (str_of_int (q mod 10 ^ Z.of_nat d)).

Definition format_fixed (d : nat) (x : float) : pystr :=
  match x with
  | S754_nan => ustr "nan"
  | S754_infinity s => (if s then [45%N] else []) ++ ustr "inf"
  | S754_zero s => fixed_text d s 0
  | S754_finite s m e => fixed_text d s (round_half_even (Z.pos m * 10 ^ Z.of_nat d) e)
  end.

(** ** Dictionaries of a protocol message *)

Definition str_key (key : string) : pyobj := PStr (ustr key).

Definition obj (members : list (string * pyobj)) : pyobj := PDict (map (λ '(k, v), (str_key k, v)) members).

Definition failure_status (kind : string) (message : pystr) : pyobj :=
  obj [("status", str_key kind); ("error", PStr message)]%string.

Definition ok_status (value : pyobj) : pyobj := obj [("status", str_key "ok"); ("value", value)]%string.

(** [value or other] *)
Definition is_truthy (v : pyobj) : bool :=
  match v with
  | PNone | PBool false | PInt 0 | PStr [] | PList [] | PDict [] => false
  | PFloat x => negb (feqb x f0)
  | _ => true
  end.

Definition py_or (v other : pyobj) : pyobj := if is_truthy v then v else other.

(** [type(v).__name__] *)
Definition type_name (v : pyobj) : pystr :=
  match v with
  | PNone => ustr "NoneType" | PBool _ => ustr "bool" | PInt _ => ustr "int" | PFloat _ => ustr "float"
  | PStr _ => ustr "str" | PList _ => ustr "list" | PDict _ => ustr "dict" | POther t => ustr t
  end.

(** ** [json.dumps] on the stack of the process that runs it

    Each list and each dictionary takes a level of the interpreter's recursion limit; a
    value that has more of them inside of each other raises [RecursionError], a
    [RuntimeError], where the encoder gets to it. *)

Definition recursion_error : exn := Exn RuntimeError (ustr "maximum recursion depth exceeded while encoding a JSON object").

Fixpoint dumps_within `{!FloatRepr} (o : DumpOptions) (n : nat) (v : pyobj) : result pystr :=
  match v with
  | PList l =>
      match n with
      | O => Raise recursion_error
      | S n =>
          items ← mapM id (map (dumps_within o n) l);
          mret (91%N :: join (item_separator o) items ++ [93%N])
      end
  | PDict l =>
      match n with
      | O => Raise recursion_error
      | S n =>
          items ← mapM id (map (λ '(k, x),
            key ← dump_key o k; value ← dumps_within o n x; mret (quoted (escape o) key ++ key_separator o ++ value)) l);
          mret (123%N :: join (item_separator o) items ++ [125%N])
      end
  | _ => dumps o v
  end.

(** ** The candidate *)

(** How a call ended, with the summary of the exception. *)
Inductive Call :=
  | CompileFails (summary : pystr)
  | NotDefined
  | CallRaises (summary : pystr)
  | Returns (v : pyobj).

(** What the supervisor of a child sees: the polls that came before the deadline, each
    with the bytes read and whether the child was gone, and the reads that follow. *)
Record ChildRun := { polls : list (bytes * bool); last_reads : list bytes }.

(** How a compiled Rust program ran. *)
Inductive RustRun := NotExecuted (message : pystr) | RustTimeout | Exited (returncode : Z) (stdout : bytes).

(** The compiler: its exit code and the tail of its diagnostics, a timeout, or an
    exception; and the size of the artifact it left. *)
Inductive RustCompile :=
  | CompilerRaised (class_name message : pystr)
  | CompilerTimedOut
  | Compiled (returncode : Z) (detail : pystr) (artifact_size : option Z).

Class Sandbox := {
  (* how deep a value [json.dumps] encodes before it raises [RecursionError] *)
  nesting_limit : nat;
  (* [repr(v)], [None] where it raises *)
  repr_of : pyobj → option pystr;
  (* what a program prints, and how its call ends *)
  run_python : pyobj → pyobj → pyobj → pyobj → pystr * Call;
  (* [compile]: the summary of the failure, if any *)
  compile_python : pystr → option pystr;
  case_nonce : nat → pystr;
  run_child : pystr → pystr → pyobj → pystr → Z → float → ChildRun;
  compile_rust : list pyobj → pystr → float → RustCompile;
  run_rust : pystr → float → RustRun
}.

Section runner.
Context `{!FloatRepr, !PyRepr, !Sandbox}.

Definition safe_repr (v : pyobj) : pystr :=
  match repr_of v with Some s => take 500 s | None => ustr "<unreprable>" end.

(** [f"{head}\n{traceback}".strip()] *)
Definition summarize_exc (name message traceback : pystr) : pystr :=
  let head := match message with [] => name | _ => name ++ ustr ": " ++ message end in
  strip py_isspace (head ++ [10%N] ++ traceback).

Definition not_defined (entrypoint : pyobj) : pystr :=
  ustr "entrypoint " ++ py_repr entrypoint ++ ustr " is not defined by the candidate".

(** ** One call ([_runner.py]) *)

Definition emit (nonce : pystr) (status : pyobj) : pystr :=
  let body :=
    match dumps_within default_options nesting_limit status with
    | Ok s => s
    | Raise _ =>
        match dumps_within default_options nesting_limit (failure_status "error" (ustr "runner: status not serializable")) with
        | Ok s => s
        | Raise _ => []
        end
    end in
  nonce ++ body ++ nonce.

Definition call_status (entrypoint : pyobj) (c : Call) : result pyobj :=
  match c with
  | CompileFails summary => mret (failure_status "compile_error" summary)
  | NotDefined => mret (failure_status "compile_error" (not_defined entrypoint))
  | CallRaises summary => mret (failure_status "error" summary)
  | Returns actual =>
      catch (_ ← dumps_within (no_nan default_options) nesting_limit actual; mret (ok_status actual))
        (λ c, is_value_error c || bool_decide (c = TypeError))
        (λ _, mret (obj [("status", str_key "unserializable");
                         ("error", PStr (ustr "return value not JSON-serializable: " ++ type_name actual));
                         ("actual_repr", PStr (safe_repr actual))]%string))
  end.

(** The whole output: nothing without a nonce, and no verdict on a value that is nested
    too deep. *)
Definition runner_main (stdin : pystr) : pystr :=
  match loads stdin with
  | Ok (PDict payload) =>
      match member "nonce" payload with
      | Some nonce =>
          let field key other := default other (member key payload) in
          let entrypoint := field "entrypoint"%string (PStr []) in
          let '(noise, c) := run_python (field "code"%string (PStr [])) entrypoint
            (py_or (field "args"%string (PList [])) (PList []))
            (py_or (field "kwargs"%string (PDict [])) (PDict [])) in
          match call_status entrypoint c with
          | Ok status => noise ++ emit (py_str nonce) status
          | Raise _ => noise
          end
      | None => []
      end
  | _ => []
  end.

(** ** A batch of tests ([_batch_runner.py]) *)

Definition MAX_CASE_STATUS_BYTES : Z := 256 * 1024.
Definition MAX_BATCH_BYTES : Z := 4 * 1024 * 1024.

Definition batch_options : DumpOptions := compact default_options.

Definition too_large : pyobj := failure_status "error" (ustr "serialized return value is too large").

(** Only [TypeError] and [ValueError] are caught: on a value that is nested too deep the
    child of a case writes nothing. *)
Definition encode_status (status : pyobj) (nonce : pystr) (max_status_bytes : Z) : result bytes :=
  body ← catch (dumps_within (no_nan batch_options) nesting_limit status) (λ c, is_value_error c || bool_decide (c = TypeError))
    (λ _, dumps_within batch_options nesting_limit
      (obj [("status", str_key "unserializable"); ("error", str_key "return value is not JSON-serializable");
            ("actual_repr", PStr (safe_repr (match status with
                                             | PDict d => default PNone (member "value" d)
                                             | _ => PNone
                                             end)))]%string));
  let framed := encode_replace (nonce ++ body ++ nonce) in
  if max_status_bytes <? zlen framed then
    small ← dumps_within batch_options nesting_limit too_large; mret (encode_replace (nonce ++ small ++ nonce))
  else mret framed.

(** What the child of a case reports ([_child_main]). *)
Definition child_status (entrypoint : pystr) (c : Call) : pyobj :=
  match c with
  | CompileFails summary => failure_status "compile_error" (take 4000 summary)
  | NotDefined => failure_status "compile_error" (not_defined (PStr entrypoint))
  | CallRaises summary => failure_status "error" (take 4000 summary)
  | Returns value => ok_status value
  end.

Definition extract_status (data : bytes) (nonce : pystr) : option pyobj :=
  let text := decode_replace data in
  match rfind nonce text with
  | None => None
  | Some start =>
      match rfind nonce (take start text) with
      | None => None
      | Some previous =>
          match loads (drop (previous + length nonce) (take start text)) with
          | Ok (PDict d) => Some (PDict d)
          | _ => None
          end
      end
  end.

(** [if chunk and len(output) < limit: output.extend(chunk[: limit - len(output)])] *)
Definition keep (limit : Z) (output chunk : bytes) : bytes :=
  if zlen output <? limit then output ++ slice_to (limit - zlen output) chunk else output.

(** The polls until the child is gone; the deadline passes where there are no more. *)
Fixpoint supervise (limit : Z) (ps : list (bytes * bool)) (output : bytes) : bytes * bool :=
  match ps with
  | [] => (output, true)
  | (chunk, done) :: ps' =>
      let output := keep limit output chunk in
      if done then (output, false) else supervise limit ps' output
  end.

(** The reads after the child's group was killed, until there is nothing to read. *)
Fixpoint drain_rest (limit : Z) (chunks : list bytes) (output : bytes) : bytes :=
  if zlen output <? limit then
    match chunks with
    | [] | [] :: _ => output
    | chunk :: chunks' => drain_rest limit chunks' (keep limit output chunk)
    end
  else output.

Definition case_status (timeout_s : float) (max_status_bytes : Z) (nonce : pystr) (r : ChildRun) : pyobj :=
  let '(output, timed_out) := supervise max_status_bytes (polls r) [] in
  let output := drain_rest max_status_bytes (last_reads r) output in
  if timed_out : bool then
    failure_status "timeout" (ustr "timed out after " ++ format_fixed 3 timeout_s ++ ustr "s")
  else py_or (default PNone (extract_status output nonce))
         (failure_status "error" (ustr "test process produced no result")).

(** [list(x)] *)
Definition py_list (v : pyobj) : result (list pyobj) :=
  match v with
  | PList l => Ok l
  | PDict d => Ok (map fst d)
  | PStr s => Ok (map (λ c, PStr [c]) s)
  | _ => raise TypeError "object is not iterable"
  end.

Definition case_limit (n : Z) : Z :=
  Z.max 4096 (Z.min MAX_CASE_STATUS_BYTES ((MAX_BATCH_BYTES - 4096) / Z.max 1 n)).

(** The results of the cases, whose numbers start at [i]. *)
Fixpoint run_cases (code entrypoint : pystr) (timeout_s : float) (limit : Z) (i : nat) (cases : list pyobj)
    : list pyobj :=
  match cases with
  | [] => []
  | case :: cases' =>
      let nonce := case_nonce i in
      case_status timeout_s limit nonce (run_child code entrypoint case nonce limit timeout_s)
      :: run_cases code entrypoint timeout_s limit (S i) cases'
  end.

Definition batch_results (code entrypoint : pystr) (timeout_s : float) (cases : list pyobj) : list pyobj :=
  match compile_python code with
  | Some summary => map (λ _, failure_status "compile_error" (take 4000 summary)) cases
  | None => run_cases code entrypoint timeout_s (case_limit (zlen cases)) 0 cases
  end.

Record BatchPayload := {
  bp_nonce : pystr;
  bp_code : pystr;
  bp_entrypoint : pystr;
  bp_cases : list pyobj;
  bp_timeout : float
}.

Definition read_batch (stdin : pystr) : result BatchPayload :=
  payload ← loads stdin;
  match payload with
  | PDict d =>
      nonce ← match member "nonce" d with Some v => Ok (py_str v) | None => raise KeyError "nonce" end;
      cases ← py_list (default (PList []) (member "tests" d));
      timeout_s ← py_float (default (PFloat f0) (member "timeout_s" d));
      raise_if (negb (isfinite timeout_s) || fleb timeout_s f0) ValueError "invalid timeout";;
      mret {| bp_nonce := nonce; bp_code := py_str (default (PStr []) (member "code" d));
              bp_entrypoint := py_str (default (PStr []) (member "entrypoint" d));
              bp_cases := cases; bp_timeout := timeout_s |}
  | _ => raise TypeError "payload is not a mapping"
  end.

Definition batch_frame (nonce : pystr) (results : list pyobj) : result pystr :=
  body ← dumps batch_options (obj [("status", str_key "batch"); ("results", PList results)]%string);
  mret (nonce ++ body ++ nonce).

Definition batch_main (stdin : pystr) : result pystr :=
  match read_batch stdin with
  | Ok p => batch_frame (bp_nonce p) (batch_results (bp_code p) (bp_entrypoint p) (bp_timeout p) (bp_cases p))
  | Raise _ => mret []
  end.

(** ** Rust programs ([_rust_batch_runner.py]) *)

Definition MAX_CASE_FRAME_BYTES : Z := 512000.
Definition MAX_OUTPUT_BYTES : Z := 1000000.

Definition uniform (count : nat) (error : pystr) : list pyobj := repeat (failure_status "compile_error" error) count.

(** The input is encoded once the program runs. *)
Definition rust_case_status (max_status_bytes : Z) (stdin : pystr) (r : RustRun) : result pyobj :=
  match r with
  | NotExecuted message => mret (failure_status "error" (ustr "could not execute compiled artifact: " ++ message))
  | RustTimeout => _ ← utf8_encode stdin; mret (failure_status "timeout" (ustr "test timed out"))
  | Exited returncode raw =>
      _ ← utf8_encode stdin;
      if MAX_OUTPUT_BYTES <? zlen raw then mret (failure_status "error" (ustr "candidate output is too large"))
      else if negb (returncode =? 0) then
        mret (failure_status "error" (ustr "program exited with status " ++ str_of_int returncode))
      else match utf8_decode raw with
           | Raise _ => mret (failure_status "error" (ustr "candidate output is not valid UTF-8"))
           | Ok value =>
               encoded ← dumps batch_options (ok_status (PStr value));
               size ← utf8_encode encoded;
               if max_status_bytes <? zlen size
               then mret (failure_status "error" (ustr "serialized candidate output is too large"))
               else mret (ok_status (PStr value))
           end
  end.

Definition rust_case_limit (n : Z) : Z :=
  Z.max 4096 (Z.min MAX_CASE_FRAME_BYTES ((MAX_BATCH_BYTES - 4096) / Z.max 1 n)).

(** [payload["key"]] *)
Definition item (key : string) (v : pyobj) : result pyobj :=
  match v with
  | PDict d => match member key d with Some x => Ok x | None => raise KeyError key end
  | _ => raise TypeError "object is not subscriptable"
  end.

(** [max(0.001, float(payload["key"]))] *)
Definition seconds (key : string) (payload : pyobj) : result float :=
  v ← item key payload; x ← py_float v; mret (fmax (fdiv f1 (float_of_int 1000)) x).

Definition int_item (key : string) (payload : pyobj) : result Z :=
  v ← item key payload;
  match v with PInt z => mret z | PBool b => mret (Z.b2z b) | _ => raise ValueError "invalid literal for int()" end.

(** [_compile] with what is raised before or by the compiler. *)
Definition compiled_program (payload : pyobj) (argv : list pyobj) (code : pystr) : RustCompile :=
  match seconds "compile_timeout_s" payload with
  | Ok t => compile_rust argv code t
  | Raise e => CompilerRaised (exn_name e) (exn_msg e)
  end.

(** The results of the tests. *)
Definition rust_results (payload : pyobj) (tests : list pyobj) : result (list pyobj) :=
  let failed error := uniform (length tests) error in
  code ← item "code" payload;
  _ ← utf8_encode (py_str code);
  argv ← item "compiler_argv" payload;
  argv ← py_list argv;
  match compiled_program payload argv (py_str code) with
  | CompilerRaised name message => mret (failed (ustr "compiler failed: " ++ name ++ ustr ": " ++ message))
  | CompilerTimedOut => mret (failed (ustr "compilation timed out"))
  | Compiled returncode detail size =>
      if negb (returncode =? 0) then
        mret (failed (match detail with [] => ustr "compilation failed" | _ => detail end))
      else
        oversized ← match size with
                    | Some n => limit ← int_item "artifact_max_bytes" payload; mret (limit <? n)
                    | None => mret true
                    end;
        if oversized : bool then mret (failed (ustr "compiled artifact exceeds size limit"))
        else
          mapM (λ test,
            stdin ← item "stdin" test;
            timeout_s ← seconds "timeout_s" payload;
            rust_case_status (rust_case_limit (zlen tests)) (py_str stdin) (run_rust (py_str stdin) timeout_s)) tests
  end.

Definition rust_main (stdin : pystr) : result pystr :=
  payload ← loads stdin;
  nonce ← item "nonce" payload;
  tests ← item "tests" payload;
  tests ← match tests with PList l => mret l | _ => raise TypeError "tests are not a list" end;
  results ← rust_results payload tests;
  batch_frame (py_str nonce) results.
End runner.

Example fixed_ex : format_fixed 3 (fdiv (float_of_int 25) (float_of_int 10)) = ustr "2.500" ∧
  format_fixed 3 (fdiv f1 (float_of_int 3)) = ustr "0.333" ∧ format_fixed 1 (fdiv (float_of_int (-1)) (float_of_int 4)) = ustr "-0.2".
Proof. vm_compute. done. Qed.
