(* ===== verification/RunnerSpec.v ===== *)
(** * Inside the sandbox: sizes, and what reaches the host

    [case_bounds]: a case's frame and what is kept of a child's output.
    [reported_case]: the value a candidate returned is the value its supervisor reports.
    [batch_read_back]: the host reads the statuses of a batch. *)

From Stdlib Require Import SpecFloat.
From S2P Require Import Prelude PyFloat Text Json JsonSpec Framing Codecs ScoreState Runner.

Local Open Scope N_scope.

(** ** Decoding what was encoded *)

Lemma in_range_true (lo hi c : N) : in_range lo hi c = true ↔ lo <= c <= hi.
Proof. unfold in_range. by rewrite andb_true_iff, !N.leb_le. Qed.

Lemma in_range_false (lo hi c : N) : in_range lo hi c = false ↔ c < lo ∨ hi < c.
Proof. unfold in_range. by rewrite andb_false_iff, !N.leb_gt. Qed.

Lemma is_cont_low (m : N) : m < 64 → is_cont (128 + m) = true.
Proof. intros H. unfold is_cont. rewrite andb_true_iff, N.leb_le, N.ltb_lt. lia. Qed.

Lemma second_ok_true (x m : N) :
  m < 64 → (x = 224 → 32 <= m) → (x = 237 → m < 32) → (x = 240 → 16 <= m) → (x = 244 → m < 16) →
  second_ok x (128 + m) = true.
Proof.
  intros Hm H1 H2 H3 H4. unfold second_ok.
  destruct (N.eqb_spec x 224); [apply in_range_true; lia|]. destruct (N.eqb_spec x 237); [apply in_range_true; lia|].
  destruct (N.eqb_spec x 240); [apply in_range_true; lia|]. destruct (N.eqb_spec x 244); [apply in_range_true; lia|].
  by apply is_cont_low.
Qed.

Lemma lenient_char (bad : pystr) (c : N) (rest : list N) :
  scalar c = true → utf8_decode_lenient bad (utf8_char c ++ rest) = c :: utf8_decode_lenient bad rest.
Proof.
  rewrite scalar_bounds. intros Hc. unfold utf8_char.
  destruct (N.ltb_spec c 0x80) as [H1|H1];
    [|destruct (N.ltb_spec c 0x800) as [H2|H2];
      [|destruct (N.ltb_spec c 0x10000) as [H3|H3]]]; simpl app.
  - cbn [utf8_decode_lenient]. by rewrite (proj2 (N.ltb_lt c 128)) by lia.
  - assert (E : cp2 (192 + c / 64) (128 + c mod 64) = c) by (unfold cp2; ndiv).
    assert (Hb : c / 64 < 32 ∧ 2 <= c / 64 ∧ c mod 64 < 64) by ndiv.
    cbn [utf8_decode_lenient]. rewrite E. generalize dependent (c / 64). generalize dependent (c mod 64).
    intros m q _ Hb. rewrite (proj2 (N.ltb_ge _ _)) by lia.
    rewrite (proj2 (in_range_true 194 223 _)) by lia. by rewrite is_cont_low by lia.
  - assert (E : cp3 (224 + c / 4096) (128 + (c / 64) mod 64) (128 + c mod 64) = c)
      by (unfold cp3; ndiv).
    assert (Hb : c / 4096 < 16 ∧ (c / 64) mod 64 < 64 ∧ c mod 64 < 64) by ndiv.
    assert (Hlo : c / 4096 = 0 → 32 <= (c / 64) mod 64) by ndiv.
    assert (Hhi : c / 4096 = 13 → (c / 64) mod 64 < 32) by ndiv.
    cbn [utf8_decode_lenient]. rewrite E. generalize dependent (c / 4096).
    generalize dependent ((c / 64) mod 64). generalize dependent (c mod 64).
    intros m q p _ Hb Hlo Hhi. rewrite (proj2 (N.ltb_ge _ _)) by lia.
    rewrite (proj2 (in_range_false 194 223 _)), (proj2 (in_range_true 224 239 _)) by lia.
    rewrite second_ok_true by lia. cbn [negb]. by rewrite is_cont_low by lia.
  - assert (E : cp4 (240 + c / 262144) (128 + (c / 4096) mod 64) (128 + (c / 64) mod 64)
                  (128 + c mod 64) = c) by (unfold cp4; ndiv).
    assert (Hb : c / 262144 < 5 ∧ (c / 4096) mod 64 < 64 ∧ (c / 64) mod 64 < 64 ∧ c mod 64 < 64) by ndiv.
    assert (Hlo : c / 262144 = 0 → 16 <= (c / 4096) mod 64) by ndiv.
    assert (Hhi : c / 262144 = 4 → (c / 4096) mod 64 < 16) by ndiv.
    cbn [utf8_decode_lenient]. rewrite E. generalize dependent (c / 262144).
    generalize dependent ((c / 4096) mod 64). generalize dependent ((c / 64) mod 64).
    generalize dependent (c mod 64). intros m q p t _ Hb Hlo Hhi. rewrite (proj2 (N.ltb_ge _ _)) by lia.
    rewrite (proj2 (in_range_false 194 223 _)), (proj2 (in_range_false 224 239 _)),
      (proj2 (in_range_true 240 244 _)) by lia.
    rewrite second_ok_true by lia. cbn [negb]. rewrite is_cont_low by lia. cbn [negb]. by rewrite is_cont_low by lia.
Qed.

Lemma decode_encode_replace (s : pystr) : forallb scalar s = true → decode_replace (encode_replace s) = s.
Proof.
  intros Hs. unfold decode_replace, encode_replace.
  assert (Hmap : map (λ c, if scalar c then c else 63) s = s).
  { rewrite <-(map_id s) at 2. apply map_ext_in. intros c Hc. rewrite forallb_forall in Hs. by rewrite Hs. }
  rewrite Hmap, map_N_of_ascii_of_N.
  - unfold utf8_bytes. clear Hmap. induction s as [|c s IH]; [done|]. cbn [forallb map concat] in *.
    apply andb_true_iff in Hs as [Hc Hs]. by rewrite lenient_char, IH.
  - intros x Hx. unfold utf8_bytes in Hx. apply list_elem_of_In, in_concat in Hx as (l & (c & <- & Hc)%in_map_iff & Hx).
    rewrite forallb_forall in Hs. apply (utf8_char_byte c); [by apply Hs|by apply list_elem_of_In].
Qed.

(** ** Literals *)

#[export] Instance ustr_inj : Inj (=) (=) ustr.
Proof.
  intros s t Hst. unfold ustr, bstr in Hst.
  rewrite <-(string_of_list_ascii_of_string s), <-(string_of_list_ascii_of_string t). f_equal.
  revert Hst. generalize (list_ascii_of_string t). induction (list_ascii_of_string s) as [|a l IH]; intros [|b k]; try done.
  cbn [map]. intros [= Hab Hlk]. f_equal; [|by apply IH].
  by rewrite <-(ascii_N_embedding a), <-(ascii_N_embedding b), Hab.
Qed.

Lemma ustr_scalar (s : string) : forallb scalar (ustr s) = true.
Proof.
  unfold ustr. rewrite forallb_forall. intros c (a & <- & _)%in_map_iff. apply scalar_bounds.
  pose proof (N_ascii_bounded a). lia.
Qed.

(** ** The frame of a status *)

Section frames.
Context `{FR : !FloatRepr, PR : !PyRepr, SB : !Sandbox}.

(** A value that JSON carries to the host, whichever parser reads it. *)
Definition portable (v : pyobj) : Prop := json_value default_hooks v ∧ json_value frame_hooks v.

Lemma obj_value (h : JsonHooks) (members : list (string * pyobj)) :
  NoDup (map fst members) → Forall (λ kv, json_value h kv.2) members → json_value h (obj members).
Proof.
  intros Hnd Hm. unfold json_value, obj. apply readable_dict. split.
  - replace (map (λ kv : pyobj * pyobj, key_str kv.1) (map (λ '(k, v), (str_key k, v)) members))
      with (ustr <$> (map fst members)); [by apply NoDup_fmap_2; [apply _|]|].
    rewrite map_map. unfold fmap, list_fmap. rewrite map_map. apply map_ext. by intros [].
  - apply Forall_fmap. eapply Forall_impl; [exact Hm|]. intros [k v] Hv. split; [|done].
    exists (ustr k). split; [done|]. apply ustr_scalar.
Qed.

Lemma str_portable (s : string) : portable (str_key s).
Proof. split; apply ustr_scalar. Qed.

Lemma ok_portable (v : pyobj) : portable v → portable (ok_status v).
Proof.
  assert (Hnd : NoDup ["status"; "value"]%string) by (apply (bool_decide_unpack _); vm_compute; exact I).
  intros [H1 H2]. split; (apply obj_value; [exact Hnd|]);
    (apply Forall_cons; split; [apply ustr_scalar|by apply Forall_singleton]).
Qed.

Lemma list_portable (l : list pyobj) : Forall portable l → portable (PList l).
Proof.
  intros Hl. split; unfold json_value; apply readable_list; (eapply Forall_impl; [exact Hl|]); by intros v [].
Qed.

(** The text [dumps] gives a portable value with the runners' options. *)
Definition batch_text (v : pyobj) : pystr := text_of escape_ascii float_repr [] [] v.

Lemma dumps_batch (o : DumpOptions) (v : pyobj) :
  o = batch_options ∨ o = no_nan batch_options → portable v → dumps o v = Ok (batch_text v).
Proof.
  intros Ho [Hv _]. unfold batch_text.
  destruct Ho as [-> | ->].
  - by rewrite (dumps_text batch_options [] [] eq_refl eq_refl default_hooks).
  - by rewrite (dumps_text (no_nan batch_options) [] [] eq_refl eq_refl default_hooks).
Qed.

Lemma batch_text_scalar (v : pyobj) : portable v → forallb scalar (batch_text v) = true.
Proof.
  intros [Hv _]. unfold batch_text. by apply (text_of_scalar batch_options [] [] default_hooks).
Qed.

Lemma reads_default : reads escape_ascii float_repr (λ s, forallb scalar s = true) printable_int
  (float_reads default_hooks) default_hooks.
Proof.
  split; [apply (escape_reads batch_options)|apply default_int_reads|by intros x (_ & _ & H)|].
  intros pairs Hnd. simpl. by rewrite dict_of_pairs_distinct.
Qed.

Lemma reads_frame : reads escape_ascii float_repr (λ s, forallb scalar s = true) printable_int
  (float_reads frame_hooks) frame_hooks.
Proof.
  split; [apply (escape_reads batch_options)|apply default_int_reads|by intros x (_ & _ & H)|].
  intros pairs Hnd. simpl. by rewrite dict_of_pairs_distinct.
Qed.

(** An object's text starts with a brace. *)
Lemma obj_no_bom (members : list (string * pyobj)) : startswith [BOM] (batch_text (obj members)) = false.
Proof. done. Qed.

Lemma loads_obj (members : list (string * pyobj)) :
  portable (obj members) → loads (batch_text (obj members)) = Ok (obj members).
Proof.
  intros [H1 _]. unfold loads, loads_hooks. rewrite obj_no_bom. cbn [raise_if mbind result_bind].
  by eapply (reads_back escape_ascii); [..|apply reads_default|exact H1].
Qed.

Lemma loads_frame_obj (members : list (string * pyobj)) :
  portable (obj members) → loads_hooks frame_hooks (batch_text (obj members)) = Ok (obj members).
Proof.
  intros [_ H2]. unfold loads_hooks. rewrite obj_no_bom. cbn [raise_if mbind result_bind].
  by eapply (reads_back escape_ascii); [..|apply reads_frame|exact H2].
Qed.
End frames.

(** ** Sizes *)

(** What [json.dumps] raises. *)
Definition dump_error (e : exn) : Prop := exn_cls e = ValueError ∨ exn_cls e = TypeError.

Lemma mapM_id_Raise {A} (l : list (result A)) (e : exn) : mapM id l = Raise e → Raise e ∈ l.
Proof.
  induction l as [|m l IH]; [done|]. cbn [mapM]. destruct m as [a|e'].
  - change (id (Ok a)) with (Ok a). cbn [mbind result_bind]. destruct (mapM id l) as [ys|e''].
    + done.
    + cbn [mbind result_bind]. intros [= ->]. right. by apply IH.
  - intros [= ->]. left.
Qed.

Section sizes.
Context `{FR : !FloatRepr, PR : !PyRepr, SB : !Sandbox}.

Lemma dump_key_raises (o : DumpOptions) (k : pyobj) (e : exn) : dump_key o k = Raise e → dump_error e.
Proof.
  unfold dump_key, dump_int, dump_float, dump_error. destruct k as [|[]|z|x| | | |]; try done.
  - unfold raise_if. case_match; [|done]. intros [= <-]. by left.
  - repeat case_match; try done. intros [= <-]. by left.
  - intros [= <-]. by right.
  - intros [= <-]. by right.
  - intros [= <-]. by right.
Qed.

Lemma dumps_raises (o : DumpOptions) (v : pyobj) : ∀ e, dumps o v = Raise e → dump_error e.
Proof.
  induction v as [|[]|z|x|s|l IH|l IH|t] using pyobj_nested_ind; intros e; cbn [dumps]; try done.
  - apply (dump_key_raises o (PInt z)).
  - apply (dump_key_raises o (PFloat x)).
  - destruct (mapM id _) as [ys|e'] eqn:Hm; cbn; [done|]. intros [= <-]. apply mapM_id_Raise in Hm.
    apply list_elem_of_In, in_map_iff in Hm as (x & Hx & Hin%list_elem_of_In). rewrite Forall_forall in IH.
    by eapply IH.
  - destruct (mapM id _) as [ys|e'] eqn:Hm; cbn; [done|]. intros [= <-]. apply mapM_id_Raise in Hm.
    apply list_elem_of_In, in_map_iff in Hm as ([k x] & Hx & Hin%list_elem_of_In). rewrite Forall_forall in IH.
    destruct (dump_key o k) as [key|ek] eqn:Hk; cbn in Hx.
    + destruct (dumps o x) as [text|ex] eqn:Hd; [done|]. injection Hx as <-. by apply (IH _ Hin).
    + injection Hx as <-. by eapply dump_key_raises.
  - intros [= <-]. by right.
Qed.

(** How many lists and dictionaries are inside of each other. *)
Fixpoint depth (v : pyobj) : nat :=
  match v with
  | PList l => S (foldr (λ x, Nat.max (depth x)) 0%nat l)
  | PDict l => S (foldr (λ '(_, x), Nat.max (depth x)) 0%nat l)
  | _ => 0%nat
  end.

(** With a limit of [n] levels, a writer gives what it gives without one, on a value whose
    members have at most [n], or a recursion error, on a member that has more. *)
Definition limited {A} (n d : nat) (m m' : result A) : Prop :=
  (m = m' ∧ (is_ok m' = true → (d <= n)%nat)) ∨ (m = Raise recursion_error ∧ (n < d)%nat).

Lemma limited_mapM {A} (n : nat) (l : list A) (d : A → nat) (f g : A → result pystr) :
  Forall (λ x, limited n (d x) (f x) (g x)) l →
  limited n (foldr (λ x, Nat.max (d x)) 0%nat l) (mapM id (map f l)) (mapM id (map g l)).
Proof.
  assert (Hcons : ∀ (m : result pystr) k, mapM id (m :: k) = (y ← m; ys ← mapM id k; mret (y :: ys))) by reflexivity.
  induction 1 as [|x l Hx _ IH]; [left; split; [done|intros _; apply Nat.le_0_l]|]. cbn [map foldr]. rewrite !Hcons.
  destruct Hx as [[-> Hx]|[-> Hx]]; [|right; split; [done|lia]].
  destruct (g x) as [t|e]; [|left; split; [done|done]]. specialize (Hx eq_refl). cbn [mbind result_bind].
  destruct IH as [[-> IH]|[-> IH]]; [|right; split; [done|lia]]. left. split; [done|].
  destruct (mapM id (map g l)); [|done]. intros _. specialize (IH eq_refl). lia.
Qed.

Lemma limited_bind {A B} (n d : nat) (m m' : result A) (f : A → B) :
  limited n d m m' → limited (S n) (S d) (a ← m; mret (f a)) (a ← m'; mret (f a)).
Proof.
  intros [[-> H]|[-> H]]; [left|right; split; [done|lia]]. split; [done|]. destruct m'; [|done].
  intros _. specialize (H eq_refl). lia.
Qed.

Lemma dumps_limited (o : DumpOptions) (v : pyobj) : ∀ n, limited n (depth v) (dumps_within o n v) (dumps o v).
Proof.
  induction v as [|b|z|x|s|l IH|l IH|t] using pyobj_nested_ind; intros n;
    try (left; split; [by destruct n|intros _; apply Nat.le_0_l]).
  - destruct n as [|n]; [right; split; [done|apply Nat.lt_0_succ]|]. cbn [dumps_within dumps depth].
    apply limited_bind, limited_mapM. eapply Forall_impl; [exact IH|]. intros x Hx. apply Hx.
  - destruct n as [|n]; [right; split; [done|apply Nat.lt_0_succ]|]. cbn [dumps_within dumps depth].
    replace (foldr (λ '(_, x), Nat.max (depth x)) 0%nat l) with (foldr (λ kv : pyobj * pyobj, Nat.max (depth kv.2)) 0%nat l)
      by (clear IH; induction l as [|[k x] l IHl]; [done|]; simpl; by rewrite IHl).
    apply limited_bind, limited_mapM. eapply Forall_impl; [exact IH|]. intros [k x] [_ Hx]. cbn [snd] in Hx |- *.
    destruct (dump_key o k) as [key|e]; [|left; split; [done|done]]. cbn [mbind result_bind].
    destruct (Hx n) as [[-> Hd]|[-> Hd]]; [left; split; [done|]|by right].
    destruct (dumps o x); [|done]. intros _. by apply Hd.
Qed.

(** The child of a case: the frame, or nothing. *)
Lemma encode_status_cases (status : pyobj) (nonce : pystr) (limit : Z) :
  (1 <= nesting_limit)%nat →
  (dumps_within (no_nan batch_options) nesting_limit status = Raise recursion_error ∧
   encode_status status nonce limit = Raise recursion_error) ∨
  ∃ body, encode_status status nonce limit =
    (let framed := encode_replace (nonce ++ body ++ nonce) in
     if (limit <? zlen framed)%Z then small ← dumps batch_options too_large; mret (encode_replace (nonce ++ small ++ nonce))
     else mret framed) ∧
    (dumps_within (no_nan batch_options) nesting_limit status = dumps (no_nan batch_options) status) ∧
    ∀ t, dumps (no_nan batch_options) status = Ok t → body = t.
Proof.
  intros Hn. unfold encode_status.
  assert (Hflat : ∀ v, depth v = 1%nat → dumps_within batch_options nesting_limit v = dumps batch_options v).
  { intros v Hv. destruct (dumps_limited batch_options v nesting_limit) as [[-> _]|[_ H]]; [done|lia]. }
  rewrite (Hflat too_large) by done.
  destruct (dumps_limited (no_nan batch_options) status nesting_limit) as [[-> _]|[-> _]]; [right|by left].
  destruct (dumps (no_nan batch_options) status) as [body|e] eqn:Hd.
  - exists body. split_and!; [done|done|]. by intros t [= ->].
  - cbn [catch]. apply dumps_raises in Hd as Hc.
    assert (is_value_error (exn_cls e) || bool_decide (exn_cls e = TypeError) = true) as -> by (by destruct Hc as [-> | ->]).
    rewrite Hflat by done. eexists. split_and!; [reflexivity|done|done].
Qed.

(** The frame of a case has at most [max_status_bytes] bytes. *)
Lemma status_framed (status : pyobj) (nonce : pystr) (limit : Z) (raw : bytes) :
  (1 <= nesting_limit)%nat → (4096 <= limit)%Z → length nonce = 32%nat → (∀ c, c ∈ nonce → c < 128) →
  encode_status status nonce limit = Ok raw → (zlen raw <= limit)%Z.
Proof.
  intros Hnest Hl Hn Ha H. destruct (encode_status_cases status nonce limit Hnest) as [[_ He]|(body & He & _)]; [congruence|].
  rewrite He in H. clear He. cbv zeta in H.
  destruct (Z.ltb_spec limit (zlen (encode_replace (nonce ++ body ++ nonce)))) as [Hlt|Hge]; [|by injection H as <-].
  assert (Hsmall : dumps batch_options too_large = Ok (batch_text too_large)) by reflexivity.
  rewrite Hsmall in H. cbn [mbind result_bind] in H.
  assert (raw = encode_replace (nonce ++ batch_text too_large ++ nonce)) as ->.
  { generalize dependent (batch_text too_large). intros small Hs _. by injection Hs. }
  assert (Hlen : ∀ s, (∀ c, c ∈ s → c < 128) → length (encode_replace s) = length s).
  { intros s Hc. unfold encode_replace, utf8_bytes. rewrite length_map. induction s as [|c s IH]; [done|].
    cbn [map concat]. rewrite length_app, IH by (intros x Hx; apply Hc; by right). cbn [length].
    assert (Hcc : c < 128) by (apply Hc; by left).
    assert (scalar c = true) as -> by (apply scalar_bounds; lia). unfold utf8_char. by rewrite (proj2 (N.ltb_lt _ _)). }
  unfold zlen. rewrite Hlen.
  - rewrite !length_app, Hn. assert (Hk : (length (batch_text too_large) <= 100)%nat) by (apply Nat.leb_le; vm_compute; reflexivity).
    lia.
  - assert (Hb : ∀ c, c ∈ batch_text too_large → c < 128).
    { assert (Hf : forallb (λ c, c <? 128) (batch_text too_large) = true) by (vm_compute; reflexivity).
      rewrite forallb_elem in Hf. intros c Hc%Hf. by apply N.ltb_lt. }
    intros c [Hc|[Hc|Hc]%elem_of_app]%elem_of_app; auto.
Qed.

(** There is one exactly as long as the encoder does not run into the limit. *)
Lemma status_exists (status : pyobj) (nonce : pystr) (limit : Z) :
  (1 <= nesting_limit)%nat →
  ((depth status <= nesting_limit)%nat → is_ok (encode_status status nonce limit) = true) ∧
  ((nesting_limit < depth status)%nat → is_ok (dumps (no_nan batch_options) status) = true →
   encode_status status nonce limit = Raise recursion_error).
Proof.
  intros Hnest. assert (Hsmall : is_ok (dumps batch_options too_large) = true) by reflexivity.
  pose proof (dumps_limited (no_nan batch_options) status nesting_limit) as Hd.
  destruct (encode_status_cases status nonce limit Hnest) as [[Hw He]|(body & He & Hw & _)]; split.
  - intros Hle. destruct Hd as [[Hd _]|[_ Hd]]; [|lia]. rewrite Hw in Hd. symmetry in Hd. by apply dumps_raises in Hd as [?|?].
  - done.
  - intros _. rewrite He. cbv zeta. case_match; [|done]. by destruct (dumps batch_options too_large).
  - intros Hlt Hok. destruct Hd as [[_ Hd]|[Hd _]]; [specialize (Hd Hok); lia|]. rewrite Hw in Hd. rewrite Hd in Hok. done.
Qed.

(** ** What a supervisor keeps *)

(** The polls up to the one in which the child was gone. *)
Fixpoint until_gone (ps : list (bytes * bool)) : list bytes :=
  match ps with
  | [] => []
  | (chunk, done) :: ps' => chunk :: (if done : bool then [] else until_gone ps')
  end.

Fixpoint until_empty (chunks : list bytes) : list bytes :=
  match chunks with
  | [] | [] :: _ => []
  | chunk :: chunks' => chunk :: until_empty chunks'
  end.

(** All that the pipe delivered. *)
Definition delivered (r : ChildRun) : bytes := concat (until_gone (polls r)) ++ concat (until_empty (last_reads r)).

Lemma keep_take (limit : Z) (seen chunk : bytes) :
  (0 <= limit)%Z → keep limit (take (Z.to_nat limit) seen) chunk = take (Z.to_nat limit) (seen ++ chunk).
Proof.
  intros Hl. unfold keep, zlen. rewrite length_take. destruct (Z.ltb_spec (Z.of_nat (Nat.min (Z.to_nat limit) (length seen))) limit) as [H|H].
  - rewrite slice_to_nonneg by lia. rewrite (take_ge seen) by lia. rewrite take_app, (take_ge seen) by lia.
    do 2 f_equal. lia.
  - rewrite take_app. replace (Z.to_nat limit - length seen)%nat with 0%nat by lia. by rewrite take_0, app_nil_r.
Qed.

Lemma supervise_take (limit : Z) (ps : list (bytes * bool)) (seen : bytes) :
  (0 <= limit)%Z →
  supervise limit ps (take (Z.to_nat limit) seen)
  = (take (Z.to_nat limit) (seen ++ concat (until_gone ps)), negb (existsb snd ps)).
Proof.
  intros Hl. revert seen. induction ps as [|[chunk done] ps IH]; intros seen; cbn [supervise until_gone existsb concat snd].
  - by rewrite app_nil_r.
  - rewrite keep_take by lia. destruct done; cbn [concat orb negb]; [by rewrite app_nil_r|].
    by rewrite IH, <-(assoc_L (++)).
Qed.

Lemma drain_rest_take (limit : Z) (chunks : list bytes) (seen : bytes) :
  (0 <= limit)%Z →
  drain_rest limit chunks (take (Z.to_nat limit) seen) = take (Z.to_nat limit) (seen ++ concat (until_empty chunks)).
Proof.
  intros Hl. revert seen. induction chunks as [|chunk chunks IH]; intros seen; cbn [drain_rest until_empty concat].
  - rewrite app_nil_r. by case_match.
  - destruct (Z.ltb_spec (zlen (take (Z.to_nat limit) seen)) limit) as [H|H].
    + destruct chunk as [|b chunk]; [by rewrite app_nil_r|]. cbn [until_empty concat]. rewrite keep_take by lia.
      by rewrite IH, <-(assoc_L (++)).
    + unfold zlen in H. rewrite length_take in H. rewrite take_app.
      replace (Z.to_nat limit - length seen)%nat with 0%nat by lia. by rewrite take_0, app_nil_r.
Qed.

(** What is kept: the beginning of what was delivered. *)
Lemma captured_take (limit : Z) (r : ChildRun) :
  (0 <= limit)%Z →
  drain_rest limit (last_reads r) (supervise limit (polls r) []).1 = take (Z.to_nat limit) (delivered r) ∧
  (supervise limit (polls r) []).2 = negb (existsb snd (polls r)).
Proof.
  intros Hl. pose proof (supervise_take limit (polls r) [] Hl) as H. rewrite take_nil in H. rewrite H.
  split; [|done]. cbn [fst]. by rewrite drain_rest_take.
Qed.
End sizes.

(** ** What reaches the host *)

Section reports.
Context `{FR : !FloatRepr, PR : !PyRepr, SB : !Sandbox}.

Lemma extract_status_frame (nonce : pystr) (v : pyobj) :
  forallb scalar nonce = true → portable v → framed nonce (batch_text (ok_status v)) →
  extract_status (encode_replace (nonce ++ batch_text (ok_status v) ++ nonce)) nonce = Some (ok_status v).
Proof.
  intros Hs Hv Hf. unfold extract_status.
  rewrite decode_encode_replace by (rewrite !forallb_app, Hs, batch_text_scalar by (by apply ok_portable); done).
  destruct (last_frame [] nonce _ Hf) as (stop & start & H1 & H2 & H3). rewrite !app_nil_l in H1, H2, H3. rewrite H1, H2, H3.
  pose proof (loads_obj _ (ok_portable v Hv)) as Hl. fold (ok_status v) in Hl. by rewrite Hl.
Qed.

(** The child of a case returned [v] in time, and its frame came through the pipe. *)
Record answers (timeout_s : float) (limit : Z) (nonce : pystr) (r : ChildRun) (v : pyobj) : Prop := {
  an_value : portable v;
  an_nonce : forallb scalar nonce = true;
  an_framed : framed nonce (batch_text (ok_status v));
  an_in_time : existsb snd (polls r) = true;
  an_fits : (zlen (encode_replace (nonce ++ batch_text (ok_status v) ++ nonce)) <= limit)%Z;
  an_delivered : encode_status (ok_status v) nonce limit = Ok (delivered r)
}.

Lemma reported_case (timeout_s : float) (limit : Z) (nonce : pystr) (r : ChildRun) (v : pyobj) :
  answers timeout_s limit nonce r v → case_status timeout_s limit nonce r = ok_status v.
Proof.
  intros [Hv Hs Hf Ht Hfit Hd].
  assert (Hraw : delivered r = encode_replace (nonce ++ batch_text (ok_status v) ++ nonce)).
  { unfold encode_status in Hd. pose proof (dumps_batch (no_nan batch_options) _ (or_intror eq_refl) (ok_portable v Hv)) as Htext.
    destruct (dumps_limited (no_nan batch_options) (ok_status v) nesting_limit) as [[Hw _]|[Hw _]]; rewrite Hw in Hd; [|done].
    rewrite Htext in Hd. cbn [catch mbind result_bind] in Hd. rewrite (proj2 (Z.ltb_ge _ _)) in Hd by done. by injection Hd as <-. }
  assert (Hl : (0 <= limit)%Z) by (pose proof (zlen_nonneg (encode_replace (nonce ++ batch_text (ok_status v) ++ nonce))); lia).
  destruct (captured_take limit r Hl) as [Hc Hto]. unfold case_status.
  destruct (supervise limit (polls r) []) as [output timed_out]. cbn [fst snd] in Hc, Hto.
  rewrite Hto, Ht, Hc, Hraw. cbn [negb]. rewrite take_ge by (unfold zlen in Hfit; lia).
  by rewrite extract_status_frame.
Qed.

(** A batch whose cases all answer. *)
Lemma batch_answers (code entrypoint : pystr) (timeout_s : float) (cases vs : list pyobj) :
  compile_python code = None → length vs = length cases →
  (∀ i case v, cases !! i = Some case → vs !! i = Some v →
     answers timeout_s (case_limit (zlen cases)) (case_nonce i)
       (run_child code entrypoint case (case_nonce i) (case_limit (zlen cases)) timeout_s) v) →
  batch_results code entrypoint timeout_s cases = map ok_status vs.
Proof.
  intros Hc Hlen Ha. unfold batch_results. rewrite Hc. revert Ha. generalize (case_limit (zlen cases)) as limit.
  intros limit Ha.
  assert (H : ∀ k, (∀ i case v, cases !! i = Some case → vs !! i = Some v →
     answers timeout_s limit (case_nonce (k + i)) (run_child code entrypoint case (case_nonce (k + i)) limit timeout_s) v) →
    run_cases code entrypoint timeout_s limit k cases = map ok_status vs).
  { clear Ha Hc. revert vs Hlen. induction cases as [|case cases IH]; intros [|v vs] Hlen k Ha; try done.
    cbn [run_cases map]. f_equal.
    - apply reported_case. specialize (Ha O case v eq_refl eq_refl). by rewrite Nat.add_0_r in Ha.
    - apply IH; [by injection Hlen|]. intros i c w Hcase Hw. specialize (Ha (S i) c w Hcase Hw).
      by rewrite Nat.add_succ_r in Ha. }
  apply (H O). exact Ha.
Qed.

Definition batch_status (statuses : list pyobj) : pyobj :=
  obj [("status", str_key "batch"); ("results", PList statuses)]%string.

Lemma batch_portable (vs : list pyobj) : Forall portable vs → portable (batch_status (map ok_status vs)).
Proof.
  intros Hvs. assert (Hnd : NoDup ["status"; "results"]%string) by (apply (bool_decide_unpack _); vm_compute; exact I).
  assert (Hl : portable (PList (map ok_status vs))).
  { apply list_portable, Forall_fmap. eapply Forall_impl; [exact Hvs|]. intros v. apply ok_portable. }
  destruct Hl as [H1 H2]. split; (apply obj_value; [exact Hnd|]);
    (apply Forall_cons; split; [apply ustr_scalar|by apply Forall_singleton]).
Qed.

(** The frame of a batch of answers is read back on the host, whatever was printed
    before it. *)
Lemma batch_read_back (noise nonce : pystr) (vs : list pyobj) :
  Forall portable vs → framed nonce (batch_text (batch_status (map ok_status vs))) →
  ∃ out, batch_frame nonce (map ok_status vs) = Ok out ∧
    extract_framed (noise ++ out) nonce = Ok (Some (batch_status (map ok_status vs))).
Proof.
  intros Hvs Hf. pose proof (batch_portable vs Hvs) as Hp.
  exists (nonce ++ batch_text (batch_status (map ok_status vs)) ++ nonce). split.
  - unfold batch_frame. fold (batch_status (map ok_status vs)). by rewrite (dumps_batch batch_options) by auto.
  - rewrite extract_last by done.
    pose proof (loads_frame_obj _ Hp) as Hl. fold (batch_status (map ok_status vs)) in Hl. rewrite Hl. cbn [catch mbind result_bind].
    assert (Hvalid : valid_status (batch_status (map ok_status vs)) = true).
    { transitivity (forallb valid_status (map ok_status vs)); [reflexivity|]. clear.
      induction vs as [|v vs IH]; [done|]. cbn [map forallb]. rewrite IH, andb_true_r. reflexivity. }
    by rewrite Hvalid.
Qed.
End reports.

(** ** Properties *)

Section bounds.
Context `{FR : !FloatRepr, PR : !PyRepr, SB : !Sandbox}.

Lemma case_limit_min (n : Z) : (4096 <= case_limit n)%Z.
Proof. unfold case_limit. lia. Qed.

Lemma case_limits_fit (n : Z) : (1 <= n <= 1023)%Z → (n * case_limit n <= MAX_BATCH_BYTES - 4096)%Z.
Proof.
  intros Hn. unfold case_limit, MAX_CASE_STATUS_BYTES, MAX_BATCH_BYTES. rewrite (Z.max_r 1 n) by lia.
  pose proof (Z.mul_div_le (4 * 1024 * 1024 - 4096) n). assert (4096 <= (4 * 1024 * 1024 - 4096) / n)%Z by (apply Z.div_le_lower_bound; lia).
  nia.
Qed.

(** What a supervisor reports of a child whose pipe delivered nothing. *)
Lemma silent_case (timeout_s : float) (limit : Z) (nonce : pystr) (r : ChildRun) :
  (0 <= limit)%Z → nonce ≠ [] → delivered r = [] →
  case_status timeout_s limit nonce r =
    if existsb snd (polls r) then failure_status "error" (ustr "test process produced no result")
    else failure_status "timeout" (ustr "timed out after " ++ format_fixed 3 timeout_s ++ ustr "s").
Proof.
  intros Hl Hn Hd. destruct (captured_take limit r Hl) as [Hc Hto]. unfold case_status.
  destruct (supervise limit (polls r) []) as [output timed_out]. cbn [fst snd] in Hc, Hto.
  rewrite Hto, Hc, Hd, take_nil. destruct (existsb snd (polls r)); [|done]. cbn [negb].
  assert (extract_status [] nonce = None) as ->; [|done]. unfold extract_status. destruct nonce as [|c nonce]; [done|].
  by vm_compute.
Qed.

End bounds.

(** A sandbox in which nothing runs, with room for three levels. *)
#[export] Instance idle_sandbox : Sandbox := {|
  nesting_limit := 3;
  repr_of _ := None; run_python _ _ _ _ := ([], NotDefined); compile_python _ := None;
  case_nonce _ := repeat 48 32; run_child _ _ _ _ _ _ := {| polls := []; last_reads := [] |};
  compile_rust _ _ _ := CompilerTimedOut; run_rust _ _ := RustTimeout
|}.

