(* ===== verification/Executor.v ===== *)
(** * The executors of candidate code ([src/rlvr/execution/executor.py],
    [docker_executor.py], [rust_docker_executor.py], [subprocess_executor.py])

    An executor runs a candidate against the hidden tests and reports one result per
    test.  The host, with its clock, its random tokens, docker and the processes it
    starts, is the class [Host]; the bytes read from a process are lists of chunks.  An
    operation is a function from a world to a result and a world.

    ExecutorSpec has the theorems. *)

From Stdlib Require Import SpecFloat.
From S2P Require Import Prelude PyFloat Text Json JsonSpec Compare Framing Scoring Codecs ScoreState Runner Release.

Local Open Scope Z_scope.

(** A hidden test (types.py); the value that is expected stays with the executor. *)
Record TestCase := { args : list pyobj; kwargs : list (pyobj * pyobj); expected : pyobj }.

(** ** The host *)

(** A process of [_run_bounded]: the start failed, the call raised, or the process ended
    (with or without the watchdog). *)
Inductive Bounded :=
  | NotStarted (class_name message : pystr)
  | CallRaised (class_name message : pystr)
  | Ended (timed_out : bool) (returncode : Z) (stdout stderr : list bytes).

(** [subprocess.run]: it raised, or it returned. *)
Inductive CommandRun := CommandRaised (class_name message : pystr) | CommandRan (returncode : Z) (stdout stderr : pystr).

(** A child of [SubprocessExecutor._spawn]; its stdout is decoded as it is read. *)
Inductive Local := LocalNotStarted (class_name message : pystr) | LocalEnded (timed_out : bool) (stdout : list pystr).

Class Host := {
  hworld : Type;
  clock_s : hworld → float * hworld;
  token_hex : Z → hworld → pystr * hworld;
  (* a command, its stdin, and the watchdog's timeout *)
  start : list pystr → bytes → float → hworld → Bounded * hworld;
  command : list pystr → hworld → CommandRun * hworld;
  (* a command, its stdin, its directory, its environment and its timeout *)
  start_local : list pystr → pystr → pystr → list (pystr * pystr) → float → hworld → Local * hworld;
  which_docker : option pystr
}.

Definition host_m `{!Host} (A : Type) : Type := hworld → A * hworld.
#[export] Instance host_ret `{!Host} : MRet host_m := λ A a w, (a, w).
#[export] Instance host_bind `{!Host} : MBind host_m := λ A B f m w, let '(a, w') := m w in f a w'.

(** ** Bounded buffers *)

Section tail.
Context {A : Type}.

(** One chunk goes into a buffer of at most [limit] elements ([drain]). *)
Definition drain_chunk (limit : nat) (target : list A) (truncated : bool) (chunk : list A) : list A * bool :=
  let overflow := zlen target + zlen chunk - Z.of_nat limit in
  if 0 <? overflow then
    let target := drop (Z.to_nat (Z.min overflow (zlen target))) target in
    if (limit <=? length chunk)%nat
    then (slice_from (- Z.of_nat limit) chunk, true)
    else (target ++ chunk, true)
  else (target ++ chunk, truncated).

(** Chunks until one is empty. *)
Fixpoint drain (limit : nat) (chunks : list (list A)) (target : list A) (truncated : bool) : list A * bool :=
  match chunks with
  | [] | [] :: _ => (target, truncated)
  | chunk :: chunks' =>
      let '(target, truncated) := drain_chunk limit target truncated chunk in
      drain limit chunks' target truncated
  end.

(** The reader of [_spawn]. *)
Fixpoint read_tail (limit : nat) (chunks : list (list A)) (captured : list A) : list A :=
  match chunks with
  | [] | [] :: _ => captured
  | chunk :: chunks' =>
      read_tail limit chunks'
        (if (limit <=? length chunk)%nat then slice_from (- Z.of_nat limit) chunk
         else slice_from (- Z.of_nat limit) (captured ++ chunk))
  end.
End tail.

Definition MAX_STDOUT_BYTES : nat := Z.to_nat MAX_BATCH_BYTES + 64 * 1024.
Definition MAX_STDERR_BYTES : nat := 64 * 1024.
Definition DOCKER_WATCHDOG_SLACK_S : float := float_of_int 10.

(** A finished process; its streams are decoded with ["replace"]. *)
Record Completed := { returncode : Z; stdout : pystr; stderr : pystr }.

(** ** Results *)

Definition failed_result (index : Z) (error_text kind : pystr) (timeout : bool) (ms : float) : ExecutionResult :=
  {| test_index := index; passed := false; value := PNone; value_ok := false; actual_repr := None;
     error := Some error_text; error_kind := Some kind; timed_out := timeout; runtime_ms := ms |}.

Definition numbered {A} (l : list A) : list (Z * A) := zip (map Z.of_nat (seq 0 (length l))) l.

Definition batch_failure (tests : list TestCase) (error_text : pystr) (ms : float) (timeout : bool)
    : list ExecutionResult :=
  map (λ '(index, _), failed_result index error_text (ustr (if timeout then "timeout" else "sandbox_error")) timeout ms)
    (numbered tests).

(** A field the result model declares as [Optional[str]]. *)
Definition text_or_none (v : pyobj) : result (option pystr) :=
  match v with
  | PStr s => mret (Some s)
  | PNone => mret None
  | _ => raise ValidationError "Input should be a valid string"
  end.

(** [status.get("error", other)] *)
Definition error_of (d : list (pyobj * pyobj)) (other : pyobj) : result (option pystr) :=
  text_or_none (default other (member "error" d)).

Section results.
Context `{!FloatRepr}.

(** [json.dumps(value)[:500]] *)
Definition shown (v : pyobj) : result pystr := take 500 <$> dumps default_options v.

Definition answered_result (index : Z) (ok : bool) (v : pyobj) (repr : option pystr) (ms : float) : ExecutionResult :=
  {| test_index := index; passed := ok; value := v; value_ok := true; actual_repr := repr;
     error := None; error_kind := None; timed_out := false; runtime_ms := ms |}.

Definition sandbox_failed (index : Z) (error_text : option pystr) (repr : option pystr) (kind : string)
    (timeout : bool) (ms : float) : ExecutionResult :=
  {| test_index := index; passed := false; value := PNone; value_ok := false; actual_repr := repr;
     error := error_text; error_kind := Some (ustr kind); timed_out := timeout; runtime_ms := ms |}.

Definition parse_status (index : Z) (test : TestCase) (status : pyobj) (ms : float) : result ExecutionResult :=
  match status with
  | PDict d =>
      let kind := default PNone (member "status" d) in
      let kind_is k := match kind with PStr s => bool_decide (s = ustr k) | _ => false end in
      if kind_is "ok"%string then
        let v := default PNone (member "value" d) in
        ok ← values_equal FLOAT_TOLERANCE v (expected test);
        mret (answered_result index ok v (result_to_option (shown v)) ms)
      else if kind_is "unserializable"%string then
        repr ← text_or_none (default PNone (member "actual_repr" d));
        e ← error_of d (str_key "unserializable return value");
        mret (sandbox_failed index e repr "unserializable" false ms)
      else if kind_is "timeout"%string then
        e ← error_of d (str_key "test timed out");
        mret (sandbox_failed index e None "timeout" true ms)
      else
        e ← error_of d (py_or kind (str_key "execution error"));
        mret (sandbox_failed index e None (if kind_is "compile_error"%string then "compile_error" else "runtime_error")%string
                false ms)
  | _ => mret (sandbox_failed index (Some (ustr "container returned an invalid test result")) None "sandbox_error" false ms)
  end.

(** What is said of a container without a verdict. *)
Definition no_verdict (proc : Completed) : pystr :=
  let err := strip py_isspace (stderr proc) in
  ustr "container produced no verdict: " ++
  (if returncode proc =? 137 then ustr "container killed (likely OOM / memory limit)"
   else match err with
        | [] => ustr "no output (rc=" ++ str_of_int (returncode proc) ++ ustr ")"
        | _ => slice_from (-500) err
        end).

(** The results of a batch's statuses, one by one. *)
Definition parse_all (parse : Z → TestCase → pyobj → result ExecutionResult) (tests : list TestCase)
    (statuses : list pyobj) : result (list ExecutionResult) :=
  mapM (λ '(index, (test, status)), parse index test status) (numbered (zip tests statuses)).

Definition parse_batch (tests : list TestCase) (nonce : pystr) (proc : Completed) (ms : float)
    : result (list ExecutionResult) :=
  payload ← extract_framed (stdout proc) nonce;
  match payload with
  | Some (PDict d) =>
      if match member "status" d with Some (PStr s) => bool_decide (s = ustr "batch") | _ => false end then
        match member "results" d with
        | Some (PList statuses) =>
            if zlen statuses =? zlen tests
            then parse_all (λ index test status, parse_status index test status ms) tests statuses
            else mret (batch_failure tests (ustr "container returned an invalid result count") ms false)
        | _ => mret (batch_failure tests (ustr "container returned an invalid result count") ms false)
        end
      else mret (batch_failure tests (no_verdict proc) ms false)
  | _ => mret (batch_failure tests (no_verdict proc) ms false)
  end.

(** [_parse]: one result from a frame that is not a batch. *)
Definition parse_one (index : Z) (test : TestCase) (nonce : pystr) (proc : Completed) (ms : float) : result ExecutionResult :=
  status ← extract_framed (stdout proc) nonce;
  match status with
  | None => mret (failed_result index (no_verdict proc) (ustr "sandbox_error") false ms)
  | Some status => parse_status index test status ms
  end.
End results.

(** ** DockerExecutor *)

(** The settings it reads; [None] where the attribute is absent or [None]. *)
Record DockerSettings := {
  docker_image : option pystr;
  docker_memory : option pystr;
  docker_cpus : option float;
  docker_pids_limit : option Z
}.

Record DockerExecutor := {
  image : pystr;
  memory : pystr;
  cpus : pystr;
  pids_limit : Z;
  docker : pystr
}.

Definition text_or (v : option pystr) (other : string) : pystr :=
  match v with Some ((_ :: _) as s) => s | _ => ustr other end.

Section docker.
Context `{!FloatRepr, !Host}.
Context (runner_src : pystr).

Definition resolve_docker : host_m (result pystr) :=
  match which_docker with
  | None | Some [] => mret (raise RuntimeError "DockerExecutor requires the 'docker' CLI on PATH")
  | Some path =>
      r ← command [path; ustr "info"];
      mret match r with
           | CommandRaised name message =>
               Raise (Exn RuntimeError (ustr "DockerExecutor could not contact the Docker daemon ('docker info' failed: "
                 ++ name ++ ustr ": " ++ message ++ ustr "). Is Docker running?"))
           | CommandRan 0 _ _ => Ok path
           | CommandRan rc _ err =>
               Raise (Exn RuntimeError (ustr "DockerExecutor could not contact the Docker daemon ('docker info' rc="
                 ++ str_of_int rc ++ ustr ": " ++ take 300 (strip py_isspace err) ++ ustr "). Is Docker running?"))
           end
  end.

Definition docker_executor (s : DockerSettings) : host_m (result DockerExecutor) :=
  path ← resolve_docker;
  mret (d ← path;
        mret {| image := text_or (docker_image s) "python:3.12-slim";
                memory := text_or (docker_memory s) "256m";
                cpus := match docker_cpus s with
                        | Some x => if feqb x f0 then ustr "1.0" else float_repr x
                        | None => ustr "1.0"
                        end;
                pids_limit := match docker_pids_limit s with Some 0 | None => 128 | Some n => n end;
                docker := d |}).

(** [_run_bounded]: the streams are drained into buffers that keep the last bytes. *)
Definition run_bounded (cmd : list pystr) (stdin_bytes : bytes) (timeout_s : float)
    : host_m (result (option Completed * bool * option pystr)) :=
  r ← start cmd stdin_bytes (fmax (fdiv f1 (float_of_int 1000)) timeout_s);
  mret match r with
       | NotStarted name message => Ok (None, false, Some (ustr "docker launch failed: " ++ name ++ ustr ": " ++ message))
       | CallRaised name message => Raise (Exn OtherError (name ++ ustr ": " ++ message))
       | Ended timeout rc out err =>
           let '(out, out_truncated) := drain MAX_STDOUT_BYTES out [] false in
           let '(err, err_truncated) := drain MAX_STDERR_BYTES err [] false in
           let err := decode_replace err in
           let err := if out_truncated : bool then ustr "<stdout truncated; tail retained>" ++ [10%N] ++ err else err in
           let err := if err_truncated : bool then ustr "<stderr truncated; tail follows>" ++ [10%N] ++ err else err in
           Ok (Some {| returncode := rc; stdout := decode_replace out; stderr := err |}, timeout, None)
       end.

Definition container_was_oom_killed (x : DockerExecutor) (container_name : pystr) : host_m bool :=
  r ← command [docker x; ustr "inspect"; ustr "--format"; ustr "{{.State.OOMKilled}}"; container_name];
  mret match r with
       | CommandRan rc out _ => (rc =? 0) && bool_decide (map ascii_low (strip py_isspace out) = ustr "true")
       | CommandRaised _ _ => false
       end.

(** [None] when the container is gone. *)
Definition remove_container (x : DockerExecutor) (container_name : pystr) : host_m (option pystr) :=
  r ← command [docker x; ustr "rm"; ustr "-f"; container_name];
  let failure detail := Some (ustr "docker cleanup failed for " ++ container_name ++ ustr ": " ++ detail) in
  mret match r with
       | CommandRaised name message => failure (name ++ ustr ": " ++ message)
       | CommandRan rc out err =>
           if (rc =? 0) || contains (ustr "No such container") err then None
           else failure (slice_from (-500) (strip py_isspace
                  (match err, out with [], [] => ustr "unknown error" | [], _ => out | _, _ => err end)))
       end.

Definition SENTINEL : pystr := [10%N] ++ ustr "#==RLVR_SBX_SENTINEL==" ++ [10%N].
Definition SENTINEL_REPR : pystr := ustr "'\n#==RLVR_SBX_SENTINEL==\n'".

Definition bootstrap : pystr :=
  ustr "import sys;d=sys.stdin.read();i=d.index(" ++ SENTINEL_REPR ++ ustr ");src=d[:i];payload=d[i+len("
  ++ SENTINEL_REPR ++ ustr "):];g={'__name__':'__sbx__'};exec(compile(src,'<runner>','exec'),g);"
  ++ ustr "import io;sys.stdin=io.StringIO(payload);g['main']()".

(** What a container gets on its stdin: no expected value. *)
Definition batch_payload (code entrypoint : pystr) (tests : list TestCase) (timeout_s : float) (nonce : pystr) : pyobj :=
  obj [("code", PStr code); ("entrypoint", PStr entrypoint);
       ("tests", PList (map (λ t, obj [("args", PList (args t)); ("kwargs", PDict (kwargs t))]%string) tests));
       ("timeout_s", PFloat timeout_s); ("nonce", PStr nonce)]%string.

(** [min(60.0, 5.0 + 0.025 * len(tests))] *)
Definition timeout_slack (n : Z) : float :=
  fmin (float_of_int 60) (fadd (float_of_int 5) (fmul (fdiv (float_of_int 25) (float_of_int 1000)) (float_of_int n))).

Definition total_timeout (timeout_s : float) (n : Z) : float :=
  fadd (fmul timeout_s (float_of_int n)) (timeout_slack n).

Definition container_command (x : DockerExecutor) (container_name : pystr) (total_timeout_s : float) : list pystr :=
  [docker x; ustr "run"; ustr "--name"; container_name; ustr "-i"; ustr "--network=none";
   ustr "--memory=" ++ memory x; ustr "--memory-swap=" ++ memory x; ustr "--cpus=" ++ cpus x;
   ustr "--pids-limit=" ++ str_of_int (pids_limit x); ustr "--cap-drop=ALL"; ustr "--security-opt=no-new-privileges";
   ustr "--user=65534:65534"; ustr "--read-only"; ustr "--tmpfs"; ustr "/tmp:rw,size=64m"; ustr "-e";
   ustr "PYTHONDONTWRITEBYTECODE=1"; ustr "-w"; ustr "/tmp"; image x; ustr "timeout"; ustr "--signal=TERM";
   ustr "--kill-after=0.25"; format_fixed 6 total_timeout_s; ustr "python"; ustr "-I"; ustr "-S"; ustr "-c"; bootstrap].

(** The [try] around the container: a process or a launch error, and whether it was
    killed for its memory. *)
Definition run_container (x : DockerExecutor) (container_name : pystr) (cmd : list pystr) (stdin_blob : pystr)
    (watchdog_s : float) (launch_failed : exn → pystr) : host_m (option Completed * bool * option pystr * bool) :=
  ran ← match utf8_encode stdin_blob with
        | Ok b => run_bounded cmd b watchdog_s
        | Raise e => mret (Raise e)
        end;
  match ran with
  | Raise e => mret (None, false, Some (launch_failed e), false)
  | Ok (proc, watchdog, launch_error) =>
      oom ← (if match proc with Some p => returncode p =? 137 | None => false end
             then container_was_oom_killed x container_name else mret false);
      mret (proc, watchdog, launch_error, oom)
  end.

(** [f"docker launch failed: {type(e).__name__}: {e}"] *)
Definition docker_launch_failed (e : exn) : pystr :=
  match exn_cls e with
  | OtherError => ustr "docker launch failed: " ++ exn_msg e
  | _ => ustr "docker launch failed: " ++ exn_name e ++ ustr ": " ++ exn_msg e
  end.

(** The results of a container that ended, was cleaned up or was not. *)
Definition judge_container (tests : list TestCase) (nonce : pystr) (total_timeout_s : float)
    (outcome : option Completed * bool * option pystr * bool) (cleanup_error : option pystr) (ms : float)
    : result (list ExecutionResult) :=
  let '(proc, watchdog, launch_error, oom) := outcome in
  match cleanup_error with
  | Some e => mret (batch_failure tests e ms false)
  | None =>
      if watchdog || match proc with
                     | Some p => (returncode p =? 124) || (returncode p =? 137) && negb oom
                     | None => false
                     end
      then mret (batch_failure tests (ustr "container timed out after " ++ format_fixed 3 total_timeout_s ++ ustr "s") ms true)
      else match launch_error, proc with
           | None, Some p => parse_batch tests nonce p ms
           | Some ((_ :: _) as e), _ => mret (batch_failure tests e ms false)
           | _, _ => mret (batch_failure tests (ustr "docker launch failed without a result") ms false)
           end
  end.

Definition run_batch (x : DockerExecutor) (code entrypoint : pystr) (tests : list TestCase) (timeout_s : float)
    : host_m (result (list ExecutionResult)) :=
  nonce ← token_hex 16;
  suffix ← token_hex 12;
  let container_name := ustr "rlvr-sbx-" ++ suffix in
  let timeout_s := fmax (fdiv f1 (float_of_int 1000)) timeout_s in
  match dumps default_options (batch_payload code entrypoint tests timeout_s nonce) with
  | Raise e => mret (Raise e)
  | Ok payload =>
      let total := total_timeout timeout_s (zlen tests) in
      t0 ← clock_s;
      outcome ← run_container x container_name (container_command x container_name total)
                  (runner_src ++ SENTINEL ++ payload) (fadd total DOCKER_WATCHDOG_SLACK_S) docker_launch_failed;
      cleanup_error ← remove_container x container_name;
      t1 ← clock_s;
      mret (judge_container tests nonce total outcome cleanup_error (fmul (fsub t1 t0) (float_of_int 1000)))
  end.

Definition run_tests_docker (x : DockerExecutor) (code entrypoint : pystr) (tests : list TestCase) (timeout_s : float)
    : host_m (result (list ExecutionResult)) :=
  match tests with [] => mret (Ok []) | _ => run_batch x code entrypoint tests timeout_s end.
End docker.

(** ** RustDockerExecutor *)

Section rust.
Context `{!FloatRepr, !Host}.
Context (rust_runner_src : pystr) (policy : ValidatorPolicy).

Definition rust_executor (s : DockerSettings) : host_m (result DockerExecutor) :=
  x ← docker_executor s;
  mret ((λ d, {| image := rust_image policy; memory := rust_memory policy; cpus := cpus d; pids_limit := pids_limit d;
                 docker := docker d |}) <$> x).

Definition RUST_SENTINEL : pystr := [10%N] ++ ustr "#==RLVR_RUST_SENTINEL==" ++ [10%N].
Definition RUST_SENTINEL_REPR : pystr := ustr "'\n#==RLVR_RUST_SENTINEL==\n'".

Definition rust_bootstrap : pystr :=
  ustr "import sys;d=sys.stdin.read();i=d.index(" ++ RUST_SENTINEL_REPR ++ ustr ");src=d[:i];payload=d[i+len("
  ++ RUST_SENTINEL_REPR ++ ustr "):];g={'__name__':'__sbx__'};exec(compile(src,'<runner>','exec'),g);"
  ++ ustr "import io;sys.stdin=io.StringIO(payload);g['main']()".

(** [test.args[0]] *)
Definition stdin_of (t : TestCase) : result pyobj :=
  match args t with v :: _ => Ok v | [] => raise IndexError "list index out of range" end.

Definition compiler_argv : list pystr :=
  [ustr "rustc"; ustr "--edition=" ++ rust_edition policy] ++ rustc_flags policy.

Definition rust_payload (code : pystr) (stdins : list pyobj) (timeout_s : float) (nonce : pystr) : pyobj :=
  obj [("compiler_argv", PList (map PStr compiler_argv));
       ("code", PStr code); ("tests", PList (map (λ v, obj [("stdin", v)]%string) stdins));
       ("timeout_s", PFloat timeout_s); ("compile_timeout_s", PFloat (rust_compile_timeout_s policy));
       ("artifact_max_bytes", PInt (rust_artifact_max_bytes policy)); ("nonce", PStr nonce)]%string.

Definition rust_command (x : DockerExecutor) (container_name : pystr) (total : float) : list pystr :=
  [docker x; ustr "run"; ustr "--name"; container_name; ustr "-i"; ustr "--network=none";
   ustr "--memory=" ++ memory x; ustr "--memory-swap=" ++ memory x; ustr "--cpus=" ++ cpus x;
   ustr "--pids-limit=" ++ str_of_int (pids_limit x); ustr "--cap-drop=ALL"; ustr "--security-opt=no-new-privileges";
   ustr "--user=65534:65534"; ustr "--read-only"; ustr "--tmpfs";
   ustr "/tmp:rw,exec,nosuid,nodev,size=" ++ str_of_int (rust_tmpfs_bytes policy); ustr "-w"; ustr "/tmp"; image x;
   ustr "timeout"; ustr "--signal=TERM"; ustr "--kill-after=0.25"; format_fixed 6 total; ustr "python3"; ustr "-I";
   ustr "-S"; ustr "-c"; rust_bootstrap].

Definition parse_rust_status (index : Z) (test : TestCase) (status : pyobj) (ms : float) : result ExecutionResult :=
  match status with
  | PDict d =>
      let kind := default PNone (member "status" d) in
      let kind_is k := match kind with PStr s => bool_decide (s = ustr k) | _ => false end in
      if kind_is "ok"%string then
        let v := default PNone (member "value" d) in
        ok ← match v with
             | PStr s =>
                 match expected test with
                 | PStr e => mret (outputs_match s e)
                 | _ => raise AttributeError "object has no attribute 'strip'"
                 end
             | _ => mret false
             end;
        repr ← shown v;
        mret (answered_result index ok v (Some repr) ms)
      else
        e ← error_of d (str_key "invalid Rust result");
        mret (sandbox_failed index e None
                (if kind_is "compile_error" then "compile_error"
                 else if kind_is "timeout" then "timeout" else "runtime_error")%string (kind_is "timeout"%string) ms)
  | _ => mret (sandbox_failed index (Some (ustr "invalid Rust result")) None "runtime_error" false ms)
  end.

(** The results of a container: an error before its exit code, its exit code before
    its output. *)
Definition judge_rust (tests : list TestCase) (nonce : pystr)
    (outcome : option Completed * bool * option pystr * bool) (cleanup_error : option pystr) (ms : float)
    : result (list ExecutionResult) :=
  let '(proc, watchdog, launch_error, oom) := outcome in
  let first_error := match cleanup_error with Some (_ :: _) => cleanup_error | _ => launch_error end in
  match first_error, watchdog, proc with
  | Some ((_ :: _) as e), _, _ => mret (batch_failure tests e ms watchdog)
  | _, true, _ | _, _, None => mret (batch_failure tests (ustr "Rust container timed out") ms watchdog)
  | _, false, Some p =>
      if (returncode p =? 124) || (returncode p =? 137) && negb oom
      then mret (batch_failure tests (ustr "Rust container timed out") ms true)
      else if negb (returncode p =? 0) then
        mret (batch_failure tests
          (if oom : bool then ustr "Rust container exceeded its memory limit"
           else match strip py_isspace (stderr p) with
                | [] => ustr "Rust container exited " ++ str_of_int (returncode p)
                | err => slice_from (-500) err
                end) ms false)
      else
        frame ← extract_framed (stdout p) nonce;
        match match frame with Some (PDict d) => member "results" d | _ => None end with
        | Some (PList statuses) =>
            if zlen statuses =? zlen tests
            then parse_all (λ index test status, parse_rust_status index test status ms) tests statuses
            else mret (batch_failure tests (ustr "Rust container produced no verdict") ms false)
        | _ => mret (batch_failure tests (ustr "Rust container produced no verdict") ms false)
        end
  end.

Definition run_rust_batch (x : DockerExecutor) (code : pystr) (tests : list TestCase) (timeout_s : float)
    : host_m (result (list ExecutionResult)) :=
  nonce ← token_hex 16;
  suffix ← token_hex 12;
  let container_name := ustr "rlvr-rust-" ++ suffix in
  let timeout_s := fmax (fdiv f1 (float_of_int 1000)) timeout_s in
  match stdins ← mapM stdin_of tests; dumps default_options (rust_payload code stdins timeout_s nonce) with
  | Raise e => mret (Raise e)
  | Ok payload =>
      let total := fadd (fadd (rust_compile_timeout_s policy) (fmul timeout_s (float_of_int (zlen tests))))
                     (timeout_slack (zlen tests)) in
      t0 ← clock_s;
      outcome ← run_container x container_name (rust_command x container_name total)
                  (rust_runner_src ++ RUST_SENTINEL ++ payload) (fadd total DOCKER_WATCHDOG_SLACK_S) exn_msg;
      cleanup_error ← remove_container x container_name;
      t1 ← clock_s;
      mret (judge_rust tests nonce outcome cleanup_error (fmul (fsub t1 t0) (float_of_int 1000)))
  end.

Definition run_tests_rust (x : DockerExecutor) (code : pystr) (tests : list TestCase) (timeout_s : float)
    : host_m (result (list ExecutionResult)) :=
  match tests with [] => mret (Ok []) | _ => run_rust_batch x code tests timeout_s end.
End rust.

(** ** SubprocessExecutor *)

Definition MAX_LOCAL_OUTPUT : nat := 256 * 1024.

(** The paths [_wrap_cmd] resolves, on macOS with [sandbox-exec]. *)
Record Seatbelt := { home_dir : pystr; readable_dirs : list pystr; temp_root : pystr }.

Record SubprocessExecutor := {
  python : pystr;
  (* [None] where the command is not wrapped *)
  seatbelt : option Seatbelt;
  os_path : option pystr;
  system_root : option pystr
}.

Section subprocess.
Context `{!FloatRepr, !Host}.
Context (x : SubprocessExecutor).

Definition quote_path (s : pystr) : pystr := [34%N] ++ s ++ [34%N].

(** A candidate may read outside of the home directory, and inside of it only where the
    interpreter and its own directory are. *)
Definition wrap_cmd (cmd : list pystr) (tmp : pystr) : list pystr :=
  match seatbelt x with
  | None => cmd
  | Some s =>
      let allow_read := sort_by str_le (elements (list_to_set (tmp :: temp_root s :: readable_dirs s) : gset pystr)) in
      [ustr "/usr/bin/sandbox-exec"; ustr "-p";
       ustr "(version 1)(allow default)(deny network*)(deny file-write*)"
       ++ ustr "(allow file-write* (subpath " ++ quote_path tmp ++ ustr "))"
       ++ ustr "(allow file-write* (subpath " ++ quote_path (temp_root s) ++ ustr "))"
       ++ ustr "(deny file-read-data (subpath " ++ quote_path (home_dir s) ++ ustr "))"
       ++ concat (map (λ p, ustr "(allow file-read-data (subpath " ++ quote_path p ++ ustr "))") allow_read)] ++ cmd
  end.

Definition sandbox_env (tmp : pystr) : list (pystr * pystr) :=
  [(ustr "PATH", default (ustr "/usr/bin:/bin") (os_path x)); (ustr "LC_ALL", ustr "C.UTF-8");
   (ustr "LANG", ustr "C.UTF-8"); (ustr "PYTHONDONTWRITEBYTECODE", ustr "1"); (ustr "PYTHONHASHSEED", ustr "0");
   (ustr "HOME", tmp); (ustr "TMPDIR", tmp); (ustr "no_proxy", ustr "*"); (ustr "NO_PROXY", ustr "*");
   (ustr "http_proxy", []); (ustr "https_proxy", []); (ustr "HTTP_PROXY", []); (ustr "HTTPS_PROXY", [])]
  ++ match system_root x with Some r => [(ustr "SYSTEMROOT", r)] | None => [] end.

Definition local_payload (code entrypoint : pystr) (test : TestCase) (nonce : pystr) : pyobj :=
  obj [("code", PStr code); ("entrypoint", PStr entrypoint); ("args", PList (args test));
       ("kwargs", PDict (kwargs test)); ("nonce", PStr nonce)]%string.

(** [_spawn]: the text captured, the timeout, the launch error. *)
Definition spawn (cmd : list pystr) (payload tmp : pystr) (timeout_s : float)
    : host_m (pystr * bool * option pystr) :=
  r ← start_local cmd payload tmp (sandbox_env tmp) timeout_s;
  mret match r with
       | LocalNotStarted name message => ([], false, Some (ustr "sandbox launch failed: " ++ name ++ ustr ": " ++ message))
       | LocalEnded timeout chunks => (read_tail MAX_LOCAL_OUTPUT chunks [], timeout, None)
       end.

(** The result of one call, from what was captured of its output. *)
Definition judge_local (index : Z) (test : TestCase) (nonce : pystr) (timeout_s : float)
    (ran : pystr * bool * option pystr) (ms : float) : result ExecutionResult :=
  let '(captured, timeout, launch_error) := ran in
  match launch_error with
  | Some e => mret (failed_result index e (ustr "sandbox_error") false ms)
  | None =>
      if timeout : bool then
        mret (failed_result index (ustr "timed out after " ++ format_fixed 3 timeout_s ++ ustr "s") (ustr "timeout") true ms)
      else
        status ← extract_framed captured nonce;
        match status with
        | Some (PDict d) =>
            let kind := default PNone (member "status" d) in
            let kind_is k := match kind with PStr s => bool_decide (s = ustr k) | _ => false end in
            if kind_is "ok"%string then
              let v := default PNone (member "value" d) in
              ok ← values_equal FLOAT_TOLERANCE v (expected test);
              mret (answered_result index ok v (result_to_option (shown v)) ms)
            else if kind_is "unserializable"%string then
              repr ← text_or_none (default PNone (member "actual_repr" d));
              e ← error_of d (str_key "unserializable return value");
              mret (sandbox_failed index e repr "unserializable" false ms)
            else
              e ← error_of d (py_or kind (str_key "execution error"));
              mret (sandbox_failed index e None
                      (if kind_is "compile_error" then "compile_error" else "runtime_error")%string false ms)
        | _ => mret (failed_result index (ustr "sandbox produced no verdict (crashed or exited early)")
                       (ustr "sandbox_error") false ms)
        end
  end.

Definition run_one (index : Z) (test : TestCase) (code entrypoint runner_path tmp : pystr) (timeout_s : float)
    : host_m (result ExecutionResult) :=
  nonce ← token_hex 16;
  match dumps default_options (local_payload code entrypoint test nonce) with
  | Raise e => mret (Raise e)
  | Ok payload =>
      t0 ← clock_s;
      ran ← spawn (wrap_cmd [python x; ustr "-I"; ustr "-S"; runner_path] tmp) payload tmp timeout_s;
      t1 ← clock_s;
      mret (judge_local index test nonce timeout_s ran (fmul (fsub t1 t0) (float_of_int 1000)))
  end.

(** The tests one after another; an exception ends the list. *)
Fixpoint run_each (tests : list (Z * TestCase)) (code entrypoint runner_path tmp : pystr) (timeout_s : float)
    : host_m (result (list ExecutionResult)) :=
  match tests with
  | [] => mret (Ok [])
  | (index, test) :: tests' =>
      r ← run_one index test code entrypoint runner_path tmp timeout_s;
      match r with
      | Raise e => mret (Raise e)
      | Ok r =>
          rs ← run_each tests' code entrypoint runner_path tmp timeout_s;
          mret (cons r <$> rs)
      end
  end.

(** In a directory [tmp] made for the run. *)
Definition run_tests_local (tmp : pystr) (code entrypoint : pystr) (tests : list TestCase) (timeout_s : float)
    : host_m (result (list ExecutionResult)) :=
  match tests with
  | [] => mret (Ok [])
  | _ => run_each (numbered tests) code entrypoint (tmp ++ ustr "/_sbx_runner.py") tmp timeout_s
  end.
End subprocess.

(** ** The choice of an executor *)

Inductive ExecutorKind := SubprocessKind | DockerKind | RustKind.

(** [kind] is [settings.executor], ["docker"] where there is none. *)
Definition get_executor (kind : option pystr) (language : pystr) : result ExecutorKind :=
  let kind := default (ustr "docker") kind in
  raise_if (negb (bool_decide (language = ustr "python") || bool_decide (language = ustr "rust"))) ValueError
    "Unknown challenge language.";;
  if bool_decide (language = ustr "rust") then
    raise_if (negb (bool_decide (kind = ustr "docker"))) RuntimeError
      "Rust challenge execution requires the Docker executor";;
    mret RustKind
  else if bool_decide (kind = ustr "subprocess") then mret SubprocessKind
  else if bool_decide (kind = ustr "docker") then mret DockerKind
  else raise ValueError "Unknown executor; expected 'subprocess' or 'docker'.".
