(* ===== verification/ExecutorSpec.v ===== *)
(** * The executors: what their results mean

    [drain_keeps_tail]: the bounded buffers.  [one_result_each]: the shape of the
    results.  [passed_was_answered]: what a passed test rests on.
    [expected_never_sent]: a sandbox learns nothing of the expected values. *)

From Stdlib Require Import SpecFloat.
From S2P Require Import Prelude PyFloat Text Json JsonSpec Compare Framing Scoring Codecs ScoreState Runner RunnerSpec Release Executor.

Local Open Scope Z_scope.

(** ** Bounded buffers *)

Section tail.
Context {A : Type}.
Implicit Types (l target chunk : list A) (chunks : list (list A)).

(** The last [n] elements. *)
Definition lastn (n : nat) l : list A := drop (length l - n) l.

Lemma lastn_all (n : nat) l : (length l <= n)%nat → lastn n l = l.
Proof. intros H. unfold lastn. by replace (length l - n)%nat with 0%nat by lia. Qed.

Lemma length_lastn (n : nat) l : length (lastn n l) = Nat.min n (length l).
Proof. unfold lastn. rewrite length_drop. lia. Qed.

Lemma lastn_app (n : nat) l chunk : lastn n (lastn n l ++ chunk) = lastn n (l ++ chunk).
Proof.
  unfold lastn. rewrite !length_app, length_drop.
  destruct (decide (length l <= n)%nat) as [H|H].
  - replace (length l - n)%nat with 0%nat by lia. rewrite drop_0. f_equal. lia.
  - replace (drop (length l - n) l ++ chunk) with (drop (length l - n) (l ++ chunk)) by (rewrite drop_app_le; [done|lia]).
    rewrite drop_drop. f_equal. lia.
Qed.

Lemma lastn_suffix (n : nat) l chunk : (n <= length chunk)%nat → lastn n (l ++ chunk) = lastn n chunk.
Proof.
  intros H. unfold lastn. rewrite length_app, drop_app_ge by lia. f_equal. lia.
Qed.

Lemma lastn_front (n : nat) l chunk :
  (length chunk <= n)%nat → lastn n (l ++ chunk) = drop (length l + length chunk - n) l ++ chunk.
Proof. intros H. unfold lastn. by rewrite length_app, drop_app_le by lia. Qed.

Lemma slice_from_lastn (n : nat) l : (0 < n)%nat → slice_from (- Z.of_nat n) l = lastn n l.
Proof.
  intros H. unfold slice_from, lastn. rewrite (proj2 (Z.leb_gt _ _)) by lia. do 2 f_equal. lia.
Qed.

Lemma drain_chunk_tail (limit : nat) (seen chunk : list A) :
  (0 < limit)%nat → chunk ≠ [] →
  drain_chunk limit (lastn limit seen) (bool_decide (limit < length seen)%nat) chunk
  = (lastn limit (seen ++ chunk), bool_decide (limit < length (seen ++ chunk))%nat).
Proof.
  intros Hl Hne. assert (Hc0 : (0 < length chunk)%nat) by (destruct chunk; [done|simpl; lia]). unfold drain_chunk, zlen. rewrite length_lastn, length_app.
  destruct (Z.ltb_spec 0 (Z.of_nat (Nat.min limit (length seen)) + Z.of_nat (length chunk) - Z.of_nat limit)) as [H|H].
  - rewrite (bool_decide_eq_true_2 (limit < length seen + length chunk)%nat) by lia.
    destruct (Nat.leb_spec limit (length chunk)) as [Hc|Hc].
    + rewrite slice_from_lastn by done. by rewrite lastn_suffix.
    + f_equal. rewrite <-(lastn_app limit seen chunk), lastn_front, length_lastn by lia. do 2 f_equal. lia.
  - assert (Hs : (length seen + length chunk <= limit)%nat) by lia.
    rewrite !bool_decide_eq_false_2 by lia. by rewrite !lastn_all by (rewrite ?length_app; lia).
Qed.

Lemma drain_tail (limit : nat) chunks (seen : list A) :
  (0 < limit)%nat → Forall (λ c, c ≠ []) chunks →
  drain limit chunks (lastn limit seen) (bool_decide (limit < length seen)%nat)
  = (lastn limit (seen ++ concat chunks), bool_decide (limit < length (seen ++ concat chunks))%nat).
Proof.
  intros Hl Hc. revert seen. induction Hc as [|chunk chunks Hne _ IH]; intros seen; simpl.
  - by rewrite app_nil_r.
  - rewrite drain_chunk_tail by done. rewrite IH, <-(assoc_L (++)). by destruct chunk.
Qed.

Lemma read_tail_spec (limit : nat) chunks (seen : list A) :
  (0 < limit)%nat → Forall (λ c, c ≠ []) chunks →
  read_tail limit chunks (lastn limit seen) = lastn limit (seen ++ concat chunks).
Proof.
  intros Hl Hc. revert seen. induction Hc as [|chunk chunks Hne _ IH]; intros seen; simpl; [by rewrite app_nil_r|].
  rewrite (assoc_L (++)), <-IH. destruct chunk as [|x chunk]; [done|]. f_equal.
  rewrite !slice_from_lastn by done. case_match eqn:Hlen.
  - apply Nat.leb_le in Hlen. by rewrite lastn_suffix.
  - apply lastn_app.
Qed.
End tail.

(** ** Lists with their numbers *)

Lemma numbered_lookup {A} (l : list A) (i : nat) (z : Z) (y : A) :
  numbered l !! i = Some (z, y) ↔ z = Z.of_nat i ∧ l !! i = Some y.
Proof.
  unfold numbered. rewrite lookup_zip_Some, list_lookup_fmap, fmap_Some. split.
  - intros ((k & [-> Hk]%lookup_seq & ->) & Hy). done.
  - intros [-> Hy]. split; [|done]. exists i. rewrite lookup_seq. apply lookup_lt_Some in Hy. lia.
Qed.

Lemma length_numbered {A} (l : list A) : length (numbered l) = length l.
Proof. unfold numbered. rewrite length_zip_with, length_map, length_seq. lia. Qed.

(** The result of a test: its number, and nothing that contradicts a pass. *)
Definition sound_result (i : nat) (r : ExecutionResult) : Prop :=
  test_index r = Z.of_nat i ∧
  (passed r = true → value_ok r = true ∧ error r = None ∧ error_kind r = None ∧ timed_out r = false) ∧
  (value_ok r = false → passed r = false ∧ is_Some (error_kind r)).

(** One for every test, in order. *)
Definition one_each (tests : list TestCase) (rs : list ExecutionResult) : Prop :=
  length rs = length tests ∧ ∀ i r, rs !! i = Some r → sound_result i r.

Lemma batch_failure_each (tests : list TestCase) (e : pystr) (ms : float) (timeout : bool) :
  one_each tests (batch_failure tests e ms timeout) ∧
  Forall (λ r, passed r = false) (batch_failure tests e ms timeout).
Proof.
  unfold batch_failure. split; [split|].
  - by rewrite length_map, length_numbered.
  - intros i r. rewrite list_lookup_fmap. intros ([z t] & Hi & ->)%fmap_Some.
    apply numbered_lookup in Hi as [-> _]. split; [done|]. simpl. split; [done|]. by eexists.
  - apply Forall_fmap, Forall_true. by intros [].
Qed.

Section results.
Context `{FR : !FloatRepr}.

Lemma parse_all_lookup (parse : Z → TestCase → pyobj → result ExecutionResult) (tests : list TestCase)
    (statuses : list pyobj) (rs : list ExecutionResult) :
  length statuses = length tests →
  parse_all parse tests statuses = Ok rs ↔
  length rs = length tests ∧
  ∀ i t s, tests !! i = Some t → statuses !! i = Some s → ∃ r, rs !! i = Some r ∧ parse (Z.of_nat i) t s = Ok r.
Proof.
  intros Hlen. unfold parse_all. rewrite mapM_Ok. split.
  - intros H. pose proof (Forall2_length _ _ _ H) as Hn. rewrite length_numbered, length_zip_with in Hn.
    split; [lia|]. intros i t s Ht Hs.
    assert (Hz : numbered (zip tests statuses) !! i = Some (Z.of_nat i, (t, s))).
    { apply numbered_lookup. split; [done|]. by apply lookup_zip_Some. }
    destruct (Forall2_lookup_l _ _ _ _ _ H Hz) as (r & Hr & Hp). by exists r.
  - intros [Hn H]. apply Forall2_same_length_lookup_2.
    { rewrite length_numbered, length_zip_with. lia. }
    intros i [z [t s]] r Hz Hr. apply numbered_lookup in Hz as [-> [Ht Hs]%lookup_zip_Some].
    destruct (H i t s Ht Hs) as (r' & Hr' & Hp). congruence.
Qed.

Ltac sound_result :=
  split; [reflexivity|]; split; simpl; [by intros ?|];
  intros ?; first [discriminate|split; [reflexivity|by eexists]].

Lemma parse_status_sound (i : nat) (t : TestCase) (s : pyobj) (ms : float) (r : ExecutionResult) :
  parse_status (Z.of_nat i) t s ms = Ok r → sound_result i r.
Proof.
  unfold parse_status. intros H. destruct s; try (injection H as <-; sound_result).
  repeat case_match; inv_result; simplify_eq; sound_result.
Qed.

Lemma parse_rust_status_sound (i : nat) (t : TestCase) (s : pyobj) (ms : float) (r : ExecutionResult) :
  parse_rust_status (Z.of_nat i) t s ms = Ok r → sound_result i r.
Proof.
  unfold parse_rust_status. intros H. destruct s; try (injection H as <-; sound_result).
  case_match; inv_result; simplify_eq; sound_result.
Qed.

Lemma parse_all_each (parse : Z → TestCase → pyobj → result ExecutionResult) (tests : list TestCase)
    (statuses : list pyobj) (rs : list ExecutionResult) :
  (∀ (i : nat) t s r, parse (Z.of_nat i) t s = Ok r → sound_result i r) →
  zlen statuses = zlen tests → parse_all parse tests statuses = Ok rs → one_each tests rs.
Proof.
  intros Hp Hlen H. assert (Hl : length statuses = length tests) by (unfold zlen in Hlen; lia).
  apply parse_all_lookup in H as [Hn Hrs]; [|done]. split; [done|]. intros i r Hr.
  pose proof (lookup_lt_Some _ _ _ Hr) as Hi.
  destruct (lookup_lt_is_Some_2 tests i) as [t Ht]; [lia|].
  destruct (lookup_lt_is_Some_2 statuses i) as [s Hs]; [lia|].
  destruct (Hrs i t s Ht Hs) as (r' & Hr' & Hpr). simplify_eq. by eapply Hp.
Qed.

(** A passed status: an answer that equals what is expected. *)
Lemma parse_passed (index : Z) (t : TestCase) (s : pyobj) (ms : float) (r : ExecutionResult) :
  parse_status index t s ms = Ok r → passed r = true →
  ∃ d, s = PDict d ∧ member "status" d = Some (str_key "ok") ∧ value r = default PNone (member "value" d) ∧
       values_equal FLOAT_TOLERANCE (value r) (expected t) = Ok true.
Proof.
  unfold parse_status. intros H Hpass. destruct s as [| | | | | |d|]; try (injection H as <-; discriminate).
  exists d. split; [done|].
  destruct (member "status" d) as [k|] eqn:Hk; cbn [default id] in H;
    [|cbv zeta in H; inv_result; simplify_eq; discriminate].
  destruct k as [| | | |k| | |]; cbv zeta in H; try (inv_result; simplify_eq; discriminate).
  destruct (bool_decide (k = ustr "ok")) eqn:Hb; [|repeat case_match; inv_result; simplify_eq; discriminate].
  apply bool_decide_eq_true in Hb. subst k. apply bind_Ok in H as (ok & Heq & H). injection H as <-. cbn [passed answered_result] in Hpass. subst ok.
  split_and!; done.
Qed.

(** The statuses of a batch that was read from a process. *)
Definition batch_read (nonce : pystr) (tests : list TestCase) (p : Completed) (statuses : list pyobj) : Prop :=
  ∃ d, extract_framed (stdout p) nonce = Ok (Some (PDict d)) ∧ member "status" d = Some (str_key "batch") ∧
       member "results" d = Some (PList statuses) ∧ length statuses = length tests.

Lemma parse_batch_cases (tests : list TestCase) (nonce : pystr) (p : Completed) (ms : float) (rs : list ExecutionResult) :
  parse_batch tests nonce p ms = Ok rs →
  (∃ e, rs = batch_failure tests e ms false) ∨
  ∃ statuses, batch_read nonce tests p statuses ∧
    parse_all (λ index test status, parse_status index test status ms) tests statuses = Ok rs.
Proof.
  unfold parse_batch. intros (payload & Hf & H)%bind_Ok.
  destruct payload as [[| | | | | |d|]|]; try (injection H as <-; left; by eexists).
  destruct (member "status" d) as [k|] eqn:Hk; [|injection H as <-; left; by eexists].
  destruct k as [| | | |k| | |]; try (injection H as <-; left; by eexists).
  case_bool_decide as Hb; [|injection H as <-; left; by eexists]. subst k.
  destruct (member "results" d) as [v|] eqn:Hv; [|injection H as <-; left; by eexists].
  destruct v as [| | | | |l| |]; try (injection H as <-; left; by eexists).
  destruct (Z.eqb_spec (zlen l) (zlen tests)) as [Hl|Hl]; [|injection H as <-; left; by eexists].
  right. exists l. split; [|done]. exists d. unfold zlen in Hl. split_and!; [done|done|done|lia].
Qed.

(** A container whose output is read: it ended, in time, and is gone. *)
Definition container_ended (outcome : option Completed * bool * option pystr * bool) (cleanup : option pystr)
    (p : Completed) : Prop :=
  ∃ oom, outcome = (Some p, false, None, oom) ∧ cleanup = None ∧ returncode p ≠ 124 ∧
         (returncode p = 137 → oom = true).

Lemma judge_container_cases (tests : list TestCase) (nonce : pystr) (total : float)
    (outcome : option Completed * bool * option pystr * bool) (cleanup : option pystr) (ms : float) (rs : list ExecutionResult) :
  judge_container tests nonce total outcome cleanup ms = Ok rs →
  (∃ e timeout, rs = batch_failure tests e ms timeout) ∨
  ∃ p, container_ended outcome cleanup p ∧ parse_batch tests nonce p ms = Ok rs.
Proof.
  unfold judge_container. destruct outcome as [[[proc watchdog] launch] oom]. intros H.
  destruct cleanup as [e|]; [injection H as <-; left; by do 2 eexists|].
  destruct watchdog; [injection H as <-; left; by do 2 eexists|]. cbn [orb] in H.
  destruct proc as [p|].
  - destruct (_ || _) eqn:Hrc in H; [injection H as <-; left; by do 2 eexists|].
    apply orb_false_iff in Hrc as [H1%Z.eqb_neq H2].
    destruct launch as [[|c e]|]; [injection H as <-; left; by do 2 eexists..|].
    right. exists p. split; [|done]. exists oom. split_and!; [done|done|done|].
    intros Hrc. rewrite Hrc in H2. simpl in H2. by destruct oom.
  - destruct launch as [[|c e]|]; injection H as <-; left; by do 2 eexists.
Qed.

Lemma judge_container_each (tests : list TestCase) (nonce : pystr) (total : float)
    (outcome : option Completed * bool * option pystr * bool) (cleanup : option pystr) (ms : float) (rs : list ExecutionResult) :
  judge_container tests nonce total outcome cleanup ms = Ok rs → one_each tests rs.
Proof.
  intros [(e & timeout & ->)|(p & _ & H)]%judge_container_cases; [apply batch_failure_each|].
  apply parse_batch_cases in H as [(e & ->)|(statuses & (d & _ & _ & _ & Hl) & H)]; [apply batch_failure_each|].
  eapply parse_all_each; [|by unfold zlen; rewrite Hl|exact H]. intros i t s r. apply parse_status_sound.
Qed.

(** An error text that is absent or empty. *)
Definition no_error (e : option pystr) : Prop := e = None ∨ e = Some [].

Lemma judge_rust_cases (tests : list TestCase) (nonce : pystr)
    (outcome : option Completed * bool * option pystr * bool) (cleanup : option pystr) (ms : float) (rs : list ExecutionResult) :
  judge_rust tests nonce outcome cleanup ms = Ok rs →
  (∃ e timeout, rs = batch_failure tests e ms timeout) ∨
  ∃ p d statuses launch oom, outcome = (Some p, false, launch, oom) ∧ no_error launch ∧ no_error cleanup ∧
    returncode p = 0 ∧ extract_framed (stdout p) nonce = Ok (Some (PDict d)) ∧
    member "results" d = Some (PList statuses) ∧ length statuses = length tests ∧
    parse_all (λ index test status, parse_rust_status index test status ms) tests statuses = Ok rs.
Proof.
  unfold judge_rust, no_error. destruct outcome as [[[proc watchdog] launch] oom].
  set (first := match cleanup with Some (_ :: _) => cleanup | _ => launch end).
  assert (Hfirst : first = None ∨ first = Some [] → (launch = None ∨ launch = Some []) ∧ (cleanup = None ∨ cleanup = Some [])).
  { unfold first. destruct cleanup as [[|c e]|]; naive_solver. }
  intros H. destruct first as [[|c e]|]; [|injection H as <-; left; by do 2 eexists|];
    (destruct watchdog; [injection H as <-; left; by do 2 eexists|];
     destruct proc as [p|]; [|injection H as <-; left; by do 2 eexists];
     destruct (_ || _) in H; [injection H as <-; left; by do 2 eexists|];
     destruct (Z.eqb_spec (returncode p) 0) as [Hrc|]; cbn [negb] in H; [|injection H as <-; left; by do 2 eexists];
     apply bind_Ok in H as (frame & Hf & H);
     destruct frame as [[| | | | | |d|]|]; try (injection H as <-; left; by do 2 eexists);
     destruct (member "results" d) as [v|] eqn:Hv; [|injection H as <-; left; by do 2 eexists];
     destruct v as [| | | | |l| |]; try (injection H as <-; left; by do 2 eexists);
     destruct (Z.eqb_spec (zlen l) (zlen tests)) as [Hl|Hl]; [|injection H as <-; left; by do 2 eexists];
     right; exists p, d, l, launch, oom; unfold zlen in Hl; split_and!; try done; try apply Hfirst; auto; lia).
Qed.

Lemma judge_rust_each (tests : list TestCase) (nonce : pystr)
    (outcome : option Completed * bool * option pystr * bool) (cleanup : option pystr) (ms : float) (rs : list ExecutionResult) :
  judge_rust tests nonce outcome cleanup ms = Ok rs → one_each tests rs.
Proof.
  intros [(e & timeout & ->)|(p & d & statuses & launch & oom & _ & _ & _ & _ & _ & _ & Hl & H)]%judge_rust_cases;
    [apply batch_failure_each|].
  eapply parse_all_each; [|by unfold zlen; rewrite Hl|exact H]. intros i t s r. apply parse_rust_status_sound.
Qed.

Lemma judge_local_sound (i : nat) (t : TestCase) (nonce : pystr) (timeout_s : float)
    (ran : pystr * bool * option pystr) (ms : float) (r : ExecutionResult) :
  judge_local (Z.of_nat i) t nonce timeout_s ran ms = Ok r → sound_result i r.
Proof.
  unfold judge_local. destruct ran as [[captured timeout] launch]. intros H.
  destruct launch as [e|]; [injection H as <-; sound_result|].
  destruct timeout; [injection H as <-; sound_result|]. apply bind_Ok in H as (status & _ & H).
  destruct status as [[| | | | | |d|]|]; try (injection H as <-; sound_result).
  repeat case_match; inv_result; simplify_eq; sound_result.
Qed.
End results.

(** ** Runs on a host *)

Section host.
Context `{FR : !FloatRepr, HO : !Host}.

Lemma host_bind_eq {A B} (m : host_m A) (f : A → host_m B) (w : hworld) :
  (m ≫= f) w = f (m w).1 (m w).2.
Proof. unfold mbind, host_bind. by destruct (m w). Qed.

Lemma host_ret_eq {A} (a : A) (w : hworld) : (mret a : host_m A) w = (a, w).
Proof. done. Qed.

(** A batch run with docker: what is sent, what the container ended in, and the
    judgement. *)
Lemma run_batch_judged (src : pystr) (x : DockerExecutor) (code entrypoint : pystr) (tests : list TestCase)
    (timeout_s : float) (w w' : hworld) (rs : list ExecutionResult) :
  run_batch src x code entrypoint tests timeout_s w = (Ok rs, w') →
  ∃ payload name cmd watchdog total ms w0,
    dumps default_options (batch_payload code entrypoint tests (fmax (fdiv f1 (float_of_int 1000)) timeout_s)
      (token_hex 16 w).1) = Ok payload ∧
    let ran := run_container x name cmd (src ++ SENTINEL ++ payload) watchdog docker_launch_failed w0 in
    judge_container tests (token_hex 16 w).1 total ran.1 (remove_container x name ran.2).1 ms = Ok rs.
Proof.
  unfold run_batch. rewrite !host_bind_eq. destruct (dumps _ _) as [payload|] eqn:Hd; [|done].
  rewrite !host_bind_eq, host_ret_eq. intros H%(f_equal fst). cbn [fst] in H. do 7 eexists. split; [done|]. exact H.
Qed.

Lemma run_rust_batch_judged (src : pystr) (policy : ValidatorPolicy) (x : DockerExecutor) (code : pystr)
    (tests : list TestCase) (timeout_s : float) (w w' : hworld) (rs : list ExecutionResult) :
  run_rust_batch src policy x code tests timeout_s w = (Ok rs, w') →
  ∃ payload name cmd watchdog ms w0,
    let ran := run_container x name cmd (src ++ RUST_SENTINEL ++ payload) watchdog exn_msg w0 in
    judge_rust tests (token_hex 16 w).1 ran.1 (remove_container x name ran.2).1 ms = Ok rs.
Proof.
  unfold run_rust_batch. rewrite !host_bind_eq. destruct (stdins ← _; _) as [payload|] eqn:Hd; [|done].
  rewrite !host_bind_eq, host_ret_eq. intros H%(f_equal fst). cbn [fst] in H. do 6 eexists. exact H.
Qed.

Lemma run_each_sound (x : SubprocessExecutor) (ts : list (Z * TestCase)) (code entrypoint runner_path tmp : pystr)
    (timeout_s : float) (w w' : hworld) (rs : list ExecutionResult) (k : nat) :
  (∀ i z t, ts !! i = Some (z, t) → z = Z.of_nat (k + i)) →
  run_each x ts code entrypoint runner_path tmp timeout_s w = (Ok rs, w') →
  length rs = length ts ∧ ∀ i r, rs !! i = Some r → sound_result (k + i) r.
Proof.
  revert w w' rs k. induction ts as [|[z t] ts IH]; intros w w' rs k Hz; cbn [run_each].
  { intros [= <- _]. done. }
  rewrite host_bind_eq. destruct (run_one _ _ _ _ _ _ _ _ w) as [[r|e] w1] eqn:H1; cbn [fst snd]; [|done].
  rewrite host_bind_eq. destruct (run_each x ts _ _ _ _ _ w1) as [[rs'|e] w2] eqn:H2; cbn [fst snd]; [|done].
  intros [= <- _]. destruct (IH w1 w2 rs' (S k)) as [Hlen Hs]; [|done|].
  { intros i z' t' Hi. rewrite (Hz (S i) z' t' Hi). f_equal. lia. }
  split; [by simpl; rewrite Hlen|]. intros [|i] r' Hr.
  - injection Hr as <-. rewrite Nat.add_0_r. pose proof (Hz O z t eq_refl) as ->. rewrite Nat.add_0_r in H1.
    unfold run_one in H1. rewrite host_bind_eq in H1. destruct (dumps _ _) in H1; [|done].
    rewrite !host_bind_eq in H1. injection H1 as H1 _. by eapply judge_local_sound.
  - rewrite Nat.add_succ_r. apply (Hs i r'). exact Hr.
Qed.
End host.

(** ** Properties *)

(** (bounds): what an executor holds of a stream that ended is its last [limit] elements,
    in whatever pieces they came, and never more; it says "truncated" exactly when there
    was more.  The local executor's reader keeps the same. *)
Theorem drain_keeps_tail {A} (limit : nat) (chunks : list (list A)) :
  (0 < limit)%nat → Forall (λ c, c ≠ []) chunks →
  drain limit chunks [] false = (lastn limit (concat chunks), bool_decide (limit < length (concat chunks))%nat) ∧
  read_tail limit chunks [] = lastn limit (concat chunks) ∧
  (length (drain limit chunks [] false).1 <= limit)%nat.
Proof.
  intros Hl Hc. pose proof (drain_tail limit chunks [] Hl Hc) as H. pose proof (read_tail_spec limit chunks [] Hl Hc) as H2.
  rewrite lastn_all in H, H2 by (simpl; lia). rewrite bool_decide_eq_false_2 in H by (simpl; lia).
  cbn [app] in H, H2. split_and!; [done|done|]. rewrite H. cbn [fst]. rewrite length_lastn. lia.
Qed.

Lemma drain_keeps_tail_witness : drain 3 [[1; 2]; [3; 4; 5]; [6]] [] false = ([4; 5; 6], true).
Proof.
  destruct (drain_keeps_tail 3 [[1; 2]; [3; 4; 5]; [6]]) as [H _]; [lia|rewrite !Forall_cons; done|].
  etransitivity; [exact H|]. vm_compute. reflexivity.
Defined.

Section properties.
Context `{FR : !FloatRepr, HO : !Host}.

(** (type): on any host, each executor that returns returns one result for every test,
    in the order of the tests and with its number; a passed test has a value, no error
    and no timeout, and a test without a value did not pass and has a kind of error. *)
Theorem one_result_each (src : pystr) (policy : ValidatorPolicy) (x : DockerExecutor) (y : SubprocessExecutor)
    (tmp code entrypoint : pystr) (tests : list TestCase) (timeout_s : float) (w w' : hworld)
    (rs : list ExecutionResult) :
  run_tests_docker src x code entrypoint tests timeout_s w = (Ok rs, w') ∨
  run_tests_rust src policy x code tests timeout_s w = (Ok rs, w') ∨
  run_tests_local y tmp code entrypoint tests timeout_s w = (Ok rs, w') →
  one_each tests rs.
Proof.
  intros H. destruct (decide (tests = [])) as [->|Hne].
  { destruct H as [H|[H|H]]; injection H as <- _; done. }
  unfold run_tests_docker, run_tests_rust, run_tests_local in H.
  assert (Hc : run_batch src x code entrypoint tests timeout_s w = (Ok rs, w') ∨
    run_rust_batch src policy x code tests timeout_s w = (Ok rs, w') ∨
    run_each y (numbered tests) code entrypoint (tmp ++ ustr "/_sbx_runner.py") tmp timeout_s w = (Ok rs, w'))
    by (destruct tests; [done|exact H]).
  destruct Hc as [Hr|[Hr|Hr]].
  - apply run_batch_judged in Hr as (p & name & cmd & wd & total & ms & w0 & _ & Hj). by eapply judge_container_each.
  - apply run_rust_batch_judged in Hr as (p & name & cmd & wd & ms & w0 & Hj). by eapply judge_rust_each.
  - apply (run_each_sound _ _ _ _ _ _ _ _ _ _ 0) in Hr as [Hl Hs].
    + split; [by rewrite <-(length_numbered tests)|]. intros i r Hi. by apply (Hs i r).
    + intros i z t Hi. by apply numbered_lookup in Hi as [-> _].
Qed.
(** C19 (safety): a test passes only on the word of a container that is gone, that ended in
    time (or was killed for its memory), whose last frame under the batch's own nonce
    lists one status for every test, and whose status for this test is an answer equal
    to the expected value.  The container was sent the runner, then the payload. *)
Theorem passed_was_answered (src : pystr) (x : DockerExecutor) (code entrypoint : pystr) (tests : list TestCase)
    (timeout_s : float) (w w' : hworld) (rs : list ExecutionResult) (i : nat) (r : ExecutionResult) :
  run_tests_docker src x code entrypoint tests timeout_s w = (Ok rs, w') → rs !! i = Some r → passed r = true →
  ∃ t payload name cmd watchdog w0 p statuses d,
    tests !! i = Some t ∧
    dumps default_options (batch_payload code entrypoint tests (fmax (fdiv f1 (float_of_int 1000)) timeout_s)
      (token_hex 16 w).1) = Ok payload ∧
    (let ran := run_container x name cmd (src ++ SENTINEL ++ payload) watchdog docker_launch_failed w0 in
     container_ended ran.1 (remove_container x name ran.2).1 p) ∧
    batch_read (token_hex 16 w).1 tests p statuses ∧ statuses !! i = Some (PDict d) ∧
    member "status" d = Some (str_key "ok") ∧ value r = default PNone (member "value" d) ∧
    values_equal FLOAT_TOLERANCE (value r) (expected t) = Ok true.
Proof.
  intros H Hr Hpass. assert (Hne : tests ≠ []) by (intros ->; injection H as <- _; done).
  assert (Hrun : run_batch src x code entrypoint tests timeout_s w = (Ok rs, w')) by (by destruct tests).
  apply run_batch_judged in Hrun as (payload & name & cmd & wd & total & ms & w0 & Hd & Hj).
  assert (Hfail : ∀ e ms timeout, rs ≠ batch_failure tests e ms timeout).
  { intros e ms' timeout ->. pose proof (proj2 (batch_failure_each tests e ms' timeout)) as Hall.
    rewrite Forall_lookup in Hall. specialize (Hall _ _ Hr). congruence. }
  apply judge_container_cases in Hj as [(e & timeout & ->)|(p & Hended & Hp)]; [by edestruct Hfail|].
  apply parse_batch_cases in Hp as [(e & ->)|(statuses & Hread & Hp)]; [by edestruct Hfail|].
  pose proof Hread as (d0 & _ & _ & _ & Hl). apply parse_all_lookup in Hp as [Hlen Hp]; [|done].
  pose proof (lookup_lt_Some _ _ _ Hr) as Hi.
  destruct (lookup_lt_is_Some_2 tests i) as [t Ht]; [lia|].
  destruct (lookup_lt_is_Some_2 statuses i) as [s Hs]; [lia|].
  destruct (Hp i t s Ht Hs) as (r' & Hr' & Hpr). simplify_eq.
  destruct (parse_passed _ _ _ _ _ Hpr Hpass) as (d & -> & Hk & Hv & Heq).
  exists t, payload, name, cmd, wd, w0, p, statuses, d. split_and!; done.
Qed.

(** C20 (safety): the host and what runs on it cannot tell two lists of tests apart that
    differ in the expected values: the docker executors leave it in the same state, so
    whatever they send, start, wait for or remove is the same. *)
Theorem expected_never_sent (src : pystr) (policy : ValidatorPolicy) (x : DockerExecutor) (code entrypoint : pystr)
    (tests tests' : list TestCase) (timeout_s : float) (w : hworld) :
  Forall2 (λ t t', args t = args t' ∧ kwargs t = kwargs t') tests tests' →
  (run_tests_docker src x code entrypoint tests timeout_s w).2
    = (run_tests_docker src x code entrypoint tests' timeout_s w).2 ∧
  (run_tests_rust src policy x code tests timeout_s w).2 = (run_tests_rust src policy x code tests' timeout_s w).2.
Proof.
  intros H. pose proof (Forall2_length _ _ _ H) as Hlen.
  assert (Hp : ∀ limit nonce, batch_payload code entrypoint tests limit nonce = batch_payload code entrypoint tests' limit nonce).
  { intros limit nonce. unfold batch_payload. do 6 f_equal. clear Hlen. induction H as [|t t' l l' [Ha Hk] _ IH]; [done|].
    cbn [map]. by rewrite IH, Ha, Hk. }
  assert (Hs : mapM stdin_of tests = mapM stdin_of tests').
  { clear Hlen Hp. induction H as [|t t' l l' [Ha Hk] _ IH]; [done|]. cbn [mapM]. assert (stdin_of t = stdin_of t') as -> by (unfold stdin_of; by rewrite Ha).
    destruct (stdin_of t'); [|done]. cbn [mbind result_bind]. by rewrite IH. }
  unfold run_tests_docker, run_tests_rust. destruct tests as [|t l], tests' as [|t' l']; try done.
  unfold run_batch, run_rust_batch. rewrite Hs. unfold zlen. rewrite Hlen. split.
  - rewrite !host_bind_eq, Hp. destruct (dumps _ _); [|done]. by rewrite !host_bind_eq.
  - rewrite !host_bind_eq. destruct (stdins ← _; _); [|done]. by rewrite !host_bind_eq.
Qed.
End properties.

(** ** A sample host

    Every container prints [out]; the log of what was started is the world. *)

Definition docker_says (out : pystr) : Host := {|
  hworld := list (list pystr * pystr);
  clock_s w := (f0, w);
  token_hex n w := (repeat 97%N (2 * Z.to_nat n), w);
  start cmd stdin _ w := (Ended false 0 [encode_replace out] [], (cmd, decode_replace stdin) :: w);
  command cmd w := (CommandRan 0 [] [], (cmd, []) :: w);
  start_local cmd stdin _ _ _ w := (LocalEnded false [out], (cmd, stdin) :: w);
  which_docker := Some (ustr "docker")
|}.

Definition one_repr : FloatRepr := {| float_repr := λ _, ustr "1.0" |}.

Definition demo_docker : DockerExecutor :=
  {| image := ustr "python:3.12-slim"; memory := ustr "256m"; cpus := ustr "1.0"; pids_limit := 128; docker := ustr "docker" |}.

(** Two tests, answered with 2 and 5, where 2 and 3 are expected. *)
Definition demo_tests : list TestCase :=
  [{| args := [PInt 1]; kwargs := []; expected := PInt 2 |}; {| args := [PInt 2]; kwargs := []; expected := PInt 3 |}].

Definition demo_frame : pystr :=
  match batch_frame (H := one_repr) (repeat 97%N 32) (map ok_status [PInt 2; PInt 5]) with Ok out => out | Raise _ => [] end.

Definition demo_host : Host := docker_says (ustr "noise" ++ demo_frame).

Abbreviation demo_run :=
  (run_tests_docker (H := one_repr) (H0 := demo_host) (ustr "runner") demo_docker (ustr "code") (ustr "f") demo_tests f1 []).

Example demo_passes : map passed <$> demo_run.1 = Ok [true; false].
Proof. vm_compute. reflexivity. Qed.

Lemma one_result_each_witness : ∃ rs, demo_run.1 = Ok rs ∧ one_each demo_tests rs.
Proof.
  assert (Hok : is_ok demo_run.1 = true) by (vm_compute; reflexivity).
  destruct demo_run as [[rs|e] w'] eqn:Hrun; [|done]. exists rs. split; [done|].
  eapply (one_result_each (FR := one_repr) (HO := demo_host) _ (RELEASE_POLICY) _
    {| python := []; seatbelt := None; os_path := None; system_root := None |} []).
  left. exact Hrun.
Defined.

Lemma passed_was_answered_witness :
  ∃ r rs, demo_run.1 = Ok (r :: rs) ∧ values_equal FLOAT_TOLERANCE (value r) (PInt 2) = Ok true.
Proof.
  assert (Hm : map passed <$> demo_run.1 = Ok [true; false]) by (vm_compute; reflexivity).
  destruct demo_run as [[rs|e] w'] eqn:Hrun; [|done]. destruct rs as [|r rs]; [done|].
  cbn [fst fmap result_fmap map] in Hm. injection Hm as Hpass _. exists r, rs. split; [done|].
  destruct (passed_was_answered (FR := one_repr) (HO := demo_host) _ _ _ _ _ _ _ _ _ 0 r Hrun eq_refl Hpass)
    as (t & payload & name & cmd & wd & w0 & p & statuses & d & Ht & _ & _ & _ & _ & _ & _ & Heq).
  injection Ht as <-. exact Heq.
Defined.

Lemma expected_never_sent_witness :
  demo_run.2 = (run_tests_docker (H := one_repr) (H0 := demo_host) (ustr "runner") demo_docker (ustr "code") (ustr "f")
    (map (λ t, {| args := args t; kwargs := kwargs t; expected := PNone |}) demo_tests) f1 []).2.
Proof.
  refine (proj1 (expected_never_sent (FR := one_repr) (HO := demo_host) (ustr "runner") RELEASE_POLICY demo_docker
    (ustr "code") (ustr "f") demo_tests _ f1 [] _)).
  repeat (apply Forall2_cons; split; [done|]). by apply Forall2_nil.
Defined.
