(* ===== verification/BatchSpec.v ===== *)
(** * A batch, from the candidate's answers to the results

    [answers_judged]: the payload of [Executor.run_batch], read by [Runner.batch_main]
    in a container whose candidate answers, and the frame that comes back over the
    pipe, are judged as the comparison of the answers with the expected values. *)

From Stdlib Require Import SpecFloat.
From S2P Require Import Prelude PyFloat Text Json JsonSpec Compare Framing Scoring Codecs ScoreState Runner RunnerSpec Release Executor ExecutorSpec.

Local Open Scope Z_scope.

(** ** The end of a stream *)

Lemma is_cont_ascii (c : N) : (c < 128)%N → is_cont c = false.
Proof. intros H. unfold is_cont. by rewrite (proj2 (N.leb_gt _ _)). Qed.

Lemma second_ok_ascii (x c : N) : (c < 128)%N → second_ok x c = false.
Proof.
  intros H. unfold second_ok. destruct (x =? 224)%N; [apply in_range_false; lia|]. destruct (x =? 237)%N; [apply in_range_false; lia|].
  destruct (x =? 240)%N; [apply in_range_false; lia|]. destruct (x =? 244)%N; [apply in_range_false; lia|]. by apply is_cont_ascii.
Qed.

(** An ASCII character starts a new part. *)
Lemma lenient_after (bad : pystr) (c : N) (rest : list N) (l : list N) :
  (c < 128)%N →
  utf8_decode_lenient bad (l ++ c :: rest) = utf8_decode_lenient bad l ++ utf8_decode_lenient bad (c :: rest).
Proof.
  intros Hc. remember (c :: rest) as t eqn:Ht.
  assert (Hm : ∀ A (k : A) f, match t with [] => k | y :: r => f y r end = f c rest) by (intros; by subst t).
  assert (H : ∀ n l, (length l <= n)%nat →
    utf8_decode_lenient bad (l ++ t) = utf8_decode_lenient bad l ++ utf8_decode_lenient bad t); [|by apply (H (length l))].
  clear l. intros n. induction n as [|n IH]; intros [|x r] Hlen; simpl in Hlen; [done|lia|done|].
  cbn [app utf8_decode_lenient]. destruct (x <? 128)%N; [by rewrite IH by lia|].
  destruct (in_range 194 223 x); [|destruct (in_range 224 239 x); [|destruct (in_range 240 244 x)]].
  - destruct r as [|y r]; cbn [app]; [by rewrite Hm, is_cont_ascii|]. simpl in Hlen.
    destruct (is_cont y); [by rewrite IH by lia|]. by rewrite <-(assoc_L (++)), <-IH by (simpl; lia).
  - destruct r as [|y r]; cbn [app]; [by rewrite Hm, second_ok_ascii|]. simpl in Hlen.
    destruct (second_ok x y); cbn [negb]; [|by rewrite <-(assoc_L (++)), <-IH by (simpl; lia)].
    destruct r as [|z r]; cbn [app]; [by rewrite Hm, is_cont_ascii|]. simpl in Hlen.
    destruct (is_cont z); [by rewrite IH by lia|]. by rewrite <-(assoc_L (++)), <-IH by (simpl; lia).
  - destruct r as [|y r]; cbn [app]; [by rewrite Hm, second_ok_ascii|]. simpl in Hlen.
    destruct (second_ok x y); cbn [negb]; [|by rewrite <-(assoc_L (++)), <-IH by (simpl; lia)].
    destruct r as [|z r]; cbn [app]; [by rewrite Hm, is_cont_ascii|]. simpl in Hlen.
    destruct (is_cont z); cbn [negb]; [|by rewrite <-(assoc_L (++)), <-IH by (simpl; lia)].
    destruct r as [|v r]; cbn [app]; [by rewrite Hm, is_cont_ascii|]. simpl in Hlen.
    destruct (is_cont v); [by rewrite IH by lia|]. by rewrite <-(assoc_L (++)), <-IH by (simpl; lia).
  - by rewrite <-(assoc_L (++)), IH by lia.
Qed.

(** The end of a stream is text that was written there, if it starts with an ASCII
    character, whatever bytes are before it. *)
Lemma decode_after (noise : bytes) (c : N) (s : pystr) :
  (c < 128)%N → forallb scalar (c :: s) = true →
  decode_replace (noise ++ encode_replace (c :: s)) = decode_replace noise ++ c :: s.
Proof.
  intros Hc Hs. rewrite <-(decode_encode_replace (c :: s) Hs) at 2. unfold decode_replace. rewrite map_app.
  assert (Hhead : map N_of_ascii (encode_replace (c :: s)) = c :: map N_of_ascii (encode_replace s)).
  { unfold encode_replace, utf8_bytes. cbn [map concat]. cbn [forallb] in Hs. apply andb_true_iff in Hs as [-> _].
    unfold utf8_char. rewrite (proj2 (N.ltb_lt c 128)) by done. cbn [app map]. f_equal. by rewrite N_ascii_embedding by lia. }
  rewrite Hhead. by apply lenient_after.
Qed.

(** Of a stream that ends in [out], the buffer keeps [out]. *)
Lemma tail_after {A} (limit : nat) (noise out : list A) :
  (length out <= limit)%nat → ∃ kept, lastn limit (noise ++ out) = kept ++ out.
Proof. intros H. rewrite lastn_front by done. by eexists. Qed.

Lemma encode_scalars (s : pystr) : forallb scalar s = true → ∃ b, utf8_encode s = Ok b.
Proof. intros Hs. unfold utf8_encode. rewrite Hs. by eexists. Qed.

Lemma mapM_is_ok {A B} (f : A → result B) (l : list A) :
  (∀ a, a ∈ l → is_ok (f a) = true) → is_ok (mapM f l) = true.
Proof.
  induction l as [|a l IH]; intros H; [done|]. cbn [mapM].
  assert (Ha : is_ok (f a) = true) by (apply H; left). apply is_ok_true in Ha as [b ->].
  assert (Hl : is_ok (mapM f l) = true) by (apply IH; intros b' Hb; apply H; by right). apply is_ok_true in Hl as [k Hk].
  cbn [mbind result_bind]. by rewrite Hk.
Qed.

(** ** The payload *)

Section loop.
Context `{FR : !FloatRepr, PR : !PyRepr, SB : !Sandbox, HO : !Host}.

(** [json.dumps] of an object with its default options, and back. *)
Lemma obj_text (members : list (string * pyobj)) :
  json_value default_hooks (obj members) →
  ∃ text, dumps default_options (obj members) = Ok text ∧ loads text = Ok (obj members) ∧ forallb scalar text = true.
Proof.
  intros Hv. eexists. split; [by apply (dumps_text default_options [32%N] [32%N] eq_refl eq_refl default_hooks)|]. split.
  - unfold loads, loads_hooks.
    assert (startswith [BOM] (text_of (escape default_options) float_repr [32%N] [32%N] (obj members)) = false) as -> by done.
    cbn [raise_if mbind result_bind]. by eapply (reads_back (escape_ascii)); [..|apply reads_default|exact Hv].
  - by apply (text_of_scalar default_options [32%N] [32%N] default_hooks).
Qed.

Definition batch_seconds (timeout_s : float) : float := fmax (fdiv f1 (float_of_int 1000)) timeout_s.

Definition batch_cases (tests : list TestCase) : list pyobj :=
  map (λ t, obj [("args", PList (args t)); ("kwargs", PDict (kwargs t))]%string) tests.

Lemma batch_seconds_positive (t : float) :
  isfinite (batch_seconds t) = true → negb (isfinite (batch_seconds t)) || fleb (batch_seconds t) f0 = false.
Proof.
  intros H. rewrite H. cbn [negb orb]. unfold batch_seconds, fmax. case_match eqn:Hlt; [|vm_compute; reflexivity].
  by destruct t as [[]|[]| |[] ? ?].
Qed.

(** The runner reads from the payload what the executor was asked. *)
Lemma read_payload (code entrypoint nonce : pystr) (tests : list TestCase) (timeout_s : float) :
  isfinite (batch_seconds timeout_s) = true →
  json_value default_hooks (batch_payload code entrypoint tests (batch_seconds timeout_s) nonce) →
  ∃ text, dumps default_options (batch_payload code entrypoint tests (batch_seconds timeout_s) nonce) = Ok text ∧
    forallb scalar text = true ∧
    read_batch text = Ok {| bp_nonce := nonce; bp_code := code; bp_entrypoint := entrypoint;
                            bp_cases := batch_cases tests; bp_timeout := batch_seconds timeout_s |}.
Proof.
  intros Hfin Hv. destruct (obj_text _ Hv) as (text & Hd & Hl & Hs). exists text. split_and!; [done|done|].
  unfold read_batch. unfold batch_payload in Hd. rewrite Hl. fold (batch_cases tests).
  unfold obj. cbn [map mbind result_bind].
  change (member "nonce" _) with (Some (PStr nonce)). change (member "tests" _) with (Some (PList (batch_cases tests))).
  change (member "timeout_s" _) with (Some (PFloat (batch_seconds timeout_s))). change (member "code" _) with (Some (PStr code)).
  change (member "entrypoint" _) with (Some (PStr entrypoint)).
  cbn [py_str py_list default id py_float mbind result_bind]. rewrite batch_seconds_positive by done. done.
Qed.

(** ** The container *)

(** The candidate answers every case with the value of [vs]. *)
Definition all_answer (code entrypoint : pystr) (tests : list TestCase) (timeout_s : float) (vs : list pyobj) : Prop :=
  compile_python code = None ∧ length vs = length tests ∧
  ∀ i case v, batch_cases tests !! i = Some case → vs !! i = Some v →
    answers (batch_seconds timeout_s) (case_limit (zlen tests)) (case_nonce i)
      (run_child code entrypoint case (case_nonce i) (case_limit (zlen tests)) (batch_seconds timeout_s)) v.

Lemma all_answer_results (code entrypoint : pystr) (tests : list TestCase) (timeout_s : float) (vs : list pyobj) :
  all_answer code entrypoint tests timeout_s vs →
  batch_results code entrypoint (batch_seconds timeout_s) (batch_cases tests) = map ok_status vs ∧ Forall portable vs.
Proof.
  intros (Hc & Hlen & Ha). assert (Hn : length (batch_cases tests) = length tests) by apply length_map. split.
  - apply batch_answers; [done|by rewrite Hn|]. unfold zlen in *. rewrite Hn. exact Ha.
  - apply Forall_lookup. intros i v Hv. pose proof (lookup_lt_Some _ _ _ Hv) as Hi.
    destruct (lookup_lt_is_Some_2 (batch_cases tests) i) as [case Hcase]; [lia|]. by destruct (Ha i case v Hcase Hv).
Qed.

(** Docker runs the command, [batch_main] reads [payload] in it, its frame is the end of
    what the pipe delivers, and the container is removed. *)
Record batch_delivered (src : pystr) (x : DockerExecutor) (name payload : pystr) (total : float) (w : hworld) : Prop := {
  bd_source : forallb scalar src = true;
  bd_ran : ∀ stdin out, utf8_encode (src ++ SENTINEL ++ payload) = Ok stdin → batch_main payload = Ok out →
    ∃ noise chunks err w',
      start (container_command x name total) stdin
        (fmax (fdiv f1 (float_of_int 1000)) (fadd total DOCKER_WATCHDOG_SLACK_S)) w = (Ended false 0 chunks err, w') ∧
      Forall (λ c, c ≠ []) chunks ∧ concat chunks = noise ++ encode_replace out ∧
      (length (encode_replace out) <= MAX_STDOUT_BYTES)%nat ∧
      (remove_container x name w').1 = None
}.

(** The frame of the batch is found in what the executor keeps of the stream. *)
Lemma delivered_read (nonce : pystr) (c : N) (n : pystr) (vs : list pyobj) (noise : bytes) (chunks : list bytes)
    (out : pystr) (limit : nat) :
  nonce = c :: n → (c < 128)%N → forallb scalar nonce = true → Forall portable vs →
  framed nonce (batch_text (batch_status (map ok_status vs))) → batch_frame nonce (map ok_status vs) = Ok out →
  Forall (λ ch, ch ≠ []) chunks → concat chunks = noise ++ encode_replace out →
  (0 < limit)%nat → (length (encode_replace out) <= limit)%nat →
  extract_framed (decode_replace (drain limit chunks [] false).1) nonce = Ok (Some (batch_status (map ok_status vs))).
Proof.
  intros Hn Hc Hs Hp Hf Hout Hch Hcat Hl Hlen.
  pose proof (drain_tail limit chunks [] Hl Hch) as Hd. rewrite lastn_all in Hd by (simpl; lia).
  rewrite bool_decide_eq_false_2 in Hd by (simpl; lia). cbn [app] in Hd. rewrite Hd. cbn [fst]. rewrite Hcat.
  destruct (tail_after limit noise (encode_replace out) Hlen) as [kept ->].
  assert (Hshape : out = nonce ++ batch_text (batch_status (map ok_status vs)) ++ nonce).
  { unfold batch_frame in Hout. fold (batch_status (map ok_status vs)) in Hout.
    rewrite (dumps_batch batch_options) in Hout by (auto using batch_portable). by injection Hout. }
  assert (Hsc : forallb scalar out = true) by (subst out; rewrite !forallb_app, Hs, batch_text_scalar; [done|by apply batch_portable]).
  assert (Hdec : decode_replace (kept ++ encode_replace out) = decode_replace kept ++ out).
  { rewrite Hshape, Hn in Hsc |- *. cbn [app] in Hsc |- *. by apply decode_after. }
  rewrite Hdec. destruct (batch_read_back (decode_replace kept) nonce vs Hp Hf) as (out' & Hout' & Hread).
  rewrite Hout in Hout'. injection Hout' as <-. exact Hread.
Qed.
(** The verdict on an answer. *)
Lemma parse_answer (index : Z) (t : TestCase) (v : pyobj) (ms : float) :
  json_like v → json_like (expected t) → fits v → fits (expected t) →
  ∃ r, parse_status index t (ok_status v) ms = Ok r ∧ value r = v ∧
       (passed r = true ↔ same_value FLOAT_TOLERANCE v (expected t)).
Proof.
  intros Hj1 Hj2 Hf1 Hf2. pose proof (values_equal_ok FLOAT_TOLERANCE v (expected t) Hf1 Hf2) as Hok.
  pose proof (values_equal_same FLOAT_TOLERANCE v (expected t) Hj1 Hj2) as Hsame. unfold parse_status, ok_status, obj. cbn [map].
  change (member "status" _) with (Some (str_key "ok")). change (member "value" _) with (Some v).
  change (match default PNone (Some (str_key "ok")) with PStr s => bool_decide (s = ustr "ok") | _ => false end) with true.
  cbn [default id].
  destruct (values_equal FLOAT_TOLERANCE v (expected t)) as [ok|]; [|done].
  eexists. split; [reflexivity|]. split; [done|]. cbn [passed answered_result]. rewrite <-Hsame. split; congruence.
Qed.

(** A batch of answers is judged one by one. *)
Lemma parse_answers (tests : list TestCase) (nonce : pystr) (p : Completed) (vs : list pyobj) (ms : float) :
  length vs = length tests → Forall json_like vs → Forall fits vs →
  Forall (λ t, json_like (expected t) ∧ fits (expected t)) tests →
  extract_framed (stdout p) nonce = Ok (Some (batch_status (map ok_status vs))) →
  ∃ rs, parse_batch tests nonce p ms = Ok rs ∧ length rs = length tests ∧
    ∀ i t v, tests !! i = Some t → vs !! i = Some v →
      ∃ r, rs !! i = Some r ∧ value r = v ∧ (passed r = true ↔ same_value FLOAT_TOLERANCE v (expected t)).
Proof.
  intros Hlen Hj Hf Ht Hx. unfold parse_batch. rewrite Hx. cbn [mbind result_bind]. unfold batch_status, obj. cbn [map].
  change (member "status" _) with (Some (str_key "batch")). change (member "results" _) with (Some (PList (map ok_status vs))).
  unfold str_key. rewrite bool_decide_eq_true_2 by done.
  assert (Hl2 : length (map ok_status vs) = length tests) by by rewrite length_map.
  assert ((zlen (map ok_status vs) =? zlen tests) = true) as -> by (unfold zlen; rewrite Hl2; apply Z.eqb_refl).
  rewrite !Forall_lookup in *.
  assert (Hall : ∀ i t s, tests !! i = Some t → map ok_status vs !! i = Some s →
    ∃ v r, vs !! i = Some v ∧ parse_status (Z.of_nat i) t s ms = Ok r ∧ value r = v ∧
      (passed r = true ↔ same_value FLOAT_TOLERANCE v (expected t))).
  { intros i t s Hi Hs. rewrite list_lookup_fmap in Hs. apply fmap_Some in Hs as (v & Hv & ->).
    destruct (Ht i t Hi) as [Ht1 Ht2]. destruct (parse_answer (Z.of_nat i) t v ms) as (r & Hr); eauto. }
  destruct (is_ok (parse_all (λ index test status, parse_status index test status ms) tests (map ok_status vs))) eqn:Hok.
  - apply is_ok_true in Hok as [rs Hrs]. exists rs. split; [done|].
    apply parse_all_lookup in Hrs as [Hn Hrs]; [|done]. split; [done|]. intros i t v Hi Hv.
    assert (Hs : map ok_status vs !! i = Some (ok_status v)) by (rewrite list_lookup_fmap, Hv; done).
    destruct (Hall i t _ Hi Hs) as (v' & r & Hv' & Hpr & Hval & Hpass). simplify_eq.
    destruct (Hrs i t _ Hi Hs) as (r' & Hr' & Hpr'). cbv beta in Hpr'. assert (Ok r = Ok r') as [= <-] by (rewrite <-Hpr, <-Hpr'; by subst). exists r. by subst.
  - exfalso. revert Hok. apply not_false_iff_true. unfold parse_all. apply mapM_is_ok.
    intros [z [t s]] Hin. apply list_elem_of_lookup_1 in Hin as [i Hi]. apply numbered_lookup in Hi as [-> [Hi Hs]%lookup_zip_Some].
    destruct (Hall i t s Hi Hs) as (v & r & _ & -> & _). done.
Qed.
End loop.

(** ** Properties *)

Section properties.
Context `{FR : !FloatRepr, PR : !PyRepr, SB : !Sandbox, HO : !Host}.

(** C5 (refinement): the way of a batch through docker refines the comparison of values.
    Let a candidate answer every test with the value of [vs], and docker run the command:
    the runner reads in the container the payload the executor sent, reports each child's
    answer and writes its frame after whatever bytes the candidate printed, and the pipe
    delivers it in any pieces.  Then the executor returns one result per test, with the
    candidate's value, and a test passes exactly when that is the expected value. *)
Theorem answers_judged (src : pystr) (x : DockerExecutor) (code entrypoint : pystr) (tests : list TestCase)
    (timeout_s : float) (w : hworld) (vs : list pyobj) (c : N) (n : pystr) :
  let nonce := (token_hex 16 w).1 in
  let w1 := (token_hex 12 (token_hex 16 w).2) in
  let payload := batch_payload code entrypoint tests (batch_seconds timeout_s) nonce in
  nonce = c :: n → (c < 128)%N → forallb scalar nonce = true →
  isfinite (batch_seconds timeout_s) = true → json_value default_hooks payload →
  all_answer code entrypoint tests timeout_s vs →
  Forall json_like vs → Forall fits vs → Forall (λ t, json_like (expected t) ∧ fits (expected t)) tests →
  framed nonce (batch_text (batch_status (map ok_status vs))) →
  (∀ text, dumps default_options payload = Ok text →
     batch_delivered src x (ustr "rlvr-sbx-" ++ w1.1) text (total_timeout (batch_seconds timeout_s) (zlen tests)) (clock_s w1.2).2) →
  ∃ rs, (run_tests_docker src x code entrypoint tests timeout_s w).1 = Ok rs ∧ length rs = length tests ∧
    ∀ i t v, tests !! i = Some t → vs !! i = Some v →
      ∃ r, rs !! i = Some r ∧ value r = v ∧ (passed r = true ↔ same_value FLOAT_TOLERANCE v (expected t)).
Proof.
  intros nonce w1 payload Hn Hc Hs Hfin Hv Ha Hj Hf Ht Hframe Hdel.
  destruct (decide (tests = [])) as [->|Hne]; [by exists []|].
  assert (run_tests_docker src x code entrypoint tests timeout_s w = run_batch src x code entrypoint tests timeout_s w)
    as -> by by destruct tests.
  destruct (read_payload code entrypoint nonce tests timeout_s Hfin Hv) as (text & Hd & Hts & Hread).
  destruct (all_answer_results _ _ _ _ _ Ha) as [Hres Hport]. destruct (Hdel text Hd) as [Hsrc Hran].
  destruct (batch_read_back [] nonce vs Hport Hframe) as (out & Hout & _).
  destruct (encode_scalars (src ++ SENTINEL ++ text)) as [stdin Hstdin].
  { rewrite !forallb_app, Hsrc, Hts. reflexivity. }
  destruct (Hran stdin out Hstdin) as (noise & chunks & err & w' & Hstart & Hch & Hcat & Hlen & Hrm).
  { unfold batch_main. rewrite Hread. cbn [bp_nonce bp_code bp_entrypoint bp_timeout bp_cases]. by rewrite Hres. }
  unfold run_batch. fold (batch_seconds timeout_s). rewrite !host_bind_eq. fold nonce. rewrite Hd.
  unfold run_container. rewrite Hstdin, !host_bind_eq. unfold run_bounded. rewrite !host_bind_eq.
  fold w1. rewrite Hstart. cbn [fst snd].
  pose proof (delivered_read nonce c n vs noise chunks out MAX_STDOUT_BYTES Hn Hc Hs Hport Hframe Hout Hch Hcat) as Hx.
  destruct (drain MAX_STDOUT_BYTES chunks [] false) as [o ot]. destruct (drain MAX_STDERR_BYTES err [] false) as [e et].
  cbn [fst snd] in *. rewrite !host_ret_eq. cbn [fst snd returncode Z.eqb]. rewrite !host_bind_eq, !host_ret_eq.
  cbn [fst snd]. rewrite Hrm. cbn [judge_container orb andb Z.eqb].
  apply parse_answers; try done; [apply Ha|]. apply Hx; [|done]. unfold MAX_STDOUT_BYTES. lia.
Qed.
End properties.

(** ** A sample sandbox

    The candidate answers [3 * z - 1] for [z]. *)

Definition demo_answer (case : pyobj) : pyobj :=
  match case with PDict [(_, PList [PInt z]); _] => PInt (3 * z - 1) | _ => PNone end.

Definition demo_sandbox : Sandbox := {|
  nesting_limit := 100; repr_of _ := None; run_python _ _ _ _ := ([], NotDefined); compile_python _ := None;
  case_nonce _ := repeat 98%N 32;
  run_child _ _ case nonce _ _ :=
    {| polls := [([], false); (encode_replace (nonce ++ batch_text (FR := one_repr) (ok_status (demo_answer case)) ++ nonce), true)];
       last_reads := [] |};
  compile_rust _ _ _ := CompilerTimedOut; run_rust _ _ := RustTimeout
|}.

Lemma contains_app {A} `{EqDecision A} (p pre post : list A) : contains p (pre ++ p ++ post) = true.
Proof.
  induction pre as [|a pre IH]; cbn [app].
  - destruct (p ++ post) as [|x l] eqn:H; [by destruct p|]. cbn [contains]. rewrite <-H.
    assert (startswith p (p ++ post) = true) as -> by (apply startswith_spec; by exists post). done.
  - cbn [contains]. by rewrite IH, orb_true_r.
Qed.

(** Whether a frame is one. *)
Definition is_framed (marker body : pystr) : bool :=
  match marker, body with
  | _ :: _, c :: _ => bool_decide (c ∉ marker) && negb (contains marker body)
  | _, _ => false
  end.

Lemma is_framed_framed (marker body : pystr) : is_framed marker body = true → framed marker body.
Proof.
  unfold is_framed, framed. destruct marker as [|m marker]; [done|]. destruct body as [|c body]; [done|].
  rewrite andb_true_iff, bool_decide_eq_true, negb_true_iff. intros [Hc Hno]. split_and!; [done|by eauto|].
  intros pre post Heq. rewrite Heq, contains_app in Hno. done.
Qed.

Lemma one_reads (h : JsonHooks) : h = default_hooks ∨ h = frame_hooks → float_reads (H := one_repr) h f1.
Proof.
  intros Hh. split_and!; [done|done|by exists 49%N, [46; 48]%N|].
  intros f rest [->|(c & r & -> & Hc)]%delim_cases; [by destruct Hh as [-> | ->]|].
  destruct Hh as [-> | ->]; destruct_or! Hc; subst c; reflexivity.
Qed.

Lemma small_portable (z : Z) : (length (str_of_int (Z.abs z)) <= 4)%nat → portable (FR := one_repr) (PInt z).
Proof.
  intros Hz. assert (H : printable_int z) by (unfold printable_int; transitivity 4%nat; [done|apply Nat.leb_le; vm_compute; reflexivity]).
  by split.
Qed.

Lemma demo_answers : all_answer (FR := one_repr)  (SB := demo_sandbox) (ustr "code") (ustr "f") demo_tests f1 [PInt 2; PInt 5].
Proof.
  split_and!; [done|done|]. intros i case v Hi Hv.
  assert (Hv' : v = demo_answer case ∧ (v = PInt 2 ∨ v = PInt 5)).
  { destruct i as [|[|i]]; [..|done]; injection Hi as <-; injection Hv as <-; (split; [vm_compute; reflexivity|auto]). }
  destruct Hv' as [Heq Hcase]. split.
  - by destruct Hcase as [-> | ->]; apply small_portable; apply Nat.leb_le.
  - reflexivity.
  - apply is_framed_framed. by destruct Hcase as [-> | ->]; vm_compute.
  - reflexivity.
  - by destruct Hcase as [-> | ->]; vm_compute.
  - cbn [run_child demo_sandbox]. rewrite <-Heq. by destruct Hcase as [-> | ->]; vm_compute.
Qed.

Lemma demo_payload (nonce : pystr) :
  forallb scalar nonce = true →
  json_value (H := one_repr) default_hooks (batch_payload (ustr "code") (ustr "f") demo_tests f1 nonce).
Proof.
  intros Hs. assert (Hcase : ∀ z, (length (str_of_int (Z.abs z)) <= 4)%nat →
    json_value (H := one_repr) default_hooks (obj [("args", PList [PInt z]); ("kwargs", PDict [])]%string)).
  { intros z Hz. apply obj_value; [apply (bool_decide_unpack _); vm_compute; exact I|].
    apply Forall_cons. split; [|apply Forall_cons; split; [|by apply Forall_nil]].
    - apply readable_list, Forall_cons. split; [by apply small_portable|by apply Forall_nil].
    - apply readable_dict. split; [apply NoDup_nil_2|by apply Forall_nil]. }
  unfold batch_payload. apply obj_value; [apply (bool_decide_unpack _); vm_compute; exact I|].
  repeat (apply Forall_cons; split); [reflexivity|reflexivity| | |exact Hs|by apply Forall_nil].
  - apply readable_list. cbn [map demo_tests args kwargs].
    repeat (apply Forall_cons; split); [..|by apply Forall_nil]; apply Hcase, Nat.leb_le; reflexivity.
  - apply (one_reads default_hooks). by left.
Qed.

(** What the sandbox writes for the payload. *)
Lemma demo_written (text out : pystr) :
  dumps (H := one_repr) default_options (batch_payload (ustr "code") (ustr "f") demo_tests (batch_seconds f1) (repeat 97%N 32)) = Ok text →
  batch_main (H := one_repr) (H0 := no_repr) (H1 := demo_sandbox) text = Ok out → out = demo_frame.
Proof.
  intros Ht Hout.
  assert (H : match dumps (H := one_repr) default_options
      (batch_payload (ustr "code") (ustr "f") demo_tests (batch_seconds f1) (repeat 97%N 32)) with
    | Ok text => match batch_main (H := one_repr) (H0 := no_repr) (H1 := demo_sandbox) text with
                 | Ok out => bool_decide (out = demo_frame)
                 | Raise _ => false
                 end
    | Raise _ => false
    end = true) by (vm_compute; reflexivity).
  rewrite Ht, Hout in H. by apply bool_decide_eq_true in H.
Qed.

Lemma answers_judged_witness :
  ∃ r1 r2, demo_run.1 = Ok [r1; r2] ∧ value r1 = PInt 2 ∧ passed r1 = true ∧ value r2 = PInt 5 ∧ passed r2 = false.
Proof.
  destruct (answers_judged (FR := one_repr) (PR := no_repr) (SB := demo_sandbox) (HO := demo_host) (ustr "runner") demo_docker
    (ustr "code") (ustr "f") demo_tests f1 [] [PInt 2; PInt 5] 97%N (repeat 97%N 31)) as (rs & Hrs & Hlen & Hr).
  - reflexivity.
  - lia.
  - reflexivity.
  - reflexivity.
  - by apply demo_payload.
  - exact demo_answers.
  - by repeat (apply Forall_cons; split).
  - by repeat (apply Forall_cons; split).
  - by repeat (apply Forall_cons; split).
  - apply is_framed_framed. vm_compute. reflexivity.
  - intros text Ht. split; [reflexivity|]. intros stdin out _ Hout. rewrite (demo_written text out Ht Hout).
    exists (bstr "noise"), [encode_replace (ustr "noise" ++ demo_frame)], []. eexists. split_and!.
    + reflexivity.
    + apply Forall_singleton. vm_compute. discriminate.
    + vm_compute. reflexivity.
    + apply Nat.leb_le. vm_compute. reflexivity.
    + reflexivity.
  - destruct rs as [|r1 [|r2 [|]]]; try discriminate Hlen. exists r1, r2. split; [exact Hrs|].
    destruct (Hr 0%nat _ _ eq_refl eq_refl) as (r & Hr1 & Hv1 & Hp1). injection Hr1 as <-.
    destruct (Hr 1%nat _ _ eq_refl eq_refl) as (r & Hr2 & Hv2 & Hp2). injection Hr2 as <-.
    split_and!; [done|apply Hp1; constructor|done|]. apply not_true_iff_false. intros Hp%Hp2. by inversion Hp.
Defined.
