(* ===== verification/Writer.v ===== *)
(** * The local dataset ([src/rlvr/dataset/writer.py])

    Rollouts and problems are appended, one JSON object per line, to shards of a
    bounded size, and the oldest shards are removed when the directory is too large.
    The directory maps file names to their bytes and modification times; what the disk
    does next (a call works, fails, or writes only a part of its bytes) is a script.

    WriterSpec has the theorems. *)

From Stdlib Require Import SpecFloat.
From S2P Require Import Prelude PyFloat Text Json Codecs Scoring Runner Executor.

Local Open Scope Z_scope.

(** ** Records (types.py) *)

Record Problem := {
  p_id : pystr;
  p_language : pystr;
  p_statement : pystr;
  p_entrypoint : pystr;
  p_tests : list TestCase;
  p_public_examples : list TestCase;
  p_created_at : float;
  p_measured_pass_rate : option float;
  p_band : DifficultyBand;
  p_num_attempts : Z;
  p_prompt_variant : Z
}.

Record ChallengeResult := {
  cr_problem_id : pystr;
  cr_outcomes : list MinerOutcome;
  cr_pass_rate : float;
  cr_band : DifficultyBand;
  cr_num_responses : Z;
  cr_dup_ratio : float
}.

Record Rollout := {
  ro_problem_id : pystr;
  ro_prompt : pystr;
  ro_system_prompt : pystr;
  ro_prompt_variant : Z;
  ro_completion : pystr;
  ro_reward : float;
  ro_all_passed : bool;
  ro_num_passed : Z;
  ro_num_tests : Z;
  ro_pool_pass_rate : float;
  ro_band : DifficultyBand;
  ro_miner_uid : Z;
  ro_miner_hotkey : pystr;
  ro_created_at : float
}.

Definition band_value (b : DifficultyBand) : string :=
  match b with EASY => "easy" | IN_BAND => "in_band" | HARD => "hard" | UNKNOWN => "unknown" end.

(** [model_dump(mode="json")] *)
Definition case_dump (t : TestCase) : pyobj :=
  obj [("args", PList (args t)); ("kwargs", PDict (kwargs t)); ("expected", expected t)]%string.

Definition problem_dump (p : Problem) : pyobj :=
  obj [("problem_id", PStr (p_id p)); ("language", PStr (p_language p)); ("statement", PStr (p_statement p));
       ("entrypoint", PStr (p_entrypoint p)); ("tests", PList (map case_dump (p_tests p)));
       ("public_examples", PList (map case_dump (p_public_examples p))); ("created_at", PFloat (p_created_at p));
       ("measured_pass_rate", match p_measured_pass_rate p with Some x => PFloat x | None => PNone end);
       ("band", str_key (band_value (p_band p))); ("num_attempts", PInt (p_num_attempts p));
       ("prompt_variant", PInt (p_prompt_variant p))]%string.

Definition rollout_dump (r : Rollout) : pyobj :=
  obj [("problem_id", PStr (ro_problem_id r)); ("prompt", PStr (ro_prompt r));
       ("system_prompt", PStr (ro_system_prompt r)); ("prompt_variant", PInt (ro_prompt_variant r));
       ("completion", PStr (ro_completion r)); ("reward", PFloat (ro_reward r));
       ("all_passed", PBool (ro_all_passed r)); ("num_passed", PInt (ro_num_passed r));
       ("num_tests", PInt (ro_num_tests r)); ("pool_pass_rate", PFloat (ro_pool_pass_rate r));
       ("band", str_key (band_value (ro_band r))); ("miner_uid", PInt (ro_miner_uid r));
       ("miner_hotkey", PStr (ro_miner_hotkey r)); ("created_at", PFloat (ro_created_at r))]%string.

(** ** The prompt *)

Section prompt.
Context `{!FloatRepr}.

Definition unicode_options : DumpOptions := keep_unicode default_options.

(** [json.dumps(v, ensure_ascii=False, indent=2)] inside of [level] brackets. *)
Definition new_line (level : nat) : pystr := 10%N :: repeat 32%N (2 * level).

Fixpoint indented (level : nat) (v : pyobj) : result pystr :=
  match v with
  | PList ((_ :: _) as l) =>
      items ← mapM id (map (indented (S level)) l);
      mret (91%N :: new_line (S level) ++ join (44%N :: new_line (S level)) items ++ new_line level ++ [93%N])
  | PDict ((_ :: _) as l) =>
      items ← mapM id (map (λ '(k, x),
        key ← dump_key unicode_options k; value ← indented (S level) x;
        mret (quoted (escape unicode_options) key ++ ustr ": " ++ value)) l);
      mret (123%N :: new_line (S level) ++ join (44%N :: new_line (S level)) items ++ new_line level ++ [125%N])
  | _ => dumps unicode_options v
  end.

Definition build_prompt (p : Problem) : result pystr :=
  let statement := strip py_isspace (p_statement p) in
  match p_public_examples p with
  | [] => mret statement
  | examples =>
      text ← indented 0 (sort_keys (PList (map case_dump examples)));
      mret (statement ++ [10%N; 10%N] ++ ustr "Public examples (args, kwargs, expected):" ++ [10%N] ++ text)
  end.

(** ** Rollouts *)

Definition rollout_from_outcome (p : Problem) (cr : ChallengeResult) (prompt : pystr) (o : MinerOutcome) : Rollout :=
  {| ro_problem_id := p_id p; ro_prompt := prompt; ro_system_prompt := []; ro_prompt_variant := p_prompt_variant p;
     ro_completion := match raw_response (solution o) with [] => code (solution o) | raw => raw end;
     ro_reward := o_reward o; ro_all_passed := all_passed (verification o); ro_num_passed := num_passed (verification o);
     ro_num_tests := num_tests (verification o); ro_pool_pass_rate := cr_pass_rate cr; ro_band := cr_band cr;
     ro_miner_uid := uid o; ro_miner_hotkey := hotkey o; ro_created_at := p_created_at p |}.

Definition to_rollouts (p : Problem) (cr : ChallengeResult) : result (list Rollout) :=
  prompt ← build_prompt p;
  mret (map (rollout_from_outcome p cr prompt) (cr_outcomes cr)).
End prompt.

(** ** The disk *)

(** What becomes of a call: [None] where it works, or the text of the [OSError]; of a
    write that fails, how many bytes were written ([None]: the file was not opened);
    and the modification time it leaves. *)
Record io := { io_error : option pystr; io_written : option nat; io_mtime : Z }.

Record disk := {
  shards : gmap pystr (bytes * Z);
  script : list io;
  warnings : list pystr
}.

Definition disk_m (A : Type) : Type := disk → result A * disk.
#[export] Instance disk_ret : MRet disk_m := λ A a d, (Ok a, d).
#[export] Instance disk_bind : MBind disk_m := λ A B f m d,
  match m d with (Ok a, d') => f a d' | (Raise e, d') => (Raise e, d') end.

Definition lift {A} (m : result A) : disk_m A := λ d, (m, d).
Definition get_shards : disk_m (gmap pystr (bytes * Z)) := λ d, (Ok (shards d), d).
Definition put_shards (s : gmap pystr (bytes * Z)) : disk_m unit :=
  λ d, (Ok (), {| shards := s; script := script d; warnings := warnings d |}).

(** The next call. *)
Definition call : disk_m io := λ d,
  match script d with
  | [] => (Ok {| io_error := None; io_written := None; io_mtime := 0 |}, d)
  | i :: rest => (Ok i, {| shards := shards d; script := rest; warnings := warnings d |})
  end.

(** A call that only reads. *)
Definition checked : disk_m unit :=
  i ← call;
  match io_error i with None => mret () | Some detail => lift (Raise (Exn OSError detail)) end.

Definition no_such_file : exn := Exn OSError (ustr "No such file or directory").

(** [try: m except OSError] *)
Definition catch_os (m : disk_m unit) (h : exn → disk_m unit) : disk_m unit := λ d,
  match m d with
  | (Raise e, d') => if bool_decide (exn_cls e = OSError) then h e d' else (Raise e, d')
  | r => r
  end.

Definition listdir : disk_m (list pystr) :=
  _ ← checked; s ← get_shards; mret (map fst (map_to_list s)).

Definition stat (path : pystr) : disk_m (bytes * Z) :=
  _ ← checked; s ← get_shards;
  match s !! path with Some f => mret f | None => lift (Raise no_such_file) end.

Definition unlink (path : pystr) : disk_m unit :=
  _ ← checked; s ← get_shards;
  match s !! path with Some _ => put_shards (delete path s) | None => lift (Raise no_such_file) end.

(** [_append_line]: a line of its own, after what may be a part of a line. *)
Definition separator (old : bytes) : bytes :=
  match last old with Some c => if bool_decide (c = "010"%char) then [] else ["010"%char] | None => [] end.

Definition append_line (path line : pystr) : disk_m unit :=
  encoded ← lift (utf8_encode (line ++ [10%N]));
  i ← call; s ← get_shards;
  let old := match s !! path with Some (c, _) => c | None => [] end in
  let payload := separator old ++ encoded in
  match io_error i with
  | None => put_shards (<[path := (old ++ payload, io_mtime i)]> s)
  | Some detail =>
      _ ← match io_written i with
          | Some n => put_shards (<[path := (old ++ take n payload, io_mtime i)]> s)
          | None => mret ()
          end;
      lift (Raise (Exn OSError detail))
  end.

(** ** Shards *)

Definition SHARD_PREFIX : pystr := ustr "rollouts".
Definition PROBLEM_PREFIX : pystr := ustr "problems".
Definition DEFAULT_SHARD_SIZE : Z := 1000.
Definition DATASET_MAX_BYTES : Z := 2 * 1024 ^ 3.

(** [str.isdigit] of one character. *)
Class UnicodeIsDigit := { py_isdigit : N → bool }.

Record RolloutWriter := { shard_size : Z; max_bytes : Z }.

Definition rollout_writer (shard_size max_bytes : Z) : result RolloutWriter :=
  raise_if (max_bytes <=? 0) ValueError "max_bytes must be positive";;
  mret {| shard_size := Z.max 1 shard_size; max_bytes := max_bytes |}.

Definition shard_path (index : Z) (prefix : pystr) : pystr :=
  prefix ++ [45%N] ++ zfill 5 (str_of_int index) ++ ustr ".jsonl".

(** The lines of a file read as text, with universal newlines, that are not blank. *)
Fixpoint universal (s : pystr) : pystr :=
  match s with
  | [] => []
  | c :: r =>
      if (c =? 13)%N then 10%N :: match r with d :: r' => if (d =? 10)%N then universal r' else universal r | [] => [] end
      else c :: universal r
  end.

Definition count_text_lines (s : pystr) : Z :=
  zlen (filter (λ line, strip py_isspace line ≠ []) (split_on 10%N (universal s))).

Section writer.
Context `{!FloatRepr, !UnicodeDigits, !UnicodeIsDigit}.
Context (w : RolloutWriter).

(** The number in a file name. *)
Definition shard_index (prefix name : pystr) : result (option Z) :=
  let start := prefix ++ [45%N] in
  let suffix := ustr ".jsonl" in
  if negb (startswith start name) || negb (endswith suffix name) then mret None
  else
    let value := drop (length start) (take (length name - length suffix) name) in
    if negb (bool_decide (value = [])) && forallb py_isdigit value then Some <$> int_text value
    else mret None.

Definition shard_indices (prefix : pystr) : disk_m (list Z) :=
  names ← listdir;
  lift (found ← mapM (shard_index prefix) names; mret (omap id found)).

Definition max_index (indices : list Z) : Z := foldr Z.max (-1) indices.

Definition shard_count (prefix : pystr) : disk_m Z :=
  indices ← shard_indices prefix; mret (max_index indices + 1).

Definition line_count (path : pystr) : disk_m Z :=
  f ← stat path; text ← lift (utf8_decode f.1); mret (count_text_lines text).

Definition active_shard_path (prefix : pystr) : disk_m pystr :=
  count ← shard_count prefix;
  let idx := Z.max 0 (count - 1) in
  let path := shard_path idx prefix in
  s ← get_shards;
  match s !! path with
  | None => mret path
  | Some _ =>
      n ← line_count path;
      mret (if shard_size w <=? n then shard_path (idx + 1) prefix else path)
  end.

(** ** The cap *)

(** A shard: its modification time, its number, its prefix, its path and its size. *)
Record shard := { sh_mtime : Z; sh_index : Z; sh_prefix : pystr; sh_path : pystr; sh_size : Z }.

(** The order of the tuples. *)
Definition shard_le (a b : shard) : bool :=
  if negb (sh_mtime a =? sh_mtime b) then sh_mtime a <=? sh_mtime b
  else if negb (sh_index a =? sh_index b) then sh_index a <=? sh_index b
  else if negb (bool_decide (sh_prefix a = sh_prefix b)) then str_le (sh_prefix a) (sh_prefix b)
  else if negb (bool_decide (sh_path a = sh_path b)) then str_le (sh_path a) (sh_path b)
  else sh_size a <=? sh_size b.

Fixpoint stat_shards (prefix : pystr) (indices : list Z) : disk_m (list shard) :=
  match indices with
  | [] => mret []
  | index :: indices' =>
      let path := shard_path index prefix in
      f ← stat path;
      rest ← stat_shards prefix indices';
      mret ({| sh_mtime := f.2; sh_index := index; sh_prefix := prefix; sh_path := path; sh_size := zlen f.1 |} :: rest)
  end.

(** The shards of a prefix and, where it has one, its newest. *)
Definition prefix_shards (prefix : pystr) : disk_m (list shard * list (pystr * Z)) :=
  indices ← shard_indices prefix;
  found ← stat_shards prefix indices;
  mret (found, match indices with [] => [] | _ => [(prefix, max_index indices)] end).

Fixpoint remove_oldest (protected : list (pystr * Z)) (total : Z) (l : list shard) : disk_m unit :=
  match l with
  | [] => mret ()
  | s :: l' =>
      if total <=? max_bytes w then mret ()
      else if bool_decide ((sh_prefix s, sh_index s) ∈ protected) then remove_oldest protected total l'
      else unlink (sh_path s);; remove_oldest protected (total - sh_size s) l'
  end.

Definition sum_sizes (l : list shard) : Z := foldr (λ s n, sh_size s + n) 0 l.

Definition prune_to_cap : disk_m unit :=
  rollouts ← prefix_shards SHARD_PREFIX;
  problems ← prefix_shards PROBLEM_PREFIX;
  let all := rollouts.1 ++ problems.1 in
  remove_oldest (rollouts.2 ++ problems.2) (sum_sizes all) (sort_by shard_le all).

(** ** Writing *)

Definition warn_write_error (e : exn) : disk_m unit := λ d,
  let detail := take 160 (map (λ c, if (c =? 10)%N then 32%N else c) (exn_msg e)) in
  (Ok (), {| shards := shards d; script := script d;
             warnings := warnings d ++ [ustr "[validator] WARN: local rollout export failed (" ++ detail ++ ustr ")"] |}).

(** One record: its shard, its line, and the cap. *)
Definition write_record (prefix : pystr) (record : pyobj) : disk_m unit :=
  path ← active_shard_path prefix;
  line ← lift (dumps unicode_options record);
  append_line path line;;
  prune_to_cap.

(** The first [OSError] ends the loop with a warning. *)
Fixpoint write_all (rollouts : list Rollout) : disk_m unit :=
  match rollouts with
  | [] => mret ()
  | r :: rollouts' => write_record SHARD_PREFIX (rollout_dump r);; write_all rollouts'
  end.

Definition write (rollouts : list Rollout) : disk_m unit := catch_os (write_all rollouts) warn_write_error.

Definition write_problem (p : Problem) : disk_m unit :=
  catch_os (write_record PROBLEM_PREFIX (problem_dump p)) warn_write_error.
End writer.
