(* ===== verification/WriterSpec.v ===== *)
(** * The local dataset: records and the cap

    [record_written]: where a record goes.  [cap_kept]: what is removed.
    [torn_character_stops]: what a write that was cut leaves behind. *)

From Stdlib Require Import SpecFloat.
From S2P Require Import Prelude PyFloat Text Json JsonSpec Codecs Scoring Runner Executor Writer.

Local Open Scope Z_scope.

(** ** Calls of the disk *)

Lemma disk_bind_Ok {A B} (m : disk_m A) (f : A → disk_m B) (d d' : disk) (b : B) :
  (m ≫= f) d = (Ok b, d') ↔ ∃ a d1, m d = (Ok a, d1) ∧ f a d1 = (Ok b, d').
Proof.
  unfold mbind, disk_bind. destruct (m d) as [[a|e] d1]; naive_solver.
Qed.

(** A computation that leaves the files as they are. *)
Definition still {A} (m : disk_m A) : Prop := ∀ d, shards (m d).2 = shards d ∧ warnings (m d).2 = warnings d.

Lemma still_ret {A} (a : A) : still (mret a).
Proof. done. Qed.

Lemma still_lift {A} (m : result A) : still (lift m).
Proof. done. Qed.

Lemma still_get : still get_shards.
Proof. done. Qed.

Lemma still_bind {A B} (m : disk_m A) (f : A → disk_m B) : still m → (∀ a, still (f a)) → still (m ≫= f).
Proof.
  intros Hm Hf d. unfold mbind, disk_bind. destruct (Hm d) as [H1 H2]. destruct (m d) as [[a|e] d1]; [|done].
  simpl in *. destruct (Hf a d1) as [H3 H4]. by rewrite H3, H4.
Qed.

Lemma still_call : still call.
Proof. intros d. unfold call. by destruct (script d). Qed.

Create HintDb disk discriminated.
#[export] Hint Resolve still_ret still_lift still_get still_call : disk.

Ltac still := repeat (apply still_bind; [auto with disk|intros ?]); repeat case_match; auto with disk.

Lemma still_checked : still checked.
Proof. unfold checked. still. Qed.
#[export] Hint Resolve still_checked : disk.

Lemma still_listdir : still listdir.
Proof. unfold listdir. still. Qed.

Lemma still_stat (path : pystr) : still (stat path).
Proof. unfold stat. still. Qed.
#[export] Hint Resolve still_listdir still_stat : disk.

Section writer.
Context `{FR : !FloatRepr, UG : !UnicodeDigits, UI : !UnicodeIsDigit}.
Implicit Types (d : disk) (prefix path line : pystr) (idx : Z).

Lemma still_indices prefix : still (shard_indices prefix).
Proof. unfold shard_indices. still. Qed.

Lemma still_line_count path : still (line_count path).
Proof. unfold line_count. still. Qed.
#[local] Hint Resolve still_indices still_line_count : disk.

Lemma still_count prefix : still (shard_count prefix).
Proof. unfold shard_count. still. Qed.
#[local] Hint Resolve still_count : disk.

Lemma still_active (w : RolloutWriter) prefix : still (active_shard_path w prefix).
Proof. unfold active_shard_path. still. apply still_bind; [auto with disk|intros ?]. auto with disk. Qed.

Lemma still_stat_shards prefix (l : list Z) : still (stat_shards prefix l).
Proof.
  induction l as [|i l IH]; cbn [stat_shards]; [auto with disk|]. apply still_bind; [auto with disk|intros f].
  apply still_bind; [done|intros ?; auto with disk].
Qed.
#[local] Hint Resolve still_stat_shards : disk.

Lemma still_prefix prefix : still (prefix_shards prefix).
Proof. unfold prefix_shards. still. Qed.

(** A still step of a run that succeeds. *)
Lemma still_step {A} (m : disk_m A) d d1 (a : A) : still m → m d = (Ok a, d1) → shards d1 = shards d ∧ warnings d1 = warnings d.
Proof. intros Hq H. specialize (Hq d). by rewrite H in Hq. Qed.

Lemma checked_Ok d d1 (u : unit) : checked d = (Ok u, d1) → shards d1 = shards d.
Proof. intros H. by apply (still_step _ _ _ _ still_checked H). Qed.

(** ** Names *)

Lemma digits_value_zeros (n : nat) (s : pystr) : digits_value (repeat 48%N n ++ s) = digits_value s.
Proof. unfold digits_value. induction n as [|n IH]; [done|]. exact IH. Qed.

Lemma zfill_digits (n : nat) (z : Z) :
  0 <= z → zfill n (str_of_int z) ≠ [] ∧ forallb is_digit (zfill n (str_of_int z)) = true ∧
  digits_value (zfill n (str_of_int z)) = z.
Proof.
  intros (Hne & Hd & Hv)%str_of_int_digits. unfold zfill. split_and!.
  - intros [_ H]%app_nil. done.
  - rewrite forallb_app, Hd, andb_true_r. apply forallb_elem. by intros c ->%list_elem_of_In%repeat_spec.
  - by rewrite digits_value_zeros.
Qed.

Definition ascii_digits_law : Prop := ∀ c, (c < 128)%N → py_isdigit c = is_digit c.

Lemma is_digit_ascii (c : N) : is_digit c = true → (c < 128)%N.
Proof. unfold is_digit. rewrite andb_true_iff, !N.leb_le. lia. Qed.

(** The number in the name of a shard is the shard's. *)
Lemma shard_index_path prefix (z : Z) :
  ascii_digits_law → 0 <= z < 2 ^ 4000 → shard_index prefix (shard_path z prefix) = Ok (Some z).
Proof.
  intros Hlaw Hz. unfold shard_index, shard_path. destruct (zfill_digits 5 z) as (Hne & Hd & Hv); [lia|].
  set (digits := zfill 5 (str_of_int z)) in *.
  assert (Hlen : (length digits <= 4300)%nat).
  { unfold digits, zfill. rewrite length_app, repeat_length. pose proof (str_of_int_length 4000 z). lia. }
  assert (Hs : startswith (prefix ++ [45%N]) (prefix ++ [45%N] ++ digits ++ ustr ".jsonl") = true).
  { apply startswith_spec. exists (digits ++ ustr ".jsonl"). by rewrite <-(assoc_L (++)). }
  assert (He : endswith (ustr ".jsonl") (prefix ++ [45%N] ++ digits ++ ustr ".jsonl") = true).
  { unfold endswith. apply startswith_spec. rewrite !rev_app_distr, <-!(assoc_L (++)). by eexists. }
  rewrite Hs, He. cbn [negb orb].
  assert (Hval : drop (length (prefix ++ [45%N])) (take (length (prefix ++ [45%N] ++ digits ++ ustr ".jsonl") - length (ustr ".jsonl"))
    (prefix ++ [45%N] ++ digits ++ ustr ".jsonl")) = digits).
  { replace (prefix ++ [45%N] ++ digits ++ ustr ".jsonl") with ((prefix ++ [45%N]) ++ digits ++ ustr ".jsonl") by (by rewrite <-(assoc_L (++))).
    replace (length ((prefix ++ [45%N]) ++ digits ++ ustr ".jsonl") - length (ustr ".jsonl"))%nat
      with (length ((prefix ++ [45%N]) ++ digits)) by (rewrite !length_app; lia).
    rewrite (assoc_L (++) (prefix ++ [45%N]) digits), take_app_length. by rewrite drop_app_length. }
  rewrite Hval. rewrite bool_decide_eq_false_2 by done.
  assert (Hi : forallb py_isdigit digits = true).
  { rewrite forallb_elem in *. intros c Hc. pose proof (Hd c Hc) as Hdc. by rewrite Hlaw by (by apply is_digit_ascii). }
  rewrite Hi. cbn [negb andb]. unfold int_text.
  assert (Ha : forallb (λ c, c <? 128)%N digits = true).
  { rewrite forallb_elem in *. intros c Hc%Hd%is_digit_ascii. by apply N.ltb_lt. }
  rewrite Ha, py_int_digits, Hv by done.
  pose proof (length_filter (λ c, is_digit c = true) digits). rewrite (proj2 (Z.ltb_ge _ _)); [done|unfold zlen; lia].
Qed.

Lemma shard_path_inj (i j : Z) (p q : pystr) :
  0 <= i → 0 <= j → p = SHARD_PREFIX ∨ p = PROBLEM_PREFIX → q = SHARD_PREFIX ∨ q = PROBLEM_PREFIX →
  shard_path i p = shard_path j q → i = j ∧ p = q.
Proof.
  intros Hi Hj Hp Hq H. assert (Hpq : p = q).
  { destruct Hp as [-> | ->], Hq as [-> | ->]; [done| | |done]; apply (f_equal head) in H; discriminate H. }
  split; [|done]. subst q. unfold shard_path in H. apply app_inv_head, app_inv_head, app_inv_tail in H.
  apply (f_equal digits_value) in H. by rewrite (proj2 (proj2 (zfill_digits 5 i Hi))), (proj2 (proj2 (zfill_digits 5 j Hj))) in H.
Qed.
(** ** What is listed *)

(** The numbers of a prefix in a directory. *)
Definition numbers (m : gmap pystr (bytes * Z)) prefix (z : Z) : Prop :=
  ∃ name, is_Some (m !! name) ∧ shard_index prefix name = Ok (Some z).

Lemma shard_indices_Ok prefix d d1 (l : list Z) :
  shard_indices prefix d = (Ok l, d1) →
  shards d1 = shards d ∧ (∀ z, z ∈ l ↔ numbers (shards d) prefix z) ∧
  ∀ name, is_Some (shards d !! name) → is_ok (shard_index prefix name) = true.
Proof.
  intros H. split; [apply (still_step _ _ _ _ (still_indices prefix) H)|].
  unfold shard_indices, listdir in H.
  apply disk_bind_Ok in H as (names & d2 & H & Hl). apply disk_bind_Ok in H as ([] & d3 & H3 & H).
  apply disk_bind_Ok in H as (m & d4 & [= <- <-] & [= <- <-]).
  rewrite (checked_Ok _ _ _ H3) in Hl. unfold lift in Hl. injection Hl as Hl _.
  apply bind_Ok in Hl as (found & Hf & [= <-]). apply mapM_Ok in Hf.
  assert (Hdom : ∀ name, name ∈ map fst (map_to_list (shards d)) ↔ is_Some (shards d !! name)).
  { intros name. rewrite list_elem_of_fmap. split.
    - intros ([n f] & -> & Hin%elem_of_map_to_list). by eexists.
    - intros [f Hf']. exists (name, f). split; [done|]. by apply elem_of_map_to_list. }
  split.
  - intros z. rewrite list_elem_of_omap. split.
    + intros (o & Ho & Hz). unfold id in Hz. subst o. apply list_elem_of_lookup_1 in Ho as [i Hi].
      destruct (Forall2_lookup_r _ _ _ _ _ Hf Hi) as (name & Hn & Hx). exists name. split; [|done].
      apply Hdom. by eapply list_elem_of_lookup_2.
    + intros (name & [i Hi]%Hdom%list_elem_of_lookup_1 & Hx). exists (Some z). split; [|done].
      destruct (Forall2_lookup_l _ _ _ _ _ Hf Hi) as (o & Ho & Hxo). rewrite Hx in Hxo. injection Hxo as <-. by eapply list_elem_of_lookup_2.
  - intros name [i Hi]%Hdom%list_elem_of_lookup_1.
    destruct (Forall2_lookup_l _ _ _ _ _ Hf Hi) as (o & Ho & ->). done.
Qed.

Lemma max_index_ge (l : list Z) (z : Z) : z ∈ l → z <= max_index l.
Proof.
  induction l as [|x l IH]; [by intros ?%not_elem_of_nil|]. cbn [max_index foldr].
  intros [->|Hz]%elem_of_cons; [lia|]. specialize (IH Hz). unfold max_index in IH. lia.
Qed.

Lemma max_index_in (l : list Z) : max_index l = -1 ∨ max_index l ∈ l.
Proof.
  induction l as [|x l IH]; [by left|]. cbn [max_index foldr]. fold (max_index l).
  destruct (Z.max_spec x (max_index l)) as [[_ ->]|[_ ->]]; [|right; left].
  destruct IH as [->|IH]; [by left|]. right. by right.
Qed.

(** The shard that is written is the newest of its prefix. *)
Lemma active_shard_Ok (w : RolloutWriter) prefix d d1 path :
  active_shard_path w prefix d = (Ok path, d1) →
  shards d1 = shards d ∧ warnings d1 = warnings d ∧
  ∃ idx, path = shard_path idx prefix ∧ 0 <= idx ∧ (∀ z, numbers (shards d) prefix z → z <= idx) ∧
    (idx <= 1 ∨ numbers (shards d) prefix (idx - 1) ∨ numbers (shards d) prefix idx).
Proof.
  intros H. destruct (still_step _ _ _ _ (still_active w prefix) H) as [H1 H2]. split_and!; [done|done|].
  unfold active_shard_path, shard_count in H. apply disk_bind_Ok in H as (count & d2 & Hc & H).
  apply disk_bind_Ok in Hc as (l & d3 & Hi & [= <- <-]). apply shard_indices_Ok in Hi as (H3 & Hl & _).
  assert (Hmax : ∀ z, numbers (shards d) prefix z → z <= Z.max 0 (max_index l + 1 - 1)).
  { intros z Hz%Hl%max_index_ge. lia. }
  assert (Hnear : ∀ i, i = Z.max 0 (max_index l + 1 - 1) ∨ i = Z.max 0 (max_index l + 1 - 1) + 1 →
    i <= 1 ∨ numbers (shards d) prefix (i - 1) ∨ numbers (shards d) prefix i).
  { intros i Hi. destruct (decide (max_index l <= 0)); [left; lia|right].
    destruct (max_index_in l) as [Hm|Hm%Hl]; [lia|]. destruct Hi as [-> | ->]; [right|left].
    - by replace (Z.max 0 (max_index l + 1 - 1)) with (max_index l) by lia.
    - by replace (Z.max 0 (max_index l + 1 - 1) + 1 - 1) with (max_index l) by lia. }
  apply disk_bind_Ok in H as (m & d4 & [= <- <-] & H). destruct (shards d3 !! _).
  - apply disk_bind_Ok in H as (n & d5 & _ & [= <- _]). destruct (shard_size w <=? n); eexists; (split; [reflexivity|]);
      (split; [lia|]); (split; [intros z Hz%Hmax; lia|]); apply Hnear; auto.
  - injection H as <- _. eexists. split; [reflexivity|]. split; [lia|]. split; [done|]. apply Hnear. auto.
Qed.

Lemma append_line_Ok path line d d1 (u : unit) :
  append_line path line d = (Ok u, d1) →
  warnings d1 = warnings d ∧
  ∃ encoded mtime, utf8_encode (line ++ [10%N]) = Ok encoded ∧
    let old := match shards d !! path with Some (c, _) => c | None => [] end in
    shards d1 = <[path := (old ++ separator old ++ encoded, mtime)]> (shards d).
Proof.
  unfold append_line. intros H. apply disk_bind_Ok in H as (encoded & d2 & [= He <-] & H).
  apply disk_bind_Ok in H as (i & d3 & Hcall & H).
  destruct (still_step _ _ _ _ still_call Hcall) as [Hs Hw].
  apply disk_bind_Ok in H as (m & d4 & [= <- <-] & H). destruct (io_error i).
  - apply disk_bind_Ok in H as (? & ? & _ & H). discriminate H.
  - injection H as _ <-. cbn [warnings shards]. split; [done|]. exists encoded, (io_mtime i). by rewrite Hs.
Qed.

(** ** What is removed *)

(** The shards that are removed, in order. *)
Fixpoint doomed (w : RolloutWriter) (protected : list (pystr * Z)) (total : Z) (l : list shard) : list shard :=
  match l with
  | [] => []
  | s :: l' =>
      if total <=? max_bytes w then []
      else if bool_decide ((sh_prefix s, sh_index s) ∈ protected) then doomed w protected total l'
      else s :: doomed w protected (total - sh_size s) l'
  end.

Definition without (m : gmap pystr (bytes * Z)) (l : list shard) : gmap pystr (bytes * Z) :=
  foldl (λ m s, delete (sh_path s) m) m l.

Lemma without_lookup (m : gmap pystr (bytes * Z)) (l : list shard) path :
  without m l !! path = if bool_decide (path ∈ map sh_path l) then None else m !! path.
Proof.
  revert m. induction l as [|s l IH]; intros m; cbn [without foldl map]; [done|]. fold (without (delete (sh_path s) m) l).
  rewrite IH. do 2 case_bool_decide; try done.
  - exfalso. set_solver.
  - assert (path = sh_path s) as -> by set_solver. apply lookup_delete_eq.
  - apply lookup_delete_ne. set_solver.
Qed.

Lemma remove_oldest_Ok (w : RolloutWriter) (protected : list (pystr * Z)) (total : Z) (l : list shard) d d1 (u : unit) :
  remove_oldest w protected total l d = (Ok u, d1) →
  shards d1 = without (shards d) (doomed w protected total l) ∧ warnings d1 = warnings d.
Proof.
  revert total d. induction l as [|s l IH]; intros total d; cbn [remove_oldest doomed]; [by intros [= _ <-]|].
  destruct (total <=? max_bytes w); [by intros [= _ <-]|]. case_bool_decide as Hprot; [apply IH|].
  intros H. apply disk_bind_Ok in H as ([] & d2 & Hu & H). apply IH in H as [H1 H2]. unfold unlink in Hu.
  apply disk_bind_Ok in Hu as ([] & d3 & Hc & Hu). destruct (still_step _ _ _ _ still_checked Hc) as [Hs Hw].
  apply disk_bind_Ok in Hu as (m & d4 & [= <- <-] & Hu). destruct (shards d3 !! sh_path s); [|done].
  injection Hu as <-. cbn [shards warnings] in H1, H2. by rewrite H1, H2, Hs, Hw.
Qed.

Lemma stat_shards_Ok prefix (l : list Z) d d1 (found : list shard) :
  stat_shards prefix l d = (Ok found, d1) →
  map sh_index found = l ∧
  Forall (λ s, sh_prefix s = prefix ∧ sh_path s = shard_path (sh_index s) prefix ∧
               ∃ c, shards d !! sh_path s = Some (c, sh_mtime s) ∧ zlen c = sh_size s) found.
Proof.
  revert d d1 found. induction l as [|i l IH]; intros d d1 found; cbn [stat_shards]; [by intros [= <- _]|].
  intros H. apply disk_bind_Ok in H as (f & d2 & Hf & H). apply disk_bind_Ok in H as (rest & d3 & Hrest & [= <- _]).
  destruct (still_step _ _ _ _ (still_stat _) Hf) as [Hs _]. apply IH in Hrest as [Hmap Hall]. rewrite Hs in Hall.
  split; [by cbn [map sh_index]; rewrite Hmap|]. apply Forall_cons. split; [|done]. split_and!; [done|done|].
  unfold stat in Hf. apply disk_bind_Ok in Hf as ([] & d4 & Hc & Hf). apply disk_bind_Ok in Hf as (m & d5 & [= <- <-] & Hf).
  rewrite (checked_Ok _ _ _ Hc) in Hf. exists f.1. cbn [sh_path sh_mtime sh_size]. split; [|done].
  destruct (shards d !! shard_path i prefix) as [[c t]|]; [|done]. by injection Hf as <-.
Qed.

(** The shards of a prefix in a directory, an entry for each name that carries a number. *)
Definition entry (m : gmap pystr (bytes * Z)) prefix (z : Z) : option shard :=
  match m !! shard_path z prefix with
  | Some (c, t) => Some {| sh_mtime := t; sh_index := z; sh_prefix := prefix; sh_path := shard_path z prefix; sh_size := zlen c |}
  | None => None
  end.

Definition directory (m : gmap pystr (bytes * Z)) prefix : list shard :=
  omap (λ name, match shard_index prefix name with Ok (Some z) => entry m prefix z | _ => None end)
    (map fst (map_to_list m)).

Lemma stat_shards_entries prefix (l : list Z) d d1 (found : list shard) :
  stat_shards prefix l d = (Ok found, d1) → Forall2 (λ z s, entry (shards d) prefix z = Some s) l found.
Proof.
  revert d d1 found. induction l as [|i l IH]; intros d d1 found; cbn [stat_shards]; [by intros [= <- _]|].
  intros H. apply disk_bind_Ok in H as (f & d2 & Hf & H). apply disk_bind_Ok in H as (rest & d3 & Hrest & [= <- _]).
  destruct (still_step _ _ _ _ (still_stat _) Hf) as [Hs _]. apply IH in Hrest. rewrite Hs in Hrest.
  constructor; [|done]. unfold stat in Hf. apply disk_bind_Ok in Hf as ([] & d4 & Hc & Hf).
  apply disk_bind_Ok in Hf as (m & d5 & [= <- <-] & Hf). rewrite (checked_Ok _ _ _ Hc) in Hf. unfold entry.
  destruct (shards d !! shard_path i prefix) as [[c t]|]; [|done]. by injection Hf as <-.
Qed.

Lemma directory_found prefix (m : gmap pystr (bytes * Z)) (names : list pystr) (numbered : list (option Z)) (found : list shard) :
  Forall2 (λ name o, shard_index prefix name = Ok o) names numbered →
  Forall2 (λ z s, entry m prefix z = Some s) (omap id numbered) found →
  omap (λ name, match shard_index prefix name with Ok (Some z) => entry m prefix z | _ => None end) names = found.
Proof.
  intros Hn. revert found. induction Hn as [|name o names numbered Ho Hn IH]; intros found Hf; cbn in Hf |- *.
  - by apply Forall2_nil_inv_l in Hf.
  - rewrite Ho. destruct o as [z|]; cbn in Hf; [|by apply IH].
    apply Forall2_cons_inv_l in Hf as (s & found' & Hs & Hf & ->). rewrite Hs. f_equal. by apply IH.
Qed.

Lemma prefix_shards_directory prefix d d1 (r : list shard * list (pystr * Z)) :
  prefix_shards prefix d = (Ok r, d1) → r.1 = directory (shards d) prefix.
Proof.
  unfold prefix_shards. intros H. apply disk_bind_Ok in H as (l & d2 & Hi & H).
  apply disk_bind_Ok in H as (found & d3 & Hf & [= <- _]). cbn [fst].
  rewrite <-(proj1 (still_step _ _ _ _ (still_indices prefix) Hi)). apply stat_shards_entries in Hf.
  destruct (still_step _ _ _ _ (still_indices prefix) Hi) as [Hs _].
  unfold shard_indices, listdir in Hi. apply disk_bind_Ok in Hi as (names & d4 & Hl & Hi).
  apply disk_bind_Ok in Hl as ([] & d5 & Hc & Hl). apply disk_bind_Ok in Hl as (m & d6 & [= <- <-] & [= <- <-]).
  unfold lift in Hi. injection Hi as Hi <-. apply bind_Ok in Hi as (numbered & Hm & [= <-]). apply mapM_Ok in Hm.
  symmetry. by apply (directory_found prefix _ _ numbered).
Qed.

(** All the shards of a directory, and the newest of each prefix. *)
Definition listed (m : gmap pystr (bytes * Z)) (all : list shard) (protected : list (pystr * Z)) : Prop :=
  (∀ p z, (p = SHARD_PREFIX ∨ p = PROBLEM_PREFIX) ∧ numbers m p z ↔ ∃ s, s ∈ all ∧ sh_prefix s = p ∧ sh_index s = z) ∧
  (∀ s, s ∈ all → sh_path s = shard_path (sh_index s) (sh_prefix s) ∧
     ∃ c, m !! sh_path s = Some (c, sh_mtime s) ∧ zlen c = sh_size s) ∧
  (∀ s, s ∈ all → (sh_prefix s, sh_index s) ∈ protected ↔
     ∀ s', s' ∈ all → sh_prefix s' = sh_prefix s → sh_index s' <= sh_index s).

Lemma prefix_shards_Ok prefix d d1 (r : list shard * list (pystr * Z)) :
  prefix_shards prefix d = (Ok r, d1) →
  shards d1 = shards d ∧ warnings d1 = warnings d ∧
  (∀ z, numbers (shards d) prefix z ↔ ∃ s, s ∈ r.1 ∧ sh_index s = z) ∧
  (∀ s, s ∈ r.1 → sh_prefix s = prefix ∧ sh_path s = shard_path (sh_index s) prefix ∧
     ∃ c, shards d !! sh_path s = Some (c, sh_mtime s) ∧ zlen c = sh_size s) ∧
  (∀ q z, (q, z) ∈ r.2 ↔ q = prefix ∧ r.1 ≠ [] ∧ z = max_index (map sh_index r.1)).
Proof.
  intros H. destruct (still_step _ _ _ _ (still_prefix prefix) H) as [Hs Hw]. split_and!; [done|done|..];
    unfold prefix_shards in H; apply disk_bind_Ok in H as (l & d2 & Hi & H);
    apply disk_bind_Ok in H as (found & d3 & Hf & [= <- _]); apply shard_indices_Ok in Hi as (H2 & Hl & _);
    apply stat_shards_Ok in Hf as [Hmap Hall]; rewrite H2 in Hall; cbn [fst snd].
  - intros z. rewrite <-Hl, <-Hmap, list_elem_of_fmap. naive_solver.
  - intros s. by rewrite Forall_forall in Hall; apply Hall.
  - intros q z. rewrite Hmap. destruct l as [|i l], found as [|s found]; try discriminate Hmap.
    + rewrite elem_of_nil. naive_solver.
    + rewrite list_elem_of_singleton. naive_solver.
Qed.
Lemma py_int_nonneg (t : pystr) (z : Z) : py_int t = Some z → 45%N ∉ t → 0 <= z.
Proof.
  unfold py_int. intros H Hno.
  assert (Hsub : ∀ l, (∀ c, c ∈ drop_while c_isspace l → c ∈ l)).
  { intros l. induction l as [|x l IH]; intros c Hc; [done|]. simpl in Hc. case_match; [right; by apply IH|done]. }
  assert (Hin : ∀ c, c ∈ strip c_isspace t → c ∈ t).
  { intros c Hc. unfold strip in Hc. apply list_elem_of_In, in_rev, list_elem_of_In, Hsub, list_elem_of_In, in_rev, list_elem_of_In, Hsub in Hc.
    done. }
  assert (Hg : ∀ l y, digit_groups l = Some y → 0 <= y).
  { unfold digit_groups, digits_value. intros l y Hl. case_match; [|done]. injection Hl as <-.
    assert (Hacc : ∀ k a, 0 <= a → 0 <= fold_left (λ acc (x : N), acc * 10 + Z.of_N (x - 48)%N) k a).
    { intros k. induction k as [|x k IH]; intros a Ha; simpl; [done|]. apply IH. lia. }
    by apply Hacc. }
  destruct (strip c_isspace t) as [|c r] eqn:Hs; [done|].
  destruct (N.eqb_spec c 45) as [->|]; [destruct Hno; apply Hin; left|]. case_match; by eapply Hg.
Qed.

Lemma numbers_nonneg (m : gmap pystr (bytes * Z)) prefix (z : Z) : ascii_digits_law → numbers m prefix z → 0 <= z.
Proof.
  intros Hlaw (name & _ & H). unfold shard_index in H. case_match; [done|].
  set (v := drop _ _) in H. destruct (_ && forallb py_isdigit v) eqn:Hv; [|done].
  apply andb_true_iff in Hv as [_ Hv]. apply fmap_Ok in H as (y & H & [= <-]).
  unfold int_text in H. set (t := if forallb _ v then v else _) in H. case_match; [done|].
  destruct (py_int t) as [y|] eqn:Hy; [|done]. injection H as <-. apply (py_int_nonneg t); [done|].
  rewrite forallb_elem in Hv. intros Hin. unfold t in Hin. case_match.
  - specialize (Hv _ Hin). rewrite Hlaw in Hv by done. discriminate Hv.
  - apply list_elem_of_fmap in Hin as (c & Hc & Hin). destruct (N.ltb_spec c 127).
    + subst c. specialize (Hv _ Hin). rewrite Hlaw in Hv by done. discriminate Hv.
    + case_match; [done|]. case_match; lia.
Qed.

(** What goes: the part of the oldest shards that is not protected, as long as the rest
    is too large. *)
Definition unprotected (protected : list (pystr * Z)) (s : shard) : Prop := (sh_prefix s, sh_index s) ∉ protected.

#[local] Instance unprotected_dec (protected : list (pystr * Z)) (s : shard) : Decision (unprotected protected s).
Proof. unfold unprotected. apply _. Defined.

Lemma doomed_segment (w : RolloutWriter) (protected : list (pystr * Z)) (total : Z) (l : list shard) :
  let gone := doomed w protected total l in
  ∃ first rest, l = first ++ rest ∧ gone = filter (unprotected protected) first ∧
    (total - sum_sizes gone <= max_bytes w ∨ rest = []) ∧
    ∀ g s g', gone = g ++ s :: g' → max_bytes w < total - sum_sizes g.
Proof.
  revert total. induction l as [|s l IH]; intros total; cbn [doomed].
  { exists [], []. split_and!; [done|done|by right|]. by intros [|? ?] ? ?. }
  destruct (Z.leb_spec total (max_bytes w)) as [Hle|Hgt].
  { exists [], (s :: l). split_and!; [done|done|left; simpl; lia|]. by intros [|? ?] ? ?. }
  case_bool_decide as Hp.
  - destruct (IH total) as (first & rest & -> & Hg & Htot & Hmin). exists (s :: first), rest.
    split_and!; [done| |done|done]. rewrite filter_cons_False by (unfold unprotected; naive_solver). done.
  - destruct (IH (total - sh_size s)) as (first & rest & -> & Hg & Htot & Hmin). exists (s :: first), rest.
    split_and!; [done| | |].
    + rewrite filter_cons_True by done. by rewrite Hg.
    + cbn [sum_sizes foldr]. fold (sum_sizes (doomed w protected (total - sh_size s) (first ++ rest))).
      destruct Htot; [left; lia|by right].
    + intros [|s0 g] s' g' Heq; [simpl; lia|]. injection Heq as <- Heq. apply Hmin in Heq. cbn [sum_sizes foldr].
      fold (sum_sizes g). lia.
Qed.

Lemma prefixes_differ : SHARD_PREFIX ≠ PROBLEM_PREFIX.
Proof. done. Qed.

Lemma prune_Ok (w : RolloutWriter) d d1 (u : unit) :
  ascii_digits_law → prune_to_cap w d = (Ok u, d1) →
  warnings d1 = warnings d ∧
  ∃ all protected first rest, listed (shards d) all protected ∧ sort_by shard_le all = first ++ rest ∧
    let gone := filter (unprotected protected) first in
    shards d1 = without (shards d) gone ∧
    (sum_sizes all - sum_sizes gone <= max_bytes w ∨ rest = []) ∧
    (∀ g s g', gone = g ++ s :: g' → max_bytes w < sum_sizes all - sum_sizes g) ∧
    all = directory (shards d) SHARD_PREFIX ++ directory (shards d) PROBLEM_PREFIX.
Proof.
  intros Hlaw H. unfold prune_to_cap in H. apply disk_bind_Ok in H as (r & d2 & Hr & H).
  apply disk_bind_Ok in H as (p & d3 & Hp & H).
  pose proof (prefix_shards_directory _ _ _ _ Hr) as Hd1. pose proof (prefix_shards_directory _ _ _ _ Hp) as Hd2. apply prefix_shards_Ok in Hr as (Hs1 & Hw1 & Hn1 & Ha1 & Hx1).
  apply prefix_shards_Ok in Hp as (Hs2 & Hw2 & Hn2 & Ha2 & Hx2). rewrite Hs1 in Hs2, Hn2, Ha2, Hd2.
  apply remove_oldest_Ok in H as [H1 H2]. split; [congruence|].
  destruct (doomed_segment w (r.2 ++ p.2) (sum_sizes (r.1 ++ p.1)) (sort_by shard_le (r.1 ++ p.1))) as (first & rest & Hl & Hg & Htot & Hmin).
  rewrite Hg in H1, Htot, Hmin. exists (r.1 ++ p.1), (r.2 ++ p.2), first, rest.
  cbv zeta. split_and!; [unfold listed|done|by rewrite H1, Hs2|done|done|by rewrite Hd1, Hd2].
  assert (Hmax : ∀ q (l : list shard), (∀ z, numbers (shards d) q z ↔ ∃ s, s ∈ l ∧ sh_index s = z) →
    ∀ s, s ∈ l → sh_index s = max_index (map sh_index l) ↔ ∀ s', s' ∈ l → sh_index s' <= sh_index s).
  { intros q l Hn s Hs. split.
    - intros -> s' Hs'. apply max_index_ge. by apply list_elem_of_fmap_2.
    - intros Hall. pose proof (max_index_ge (map sh_index l) (sh_index s) (list_elem_of_fmap_2 _ _ _ Hs)) as Hge.
      assert (H0 : 0 <= sh_index s) by (apply (numbers_nonneg (shards d) q); [done|]; apply Hn; by exists s).
      destruct (max_index_in (map sh_index l)) as [Hm|Hm]; [lia|].
      apply list_elem_of_fmap in Hm as (s' & Hm & Hs'). specialize (Hall s' Hs'). lia. }
  split_and!.
  - intros q z. split.
    + intros [[-> | ->] Hz]; [apply Hn1 in Hz as (s & Hs & <-)|apply Hn2 in Hz as (s & Hs & <-)]; exists s;
        (split; [apply elem_of_app; auto|]); (split; [|done]); [by apply Ha1|by apply Ha2].
    + intros (s & [Hs|Hs]%elem_of_app & <- & <-); [pose proof (Ha1 s Hs) as (-> & _)|pose proof (Ha2 s Hs) as (-> & _)];
        (split; [auto|]); [apply Hn1|apply Hn2]; by exists s.
  - intros s [Hs|Hs]%elem_of_app; [apply Ha1 in Hs as (-> & Hpath & Hc)|apply Ha2 in Hs as (-> & Hpath & Hc)]; done.
  - intros s [Hs|Hs]%elem_of_app; rewrite elem_of_app, Hx1, Hx2.
    + destruct (Ha1 s Hs) as (Hpre & _). pose proof (Hmax _ _ Hn1 s Hs) as Hm. rewrite Hpre. split.
      * intros [(_ & _ & Hz)|(Hbad & _)]; [|by destruct prefixes_differ]. intros s' [Hs'|Hs']%elem_of_app Hq; [by apply Hm|].
        destruct (Ha2 s' Hs') as (Hpre' & _). rewrite Hpre' in Hq. by destruct prefixes_differ.
      * intros Hall. left. split_and!; [done|by intros Hnil; rewrite Hnil in Hs; apply elem_of_nil in Hs|]. apply Hm. intros s' Hs'. apply Hall; [apply elem_of_app; by left|].
        by destruct (Ha1 s' Hs') as (-> & _).
    + destruct (Ha2 s Hs) as (Hpre & _). pose proof (Hmax _ _ Hn2 s Hs) as Hm. rewrite Hpre. split.
      * intros [(Hbad & _)|(_ & _ & Hz)]; [by destruct prefixes_differ|]. intros s' [Hs'|Hs']%elem_of_app Hq; [|by apply Hm].
        destruct (Ha1 s' Hs') as (Hpre' & _). rewrite Hpre' in Hq. by destruct prefixes_differ.
      * intros Hall. right. split_and!; [done|by intros Hnil; rewrite Hnil in Hs; apply elem_of_nil in Hs|]. apply Hm. intros s' Hs'. apply Hall; [apply elem_of_app; by right|].
        by destruct (Ha2 s' Hs') as (-> & _).
Qed.
(** ** A record is one line *)

Lemma unicode_lines (v : pyobj) (t : pystr) : plain_floats → dumps unicode_options v = Ok t → 10%N ∉ t.
Proof. intros Hf. apply dumps_plain; [done|]. split; by apply (bool_decide_unpack _); vm_compute. Qed.

(** ** Properties *)

(** What one record leaves. *)
Lemma write_record_Ok (w : RolloutWriter) prefix (v : pyobj) d d1 (u : unit) :
  write_record w prefix v d = (Ok u, d1) →
  ∃ d2 idx line encoded mtime, 0 <= idx ∧ (∀ z, numbers (shards d) prefix z → z <= idx) ∧
    (idx <= 1 ∨ numbers (shards d) prefix (idx - 1) ∨ numbers (shards d) prefix idx) ∧
    dumps unicode_options v = Ok line ∧ utf8_encode (line ++ [10%N]) = Ok encoded ∧
    (let path := shard_path idx prefix in
     let old := match shards d !! path with Some (c, _) => c | None => [] end in
     shards d2 = <[path := (old ++ separator old ++ encoded, mtime)]> (shards d)) ∧
    prune_to_cap w d2 = (Ok u, d1).
Proof.
  unfold write_record. intros H. apply disk_bind_Ok in H as (path & d2 & Ha & H).
  apply active_shard_Ok in Ha as (Hs & Hw & idx & -> & Hidx & Hmax & Hnear).
  apply disk_bind_Ok in H as (line & d3 & [= Hline <-] & H). apply disk_bind_Ok in H as ([] & d4 & Happ & H).
  apply append_line_Ok in Happ as (Hw4 & encoded & mtime & He & Hnew). rewrite Hs in Hnew.
  exists d4, idx, line, encoded, mtime. split_and!; try done.
Qed.

Lemma separator_ends (old : bytes) : old ++ separator old = [] ∨ last (old ++ separator old) = Some "010"%char.
Proof.
  unfold separator. destruct (last old) as [c|] eqn:Hl.
  - right. case_bool_decide as Hc; [by rewrite app_nil_r, Hl, Hc|]. by rewrite last_snoc.
  - left. apply last_None in Hl. by subst.
Qed.

Lemma argmax {A} (f : A → Z) (l : list A) (x : A) : x ∈ l → ∃ y, y ∈ l ∧ ∀ z, z ∈ l → f z <= f y.
Proof.
  revert x. induction l as [|a l IH]; intros x; [by intros ?%elem_of_nil|]. intros _. destruct l as [|b l].
  - exists a. split; [left|]. by intros z ->%list_elem_of_singleton.
  - destruct (IH b) as (y & Hy & Hmax); [left|]. destruct (Z.leb_spec (f y) (f a)).
    + exists a. split; [left|]. intros z [->|Hz]%elem_of_cons; [done|]. specialize (Hmax z Hz). lia.
    + exists y. split; [by right|]. intros z [->|Hz]%elem_of_cons; [lia|by apply Hmax].
Qed.

(** The newest shard of its prefix is protected. *)
Lemma newest_protected (m : gmap pystr (bytes * Z)) (all : list shard) (protected : list (pystr * Z)) (s : shard) :
  listed m all protected → s ∈ all →
  ∃ s', s' ∈ all ∧ sh_prefix s' = sh_prefix s ∧ sh_index s <= sh_index s' ∧ (sh_prefix s', sh_index s') ∈ protected.
Proof.
  intros (_ & _ & Hprot) Hs.
  destruct (argmax sh_index (filter (λ s', sh_prefix s' = sh_prefix s) all) s) as (y & [Hy1 Hy2]%list_elem_of_filter & Hmax);
    [by apply list_elem_of_filter|].
  exists y. split_and!; [done|done|by apply Hmax, list_elem_of_filter|]. apply Hprot; [done|].
  intros s' Hs' Hp. apply Hmax, list_elem_of_filter. split; [congruence|done].
Qed.

(** Two shards of a listing with one path are of one prefix and number. *)
Lemma listed_path (m : gmap pystr (bytes * Z)) (all : list shard) (protected : list (pystr * Z)) (s s' : shard) :
  ascii_digits_law → listed m all protected → s ∈ all → s' ∈ all → sh_path s = sh_path s' →
  sh_prefix s = sh_prefix s' ∧ sh_index s = sh_index s'.
Proof.
  intros Hlaw (Hn & Hp & _) Hs Hs' Heq. destruct (Hp s Hs) as [H1 _], (Hp s' Hs') as [H2 _].
  destruct (proj2 (Hn (sh_prefix s) (sh_index s)) (ex_intro _ s (conj Hs (conj eq_refl eq_refl)))) as [Hp1 Hz1].
  destruct (proj2 (Hn (sh_prefix s') (sh_index s')) (ex_intro _ s' (conj Hs' (conj eq_refl eq_refl)))) as [Hp2 Hz2].
  rewrite H1, H2 in Heq. apply shard_path_inj in Heq as [-> ->]; [done|by eapply numbers_nonneg..|done|done].
Qed.

(** A file after the cap: it is there as before, or it was an older shard. *)
Lemma after_cap (m : gmap pystr (bytes * Z)) (all first rest : list shard) (protected : list (pystr * Z)) path :
  ascii_digits_law → listed m all protected → sort_by shard_le all = first ++ rest →
  let m' := without m (filter (unprotected protected) first) in
  m' !! path = m !! path ∨
  (m' !! path = None ∧ ∃ p z z', path = shard_path z p ∧ (p = SHARD_PREFIX ∨ p = PROBLEM_PREFIX) ∧ z < z' ∧ numbers m p z ∧ numbers m p z' ∧ is_Some (m' !! shard_path z' p)).
Proof.
  intros Hlaw Hl Hsort m'. unfold m'. rewrite without_lookup. case_bool_decide as Hin; [right|by left]. split; [done|].
  assert (Hsub : ∀ s, s ∈ filter (unprotected protected) first → s ∈ all ∧ (sh_prefix s, sh_index s) ∉ protected).
  { intros s [Hu Hs]%list_elem_of_filter. split; [|done]. apply (elem_of_sort_by shard_le). rewrite Hsort. apply elem_of_app. by left. }
  apply list_elem_of_fmap in Hin as (s & -> & Hs). destruct (Hsub s Hs) as [Hall Hun].
  destruct (newest_protected _ _ _ s Hl Hall) as (s' & Hs' & Hpre & Hle & Hpr). pose proof Hl as (Hn & Hp & _).
  exists (sh_prefix s), (sh_index s), (sh_index s').
  assert (Hnum : ∀ x, x ∈ all → numbers m (sh_prefix x) (sh_index x)).
  { intros x Hx. by apply (proj2 (Hn (sh_prefix x) (sh_index x)) (ex_intro _ x (conj Hx (conj eq_refl eq_refl)))). }
  split_and!; [by apply Hp|by apply (proj2 (Hn (sh_prefix s) (sh_index s)) (ex_intro _ s (conj Hall (conj eq_refl eq_refl))))| |by apply Hnum|rewrite <-Hpre; by apply Hnum|].
  - assert (sh_index s ≠ sh_index s'); [|lia]. intros Heq. apply Hun. by rewrite Heq, <-Hpre.
  - rewrite <-Hpre. destruct (Hp s' Hs') as (Hpath & c & Hc & _). rewrite <-Hpath, without_lookup.
    rewrite bool_decide_eq_false_2; [by rewrite Hc|]. intros (x & Hx & Hxin)%list_elem_of_fmap.
    destruct (Hsub x Hxin) as [Hxa Hxu]. destruct (listed_path m all protected s' x Hlaw Hl Hs' Hxa Hx) as [H1 H2].
    apply Hxu. by rewrite <-H1, <-H2.
Qed.

(** C32 (functional): a record that is written is one line of its own at the end of the
    newest shard of its kind, after whatever a write that was cut left there, and the cap
    never takes that shard; every other file is as it was, or it is a shard that was not
    the newest of its kind and is gone. *)
Theorem record_written (w : RolloutWriter) prefix (v : pyobj) d d1 (u : unit) :
  ascii_digits_law → plain_floats → prefix = SHARD_PREFIX ∨ prefix = PROBLEM_PREFIX →
  (∀ z, numbers (shards d) prefix z → z < 2 ^ 4000 - 1) →
  write_record w prefix v d = (Ok u, d1) →
  ∃ idx line encoded mtime, 0 <= idx ∧ (∀ z, numbers (shards d) prefix z → z <= idx) ∧
    dumps unicode_options v = Ok line ∧ (10%N ∉ line) ∧ utf8_encode (line ++ [10%N]) = Ok encoded ∧
    let path := shard_path idx prefix in
    let old := match shards d !! path with Some (c, _) => c | None => [] end in
    let start := old ++ separator old in
    shards d1 !! path = Some (start ++ encoded, mtime) ∧ (start = [] ∨ last start = Some "010"%char) ∧
    ∀ other, other ≠ path → shards d1 !! other = shards d !! other ∨
      (shards d1 !! other = None ∧ ∃ p z z', other = shard_path z p ∧ z < z' ∧ is_Some (shards d1 !! shard_path z' p)).
Proof.
  intros Hlaw Hplain Hprefix Hsmall H.
  apply write_record_Ok in H as (d2 & idx & line & encoded & mtime & Hidx & Hmax & Hnear & Hline & He & Hnew & Hprune).
  apply prune_Ok in Hprune as (_ & all & protected & first & rest & Hl & Hsort & Hgone & _); [|done].
  exists idx, line, encoded, mtime. split_and!; [done|done|done|by eapply unicode_lines|done|]. cbv zeta in Hnew |- *.
  set (path := shard_path idx prefix) in *. set (old := match _ with Some _ => _ | None => _ end) in *.
  pose proof (λ p, after_cap (shards d2) all first rest protected p Hlaw Hl Hsort) as Hcap. cbv zeta in Hcap.
  assert (Hidx2 : idx < 2 ^ 4000).
  { assert (Hbig : 1 < 2 ^ 4000) by (apply Z.pow_gt_1; lia). destruct Hnear as [H1|[H1%Hsmall|H1%Hsmall]]; lia. }
  split_and!.
  - destruct (Hcap path) as [Heq|(_ & p & z & z' & Hpath & Hpp & Hlt & Hz & Hz' & _)]; rewrite Hgone.
    + by rewrite Heq, Hnew, lookup_insert_eq, (assoc_L (++)).
    + exfalso. apply shard_path_inj in Hpath as [<- <-]; [|done|by eapply numbers_nonneg|done|done].
      destruct Hz' as (name & Hname & Hnum). rewrite Hnew in Hname. destruct (decide (name = path)) as [->|Hne].
      * unfold path in Hnum. rewrite shard_index_path in Hnum by done. injection Hnum as <-. lia.
      * rewrite lookup_insert_ne in Hname by done. assert (z' <= idx) by (apply Hmax; by exists name). lia.
  - apply separator_ends.
  - intros other Hne. rewrite Hgone. destruct (Hcap other) as [Heq|(Hnone & p & z & z' & Hpath & _ & Hlt & Hz & Hz' & Hsome)].
    + left. by rewrite Heq, Hnew, lookup_insert_ne.
    + right. split; [done|]. by exists p, z, z'.
Qed.
(** The order of removal: the shard that was modified first; of two of one time, that of
    the smaller number; of two numbers that agree, the problems before the rollouts. *)
Definition older (s s' : shard) : Prop :=
  sh_mtime s < sh_mtime s' ∨
  (sh_mtime s = sh_mtime s' ∧
   (sh_index s < sh_index s' ∨
    (sh_index s = sh_index s' ∧ sh_prefix s = PROBLEM_PREFIX ∧ sh_prefix s' = SHARD_PREFIX))).

(** The tuples of a listing are sorted by [older]. *)
Lemma listed_le (m : gmap pystr (bytes * Z)) (all : list shard) (protected : list (pystr * Z)) (s s' : shard) :
  listed m all protected → s ∈ all → s' ∈ all → shard_le s s' = true ↔ older s s' ∨ s = s'.
Proof.
  intros (Hn & Hp & _) Hs Hs'. destruct (Hp s Hs) as (Hpath & c & Hc & Hsize), (Hp s' Hs') as (Hpath' & c' & Hc' & Hsize').
  destruct (proj2 (Hn (sh_prefix s) (sh_index s))) as [Hk _]; [by exists s|].
  destruct (proj2 (Hn (sh_prefix s') (sh_index s'))) as [Hk' _]; [by exists s'|].
  assert (Hle : str_le SHARD_PREFIX PROBLEM_PREFIX = false ∧ str_le PROBLEM_PREFIX SHARD_PREFIX = true) by (split; reflexivity).
  destruct Hle as [Hle1 Hle2]. pose proof prefixes_differ as Hdiff.
  destruct s as [t i p q n], s' as [t' i' p' q' n']. unfold shard_le, older. cbn [sh_mtime sh_index sh_prefix sh_path sh_size] in *.
  destruct (Z.eqb_spec t t') as [<-|Ht]; cbn [negb]; [|rewrite Z.leb_le; naive_solver lia].
  destruct (Z.eqb_spec i i') as [<-|Hi]; cbn [negb]; [|rewrite Z.leb_le; naive_solver lia].
  case_bool_decide as Hpp; cbn [negb].
  - subst p'. rewrite <-Hpath in Hpath'. subst q'. rewrite bool_decide_eq_true_2 by done. cbn [negb].
    rewrite Hc in Hc'. injection Hc' as <-. rewrite Hsize in Hsize'. subst n'. rewrite Z.leb_refl. naive_solver.
  - destruct Hk as [-> | ->], Hk' as [-> | ->]; rewrite ?Hle1, ?Hle2; naive_solver lia.
Qed.

Lemma older_trans (a b c : shard) : older a b → older b c → older a c.
Proof.
  pose proof prefixes_differ as Hdiff. unfold older.
  intros [H1|(H1 & [H2|(H2 & H3 & H4)])] [H5|(H5 & [H6|(H6 & H7 & H8)])];
    try (left; lia); try (right; split; [lia|]; left; lia); congruence.
Qed.

(** The listing, sorted. *)
Lemma sorted_listing (m : gmap pystr (bytes * Z)) (all : list shard) (protected : list (pystr * Z)) :
  listed m all protected → StronglySorted (λ s s', older s s' ∨ s = s') (sort_by shard_le all).
Proof.
  intros Hl.
  assert (Hle : ∀ s s', s ∈ sort_by shard_le all → s' ∈ sort_by shard_le all → shard_le s s' = true ↔ older s s' ∨ s = s').
  { intros s s' Hs%elem_of_sort_by Hs'%elem_of_sort_by. by eapply listed_le. }
  assert (Htotal : ∀ x y, shard_le x y = true ∨ shard_le y x = true).
  { intros [t i p q n] [t' i' p' q' n']. unfold shard_le. cbn [sh_mtime sh_index sh_prefix sh_path sh_size].
    rewrite (Z.eqb_sym t'), (Z.eqb_sym i'), (bool_decide_ext (p' = p) (p = p')), (bool_decide_ext (q' = q) (q = q')) by naive_solver.
    repeat case_match; rewrite ?Z.leb_le; try apply str_le_total; lia. }
  assert (H : StronglySorted (λ y z, shard_le y z = true) (sort_by shard_le all)).
  { apply sorted_strongly; [|by apply sort_by_sorted]. intros x y z Hx Hy Hz.
    rewrite !Hle by done. pose proof (older_trans x y z). naive_solver. }
  revert H Hle. generalize (sort_by shard_le all). intros l H. induction H as [|s l H IH Hs]; intros Hle; constructor.
  - apply IH. intros a b Ha Hb. apply Hle; by right.
  - rewrite Forall_forall in *. intros s' Hs'. apply Hle; [by left|by right|by apply Hs].
Qed.

(** What the cap leaves of a directory: of all the shards, the ones in [gone] are deleted.
    None of them is the newest of its kind; each is older than every shard that stays and
    is not the newest of its kind; the rest is within the cap, or only the newest are left;
    and when a shard was removed, what was there was still above the cap. *)
Definition capped (w : RolloutWriter) (m m' : gmap pystr (bytes * Z)) : Prop :=
  let all := directory m SHARD_PREFIX ++ directory m PROBLEM_PREFIX in
  let newest s := ∀ s', s' ∈ all → sh_prefix s' = sh_prefix s → sh_index s' <= sh_index s in
  ∃ gone, m' = without m gone ∧
    (∀ s, s ∈ gone → s ∈ all ∧ ¬ newest s) ∧
    (∀ s s', s ∈ gone → s' ∈ all → s' ∉ gone → ¬ newest s' → older s s') ∧
    (sum_sizes all - sum_sizes gone <= max_bytes w ∨ ∀ s, s ∈ all → s ∉ gone → newest s) ∧
    StronglySorted (λ s s', older s s' ∨ s = s') gone ∧
    ∀ g s g', gone = g ++ s :: g' → max_bytes w < sum_sizes all - sum_sizes g.

Lemma strongly_filter {A} (R : A → A → Prop) (P : A → Prop) `{!∀ x, Decision (P x)} (l k : list A) :
  StronglySorted R (l ++ k) → StronglySorted R (filter P l).
Proof.
  induction l as [|x l IH]; cbn [app]; intros Hl; [constructor|]. apply StronglySorted_inv in Hl as [Hl Hx].
  rewrite filter_cons. case_decide; [|by apply IH]. constructor; [by apply IH|].
  rewrite Forall_forall in *. intros y [_ Hy]%list_elem_of_filter. apply Hx, elem_of_app. by left.
Qed.

Lemma strongly_app {A} (R : A → A → Prop) (l k : list A) (x y : A) :
  StronglySorted R (l ++ k) → x ∈ l → y ∈ k → R x y.
Proof.
  induction l as [|z l IH]; cbn [app]; intros H Hx Hy; [by apply elem_of_nil in Hx|].
  apply StronglySorted_inv in H as [H Hz]. apply elem_of_cons in Hx as [->|Hx]; [|by apply IH].
  rewrite Forall_forall in Hz. apply Hz, elem_of_app. by right.
Qed.

Lemma prune_capped (w : RolloutWriter) d d1 (u : unit) :
  ascii_digits_law → prune_to_cap w d = (Ok u, d1) → capped w (shards d) (shards d1).
Proof.
  intros Hlaw H. apply (prune_Ok w d d1 u) in H as (_ & all & protected & first & rest & Hl & Hsort & Hgone & Hcap & Hmin & Hall); [|done].
  unfold capped. rewrite <-Hall. set (gone := filter (unprotected protected) first) in *.
  pose proof (sorted_listing _ _ _ Hl) as Hss. rewrite Hsort in Hss. pose proof Hl as (_ & _ & Hnew).
  assert (Hin : ∀ s, s ∈ all ↔ s ∈ first ∨ s ∈ rest).
  { intros s. by rewrite <-elem_of_app, <-Hsort, elem_of_sort_by. }
  exists gone. split_and!; [done| | | | |done].
  - intros s [Hu Hs]%list_elem_of_filter. assert (s ∈ all) by (apply Hin; by left). split; [done|].
    intros Hn. by apply Hu, Hnew.
  - intros s s' Hs Hs' Hkept Hn. pose proof Hs as [_ Hf]%list_elem_of_filter.
    assert (Hu : unprotected protected s') by (intros Hpr; apply Hn; by apply Hnew).
    destruct (proj1 (Hin s') Hs') as [Hf'|Hr]; [destruct Hkept; by apply list_elem_of_filter|].
    destruct (strongly_app _ _ _ s s' Hss Hf Hr) as [Ho| ->]; [done|]. done.
  - destruct Hcap as [?| ->]; [by left|right]. intros s Hs Hkept. apply Hnew; [done|].
    destruct (decide ((sh_prefix s, sh_index s) ∈ protected)) as [|Hu]; [done|]. destruct Hkept.
    apply list_elem_of_filter. split; [done|]. apply Hin in Hs as [?|?%elem_of_nil]; done.
  - by eapply strongly_filter.
Qed.

(** What a record that was written leaves: its line is at the end of the last shard of its
    kind, or in a new one, and then the cap is enforced. *)
Definition appended_and_capped (w : RolloutWriter) prefix (v : pyobj) d d1 : Prop :=
  ∃ idx line encoded mtime, 0 <= idx ∧ (∀ z, numbers (shards d) prefix z → z <= idx) ∧
    dumps unicode_options v = Ok line ∧ utf8_encode (line ++ [10%N]) = Ok encoded ∧
    let path := shard_path idx prefix in
    let old := match shards d !! path with Some (c, _) => c | None => [] end in
    capped w (<[path := (old ++ separator old ++ encoded, mtime)]> (shards d)) (shards d1).

Lemma write_record_capped (w : RolloutWriter) prefix (v : pyobj) d d1 (u : unit) :
  ascii_digits_law → write_record w prefix v d = (Ok u, d1) → appended_and_capped w prefix v d d1.
Proof.
  intros Hlaw H. apply write_record_Ok in H as (d2 & idx & line & encoded & mtime & Hidx & Hmax & _ & Hline & He & Hnew & Hprune).
  apply prune_capped in Hprune; [|done]. exists idx, line, encoded, mtime. do 4 (split; [done|]).
  cbv zeta in Hnew |- *. by rewrite <-Hnew.
Qed.

(** No step of a write warns. *)
Definition quiet {A} (m : disk_m A) : Prop := ∀ d, warnings (m d).2 = warnings d.

Lemma quiet_still {A} (m : disk_m A) : still m → quiet m.
Proof. intros H d. apply H. Qed.

Lemma quiet_disk_bind {A B} (m : disk_m A) (f : A → disk_m B) : quiet m → (∀ a, quiet (f a)) → quiet (m ≫= f).
Proof.
  intros Hm Hf d. unfold mbind, disk_bind. specialize (Hm d). destruct (m d) as [[a|e] d1]; [|done].
  cbn [snd] in *. by rewrite (Hf a d1).
Qed.

Lemma quiet_put (m : gmap pystr (bytes * Z)) : quiet (put_shards m).
Proof. done. Qed.
#[local] Hint Resolve quiet_put : disk.

Ltac quiet := repeat (apply quiet_disk_bind; [solve [apply quiet_still; auto with disk|auto with disk]|intros ?]);
  repeat case_match; solve [apply quiet_still; auto with disk|auto with disk].

Lemma quiet_append path line : quiet (append_line path line).
Proof.
  unfold append_line. do 2 (apply quiet_disk_bind; [apply quiet_still; auto with disk|intros ?]).
  apply quiet_disk_bind; [apply quiet_still; auto with disk|intros m]. case_match; [|apply quiet_put].
  apply quiet_disk_bind; [|intros ?; apply quiet_still; auto with disk]. case_match; [apply quiet_put|done].
Qed.

Lemma quiet_remove (w : RolloutWriter) (protected : list (pystr * Z)) (total : Z) (l : list shard) :
  quiet (remove_oldest w protected total l).
Proof.
  revert total. induction l as [|s l IH]; intros total; cbn [remove_oldest]; [done|]. do 2 (case_match; [done|]).
  apply quiet_disk_bind; [|intros ?; apply IH]. unfold unlink. quiet.
Qed.
#[local] Hint Resolve quiet_append quiet_remove still_prefix still_active : disk.

Lemma quiet_record (w : RolloutWriter) prefix (v : pyobj) : quiet (write_record w prefix v).
Proof. unfold write_record, prune_to_cap. quiet. Qed.

Lemma quiet_write (w : RolloutWriter) (rs : list Rollout) : quiet (write_all w rs).
Proof. induction rs as [|r rs IH]; cbn [write_all]; [done|]. apply quiet_disk_bind; [apply quiet_record|done]. Qed.

Lemma write_all_snoc (w : RolloutWriter) (rs : list Rollout) (r : Rollout) d d1 (u : unit) :
  write_all w (rs ++ [r]) d = (Ok u, d1) →
  ∃ d0, write_all w rs d = (Ok (), d0) ∧ write_record w SHARD_PREFIX (rollout_dump r) d0 = (Ok (), d1).
Proof.
  revert d. induction rs as [|r' rs IH]; intros d; cbn [app write_all]; intros H.
  - apply disk_bind_Ok in H as ([] & d0 & H & [= _ <-]). by exists d.
  - apply disk_bind_Ok in H as ([] & d0 & H & H'). apply IH in H' as (d2 & H1 & H2). exists d2. split; [|done].
    apply disk_bind_Ok. by exists (), d0.
Qed.

Lemma catch_os_quiet (m : disk_m unit) d d1 (u : unit) :
  (warnings (m d).2 = warnings d) → catch_os m warn_write_error d = (Ok u, d1) → warnings d1 = warnings d → m d = (Ok u, d1).
Proof.
  unfold catch_os. destruct (m d) as [[x|e] d2]; [by destruct x, u|]. intros Hm. cbn [snd] in Hm. case_bool_decide; [|done].
  intros [= <- <-]. cbn [warnings]. rewrite Hm. intros Hw. apply (f_equal length) in Hw. rewrite length_app in Hw. simpl in Hw. lia.
Qed.

(** C33 (bounds): a [write] of rollouts, or a [write_problem], that reports no failure has
    enforced the cap after its last line. What was removed are the shards that were modified
    first, of both kinds together and never the newest of a kind, and none that was not
    needed: before each removal the directory was above the cap, and after the last it is
    within the cap, or only the newest shard of each kind is left. *)
Theorem cap_kept (w : RolloutWriter) d d1 (u : unit) :
  ascii_digits_law → warnings d1 = warnings d →
  (∀ (rs : list Rollout) (r : Rollout), write w (rs ++ [r]) d = (Ok u, d1) →
     ∃ d0, write w rs d = (Ok (), d0) ∧ appended_and_capped w SHARD_PREFIX (rollout_dump r) d0 d1) ∧
  (∀ p : Problem, write_problem w p d = (Ok u, d1) → appended_and_capped w PROBLEM_PREFIX (problem_dump p) d d1).
Proof.
  intros Hlaw Hw. split.
  - intros rs r H. apply catch_os_quiet in H; [|apply quiet_write|done]. apply write_all_snoc in H as (d0 & H1 & H2).
    exists d0. split; [unfold write, catch_os; by rewrite H1|]. by eapply write_record_capped.
  - intros p H. apply catch_os_quiet in H; [|apply quiet_record|done]. by eapply write_record_capped.
Qed.

(** (error): once a write was cut inside of a character, the shard is no longer text, and
    every later write raises [UnicodeDecodeError], which is no [OSError]: nothing is
    written, nothing is warned of, and the directory stays as it is. *)
Theorem torn_character_stops (w : RolloutWriter) (r : Rollout) (rs : list Rollout) d (l : list Z) (c : bytes) (t : Z) :
  script d = [] → (shard_indices SHARD_PREFIX d).1 = Ok l → 0 <= max_index l →
  shards d !! shard_path (max_index l) SHARD_PREFIX = Some (c, t) → is_ok (utf8_decode c) = false →
  ∃ e, exn_cls e = UnicodeDecodeError ∧ write w (r :: rs) d = (Raise e, d).
Proof.
  intros Hscript Hl Hmax Hc Hbad. unfold utf8_decode in Hbad. destruct (utf8_dec _) eqn:Hdec in Hbad; [done|].
  exists (Exn UnicodeDecodeError (ustr "invalid utf-8")). split; [done|].
  assert (Hcall : call d = (Ok {| io_error := None; io_written := None; io_mtime := 0 |}, d)) by (unfold call; by rewrite Hscript).
  assert (Hchecked : checked d = (Ok (), d)) by (unfold checked, mbind, disk_bind; by rewrite Hcall).
  assert (Hlist : shard_indices SHARD_PREFIX d = (Ok l, d)).
  { destruct (shard_indices SHARD_PREFIX d) as [x d'] eqn:Hx. cbn [fst] in Hl. subst x. f_equal.
    unfold shard_indices, listdir, mbind, disk_bind in Hx. rewrite Hchecked in Hx. by injection Hx. }
  assert (Hactive : active_shard_path w SHARD_PREFIX d = (Raise (Exn UnicodeDecodeError (ustr "invalid utf-8")), d)).
  { unfold active_shard_path, shard_count, mbind, disk_bind. rewrite Hlist. cbn [mret disk_ret].
    replace (Z.max 0 (max_index l + 1 - 1)) with (max_index l) by lia. unfold get_shards. rewrite Hc.
    unfold line_count, stat, mbind, disk_bind. rewrite Hchecked. unfold get_shards. rewrite Hc. unfold mret, disk_ret. cbn [fst].
    unfold lift, utf8_decode. by rewrite Hdec. }
  unfold write, catch_os. cbn [write_all]. unfold write_record.
  unfold mbind, disk_bind. by rewrite Hactive.
Qed.
End writer.

(** ** Witnesses *)

Definition plain_digits : UnicodeDigits := {| py_decimal := λ _, None |}.
Definition ascii_isdigit : UnicodeIsDigit := {| py_isdigit := is_digit |}.
Definition zero_repr : FloatRepr := {| float_repr := λ _, ustr "0.0" |}.
Definition small_writer : RolloutWriter := {| shard_size := 2; max_bytes := 5 |}.
Definition empty_disk : disk := {| shards := ∅; script := []; warnings := [] |}.

Abbreviation demo_write := (write_record (H := zero_repr) (H0 := plain_digits) (H1 := ascii_isdigit) small_writer SHARD_PREFIX (PInt 7) empty_disk).

Lemma record_written_witness :
  ∃ d1 idx encoded mtime, demo_write = (Ok (), d1) ∧ utf8_encode [55%N; 10%N] = Ok encoded ∧
    shards d1 !! shard_path idx SHARD_PREFIX = Some (encoded, mtime).
Proof.
  assert (Hok : is_ok demo_write.1 = true) by (vm_compute; reflexivity).
  destruct demo_write as [[[]|e] d1] eqn:Hrun; [|done].
  assert (Hn : ∀ z, ¬ numbers (UG := plain_digits) (UI := ascii_isdigit) (shards empty_disk) SHARD_PREFIX z)
    by (intros z (name & [f Hf] & _); cbn [shards empty_disk] in Hf; by rewrite lookup_empty in Hf).
  destruct (record_written (FR := zero_repr) (UG := plain_digits) (UI := ascii_isdigit) small_writer SHARD_PREFIX (PInt 7) empty_disk d1 ())
    as (idx & line & encoded & mtime & _ & _ & Hline & _ & He & Hnew & _).
  - intros c _. reflexivity.
  - intros x. apply (bool_decide_unpack _). vm_compute. exact I.
  - by left.
  - intros z Hz. by destruct (Hn z).
  - exact Hrun.
  - injection Hline as <-. exists d1, idx, encoded, mtime. split; [done|]. split; [exact He|].
    cbn [shards empty_disk] in Hnew. rewrite lookup_empty in Hnew. exact Hnew.
Defined.

Definition accented : Rollout :=
  {| ro_problem_id := [233%N]; ro_prompt := []; ro_system_prompt := []; ro_prompt_variant := 0; ro_completion := []; ro_reward := f0;
     ro_all_passed := false; ro_num_passed := 0; ro_num_tests := 1; ro_pool_pass_rate := f0; ro_band := UNKNOWN; ro_miner_uid := 3;
     ro_miner_hotkey := []; ro_created_at := f0 |}.

(** A shard of each kind and a second one of rollouts, four bytes each, with room for five. *)
Definition full_disk : disk :=
  {| shards := {[ shard_path 0 SHARD_PREFIX := (bstr "abc" ++ ["010"%char], 5);
                  shard_path 1 SHARD_PREFIX := (bstr "def" ++ ["010"%char], 6);
                  shard_path 0 PROBLEM_PREFIX := (bstr "ghi" ++ ["010"%char], 1) ]};
     script := []; warnings := [] |}.

Abbreviation demo_rollout := (write (H := zero_repr) (H0 := plain_digits) (H1 := ascii_isdigit) small_writer [accented] full_disk).

Lemma cap_kept_witness :
  ∃ d1, demo_rollout = (Ok (), d1) ∧ shards d1 !! shard_path 0 SHARD_PREFIX = None ∧
    is_Some (shards d1 !! shard_path 0 PROBLEM_PREFIX) ∧ is_Some (shards d1 !! shard_path 1 SHARD_PREFIX) ∧
    appended_and_capped (FR := zero_repr) (UG := plain_digits) (UI := ascii_isdigit) small_writer SHARD_PREFIX (rollout_dump accented) full_disk d1.
Proof.
  assert (Hok : is_ok demo_rollout.1 = true) by (vm_compute; reflexivity).
  assert (Hd : warnings demo_rollout.2 = warnings full_disk ∧ shards demo_rollout.2 !! shard_path 0 SHARD_PREFIX = None ∧
    bool_decide (is_Some (shards demo_rollout.2 !! shard_path 0 PROBLEM_PREFIX)) = true ∧
    bool_decide (is_Some (shards demo_rollout.2 !! shard_path 1 SHARD_PREFIX)) = true) by (vm_compute; repeat split).
  destruct demo_rollout as [[[]|e] d1] eqn:Hrun; [|done]. cbn [snd] in Hd.
  destruct Hd as (Hw & Hgone & Hp%bool_decide_eq_true_1 & Hs%bool_decide_eq_true_1). exists d1. split_and!; [done..|].
  destruct (cap_kept (FR := zero_repr) (UG := plain_digits) (UI := ascii_isdigit) small_writer full_disk d1 () (λ c _, eq_refl) Hw) as [H _].
  destruct (H [] accented Hrun) as (d0 & [= <-] & Hcap). exact Hcap.
Defined.

(** The disk is full after seventeen bytes, in the middle of a character. *)
Definition torn_disk : disk :=
  (write (H := zero_repr) (H0 := plain_digits) (H1 := ascii_isdigit) small_writer [accented]
    {| shards := ∅; script := [{| io_error := None; io_written := None; io_mtime := 0 |};
         {| io_error := Some (ustr "No space left on device"); io_written := Some 17%nat; io_mtime := 1 |}];
       warnings := [] |}).2.

Lemma torn_character_stops_witness :
  ∃ e, exn_cls e = UnicodeDecodeError ∧
    write (H := zero_repr) (H0 := plain_digits) (H1 := ascii_isdigit) small_writer [accented] torn_disk = (Raise e, torn_disk).
Proof.
  assert (Hc : ∃ c, shards torn_disk !! shard_path 0 SHARD_PREFIX = Some (c, 1) ∧ is_ok (utf8_decode c) = false)
    by (vm_compute; eexists; split; reflexivity).
  destruct Hc as (c & Hc & Hbad).
  apply (torn_character_stops (FR := zero_repr) (UG := plain_digits) (UI := ascii_isdigit) small_writer accented [] torn_disk [0] c 1).
  - vm_compute. reflexivity.
  - vm_compute. reflexivity.
  - vm_compute. discriminate.
  - exact Hc.
  - exact Hbad.
Defined.
