(* ===== verification/Orchestrator.v ===== *)
(** * Dispatch of a challenge ([src/rlvr/orchestrator.py])

    The rotation that deals solvers off a shuffled queue, the attempt of one solver, the
    evaluation of a challenge by a pool, and the step that scores and stores it.  The
    generator, the solvers and the verifier are parameters; an attempt may also end in an
    exception that [except Exception] does not catch: one that [asyncio.gather] returns
    among the results, as a cancellation, or one that ends the event loop.

    The theorems are in OrchestratorSpec. *)

From Stdlib Require Import SpecFloat.
From S2P Require Import Prelude PyFloat Text Json Codecs Scoring EvalEngine Executor Release Writer.

Local Open Scope Z_scope.

(** ** The rotation *)

Record Solver := { sv_uid : Z; sv_hotkey : pystr }.

(** [dict[uid] = solver]: a key keeps its place. *)
Fixpoint put_solver (s : Solver) (d : list Solver) : list Solver :=
  match d with
  | [] => [s]
  | x :: d' => if sv_uid x =? sv_uid s then s :: d' else x :: put_solver s d'
  end.

Definition by_uid (solvers : list Solver) : list Solver := foldl (λ d s, put_solver s d) [] solvers.

(** [random.Random.shuffle] *)
Class Rng := {
  rng : Type;
  rng_shuffle : list Z → rng → list Z * rng;
  rng_shuffle_perm (l : list Z) (r : rng) : (rng_shuffle l r).1 ≡ₚ l
}.

Section rotation.
Context `{!Rng}.

(** The loop; [None] where the fuel does not suffice or the queue cannot be filled. *)
Fixpoint draw (fuel : nat) (uids : list Z) (k : nat) (queue picked : list Z) (r : rng)
    : option (list Z * list Z * rng) :=
  if (k <=? length picked)%nat then Some (picked, queue, r)
  else
    match fuel with
    | O => None
    | S f =>
        let '(queue, r) := match queue with [] => rng_shuffle uids r | _ => (queue, r) end in
        match queue with
        | [] => None
        | uid :: queue =>
            if bool_decide (uid ∈ picked) then draw f uids k (queue ++ [uid]) picked r
            else draw f uids k queue (picked ++ [uid]) r
        end
    end.

Record RotationSampler := { queue : list Z; generator : rng }.

(** [by_uid[u]] *)
Definition solver_of (pool : list Solver) (u : Z) : option Solver := snd <$> list_find (λ s, sv_uid s = u) pool.

Definition sample (x : RotationSampler) (solvers : list Solver) (k : Z) : option (list Solver * RotationSampler) :=
  let unique := by_uid solvers in
  if (k <=? 0) || (zlen unique <=? k) then Some (unique, x)
  else
    let uids := map sv_uid unique in
    let q := filter (λ u, u ∈ uids) (queue x) in
    match draw (length q + length uids) uids (Z.to_nat k) q [] (generator x) with
    | Some (picked, q, r) => Some (omap (solver_of unique) picked, {| queue := q; generator := r |})
    | None => None
    end.
End rotation.

(** ** A challenge *)

Record OrchestratorSettings := { difficulty_samples_m : Z; band_low : float; band_high : float }.

(** How an awaited call ends: [Killed] with an exception that is no [Exception], as a
    cancellation, which becomes the result of the task; [Interrupted] with [SystemExit] or
    [KeyboardInterrupt], which asyncio raises out of the event loop. *)
Inductive Awaited (A : Type) :=
  | Returned (a : A) | Failed (message : pystr) | Killed (message : pystr) | Interrupted (message : pystr).
Arguments Returned {A} _.
Arguments Failed {A} _.
Arguments Killed {A} _.
Arguments Interrupted {A} _.

Definition empty_solution (p : Problem) (raw : pystr) : SolutionResponse :=
  {| s_problem_id := p_id p; code := []; raw_response := raw; latency_ms := f0 |}.

Definition failed_verification (p : Problem) (e : pystr) : Verification :=
  {| v_problem_id := p_id p; num_tests := zlen (p_tests p); num_passed := 0; all_passed := false; v_reward := f0;
     compile_error := Some e; results := []; flagged_flaky := false |}.

Definition dead_outcome (p : Problem) (s : Solver) (message : pystr) : MinerOutcome :=
  let text := ustr "ATTEMPT_ERROR: " ++ message in
  {| uid := sv_uid s; hotkey := sv_hotkey s; solution := empty_solution p text; verification := failed_verification p text;
     o_reward := f0 |}.

Section challenge.
Context (solve : Solver → Problem → pystr → Awaited SolutionResponse).
Context (verifier : Problem → SolutionResponse → Awaited Verification).

Definition attempt_one (s : Solver) (p : Problem) (prompt : pystr) : Awaited MinerOutcome :=
  let judge solution :=
    let outcome v := Returned {| uid := sv_uid s; hotkey := sv_hotkey s; solution := solution; verification := v; o_reward := v_reward v |} in
    match verifier p solution with
    | Returned v => outcome v
    | Failed e => outcome (failed_verification p (ustr "VERIFY_ERROR: " ++ e))
    | Killed e => Killed e
    | Interrupted e => Interrupted e
    end in
  match solve s p prompt with
  | Returned solution => judge solution
  | Failed e => judge (empty_solution p (ustr "SOLVER_ERROR: " ++ e))
  | Killed e => Killed e
  | Interrupted e => Interrupted e
  end.

(** [asyncio.gather(..., return_exceptions=True)]: the results of all the attempts, unless
    one of them ends the event loop (of several, the one that comes first does; here it is
    the first of the pool). *)
Definition gather_attempts (raw : list (Solver * Awaited MinerOutcome)) : result (list (Solver * Awaited MinerOutcome)) :=
  match omap (λ '(_, o), match o with Interrupted e => Some e | _ => None end) raw with
  | [] => mret raw
  | e :: _ => Raise (Exn OtherError e)
  end.

(** The outcomes of the attempts that returned, then those of the others. *)
Definition outcomes_of (p : Problem) (raw : list (Solver * Awaited MinerOutcome)) : list MinerOutcome :=
  omap (λ '(_, o), match o with Returned x => Some x | _ => None end) raw
  ++ omap (λ '(s, o), match o with Failed e | Killed e => Some (dead_outcome p s e) | _ => None end) raw.

Definition with_measurement (p : Problem) (rate : float) (band : DifficultyBand) (n : Z) : Problem :=
  {| p_id := p_id p; p_language := p_language p; p_statement := p_statement p; p_entrypoint := p_entrypoint p;
     p_tests := p_tests p; p_public_examples := p_public_examples p; p_created_at := p_created_at p;
     p_measured_pass_rate := Some rate; p_band := band; p_num_attempts := n; p_prompt_variant := p_prompt_variant p |}.

(** The result, and the problem with what was measured. *)
Definition evaluate `{!FloatRepr} (st : OrchestratorSettings) (p : Problem) (solvers : list Solver)
    : result (ChallengeResult * Problem) :=
  prompt ← build_prompt p;
  raw ← gather_attempts (map (λ s, (s, attempt_one s p prompt)) solvers);
  let outcomes := outcomes_of p raw in
  let rate := pass_rate outcomes in
  let band := if zlen outcomes <? difficulty_samples_m st then UNKNOWN else classify_band rate (band_low st) (band_high st) in
  mret ({| cr_problem_id := p_id p; cr_outcomes := outcomes; cr_pass_rate := rate; cr_band := band;
           cr_num_responses := zlen outcomes; cr_dup_ratio := f0 |}, with_measurement p rate band (zlen outcomes)).
End challenge.

(** ** Scoring and export *)

Section export.
Context `{!PyMath, !FloatRepr, !UnicodeDigits, !UnicodeIsDigit}.

(** The UIDs of a dict built from the outcomes, in the order of their first. *)
Fixpoint first_uids (seen : list Z) (outcomes : list MinerOutcome) : list Z :=
  match outcomes with
  | [] => []
  | o :: outcomes' => if bool_decide (uid o ∈ seen) then first_uids seen outcomes' else uid o :: first_uids (uid o :: seen) outcomes'
  end.

Definition payment_items (policy : ValidatorPolicy) (outcomes : list MinerOutcome) : list (Z * float) :=
  let payments := compute_payments outcomes (payment_speed_half_life_ms policy) (payment_speed_floor policy) in
  omap (λ u, pair u <$> payments !! u) (first_uids [] outcomes).

(** The last outcome of a UID gives its hotkey. *)
Definition hotkey_items (outcomes : list MinerOutcome) : list (Z * pystr) :=
  let named := filter (λ o, hotkey o ≠ []) outcomes in
  omap (λ u, pair u ∘ hotkey <$> last (filter (λ o, uid o = u) named)) (first_uids [] named).

Definition score (policy : ValidatorPolicy) (now : float) (active : option (gset Z)) (cr : ChallengeResult) (e : engine)
    : result engine :=
  let dispatched : gset Z := list_to_set (map uid (cr_outcomes cr)) in
  raise_if match active with Some a => negb (bool_decide (dispatched ⊆ a)) | None => false end ValueError
    "every dispatched uid must be in the active uid set";;
  '(e, observed_at) ← update e now (payment_items policy (cr_outcomes cr)) (Some (hotkey_items (cr_outcomes cr))) (Some dispatched) None;
  match active with
  | None => mret e
  | Some a => record_nonserving e now a (Some observed_at)
  end.

Definition export (w : RolloutWriter) (p : Problem) (cr : ChallengeResult) : disk_m unit :=
  rollouts ← Writer.lift (to_rollouts p cr);
  write w rollouts;;
  write_problem w p.

(** The scores change before anything is stored: an exception of the export leaves them
    changed. *)
Definition score_and_export (policy : ValidatorPolicy) (w : RolloutWriter) (now : float) (p : Problem) (cr : ChallengeResult)
    (active : option (gset Z)) (e : engine) (d : disk) : result (engine * (result unit * disk)) :=
  e ← score policy now active cr e;
  mret (e, export w p cr d).
End export.
