(* ===== verification/OrchestratorSpec.v ===== *)
(** * Dispatch of a challenge: the rotation, and an outcome for everyone

    [sampled]: a draw ends, with the solvers that were asked for.  [rotation_fair]: the
    loads of two solvers differ by one at most.  [everyone_judged]: an outcome for each
    solver. *)

From Stdlib Require Import SpecFloat.
From S2P Require Import Prelude PyFloat Text Json Codecs Scoring EvalEngine Executor Release Writer Orchestrator.

Local Open Scope Z_scope.

(** ** The pool *)

Lemma put_solver_uids (s : Solver) (d : list Solver) (u : Z) :
  u ∈ map sv_uid (put_solver s d) ↔ u = sv_uid s ∨ u ∈ map sv_uid d.
Proof.
  induction d as [|x d IH]; cbn [put_solver map]; [by rewrite list_elem_of_singleton, elem_of_nil; naive_solver|].
  destruct (Z.eqb_spec (sv_uid x) (sv_uid s)) as [Heq|Hne]; cbn [map]; rewrite !elem_of_cons.
  - rewrite Heq. naive_solver.
  - rewrite IH. naive_solver.
Qed.

Lemma put_solver_nodup (s : Solver) (d : list Solver) : NoDup (map sv_uid d) → NoDup (map sv_uid (put_solver s d)).
Proof.
  induction d as [|x d IH]; cbn [put_solver map]; [intros _; by apply NoDup_singleton|].
  intros [Hx Hd]%NoDup_cons. destruct (Z.eqb_spec (sv_uid x) (sv_uid s)) as [Heq|Hne]; cbn [map]; apply NoDup_cons.
  - by rewrite <-Heq.
  - split; [|by apply IH]. rewrite put_solver_uids. naive_solver.
Qed.

Lemma by_uid_spec (solvers : list Solver) :
  NoDup (map sv_uid (by_uid solvers)) ∧ ∀ u, u ∈ map sv_uid (by_uid solvers) ↔ u ∈ map sv_uid solvers.
Proof.
  assert (H : ∀ d, NoDup (map sv_uid d) → NoDup (map sv_uid (foldl (λ d s, put_solver s d) d solvers)) ∧
    ∀ u, u ∈ map sv_uid (foldl (λ d s, put_solver s d) d solvers) ↔ u ∈ map sv_uid d ∨ u ∈ map sv_uid solvers).
  { induction solvers as [|s solvers IH]; intros d Hd; cbn [foldl map]; [split; [done|]; intros u; rewrite elem_of_nil; naive_solver|].
    destruct (IH (put_solver s d)) as [H1 H2]; [by apply put_solver_nodup|]. split; [done|]. intros u.
    rewrite H2, put_solver_uids, elem_of_cons. naive_solver. }
  destruct (H [] (NoDup_nil_2)) as [H1 H2]. split; [done|]. intros u. unfold by_uid. rewrite H2. cbn [map]. rewrite elem_of_nil. naive_solver.
Qed.

Lemma solver_of_uids (pool : list Solver) (us : list Z) :
  (∀ u, u ∈ us → u ∈ map sv_uid pool) → map sv_uid (omap (solver_of pool) us) = us.
Proof.
  induction us as [|u us IH]; intros Hin; [done|]. cbn [omap list_omap].
  assert (Hu : u ∈ map sv_uid pool) by (apply Hin; left). apply list_elem_of_fmap in Hu as (s & -> & Hs).
  unfold solver_of at 1. destruct (list_find_elem_of (λ x, sv_uid x = sv_uid s) pool s Hs eq_refl) as [[i x] Hx]. rewrite Hx.
  apply list_find_Some in Hx as (_ & Hx & _). cbn [fmap option_fmap option_map snd map]. rewrite Hx. f_equal. apply IH.
  intros v Hv. apply Hin. by right.
Qed.

(** ** The loop *)

Section rotation.
Context `{RG : !Rng}.
Implicit Types (uids q picked : list Z) (r : rng).

(** How often a solver was drawn, and where it is: in the queue, it has a draw left. *)
Definition count (u : Z) (l : list Z) : Z := zlen (filter (λ v, v = u) l).

Lemma count_app (u : Z) (l k : list Z) : count u (l ++ k) = count u l + count u k.
Proof. unfold count, zlen. rewrite filter_app, length_app. lia. Qed.

Lemma count_perm (u : Z) (l k : list Z) : l ≡ₚ k → count u l = count u k.
Proof. intros H. unfold count, zlen. by rewrite H. Qed.

Lemma count_cons (u v : Z) (l : list Z) : count u (v :: l) = (if bool_decide (v = u) then 1 else 0) + count u l.
Proof. change (v :: l) with ([v] ++ l). rewrite count_app. f_equal. unfold count, zlen. cbn. by case_decide; case_bool_decide. Qed.

Lemma count_nodup (u : Z) (l : list Z) : NoDup l → count u l = if bool_decide (u ∈ l) then 1 else 0.
Proof.
  induction l as [|v l IH]; [done|]. intros [Hv Hl]%NoDup_cons. rewrite count_cons, IH by done.
  repeat case_bool_decide; subst; try done; set_solver.
Qed.

(** A state of the loop: everything is of the pool, nothing twice. *)
Definition sane uids q picked : Prop :=
  NoDup q ∧ NoDup picked ∧ (∀ u, u ∈ q → u ∈ uids) ∧ (∀ u, u ∈ picked → u ∈ uids).

Lemma nodup_length (l k : list Z) : NoDup l → (∀ u, u ∈ l → u ∈ k) → (length l <= length k)%nat.
Proof. intros Hl Hin. by apply submseteq_length, NoDup_submseteq. Qed.

(** The queue holds everyone that is not picked: the part of it that was put back comes
    last, and the rest is done in one pass. *)
Lemma draw_full uids (k : nat) (q1 : list Z) : ∀ (fuel : nat) (q2 : list Z) picked r,
  NoDup uids → (k < length uids)%nat → sane uids (q1 ++ q2) picked → (length picked <= k)%nat →
  (length q1 <= fuel)%nat → (∀ u, u ∈ uids → u ∈ q1 ∨ u ∈ picked) →
  ∃ picked' q' r', draw fuel uids k (q1 ++ q2) picked r = Some (picked', q', r') ∧ length picked' = k ∧
    sane uids q' picked' ∧ ∀ u, count u picked' + count u q' = count u picked + count u (q1 ++ q2).
Proof.
  induction q1 as [|u q1 IH]; intros fuel q2 picked r Hnd Hk (Hq & Hp & Hqin & Hpin) Hle Hfuel Hall.
  - exfalso. pose proof (nodup_length uids picked Hnd) as H. specialize (H (λ u Hu, match Hall u Hu with
      | or_introl Hn => match not_elem_of_nil u Hn with end | or_intror Hy => Hy end)). lia.
  - destruct (Nat.leb_spec k (length picked)) as [Hdone|Hmore].
    + exists picked, ((u :: q1) ++ q2), r. assert (draw fuel uids k ((u :: q1) ++ q2) picked r = Some (picked, (u :: q1) ++ q2, r)) as ->.
      { destruct fuel; cbn [draw]; by rewrite (proj2 (Nat.leb_le _ _)). }
      split_and!; [done|lia|done..].
    + destruct fuel as [|fuel]; [simpl in Hfuel; lia|]. cbn [draw app]. rewrite (proj2 (Nat.leb_gt _ _)) by lia.
      cbn [app] in Hq, Hqin. apply NoDup_cons in Hq as [Hu Hq]. case_bool_decide as Hin.
      * rewrite <-(assoc_L (++)). destruct (IH fuel (q2 ++ [u]) picked r) as (p' & q' & r' & Hd & Hl & Hs & Hc); [done|done| |done| | |].
        { split_and!; [|done| |done].
          - rewrite (assoc_L (++)). apply NoDup_app. split_and!; [done| |by apply NoDup_singleton].
            intros v Hv ->%list_elem_of_singleton. done.
          - intros v. rewrite !elem_of_app, list_elem_of_singleton. intros Hv. apply Hqin. rewrite elem_of_cons, elem_of_app. naive_solver. }
        { simpl in Hfuel. lia. }
        { intros v Hv. destruct (Hall v Hv) as [[->|H]%elem_of_cons|H]; auto. }
        exists p', q', r'. split_and!; [done|done|done|]. intros v. rewrite Hc, !count_app, !count_cons, !count_app. change (count v []) with 0. lia.
      * destruct (IH fuel q2 (picked ++ [u]) r) as (p' & q' & r' & Hd & Hl & Hs & Hc); [done|done| | | | |].
        { split_and!; [done| | |].
          - apply NoDup_app. split_and!; [done| |by apply NoDup_singleton]. by intros v Hv ->%list_elem_of_singleton.
          - intros v Hv. apply Hqin. by right.
          - intros v [Hv| ->%list_elem_of_singleton]%elem_of_app; [by apply Hpin|]. apply Hqin. left. }
        { rewrite length_app. simpl. lia. }
        { simpl in Hfuel. lia. }
        { intros v Hv. rewrite elem_of_app, list_elem_of_singleton. destruct (Hall v Hv) as [[->|H]%elem_of_cons|H]; auto. }
        exists p', q', r'. split_and!; [done|done|done|]. intros v. rewrite Hc, !count_app, !count_cons, !count_app. change (count v []) with 0. lia.
Qed.

(** From a queue without anyone that is picked: at most one new epoch starts. *)
Lemma draw_epoch uids (k : nat) (q : list Z) : ∀ (fuel : nat) picked r,
  NoDup uids → (k < length uids)%nat → sane uids q picked → (∀ u, u ∈ q → u ∉ picked) → (length picked <= k)%nat →
  (length q + length uids <= fuel)%nat →
  ∃ picked' q' r' (b : Z), draw fuel uids k q picked r = Some (picked', q', r') ∧ length picked' = k ∧
    sane uids q' picked' ∧ ∀ u, u ∈ uids → count u picked' + count u q' = count u picked + count u q + b.
Proof.
  induction q as [|u q IH]; intros fuel picked r Hnd Hk (Hq & Hp & Hqin & Hpin) Hdis Hle Hfuel.
  - destruct (Nat.leb_spec k (length picked)) as [Hdone|Hmore].
    { exists picked, [], r, 0. split_and!; [|lia|done|intros; lia].
      destruct fuel; cbn [draw]; by rewrite (proj2 (Nat.leb_le _ _)). }
    set (fresh := (rng_shuffle uids r).1). pose proof (rng_shuffle_perm uids r) as Hperm. fold fresh in Hperm.
    pose proof (Permutation_length Hperm) as Hlen.
    destruct (draw_full uids k fresh fuel [] picked (rng_shuffle uids r).2) as (p' & q' & r' & Hd & Hl & Hs & Hc); [done|done| |done| | |].
    { rewrite app_nil_r. split_and!; [by rewrite Hperm|done|intros v; by rewrite Hperm|done]. }
    { simpl in Hfuel. lia. }
    { intros v Hv. left. by rewrite Hperm. }
    exists p', q', r', 1. rewrite app_nil_r in Hd, Hc. split_and!; [|done|done|].
    + rewrite <-Hd. destruct fuel as [|fuel]; [simpl in Hfuel; lia|]. cbn [draw]. rewrite (proj2 (Nat.leb_gt _ _)) by lia.
      unfold fresh. destruct (rng_shuffle uids r) as [[|x l] r1] eqn:Hsh; [simpl in Hlen; lia|]. done.
    + intros v Hv. rewrite Hc, (count_perm v _ _ Hperm), (count_nodup v uids) by done.
      rewrite bool_decide_eq_true_2 by done. change (count v []) with 0. lia.
  - destruct (Nat.leb_spec k (length picked)) as [Hdone|Hmore].
    { exists picked, (u :: q), r, 0. split_and!; [|lia|done|intros; lia].
      destruct fuel; cbn [draw]; by rewrite (proj2 (Nat.leb_le _ _)). }
    destruct fuel as [|fuel]; [simpl in Hfuel; lia|]. cbn [draw]. rewrite (proj2 (Nat.leb_gt _ _)) by lia.
    apply NoDup_cons in Hq as [Hu Hq]. assert (Hup : u ∉ picked) by (apply Hdis; left).
    rewrite bool_decide_eq_false_2 by done.
    destruct (IH fuel (picked ++ [u]) r) as (p' & q' & r' & b & Hd & Hl & Hs & Hc); [done|done| | | | |].
    { split_and!; [done| | |].
      - apply NoDup_app. split_and!; [done| |by apply NoDup_singleton]. by intros v Hv ->%list_elem_of_singleton.
      - intros v Hv. apply Hqin. by right.
      - intros v [Hv| ->%list_elem_of_singleton]%elem_of_app; [by apply Hpin|]. apply Hqin. left. }
    { intros v Hv. rewrite not_elem_of_app, list_elem_of_singleton. split; [apply Hdis; by right|]. by intros ->. }
    { rewrite length_app. simpl. lia. }
    { simpl in Hfuel. lia. }
    exists p', q', r', b. split_and!; [done|done|done|]. intros v Hv. rewrite Hc by done. rewrite !count_app, !count_cons. change (count v []) with 0. lia.
Qed.
(** One draw from a pool. *)
Lemma sample_spec (x : RotationSampler) (solvers : list Solver) (k : Z) :
  NoDup (queue x) →
  let uids := map sv_uid (by_uid solvers) in
  ∃ (picked : list Solver) (x' : RotationSampler) (b : Z), sample x solvers k = Some (picked, x') ∧ NoDup (queue x') ∧
    length picked = (if (k <=? 0) || (zlen uids <=? k) then length uids else Z.to_nat k) ∧
    NoDup (map sv_uid picked) ∧ (∀ u, u ∈ map sv_uid picked → u ∈ uids) ∧
    ((∀ u, u ∈ queue x → u ∈ uids) →
     (∀ u, u ∈ queue x' → u ∈ uids) ∧ ∀ u, u ∈ uids → count u (map sv_uid picked) + count u (queue x') = count u (queue x) + b).
Proof.
  intros Hq uids. destruct (by_uid_spec solvers) as [Hnd _]. fold uids in Hnd. unfold sample. fold uids.
  assert (Hz : zlen (by_uid solvers) = zlen uids) by (unfold uids, zlen; by rewrite length_map). rewrite Hz.
  destruct ((k <=? 0) || (zlen uids <=? k)) eqn:Hk.
  - exists (by_uid solvers), x, 1. split_and!; [done|done|by unfold uids; rewrite length_map|done|done|].
    intros Hin. split; [done|]. intros u Hu. fold uids. rewrite (count_nodup u uids), bool_decide_eq_true_2 by done. lia.
  - apply orb_false_iff in Hk as [Hk1%Z.leb_gt Hk2%Z.leb_gt]. set (q := filter (λ u, u ∈ uids) (queue x)).
    destruct (draw_epoch uids (Z.to_nat k) q (length q + length uids) [] (generator x)) as (p & q' & r' & b & -> & Hl & (Hq' & Hp' & Hin' & Hpin') & Hc);
      [done|unfold zlen in Hk2; lia| | |simpl; lia|lia|].
    { split_and!; [by apply NoDup_filter|apply NoDup_nil_2|by intros u [? _]%list_elem_of_filter|by intros u ?%elem_of_nil]. }
    { intros u _. apply not_elem_of_nil. }
    pose proof (solver_of_uids (by_uid solvers) p Hpin') as Hmap.
    eexists _, _, b. split; [reflexivity|]. cbn [queue]. rewrite Hmap. split_and!; [done| |done|done|].
    + rewrite <-Hl. apply (f_equal length) in Hmap. by rewrite length_map in Hmap.
    + intros Hall. split; [done|]. intros u Hu. rewrite Hc by done. change (count u []) with 0.
      assert (q = queue x) as ->; [|lia]. unfold q. clear -Hall. induction (queue x) as [|v l IH]; [done|].
      rewrite filter_cons_True by (apply Hall; left). f_equal. apply IH. intros u Hu. apply Hall. by right.
Qed.

(** Draws from one pool, one after another. *)
Fixpoint deal (x : RotationSampler) (solvers : list Solver) (ks : list Z) : option (list (list Solver) * RotationSampler) :=
  match ks with
  | [] => Some ([], x)
  | k :: ks' =>
      match sample x solvers k with
      | Some (picked, x) =>
          match deal x solvers ks' with Some (rest, x) => Some (picked :: rest, x) | None => None end
      | None => None
      end
  end.

Definition load (u : Z) (rounds : list (list Solver)) : Z := count u (map sv_uid (concat rounds)).

Lemma deal_balanced (solvers : list Solver) (ks : list Z) : ∀ (x : RotationSampler),
  NoDup (queue x) → let uids := map sv_uid (by_uid solvers) in (∀ u, u ∈ queue x → u ∈ uids) →
  ∃ rounds x' (b : Z), deal x solvers ks = Some (rounds, x') ∧ NoDup (queue x') ∧
    ∀ u, u ∈ uids → load u rounds + count u (queue x') = count u (queue x) + b.
Proof.
  induction ks as [|k ks IH]; intros x Hq uids Hin; cbn [deal].
  { exists [], x, 0. split_and!; [done|done|]. intros u _. change (load u []) with 0. lia. }
  destruct (sample_spec x solvers k Hq) as (picked & x1 & b1 & -> & Hq1 & _ & _ & _ & Hb). destruct (Hb Hin) as [Hin1 Hc1].
  destruct (IH x1 Hq1 Hin1) as (rounds & x2 & b2 & -> & Hq2 & Hc2). exists (picked :: rounds), x2, (b1 + b2).
  split_and!; [done|done|]. intros u Hu. unfold load in *. cbn [concat]. rewrite map_app, count_app.
  specialize (Hc1 u Hu). specialize (Hc2 u Hu). cbv zeta in *. lia.
Qed.

(** ** Properties *)

(** (termination): a draw always ends, whatever the generator does and whoever joined or
    left the pool: it gives as many different solvers of the pool as were asked for, or
    everyone, and leaves a queue without repetitions. *)
Theorem sampled (x : RotationSampler) (solvers : list Solver) (k : Z) :
  NoDup (queue x) →
  ∃ (picked : list Solver) (x' : RotationSampler), sample x solvers k = Some (picked, x') ∧ NoDup (queue x') ∧
    length picked = (if (k <=? 0) || (zlen (by_uid solvers) <=? k) then length (by_uid solvers) else Z.to_nat k) ∧
    NoDup (map sv_uid picked) ∧ ∀ u, u ∈ map sv_uid picked → u ∈ map sv_uid solvers.
Proof.
  intros Hq. destruct (sample_spec x solvers k Hq) as (picked & x' & b & Hs & Hq' & Hl & Hnd & Hin & _). exists picked, x'.
  assert (Hz : zlen (by_uid solvers) = zlen (map sv_uid (by_uid solvers))) by (unfold zlen; by rewrite length_map).
  rewrite Hz, <-(length_map sv_uid (by_uid solvers)).
  split; [exact Hs|]. split; [exact Hq'|]. split; [exact Hl|]. split; [exact Hnd|].
  intros u Hu%Hin. exact (proj1 (proj2 (by_uid_spec solvers) u) Hu).
Qed.

(** C39 (invariant): dealing off one shuffled queue is fair: as long as the pool stays the
    same, after any number of draws of any sizes two solvers were drawn equally often, or
    one of them once more. *)
Theorem rotation_fair (solvers : list Solver) (ks : list Z) (r : rng) (u v : Z) :
  u ∈ map sv_uid solvers → v ∈ map sv_uid solvers →
  ∃ rounds x, deal {| queue := []; generator := r |} solvers ks = Some (rounds, x) ∧
    Z.abs (load u rounds - load v rounds) <= 1.
Proof.
  intros Hu%(proj2 (by_uid_spec solvers)) Hv%(proj2 (by_uid_spec solvers)).
  destruct (deal_balanced solvers ks {| queue := []; generator := r |}) as (rounds & x & b & Hd & Hq & Hc);
    [apply NoDup_nil_2|by intros w ?%elem_of_nil|].
  exists rounds, x. split; [done|]. pose proof (Hc u Hu) as Hcu. pose proof (Hc v Hv) as Hcv.
  rewrite (count_nodup u _ Hq) in Hcu. rewrite (count_nodup v _ Hq) in Hcv. cbn [queue] in Hcu, Hcv.
  change (count u []) with 0 in Hcu. change (count v []) with 0 in Hcv. repeat case_bool_decide; lia.
Qed.
End rotation.

Section challenge.
Context (solve : Solver → Problem → pystr → Awaited SolutionResponse).
Context (verifier : Problem → SolutionResponse → Awaited Verification).
Context `{FR : !FloatRepr}.

(** The attempts that give an outcome, and those that end the event loop. *)
Definition answered (p : Problem) (prompt : pystr) (s : Solver) : Prop :=
  ∃ o, attempt_one solve verifier s p prompt = Returned o.

Definition interrupted (p : Problem) (prompt : pystr) (s : Solver) : Prop :=
  ∃ e, attempt_one solve verifier s p prompt = Interrupted e.

#[export] Instance answered_dec (p : Problem) (prompt : pystr) (s : Solver) : Decision (answered p prompt s).
Proof. unfold answered. destruct (attempt_one solve verifier s p prompt); [left; by eexists|right..]; by intros [? ?]. Defined.

(** The outcome of an attempt that came to an end: of this solver, with the reward of its
    verification, which is the verifier's on that very answer or, where the verifier
    failed, one that passed nothing. *)
Definition judged_outcome (p : Problem) (s : Solver) (o : MinerOutcome) : Prop :=
  uid o = sv_uid s ∧ hotkey o = sv_hotkey s ∧ o_reward o = v_reward (verification o) ∧
  (verifier p (solution o) = Returned (verification o) ∨
   ∃ e, verifier p (solution o) = Failed e ∧ verification o = failed_verification p (ustr "VERIFY_ERROR: " ++ e)).

(** The outcome of an attempt that did not: nothing passed, nothing earned. *)
Definition unearned_outcome (s : Solver) (o : MinerOutcome) : Prop :=
  uid o = sv_uid s ∧ hotkey o = sv_hotkey s ∧ o_reward o = f0 ∧ v_reward (verification o) = f0 ∧
  all_passed (verification o) = false ∧ num_passed (verification o) = 0 ∧ code (solution o) = [].

Lemma attempt_judged (s : Solver) (p : Problem) (prompt : pystr) (o : MinerOutcome) :
  attempt_one solve verifier s p prompt = Returned o → judged_outcome p s o.
Proof.
  unfold attempt_one, judged_outcome. intros H. destruct (solve s p prompt) as [x|e|e|e]; [| |done..];
    (destruct (verifier p _) as [v|e'|e'|e'] eqn:Hv in H; [| |done..]); injection H as <-; (split_and!; [done..|]); cbn [solution verification];
    eauto.
Qed.

Lemma gather_attempts_Ok (p : Problem) (prompt : pystr) (solvers : list Solver) (raw : list (Solver * Awaited MinerOutcome)) :
  gather_attempts (map (λ s, (s, attempt_one solve verifier s p prompt)) solvers) = Ok raw ↔
  raw = map (λ s, (s, attempt_one solve verifier s p prompt)) solvers ∧ ∀ s, s ∈ solvers → ¬ interrupted p prompt s.
Proof.
  unfold gather_attempts. set (all := map _ solvers). destruct (omap _ all) as [|e l] eqn:Ho.
  - split; [intros [= <-]|by intros [-> _]]. split; [done|]. intros s Hs (e & He).
    assert (Hin : e ∈ omap (λ '(_, o), match o with Interrupted e => Some e | _ => None end) all).
    { apply list_elem_of_omap. exists (s, attempt_one solve verifier s p prompt). split; [|by rewrite He].
      by apply (list_elem_of_fmap_2 (λ s, (s, attempt_one solve verifier s p prompt))). }
    rewrite Ho in Hin. by apply elem_of_nil in Hin.
  - split; [done|]. intros [_ H]. exfalso. assert (Hin : e ∈ e :: l) by left. rewrite <-Ho in Hin.
    apply list_elem_of_omap in Hin as ([s a] & Hin & Ha). apply list_elem_of_fmap in Hin as (s' & [= -> ->] & Hs).
    apply (H s' Hs). exists e. destruct (attempt_one solve verifier s' p prompt); [done..|]. by injection Ha as ->.
Qed.

Lemma answered_outcomes (p : Problem) (prompt : pystr) (solvers : list Solver) :
  let raw := map (λ s, (s, attempt_one solve verifier s p prompt)) solvers in
  Forall2 (judged_outcome p) (filter (answered p prompt) solvers)
    (omap (λ '(_, o), match o with Returned x => Some x | _ => None end) raw).
Proof.
  induction solvers as [|s solvers IH]; [constructor|]. cbv zeta in *. cbn [map omap list_omap].
  destruct (attempt_one solve verifier s p prompt) as [o|e|e|e] eqn:Ha.
  - rewrite filter_cons_True by (by exists o). constructor; [by eapply attempt_judged|done].
  - rewrite filter_cons_False; [done|]. intros [o Ho]. congruence.
  - rewrite filter_cons_False; [done|]. intros [o Ho]. congruence.
  - rewrite filter_cons_False; [done|]. intros [o Ho]. congruence.
Qed.

Lemma unanswered_outcomes (p : Problem) (prompt : pystr) (solvers : list Solver) :
  (∀ s, s ∈ solvers → ¬ interrupted p prompt s) →
  let raw := map (λ s, (s, attempt_one solve verifier s p prompt)) solvers in
  Forall2 unearned_outcome (filter (λ s, ¬ answered p prompt s) solvers)
    (omap (λ '(s, o), match o with Failed e | Killed e => Some (dead_outcome p s e) | _ => None end) raw).
Proof.
  induction solvers as [|s solvers IH]; intros Hall; [constructor|]. cbv zeta in *. cbn [map omap list_omap].
  assert (Hrest := IH (λ s Hs, Hall s (proj2 (elem_of_cons _ _ _) (or_intror Hs)))).
  destruct (attempt_one solve verifier s p prompt) as [o|e|e|e] eqn:Ha.
  - rewrite filter_cons_False; [done|]. intros Hn. apply Hn. by exists o.
  - rewrite filter_cons_True; [by constructor|]. intros [o Ho]. congruence.
  - rewrite filter_cons_True; [by constructor|]. intros [o Ho]. congruence.
  - exfalso. apply (Hall s); [left|by exists e].
Qed.

Lemma filter_both (p : Problem) (prompt : pystr) (solvers : list Solver) :
  filter (answered p prompt) solvers ++ filter (λ s, ¬ answered p prompt s) solvers ≡ₚ solvers.
Proof.
  induction solvers as [|s l IH]; [done|]. rewrite !filter_cons. do 2 case_decide; try done.
  - cbn [app]. by rewrite IH.
  - by rewrite <-Permutation_middle, IH.
Qed.

Lemma outcome_uids (R : Solver → MinerOutcome → Prop) (l : list Solver) (os : list MinerOutcome) :
  (∀ s o, R s o → uid o = sv_uid s) → Forall2 R l os → map uid os = map sv_uid l.
Proof. intros HR. induction 1 as [|s o l os H _ IH]; [done|]. cbn [map]. by rewrite (HR s o H), IH. Qed.

(** C38 (safety): one answer never takes an outcome from anyone: whatever the solvers and the
    verifier raise, each solver of the pool has exactly one outcome. Those whose attempt
    came to an end are first, in the order of the pool, each with the reward of its own
    verification, and a passed outcome is the verifier's own verdict on the answer it stands
    with; those whose attempt did not come last, with no answer, nothing passed and nothing
    earned. Only an exception that ends the event loop ([SystemExit], [KeyboardInterrupt])
    ends the evaluation, and it always does. *)
Theorem everyone_judged (st : OrchestratorSettings) (p : Problem) (solvers : list Solver) (prompt : pystr) :
  build_prompt p = Ok prompt →
  ((∃ s, s ∈ solvers ∧ interrupted p prompt s) → is_ok (evaluate solve verifier st p solvers) = false) ∧
  ((∀ s, s ∈ solvers → ¬ interrupted p prompt s) →
   ∃ cr p' judged dead, evaluate solve verifier st p solvers = Ok (cr, p') ∧ cr_outcomes cr = judged ++ dead ∧
     map uid (cr_outcomes cr) ≡ₚ map sv_uid solvers ∧ cr_num_responses cr = zlen solvers ∧
     Forall2 (judged_outcome p) (filter (answered p prompt) solvers) judged ∧
     Forall2 unearned_outcome (filter (λ s, ¬ answered p prompt s) solvers) dead ∧
     ∀ o, o ∈ cr_outcomes cr → o_reward o = v_reward (verification o) ∧
       (all_passed (verification o) = true → verifier p (solution o) = Returned (verification o))).
Proof.
  intros Hprompt. unfold evaluate. rewrite Hprompt. cbn [mbind result_bind]. split.
  - intros (s & Hs & Hi). destruct (gather_attempts _) as [raw|e] eqn:Hg; [|done].
    apply gather_attempts_Ok in Hg as [_ Hg]. by destruct (Hg s Hs).
  - intros Hall. pose proof (proj2 (gather_attempts_Ok p prompt solvers _) (conj eq_refl Hall)) as ->. cbn [mbind result_bind].
    pose proof (answered_outcomes p prompt solvers) as Hj. pose proof (unanswered_outcomes p prompt solvers Hall) as Hu. cbv zeta in Hj, Hu.
    unfold outcomes_of. set (judged := omap _ _) in Hj |- *. set (dead := omap _ _) in Hu |- *.
    eexists _, _, judged, dead. split; [reflexivity|]. cbn [cr_outcomes cr_num_responses].
    assert (Hperm : map uid (judged ++ dead) ≡ₚ map sv_uid solvers).
    { rewrite map_app, (outcome_uids _ _ _ (λ s o H, proj1 H) Hj), (outcome_uids _ _ _ (λ s o H, proj1 H) Hu), <-map_app.
      apply fmap_Permutation, filter_both. }
    split_and!; [done|done| |done|done|].
    + pose proof (Permutation_length Hperm) as Hl. rewrite !length_map in Hl. unfold zlen. by rewrite Hl.
    + intros o [Ho|Ho]%elem_of_app; apply list_elem_of_lookup in Ho as [i Hi].
      * destruct (Forall2_lookup_r _ _ _ _ _ Hj Hi) as (s & _ & _ & _ & Hr & Hv). split; [done|]. intros Hp.
        destruct Hv as [|(e & _ & Hf)]; [done|]. by rewrite Hf in Hp.
      * destruct (Forall2_lookup_r _ _ _ _ _ Hu Hi) as (s & _ & _ & _ & Hr & Hv & Hp & _). split; [by rewrite Hr, Hv|].
        by rewrite Hp.
Qed.
End challenge.

(** ** Witnesses *)

(** A generator that does not shuffle. *)
#[export, refine] Instance still_rng : Rng := {| rng := unit; rng_shuffle l r := (l, r) |}.
Proof. done. Defined.

Definition demo_pool : list Solver := map (λ u, {| sv_uid := u; sv_hotkey := [] |}) [4; 7; 9].

Lemma sampled_witness :
  ∃ picked x', sample (@Build_RotationSampler still_rng [7; 5] tt) demo_pool 2 = Some (picked, x') ∧ length picked = 2%nat.
Proof.
  destruct (sampled (@Build_RotationSampler still_rng [7; 5] tt) demo_pool 2) as (picked & x' & Hs & _ & Hl & _).
  - apply (bool_decide_unpack _). vm_compute. exact I.
  - exists picked, x'. split; [exact Hs|exact Hl].
Defined.

Lemma rotation_fair_witness :
  ∃ rounds x, deal (@Build_RotationSampler still_rng [] tt) demo_pool [2; 2; 5; 1; 2] = Some (rounds, x) ∧
    Z.abs (load 4 rounds - load 9 rounds) <= 1.
Proof.
  apply (rotation_fair (RG := still_rng) demo_pool [2; 2; 5; 1; 2] tt 4 9); apply (bool_decide_unpack _); vm_compute; exact I.
Defined.

Definition demo_problem : Problem :=
  {| p_id := ustr "p"; p_language := ustr "python"; p_statement := ustr "add"; p_entrypoint := ustr "f"; p_tests := [];
     p_public_examples := []; p_created_at := f0; p_measured_pass_rate := None; p_band := UNKNOWN; p_num_attempts := 0;
     p_prompt_variant := 0 |}.

(** One solver answers, one fails, one is cancelled. *)
Definition demo_solve (s : Solver) (p : Problem) (prompt : pystr) : Awaited SolutionResponse :=
  if sv_uid s =? 4 then Returned (empty_solution p prompt) else if sv_uid s =? 7 then Failed (ustr "timeout") else Killed (ustr "cancelled").

Definition demo_verifier (p : Problem) (s : SolutionResponse) : Awaited Verification := Returned (failed_verification p []).

Abbreviation demo_settings := {| difficulty_samples_m := 2; band_low := f0; band_high := f1 |}.

Lemma everyone_judged_witness :
  ∃ cr p' judged dead, evaluate (H := {| float_repr := λ _, [] |}) demo_solve demo_verifier demo_settings demo_problem demo_pool = Ok (cr, p') ∧
    cr_outcomes cr = judged ++ dead ∧ cr_num_responses cr = 3 ∧ map uid judged = [4; 7] ∧ map uid dead = [9].
Proof.
  destruct (everyone_judged (FR := {| float_repr := λ _, [] |}) demo_solve demo_verifier demo_settings demo_problem demo_pool
    (ustr "add") eq_refl) as [_ H].
  destruct H as (cr & p' & judged & dead & He & Ho & _ & Hn & Hj & Hd & _).
  - intros s Hs (e & He). apply list_elem_of_fmap in Hs as (u & -> & Hu). rewrite !elem_of_cons, elem_of_nil in Hu.
    destruct Hu as [-> |[-> |[-> |[]]]]; vm_compute in He; discriminate He.
  - exists cr, p', judged, dead. split_and!; [done|done|done| |].
    + rewrite (outcome_uids _ _ _ (λ s o H, proj1 H) Hj). vm_compute. reflexivity.
    + rewrite (outcome_uids _ _ _ (λ s o H, proj1 H) Hd). vm_compute. reflexivity.
Defined.
