(* ===== verification/Diagnostics.v ===== *)
(** * Local records of evaluations ([src/rlvr/v3/diagnostics.py])

    A round leaves one record of the round and one for each miner it assigned, each a
    line of JSON of at most 4096 bytes, in a log that is rotated before it grows over its
    limit.  The disk maps paths to what is there; what a call of it does is a script.
    The log has one writer.

    DiagnosticsSpec has the theorems. *)

From S2P Require Import Prelude PyFloat Text Json Canonical Wire Identity Codecs Api Supervisor Grading Round Runner.

Local Open Scope Z_scope.

Definition MAX_RECORD_BYTES : Z := 4096.
Definition MAX_FILE_BYTES : Z := 8 * 1024 * 1024.
Definition BACKUP_COUNT : Z := 3.

(** ** Codes (reasons.py) *)

Definition round_reason_value (r : RoundReason) : pystr :=
  ustr match r with
  | LEASE_UNAVAILABLE => "lease_unavailable" | UNSUPPORTED_PROFILE => "unsupported_profile"
  | UNSUPPORTED_VERIFIER_POLICY => "unsupported_verifier_policy" | INSUFFICIENT_STORAGE => "insufficient_storage"
  | SLOT_POOL_MISMATCH => "slot_pool_mismatch" | LEASE_QUORUM_MISMATCH => "lease_quorum_mismatch"
  | LEASE_TOO_SHORT => "lease_too_short" | QUORUM_NOT_MET => "quorum_not_met" | COMMIT_FAILED => "commit_failed"
  | REVEAL_MISMATCH => "reveal_mismatch" | GRADING_EXPIRED => "grading_expired"
  | SUBMISSION_FORMAT_MISMATCH => "submission_format_mismatch" | SUBMISSION_GRANT_MISMATCH => "submission_grant_mismatch"
  | SUBMISSION_DOWNLOAD_FAILED => "submission_download_failed" | UNSUPPORTED_TASK => "unsupported_task"
  | WORKSPACE_INVALID => "workspace_invalid" | PATCH_TOOL_FAILED => "patch_tool_failed"
  | SETUP_UNAVAILABLE => "setup_unavailable" | SCRIPT_UNAVAILABLE => "script_unavailable"
  | VERIFIER_UNAVAILABLE => "verifier_unavailable" | VALIDATOR_ERROR => "validator_error"
  | WORKSPACE_DOWNLOAD_FAILED => "workspace_download_failed" | WORKSPACE_EXTRACTION_FAILED => "workspace_extraction_failed"
  | WORKSPACE_MATERIALIZATION_FAILED => "workspace_materialization_failed"
  | VERIFIER_DOWNLOAD_FAILED => "verifier_download_failed" | VERIFIER_INVALID => "verifier_invalid"
  | CLEANUP_FAILED => "cleanup_failed"
  end.

Definition stage_value (s : Stage) : pystr :=
  ustr match s with
  | LEASE => "lease" | WORKSPACE_DOWNLOAD => "workspace_download" | WORKSPACE_EXTRACTION => "workspace_extraction"
  | DISPATCH => "dispatch" | COMMIT => "commit" | VERIFIER_DOWNLOAD => "verifier_download"
  | VERIFIER_EXTRACTION => "verifier_extraction" | VERIFIER_MANIFEST => "verifier_manifest"
  | SUBMISSION_DOWNLOAD => "submission_download" | WORKSPACE_MATERIALIZATION => "workspace_materialization"
  | GRADING => "grading" | PATCH => "patch" | SETUP => "setup" | SCRIPT => "script" | CHECK => "check"
  | RESULT_TREE => "result_tree" | CLEANUP => "cleanup"
  end.

Definition reason_value (r : ReasonCode) : pystr :=
  match r with miner_reason r => miner_reason_value r | round_reason r => round_reason_value r end.

Definition evaluation_status_text (s : EvaluationStatus) : string :=
  match s with
  | eval_passed => "passed" | eval_failed => "failed" | eval_rejected => "rejected" | eval_abandoned => "abandoned"
  end.

Definition round_status_text (s : RoundStatus) : string :=
  match s with completed => "completed" | unavailable => "unavailable" | abandoned => "abandoned" end.

(** ** Records *)

Definition record := list (string * pyobj).

Definition set_field (key : string) (v : pyobj) (r : record) : record :=
  map (λ '(k, x), (k, if String.eqb k key then v else x)) r.

Definition get_field (key : string) (r : record) : pyobj :=
  match list_find (λ p, p.1 = key) r with Some (_, (_, v)) => v | None => PNone end.

(** [None], or a value. *)
Definition opt_str (s : option pystr) : pyobj := match s with Some s => PStr s | None => PNone end.
Definition opt_int (z : option Z) : pyobj := match z with Some z => PInt z | None => PNone end.

Section records.
Context `{!UnicodeData, !Sha256, !FloatRepr}.

Definition detail (value : pystr) : pystr :=
  let clean := join [32%N] (split_ws value) in
  let clean := filter (λ c, py_isprintable c = true) clean in
  utf8_decode_lenient [] (map N_of_ascii (take 512 (encode_replace clean))).

Definition encode (r : record) : result bytes :=
  text ← dumps (compact default_options) (obj r);
  raw ← utf8_encode text;
  mret (raw ++ ["010"%char]).

Context (validator_hotkey : pystr) (recorded_at_ms : Z).

Definition record_id (challenge_id task_id : pystr) (kind : string) (miner_hotkey : option pystr) : result pystr :=
  let identity := [validator_hotkey; challenge_id; task_id; ustr kind] ++ option_list miner_hotkey in
  text ← dumps (compact (keep_unicode default_options)) (PList (map PStr identity));
  encoded ← utf8_encode text;
  mret (hexdigest (sha256 encoded)).

Definition common (r : RoundResult) (challenge_id task_id : pystr) : record :=
  [("schema_version", PInt 1); ("recorded_at_ms", PInt recorded_at_ms); ("validator_hotkey", PStr validator_hotkey);
   ("challenge_id", PStr challenge_id); ("task_id", PStr task_id);
   ("round_status", str_key (round_status_text (rr_status r)));
   ("round_reason_code", opt_str (round_reason_value <$> rr_reason_code r));
   ("score_effect", str_key (if bool_decide (rr_status r = abandoned) then "unchanged" else "not_reported"))]%string.

Definition make_record (r : RoundResult) (challenge_id task_id : pystr) (kind : string) (miner_hotkey : option pystr)
    (fields : record) : result record :=
  id ← record_id challenge_id task_id kind miner_hotkey;
  mret (common r challenge_id task_id ++ [("record_id", PStr id); ("record_type", str_key kind)]%string ++ fields).

Definition outcome_fields (r : RoundResult) : record :=
  [("stage", opt_str (stage_value <$> rr_stage r)); ("reason", PStr (detail (rr_reason r)));
   ("assigned_miners", PInt (zlen (rr_assigned_miners r)))]%string.

(** The last of its key, as in a dict. *)
Definition evaluation_of (r : RoundResult) (registration : Z * pystr) : option MinerEvaluation :=
  let evaluations := match rr_diagnostic_evaluations r with [] => rr_evaluations r | l => l end in
  last (filter (λ m, (me_uid m, me_hotkey m) = registration) evaluations).

Definition dispatch_of (r : RoundResult) (registration : Z * pystr) : option MinerReason :=
  snd <$> last (filter (λ d, d.1 = registration) (rr_dispatch_failures r)).

Definition count_checks (p : CheckResult → bool) (checks : list CheckResult) : Z :=
  zlen (filter (λ c, p c = true) checks).

Definition miner_fields (r : RoundResult) (registration : Z * pystr) : record :=
  let item := evaluation_of r registration in
  let evaluation := me_result <$> item in
  let checks := match evaluation with Some e => ev_checks e | None => [] end in
  let executed := count_checks (λ c, negb (bool_decide (res_outcome c = skipped))) checks in
  let total := rr_checks_total r in
  let dispatch_code := dispatch_of r registration in
  [("uid", PInt registration.1); ("miner_hotkey", PStr registration.2);
   ("status", match evaluation with Some e => str_key (evaluation_status_text (ev_status e)) | None => str_key "not_evaluated" end);
   ("reason_code", opt_str match evaluation with
                           | Some e => reason_value <$> ev_reason_code e
                           | None => miner_reason_value <$> dispatch_code
                           end);
   ("dispatch_reason_code", opt_str (miner_reason_value <$> dispatch_code));
   ("stage", opt_str match evaluation with
                     | Some e => stage_value <$> ev_stage e
                     | None => match dispatch_code with Some _ => Some (ustr "dispatch") | None => None end
                     end);
   ("reason", PStr match evaluation with Some e => detail (ev_reason e) | None => [] end);
   ("checks_passed", PInt (count_checks (λ c, bool_decide (res_outcome c = passed)) checks));
   ("checks_executed", PInt executed);
   ("checks_total", opt_int total);
   ("checks_skipped", opt_int ((λ t, t - executed) <$> total));
   ("grading_duration_ms", opt_int (me_grading_duration_ms <$> item));
   ("response_latency_ms", opt_int (me_latency_ms <$> item));
   ("failed_check", opt_str (evaluation ≫= ev_failed_check))]%string.

(** The records in the order of the generator; an exception is raised when its record is
    asked for. *)
Definition round_records (r : RoundResult) : list (result record) :=
  match rr_challenge_id r, rr_task_id r with
  | Some challenge_id, Some task_id =>
      make_record r challenge_id task_id "round_outcome" None (outcome_fields r)
      :: map (λ registration,
           make_record r challenge_id task_id "miner_evaluation" (Some registration.2) (miner_fields r registration))
         (rr_assigned_miners r)
  | _, _ => []
  end.

(** The bytes of a record, without its optional fields where they are too many. *)
Definition fit (r : record) : result bytes :=
  raw ← encode r;
  '(r, raw) ← (if (MAX_RECORD_BYTES <? zlen raw) && negb (match get_field "failed_check" r with PNone => true | _ => false end)
               then let r := set_field "failed_check" PNone r in raw ← encode r; mret (r, raw)
               else mret (r, raw));
  raw ← (if MAX_RECORD_BYTES <? zlen raw then encode (set_field "reason" (PStr []) r) else mret raw);
  raise_if (MAX_RECORD_BYTES <? zlen raw) ValueError "diagnostic record exceeds its limit";;
  mret raw.
End records.

(** ** The disk *)

(** What stands at a path; [Special]: a symbolic link, a device, a pipe. *)
Inductive node := Regular (content : bytes) | Special | Directory.

(** A call works, or it fails with the text of its [OSError]; a write that fails has
    written the given number of bytes. *)
Record fault := { fault_text : pystr; fault_written : nat }.

Record disk := { files : gmap pystr node; script : list (option fault) }.

Definition disk_m (A : Type) : Type := disk → result A * disk.
#[export] Instance log_ret : MRet disk_m := λ A a d, (Ok a, d).
#[export] Instance log_bind : MBind disk_m := λ A B f m d,
  match m d with (Ok a, d') => f a d' | (Raise e, d') => (Raise e, d') end.

Definition lift {A} (m : result A) : disk_m A := λ d, (m, d).
Definition os_error {A} (text : pystr) : disk_m A := lift (Raise (Exn OSError text)).
Definition at_path (path : pystr) : disk_m (option node) := λ d, (Ok (files d !! path), d).
Definition put (path : pystr) (n : option node) : disk_m unit := λ d,
  (Ok (), {| files := partial_alter (λ _, n) path (files d); script := script d |}).

Definition call : disk_m (option fault) := λ d,
  match script d with
  | [] => (Ok None, d)
  | f :: rest => (Ok f, {| files := files d; script := rest |})
  end.

(** A call that changes nothing when it fails. *)
Definition checked : disk_m unit :=
  f ← call; match f with None => mret () | Some f => os_error (fault_text f) end.

(** [_open] with [O_CREAT]: the content of a regular file. *)
Definition open_log (path : pystr) : disk_m bytes :=
  _ ← checked;
  n ← at_path path;
  match n with
  | None => _ ← put path (Some (Regular [])); mret []
  | Some (Regular content) => mret content
  | Some Special => os_error (ustr "diagnostic path must be a regular file")
  | Some Directory => os_error (ustr "Is a directory")
  end.

(** [unlink(missing_ok=True)] *)
Definition unlink_if_there (path : pystr) : disk_m unit :=
  _ ← checked;
  n ← at_path path;
  match n with
  | Some Directory => os_error (ustr "Is a directory")
  | _ => put path None
  end.

(** [os.replace], with [except FileNotFoundError: pass].  What a directory replaces it
    replaces only when that is an empty directory: here it never does. *)
Definition replace_if_there (src dst : pystr) : disk_m unit :=
  _ ← checked;
  n ← at_path src;
  old ← at_path dst;
  match n, old with
  | None, _ => mret ()
  | Some _, Some Directory => os_error (ustr "Is a directory")
  | Some Directory, Some _ => os_error (ustr "Not a directory")
  | Some n, _ => _ ← put dst (Some n); put src None
  end.

(** ** The log *)

Record EvaluationLog := { log_path : option pystr; max_file_bytes : Z; backup_count : Z }.

Definition evaluation_log (path : pystr) (max_file_bytes backup_count : Z) : result EvaluationLog :=
  raise_if (negb ((MAX_RECORD_BYTES <=? max_file_bytes) && (max_file_bytes <=? 64 * 1024 * 1024))) ValueError
    "diagnostic file size is outside its allowed range";;
  raise_if (negb ((0 <=? backup_count) && (backup_count <=? 8))) ValueError
    "diagnostic backup count is outside its allowed range";;
  mret {| log_path := match path with [] => None | _ => Some path end;
          max_file_bytes := max_file_bytes; backup_count := backup_count |}.

(** [_file]: the log, and its backups by number. *)
Definition log_file (path : pystr) (index : nat) : pystr :=
  match index with O => path | _ => path ++ [46%N] ++ str_of_int (Z.of_nat index) end.

Section log.
Context (path : pystr) (max_bytes : Z) (backups : nat).

(** [for index in range(n - 1, -1, -1)] *)
Fixpoint shift_files (n : nat) : disk_m unit :=
  match n with
  | O => mret ()
  | S index => _ ← replace_if_there (log_file path index) (log_file path (S index)); shift_files index
  end.

Definition rotate : disk_m unit :=
  match backups with
  | O => unlink_if_there (log_file path 0)
  | S _ => _ ← unlink_if_there (log_file path backups); shift_files backups
  end.

(** The line break after what may be a part of a line. *)
Definition line_break (content : bytes) : bytes :=
  match last content with Some c => if bool_decide (c = "010"%char) then [] else ["010"%char] | None => [] end.

Definition write_if_fits (raw : bytes) : disk_m bool :=
  content ← open_log (log_file path 0);
  _ ← checked;
  let payload := line_break content ++ raw in
  if max_bytes <? zlen content + zlen (line_break content) + zlen raw then mret false
  else
    f ← call;
    match f with
    | None => _ ← put (log_file path 0) (Some (Regular (content ++ payload))); mret true
    | Some f =>
        _ ← put (log_file path 0) (Some (Regular (content ++ take (fault_written f) payload)));
        os_error (fault_text f)
    end.

Definition append (raw : bytes) : disk_m unit :=
  fits ← write_if_fits raw;
  if (fits : bool) then mret ()
  else
    _ ← rotate;
    fits ← write_if_fits raw;
    if (fits : bool) then mret () else os_error (ustr "diagnostic record does not fit an empty file").

Fixpoint append_records `{!FloatRepr} (records : list (result record)) : disk_m unit :=
  match records with
  | [] => mret ()
  | r :: records' => r ← lift r; raw ← lift (fit r); _ ← append raw; append_records records'
  end.
End log.

(** [record_round]; [recorded_at_ms] is the clock.  Creating the directory is one call. *)
Definition record_round `{!UnicodeData, !Sha256, !FloatRepr} (l : EvaluationLog) (r : RoundResult) (validator_hotkey : pystr)
    (recorded_at_ms : Z) (d : disk) : bool * disk :=
  match log_path l, rr_challenge_id r with
  | Some path, Some _ =>
      let run :=
        _ ← checked;
        append_records path (max_file_bytes l) (Z.to_nat (backup_count l)) (round_records validator_hotkey recorded_at_ms r) in
      match run d with (Ok _, d') => (true, d') | (Raise _, d') => (false, d') end
  | _, _ => (true, d)
  end.
