(* ===== verification/DiagnosticsSpec.v ===== *)
(** * What the log of evaluations keeps

    [log_bounded]: whatever fails, no file of the log grows over the limit and nothing
    else is touched.  [round_recorded]: a round leaves a line for each of its records,
    and its own rotation does not lose them. *)

From S2P Require Import Prelude PyFloat Text Json JsonSpec Canonical Wire Identity Codecs Api ApiSpec ProtocolSpec Supervisor Grading Round Runner RunnerSpec Diagnostics.

Local Open Scope Z_scope.

(** ** The text of a record *)

Section codec.
Local Open Scope N_scope.

Lemma is_cont_true (c : N) : is_cont c = true ↔ 128 <= c < 192.
Proof. unfold is_cont. by rewrite andb_true_iff, N.leb_le, N.ltb_lt. Qed.

Lemma second_ok_bounds (x y : N) : second_ok x y = true →
  128 <= y < 192 ∧ (x = 237 → y < 160) ∧ (x = 240 → 144 <= y) ∧ (x = 244 → y < 144).
Proof.
  unfold second_ok. destruct (N.eqb_spec x 224); [intros H%in_range_true; lia|]. destruct (N.eqb_spec x 237); [intros H%in_range_true; lia|].
  destruct (N.eqb_spec x 240); [intros H%in_range_true; lia|]. destruct (N.eqb_spec x 244); [intros H%in_range_true; lia|].
  intros H%is_cont_true. lia.
Qed.

(** A lenient decoder gives characters only. *)
Lemma lenient_scalar (bad : pystr) (l : list N) :
  forallb scalar bad = true → forallb scalar (utf8_decode_lenient bad l) = true.
Proof.
  intros Hbad. remember (length l) as n eqn:Hn. revert l Hn.
  induction n as [n IH] using lt_wf_ind. intros l Hn.
  assert (Hrec : ∀ k, (length k < length l)%nat → forallb scalar (utf8_decode_lenient bad k) = true) by (intros k Hk; eapply IH; [|reflexivity]; lia).
  assert (Hb : ∀ k, (length k < length l)%nat → forallb scalar (bad ++ utf8_decode_lenient bad k) = true) by (intros k Hk; by rewrite forallb_app, Hbad, Hrec).
  clear IH Hn. destruct l as [|x r]; [done|]. cbn [utf8_decode_lenient]. cbn [length] in *.
  destruct (N.ltb_spec x 128) as [Hx|Hx]; [cbn [forallb]; rewrite Hrec by lia; rewrite andb_true_r; apply scalar_bounds; lia|].
  destruct (in_range 194 223 x) eqn:H2; [|destruct (in_range 224 239 x) eqn:H3; [|destruct (in_range 240 244 x) eqn:H4; [|apply Hb; lia]]].
  - destruct r as [|y r]; [done|]. cbn [length] in *. destruct (is_cont y) eqn:Hy; [|apply Hb; simpl; lia].
    cbn [forallb]. rewrite Hrec by lia. rewrite andb_true_r. apply scalar_bounds. unfold cp2. rewrite in_range_true in H2. rewrite is_cont_true in Hy. lia.
  - destruct r as [|y r]; [done|]. cbn [length] in *. destruct (second_ok x y) eqn:Hy; cbn [negb]; [|apply Hb; simpl; lia].
    destruct r as [|z r]; [done|]. cbn [length] in *. destruct (is_cont z) eqn:Hz; [|apply Hb; simpl; lia].
    cbn [forallb]. rewrite Hrec by lia. rewrite andb_true_r. apply scalar_bounds. unfold cp3.
    rewrite in_range_true in H3. rewrite is_cont_true in Hz. apply second_ok_bounds in Hy. lia.
  - destruct r as [|y r]; [done|]. cbn [length] in *. destruct (second_ok x y) eqn:Hy; cbn [negb]; [|apply Hb; simpl; lia].
    destruct r as [|z r]; [done|]. cbn [length] in *. destruct (is_cont z) eqn:Hz; cbn [negb]; [|apply Hb; simpl; lia].
    destruct r as [|w r]; [done|]. cbn [length] in *. destruct (is_cont w) eqn:Hw; [|apply Hb; simpl; lia].
    cbn [forallb]. rewrite Hrec by lia. rewrite andb_true_r. apply scalar_bounds. unfold cp4.
    rewrite in_range_true in H4. rewrite is_cont_true in Hz, Hw. apply second_ok_bounds in Hy. lia.
Qed.
End codec.

(** The values of a record. *)
Definition simple (v : pyobj) : Prop :=
  v = PNone ∨ (∃ s, v = PStr s ∧ forallb scalar s = true) ∨ ∃ z, v = PInt z ∧ 0 <= z < 2 ^ 62.

(** The most characters a value takes. *)
Definition width (v : pyobj) : Z :=
  match v with PStr s => zlen (quoted escape_ascii s) | PInt _ => 64 | _ => 4 end.

Definition record_width (r : record) : Z := foldr (λ p n, zlen p.1 + width p.2 + 4 + n) 2 (map (λ '(k, v), (ustr k, v)) r).

Definition plain_key (k : string) : bool := forallb (λ c, (32 <=? c)%N && (c <? 127)%N && negb (c =? 34)%N && negb (c =? 92)%N) (ustr k).

(** Distinct printable keys, and simple values. *)
Definition record_ok (r : record) : Prop :=
  NoDup (map fst r) ∧ Forall (λ k, plain_key k = true) (map fst r) ∧ Forall simple (map snd r).

Section text.
Context `{FR : !FloatRepr}.

Definition record_text (r : record) : pystr := text_of escape_ascii float_repr [] [] (obj r).

Lemma simple_readable (v : pyobj) : simple v → json_value default_hooks v.
Proof.
  intros [->|[(s & -> & Hs)|(z & -> & Hz)]]; [done|exact Hs|]. unfold json_value. cbn [readable]. unfold printable_int.
  rewrite Z.abs_eq by lia. pose proof (str_of_int_length 62 z) as H. cbn in H. specialize (H Hz ltac:(lia)).
  unfold INT_MAX_STR_DIGITS. apply Nat.le_trans with 62%nat; [exact H|]. apply Nat.leb_le. vm_compute. reflexivity.
Qed.

Lemma record_readable (r : record) : record_ok r → json_value default_hooks (obj r).
Proof.
  intros (Hn & Hk & Hv). unfold json_value, obj. apply readable_dict. rewrite map_map. split.
  - assert (Hmap : map (λ x : string * pyobj, key_str (let '(k, v) := x in (str_key k, v)).1) r = map ustr (map fst r)).
    { rewrite map_map. apply map_ext. by intros [k v]. }
    rewrite Hmap. by apply NoDup_fmap_2; [apply ustr_inj|].
  - rewrite List.Forall_map in Hk, Hv. apply List.Forall_map. rewrite Forall_forall in *. intros [k v] Hin. cbn. split.
    + exists (ustr k). split; [done|apply ustr_scalar].
    + by apply simple_readable, (Hv _ Hin).
Qed.

Definition ascii_text (s : pystr) : Prop := Forall (λ c, (32 <= c < 128)%N) s.

Lemma escape_ascii_text (c : N) : scalar c = true → ascii_text (escape_ascii c).
Proof.
  intros Hc%scalar_bounds. assert (Hx : ∀ n, (n < 16)%N → (32 <= hex_digit n < 128)%N) by (intros n Hn; unfold hex_digit; case_match; lia).
  assert (Hu : ∀ u, (u < 65536)%N → ascii_text (escape_unit u)).
  { intros u Hu. unfold escape_unit. repeat apply Forall_cons_2; try lia; try apply Hx.
    - apply N.Div0.div_lt_upper_bound. lia.
    - apply N.mod_lt. lia.
    - apply N.mod_lt. lia.
    - apply N.mod_lt. lia.
    - constructor. }
  unfold escape_ascii. destruct (_ || _) eqn:Hcase.
  - unfold escape_char. repeat (case_match; [by repeat constructor|]). case_match eqn:H32.
    + apply N.ltb_lt in H32. repeat apply Forall_cons_2; try lia; try apply Hx; [|apply N.mod_lt; lia|constructor].
      apply N.Div0.div_lt_upper_bound. lia.
    + apply N.ltb_ge in H32. constructor; [|constructor]. apply orb_true_iff in Hcase as [Hcase|Hcase]; apply andb_true_iff in Hcase as [Ha Hb]; rewrite ?N.leb_le, ?N.ltb_lt, ?Nat.eqb_eq in *; lia.
  - case_match eqn:Hlt; [apply N.ltb_lt in Hlt; by apply Hu|]. apply N.ltb_ge in Hlt. apply Forall_app. split; apply Hu.
    + assert (Hd : ((c - 65536) / 1024 < 1024)%N) by (apply N.Div0.div_lt_upper_bound; lia). lia.
    + assert (Hm : ((c - 65536) mod 1024 < 1024)%N) by (apply N.mod_lt; lia). lia.
Qed.

Lemma quoted_ascii_text (s : pystr) : forallb scalar s = true → ascii_text (quoted escape_ascii s).
Proof.
  intros Hs. unfold quoted. constructor; [lia|]. apply Forall_app. split; [|by repeat constructor].
  apply Forall_concat, List.Forall_map, Forall_forall. intros c Hc. apply escape_ascii_text.
  rewrite forallb_forall in Hs. by apply Hs, list_elem_of_In.
Qed.

Lemma str_of_int_ascii (z : Z) : ascii_text (str_of_int z).
Proof.
  assert (Hu : ∀ d, ascii_text (uint_chars d)) by (intros d; induction d; repeat constructor; done).
  unfold str_of_int. destruct z; try apply Hu. constructor; [lia|apply Hu].
Qed.

Lemma simple_text (v : pyobj) : simple v →
  ascii_text (text_of escape_ascii float_repr [] [] v) ∧ zlen (text_of escape_ascii float_repr [] [] v) <= width v.
Proof.
  intros [->|[(s & -> & Hs)|(z & -> & Hz)]]; cbn [text_of width].
  - split; [by repeat constructor|by vm_compute].
  - split; [by apply quoted_ascii_text|done].
  - split; [apply str_of_int_ascii|]. pose proof (str_of_int_length 62 z) as H. cbn in H. specialize (H Hz ltac:(lia)). unfold zlen. lia.
Qed.

Lemma plain_quoted (k : string) : plain_key k = true → quoted escape_ascii (ustr k) = 34%N :: ustr k ++ [34%N].
Proof.
  unfold plain_key, quoted. intros H. do 2 f_equal. induction (ustr k) as [|c s IH]; [done|].
  cbn [forallb map concat] in *. apply andb_true_iff in H as [Hc Hs]. rewrite IH by done.
  rewrite !andb_true_iff, !negb_true_iff, N.leb_le, N.ltb_lt, !N.eqb_neq in Hc.
  assert (escape_ascii c = [c]) as ->; [|done]. unfold escape_ascii.
  rewrite (proj2 (N.leb_le 32 c)), (proj2 (N.leb_le c 126)) by lia. cbn [andb orb]. unfold escape_char.
  rewrite !(proj2 (N.eqb_neq c _)) by lia. by rewrite (proj2 (N.ltb_ge _ _)) by lia.
Qed.

Lemma join_comma (l : list pystr) :
  Forall ascii_text l → ascii_text (join [44%N] l) ∧ zlen (join [44%N] l) <= foldr (λ s n, zlen s + 1 + n) 0 l.
Proof.
  intros Hl. induction Hl as [|s l Hs Hl [IH1 IH2]]; [by split; [constructor|]|]. destruct l as [|t l].
  - split; [done|]. cbn [join foldr]. lia.
  - change (join [44%N] (s :: t :: l)) with (s ++ 44%N :: join [44%N] (t :: l)). split.
    + apply Forall_app. split; [done|]. constructor; [lia|done].
    + cbn [foldr] in *. unfold zlen in *. rewrite length_app. cbn [length]. lia.
Qed.

(** The text of a record is ASCII and not longer than its width. *)
Lemma record_text_bound (r : record) : record_ok r → ascii_text (record_text r) ∧ zlen (record_text r) <= record_width r.
Proof.
  intros (_ & Hk & Hv). unfold record_text, obj. cbn [text_of]. rewrite map_map.
  set (items := map _ r). assert (H : Forall ascii_text items ∧ foldr (λ s n, zlen s + 1 + n) 0 items + 2 <= record_width r).
  { unfold items, record_width. clear items. induction r as [|[k v] r IH]; [by split; [constructor|]|].
    cbn [map fst snd] in *. apply Forall_cons in Hk as [Hk1 Hk]. apply Forall_cons in Hv as [Hv1 Hv]. destruct (IH Hk Hv) as [IH1 IH2].
    destruct (simple_text v Hv1) as [Ht Hw]. cbn [foldr fst snd key_str str_key]. rewrite plain_quoted by done. split.
    - constructor; [|done]. unfold ascii_text. change (34%N :: ustr k ++ [34%N]) with ([34%N] ++ ustr k ++ [34%N]).
      rewrite !Forall_app. split_and!; [by repeat constructor| |by repeat constructor|by constructor].
      apply Forall_forall. intros c Hc. unfold plain_key in Hk1. rewrite forallb_forall in Hk1. apply list_elem_of_In in Hc.
      specialize (Hk1 c Hc). rewrite !andb_true_iff, N.leb_le, N.ltb_lt in Hk1. lia.
    - unfold zlen in *. cbn [length app] in *. rewrite !length_app. cbn [length app] in *. lia. }
  destruct H as [H1 H2]. destruct (join_comma items H1) as [H3 H4]. split.
  - constructor; [lia|]. apply Forall_app. split; [done|by repeat constructor].
  - unfold zlen in *. cbn [length]. rewrite length_app. cbn [length]. lia.
Qed.

Lemma ascii_encode (s : pystr) : ascii_text s → utf8_encode s = Ok (map ascii_of_N s).
Proof.
  intros Hs. unfold utf8_encode. assert (forallb scalar s = true ∧ utf8_bytes s = s) as [-> ->]; [|done].
  induction Hs as [|c s Hc Hs [IH1 IH2]]; [done|]. unfold utf8_bytes in *. cbn [forallb map concat]. rewrite IH1, IH2. split.
  - rewrite andb_true_r. apply scalar_bounds. lia.
  - unfold utf8_char. by rewrite (proj2 (N.ltb_lt _ _)) by lia.
Qed.

(** A line that is read as the record. *)
Definition line_of (r : record) (raw : bytes) : Prop :=
  ∃ text, raw = map ascii_of_N text ++ ["010"%char] ∧ utf8_decode (map ascii_of_N text) = Ok text ∧ loads text = Ok (obj r) ∧
    (10%N ∉ text).

Lemma record_encode (r : record) : record_ok r →
  ∃ raw, encode r = Ok raw ∧ line_of r raw ∧ zlen raw <= record_width r + 1.
Proof.
  intros Hr. destruct (record_text_bound r Hr) as [Ha Hw]. pose proof (record_readable r Hr) as Hj.
  exists (map ascii_of_N (record_text r) ++ ["010"%char]). split_and!.
  - unfold encode. rewrite (dumps_text (compact default_options) [] [] eq_refl eq_refl default_hooks) by done.
    cbn [mbind result_bind]. change (text_of (escape (compact default_options)) float_repr [] [] (obj r)) with (record_text r).
    by rewrite ascii_encode.
  - exists (record_text r). split_and!; [done| | |].
    + apply utf8_decode_encode. by apply ascii_encode.
    + unfold loads, loads_hooks. assert (startswith [BOM] (record_text r) = false) as -> by done.
      cbn [raise_if mbind result_bind]. by eapply (reads_back escape_ascii); [..|apply reads_default|exact Hj].
    + intros Hin. unfold ascii_text in Ha. rewrite Forall_forall in Ha. apply Ha in Hin. lia.
  - unfold zlen in *. rewrite length_app, length_map. cbn [length]. lia.
Qed.
(** *** Optional fields *)

Definition no_check (r : record) : record := set_field "failed_check" PNone r.
Definition no_reason (r : record) : record := set_field "reason" (PStr []) r.

Lemma set_field_ok (key : string) (v : pyobj) (r : record) : record_ok r → simple v → record_ok (set_field key v r).
Proof.
  intros (Hn & Hk & Hv) Hsimple. assert (Hkeys : map fst (set_field key v r) = map fst r).
  { unfold set_field. rewrite map_map. apply map_ext. by intros [k x]. }
  unfold record_ok. rewrite Hkeys. split_and!; [done|done|]. rewrite List.Forall_map in Hv. unfold set_field.
  rewrite !List.Forall_map. rewrite Forall_forall in *. intros [k x] Hin. cbn. destruct (String.eqb k key); [done|]. by apply (Hv _ Hin).
Qed.

Lemma none_set (key : string) (r : record) : NoDup (map fst r) → get_field key r = PNone → set_field key PNone r = r.
Proof.
  intros Hn Hg. unfold set_field. rewrite <-(map_id r) at 2. apply map_ext_in. intros [k x] Hin%list_elem_of_In.
  destruct (String.eqb_spec k key) as [->|]; [|done]. f_equal. revert Hg. unfold get_field.
  destruct (list_find _ r) as [[i [k' x']]|] eqn:Hf.
  - intros ->. apply list_find_Some in Hf as (Hi & Hk & _). cbn in Hk. subst k'. apply list_elem_of_lookup_1 in Hin as [j Hj].
    assert (i = j) as <-.
    { eapply NoDup_lookup; [exact Hn| |]; change (map fst r) with (fst <$> r); rewrite list_lookup_fmap; [by rewrite Hi|by rewrite Hj]. }
    congruence.
  - apply list_find_None in Hf. rewrite Forall_forall in Hf. exfalso. by apply (Hf _ Hin).
Qed.

(** What of a record is written. *)
Definition written (r r' : record) : Prop := r' = r ∨ r' = no_check r ∨ r' = no_reason r ∨ r' = no_reason (no_check r).

Lemma fit_spec (r : record) :
  record_ok r → record_width (no_reason (no_check r)) + 1 <= MAX_RECORD_BYTES →
  ∃ r' raw, fit r = Ok raw ∧ written r r' ∧ line_of r' raw ∧ zlen raw <= MAX_RECORD_BYTES.
Proof.
  intros Hr Hw. destruct (record_encode r Hr) as (raw & He & Hl & _). unfold fit. rewrite He. cbn [mbind result_bind].
  assert (Hpn : simple PNone) by (by left). assert (Hps : simple (PStr [])) by (right; left; by exists []).
  destruct (Z.ltb_spec MAX_RECORD_BYTES (zlen raw)) as [Hlong|Hshort].
  2:{ cbn [andb mbind result_bind mret result_ret]. rewrite !(proj2 (Z.ltb_ge _ _)) by done. cbn [mbind result_bind mret result_ret].
      exists r, raw. rewrite !(proj2 (Z.ltb_ge _ _)) by done. split_and!; [done|by left|done|done]. }
  assert (Hfinal : ∀ r1, record_ok r1 → no_reason r1 = no_reason (no_check r) → no_reason r1 = no_reason r ∨ no_reason r1 = no_reason (no_check r) →
    ∃ r' raw', (raw' ← encode (no_reason r1); raise_if (MAX_RECORD_BYTES <? zlen raw') ValueError "diagnostic record exceeds its limit";; mret raw') = Ok raw' ∧
      written r r' ∧ line_of r' raw' ∧ zlen raw' <= MAX_RECORD_BYTES).
  { intros r1 Hr1 Heq Hform. destruct (record_encode (no_reason r1)) as (raw1 & -> & Hl1 & Hw1); [by apply set_field_ok|].
    rewrite Heq in Hw1. exists (no_reason r1), raw1. cbn [mbind result_bind]. rewrite (proj2 (Z.ltb_ge _ _)) by lia.
    split_and!; [done|unfold written; naive_solver|done|lia]. }
  cbn [andb]. destruct (get_field "failed_check" r) eqn:Hg; cbn [negb mbind result_bind mret result_ret].
  1: { rewrite (proj2 (Z.ltb_lt _ _)) by done. apply Hfinal; [done| |by left]. unfold no_check. rewrite none_set; [done|apply Hr|done]. }
  all: destruct (record_encode (no_check r)) as (raw1 & He1 & Hl1 & _); [by apply set_field_ok|];
    unfold no_check in He1; rewrite He1; cbn [mbind result_bind mret result_ret];
    (destruct (Z.ltb_spec MAX_RECORD_BYTES (zlen raw1)) as [Hlong1|Hshort1]; [apply (Hfinal (no_check r)); [by apply set_field_ok|done|by right]|]);
    exists (no_check r), raw1; cbn [mbind result_bind mret result_ret]; rewrite (proj2 (Z.ltb_ge _ _)) by done;
    (split_and!; [done|right; by left|done|done]).
Qed.
End text.

(** ** The files of a log *)

Section log.
Context (path : pystr) (max_bytes : Z) (backups : nat).
Implicit Types (d : disk).

Lemma log_file_inj (i j : nat) : log_file path i = log_file path j → i = j.
Proof.
  destruct i as [|i], j as [|j]; cbn [log_file]; [done|..].
  - intros H%(f_equal length). rewrite !length_app in H. simpl in H. lia.
  - intros H%(f_equal length). rewrite !length_app in H. simpl in H. lia.
  - intros H%app_inv_head%app_inv_head%str_of_int_inj. lia.
Qed.

Definition within d : Prop := ∀ i c, (i ≤ backups)%nat → files d !! log_file path i = Some (Regular c) → zlen c <= max_bytes.
Definition others d d' : Prop := ∀ p, (∀ i, (i ≤ backups)%nat → p ≠ log_file path i) → files d' !! p = files d !! p.

(** A step that keeps every file within the limit and changes nothing else. *)
Definition keeps {A} (m : disk_m A) : Prop := ∀ d, (within d → within (m d).2) ∧ others d (m d).2.

Lemma keeps_same {A} (m : disk_m A) : (∀ d, files (m d).2 = files d) → keeps m.
Proof. intros H d. unfold within, others. rewrite (H d). by split. Qed.

Lemma keeps_ret {A} (a : A) : keeps (mret a).
Proof. by apply keeps_same. Qed.

Lemma keeps_lift {A} (m : result A) : keeps (lift m).
Proof. by apply keeps_same. Qed.

Lemma keeps_os {A} (text : pystr) : keeps (os_error (A := A) text).
Proof. apply keeps_lift. Qed.

Lemma keeps_at (p : pystr) : keeps (at_path p).
Proof. by apply keeps_same. Qed.

Lemma keeps_call : keeps call.
Proof. apply keeps_same. intros d. unfold call. by destruct (script d). Qed.

Lemma keeps_bind {A B} (m : disk_m A) (f : A → disk_m B) : keeps m → (∀ a, keeps (f a)) → keeps (m ≫= f).
Proof.
  intros Hm Hf d. destruct (Hm d) as [H1 H2]. unfold mbind, log_bind. destruct (m d) as [[a|e] d']; [|done].
  destruct (Hf a d') as [H3 H4]. split; [by auto|]. intros p Hp. rewrite (H4 p Hp). by apply H2.
Qed.

Lemma keeps_put (i : nat) (n : option node) :
  (i ≤ backups)%nat → (∀ c, n = Some (Regular c) → zlen c <= max_bytes) → keeps (put (log_file path i) n).
Proof.
  intros Hi Hn d. split.
  - intros Hw j c Hj. cbn [put snd files]. destruct (decide (log_file path j = log_file path i)) as [->|Hne].
    + rewrite lookup_partial_alter. rewrite decide_True by done. apply Hn.
    + rewrite lookup_partial_alter_ne by done. by apply Hw.
  - intros p Hp. cbn [put snd files]. rewrite lookup_partial_alter_ne; [done|]. intros Heq. by apply (Hp i Hi).
Qed.

Create HintDb log.
#[local] Hint Resolve keeps_ret keeps_lift keeps_os keeps_at keeps_call : log.
Ltac keeps := repeat (apply keeps_bind; [auto with log|intros ?]); repeat case_match; auto with log.

Lemma keeps_checked : keeps checked.
Proof. unfold checked. keeps. Qed.
#[local] Hint Resolve keeps_checked : log.

Lemma keeps_unlink (i : nat) : (i ≤ backups)%nat → keeps (unlink_if_there (log_file path i)).
Proof. intros Hi. unfold unlink_if_there. keeps; by apply keeps_put. Qed.

Lemma keeps_replace (i j : nat) :
  (i ≤ backups)%nat → (j ≤ backups)%nat → keeps (replace_if_there (log_file path i) (log_file path j)).
Proof.
  intros Hi Hj. unfold replace_if_there. apply keeps_bind; [auto with log|intros _].
  intros d. unfold mbind, log_bind, at_path. destruct (files d !! log_file path i) as [n|] eqn:Hn; [|by apply keeps_ret].
  assert (Hput : ∀ x, n = x → (within d → within ((put (log_file path j) (Some x);; put (log_file path i) None) d).2) ∧
    others d ((put (log_file path j) (Some x);; put (log_file path i) None) d).2).
  { intros x <-. destruct (keeps_put i None Hi) with (d := {| files := <[log_file path j := n]> (files d); script := script d |}) as [H1 H2]; [done|].
    split.
    - intros Hw. apply H1. intros k c Hk. cbn [files]. destruct (decide (log_file path k = log_file path j)) as [->|Hne].
      + rewrite lookup_insert_eq. intros [= ->]. by apply (Hw i c Hi).
      + rewrite lookup_insert_ne by done. by apply Hw.
    - intros p Hp. transitivity (files {| files := <[log_file path j := n]> (files d); script := script d |} !! p); [by apply H2|].
      cbn [files]. rewrite lookup_insert_ne; [done|]. intros Heq. by apply (Hp j Hj). }
  destruct (files d !! log_file path j) as [[| |]|], n; try (by apply keeps_os); by apply Hput.
Qed.

Lemma keeps_shift (n : nat) : (n ≤ backups)%nat → keeps (shift_files path n).
Proof.
  induction n as [|n IH]; intros Hn; cbn [shift_files]; [auto with log|].
  apply keeps_bind; [apply keeps_replace; lia|intros _; apply IH; lia].
Qed.

Lemma keeps_rotate : keeps (rotate path backups).
Proof.
  assert (H : ∀ b, (b ≤ backups)%nat → keeps (rotate path b)); [|by apply H].
  intros [|b] Hb; cbn [rotate]; [by apply keeps_unlink|].
  apply keeps_bind; [by apply keeps_unlink|intros _]. by apply keeps_shift.
Qed.

Lemma keeps_open : 0 <= max_bytes → keeps (open_log (log_file path 0)).
Proof.
  intros Hmax. unfold open_log. apply keeps_bind; [auto with log|intros _]. apply keeps_bind; [auto with log|intros n].
  repeat case_match; auto with log. apply keeps_bind; [|auto with log].
  apply (keeps_put 0); [lia|]. intros c [= <-]. exact Hmax.
Qed.

Lemma keeps_write (raw : bytes) : 0 <= max_bytes → keeps (write_if_fits path max_bytes raw).
Proof.
  intros Hmax. pose proof (Nat.le_0_l backups) as H0. unfold write_if_fits. apply keeps_bind; [by apply keeps_open|].
  intros content. apply keeps_bind; [auto with log|intros _].
  case_match eqn:Hfits; [auto with log|]. apply Z.ltb_ge in Hfits.
  apply keeps_bind; [auto with log|intros [f|]]; (apply keeps_bind; [|auto with log]); apply (keeps_put 0); [done| |done|].
  - intros c [= <-]. unfold zlen in *. rewrite !length_app, length_take. rewrite !length_app in *. lia.
  - intros c [= <-]. unfold zlen in *. rewrite !length_app. lia.
Qed.

Lemma keeps_append (raw : bytes) : 0 <= max_bytes → keeps (append path max_bytes backups raw).
Proof.
  intros Hmax. unfold append. apply keeps_bind; [by apply keeps_write|intros [|]]; [auto with log|].
  apply keeps_bind; [apply keeps_rotate|intros _]. apply keeps_bind; [by apply keeps_write|intros [|]]; auto with log.
Qed.

Lemma keeps_records `{FR : !FloatRepr} (l : list (result record)) :
  0 <= max_bytes → keeps (append_records path max_bytes backups l).
Proof.
  intros Hmax. induction l as [|r l IH]; cbn [append_records]; [auto with log|].
  apply keeps_bind; [auto with log|intros x]. apply keeps_bind; [auto with log|intros raw].
  apply keeps_bind; [by apply keeps_append|done].
Qed.

(** ** A disk that works *)

Definition calm d : Prop := script d = [].
Definition plain d : Prop := ∀ i, (i ≤ backups)%nat → files d !! log_file path i = None ∨ ∃ c, files d !! log_file path i = Some (Regular c).

(** The content of a file; nothing where there is none. *)
Definition holds d (i : nat) (c : bytes) : Prop :=
  files d !! log_file path i = Some (Regular c) ∨ c = [] ∧ files d !! log_file path i = None.

(** The same files, but for one. *)
Definition with_file d (i : nat) (c : bytes) : disk := {| files := <[log_file path i := Regular c]> (files d); script := [] |}.

Lemma checked_calm d : calm d → checked d = (Ok (), d).
Proof. unfold calm, checked. unfold mbind, log_bind, call. by intros ->. Qed.

Lemma open_log_calm d (c : bytes) :
  calm d → holds d 0 c → open_log (log_file path 0) d = (Ok c, with_file d 0 c).
Proof.
  intros Hd Hc. unfold open_log. unfold mbind at 1, log_bind at 1. rewrite checked_calm by done.
  unfold mbind, log_bind, at_path, mret, log_ret, put, with_file. unfold calm in Hd.
  destruct Hc as [Hc|[-> Hc]]; rewrite Hc.
  - rewrite insert_id by done. destruct d; simpl in *; by subst.
  - by rewrite Hd.
Qed.

Lemma write_calm d (c raw : bytes) :
  calm d → holds d 0 c →
  write_if_fits path max_bytes raw d =
  if max_bytes <? zlen c + zlen (line_break c) + zlen raw then (Ok false, with_file d 0 c)
  else (Ok true, with_file d 0 (c ++ line_break c ++ raw)).
Proof.
  intros Hd Hc. unfold write_if_fits. unfold mbind at 1, log_bind at 1. rewrite (open_log_calm d c) by done.
  unfold mbind at 1, log_bind at 1. rewrite checked_calm by done.
  case_match; [done|]. unfold mbind, log_bind, call, with_file, put, mret, log_ret. cbn [script files].
  do 2 f_equal. apply map_eq. intros p. destruct (decide (p = log_file path 0)) as [->|Hne].
  - by rewrite lookup_partial_alter_eq, lookup_insert_eq.
  - by rewrite lookup_partial_alter_ne, !lookup_insert_ne by done.
Qed.

Lemma with_file_other d (i j : nat) (c : bytes) : i ≠ j → files (with_file d i c) !! log_file path j = files d !! log_file path j.
Proof. intros Hne. cbn [with_file files]. rewrite lookup_insert_ne; [done|]. by intros ?%log_file_inj. Qed.

Lemma with_file_holds d (i : nat) (c : bytes) : files (with_file d i c) !! log_file path i = Some (Regular c).
Proof. cbn [with_file files]. apply lookup_insert_eq. Qed.

Lemma shift_calm (n : nat) : ∀ d,
  (n ≤ backups)%nat → calm d → plain d → files d !! log_file path n = None →
  ∃ d', shift_files path n d = (Ok (), d') ∧ calm d' ∧ files d' !! log_file path 0 = None ∧
    (∀ i, (i < n)%nat → files d' !! log_file path (S i) = files d !! log_file path i) ∧
    ∀ i, (n < i)%nat → files d' !! log_file path i = files d !! log_file path i.
Proof.
  induction n as [|n IH]; intros d Hn Hd Hp Hnone; cbn [shift_files].
  { exists d. split_and!; [done|done|done|lia|done]. }
  set (d1 := {| files := match files d !! log_file path n with
                         | Some x => delete (log_file path n) (<[log_file path (S n) := x]> (files d))
                         | None => files d
                         end; script := [] |}).
  assert (Hne : log_file path n ≠ log_file path (S n)) by (intros ?%log_file_inj; lia).
  assert (Hstep : replace_if_there (log_file path n) (log_file path (S n)) d = (Ok (), d1)).
  { unfold replace_if_there. unfold mbind at 1, log_bind at 1. rewrite checked_calm by done.
    unfold mbind, log_bind, at_path, put, mret, log_ret, d1. rewrite Hnone. unfold calm in Hd.
    destruct (Hp n) as [Hx|[c Hx]]; [lia|..]; rewrite Hx; [destruct d; simpl in *; by subst|].
    cbn [files script]. by rewrite Hd. }
  assert (Hn1 : files d1 !! log_file path n = None).
  { unfold d1. cbn [files]. destruct (files d !! log_file path n) eqn:Hx; [by rewrite lookup_delete_eq|done]. }
  assert (Hsn : files d1 !! log_file path (S n) = files d !! log_file path n).
  { unfold d1. cbn [files]. destruct (files d !! log_file path n) eqn:Hx; [|done].
    by rewrite lookup_delete_ne, lookup_insert_eq. }
  assert (Hother : ∀ i, i ≠ n → i ≠ S n → files d1 !! log_file path i = files d !! log_file path i).
  { intros i H1 H2. unfold d1. cbn [files]. destruct (files d !! log_file path n) eqn:Hx; [|done].
    rewrite lookup_delete_ne, lookup_insert_ne; [done|..]; intros ?%log_file_inj; lia. }
  destruct (IH d1) as (d' & Hs & Hd' & H0 & Hlow & Hhigh); [lia|done| |done|].
  { intros i Hi. destruct (decide (i = n)) as [->|]; [by left|]. destruct (decide (i = S n)) as [->|].
    - rewrite Hsn. apply Hp. lia.
    - rewrite Hother by done. by apply Hp. }
  exists d'. unfold mbind, log_bind. rewrite Hstep, Hs. split_and!; [done|done|done| |].
  - intros i Hi. destruct (decide (i = n)) as [->|]; [by rewrite Hhigh by lia|]. rewrite Hlow by lia. apply Hother; lia.
  - intros i Hi. rewrite Hhigh by lia. apply Hother; lia.
Qed.

Lemma rotate_calm d :
  calm d → plain d →
  ∃ d', rotate path backups d = (Ok (), d') ∧ calm d' ∧ files d' !! log_file path 0 = None ∧
    ∀ i, (i < backups)%nat → files d' !! log_file path (S i) = files d !! log_file path i.
Proof.
  intros Hd Hp. set (d1 := {| files := delete (log_file path backups) (files d); script := [] |}).
  assert (Hunlink : unlink_if_there (log_file path backups) d = (Ok (), d1)).
  { unfold unlink_if_there. unfold mbind at 1, log_bind at 1. rewrite checked_calm by done.
    unfold mbind, log_bind, at_path, put, d1. unfold calm in Hd.
    destruct (Hp backups) as [Hx|[c Hx]]; [lia|..]; by rewrite Hx, Hd. }
  destruct (decide (backups = 0%nat)) as [H0|H0].
  - exists d1. assert (Hrot : rotate path backups d = unlink_if_there (log_file path backups) d) by (unfold rotate; by rewrite H0).
    assert (Hz : log_file path 0 = log_file path backups) by (by rewrite H0). rewrite Hrot, Hz.
    split_and!; [done|done|by unfold d1; apply lookup_delete_eq|lia].
  - destruct (shift_calm backups d1) as (d' & Hs & Hd' & Hz & Hlow & _); [done|done| |by unfold d1; apply lookup_delete_eq|].
    { intros i Hi. unfold d1. cbn [files]. destruct (decide (i = backups)) as [->|Hne].
      - left. apply lookup_delete_eq.
      - rewrite lookup_delete_ne; [by apply Hp|]. intros ?%log_file_inj. lia. }
    exists d'. split_and!; [|done|done|].
    + unfold rotate. destruct backups as [|b]; [done|]. unfold mbind, log_bind. by rewrite Hunlink.
    + intros i Hi. rewrite Hlow by done. unfold d1. cbn [files]. rewrite lookup_delete_ne; [done|]. intros ?%log_file_inj. lia.
Qed.

(** One line: at the end of the log, or alone after a rotation. *)
Lemma append_calm d (c raw : bytes) :
  calm d → plain d → holds d 0 c → raw ≠ [] → zlen raw <= max_bytes →
  ∃ d', append path max_bytes backups raw d = (Ok (), d') ∧ calm d' ∧ plain d' ∧
    if zlen c + zlen (line_break c) + zlen raw <=? max_bytes then
      files d' !! log_file path 0 = Some (Regular (c ++ line_break c ++ raw)) ∧
      ∀ i, (0 < i)%nat → files d' !! log_file path i = files d !! log_file path i
    else
      files d' !! log_file path 0 = Some (Regular raw) ∧
      ∀ i, (i < backups)%nat → files d' !! log_file path (S i) = files d !! log_file path i.
Proof.
  intros Hd Hp Hc Hraw Hmax. unfold append. unfold mbind at 1, log_bind at 1. rewrite (write_calm d c raw) by done.
  assert (Hplain : ∀ d0 x, plain d0 → plain (with_file d0 0 x)).
  { intros d0 x H i Hi. destruct (decide (i = 0%nat)) as [->|Hne]; [right; exists x; apply with_file_holds|].
    rewrite with_file_other by done. by apply H. }
  destruct (Z.ltb_spec max_bytes (zlen c + zlen (line_break c) + zlen raw)) as [Hlt|Hle].
  - rewrite (proj2 (Z.leb_gt _ _)) by done.
    assert (Hreg : files d !! log_file path 0 = Some (Regular c)).
    { destruct Hc as [Hc|[-> _]]; [done|]. exfalso. unfold line_break, zlen in *. simpl in Hlt. lia. }
    destruct (rotate_calm (with_file d 0 c)) as (d1 & Hr & Hd1 & H0 & Hup); [done|by apply Hplain|].
    unfold mbind at 1, log_bind at 1. rewrite Hr. unfold mbind, log_bind. rewrite (write_calm d1 []); [|done|by right].
    cbn [line_break last app]. rewrite (proj2 (Z.ltb_ge _ _)) by (unfold zlen in *; simpl; lia).
    exists (with_file d1 0 raw). split_and!; [done|done| |apply with_file_holds|].
    + apply Hplain. intros [|i] Hi; [by left|]. rewrite Hup by lia.
      destruct i as [|i]; [right; exists c; apply with_file_holds|]. rewrite with_file_other by done. apply Hp. lia.
    + intros i Hi. rewrite with_file_other by done. rewrite Hup by done.
      destruct i as [|i]; [by rewrite with_file_holds|]. by rewrite with_file_other.
  - rewrite (proj2 (Z.leb_le _ _)) by done. exists (with_file d 0 (c ++ line_break c ++ raw)).
    split_and!; [done|done|by apply Hplain|apply with_file_holds|]. intros i Hi. apply with_file_other. lia.
Qed.

(** ** All lines of a round *)

Definition ends_line (raw : bytes) : Prop := ∃ l, raw = l ++ ["010"%char].

Fixpoint append_all (raws : list bytes) : disk_m unit :=
  match raws with [] => mret () | raw :: raws' => _ ← append path max_bytes backups raw; append_all raws' end.

(** The content of a file after lines were appended to it. *)
Definition extended (c : bytes) (raws : list bytes) : bytes :=
  match raws with [] => c | _ => c ++ line_break c ++ concat raws end.

Lemma ended_no_break (raw : bytes) : ends_line raw → line_break raw = [].
Proof. intros [l ->]. unfold line_break. rewrite last_snoc. by rewrite bool_decide_eq_true_2. Qed.

Lemma extended_cons (c raw : bytes) (raws : list bytes) :
  ends_line raw → extended (c ++ line_break c ++ raw) raws = extended c (raw :: raws).
Proof.
  intros Hraw. unfold extended. destruct raws as [|r raws]; [by cbn [concat]; rewrite app_nil_r|].
  rewrite (ended_no_break (c ++ line_break c ++ raw)).
  - cbn [app]. rewrite <-!(assoc_L (++)). done.
  - destruct Hraw as [l ->]. exists (c ++ line_break c ++ l). by rewrite !(assoc_L (++)).
Qed.

Lemma ends_nonempty (raw : bytes) : ends_line raw → raw ≠ [].
Proof. intros [l ->] H. by destruct l. Qed.

(** What fits is appended. *)
Lemma append_fits (raws : list bytes) : ∀ d (c : bytes),
  calm d → plain d → holds d 0 c → Forall ends_line raws → zlen (extended c raws) <= max_bytes →
  ∃ d', append_all raws d = (Ok (), d') ∧ calm d' ∧ plain d' ∧ holds d' 0 (extended c raws) ∧
    ∀ i, (0 < i)%nat → files d' !! log_file path i = files d !! log_file path i.
Proof.
  induction raws as [|raw raws IH]; intros d c Hd Hp Hc Hends Hmax; cbn [append_all].
  { exists d. by split_and!. }
  apply Forall_cons in Hends as [Hraw Hends]. rewrite <-extended_cons in Hmax |- * by done.
  assert (Hlen : zlen (c ++ line_break c ++ raw) <= max_bytes).
  { unfold extended in Hmax. destruct raws; [done|]. unfold zlen in *. rewrite !length_app in *. lia. }
  assert (Hsum : zlen (c ++ line_break c ++ raw) = zlen c + zlen (line_break c) + zlen raw) by (unfold zlen; rewrite !length_app; lia).
  destruct (append_calm d c raw) as (d1 & Ha & Hd1 & Hp1 & Hcase); [done|done|done|by apply ends_nonempty| |].
  { pose proof (zlen_nonneg c). pose proof (zlen_nonneg (line_break c)). lia. }
  rewrite (proj2 (Z.leb_le _ _)) in Hcase by lia. destruct Hcase as [Hfile Hrest].
  destruct (IH d1 (c ++ line_break c ++ raw)) as (d' & Hr & Hd' & Hp' & Hh & Ho); [done|done|by left|done|done|].
  exists d'. unfold mbind, log_bind. rewrite Ha. split_and!; [done|done|done|done|].
  intros i Hi. rewrite Ho by done. by apply Hrest.
Qed.

(** Lines that fit a file are all kept: at the end of the log, or, where one of them
    rotates the log, before and after. *)
Lemma append_all_kept (raws : list bytes) : ∀ d (c : bytes),
  calm d → plain d → holds d 0 c → (0 < backups)%nat → Forall ends_line raws → zlen (concat raws) <= max_bytes →
  ∃ d' before after, append_all raws d = (Ok (), d') ∧ raws = before ++ after ∧
    ((after = [] ∧ holds d' 0 (extended c before) ∧ ∀ i, (0 < i)%nat → files d' !! log_file path i = files d !! log_file path i)
     ∨ holds d' 0 (concat after) ∧ holds d' 1 (extended c before) ∧
       ∀ i, (0 < i < backups)%nat → files d' !! log_file path (S i) = files d !! log_file path i).
Proof.
  induction raws as [|raw raws IH]; intros d c Hd Hp Hc Hb Hends Hmax; cbn [append_all].
  { exists d, [], []. split_and!; [done|done|]. left. by split_and!. }
  apply Forall_cons in Hends as [Hraw Hends].
  assert (Hz : zlen (concat (raw :: raws)) = zlen raw + zlen (concat raws)) by (unfold zlen; cbn [concat]; rewrite length_app; lia).
  pose proof (zlen_nonneg raw). pose proof (zlen_nonneg (concat raws)).
  destruct (append_calm d c raw) as (d1 & Ha & Hd1 & Hp1 & Hcase); [done|done|done|by apply ends_nonempty|lia|].
  unfold mbind, log_bind. rewrite Ha. destruct (_ <=? max_bytes) in Hcase; destruct Hcase as [Hfile Hrest].
  - destruct (IH d1 (c ++ line_break c ++ raw)) as (d' & before & after & Hr & -> & Hres); [done|done|by left|done|done|lia|].
    exists d', (raw :: before), after. rewrite Hr. split_and!; [done|done|]. rewrite <-extended_cons by done.
    destruct Hres as [(-> & Hh & Ho)|(Hh & H1 & Ho)]; [left|right]; split_and!; try done.
    + intros i Hi. rewrite Ho by done. by apply Hrest.
    + intros i Hi. rewrite Ho by done. apply Hrest. lia.
  - destruct (append_fits raws d1 raw) as (d' & Hr & Hd' & Hp' & Hh & Ho); [done|done|by left|done| |].
    { unfold extended. destruct raws as [|r raws]; [lia|]. rewrite ended_no_break by done. cbn [app].
      unfold zlen in *. rewrite length_app. lia. }
    exists d', [], (raw :: raws). rewrite Hr. split_and!; [done|done|]. right. split_and!.
    + unfold extended in Hh. destruct raws as [|r raws]; [by cbn [concat]; rewrite app_nil_r|].
      rewrite ended_no_break in Hh by done. done.
    + cbn [extended]. unfold holds. rewrite (Ho 1%nat) by lia. rewrite (Hrest 0%nat) by lia. exact Hc.
    + intros i Hi. rewrite Ho by lia. apply Hrest. lia.
Qed.
End log.

(** ** The records of a round *)

Lemma scalar_encode (s : pystr) : forallb scalar s = true → ∃ b, utf8_encode s = Ok b.
Proof. intros Hs. unfold utf8_encode. rewrite Hs. by eexists. Qed.

Definition quoted_width (s : pystr) : Z := zlen (quoted escape_ascii s).

(** What the log relies on: identifiers are characters and short, numbers are not
    negative and below [2 ^ 62].  Wire identifiers have at most 128 characters and SS58
    keys 48, so that the widths are at most 1538 and 50. *)
Record recordable (r : RoundResult) (validator_hotkey : pystr) (recorded_at_ms : Z) (challenge_id task_id : pystr) : Prop := {
  rc_challenge : rr_challenge_id r = Some challenge_id;
  rc_task : rr_task_id r = Some task_id;
  rc_identifiers : Forall (λ s, forallb scalar s = true) [validator_hotkey; challenge_id; task_id];
  rc_task_width : quoted_width task_id <= 66;
  rc_width : ∀ reg, reg ∈ rr_assigned_miners r →
    quoted_width validator_hotkey + quoted_width challenge_id + quoted_width reg.2 <= 2400;
  rc_round_width : quoted_width validator_hotkey + quoted_width challenge_id <= 2400;
  rc_miners : ∀ reg, reg ∈ rr_assigned_miners r → forallb scalar reg.2 = true ∧ 0 <= reg.1 < 2 ^ 62;
  rc_clock : 0 <= recorded_at_ms < 2 ^ 62;
  rc_count : zlen (rr_assigned_miners r) < 2 ^ 62;
  rc_evaluations : ∀ m, m ∈ rr_evaluations r ++ rr_diagnostic_evaluations r →
    0 <= me_latency_ms m < 2 ^ 62 ∧ 0 <= me_grading_duration_ms m < 2 ^ 62 ∧ zlen (ev_checks (me_result m)) < 2 ^ 62 ∧
    (∀ s, ev_failed_check (me_result m) = Some s → forallb scalar s = true) ∧
    ∀ t, rr_checks_total r = Some t → zlen (ev_checks (me_result m)) <= t;
  rc_total : ∀ t, rr_checks_total r = Some t → 0 <= t < 2 ^ 62
}.

Section records.
Context `{UD : !UnicodeData, SH : !Sha256, FR : !FloatRepr, SL : !Sha256Laws}.
Context (r : RoundResult) (validator_hotkey : pystr) (recorded_at_ms : Z) (challenge_id task_id : pystr).
Context (RC : recordable r validator_hotkey recorded_at_ms challenge_id task_id).

Lemma detail_scalar (value : pystr) : forallb scalar (detail value) = true.
Proof. by apply lenient_scalar. Qed.

Lemma simple_str (s : pystr) : forallb scalar s = true → simple (PStr s).
Proof. intros Hs. right. left. by exists s. Qed.

Lemma simple_key (s : string) : simple (str_key s).
Proof. apply simple_str, ustr_scalar. Qed.

Lemma simple_int (z : Z) : 0 <= z < 2 ^ 62 → simple (PInt z).
Proof. intros Hz. right. right. by exists z. Qed.

Lemma simple_opt_str {A} (f : A → pystr) (x : option A) :
  (∀ a, x = Some a → forallb scalar (f a) = true) → simple (opt_str (f <$> x)).
Proof. intros H. destruct x as [a|]; [by apply simple_str, H|by left]. Qed.

Lemma simple_opt_int {A} (f : A → Z) (x : option A) :
  (∀ a, x = Some a → 0 <= f a < 2 ^ 62) → simple (opt_int (f <$> x)).
Proof. intros H. destruct x as [a|]; [by apply simple_int, H|by left]. Qed.

Lemma round_reason_text (c : RoundReason) : forallb scalar (round_reason_value c) = true ∧ quoted_width (round_reason_value c) <= 40.
Proof. split; destruct c; vm_compute; done. Qed.

Lemma miner_reason_text (c : MinerReason) : forallb scalar (miner_reason_value c) = true ∧ quoted_width (miner_reason_value c) <= 40.
Proof. split; destruct c; vm_compute; done. Qed.

Lemma reason_text (c : ReasonCode) : forallb scalar (reason_value c) = true ∧ quoted_width (reason_value c) <= 40.
Proof. destruct c as [c|c]; [apply miner_reason_text|apply round_reason_text]. Qed.

Lemma stage_text (s : Stage) : forallb scalar (stage_value s) = true ∧ quoted_width (stage_value s) <= 40.
Proof. split; destruct s; vm_compute; done. Qed.

Lemma opt_width {A} (f : A → pystr) (x : option A) : (∀ a, quoted_width (f a) <= 40) → width (opt_str (f <$> x)) <= 40.
Proof. intros H. destruct x as [a|]; [apply H|done]. Qed.

Lemma opt_int_width {A} (f : A → Z) (x : option A) : width (opt_int (f <$> x)) <= 64.
Proof. by destruct x. Qed.

Lemma digest_text (b : bytes) :
  forallb scalar (hexdigest (sha256 b)) = true ∧ quoted_width (hexdigest (sha256 b)) = 66.
Proof.
  pose proof (hexdigest_lower (sha256 b)) as Hlow. rewrite forallb_forall in Hlow.
  assert (Hc : ∀ c, is_lower_hex c = true → (48 <= c < 128)%N ∧ c ≠ 92%N).
  { intros c. unfold is_lower_hex, is_digit. rewrite orb_true_iff, !andb_true_iff, !N.leb_le. lia. }
  split.
  - apply forallb_forall. intros c Hin. apply scalar_bounds. specialize (Hc c (Hlow c Hin)). lia.
  - unfold quoted_width, quoted. assert (Hq : concat (map escape_ascii (hexdigest (sha256 b))) = hexdigest (sha256 b)).
    { induction (hexdigest (sha256 b)) as [|c s IH]; [done|]. cbn [map concat]. rewrite IH by (intros x Hx; apply Hlow; by right).
      destruct (Hc c) as [Hb Hn]; [apply Hlow; by left|]. assert (escape_ascii c = [c]) as ->; [|done]. unfold escape_ascii.
      rewrite (proj2 (N.leb_le 32 c)), (proj2 (N.leb_le c 126)) by (unfold is_lower_hex, is_digit in *; specialize (Hlow c (or_introl eq_refl));
        rewrite orb_true_iff, !andb_true_iff, !N.leb_le in Hlow; lia). cbn [andb orb]. unfold escape_char.
      rewrite !(proj2 (N.eqb_neq c _)) by lia. by rewrite (proj2 (N.ltb_ge _ _)) by lia. }
    rewrite Hq. unfold zlen. cbn [length]. rewrite length_app, hexdigest_length, sha256_length. done.
Qed.

Lemma record_id_Ok (kind : string) (miner : option pystr) :
  Forall (λ s, forallb scalar s = true) (option_list miner) →
  ∃ id, record_id validator_hotkey challenge_id task_id kind miner = Ok id ∧ forallb scalar id = true ∧ quoted_width id = 66.
Proof.
  intros Hm. unfold record_id. set (identity := [validator_hotkey; challenge_id; task_id; ustr kind] ++ option_list miner).
  assert (Hj : json_value default_hooks (PList (map PStr identity))).
  { apply readable_list. rewrite List.Forall_map. pose proof (rc_identifiers _ _ _ _ _ RC) as Hid.
    rewrite !Forall_cons in Hid. destruct Hid as (H1 & H2 & H3 & _). unfold identity. rewrite !Forall_app, !Forall_cons.
    split_and!; [exact H1|exact H2|exact H3|apply ustr_scalar|by constructor|]. exact Hm. }
  rewrite (dumps_text (compact (keep_unicode default_options)) [] [] eq_refl eq_refl default_hooks) by exact Hj.
  cbn [mbind result_bind].
  destruct (scalar_encode (text_of (escape (compact (keep_unicode default_options))) float_repr [] [] (PList (map PStr identity)))) as [b ->].
  { by apply (text_of_scalar (compact (keep_unicode default_options)) [] [] default_hooks). }
  cbn [mbind result_bind mret result_ret]. exists (hexdigest (sha256 b)). split; [done|]. apply digest_text.
Qed.

Lemma common_simple : Forall simple (map snd (common validator_hotkey recorded_at_ms r challenge_id task_id)).
Proof.
  pose proof (rc_identifiers _ _ _ _ _ RC) as Hid. rewrite !Forall_cons in Hid. destruct Hid as (H1 & H2 & H3 & _).
  unfold common. cbn [map snd]. repeat apply Forall_cons_2; [..|by constructor].
  - apply simple_int. lia.
  - apply simple_int, (rc_clock _ _ _ _ _ RC).
  - by apply simple_str.
  - by apply simple_str.
  - by apply simple_str.
  - apply simple_key.
  - apply simple_opt_str. intros a _. apply round_reason_text.
  - apply simple_key.
Qed.

Lemma evaluation_of_bounds (reg : Z * pystr) (m : MinerEvaluation) :
  evaluation_of r reg = Some m → m ∈ rr_evaluations r ++ rr_diagnostic_evaluations r.
Proof.
  unfold evaluation_of. intros H%last_Some_elem_of. apply list_elem_of_filter in H as [_ H]. rewrite elem_of_app.
  destruct (rr_diagnostic_evaluations r) eqn:Hd; [by left|by right].
Qed.

Lemma count_bounds (p : CheckResult → bool) (l : list CheckResult) : 0 <= count_checks p l <= zlen l.
Proof. unfold count_checks, zlen. pose proof (length_filter (λ c, p c = true) l). lia. Qed.

Lemma miner_simple (reg : Z * pystr) :
  reg ∈ rr_assigned_miners r → Forall simple (map snd (miner_fields r reg)).
Proof.
  intros Hreg. destruct (rc_miners _ _ _ _ _ RC reg Hreg) as [Hkey Huid].
  pose proof (evaluation_of_bounds reg) as Hin. pose proof (rc_evaluations _ _ _ _ _ RC) as Hev.
  pose proof (rc_total _ _ _ _ _ RC) as Htotal. unfold miner_fields.
  set (item := evaluation_of r reg) in *.
  set (checks := match me_result <$> item with Some e => ev_checks e | None => [] end).
  assert (Hchecks : zlen checks < 2 ^ 62 ∧ ∀ t, rr_checks_total r = Some t → zlen checks <= t).
  { unfold checks. destruct item as [m|]; cbn [fmap option_fmap option_map].
    - destruct (Hev m (Hin m eq_refl)) as (_ & _ & H1 & _ & H2). by split.
    - split; [done|]. intros t Ht. destruct (Htotal t Ht). unfold zlen. cbn [length]. lia. }
  destruct Hchecks as [Hc1 Hc2].
  assert (Hp : ∀ p, 0 <= count_checks p checks < 2 ^ 62) by (intros p; pose proof (count_bounds p checks); lia).
  cbn [map snd]. repeat apply Forall_cons_2; [..|by constructor].
  - by apply simple_int.
  - by apply simple_str.
  - destruct item; apply simple_key.
  - destruct item as [m|]; cbn [fmap option_fmap option_map]; apply simple_opt_str; intros a _; [apply reason_text|apply miner_reason_text].
  - apply simple_opt_str. intros a _. apply miner_reason_text.
  - destruct item as [m|]; cbn [fmap option_fmap option_map].
    + apply simple_opt_str. intros a _. apply stage_text.
    + destruct (dispatch_of r reg); [apply simple_key|by left].
  - destruct item; apply simple_str; [apply detail_scalar|done].
  - apply simple_int, Hp.
  - apply simple_int, Hp.
  - destruct (rr_checks_total r) as [t|] eqn:Ht; [|by left]. by apply simple_int, Htotal.
  - apply simple_opt_int. intros t Ht. specialize (Hc2 t Ht). specialize (Htotal t Ht).
    pose proof (count_bounds (λ c, negb (bool_decide (res_outcome c = skipped))) checks). lia.
  - apply simple_opt_int. intros m Hm. apply (Hev m (Hin m Hm)).
  - apply simple_opt_int. intros m Hm. apply (Hev m (Hin m Hm)).
  - destruct item as [m|]; cbn [fmap option_fmap option_map mbind option_bind]; [|by left].
    destruct (ev_failed_check (me_result m)) as [s|] eqn:Hs; [|by left]. apply simple_str. by apply (Hev m (Hin m eq_refl)).
Qed.

Lemma outcome_simple : Forall simple (map snd (outcome_fields r)).
Proof.
  unfold outcome_fields. cbn [map snd]. repeat apply Forall_cons_2; [..|by constructor].
  - apply simple_opt_str. intros a _. apply stage_text.
  - apply simple_str, detail_scalar.
  - apply simple_int. pose proof (rc_count _ _ _ _ _ RC). pose proof (zlen_nonneg (rr_assigned_miners r)). lia.
Qed.

(** The widths of the parts of a record, without its optional fields. *)
Lemma record_width_app (a b : record) : record_width (a ++ b) = record_width a + record_width b - 2.
Proof.
  unfold record_width. rewrite map_app, foldr_app. set (n := foldr _ 2 (map _ b)).
  assert (H : ∀ l, foldr (λ (p : pystr * pyobj) n, zlen p.1 + width p.2 + 4 + n) n l =
    foldr (λ (p : pystr * pyobj) n, zlen p.1 + width p.2 + 4 + n) 2 l + n - 2).
  { induction l as [|p l IH]; cbn [foldr]; [lia|]. rewrite IH. lia. }
  apply H.
Qed.

Lemma bare_app (a b : record) : no_reason (no_check (a ++ b)) = no_reason (no_check a) ++ no_reason (no_check b).
Proof. unfold no_reason, no_check, set_field. by rewrite !map_app. Qed.

(** The widths of literal keys and values are numbers. *)
Ltac literals :=
  repeat match goal with
  | |- context [zlen (ustr (String ?a ?s))] =>
      let n := eval vm_compute in (zlen (ustr (String a s))) in change (zlen (ustr (String a s))) with n
  | |- context [width (str_key (String ?a ?s))] =>
      let n := eval vm_compute in (width (str_key (String a s))) in change (width (str_key (String a s))) with n
  end.

Lemma common_width :
  record_width (no_reason (no_check (common validator_hotkey recorded_at_ms r challenge_id task_id))) <=
  500 + quoted_width validator_hotkey + quoted_width challenge_id.
Proof.
  pose proof (rc_task_width _ _ _ _ _ RC) as Ht. unfold common, no_reason, no_check, set_field, record_width.
  cbn [map foldr fst snd String.eqb Ascii.eqb Bool.eqb]. 
  pose proof (opt_width round_reason_value (rr_reason_code r) (λ a, proj2 (round_reason_text a))) as Hr.
  assert (Hs : width (str_key (round_status_text (rr_status r))) <= 20) by (destruct (rr_status r); vm_compute; done).
  set (effect := width (str_key (if bool_decide (rr_status r = abandoned) then "unchanged"%string else "not_reported"%string))). assert (He : effect <= 20) by (unfold effect; case_bool_decide; vm_compute; done).
  literals. cbn [width]. unfold quoted_width in *. lia.
Qed.

Lemma outcome_width : record_width (no_reason (no_check (outcome_fields r))) <= 200.
Proof.
  unfold outcome_fields, no_reason, no_check, set_field, record_width. cbn [map foldr fst snd String.eqb Ascii.eqb Bool.eqb].
  pose proof (opt_width stage_value (rr_stage r) (λ a, proj2 (stage_text a))) as Hs. literals. cbn [width]. change (zlen (quoted escape_ascii [])) with 2. lia.
Qed.

Lemma miner_width (reg : Z * pystr) :
  record_width (no_reason (no_check (miner_fields r reg))) <= 900 + quoted_width reg.2.
Proof.
  unfold miner_fields, no_reason, no_check, set_field, record_width. cbn [map foldr fst snd String.eqb Ascii.eqb Bool.eqb].
  set (item := evaluation_of r reg).
  pose proof (opt_width miner_reason_value (dispatch_of r reg) (λ a, proj2 (miner_reason_text a))) as Hd.
  pose proof (opt_int_width me_grading_duration_ms item) as Hg. pose proof (opt_int_width me_latency_ms item) as Hl.
  set (w1 := width match me_result <$> item with Some e => str_key _ | None => _ end).
  assert (H1 : w1 <= 20) by (unfold w1; destruct item as [m|]; cbn; [destruct (ev_status (me_result m)); vm_compute; done|vm_compute; done]).
  set (w2 := width (opt_str match me_result <$> item with Some e => reason_value <$> _ | None => _ end)).
  assert (H2 : w2 <= 40).
  { unfold w2. destruct item as [m|]; cbn [fmap option_fmap option_map]; [|exact Hd].
    apply (opt_width reason_value). intros a. apply reason_text. }
  set (w3 := width (opt_str match me_result <$> item with Some e => stage_value <$> _ | None => _ end)).
  assert (H3 : w3 <= 40).
  { unfold w3. destruct item as [m|]; cbn [fmap option_fmap option_map]; [apply (opt_width stage_value); intros a; apply stage_text|].
    destruct (dispatch_of r reg); vm_compute; done. }
  set (w4 := width (opt_int (rr_checks_total r))). assert (H4 : w4 <= 64) by (unfold w4; by destruct (rr_checks_total r)).
  set (w5 := width (opt_int ((λ t, t - _) <$> _))). assert (H5 : w5 <= 64) by apply opt_int_width.
  literals. cbn [width]. change (zlen (quoted escape_ascii [])) with 2. unfold quoted_width. lia.
Qed.

Lemma nodup_keys (l : list string) : bool_decide (NoDup l) = true → NoDup l.
Proof. apply bool_decide_eq_true. Qed.

(** Every record of the round is made, well formed, and short without its optional fields. *)
Lemma made (kind : string) (miner : option pystr) (fields : record) (n : Z) :
  Forall (λ s, forallb scalar s = true) (option_list miner) → (zlen (ustr kind) <= 20) →
  bool_decide (NoDup (map fst (common validator_hotkey recorded_at_ms r challenge_id task_id ++
    [("record_id", PNone); ("record_type", PNone)]%string ++ fields))) = true →
  forallb plain_key (map fst fields) = true → Forall simple (map snd fields) →
  width (str_key kind) <= 24 →
  record_width (no_reason (no_check fields)) <= n →
  ∃ rec, make_record validator_hotkey recorded_at_ms r challenge_id task_id kind miner fields = Ok rec ∧ record_ok rec ∧
    record_width (no_reason (no_check rec)) <= 640 + quoted_width validator_hotkey + quoted_width challenge_id + n.
Proof.
  intros Hm _ Hn Hk Hs Hkind Hw. destruct (record_id_Ok kind miner Hm) as (id & Hid & Hsc & Hwid). unfold make_record. rewrite Hid.
  cbn [mbind result_bind]. eexists. split; [done|]. split.
  - split_and!.
    + apply bool_decide_eq_true in Hn. rewrite !map_app in Hn |- *. exact Hn.
    + rewrite !map_app, !Forall_app. split_and!; [by repeat constructor|by repeat constructor|].
      rewrite Forall_forall. intros k Hin. rewrite forallb_forall in Hk. by apply Hk, list_elem_of_In.
    + rewrite !map_app, !Forall_app. split_and!; [apply common_simple| |done].
      repeat apply Forall_cons_2; [by apply simple_str|apply simple_key|constructor].
  - rewrite !bare_app, !record_width_app. pose proof common_width as Hc.
    assert (Htwo : record_width (no_reason (no_check [("record_id", PStr id); ("record_type", str_key kind)]%string)) <= 130); [|lia].
    unfold no_reason, no_check, set_field, record_width. cbn [map foldr fst snd String.eqb Ascii.eqb Bool.eqb]. literals.
    cbn [width] in *. unfold quoted_width in Hwid. unfold str_key in *. lia.
Qed.

Lemma all_made :
  ∃ recs, round_records validator_hotkey recorded_at_ms r = map Ok recs ∧ length recs = S (length (rr_assigned_miners r)) ∧
    Forall (λ rec, record_ok rec ∧ record_width (no_reason (no_check rec)) + 1 <= MAX_RECORD_BYTES) recs.
Proof.
  unfold round_records. rewrite (rc_challenge _ _ _ _ _ RC), (rc_task _ _ _ _ _ RC).
  pose proof (rc_round_width _ _ _ _ _ RC) as Hround. pose proof (rc_width _ _ _ _ _ RC) as Hwidth.
  destruct (made "round_outcome" None (outcome_fields r) 200) as (rec & Hrec & Hok & Hw);
    [constructor|by vm_compute|by vm_compute|by vm_compute|apply outcome_simple|by vm_compute|apply outcome_width|].
  assert (Hminers : ∃ recs, map (λ reg, make_record validator_hotkey recorded_at_ms r challenge_id task_id "miner_evaluation"
      (Some reg.2) (miner_fields r reg)) (rr_assigned_miners r) = map Ok recs ∧ length recs = length (rr_assigned_miners r) ∧
    Forall (λ rec, record_ok rec ∧ record_width (no_reason (no_check rec)) + 1 <= MAX_RECORD_BYTES) recs).
  { assert (Hin : ∀ reg, reg ∈ rr_assigned_miners r → reg ∈ rr_assigned_miners r) by done. revert Hin.
    generalize (rr_assigned_miners r) at 1 3 4. intros regs. induction regs as [|reg regs IH]; intros Hin; [by exists []|].
    destruct IH as (recs & Heq & Hlen & Hall); [intros x Hx; apply Hin; by right|].
    assert (Hreg : reg ∈ rr_assigned_miners r) by (apply Hin; by left).
    destruct (made "miner_evaluation" (Some reg.2) (miner_fields r reg) (900 + quoted_width reg.2)) as (rec' & Hrec' & Hok' & Hw').
    - constructor; [apply (rc_miners _ _ _ _ _ RC reg Hreg)|constructor].
    - by vm_compute.
    - by vm_compute.
    - by vm_compute.
    - by apply miner_simple.
    - by vm_compute.
    - apply miner_width.
    - exists (rec' :: recs). cbn [map length]. rewrite Hrec', Heq, Hlen. split_and!; [done|done|]. constructor; [|done].
      split; [done|]. specialize (Hwidth reg Hreg). unfold MAX_RECORD_BYTES. lia. }
  destruct Hminers as (recs & Heq & Hlen & Hall). exists (rec :: recs). rewrite Hrec, Heq. cbn [map length]. rewrite Hlen.
  split_and!; [done|done|]. constructor; [|done]. split; [done|]. unfold MAX_RECORD_BYTES. lia.
Qed.

(** The lines of the round. *)
Lemma all_fit :
  ∃ recs raws, round_records validator_hotkey recorded_at_ms r = map Ok recs ∧ length recs = S (length (rr_assigned_miners r)) ∧
    Forall2 (λ rec raw, fit rec = Ok raw ∧ zlen raw <= MAX_RECORD_BYTES ∧ ∃ rec', written rec rec' ∧ line_of rec' raw) recs raws.
Proof.
  destruct all_made as (recs & Heq & Hlen & Hall).
  assert (H : ∃ raws, Forall2 (λ rec raw, fit rec = Ok raw ∧ zlen raw <= MAX_RECORD_BYTES ∧ ∃ rec', written rec rec' ∧ line_of rec' raw) recs raws).
  { clear Heq Hlen. induction Hall as [|rec recs [Hok Hw] Hall (raws & IH)]; [by exists []|].
    destruct (fit_spec rec Hok Hw) as (rec' & raw & Hf & Hwr & Hl & Hz). exists (raw :: raws). constructor; [|done].
    split_and!; [done|done|]. by exists rec'. }
  destruct H as [raws H]. by exists recs, raws.
Qed.
End records.

Lemma append_records_all `{FR : !FloatRepr} (path : pystr) (max_bytes : Z) (backups : nat) (recs : list record) (raws : list bytes) (d : disk) :
  Forall2 (λ rec raw, fit rec = Ok raw) recs raws →
  append_records path max_bytes backups (map Ok recs) d = append_all path max_bytes backups raws d.
Proof.
  intros H. revert d. induction H as [|rec raw recs raws Hf H IH]; intros d; [done|]. cbn [map append_records append_all].
  unfold mbind, log_bind, lift. rewrite Hf. destruct (append path max_bytes backups raw d) as [[[]|e] d']; [apply IH|done].
Qed.

(** ** Properties *)

(** (bounds): whatever the disk does, and whatever is recorded, no file of the log is
    longer than the limit if none was, and no path other than the log and its numbered
    backups is touched. *)
Theorem log_bounded `{UD : !UnicodeData, SH : !Sha256, FR : !FloatRepr} (l : EvaluationLog) (path : pystr) (r : RoundResult)
    (validator_hotkey : pystr) (recorded_at_ms : Z) (d : disk) :
  log_path l = Some path → MAX_RECORD_BYTES <= max_file_bytes l →
  let files_of := λ d i, files d !! log_file path i in
  let backups := Z.to_nat (backup_count l) in
  let d' := (record_round l r validator_hotkey recorded_at_ms d).2 in
  (∀ i c, (i ≤ backups)%nat → files_of d i = Some (Regular c) → zlen c <= max_file_bytes l) →
  (∀ i c, (i ≤ backups)%nat → files_of d' i = Some (Regular c) → zlen c <= max_file_bytes l) ∧
  ∀ p, (∀ i, (i ≤ backups)%nat → p ≠ log_file path i) → files d' !! p = files d !! p.
Proof.
  intros Hpath Hmax files_of backups d' Hd. unfold d', record_round. rewrite Hpath. destruct (rr_challenge_id r); [|by split].
  set (run := _ ≫= _). assert (Hrun : keeps path (max_file_bytes l) backups run).
  { unfold run. apply keeps_bind; [apply keeps_checked|intros _]. apply keeps_records. unfold MAX_RECORD_BYTES in Hmax. lia. }
  destruct (Hrun d) as [H1 H2]. destruct (run d) as [[u|e] d1]; cbn [snd] in *; (split; [by apply H1|exact H2]).
Qed.

(** (functional): a round leaves a line for each of its records.  The disk works, the
    files of the log are regular or absent, there is a backup, the identifiers are not
    too long, and the lines of the round fit one file: then [record_round] returns
    [True]; there is a record of the round and one of each assigned miner, each
    written as a line of its own, of at most 4096 bytes, that reads as the record, at
    most without its failed check and its reason; and the lines are all in the log, in
    order, after what it held, or in the log and its first backup when the round
    itself rotated it. *)
Theorem round_recorded `{UD : !UnicodeData, SH : !Sha256, FR : !FloatRepr, SL : !Sha256Laws} (l : EvaluationLog) (path : pystr)
    (r : RoundResult) (validator_hotkey : pystr) (recorded_at_ms : Z) (challenge_id task_id : pystr) (d : disk) (c : bytes) :
  log_path l = Some path → 0 < backup_count l →
  recordable r validator_hotkey recorded_at_ms challenge_id task_id →
  (zlen (rr_assigned_miners r) + 1) * MAX_RECORD_BYTES <= max_file_bytes l →
  calm d → plain path (Z.to_nat (backup_count l)) d → holds path d 0 c →
  ∃ d' recs raws, record_round l r validator_hotkey recorded_at_ms d = (true, d') ∧
    round_records validator_hotkey recorded_at_ms r = map Ok recs ∧ length recs = S (length (rr_assigned_miners r)) ∧
    Forall2 (λ rec raw, zlen raw <= MAX_RECORD_BYTES ∧ ∃ rec', written rec rec' ∧ line_of rec' raw) recs raws ∧
    (holds path d' 0 (extended c raws) ∨
     ∃ before after, raws = before ++ after ∧ holds path d' 1 (extended c before) ∧ holds path d' 0 (concat after)).
Proof.
  intros Hpath Hb RC Hsum Hd Hp Hc. destruct (all_fit r validator_hotkey recorded_at_ms challenge_id task_id RC) as (recs & raws & Heq & Hlen & Hall).
  assert (Hends : Forall ends_line raws).
  { clear -Hall. induction Hall as [|rec raw recs raws (_ & _ & rec' & _ & text & -> & _) Hall IH]; constructor; [by eexists|done]. }
  assert (Hz : zlen (concat raws) <= zlen raws * MAX_RECORD_BYTES).
  { clear -Hall. induction Hall as [|rec raw recs raws (_ & Hz & _) Hall IH]; [done|]. cbn [concat]. unfold zlen in *.
    rewrite length_app. cbn [length]. lia. }
  assert (Hcount : zlen raws = zlen (rr_assigned_miners r) + 1).
  { apply Forall2_length in Hall. unfold zlen. rewrite <-Hall, Hlen. lia. }
  destruct (append_all_kept path (max_file_bytes l) (Z.to_nat (backup_count l)) raws d c) as (d' & before & after & Ha & Happ & Hres);
    [done|done|done|lia|done|rewrite Hcount in Hz; lia|].
  exists d', recs, raws. split_and!; [|done|done| |].
  - unfold record_round. rewrite Hpath, (rc_challenge _ _ _ _ _ RC). unfold mbind at 1, log_bind at 1. rewrite checked_calm by done.
    rewrite Heq, (append_records_all _ _ _ recs raws), Ha; [done|]. eapply Forall2_impl; [exact Hall|]. by intros rec raw (H & _).
  - eapply Forall2_impl; [exact Hall|]. by intros rec raw (_ & H1 & H2).
  - destruct Hres as [(-> & Hh & _)|(Hh & H1 & _)]; [left|right].
    + rewrite app_nil_r in Happ. by rewrite Happ.
    + by exists before, after.
Qed.

(** ** Witnesses *)

Definition logged_round : RoundResult :=
  {| rr_status := completed; rr_reason := ustr "done";
     rr_evaluations := [{| me_uid := 1; me_hotkey := ustr "a"; me_latency_ms := 5; me_grading_duration_ms := 7; me_trajectory := None;
       me_result := {| ev_status := eval_failed; ev_reason := ustr "wrong  output"; ev_checks := [];
                       ev_script_exit_code := None; ev_reason_code := Some (miner_reason CHECK_FAILED); ev_stage := Some CHECK;
                       ev_failed_check := Some [233%N] |} |}];
     rr_retry_after_s := None; rr_reason_code := None; rr_stage := None; rr_challenge_id := Some (ustr "c1");
     rr_task_id := Some (ustr "t1"); rr_assigned_miners := [(1, ustr "a"); (2, ustr "b")]; rr_diagnostic_evaluations := [];
     rr_dispatch_failures := [(2, ustr "b", NOT_SERVING)]; rr_checks_total := Some 1 |}.

(** A torn line is in the log. *)
Definition torn_disk : disk := {| files := {[ustr "log" := Regular (bstr "{")]}; script := [] |}.

Definition small_log : EvaluationLog := {| log_path := Some (ustr "log"); max_file_bytes := 20000; backup_count := 2 |}.

Lemma logged_recordable : recordable logged_round (ustr "val") 1000 (ustr "c1") (ustr "t1").
Proof.
  split.
  - reflexivity.
  - reflexivity.
  - repeat constructor.
  - by vm_compute.
  - intros reg Hreg. apply Z.leb_le. revert reg Hreg. cbn [rr_assigned_miners logged_round].
    intros reg [->|[->|?%elem_of_nil]%elem_of_cons]%elem_of_cons; [by vm_compute|by vm_compute|done].
  - by vm_compute.
  - intros reg [->|[->|?%elem_of_nil]%elem_of_cons]%elem_of_cons; [by vm_compute|by vm_compute|done].
  - done.
  - done.
  - intros m [->|?%elem_of_nil]%elem_of_cons; [|done]. cbn. split_and!; try done; [intros s [= <-]; done|intros t [= <-]; done].
  - intros t [= <-]. done.
Qed.

Lemma round_recorded_witness :
  ∃ d' recs (raws : list bytes), record_round (H := ascii_unicode) (H0 := sha_const) (H1 := Json.no_repr) small_log logged_round (ustr "val") 1000 torn_disk = (true, d') ∧
    round_records (H := ascii_unicode) (H0 := sha_const) (H1 := Json.no_repr) (ustr "val") 1000 logged_round = map Ok recs ∧ length recs = 3%nat ∧ length raws = 3%nat.
Proof.
  destruct (round_recorded (UD := ascii_unicode) (SH := sha_const) (FR := Json.no_repr) (SL := const_laws) small_log (ustr "log") logged_round
    (ustr "val") 1000 (ustr "c1") (ustr "t1") torn_disk (bstr "{")) as (d' & recs & raws & Hr & Hs & Hl & Hall & _).
  - reflexivity.
  - reflexivity.
  - exact logged_recordable.
  - by vm_compute.
  - reflexivity.
  - intros [|[|[|i]]] Hi; [right; eexists; reflexivity|left; reflexivity|left; reflexivity|cbn in Hi; lia].
  - left. reflexivity.
  - exists d', recs, raws. split; [exact Hr|]. split; [exact Hs|]. split; [exact Hl|]. by rewrite <-(Forall2_length _ _ _ Hall), Hl.
Defined.

Lemma log_bounded_witness :
  ∀ i c, (i ≤ 2)%nat →
    files (record_round (H := ascii_unicode) (H0 := sha_const) (H1 := Json.no_repr) small_log logged_round (ustr "val") 1000 torn_disk).2
      !! log_file (ustr "log") i = Some (Regular c) → zlen c <= 20000.
Proof.
  refine (proj1 (log_bounded (UD := ascii_unicode) (SH := sha_const) (FR := Json.no_repr) small_log (ustr "log") logged_round (ustr "val") 1000 torn_disk
    _ _ _)).
  - reflexivity.
  - by vm_compute.
  - intros [|[|[|i]]] c Hi; [intros [= <-]; by vm_compute|discriminate|discriminate|cbn in Hi; lia].
Defined.
