(* ===== verification/FeedbackSender.v ===== *)
(** * Telling miners how they did ([src/rlvr/neurons/feedback_sender.py])

    After a completed round each graded miner is sent one notice: [jobs_of] builds them,
    [send_failure_notices] sends them.  What becomes of the requests (the slot of the
    send gate, signing time and UUID, the status of the response) is a [JobEnv]; an
    exception, a timeout of the exchange and the end of the batch all leave a request
    without a status.  The jobs do not depend on each other, so their order in time is
    not modelled.

    FeedbackSenderSpec has the theorems. *)

From S2P Require Import Prelude PyFloat Text Json Canonical Wire Identity Codecs Api Protocol Supervisor Grading Round EvaluateRound Live.

Local Open Scope Z_scope.

Definition NOTICE_CONCURRENCY : Z := 32.
Definition NOTICE_MAX_RECIPIENTS : Z := 1024.

Section notices.
Context `{!UnicodeData, !Sha256}.

(** ** Building a notice *)

Definition notice_validate : MinerFailureNotice → result MinerFailureNotice :=
  model_validate MinerFailureNotice_fields (λ _, Ok ()).

(** [None]: an evaluation that earns no notice. *)
Definition notice_code (status : EvaluationStatus) (reason_code : option ReasonCode) : option ExplanationCode :=
  match status with
  | eval_passed => Some code_passed
  | eval_failed | eval_rejected =>
      Some (match reason_code with Some (miner_reason r) => code_reason r | _ => code_evaluation_failed end)
  | eval_abandoned => None
  end.

Definition displayed (include_details : bool) (code : ExplanationCode) (stage : option Stage) (failed_check : option pystr)
    : option pystr :=
  if include_details && bool_decide (code = code_reason CHECK_FAILED) && bool_decide (stage = Some CHECK)
  then failed_check else None.

Definition notice_with (challenge_id task_id : pystr) (uid : Z) (hotkey : pystr) (code : ExplanationCode)
    (display : option pystr) : option MinerFailureNotice :=
  result_to_option
    (failure ← FailureExplanation_validate {| fe_version := 1; fe_reason_code := code; fe_failed_check := display |};
     notice_validate {| n_protocol_version := 3; n_challenge_id := challenge_id; n_task_id := task_id; n_uid := uid;
                        n_hotkey := hotkey; n_failure := failure |}).

Definition build_notice (challenge_id task_id : pystr) (uid : Z) (hotkey : pystr) (status : EvaluationStatus)
    (reason_code : option ReasonCode) (stage : option Stage) (failed_check : option pystr) (include_details : bool)
    : option MinerFailureNotice :=
  match notice_code status reason_code with
  | None => None
  | Some code =>
      let notice := notice_with challenge_id task_id uid hotkey code in
      match displayed include_details code stage failed_check with
      | Some display => match notice (Some display) with Some n => Some n | None => notice None end
      | None => notice None
      end
  end.

Definition reason_only (n : MinerFailureNotice) : result MinerFailureNotice :=
  failure ← FailureExplanation_validate
              {| fe_version := 1; fe_reason_code := fe_reason_code (n_failure n); fe_failed_check := None |};
  mret {| n_protocol_version := n_protocol_version n; n_challenge_id := n_challenge_id n; n_task_id := n_task_id n;
          n_uid := n_uid n; n_hotkey := n_hotkey n; n_failure := failure |}.

(** ** The jobs *)

Definition job : Type := LiveSolverClient * MinerFailureNotice.

(** The last client of its key, as in a dict. *)
Definition client_of (solvers : list LiveSolverClient) (registration : Z * pystr) : option LiveSolverClient :=
  last (filter (λ c, registration_of_client c = registration) solvers).

Fixpoint collect_jobs (challenge_id task_id : pystr) (solvers : list LiveSolverClient) (assigned : gset (Z * pystr))
    (include_details : bool) (seen : gset (Z * pystr)) (evaluations : list MinerEvaluation) : list job :=
  match evaluations with
  | [] => []
  | item :: rest =>
      let registration := (me_uid item, me_hotkey item) in
      let next := collect_jobs challenge_id task_id solvers assigned include_details in
      if bool_decide (registration ∈ seen) || negb (bool_decide (registration ∈ assigned)) then next seen rest
      else
        match client_of solvers registration with
        | None => next seen rest
        | Some client =>
            let r := me_result item in
            match build_notice challenge_id task_id (me_uid item) (me_hotkey item) (ev_status r) (ev_reason_code r)
                    (ev_stage r) (ev_failed_check r) include_details with
            | None => next seen rest
            | Some notice => (client, notice) :: next ({[registration]} ∪ seen) rest
            end
        end
  end.

(** The key of the sort: failures first. *)
Definition tells_pass (j : job) : bool := bool_decide (fe_reason_code (n_failure j.2) = code_passed).
Definition job_le (i j : job) : bool := implb (tells_pass i) (tells_pass j).

Definition jobs_of (r : RoundResult) (solvers : list LiveSolverClient) (include_details : bool) : list job :=
  if negb (bool_decide (rr_status r = completed)) then []
  else
    match rr_challenge_id r, rr_task_id r with
    | Some ((_ :: _) as challenge_id), Some ((_ :: _) as task_id) =>
        slice_to NOTICE_MAX_RECIPIENTS
          (sort_by job_le
             (collect_jobs challenge_id task_id solvers (list_to_set (rr_assigned_miners r)) include_details ∅
                (rr_evaluations r)))
    | _, _ => []
    end.

(** ** Sending *)

Record PostEnv := { pe_time : Z; pe_uuid : pystr; pe_status : option Z }.
Record JobEnv := { je_permit : bool; je_first : PostEnv; je_second : PostEnv }.

(** A request that was sent. *)
Record notice_request := { nr_client : LiveSolverClient; nr_body : bytes; nr_headers : list (pystr * pystr) }.

Section sending.
Context `{!Keypair}.
Context (dump_notice : MinerFailureNotice → pystr) (wallet : Hotkey).

Definition notice_request_of (client : LiveSolverClient) (notice : MinerFailureNotice) (env : PostEnv) : result notice_request :=
  body ← serialize_failure_notice dump_notice notice;
  hs ← sign_message wallet body (Some (lc_hotkey client)) (pe_time env) (pe_uuid env);
  mret {| nr_client := client; nr_body := body;
          nr_headers := hs ++ [(ustr "Content-Type", ustr "application/json"); (ustr "Content-Length", str_of_int (zlen body))] |}.

(** The status, [None] for an exception, and the request where one was sent. *)
Definition post (client : LiveSolverClient) (notice : MinerFailureNotice) (env : PostEnv)
    : option Z * list notice_request :=
  match notice_request_of client notice env with
  | Ok request => (pe_status env, [request])
  | Raise _ => (None, [])
  end.

(** Whether the notice was accepted, and the requests. *)
Definition deliver (env : JobEnv) (j : job) : bool * list notice_request :=
  let '(client, notice) := j in
  if negb (je_permit env) then (false, [])
  else
    let '(status, sent) := post client notice (je_first env) in
    match status with
    | None => (false, sent)
    | Some code =>
        if ((code =? 400) || (code =? 413)) && negb (bool_decide (fe_failed_check (n_failure notice) = None)) then
          match reason_only notice with
          | Raise _ => (false, sent)
          | Ok reduced =>
              let '(status, again) := post client reduced (je_second env) in
              (bool_decide (status = Some 200), sent ++ again)
          end
        else (code =? 200, sent)
    end.

(** How many notices were accepted, and the requests of each job. *)
Definition send_failure_notices (r : RoundResult) (solvers : list LiveSolverClient) (include_details : bool)
    (envs : Z * pystr → JobEnv) : Z * list (list notice_request) :=
  let sent := map (λ j, deliver (envs (registration_of_client j.1)) j) (jobs_of r solvers include_details) in
  (zlen (filter (λ s, s.1 = true) sent), map snd sent).
End sending.
End notices.
