(* ===== verification/MinerText.v ===== *)
(** * The texts a miner reads and writes ([src/rlvr/neurons/demo_miner.py])

    What the reference miner takes from a model's reply (a submission, or a tool call in
    one of two notations), how it repairs the hunk headers of a diff, and how it prints
    a validator's notice.  The regular expressions are written out as functions: in each
    of them a repetition stops where the next part of the pattern must start, so no
    choice is ever taken back.  [str.isalnum] is a class.

    [recount_repairs]: the repair of a diff.  [notice_printed]: what reaches the
    terminal.  [submission_not_call]: a diff or script is never taken for a tool call. *)

From S2P Require Import Prelude PyFloat Text Json JsonSpec JsonBytes Canonical CanonicalSpec Codecs Download Feedback.

Local Open Scope N_scope.

(** [str.isalnum] of one character. *)
Class WordChars := { py_isalnum : N → bool }.

Definition newline : N := 10.
Definition backtick : N := 96.
Definition not_newline (c : N) : bool := negb (c =? newline).

(** What stands before the first occurrence of [sub], for a lazy [(.* ?)] before it. *)
Fixpoint before (sub s : pystr) : option pystr :=
  if startswith sub s then Some []
  else match s with [] => None | c :: r => cons c <$> before sub r end.

(** ** Submissions *)

Definition fence : pystr := ustr "```".

(** [```[^\n`]*\n(.* ?)```] at the start of a text. *)
Definition fence_at (s : pystr) : option pystr :=
  if startswith fence s then
    match drop_while (λ c, not_newline c && negb (c =? backtick)) (drop 3 s) with
    | c :: body => if c =? newline then before fence body else None
    | [] => None
    end
  else None.

Fixpoint fence_search (s : pystr) : option pystr :=
  match fence_at s with
  | Some g => Some g
  | None => match s with [] => None | _ :: r => fence_search r end
  end.

Definition BARE_STARTS : list pystr := [ustr "--- "; ustr "diff "; ustr "#!"].

Definition submission_text (text : pystr) : pystr :=
  let bare := drop_while (λ c, (c =? 32) || (c =? 9)) (strip (N.eqb newline) text) in
  let payload :=
    if existsb (λ p, startswith p bare) BARE_STARTS then bare
    else strip (N.eqb newline) (default text (fence_search text)) in
  match payload with [] => [] | _ => payload ++ [newline] end.

Definition extract_submission (text : pystr) : result bytes := utf8_encode (submission_text text).

(** ** Tool calls *)

Section tool_calls.
Context `{!UnicodeDigits, !WordChars, !FloatRepr}.

Definition rstrip (s : pystr) : pystr := rev (drop_while py_isspace (rev s)).

(** The text between [opening] and [closing] at the two ends, for a full match. *)
Definition enclosed (opening closing s : pystr) : option pystr :=
  if startswith opening s then
    let rest := rstrip (drop (length opening) s) in
    if endswith closing rest then Some (take (length rest - length closing) rest) else None
  else None.

(** The text after the last line feed of the leading whitespace. *)
Fixpoint after_newline (s : pystr) (last : option pystr) : option pystr :=
  match s with
  | c :: r => if py_isspace c then after_newline r (if c =? newline then Some r else last) else last
  | [] => last
  end.

(** [\s*```workspace\s*\n(.* ?)```\s*] *)
Definition workspace_fence (output : pystr) : option pystr :=
  let s := drop_while py_isspace output in
  if startswith (ustr "```workspace") s then
    body ← after_newline (drop 12 s) None;
    let rest := rstrip body in
    if endswith fence rest then Some (take (length rest - 3) rest) else None
  else None.

Definition SECTION_BEGIN : pystr := ustr "<|tool_calls_section_begin|>".
Definition SECTION_END : pystr := ustr "<|tool_calls_section_end|>".
Definition CALL_BEGIN : pystr := ustr "<|tool_call_begin|>".
Definition ARGUMENT_BEGIN : pystr := ustr "<|tool_call_argument_begin|>".
Definition CALL_END : pystr := ustr "<|tool_call_end|>".

Definition native_section (output : pystr) : option pystr :=
  enclosed SECTION_BEGIN SECTION_END (drop_while py_isspace output).

Definition word_char (c : N) : bool := py_isalnum c || (c =? 95).
Definition name_start (c : N) : bool := in_range 65 90 c || in_range 97 122 c || (c =? 95).
Definition decimal_char (c : N) : bool := is_digit c || bool_decide (is_Some (py_decimal c)).

(** The longest prefix of characters with [p], and the rest. *)
Fixpoint span (p : N → bool) (s : pystr) : pystr * pystr :=
  match s with
  | c :: r => if p c then let '(a, b) := span p r in (c :: a, b) else ([], s)
  | [] => ([], [])
  end.

(** [(?::\d+)?] *)
Definition skip_index (s : pystr) : pystr :=
  match s with
  | c :: r =>
      if c =? 58 then match span decimal_char r with ([], _) => s | (_, r') => r' end else s
  | [] => s
  end.

(** A call at the start of a text: the name and the text of the arguments. *)
Definition native_call_at (s : pystr) : option (pystr * pystr) :=
  if startswith CALL_BEGIN s then
    let s := drop_while py_isspace (drop (length CALL_BEGIN) s) in
    let s := if startswith (ustr "functions.") s then drop 10 s else s in
    match s with
    | c :: r =>
        if name_start c then
          let '(tail, r) := span word_char r in
          let r := drop_while py_isspace (skip_index r) in
          if startswith ARGUMENT_BEGIN r
          then arguments ← before CALL_END (drop (length ARGUMENT_BEGIN) r); Some (c :: tail, arguments)
          else None
        else None
    | [] => None
    end
  else None.

Fixpoint native_call (s : pystr) : option (pystr * pystr) :=
  match native_call_at s with
  | Some g => Some g
  | None => match s with [] => None | _ :: r => native_call r end
  end.

(** [_NATIVE_TOOL_NAMES.get(name.lower().replace("_", ""), name)] *)
Definition native_name (name : pystr) : pystr :=
  let key := filter (λ c, c ≠ 95) (ascii_lower name) in
  if bool_decide (key = ustr "listfiles") then ustr "list_files"
  else if bool_decide (key = ustr "readfile") then ustr "read_file" else name.

Definition has_key (key : string) (d : list (pyobj * pyobj)) : bool :=
  existsb (λ kv, match kv.1 with PStr k => bool_decide (k = ustr key) | _ => false end) d.

Definition extract_tool_call (output : pystr) : result (option pystr) :=
  match workspace_fence output with
  | Some body => mret (Some body)
  | None =>
      match native_section output ≫= native_call with
      | None => mret None
      | Some (name, raw) =>
          arguments ← catch (loads raw) is_value_error (λ _, mret (PDict []));
          let d := match arguments with PDict d => d | _ => [] end in
          let d := if has_key "tool" d then d else d ++ [(PStr (ustr "tool"), PStr (native_name name))] in
          text ← dumps (compact default_options) (PDict d);
          mret (Some text)
      end
  end.
End tool_calls.

(** ** Hunk headers *)

Section hunks.
Context `{!UnicodeDigits}.

(** [(?:,\d+)?] *)
Definition skip_count (s : pystr) : pystr :=
  match s with
  | c :: r =>
      if c =? 44 then match span decimal_char r with ([], _) => s | (_, r') => r' end else s
  | [] => s
  end.

Definition strip_prefix (p s : pystr) : option pystr :=
  if startswith p s then Some (drop (length p) s) else None.

(** [(\d+)(?:,\d+)?] *)
Definition read_range (s : pystr) : option (pystr * pystr) :=
  match span decimal_char s with ([], _) => None | (d, r) => Some (d, skip_count r) end.

(** [^@@ -(\d+)(?:,\d+)? \+(\d+)(?:,\d+)? @@(.* )$] on one line. *)
Definition read_hunk (line : pystr) : option (pystr * pystr * pystr) :=
  r ← strip_prefix (ustr "@@ -") line;
  '(old_start, r) ← read_range r;
  r ← strip_prefix (ustr " +") r;
  '(new_start, r) ← read_range r;
  tail ← strip_prefix (ustr " @@") r;
  Some (old_start, new_start, tail).

(** [line[:1] in (...)] *)
Definition first_in (chars : list N) (line : pystr) : bool :=
  match line with c :: _ => bool_decide (c ∈ chars) | [] => false end.

(** Space, plus, minus and backslash. *)
Definition BODY_CHARS : list N := [32; 43; 45; 92].

Definition is_blank (line : pystr) : bool := bool_decide (line = []).

(** The body that follows a header, and the lines after it. *)
Fixpoint hunk_body (lines : list pystr) : list pystr * list pystr :=
  match lines with
  | line :: lines' =>
      let more := match lines' with next :: _ => first_in BODY_CHARS next | [] => false end in
      if first_in BODY_CHARS line || is_blank line && more
      then let '(body, rest) := hunk_body lines' in (line :: body, rest)
      else ([], lines)
  | [] => ([], [])
  end.

Definition count_lines (chars : list N) (body : list pystr) : Z :=
  zlen (filter (λ line, first_in chars line || is_blank line = true) body).

Definition hunk_header (old_start new_start tail : pystr) (body : list pystr) : pystr :=
  ustr "@@ -" ++ old_start ++ ustr "," ++ str_of_int (count_lines [32; 45] body)
  ++ ustr " +" ++ new_start ++ ustr "," ++ str_of_int (count_lines [32; 43] body) ++ ustr " @@" ++ tail.

(** The loop; every turn consumes a line. *)
Fixpoint recount_loop (fuel : nat) (lines : list pystr) : list pystr :=
  match fuel, lines with
  | S fuel', line :: lines' =>
      match read_hunk line with
      | None => line :: recount_loop fuel' lines'
      | Some (old_start, new_start, tail) =>
          let '(body, rest) := hunk_body lines' in
          hunk_header old_start new_start tail body :: body ++ recount_loop fuel' rest
      end
  | _, _ => []
  end.

Definition recount_lines (lines : list pystr) : list pystr := recount_loop (length lines) lines.

Definition recount_hunks (patch : bytes) : result bytes :=
  match utf8_decode patch with
  | Raise _ => mret patch
  | Ok text => utf8_encode (join [newline] (recount_lines (split_on newline text)))
  end.
End hunks.

(** ** Notices *)

Fixpoint hex_width (width : nat) (n : N) : pystr :=
  match width with
  | O => []
  | S w => hex_width w (n / 16) ++ [hex_digit (n mod 16)]
  end.

Definition printable_char (c : N) : pystr :=
  if in_range 32 126 c then [c]
  else if c <? 256 then ustr "\x" ++ hex_width 2 c
  else if c <=? 0xFFFF then ustr "\u" ++ hex_width 4 c
  else ustr "\U" ++ hex_width 8 c.

Definition printable (text : pystr) : pystr := concat (map printable_char text).

Definition FEEDBACK_PRINT_HEADER_CHARS : nat := 120.
Definition feedback_prefix : pystr := ustr "[demo-miner] feedback: ".

Definition feedback_lines (header : pystr) (display : option pystr) : list pystr :=
  let lines := [feedback_prefix ++ take FEEDBACK_PRINT_HEADER_CHARS (printable header)] in
  match display with
  | None | Some [] => lines
  | Some d =>
      if negb (is_bounded_display display)
      then lines ++ [feedback_prefix ++ ustr "  display omitted: larger than a validator may send"]
      else lines ++ map (λ line, feedback_prefix ++ ustr "  " ++ printable line) (split_on newline d)
  end.

(** ** Reading a header back *)

(** [str.isdecimal] holds of no ASCII character but the digits. *)
Class DigitLaws `{!UnicodeDigits} : Prop := {
  ascii_decimal (c : N) : c < 128 → is_digit c = false → py_decimal c = None
}.

Lemma strip_prefix_app (p s : pystr) : strip_prefix p (p ++ s) = Some s.
Proof.
  unfold strip_prefix. rewrite (proj2 (startswith_spec p (p ++ s))) by (by exists s).
  by rewrite drop_app_length.
Qed.

Lemma strip_prefix_Some (p s r : pystr) : strip_prefix p s = Some r ↔ s = p ++ r.
Proof.
  split; [|intros ->; apply strip_prefix_app]. unfold strip_prefix.
  destruct (startswith p s) eqn:Hs; [|done]. apply startswith_spec in Hs as [k ->].
  rewrite drop_app_length. by intros [= ->].
Qed.

Lemma span_spec (p : N → bool) (s a b : pystr) : span p s = (a, b) → s = a ++ b ∧ forallb p a = true.
Proof.
  revert a b. induction s as [|c s IH]; intros a b; simpl; [by intros [= <- <-]|].
  destruct (p c) eqn:Hc; [|by intros [= <- <-]].
  destruct (span p s) as [a' b']. intros [= <- <-]. destruct (IH a' b' eq_refl) as [-> Ha].
  simpl. by rewrite Hc.
Qed.

Lemma span_app (p : N → bool) (a b : pystr) :
  forallb p a = true → match b with c :: _ => p c = false | [] => True end → span p (a ++ b) = (a, b).
Proof.
  intros Ha Hb. induction a as [|c a IH]; simpl in *.
  - destruct b as [|c b]; [done|]. simpl. by rewrite Hb.
  - apply andb_true_iff in Ha as [-> Ha]. by rewrite IH.
Qed.

Section headers.
Context `{UG : !UnicodeDigits, DL : !DigitLaws}.
Implicit Types (a b tail line : pystr) (body lines rest : list pystr).

Lemma decimal_ascii (c : N) : c < 128 → is_digit c = false → decimal_char c = false.
Proof.
  intros Hc Hd. unfold decimal_char. by rewrite Hd, ascii_decimal.
Qed.

(** A run of digits. *)
Definition decimals (s : pystr) : Prop := forallb decimal_char s = true ∧ s ≠ [].

Lemma decimals_count (n : Z) : (0 <= n)%Z → decimals (str_of_int n).
Proof.
  intros Hn. unfold str_of_int. destruct n as [|p|p]; [by split; vm_compute| |lia].
  destruct (uint_head (Z.to_N (Zpos p))) as (c & r & Hc & _). split; [|by rewrite Hc].
  pose proof (uint_chars_digits (N.to_uint (Z.to_N (Zpos p)))) as Hd. rewrite forallb_forall in *.
  intros x Hx%Hd. unfold decimal_char. by rewrite Hx.
Qed.

Lemma read_range_app (d n : pystr) (c : N) (r : pystr) :
  decimals d → decimals n → c < 128 → is_digit c = false → read_range (d ++ [44] ++ n ++ c :: r) = Some (d, c :: r).
Proof.
  intros [Ha Hna] [Hn Hnn] Hc Hd. unfold read_range. rewrite span_app; [|done|by apply decimal_ascii].
  destruct d as [|x d]; [done|]. cbn [app skip_count]. rewrite N.eqb_refl, span_app; [|done|by apply decimal_ascii].
  by destruct n.
Qed.

Lemma read_range_Some (s d r : pystr) : read_range s = Some (d, r) → decimals d.
Proof.
  unfold read_range. destruct (span decimal_char s) as [x y] eqn:Hs. apply span_spec in Hs as [_ Hd].
  destruct x as [|c x]; [done|]. intros [= <- _]. by split.
Qed.

Lemma read_hunk_Some line a b tail :
  read_hunk line = Some (a, b, tail) → decimals a ∧ decimals b ∧ ∃ r, line = ustr "@@ -" ++ r.
Proof.
  unfold read_hunk. intros (r & Hr%strip_prefix_Some & H1)%bind_Some.
  apply bind_Some in H1 as ([x r1] & Hx & H1). apply bind_Some in H1 as (r2 & _ & H1).
  apply bind_Some in H1 as ([y r3] & Hy & H1). apply bind_Some in H1 as (t & _ & [= -> -> ->]).
  split_and!; [by eapply read_range_Some..|by exists r].
Qed.

Lemma count_nonneg (chars : list N) body : (0 <= count_lines chars body)%Z.
Proof. apply zlen_nonneg. Qed.

Lemma read_hunk_header a b tail body :
  decimals a → decimals b → read_hunk (hunk_header a b tail body) = Some (a, b, tail).
Proof.
  intros Ha Hb. unfold read_hunk, hunk_header.
  set (n1 := str_of_int _). set (n2 := str_of_int (count_lines [32; 43] body)).
  assert (H1 : decimals n1) by apply decimals_count, count_nonneg.
  assert (H2 : decimals n2) by apply decimals_count, count_nonneg. clearbody n1 n2.
  rewrite strip_prefix_app. cbn [mbind option_bind].
  change (ustr ",") with [44]. change (ustr " +" ++ ?x) with (32 :: 43 :: x).
  rewrite read_range_app by done. cbn [mbind option_bind].
  change (32 :: 43 :: ?x) with (ustr " +" ++ x). rewrite strip_prefix_app. cbn [mbind option_bind].
  change (ustr " @@" ++ tail) with (32 :: 64 :: 64 :: tail).
  rewrite read_range_app by done. cbn [mbind option_bind].
  change (32 :: 64 :: 64 :: tail) with (ustr " @@" ++ tail). by rewrite strip_prefix_app.
Qed.

(** ** The repaired lines *)

(** The sides of a line of a body, as [git apply] counts them: a context line, which
    may be blank, is on both. *)
Definition on_old (line : pystr) : bool := match line with [] => true | c :: _ => (c =? 32) || (c =? 45) end.
Definition on_new (line : pystr) : bool := match line with [] => true | c :: _ => (c =? 32) || (c =? 43) end.

Definition side_size (on : pystr → bool) (body : list pystr) : Z := zlen (List.filter on body).

Definition unified_header (a : pystr) (old : Z) (b : pystr) (new : Z) (tail : pystr) : pystr :=
  ustr "@@ -" ++ a ++ ustr "," ++ str_of_int old ++ ustr " +" ++ b ++ ustr "," ++ str_of_int new ++ ustr " @@" ++ tail.

Lemma count_lines_size (chars : list N) (on : pystr → bool) body :
  (∀ line, on line = (first_in chars line || is_blank line)) → count_lines chars body = side_size on body.
Proof.
  intros Hon. unfold count_lines, side_size. f_equal. induction body as [|l body IH]; [done|].
  rewrite filter_cons. cbn [List.filter]. rewrite Hon, IH. by destruct (_ || _).
Qed.

Lemma hunk_header_unified a b tail body :
  hunk_header a b tail body = unified_header a (side_size on_old body) b (side_size on_new body) tail.
Proof.
  unfold hunk_header, unified_header. rewrite (count_lines_size _ on_old), (count_lines_size _ on_new); [done|..].
  all: intros [|c line]; [done|]; unfold on_old, on_new, first_in, is_blank; apply Bool.eq_true_iff_eq.
  all: rewrite (bool_decide_eq_false_2 (_ = [])), orb_false_r, orb_true_iff, !N.eqb_eq, bool_decide_eq_true by done.
  all: rewrite !elem_of_cons, elem_of_nil; tauto.
Qed.

(** Every header counts the body that follows it. *)
Inductive counted : list pystr → Prop :=
  | counted_nil : counted []
  | counted_line line lines : read_hunk line = None → counted lines → counted (line :: lines)
  | counted_hunk line a b tail body rest :
      read_hunk line = Some (a, b, tail) → hunk_body (body ++ rest) = (body, rest) →
      line = unified_header a (side_size on_old body) b (side_size on_new body) tail → counted rest →
      counted (line :: body ++ rest).

(** A repaired line: only the counts of a header change. *)
Definition same_but_counts (line line' : pystr) : Prop :=
  line' = line ∨
  ∃ a b tail old new, read_hunk line = Some (a, b, tail) ∧ line' = unified_header a old b new tail ∧
    (0 <= old)%Z ∧ (0 <= new)%Z.

Lemma hunk_body_app lines body rest : hunk_body lines = (body, rest) → lines = body ++ rest.
Proof.
  revert body rest. induction lines as [|l lines IH]; intros body rest; cbn [hunk_body]; [by intros [= <- <-]|].
  destruct (_ || _); [|by intros [= <- <-]]. destruct (hunk_body lines) as [b' r'].
  intros [= <- <-]. simpl. by rewrite (IH b' r').
Qed.

(** The end of a body depends on what a line is, not on what it says. *)
Definition alike (line line' : pystr) : Prop :=
  first_in BODY_CHARS line = first_in BODY_CHARS line' ∧ is_blank line = is_blank line'.

Lemma same_alike line line' : same_but_counts line line' → alike line line'.
Proof.
  intros [->|(a & b & tail & old & new & Hr & -> & _)]; [done|]. apply read_hunk_Some in Hr as (_ & _ & r & ->). done.
Qed.

Lemma hunk_body_alike body rest rest' :
  Forall2 alike rest rest' → hunk_body (body ++ rest) = (body, rest) → hunk_body (body ++ rest') = (body, rest').
Proof.
  intros Hal. induction body as [|l body IH]; cbn [app].
  - destruct Hal as [|x x' rest rest' [Hx Hbx] Hal]; [done|]. cbn [hunk_body]. rewrite <-Hx, <-Hbx.
    assert (Hm : match rest' with n :: _ => first_in BODY_CHARS n | [] => false end =
                 match rest with n :: _ => first_in BODY_CHARS n | [] => false end).
    { by destruct Hal as [|? ? ? ? []]. }
    rewrite Hm. destruct (_ || _); [|done]. by destruct (hunk_body rest).
  - cbn [hunk_body]. assert (Hm : match body ++ rest' with n :: _ => first_in BODY_CHARS n | [] => false end =
                 match body ++ rest with n :: _ => first_in BODY_CHARS n | [] => false end).
    { destruct body; [|done]. by destruct Hal as [|? ? ? ? []]. }
    rewrite Hm. destruct (_ || _).
    + destruct (hunk_body (body ++ rest)) as [b r] eqn:Hb. intros [= -> ->]. by rewrite IH.
    + done.
Qed.

Lemma recount_loop_spec (fuel : nat) lines :
  (length lines <= fuel)%nat →
  counted (recount_loop fuel lines) ∧ Forall2 same_but_counts lines (recount_loop fuel lines).
Proof.
  revert lines. induction fuel as [|fuel IH]; intros lines Hf.
  { destruct lines; [|simpl in Hf; lia]. split; constructor. }
  destruct lines as [|line lines]; [split; constructor|]. simpl in Hf. cbn [recount_loop].
  destruct (read_hunk line) as [[[a b] tail]|] eqn:Hr.
  - destruct (hunk_body lines) as [body rest] eqn:Hb. pose proof (hunk_body_app _ _ _ Hb) as ->.
    rewrite length_app in Hf. destruct (IH rest) as [Hc Hs]; [lia|].
    apply read_hunk_Some in Hr as Hd. destruct Hd as (Ha & Hb' & _). split.
    + eapply counted_hunk; [by apply read_hunk_header| |apply hunk_header_unified|done].
      eapply hunk_body_alike; [|done]. eapply Forall2_impl; [exact Hs|apply same_alike].
    + constructor; [right; exists a, b, tail, (side_size on_old body), (side_size on_new body)|].
      { split_and!; [done|apply hunk_header_unified|unfold side_size, zlen; lia..]. }
      apply Forall2_app; [|done].
      apply Forall_Forall2_diag, Forall_true. by left.
  - destruct (IH lines) as [Hc Hs]; [lia|]. split; [by constructor|]. constructor; [by left|done].
Qed.

Lemma recount_counted lines (fuel : nat) :
  counted lines → (length lines <= fuel)%nat → recount_loop fuel lines = lines.
Proof.
  intros Hc. revert fuel. induction Hc as [|l lines Hr Hc IH|l a b tail body rest Hr Hb -> Hc IH]; intros fuel Hf.
  - by destruct fuel.
  - destruct fuel; simpl in Hf; [lia|]. cbn [recount_loop]. rewrite Hr, IH by lia. done.
  - destruct fuel; simpl in Hf; [lia|]. rewrite length_app in Hf. cbn [recount_loop]. rewrite Hr, Hb, IH by lia.
    by rewrite hunk_header_unified.
Qed.
End headers.

(** ** The repaired bytes *)

Section bytes.
Context `{UG : !UnicodeDigits, DL : !DigitLaws}.
Implicit Types (a b tail line text : pystr) (lines : list pystr) (c : N).

Lemma span_chars (p : N → bool) (s d r : pystr) c : span p s = (d, r) → c ∈ d ∨ c ∈ r → c ∈ s.
Proof. intros [-> _]%span_spec. by rewrite elem_of_app. Qed.

Lemma read_range_chars (s d r : pystr) c : read_range s = Some (d, r) → c ∈ d ∨ c ∈ r → c ∈ s.
Proof.
  unfold read_range. destruct (span decimal_char s) as [x y] eqn:Hs.
  intros H Hc. eapply span_chars; [exact Hs|]. destruct x as [|z x]; [done|]. injection H as <- <-.
  destruct Hc as [Hc|Hc]; [by left|right]. destruct y as [|v y]; [done|]. cbn [skip_count] in Hc.
  destruct (v =? 44); [|done]. destruct (span decimal_char y) as [x' y'] eqn:Hy.
  destruct x' as [|w x']; [done|]. right. eapply span_chars; [exact Hy|by right].
Qed.

Lemma read_hunk_chars line a b tail c :
  read_hunk line = Some (a, b, tail) → c ∈ a ∨ c ∈ b ∨ c ∈ tail → c ∈ line.
Proof.
  unfold read_hunk. intros (r & ->%strip_prefix_Some & H1)%bind_Some.
  apply bind_Some in H1 as ([x r1] & Hx & H1). apply bind_Some in H1 as (r2 & ->%strip_prefix_Some & H1).
  apply bind_Some in H1 as ([y r3] & Hy & H1). apply bind_Some in H1 as (t & ->%strip_prefix_Some & [= -> -> ->]).
  intros Hc. apply elem_of_app. right. apply (read_range_chars _ _ _ c Hx). rewrite elem_of_app.
  destruct Hc as [Hc|Hc]; [by left|]. right. right. apply (read_range_chars _ _ _ c Hy). rewrite elem_of_app.
  naive_solver.
Qed.

(** A character of the old line, or one a header is written with. *)
Lemma same_chars line line' c : same_but_counts line line' → c ∈ line' → c ∈ line ∨ 32 <= c < 128.
Proof.
  intros [->|(a & b & tail & old & new & Hr & -> & Ho & Hw)] Hc; [by left|]. unfold unified_header in Hc.
  assert (Hn : ∀ z, (0 <= z)%Z → c ∈ str_of_int z → 32 <= c < 128).
  { intros z Hz Hin. destruct (decide (32 <= c < 128)) as [|Hnot]; [done|]. exfalso. revert Hin. apply str_of_int_chars.
    - unfold is_digit. rewrite andb_false_iff, !N.leb_gt. lia.
    - intros ->. lia. }
  assert (Hlit : ∀ s, forallb (λ x, (32 <=? x) && (x <? 128)) s = true → c ∈ s → 32 <= c < 128).
  { intros s Hs Hin. rewrite forallb_elem in Hs. specialize (Hs c Hin).
    rewrite andb_true_iff, N.leb_le, N.ltb_lt in Hs. done. }
  pose proof (read_hunk_chars line a b tail c Hr) as Hl. rewrite !elem_of_app in Hc.
  destruct Hc as [Hc|[Hc|[Hc|[Hc|[Hc|[Hc|[Hc|[Hc|[Hc|Hc]]]]]]]]];
    [right; by apply (Hlit (ustr "@@ -"))|left; auto|right; by apply (Hlit (ustr ","))
    |right; by apply Hn in Hc|right; by apply (Hlit (ustr " +"))|left; auto
    |right; by apply (Hlit (ustr ","))|right; by apply Hn in Hc
    |right; by apply (Hlit (ustr " @@"))|left; auto].
Qed.

Lemma elem_of_join (lines : list pystr) c : c ∈ join [newline] lines → c = newline ∨ ∃ l, l ∈ lines ∧ c ∈ l.
Proof.
  induction lines as [|l lines IH]; [by intros ?%not_elem_of_nil|]. destruct lines as [|l' lines].
  - intros Hc. right. exists l. split; [by left|done].
  - change (join _ _) with (l ++ [newline] ++ join [newline] (l' :: lines)). rewrite !elem_of_app.
    intros [Hc|[->%list_elem_of_singleton|Hc]]; [right; exists l; split; [by left|done]|by left|].
    destruct (IH Hc) as [?|(m & Hm & Hcm)]; [by left|]. right. exists m. split; [by right|done].
Qed.

Lemma join_elem (lines : list pystr) (l : pystr) c : l ∈ lines → c ∈ l → c ∈ join [newline] lines.
Proof.
  intros Hl Hc. induction lines as [|m lines IH]; [by apply not_elem_of_nil in Hl|].
  destruct lines as [|m' lines]; [by apply list_elem_of_singleton in Hl as ->|].
  change (join _ _) with (m ++ [newline] ++ join [newline] (m' :: lines)). rewrite !elem_of_app.
  apply elem_of_cons in Hl as [->|Hl]; [by left|]. right. right. by apply IH.
Qed.

Lemma recount_text text :
  forallb scalar text = true →
  let lines := recount_lines (split_on newline text) in
  forallb scalar (join [newline] lines) = true ∧ split_on newline (join [newline] lines) = lines ∧
  counted lines ∧ Forall2 same_but_counts (split_on newline text) lines.
Proof.
  intros Hs lines. destruct (recount_loop_spec (length (split_on newline text)) (split_on newline text) (le_n _))
    as [Hc Hf]. fold (recount_lines (split_on newline text)) in Hc, Hf. fold lines in Hc, Hf.
  assert (Hchars : ∀ l c, l ∈ lines → c ∈ l → c ≠ newline ∧ scalar c = true).
  { intros l c Hl Hcl. apply list_elem_of_lookup_1 in Hl as [i Hi].
    destruct (Forall2_lookup_r _ _ _ _ _ Hf Hi) as (l0 & Hl0%list_elem_of_lookup_2 & Hsame).
    destruct (same_chars _ _ _ Hsame Hcl) as [Hc0|Hc0].
    - split; [intros ->; by eapply split_on_no_sep|]. rewrite forallb_elem in Hs. apply Hs.
      rewrite <-(join_split_on newline text). by eapply join_elem.
    - split; [unfold newline; lia|]. apply scalar_bounds. lia. }
  split_and!; [|apply split_on_join|done|done].
  - apply forallb_elem. intros c Hcj. apply elem_of_join in Hcj as [->|(l & Hl & Hcl)]; [done|]. by eapply Hchars.
  - pose proof (split_on_nonempty newline text). intros Hnil. rewrite Hnil in Hf. by inversion Hf.
  - intros w Hw Hnl. by eapply Hchars in Hnl as [? _].
Qed.
End bytes.

(** ** Printing *)

Lemma hex_width_length (w : nat) (n : N) : length (hex_width w n) = w.
Proof. revert n. induction w as [|w IH]; intros n; simpl; [done|]. rewrite length_app, IH. simpl. lia. Qed.

Lemma hex_width_inj (w : nat) (m n : N) :
  m < 16 ^ N.of_nat w → n < 16 ^ N.of_nat w → hex_width w m = hex_width w n → m = n.
Proof.
  revert m n. induction w as [|w IH]; intros m n Hm Hn; cbn [hex_width].
  { change (16 ^ N.of_nat 0) with 1 in *. lia. }
  rewrite Nat2N.inj_succ, N.pow_succ_r' in Hm, Hn.
  intros He. apply app_inj_2 in He as [He Hd]; [|done].
  apply IH in He; [|by apply N.Div0.div_lt_upper_bound..].
  injection Hd as Hd. apply hex_digit_inj in Hd; [|by apply N.mod_lt..].
  rewrite (N.div_mod' m 16), (N.div_mod' n 16). by rewrite He, Hd.
Qed.

Lemma hex_width_plain (w : nat) (n c : N) : c ∈ hex_width w n → 48 <= c < 103.
Proof.
  revert n. induction w as [|w IH]; intros n; cbn [hex_width]; [by intros ?%not_elem_of_nil|].
  intros [Hc| ->%list_elem_of_singleton]%elem_of_app; [by eapply IH|].
  assert (Hd : n mod 16 < 16) by (by apply N.mod_lt). revert Hd. generalize (n mod 16). intros d Hd.
  unfold hex_digit. destruct (N.ltb_spec d 10); lia.
Qed.

Lemma printable_plain (text : pystr) (c : N) : c ∈ printable text → 32 <= c <= 126.
Proof.
  unfold printable. intros Hc%list_elem_of_In. apply in_concat in Hc as (l & Hl & Hc).
  apply in_map_iff in Hl as (x & <- & _). apply list_elem_of_In in Hc. unfold printable_char in Hc.
  destruct (in_range 32 126 x) eqn:Hx.
  { apply list_elem_of_singleton in Hc as ->. unfold in_range in Hx. by rewrite andb_true_iff, !N.leb_le in Hx. }
  assert (Hesc : ∀ s w, c ∈ ustr s ++ hex_width w x → forallb (λ x, (32 <=? x) && (x <=? 126)) (ustr s) = true →
    32 <= c <= 126).
  { intros s w [Hin|Hin%hex_width_plain]%elem_of_app Hs; [|lia]. rewrite forallb_elem in Hs.
    apply Hs in Hin. by rewrite andb_true_iff, !N.leb_le in Hin. }
  destruct (x <? 256); [by eapply Hesc|]. destruct (x <=? 0xFFFF); by eapply Hesc.
Qed.

(** A code point that is not a backslash. *)
Definition unambiguous (c : N) : Prop := c < 2 ^ 32 ∧ c ≠ 92.

(** The escapes start with a backslash and a letter that says how long they are. *)
Lemma printable_char_inj (c c' : N) (t t' : pystr) :
  unambiguous c → unambiguous c' → printable_char c ++ t = printable_char c' ++ t' → c = c' ∧ t = t'.
Proof.
  intros [Hc Hs] [Hc' Hs'] He. unfold printable_char in He.
  assert (Hhex : ∀ p w, c < 16 ^ N.of_nat w → c' < 16 ^ N.of_nat w →
    (ustr p ++ hex_width w c) ++ t = (ustr p ++ hex_width w c') ++ t' → c = c' ∧ t = t').
  { intros p w Hw Hw' Heq. rewrite <-!(assoc_L (++)) in Heq. apply app_inv_head in Heq.
    apply app_inj_1 in Heq as [Hh ->]; [|by rewrite !hex_width_length]. split; [|done]. by eapply hex_width_inj. }
  destruct (in_range 32 126 c) eqn:H1, (in_range 32 126 c') eqn:H1'.
  - by injection He as -> ->.
  - exfalso. apply Hs. destruct (c' <? 256); [|destruct (c' <=? 0xFFFF)]; injection He as He _; exact He.
  - exfalso. apply Hs'. symmetry. destruct (c <? 256); [|destruct (c <=? 0xFFFF)]; injection He as He _; exact He.
  - destruct (N.ltb_spec c 256), (N.ltb_spec c' 256); [by eapply Hhex; [..|exact He]|..].
    1,2: exfalso; match type of He with context [if ?b then _ else _] => destruct b end; injection He as He _; done.
    destruct (N.leb_spec c 0xFFFF), (N.leb_spec c' 0xFFFF).
    + apply (Hhex "\u"%string 4%nat); [change (16 ^ N.of_nat 4) with 65536; lia..|exact He].
    + by injection He.
    + by injection He.
    + by eapply Hhex; [..|exact He].
Qed.

Lemma printable_inj (s s' : pystr) :
  Forall unambiguous s → Forall unambiguous s' → printable s = printable s' → s = s'.
Proof.
  intros Hs. revert s'. unfold printable. induction Hs as [|c s Hc Hs IH]; intros s' Hs' He.
  - destruct Hs' as [|c' s' _ _]; [done|]. exfalso. simpl in He. unfold printable_char in He. by repeat case_match.
  - destruct Hs' as [|c' s' Hc' Hs'].
    { exfalso. simpl in He. unfold printable_char in He. by repeat case_match. }
    simpl in He. apply printable_char_inj in He as [-> He]; [|done..]. f_equal. by apply IH.
Qed.

(** ** A submission is not a tool call *)

Lemma drop_while_all {A} (p q : A → bool) (l : list A) :
  (∀ x, p x = true → q x = true) → drop_while q (drop_while p l) = drop_while q l.
Proof.
  intros Hpq. induction l as [|x l IH]; simpl; [done|]. destruct (p x) eqn:Hp; [|done]. by rewrite (Hpq x Hp).
Qed.

(** The first visible character of a text survives the stripping. *)
Lemma drop_while_rev {A} (p q : A → bool) (l : list A) (x : A) (r : list A) :
  (∀ x, p x = true → q x = true) → q x = false →
  drop_while q (rev (drop_while p (rev l))) = x :: r → ∃ r', drop_while q l = x :: r'.
Proof.
  intros Hpq Hx. assert (Hsuf : ∀ k : list A, ∃ s, k = s ++ drop_while p k ∧ Forall (λ y, p y = true) s).
  { induction k as [|y k (s & Hs & Hall)]; simpl; [by exists []|]. destruct (p y) eqn:Hy; [|by exists []].
    exists (y :: s). split; [by rewrite Hs at 1|by constructor]. }
  destruct (Hsuf (rev l)) as (s & Hs & Hall). apply (f_equal (@rev A)) in Hs.
  rewrite rev_involutive, rev_app_distr in Hs. revert Hs. generalize (rev (drop_while p (rev l))).
  intros k -> Hk. induction k as [|y k IH]; simpl in *; [done|]. destruct (q y); [by apply IH|]. injection Hk as -> _. by eexists.
Qed.

Section calls.
Context `{UG : !UnicodeDigits, WC : !WordChars, FR : !FloatRepr}.

Lemma not_call_head (output : pystr) (c : N) (r : pystr) :
  drop_while py_isspace output = c :: r → c ≠ 96 → c ≠ 60 → extract_tool_call output = Ok None.
Proof.
  intros Hd H1 H2. unfold extract_tool_call, workspace_fence, native_section, enclosed. rewrite Hd.
  assert (Hs : ∀ p x, startswith (x :: p) (c :: r) = true → c = x).
  { intros p x Hp. cbn [startswith] in Hp. apply andb_true_iff in Hp as [Hp%bool_decide_eq_true _]. done. }
  destruct (startswith (ustr "```workspace") (c :: r)) eqn:Hw; [by apply Hs in Hw|].
  destruct (startswith SECTION_BEGIN (c :: r)) eqn:Hb; [by apply Hs in Hb|]. done.
Qed.

Lemma bare_head (text : pystr) :
  existsb (λ p, startswith p (drop_while (λ c, (c =? 32) || (c =? 9)) (strip (N.eqb newline) text))) BARE_STARTS = true →
  ∃ c r, drop_while py_isspace text = c :: r ∧ (c = 45 ∨ c = 100 ∨ c = 35).
Proof.
  set (bare := drop_while _ _). intros Hb.
  assert (Hhead : ∃ c r, bare = c :: r ∧ (c = 45 ∨ c = 100 ∨ c = 35)).
  { apply existsb_exists in Hb as (p & Hp & Hst). apply startswith_spec in Hst as [k ->].
    destruct Hp as [<-|[<-|[<-|[]]]]; eexists _, _; (split; [reflexivity|auto]). }
  destruct Hhead as (c & r & Hbare & Hc).
  assert (Hsp : py_isspace c = false) by (by destruct Hc as [->|[->| ->]]).
  assert (Hd : drop_while py_isspace (strip (N.eqb newline) text) = c :: r).
  { rewrite <-(drop_while_all (λ c, (c =? 32) || (c =? 9)) py_isspace).
    - fold bare. rewrite Hbare. simpl. by rewrite Hsp.
    - intros x. rewrite orb_true_iff, !N.eqb_eq. by intros [->| ->]. }
  unfold strip in Hd.
  apply (drop_while_rev (N.eqb newline) py_isspace _ c r) in Hd as [r' Hr]; [|by intros x <-%N.eqb_eq|done].
  exists c, r'. split; [|done]. rewrite <-Hr. symmetry. apply drop_while_all. by intros x <-%N.eqb_eq.
Qed.
End calls.

(** ** Properties *)

(** (functional): repairing a diff gives a diff of as many lines in which only the
    counts of hunk headers changed, every header counts the lines of the body that
    follows it on each side as git does, and which repairing leaves alone. *)
Theorem recount_repairs `{UG : !UnicodeDigits, DL : !DigitLaws} (patch : bytes) (text : pystr) :
  utf8_decode patch = Ok text →
  ∃ out lines,
    recount_hunks patch = Ok out ∧ utf8_decode out = Ok (join [newline] lines) ∧
    split_on newline (join [newline] lines) = lines ∧ counted lines ∧
    Forall2 same_but_counts (split_on newline text) lines ∧ recount_hunks out = Ok out.
Proof.
  intros Hd. pose proof (utf8_encode_decode _ _ Hd) as He.
  assert (Hs : forallb scalar text = true) by (unfold utf8_encode in He; by destruct (forallb scalar text)).
  destruct (recount_text text Hs) as (Hsc & Hsplit & Hc & Hf). set (lines := recount_lines _) in *.
  assert (Hout : ∃ out, utf8_encode (join [newline] lines) = Ok out).
  { unfold utf8_encode. rewrite Hsc. by eexists. }
  destruct Hout as [out Hout]. pose proof (utf8_decode_encode _ _ Hout) as Hdec.
  exists out, lines. unfold recount_hunks at 1. rewrite Hd. fold lines. split_and!; try done.
  unfold recount_hunks. rewrite Hdec, Hsplit. unfold recount_lines. by rewrite recount_counted.
Qed.

(** (safety): whatever a validator writes into a notice, every character that is
    printed is printable ASCII; and a display that may be sent is printed whole: when
    it has no backslash, the lines determine it. *)
Theorem notice_printed (header header' d d' : pystr) (display : option pystr) :
  (∀ line c, line ∈ feedback_lines header display → c ∈ line → 32 <= c <= 126) ∧
  (is_bounded_display (Some d) = true → is_bounded_display (Some d') = true →
   Forall unambiguous d → Forall unambiguous d' →
   feedback_lines header (Some d) = feedback_lines header' (Some d') → d = d').
Proof.
  split.
  - assert (Hlit : ∀ (s : pystr) c, c ∈ s → forallb (λ x, (32 <=? x) && (x <=? 126)) s = true → 32 <= c <= 126).
    { intros s c Hc Hs. rewrite forallb_elem in Hs. apply Hs in Hc. by rewrite andb_true_iff, !N.leb_le in Hc. }
    assert (Hfirst : ∀ line c, line ∈ [feedback_prefix ++ take FEEDBACK_PRINT_HEADER_CHARS (printable header)] →
      c ∈ line → 32 <= c <= 126).
    { intros line c Hl Hc. apply list_elem_of_singleton in Hl as ->.
      apply elem_of_app in Hc as [Hc|Hc]; [by apply (Hlit _ _ Hc)|]. apply (printable_plain header).
      rewrite <-(take_drop FEEDBACK_PRINT_HEADER_CHARS (printable header)). apply elem_of_app. by left. }
    unfold feedback_lines. intros line c. destruct display as [[|x d0]|]; [by apply Hfirst| |by apply Hfirst].
    destruct (negb _); intros [Hl|Hl]%elem_of_app Hc; try (by eapply Hfirst).
    + apply list_elem_of_singleton in Hl as ->. apply elem_of_app in Hc as [Hc|Hc]; by apply (Hlit _ _ Hc).
    + apply list_elem_of_In, in_map_iff in Hl as (l & <- & _). rewrite !elem_of_app in Hc.
      destruct Hc as [Hc|[Hc|Hc]]; [by apply (Hlit _ _ Hc)..|by eapply printable_plain].
  - intros Hb Hb' Hu Hu' He. assert (Hlines : ∀ h x, is_bounded_display (Some x) = true → tail (feedback_lines h (Some x)) =
      map (λ line, feedback_prefix ++ ustr "  " ++ printable line) (split_on newline x)).
    { intros h [|y x] Hx; [done|]. unfold feedback_lines. by rewrite Hx. }
    apply (f_equal tail) in He. rewrite !Hlines in He by done.
    rewrite <-(join_split_on newline d), <-(join_split_on newline d'). f_equal.
    assert (Hun : ∀ x, Forall unambiguous x → Forall (Forall unambiguous) (split_on newline x)).
    { intros x Hx. rewrite <-(join_split_on newline x) in Hx. rewrite Forall_forall. intros l Hl.
      rewrite Forall_forall in *. intros c Hc. apply Hx. by eapply join_elem. }
    apply Hun in Hu, Hu'. revert He Hu'. generalize (split_on newline d'). induction Hu as [|l ls Hl Hls IH]; intros [|k ks] He Hu';
      try done. simpl in He. injection He as He Ht. inversion_clear Hu' as [|? ? Hk Hks]. f_equal; [|by apply IH].
    by apply printable_inj.
Qed.

(** (safety): a reply that is itself a diff or a script is a submission, taken whole:
    it is never taken for a tool call and none of its fences is opened, whatever it adds
    or quotes. *)
Theorem submission_not_call `{UG : !UnicodeDigits, WC : !WordChars, FR : !FloatRepr} (text : pystr) :
  let bare := drop_while (λ c, (c =? 32) || (c =? 9)) (strip (N.eqb newline) text) in
  existsb (λ p, startswith p bare) BARE_STARTS = true →
  extract_tool_call text = Ok None ∧ submission_text text = bare ++ [newline].
Proof.
  intros bare Hb. destruct (bare_head text Hb) as (c & r & Hd & Hc).
  split; [apply (not_call_head text c r Hd); lia|]. unfold submission_text. fold bare. rewrite Hb.
  destruct bare; [done|reflexivity].
Qed.

(** ** Witnesses *)

Definition no_letters : WordChars := {| py_isalnum := λ _, false |}.
Definition ascii_digits : UnicodeDigits := {| py_decimal := λ c, if is_digit c then Some (c - 48) else None |}.

Definition ascii_digit_laws : DigitLaws (H := ascii_digits).
Proof. constructor. intros c _ Hd. cbn. by rewrite Hd. Defined.

Definition miscounted : pystr :=
  join [newline] [ustr "--- a/f"; ustr "+++ b/f"; ustr "@@ -1,9 +1 @@ fn"; ustr " x"; ustr "-y"; ustr "+z"; ustr ""].

Lemma recount_repairs_witness :
  ∃ out, recount_hunks (H := ascii_digits) (bstr "@@ -1,9 +1 @@ fn") = Ok out ∧
         recount_hunks (H := ascii_digits) out = Ok out.
Proof.
  destruct (recount_repairs (UG := ascii_digits) (DL := ascii_digit_laws) (bstr "@@ -1,9 +1 @@ fn")
    (ustr "@@ -1,9 +1 @@ fn")) as (out & lines & Ho & _ & _ & _ & _ & Hi).
  - reflexivity.
  - exists out. split; [exact Ho|exact Hi].
Defined.

Example recount_ex :
  join [newline] (recount_lines (H := ascii_digits) (split_on newline miscounted)) =
  join [newline] [ustr "--- a/f"; ustr "+++ b/f"; ustr "@@ -1,2 +1,2 @@ fn"; ustr " x"; ustr "-y"; ustr "+z"; ustr ""].
Proof. vm_compute. reflexivity. Qed.

Lemma notice_printed_witness : ustr "ab" = ustr "ab".
Proof.
  apply (proj2 (notice_printed (ustr "h") (ustr "h") (ustr "ab") (ustr "ab") None)); try reflexivity.
  - repeat constructor; vm_compute; congruence.
  - repeat constructor; vm_compute; congruence.
Defined.

Lemma submission_not_call_witness :
  extract_tool_call (H := ascii_digits) (H0 := no_letters) (H1 := no_repr) (ustr "--- a") = Ok None.
Proof.
  destruct (submission_not_call (UG := ascii_digits) (WC := no_letters) (FR := no_repr) (ustr "--- a")) as [Hn _].
  - reflexivity.
  - exact Hn.
Defined.

Example fenced_ex :
  submission_text (ustr "Here:" ++ [newline] ++ fence ++ ustr "diff" ++ [newline] ++ ustr "--- a" ++ [newline] ++ fence)
  = ustr "--- a" ++ [newline].
Proof. reflexivity. Qed.

Example native_call_ex :
  native_section (SECTION_BEGIN ++ CALL_BEGIN ++ ustr "functions.read_file:0 " ++ ARGUMENT_BEGIN ++ ustr "{}"
                  ++ CALL_END ++ SECTION_END) ≫= native_call (H := ascii_digits) (H0 := {| py_isalnum := in_range 97 122 |})
  = Some (ustr "read_file", ustr "{}").
Proof. vm_compute. reflexivity. Qed.
