(* ===== verification/Miner.v ===== *)
(** * The reference miner as a server ([src/rlvr/neurons/demo_miner.py])

    [ServedTasks], the authorization of a caller, and the handlers of task requests and
    failure notices with the HTTP endpoints in front of them.  A miner is the record
    [miner]; a handler takes it with what it reads of the outside (clocks, wallet,
    metagraph, the outcome of solving) and returns the reply, the lines it prints and
    the next miner.  pydantic's JSON is the class [MinerRequests].

    The theorems are in [MinerSpec.v]. *)

From S2P Require Import Prelude PyFloat Text Json JsonSpec Canonical CanonicalSpec Wire Identity Codecs Api ApiSpec Protocol ProtocolSpec Feedback EvaluateRound Live Release MinerText.

Local Open Scope Z_scope.

(** ** Served tasks *)

(** Validator, challenge and task. *)
Abbreviation task_key := (pystr * pystr * pystr)%type.

Definition SERVED_TASK_LIMIT : Z := 256.
Definition SERVED_TASK_TTL_S : float := float_of_int 7200.
Definition NOTICE_PRINT_SLOTS : Z := 4.

(** [served]: least recently used first. *)
Record ServedTasks := {
  served_limit : Z;
  ttl_s : float;
  served : list (task_key * (float * Z * pystr));
  answered : gset task_key
}.

Definition ServedTasks_init (limit : Z) (ttl : float) : ServedTasks :=
  {| served_limit := limit; ttl_s := ttl; served := []; answered := ∅ |}.

Definition with_served (t : ServedTasks) (s : list (task_key * (float * Z * pystr))) (a : gset task_key) : ServedTasks :=
  {| served_limit := served_limit t; ttl_s := ttl_s t; served := s; answered := a |}.

(** [self.served.pop(key, None)] *)
Definition pop_key (key : task_key) (s : list (task_key * (float * Z * pystr))) :=
  filter (λ e, e.1 ≠ key) s.

Definition lookup_key (key : task_key) (s : list (task_key * (float * Z * pystr))) : option (float * Z * pystr) :=
  snd <$> find (λ e, bool_decide (e.1 = key)) s.

Definition is_expired (t : ServedTasks) (now : float) (e : task_key * (float * Z * pystr)) : bool :=
  fleb (ttl_s t) (fsub now e.2.1.1).

Definition drop_expired (t : ServedTasks) (now : float) : ServedTasks :=
  with_served t (filter (λ e, is_expired t now e = false) (served t))
    (answered t ∖ list_to_set (map fst (filter (λ e, is_expired t now e = true) (served t)))).

(** The loop that drops the oldest tasks over the limit. *)
Fixpoint evict (limit : Z) (s : list (task_key * (float * Z * pystr))) (a : gset task_key)
    : list (task_key * (float * Z * pystr)) * gset task_key :=
  match s with
  | e :: s' => if limit <? zlen s then evict limit s' (a ∖ {[e.1]}) else (s, a)
  | [] => (s, a)
  end.

Definition add_served (t : ServedTasks) (key : task_key) (uid : Z) (hotkey : pystr) (now : float) : ServedTasks :=
  let t := drop_expired t now in
  let '(s, a) := evict (served_limit t) (pop_key key (served t) ++ [(key, (now, uid, hotkey))]) (answered t) in
  with_served t s a.

Inductive Seen := Unknown | Duplicate | New.

Definition classify (t : ServedTasks) (key : task_key) (uid : Z) (hotkey : pystr) (now : float)
    : Seen * ServedTasks :=
  let t := drop_expired t now in
  match lookup_key key (served t) with
  | None => (Unknown, t)
  | Some (at_, uid', hotkey') =>
      if negb (bool_decide ((uid', hotkey') = (uid, hotkey))) then (Unknown, t)
      else
        let s := pop_key key (served t) ++ [(key, (at_, uid', hotkey'))] in
        if bool_decide (key ∈ answered t) then (Duplicate, with_served t s (answered t))
        else (New, with_served t s (answered t ∪ {[key]}))
  end.

(** ** Authorization *)

(** [None]: the attribute is missing. *)
Record MinerMetagraph := {
  mm_hotkeys : list pystr;
  mm_stakes : option (list float);
  mm_permits : option (list bool)
}.

Record MinerSettings := {
  min_stake : float;
  require_validator_permit : bool;
  request_timeout_s : float;
  max_request_bytes : Z;
  metagraph_sync_s : float
}.

(** [list(hotkeys).index(signed_by)] *)
Definition index_of (x : pystr) (l : list pystr) : option nat := fst <$> list_find (λ y, y = x) l.

Definition authorize (settings : MinerSettings) (metagraph : option MinerMetagraph) (signed_by : pystr) : bool :=
  match metagraph with
  | None => false
  | Some mg =>
      match index_of signed_by (mm_hotkeys mg) with
      | None => false
      | Some uid =>
          (if fltb f0 (min_stake settings) then
             match mm_stakes mg ≫= (λ s, s !! uid) with
             | Some stake => negb (fltb stake (min_stake settings))
             | None => false
             end
           else true)
          && (if require_validator_permit settings
              then match mm_permits mg ≫= (λ p, p !! uid) with Some permit => permit | None => false end
              else true)
      end
  end.

(** ** The handlers *)

Class MinerRequests := {
  read_task : bytes → result MinerTaskRequest;     (* MinerTaskRequest.model_validate_json *)
  read_notice : bytes → result MinerFailureNotice  (* MinerFailureNotice.model_validate_json *)
}.

Record miner := {
  nonces : NonceCache;
  served_tasks : ServedTasks;
  printing_notices : Z
}.

Definition miner_init : miner :=
  {| nonces := NonceCache_init 8000 100000;
     served_tasks := ServedTasks_init SERVED_TASK_LIMIT SERVED_TASK_TTL_S; printing_notices := 0 |}.

Definition with_nonces (m : miner) (c : NonceCache) : miner :=
  {| nonces := c; served_tasks := served_tasks m; printing_notices := printing_notices m |}.
Definition with_tasks (m : miner) (t : ServedTasks) : miner :=
  {| nonces := nonces m; served_tasks := t; printing_notices := printing_notices m |}.
Definition with_printing (m : miner) (n : Z) : miner :=
  {| nonces := nonces m; served_tasks := served_tasks m; printing_notices := n |}.

(** What a call reads of the outside: [hotkey_address] ([""] without a wallet), the chain
    view, and the clocks in the order they are read. *)
Record call_env := {
  ce_hotkey : pystr;
  ce_metagraph : option MinerMetagraph;
  ce_verify_ms : Z;
  ce_nonce_ms : Z;
  ce_time : float;        (* time.time() *)
  ce_monotonic : float    (* time.monotonic(), for the served tasks *)
}.

(** How solving ended. *)
Inductive SolveOutcome := Solved (payload : MinerTaskResponse) | SolveTimedOut | UpstreamFailed | SolveFailed.

(** The body of a reply. *)
Inductive Reply := ErrorReply (message : pystr) | Accepted | SolvedReply (payload : MinerTaskResponse).

Section handlers.
Context `{!Sha256, !Keypair, !UnicodeDigits, !MinerRequests}.
Context (settings : MinerSettings).

Definition error (status : Z) (message : string) : Z * Reply := (status, ErrorReply (ustr message)).

Definition header (h : headers) (name : string) : pystr := default [] (h (ustr name)).

(** [getattr(reason, "value", reason)] *)
Definition code_text (c : ExplanationCode) : pystr :=
  match c with
  | code_reason r => miner_reason_value r
  | code_evaluation_failed => ustr "evaluation_failed"
  | code_passed => ustr "passed"
  end.

Definition notice_header (n : MinerFailureNotice) : pystr :=
  code_text (fe_reason_code (n_failure n)) ++ ustr " challenge " ++ take 32 (n_challenge_id n)
  ++ ustr " task " ++ take 16 (n_task_id n).

(** The reply, the lines that are printed, and the miner once the handler returned
    ([printing_notices] is still counting the lines: see [finished_printing]). *)
Definition handle_failure_notice (m : miner) (env : call_env) (h : headers) (body : bytes)
    : result (Z * Reply * option (list pystr) * miner) :=
  let refuse status message m := mret (error status message, None, m) in
  if FAILURE_NOTICE_MAX_BYTES <? zlen body then refuse 413 "notice too large" m
  else if bool_decide (is_Some (ce_metagraph env)) && negb (bool_decide (ce_hotkey env = [])) then
    verified ← verify_signature h body ALLOWED_DELTA_MS (ce_verify_ms env) (Some (ce_hotkey env));
    if negb verified then refuse 401 "invalid signature" m
    else
      let '(fresh, cache) := check_and_add (nonces m) (header h "Epistula-Uuid") (ce_nonce_ms env) in
      let m := with_nonces m cache in
      if negb fresh then refuse 409 "replayed request" m
      else
        let signed_by := header h "Epistula-Signed-By" in
        if negb (authorize settings (ce_metagraph env) signed_by) then refuse 403 "unauthorized signer" m
        else
          match read_notice body with
          | Raise _ => refuse 400 "invalid failure notice" m
          | Ok notice =>
              if negb (bool_decide (n_hotkey notice = ce_hotkey env)) then refuse 403 "notice is for another miner" m
              else if NOTICE_PRINT_SLOTS <=? printing_notices m then refuse 503 "busy" m
              else
                let '(seen, tasks) :=
                  classify (served_tasks m) (signed_by, n_challenge_id notice, n_task_id notice)
                    (n_uid notice) (n_hotkey notice) (ce_monotonic env) in
                let m := with_tasks m tasks in
                match seen with
                | Unknown => refuse 404 "no such task from this validator" m
                | Duplicate => mret (200, Accepted, None, m)
                | New =>
                    mret (200, Accepted,
                          Some (feedback_lines (notice_header notice) (fe_failed_check (n_failure notice))),
                          with_printing m (printing_notices m + 1))
                end
          end
  else refuse 403 "receiver is not configured" m.

(** The callback of a finished write. *)
Definition finished_printing (m : miner) : miner := with_printing m (Z.max 0 (printing_notices m - 1)).

Definition solve_timeout (env : call_env) (request : MinerTaskRequest) : float :=
  fmin (fmax f0 (fsub (float_of_int (t_expires_at request)) (ce_time env))) (request_timeout_s settings).

(** A request that is to be solved. *)
Record Admission := {
  ad_request : MinerTaskRequest;
  ad_signed_by : pystr;
  ad_timeout : float
}.

(** Everything before solving: the reply of a request that is refused, or its admission. *)
Definition admit_request (m : miner) (env : call_env) (h : headers) (body : bytes)
    : result ((Z * Reply + Admission) * miner) :=
  verified ← verify_signature h body ALLOWED_DELTA_MS (ce_verify_ms env)
    (if bool_decide (ce_hotkey env = []) then None else Some (ce_hotkey env));
  if negb verified then mret (inl (error 401 "invalid signature"), m)
  else
    let '(fresh, cache) := check_and_add (nonces m) (header h "Epistula-Uuid") (ce_nonce_ms env) in
    let m := with_nonces m cache in
    let refuse status message := mret (inl (error status message), m) in
    if negb fresh then refuse 409 "replayed request"
    else
      let signed_by := header h "Epistula-Signed-By" in
      if bool_decide (is_Some (ce_metagraph env)) && negb (authorize settings (ce_metagraph env) signed_by)
      then refuse 403 "unauthorized signer"
      else
        match read_task body with
        | Raise _ => refuse 400 "invalid task request"
        | Ok request =>
            let identity := t_identity request in
            if negb (bool_decide (s_hotkey (submission (t_slots request)) = ce_hotkey env))
            then refuse 403 "task is assigned to another miner"
            else if negb (bool_decide (execution_profile_id identity = v3_execution_profile_id RELEASE_POLICY))
                    || negb (bool_decide (verifier_policy identity = ustr "command-gold-digest-v1"))
            then refuse 422 "unsupported task policy"
            else if fleb (solve_timeout env request) f0 then refuse 410 "task expired"
            else mret (inr {| ad_request := request; ad_signed_by := signed_by;
                              ad_timeout := solve_timeout env request |}, m)
        end.

(** The reply once solving ended; other calls may have changed the miner meanwhile. *)
Definition finish_request (m : miner) (admission : Admission) (outcome : SolveOutcome) (now : float)
    : Z * Reply * miner :=
  let request := ad_request admission in
  let slot := submission (t_slots request) in
  match outcome with
  | SolveTimedOut => (error 504 "solve deadline exceeded", m)
  | UpstreamFailed => (error 502 "upstream request failed", m)
  | SolveFailed => (error 500 "solve failed", m)
  | Solved payload =>
      (200, SolvedReply payload,
       with_tasks m
         (add_served (served_tasks m) (ad_signed_by admission, t_challenge_id request, t_task_id request)
            (s_uid slot) (s_hotkey slot) now))
  end.

(** A request that is alone. *)
Definition handle_request (solve : MinerTaskRequest → float → SolveOutcome) (m : miner) (env : call_env)
    (h : headers) (body : bytes) : result (Z * Reply * miner) :=
  '(admitted, m') ← admit_request m env h body;
  mret (match admitted with
        | inl reply => (reply, m')
        | inr a => finish_request m' a (solve (ad_request a) (ad_timeout a)) (ce_monotonic env)
        end).

(** ** Endpoints *)

(** [read_bounded]: the declared length and the chunks of the body. *)
Definition read_request_body (declared : option pystr) (chunks : list bytes) (limit : Z) : option bytes :=
  let declared := match declared with None | Some [] => ustr "0" | Some d => d end in
  match int_text declared with
  | Raise _ => None
  | Ok n => if (n <? 0) || (limit <? n) then None
            else match read_reply limit [] chunks None with Ok body => body | Raise _ => None end
  end.

Definition failure_limit : Z := Z.min (max_request_bytes settings) FAILURE_NOTICE_MAX_BYTES.

Context (dump_response : MinerTaskResponse → pystr).

(** [json.dumps(payload, separators=(",", ":"))], or the JSON of a response. *)
Definition reply_text (r : Reply) : pystr :=
  match r with
  | ErrorReply message =>
      123%N :: quote_string (ustr "error") ++ colon ++ quote_string message ++ [125%N]
  | Accepted => 123%N :: quote_string (ustr "accepted") ++ colon ++ lit_true ++ [125%N]
  | SolvedReply payload => dump_response payload
  end.

Definition too_large : Z * Reply := (413, ErrorReply (ustr "request body too large")).

(** The reply of an endpoint: its status, its body and the headers that sign it. *)
Record http_reply := { hr_status : Z; hr_body : bytes; hr_headers : list (pystr * pystr) }.

Definition unsigned_reply (reply : Z * Reply) : result http_reply :=
  body ← utf8_encode (reply_text reply.2);
  mret {| hr_status := reply.1; hr_body := body; hr_headers := [] |}.

(** [wallet]: [NoHotkey] when there is none; [clock] and [uuid] are those of signing. *)
Definition solve_endpoint (solve : MinerTaskRequest → float → SolveOutcome) (wallet : Hotkey) (clock : Z)
    (uuid : pystr) (m : miner) (env : call_env) (h : headers) (chunks : list bytes) : result (http_reply * miner) :=
  match read_request_body (h (ustr "content-length")) chunks (max_request_bytes settings) with
  | None => r ← unsigned_reply too_large; mret (r, m)
  | Some body =>
      '(reply, m') ← handle_request solve m env h body;
      r ← unsigned_reply reply;
      signed ← (match wallet with
                | NoHotkey => mret []
                | _ => if reply.1 =? 200
                       then sign_message wallet (hr_body r) (Some (header h "Epistula-Signed-By")) clock uuid
                       else mret []
                end);
      mret ({| hr_status := hr_status r; hr_body := hr_body r; hr_headers := signed |}, m')
  end.

Definition failure_endpoint (m : miner) (env : call_env) (h : headers) (chunks : list bytes)
    : result (http_reply * option (list pystr) * miner) :=
  match read_request_body (h (ustr "content-length")) chunks failure_limit with
  | None => r ← unsigned_reply too_large; mret (r, None, m)
  | Some body =>
      '(reply, lines, m') ← handle_failure_notice m env h body;
      r ← unsigned_reply reply;
      mret (r, lines, m')
  end.

(** [maybe_sync_metagraph]: the chain view and the time of the last refresh.  [before]
    and [locked] are the clock outside and inside the lock, [after] once the refresh
    ended; [None] is a refresh that failed. *)
Definition maybe_sync_metagraph (has_subtensor : bool) (before locked after : float)
    (refreshed : option MinerMetagraph) (view : option MinerMetagraph) (last : float)
    : option MinerMetagraph * float :=
  match view with
  | None => (view, last)
  | Some mg =>
      if negb has_subtensor || fltb (fsub before last) (metagraph_sync_s settings)
         || fltb (fsub locked last) (metagraph_sync_s settings)
      then (view, last)
      else (Some (default mg refreshed), after)
  end.
End handlers.
