(* ===== verification/MinerSpec.v ===== *)
(** * What the reference miner guarantees

    [printed_once], [miner_bounded]: over any interleaving of requests, notices and
    finished writes.  [notice_authentic]: what a notice that is printed went through.
    [honest_miner_answers]: a dispatch of the validator ([Live.v]) that an honest miner
    serves comes back as an accepted response. *)

From S2P Require Import Prelude PyFloat Text Json JsonSpec Canonical CanonicalSpec Wire Identity Codecs Api ApiSpec Protocol ProtocolSpec Feedback EvaluateRound EvaluateRoundSpec Live Release MinerText Miner.

Local Open Scope Z_scope.

(** ** Served tasks *)

Abbreviation served_entry := (task_key * (float * Z * pystr))%type.

Definition tasks_ok (t : ServedTasks) : Prop :=
  NoDup (map fst (served t)) ∧ zlen (served t) <= served_limit t ∧ 0 <= served_limit t.

(** Some tasks were dropped; of the others it is still known whether they were answered. *)
Definition thinned (s s' : list served_entry) (a a' : gset task_key) : Prop :=
  s' `sublist_of` s ∧ ∀ e, e ∈ s' → e.1 ∈ a' ↔ e.1 ∈ a.

Lemma sublist_keys (s s' : list served_entry) : s' `sublist_of` s → NoDup (map fst s) → NoDup (map fst s').
Proof. intros Hs Hn. eapply sublist_NoDup; [exact Hn|]. by apply fmap_sublist. Qed.

Lemma same_key (s : list served_entry) (e e' : served_entry) :
  NoDup (map fst s) → e ∈ s → e' ∈ s → e.1 = e'.1 → e = e'.
Proof.
  intros Hn (i & Hi)%list_elem_of_lookup_1 (j & Hj)%list_elem_of_lookup_1 He.
  assert (i = j) as ->; [|congruence]. eapply NoDup_lookup; [exact Hn| |].
  - change (map fst s) with (fst <$> s). by rewrite list_lookup_fmap, Hi.
  - change (map fst s) with (fst <$> s). rewrite list_lookup_fmap, Hj. simpl. by rewrite He.
Qed.

Lemma drop_expired_thins (t : ServedTasks) (now : float) :
  NoDup (map fst (served t)) →
  thinned (served t) (served (drop_expired t now)) (answered t) (answered (drop_expired t now)).
Proof.
  intros Hn. split; [apply sublist_filter|]. intros e He. cbn [drop_expired served answered with_served] in *.
  apply list_elem_of_filter in He as [Hne He]. rewrite elem_of_difference, elem_of_list_to_set.
  split; [by intros []|]. intros Ha. split; [done|]. intros Hin%list_elem_of_In%in_map_iff.
  destruct Hin as (e' & Heq & Hin%list_elem_of_In). apply list_elem_of_filter in Hin as [Hex Hin].
  assert (e' = e) as -> by (by eapply same_key). congruence.
Qed.

Lemma evict_thins (limit : Z) (s s' : list served_entry) (a a' : gset task_key) :
  NoDup (map fst s) → 0 <= limit → evict limit s a = (s', a') → thinned s s' a a' ∧ zlen s' <= limit ∧
  (limit = 0 ∨ last s' = last s).
Proof.
  intros Hn Hl. revert a. induction s as [|e s IH]; intros a; cbn [evict].
  { intros [= <- <-]. split; [done|]. split; [done|by right]. }
  destruct (Z.ltb_spec limit (zlen (e :: s))) as [Hlt|Hle].
  2:{ intros [= <- <-]. split; [done|]. split; [done|by right]. }
  inversion_clear Hn as [|? ? Hnin Hn']. intros He. destruct (IH Hn' _ He) as ([Hs Ha] & Hz & Hlast).
  split; [split; [by apply sublist_cons|]|split; [done|]].
  - intros x Hx. rewrite (Ha x Hx), elem_of_difference, elem_of_singleton. split; [by intros []|].
    intros Hxa. split; [done|]. intros Hxe. apply Hnin. rewrite <-Hxe. apply list_elem_of_In, in_map, list_elem_of_In.
    by eapply elem_of_sublist.
  - destruct Hlast as [|Hlast]; [by left|]. destruct s as [|e' s]; [|by right]. left. unfold zlen in Hlt. simpl in Hlt. lia.
Qed.

Lemma pop_key_keys (key : task_key) (s : list served_entry) (v : float * Z * pystr) :
  NoDup (map fst s) → NoDup (map fst (pop_key key s ++ [(key, v)])).
Proof.
  intros Hn. rewrite map_app. apply NoDup_app. split_and!; [|intros x|by apply NoDup_singleton].
  - eapply sublist_keys; [|exact Hn]. apply sublist_filter.
  - intros Hx Hk%list_elem_of_singleton. subst x. apply list_elem_of_In, in_map_iff in Hx as (e & He & Hin%list_elem_of_In).
    by apply list_elem_of_filter in Hin as [].
Qed.

Lemma pop_key_elem (key : task_key) (s : list served_entry) (v : float * Z * pystr) (e : served_entry) :
  e ∈ pop_key key s ++ [(key, v)] ↔ e = (key, v) ∨ e.1 ≠ key ∧ e ∈ s.
Proof. unfold pop_key. rewrite elem_of_app, list_elem_of_filter, list_elem_of_singleton. naive_solver. Qed.

Lemma pop_key_length (key : task_key) (s : list served_entry) (v : float * Z * pystr) :
  key ∈ map fst s → zlen (pop_key key s ++ [(key, v)]) <= zlen s.
Proof.
  intros Hk. unfold zlen. rewrite length_app. simpl. unfold pop_key.
  assert (Hlt : (length (filter (λ e : served_entry, e.1 ≠ key) s) < length s)%nat); [|lia].
  induction s as [|e s IH]; [by apply not_elem_of_nil in Hk|]. rewrite filter_cons. simpl in Hk.
  pose proof (sublist_length _ _ (sublist_filter (λ e : served_entry, e.1 ≠ key) s)).
  case_decide as Hd; simpl; [|lia]. apply elem_of_cons in Hk as [Hk|Hk]; [by subst|]. specialize (IH Hk). lia.
Qed.

Lemma lookup_key_elem (key : task_key) (s : list served_entry) (v : float * Z * pystr) :
  lookup_key key s = Some v → (key, v) ∈ s.
Proof.
  unfold lookup_key. intros ([k w] & Hf & ->)%fmap_Some. apply find_some in Hf as [Hin Hk].
  apply bool_decide_eq_true in Hk. simpl in *. subst. by apply list_elem_of_In.
Qed.

Lemma drop_expired_ok (t : ServedTasks) (now : float) : tasks_ok t → tasks_ok (drop_expired t now).
Proof.
  intros (Hn & Hz & Hl). pose proof (drop_expired_thins t now Hn) as [Hs _]. split_and!; [|etrans; [|exact Hz]|exact Hl].
  - by eapply sublist_keys.
  - apply sublist_length in Hs. unfold zlen. lia.
Qed.

(** After a task was served, it is there, and nothing else was added. *)
Lemma add_served_spec (t : ServedTasks) (key : task_key) (uid : Z) (hotkey : pystr) (now : float) :
  tasks_ok t →
  let t' := add_served t key uid hotkey now in
  tasks_ok t' ∧
  ∀ e, e ∈ served t' →
    e = (key, (now, uid, hotkey)) ∨ e.1 ≠ key ∧ e ∈ served t ∧ (e.1 ∈ answered t' ↔ e.1 ∈ answered t).
Proof.
  intros Ht. unfold add_served. pose proof (drop_expired_ok t now Ht) as (Hn & _ & Hl).
  pose proof (drop_expired_thins t now (proj1 Ht)) as [Hs Ha]. set (d := drop_expired t now) in *.
  destruct (evict _ _ _) as [s a] eqn:He.
  apply evict_thins in He as ([Hs' Ha'] & Hz & _); [|by apply pop_key_keys|done].
  split; [split_and!; [|exact Hz|exact Hl]|].
  - eapply sublist_keys; [exact Hs'|by apply pop_key_keys].
  - cbn [served answered with_served]. intros e Hin. rewrite (Ha' e Hin).
    pose proof (elem_of_sublist _ _ _ Hin Hs') as [->|[Hne Hd]]%pop_key_elem; [by left|right].
    split; [done|]. split; [by eapply elem_of_sublist|by apply Ha].
Qed.

(** A notice is new once for every time its task was served. *)
Lemma classify_spec (t : ServedTasks) (key : task_key) (uid : Z) (hotkey : pystr) (now : float) :
  tasks_ok t →
  let '(seen, t') := classify t key uid hotkey now in
  tasks_ok t' ∧ served_limit t' = served_limit t ∧
  (∀ e, e ∈ served t' → e ∈ served t ∧ (e.1 ∈ answered t' ↔ e.1 ∈ answered t ∨ seen = New ∧ e.1 = key)) ∧
  (seen = New → (key ∉ answered t) ∧ ∃ at_, (key, (at_, uid, hotkey)) ∈ served t).
Proof.
  intros Ht. unfold classify. pose proof (drop_expired_ok t now Ht) as Hok.
  pose proof (drop_expired_thins t now (proj1 Ht)) as [Hs Ha]. set (d := drop_expired t now) in *.
  assert (Hkeep : ∀ e, e ∈ served d → e ∈ served t ∧ (e.1 ∈ answered d ↔ e.1 ∈ answered t)).
  { intros e He. split; [by eapply elem_of_sublist|by apply Ha]. }
  assert (Hlim : served_limit d = served_limit t) by done. clearbody d.
  destruct (lookup_key key (served d)) as [[[at_ uid'] hotkey']|] eqn:Hk.
  2:{ split_and!; [done..| |done]. intros e He. destruct (Hkeep e He). naive_solver. }
  case_bool_decide as Hm; cbn [negb].
  2:{ split_and!; [done..| |done]. intros e He. destruct (Hkeep e He). naive_solver. }
  injection Hm as -> ->. apply lookup_key_elem in Hk. destruct Hok as (Hn & Hz & Hl).
  assert (Hin : key ∈ map fst (served d)) by (apply list_elem_of_In, (in_map fst _ (key, (at_, uid, hotkey))), list_elem_of_In, Hk).
  assert (Hok' : ∀ a, tasks_ok (with_served d (pop_key key (served d) ++ [(key, (at_, uid, hotkey))]) a)).
  { intros a. split_and!; [by apply pop_key_keys| |done]. cbn. etrans; [by apply pop_key_length|done]. }
  assert (Helem : ∀ e, e ∈ pop_key key (served d) ++ [(key, (at_, uid, hotkey))] → e ∈ served d).
  { intros e [->|[_ He]]%pop_key_elem; [exact Hk|exact He]. }
  case_bool_decide as Hans; (split_and!; [apply Hok'|exact Hlim| |]); cbn [served answered with_served]; [|done| |].
  - intros e He%Helem. destruct (Hkeep e He). naive_solver.
  - intros e He%Helem. destruct (Hkeep e He). rewrite elem_of_union, elem_of_singleton. naive_solver.
  - intros _. destruct (Hkeep _ Hk) as [Hin' Hiff]. split; [|by exists at_]. rewrite <-Hiff. exact Hans.
Qed.

(** ** A miner over time *)

Section time.
Context `{SH : !Sha256, KP : !Keypair, UG : !UnicodeDigits, MR : !MinerRequests}.
Context (settings : MinerSettings).
Implicit Types (m : miner) (key : task_key) (uid : Z) (hotkey : pystr).

(** What happens to a miner, in any order: a request or a notice arrives, solving ends,
    the lines of a notice are written. *)
Inductive happening :=
  | Asked (env : call_env) (h : headers) (body : bytes)
  | Finished (a : Admission) (outcome : SolveOutcome) (now : float)
  | Noticed (env : call_env) (h : headers) (body : bytes)
  | Written.

(** What the world sees of it. *)
Inductive ledger_entry :=
  | Served (key : task_key) (uid : Z) (hotkey : pystr)
  | Printed (key : task_key) (uid : Z) (hotkey : pystr)
  | Nothing.

Definition notice_key (h : headers) (n : MinerFailureNotice) : task_key :=
  (header h "Epistula-Signed-By", n_challenge_id n, n_task_id n).

Definition happen m (e : happening) : ledger_entry * miner :=
  match e with
  | Asked env h body =>
      match admit_request settings m env h body with Ok (_, m') => (Nothing, m') | Raise _ => (Nothing, m) end
  | Finished a outcome now =>
      let slot := submission (t_slots (ad_request a)) in
      (match outcome with
       | Solved _ => Served (ad_signed_by a, t_challenge_id (ad_request a), t_task_id (ad_request a))
                       (s_uid slot) (s_hotkey slot)
       | _ => Nothing
       end, (finish_request m a outcome now).2)
  | Noticed env h body =>
      match handle_failure_notice settings m env h body with
      | Ok (_, lines, m') =>
          (match lines, read_notice body with
           | Some _, Ok n => Printed (notice_key h n) (n_uid n) (n_hotkey n)
           | _, _ => Nothing
           end, m')
      | Raise _ => (Nothing, m)
      end
  | Written => (Nothing, finished_printing m)
  end.

Fixpoint happen_all m (events : list happening) : list ledger_entry * miner :=
  match events with
  | [] => ([], m)
  | e :: events' =>
      let '(entry, m') := happen m e in
      let '(log, m'') := happen_all m' events' in (entry :: log, m'')
  end.

(** How a handler of notices can end. *)
Lemma notice_cases m m' (env : call_env) (h : headers) (body : bytes) (reply : Z * Reply) (lines : option (list pystr)) :
  handle_failure_notice settings m env h body = Ok (reply, lines, m') →
  (lines = None ∧ printing_notices m' = printing_notices m ∧
     (served_tasks m' = served_tasks m ∨
      ∃ n seen, read_notice body = Ok n ∧ seen ≠ New ∧ reply.1 ≠ 503 ∧
        classify (served_tasks m) (notice_key h n) (n_uid n) (n_hotkey n) (ce_monotonic env)
        = (seen, served_tasks m'))) ∨
  ∃ n, read_notice body = Ok n ∧ reply = (200, Accepted) ∧ lines = Some (feedback_lines (notice_header n) (fe_failed_check (n_failure n))) ∧
    n_hotkey n = ce_hotkey env ∧ zlen body <= FAILURE_NOTICE_MAX_BYTES ∧ printing_notices m < NOTICE_PRINT_SLOTS ∧
    printing_notices m' = printing_notices m + 1 ∧
    verify_signature h body ALLOWED_DELTA_MS (ce_verify_ms env) (Some (ce_hotkey env)) = Ok true ∧
    (check_and_add (nonces m) (header h "Epistula-Uuid") (ce_nonce_ms env)).1 = true ∧
    authorize settings (ce_metagraph env) (header h "Epistula-Signed-By") = true ∧
    classify (served_tasks m) (notice_key h n) (n_uid n) (n_hotkey n) (ce_monotonic env) = (New, served_tasks m').
Proof.
  unfold handle_failure_notice. destruct (Z.ltb_spec FAILURE_NOTICE_MAX_BYTES (zlen body)).
  { intros [= <- <- <-]. left. auto. }
  destruct (_ && _) eqn:Hc; [|intros [= <- <- <-]; left; auto].
  intros (verified & Hv & Hn)%bind_Ok. destruct verified; cbn [negb] in Hn; [|injection Hn as <- <- <-; left; auto].
  destruct (check_and_add _ _ _) as [fresh cache] eqn:Hca.
  destruct fresh; cbn [negb] in Hn; [|injection Hn as <- <- <-; left; auto].
  destruct (authorize _ _ _) eqn:Hau; cbn [negb] in Hn; [|injection Hn as <- <- <-; left; auto].
  destruct (read_notice body) as [n|]; [|injection Hn as <- <- <-; left; auto].
  case_bool_decide as Hh; cbn [negb] in Hn; [|injection Hn as <- <- <-; left; auto].
  cbn [printing_notices with_nonces served_tasks] in Hn.
  destruct (Z.leb_spec NOTICE_PRINT_SLOTS (printing_notices m)); [injection Hn as <- <- <-; left; auto|].
  fold (notice_key h n) in Hn. destruct (classify _ _ _ _ _) as [seen tasks] eqn:Hcl.
  destruct seen; injection Hn as <- <- <-.
  - left. split_and!; [done|done|]. right. by exists n, Unknown.
  - left. split_and!; [done|done|]. right. by exists n, Duplicate.
  - right. exists n. split_and!; done.
Qed.

Lemma notice_nonces m m' (env : call_env) (h : headers) (body : bytes) (reply : Z * Reply) (lines : option (list pystr)) :
  handle_failure_notice settings m env h body = Ok (reply, lines, m') →
  nonces m' = nonces m ∨ nonces m' = (check_and_add (nonces m) (header h "Epistula-Uuid") (ce_nonce_ms env)).2.
Proof.
  unfold handle_failure_notice. destruct (_ <? _); [intros [= _ _ <-]; auto|].
  destruct (_ && _); [|intros [= _ _ <-]; auto]. intros (verified & _ & Hn)%bind_Ok.
  destruct (negb verified); [injection Hn as _ _ <-; auto|].
  destruct (check_and_add _ _ _) as [fresh cache]. cbn [snd]. right.
  repeat case_match; injection Hn as _ _ <-; done.
Qed.

Lemma admit_tasks m m' (env : call_env) (h : headers) (body : bytes) (r : Z * Reply + Admission) :
  admit_request settings m env h body = Ok (r, m') →
  served_tasks m' = served_tasks m ∧ printing_notices m' = printing_notices m ∧
  (nonces m' = nonces m ∨
   nonces m' = (check_and_add (nonces m) (header h "Epistula-Uuid") (ce_nonce_ms env)).2).
Proof.
  unfold admit_request. intros (verified & _ & Hn)%bind_Ok.
  destruct (negb verified); [injection Hn as <- <-; auto|].
  destruct (check_and_add _ _ _) as [fresh cache]. cbn [snd].
  repeat case_match; injection Hn as <- <-; auto.
Qed.

(** The log so far accounts for what the miner remembers. *)
Definition accounted (log : list ledger_entry) m : Prop :=
  tasks_ok (served_tasks m) ∧
  ∀ key at_ uid hotkey, (key, (at_, uid, hotkey)) ∈ served (served_tasks m) →
    ∃ i, log !! i = Some (Served key uid hotkey) ∧
      (key ∉ answered (served_tasks m) →
       ∀ j u hk, (i < j)%nat → log !! j ≠ Some (Printed key u hk)).

Lemma accounted_snoc (log : list ledger_entry) (x : ledger_entry) m m' :
  accounted log m → tasks_ok (served_tasks m') →
  (∀ e, e ∈ served (served_tasks m') →
     x = Served e.1 e.2.1.2 e.2.2 ∨
     e ∈ served (served_tasks m) ∧
     (e.1 ∉ answered (served_tasks m') → (e.1 ∉ answered (served_tasks m)) ∧ ∀ u hk, x ≠ Printed e.1 u hk)) →
  accounted (log ++ [x]) m'.
Proof.
  intros [Hok Hacc] Hok' Hstep. split; [done|]. intros key at_ uid hotkey Hin.
  destruct (Hstep _ Hin) as [Hx|[Hin' Hkeep]]; cbn [fst snd] in *.
  - exists (length log). split; [by rewrite lookup_app_r, Nat.sub_diag, Hx by lia|].
    intros _ j u hk Hj. rewrite lookup_app_r by lia. destruct (j - length log)%nat eqn:Hd; [lia|done].
  - destruct (Hacc _ _ _ _ Hin') as (i & Hi & Hno). exists i. split; [by apply lookup_app_l_Some|].
    intros [Hna Hnp]%Hkeep j u hk Hj Hlog. apply lookup_app_Some in Hlog as [Hlog|[Hge Hlog]].
    + by eapply Hno.
    + apply list_lookup_singleton_Some in Hlog as [_ Hlog]. by eapply Hnp.
Qed.

Lemma accounted_same (log : list ledger_entry) m m' :
  accounted log m → served_tasks m' = served_tasks m → accounted (log ++ [Nothing]) m'.
Proof.
  intros Hacc Hs. apply (accounted_snoc log Nothing m); [done|rewrite Hs; by destruct Hacc|].
  rewrite Hs. intros e He. right. by split.
Qed.

Lemma happen_accounted (log : list ledger_entry) m m' (e : happening) (x : ledger_entry) :
  accounted log m → happen m e = (x, m') →
  accounted (log ++ [x]) m' ∧ served_limit (served_tasks m') = served_limit (served_tasks m) ∧
  ∀ key uid hotkey, x = Printed key uid hotkey →
    (key ∉ answered (served_tasks m)) ∧ ∃ at_, (key, (at_, uid, hotkey)) ∈ served (served_tasks m).
Proof.
  intros Hacc Hstep. pose proof Hacc as [Hok _]. destruct e as [env h body|a outcome now|env h body|]; cbn [happen] in Hstep.
  - destruct (admit_request _ _ _ _ _) as [[r m1]|] eqn:Ha; injection Hstep as <- <-.
    + apply admit_tasks in Ha as (Ht & _). split; [by eapply accounted_same|]. by rewrite Ht.
    + by split; [eapply accounted_same|].
  - destruct outcome; injection Hstep as <- <-;
      [|by split; [eapply accounted_same|]..].
    cbn [finish_request snd with_tasks served_tasks].
    set (slot := submission (t_slots (ad_request a))).
    set (key := (ad_signed_by a, t_challenge_id (ad_request a), t_task_id (ad_request a))).
    pose proof (add_served_spec (served_tasks m) key (s_uid slot) (s_hotkey slot) now Hok) as [Hok' Hadd].
    split; [|split; [|done]].
    + apply (accounted_snoc log _ m); [done|exact Hok'|]. intros e He. cbn [served_tasks with_tasks] in He.
      destruct (Hadd e He) as [->|(Hne & Hin & Hiff)]; [by left|right]. split; [done|].
      cbn [served_tasks with_tasks]. rewrite Hiff. by split.
    + unfold add_served. by destruct (evict _ _ _).
  - destruct (handle_failure_notice _ _ _ _ _) as [[[reply lines] m1]|] eqn:Hn.
    2:{ injection Hstep as <- <-. by split; [eapply accounted_same|]. }
    injection Hstep as Hx <-.
    destruct (notice_cases _ _ _ _ _ _ _ Hn) as [(-> & _ & [Ht|(n & seen & Hr & Hseen & _ & Hcl)])|(n & Hr & _ & Hl & _ & _ & _ & _ & _ & _ & _ & Hcl)].
    + subst x. split; [by eapply accounted_same|]. by rewrite Ht.
    + subst x. pose proof (classify_spec (served_tasks m) (notice_key h n) (n_uid n) (n_hotkey n) (ce_monotonic env) Hok) as Hspec.
      rewrite Hcl in Hspec. destruct Hspec as (Hok' & Hlim & Hkeep & _). split; [|done].
      apply (accounted_snoc log _ m); [done|exact Hok'|]. intros e He. right. destruct (Hkeep e He) as [Hin Hiff].
      split; [done|]. intros Hna. split; [|done]. intros Ha. apply Hna, Hiff. by left.
    + rewrite Hl, Hr in Hx. subst x.
      pose proof (classify_spec (served_tasks m) (notice_key h n) (n_uid n) (n_hotkey n) (ce_monotonic env) Hok) as Hspec.
      rewrite Hcl in Hspec. destruct Hspec as (Hok' & Hlim & Hkeep & Hnew). split; [|split; [done|]].
      * apply (accounted_snoc log _ m); [done|exact Hok'|]. intros e He. right. destruct (Hkeep e He) as [Hin Hiff].
        split; [done|]. intros Hna. split; [intros Ha; apply Hna, Hiff; by left|].
        intros u hk [= Hk _ _]. apply Hna, Hiff. by right.
      * intros key uid hotkey [= <- <- <-]. by apply Hnew.
  - injection Hstep as <- <-. by split; [eapply accounted_same|].
Qed.

Lemma happen_all_printed (events : list happening) (log log' : list ledger_entry) m m' (j : nat) key uid hotkey :
  accounted log m → happen_all m events = (log', m') →
  (length log <= j)%nat → (log ++ log') !! j = Some (Printed key uid hotkey) →
  ∃ i, (i < j)%nat ∧ (log ++ log') !! i = Some (Served key uid hotkey) ∧
    ∀ k u hk, (i < k < j)%nat → (log ++ log') !! k ≠ Some (Printed key u hk).
Proof.
  revert log log' m. induction events as [|e events IH]; intros log log' m Hacc Hall Hj Hlog.
  { injection Hall as <- <-. rewrite app_nil_r in Hlog. apply lookup_lt_Some in Hlog. lia. }
  cbn [happen_all] in Hall. destruct (happen m e) as [x m1] eqn:Hs.
  destruct (happen_all m1 events) as [rest m2] eqn:Hrest. injection Hall as <- <-.
  destruct (happen_accounted _ _ _ _ _ Hacc Hs) as (Hacc1 & _ & Hprint).
  destruct (decide (j = length log)) as [->|Hne].
  - rewrite lookup_app_r, Nat.sub_diag in Hlog by lia. injection Hlog as ->.
    destruct (Hprint _ _ _ eq_refl) as (Hna & at_ & Hin). destruct Hacc as [_ Hacc].
    destruct (Hacc _ _ _ _ Hin) as (i & Hi & Hno). pose proof (lookup_lt_Some _ _ _ Hi) as Hlt.
    exists i. split; [done|]. split; [by apply lookup_app_l_Some|]. intros k u hk Hk Hp.
    rewrite lookup_app_l in Hp by lia. exact (Hno Hna k u hk (proj1 Hk) Hp).
  - change (log ++ x :: rest) with (log ++ [x] ++ rest) in *. rewrite (assoc_L (++)) in *.
    eapply IH; [exact Hacc1|exact Hrest| |exact Hlog]. rewrite length_app. simpl. lia.
Qed.

(** The bounds of a miner. *)
Record miner_ok m : Prop := {
  miner_tasks : tasks_ok (served_tasks m);
  miner_printing : 0 <= printing_notices m <= NOTICE_PRINT_SLOTS;
  miner_nonces : cache_ok (nonces m)
}.

Lemma happen_ok m (e : happening) :
  miner_ok m →
  miner_ok (happen m e).2 ∧ served_limit (served_tasks (happen m e).2) = served_limit (served_tasks m) ∧
  max_nonces (nonces (happen m e).2) = max_nonces (nonces m).
Proof.
  intros [Ht Hp Hc]. destruct (happen m e) as [x m'] eqn:Hs.
  assert (Hcache : ∀ u now, cache_ok (check_and_add (nonces m) u now).2 ∧
                            max_nonces (check_and_add (nonces m) u now).2 = max_nonces (nonces m)).
  { intros u now. destruct (check_and_add (nonces m) u now) as [b c] eqn:Hca.
    apply check_and_add_ok in Hca as (? & _ & ?); done. }
  assert (Hnon : nonces m' = nonces m ∨ ∃ u now, nonces m' = (check_and_add (nonces m) u now).2).
  { destruct e as [env h body|a outcome now|env h body|]; cbn [happen] in Hs.
    - destruct (admit_request _ _ _ _ _) as [[r m1]|] eqn:Ha; injection Hs as _ <-; [|by left].
      apply admit_tasks in Ha as (_ & _ & [->| ->]); [by left|right; eauto].
    - injection Hs as _ <-. left. by destruct outcome.
    - destruct (handle_failure_notice _ _ _ _ _) as [[[reply lines] m1]|] eqn:Hn; injection Hs as _ <-; [|by left].
      apply notice_nonces in Hn as [->| ->]; [by left|right; eauto].
    - injection Hs as _ <-. by left. }
  assert (Htasks : tasks_ok (served_tasks m') ∧ served_limit (served_tasks m') = served_limit (served_tasks m)).
  { assert (Ha : accounted (map (λ e, Served e.1 e.2.1.2 e.2.2) (served (served_tasks m))) m).
    { split; [done|]. intros key at_ uid hotkey (i & Hi)%list_elem_of_lookup_1. exists i.
      change (map ?f ?l) with (f <$> l). rewrite list_lookup_fmap, Hi. split; [done|].
      intros _ j u hk _. rewrite list_lookup_fmap. by destruct (_ !! j). }
    destruct (happen_accounted _ _ _ _ _ Ha Hs) as ([Hok _] & Hl & _). done. }
  assert (Hprint : 0 <= printing_notices m' <= NOTICE_PRINT_SLOTS).
  { destruct e as [env h body|a outcome now|env h body|]; cbn [happen] in Hs.
    - destruct (admit_request _ _ _ _ _) as [[r m1]|] eqn:Ha; injection Hs as _ <-; [|done].
      by apply admit_tasks in Ha as (_ & -> & _).
    - injection Hs as _ <-. by destruct outcome.
    - destruct (handle_failure_notice _ _ _ _ _) as [[[reply lines] m1]|] eqn:Hn; injection Hs as _ <-; [|done].
      destruct (notice_cases _ _ _ _ _ _ _ Hn) as [(_ & -> & _)|(n & _ & _ & _ & _ & _ & Hlt & -> & _)]; lia.
    - injection Hs as _ <-. cbn. unfold NOTICE_PRINT_SLOTS in *. lia. }
  cbn [snd]. destruct Htasks as [Hok Hl]. split; [|split; [exact Hl|]].
  - constructor; [done|done|]. destruct Hnon as [->|(u & now & ->)]; [done|apply Hcache].
  - destruct Hnon as [->|(u & now & ->)]; [done|apply Hcache].
Qed.

Lemma happen_all_ok (events : list happening) m :
  miner_ok m →
  let m' := (happen_all m events).2 in
  miner_ok m' ∧ served_limit (served_tasks m') = served_limit (served_tasks m) ∧
  max_nonces (nonces m') = max_nonces (nonces m).
Proof.
  revert m. induction events as [|e events IH]; intros m Hm; [done|]. cbn [happen_all].
  destruct (happen_ok m e Hm) as (Hm1 & Hl & Hn). destruct (happen m e) as [x m1]. cbn [snd] in *.
  specialize (IH m1 Hm1). destruct (happen_all m1 events) as [log m2]. cbn [snd] in *.
  destruct IH as (? & ? & ?). split; [done|]. split; congruence.
Qed.

Lemma accounted_init : accounted [] miner_init.
Proof. split; [|by intros ???? ?%not_elem_of_nil]. split_and!; [constructor|done|done]. Qed.
End time.

(** ** An honest miner and the validator *)

(** A reply that arrives unchanged: [Content-Length] may be there, the body in pieces. *)
Definition delivered (body : bytes) (length_header : option pystr) (chunks : list bytes) : Prop :=
  concat chunks = body ∧ (length_header = None ∨ length_header = Some (str_of_int (zlen body))).

Definition same_envelope (h h' : headers) : Prop := ∀ name, name ∈ EPISTULA_HEADERS → h name = h' name.

Lemma read_reply_all (limit : Z) (acc : bytes) (chunks : list bytes) :
  zlen (acc ++ concat chunks) <= limit →
  read_reply limit acc chunks None = Ok (Some (acc ++ concat chunks)).
Proof.
  revert acc. induction chunks as [|c chunks IH]; intros acc; cbn [read_reply concat]; [by rewrite app_nil_r|].
  rewrite (assoc_L (++)). intros Hz. rewrite (proj2 (Z.ltb_ge _ _)); [by apply IH|].
  unfold zlen in *. rewrite length_app in Hz. lia.
Qed.

Lemma read_headers_same `{UG : !UnicodeDigits} (h h' : headers) :
  same_envelope h h' → read_headers h = read_headers h'.
Proof.
  intros Hh. unfold read_headers.
  rewrite !Hh by (apply list_elem_of_In; cbn; tauto). done.
Qed.

Lemma verify_same `{SH : !Sha256, KP : !Keypair, UG : !UnicodeDigits} (h h' : headers) (body : bytes) (delta now : Z)
    (expected : option pystr) :
  same_envelope h h' → verify_signature h body delta now expected = verify_signature h' body delta now expected.
Proof. intros Hh. unfold verify_signature. by rewrite (read_headers_same h h'). Qed.

Section honest.
Context `{UD : !UnicodeData, SH : !Sha256, KP : !Keypair, UG : !UnicodeDigits, MJ : !MinerJson, MR : !MinerRequests}.
Context (client : LiveSolverClient) (env : DispatchEnv) (task : MinerTaskRequest).
Context (settings : MinerSettings) (dump_response : MinerTaskResponse → pystr)
  (solve : MinerTaskRequest → float → SolveOutcome) (wallet : Hotkey).

(** The validator dispatches in time a task it may dispatch to this miner: [body] and
    [hs] are what it sends. *)
Record dispatches (body : bytes) (hs : list (pystr * pystr)) : Prop := {
  d_valid : MinerTaskRequest_validate task = Ok task;
  d_uid : s_uid (submission (t_slots task)) = lc_uid client;
  d_hotkey : s_hotkey (submission (t_slots task)) = lc_hotkey client;
  d_body : utf8_encode (dump_task task) = Ok body;
  d_read : read_task body = Ok task;
  d_signed : sign_message (lc_wallet client) body (Some (lc_hotkey client)) (de_sign_time env) (de_sign_uuid env) = Ok hs;
  d_authentic : authentic (lc_wallet client);
  d_address : keypair_address (lc_wallet client) ≠ [];
  d_uuid : de_sign_uuid env ≠ [];
  d_time : 0 <= de_sign_time env < 2 ^ 4300;
  d_lease : fleb (lease_budget env task) f0 = false
}.

(** The miner takes it: its keys and clocks are right, the caller is authorized, the
    nonce is new, the policies match and there is time. *)
Record accepts (m : miner) (ce : call_env) (body : bytes) : Prop := {
  a_hotkey : ce_hotkey ce = lc_hotkey client;
  a_size : zlen body <= max_request_bytes settings < 2 ^ 4300;
  a_clock : de_sign_time env - 8000 <= ce_verify_ms ce <= de_sign_time env + 8000;
  a_nonce : (check_and_add (nonces m) (de_sign_uuid env) (ce_nonce_ms ce)).1 = true;
  a_authorized : is_Some (ce_metagraph ce) →
    authorize settings (ce_metagraph ce) (keypair_address (lc_wallet client)) = true;
  a_profile : execution_profile_id (t_identity task) = v3_execution_profile_id RELEASE_POLICY;
  a_policy : verifier_policy (t_identity task) = ustr "command-gold-digest-v1";
  a_time : fleb (solve_timeout settings ce task) f0 = false
}.

(** Its answer fits the task, is small, and is signed by its key in time; [rbody] and
    [rhs] are what it sends. *)
Record answers (payload : MinerTaskResponse) (clock : Z) (uuid : pystr) (rbody : bytes)
    (rhs : list (pystr * pystr)) : Prop := {
  r_valid : validate_miner_response task payload = Ok ();
  r_body : utf8_encode (dump_response payload) = Ok rbody;
  r_read : read_response rbody = Ok payload;
  r_size : 0 < zlen rbody <= 16384;
  r_wallet : wallet ≠ NoHotkey;
  r_address : keypair_address wallet = lc_hotkey client;
  r_authentic : authentic wallet;
  r_signed : sign_message wallet rbody (Some (keypair_address (lc_wallet client))) clock uuid = Ok rhs;
  r_uuid : uuid ≠ [];
  r_time : 0 <= clock < 2 ^ 4300;
  r_clock : clock - 8000 <= de_verify_time env <= clock + 8000;
  r_headers : forallb (λ h, is_ok (utf8_size h.2 512)) rhs = true
}.

Lemma honest_admit (m : miner) (ce : call_env) (h : headers) (body : bytes) (hs : list (pystr * pystr)) :
  dispatches body hs → accepts m ce body → same_envelope h (dict_lookup hs) →
  admit_request settings m ce h body =
  Ok (inr {| ad_request := task; ad_signed_by := keypair_address (lc_wallet client);
             ad_timeout := solve_timeout settings ce task |},
      with_nonces m (check_and_add (nonces m) (de_sign_uuid env) (ce_nonce_ms ce)).2).
Proof.
  intros D A Hh. destruct (signed_headers _ _ _ _ _ _ (d_signed _ _ D) (d_time _ _ D)) as (sig & _ & Hread & _).
  rewrite <-(read_headers_same _ _ Hh) in Hread.
  destruct (read_headers_fields h _ Hread) as (Hby & _ & Hu). cbn [h_signed_by h_uuid] in Hby, Hu.
  assert (Hv : verify_signature h body ALLOWED_DELTA_MS (ce_verify_ms ce)
                 (if bool_decide (ce_hotkey ce = []) then None else Some (ce_hotkey ce)) = Ok true).
  { rewrite (verify_same _ _ _ _ _ _ Hh). eapply signed_verifies; [exact (d_signed _ _ D)|exact (d_authentic _ _ D)|exact (d_address _ _ D)|exact (d_uuid _ _ D)|exact (d_time _ _ D)| |].
    - rewrite (a_hotkey _ _ _ A). case_bool_decide; [by left|by right].
    - pose proof (a_clock _ _ _ A). unfold ALLOWED_DELTA_MS. lia. }
  unfold admit_request. rewrite Hv. cbn [mbind result_bind negb].
  change (header h "Epistula-Uuid") with (uuid_of h). rewrite Hu.
  destruct (check_and_add _ _ _) as [fresh cache] eqn:Hca.
  pose proof (a_nonce _ _ _ A) as Hf. rewrite Hca in Hf. cbn [fst] in Hf. subst fresh. cbn [negb snd].
  unfold header. rewrite Hby. cbn [from_option id].
  replace (_ && _) with false.
  2:{ symmetry. rewrite andb_false_iff, negb_false_iff, bool_decide_eq_false.
      destruct (decide (is_Some (ce_metagraph ce))) as [Hm|Hm]; [right; exact (a_authorized _ _ _ A Hm)|by left]. }
  rewrite (d_read _ _ D). rewrite (d_hotkey _ _ D), (a_hotkey _ _ _ A), bool_decide_eq_true_2 by done. cbn [negb].
  rewrite (a_profile _ _ _ A), (a_policy _ _ _ A), !bool_decide_eq_true_2 by done. cbn [negb orb].
  by rewrite (a_time _ _ _ A).
Qed.

(** What the miner sends back. *)
Lemma honest_reply (m : miner) (ce : call_env) (h : headers) (body : bytes) (hs : list (pystr * pystr))
    (chunks : list bytes) (payload : MinerTaskResponse) (clock : Z) (uuid : pystr) (rbody : bytes)
    (rhs : list (pystr * pystr)) :
  dispatches body hs → accepts m ce body → same_envelope h (dict_lookup hs) →
  delivered body (h (ustr "content-length")) chunks →
  answers payload clock uuid rbody rhs → solve task (solve_timeout settings ce task) = Solved payload →
  ∃ m', solve_endpoint settings dump_response solve wallet clock uuid m ce h chunks =
    Ok ({| hr_status := 200; hr_body := rbody; hr_headers := rhs |}, m') ∧
    served_tasks m' = add_served (served_tasks m)
      (keypair_address (lc_wallet client), t_challenge_id task, t_task_id task)
      (lc_uid client) (lc_hotkey client) (ce_monotonic ce).
Proof.
  intros D A Hh [Hc Hl] R Hs. pose proof (a_size _ _ _ A) as Hz.
  assert (Hbody : read_request_body (h (ustr "content-length")) chunks (max_request_bytes settings) = Some body).
  { unfold read_request_body. pose proof (read_reply_all (max_request_bytes settings) [] chunks) as Hall.
    rewrite Hc in Hall. cbn [app] in Hall. rewrite Hall by lia.
    set (n := int_text _). assert (∃ k, n = Ok k ∧ 0 <= k <= max_request_bytes settings) as (k & -> & Hk).
    { unfold n. destruct Hl as [-> | ->]; [exists 0; split; [by vm_compute|unfold zlen in Hz; lia]|].
      destruct (str_of_int (zlen body)) as [|c s] eqn:Hstr; [exists 0; split; [by vm_compute|unfold zlen in Hz; lia]|].
      rewrite <-Hstr, int_text_str by (unfold zlen in *; lia). eexists. split; [done|]. unfold zlen in *. lia. }
    rewrite !(proj2 (Z.ltb_ge _ _)) by lia. done. }
  exists (with_tasks (with_nonces m (check_and_add (nonces m) (de_sign_uuid env) (ce_nonce_ms ce)).2)
    (add_served (served_tasks m) (keypair_address (lc_wallet client), t_challenge_id task, t_task_id task)
       (lc_uid client) (lc_hotkey client) (ce_monotonic ce))).
  split; [|done]. unfold solve_endpoint. rewrite Hbody. unfold handle_request. rewrite (honest_admit _ _ _ _ _ D A Hh).
  cbn [mbind result_bind mret result_ret ad_request ad_timeout]. rewrite Hs. unfold unsigned_reply.
  cbn [finish_request fst snd reply_text]. rewrite (r_body _ _ _ _ _ R). cbn [mbind result_bind mret result_ret hr_body hr_status].
  change (200 =? 200) with true.
  destruct (signed_headers _ _ _ _ _ _ (d_signed _ _ D) (d_time _ _ D)) as (sig & _ & Hread & _).
  rewrite <-(read_headers_same _ _ Hh) in Hread.
  destruct (read_headers_fields h _ Hread) as (Hby & _ & _). cbn [h_signed_by] in Hby.
  unfold header. rewrite Hby. cbn [from_option id]. rewrite (r_signed _ _ _ _ _ R).
  pose proof (r_wallet _ _ _ _ _ R). destruct wallet; [done|..];
    cbn [mbind result_bind mret result_ret ad_signed_by ad_request]; by rewrite (d_uid _ _ D), (d_hotkey _ _ D).
Qed.
Lemma kept_same (r : MinerReply) (by_ for_ uuid sig ts ver : pystr) :
  let hs := dict_of EPISTULA_HEADERS [ver; ts; uuid; by_; for_; sig] in
  same_envelope (reply_header r) (dict_lookup hs) → kept_headers r = hs.
Proof.
  intros hs Hh. unfold kept_headers. cbn [map EPISTULA_HEADERS].
  rewrite !Hh by (apply list_elem_of_In; cbn; tauto). reflexivity.
Qed.

(** The validator takes the answer. *)
Lemma honest_accept (request_id : pystr) (payload : MinerTaskResponse) (clock : Z)
    (uuid : pystr) (rbody : bytes) (rhs : list (pystr * pystr)) (r : MinerReply) :
  client_ok client request_id →
  answers payload clock uuid rbody rhs →
  de_exchange env = Ok r → reply_status r = 200 → reply_error r = None →
  same_envelope (reply_header r) (dict_lookup rhs) →
  delivered rbody (reply_header r (ustr "content-length")) (reply_chunks r) →
  ∃ s, exchange client env task request_id (keypair_address (lc_wallet client)) = Ok (s, Some payload) ∧
    utf8_encode (ms_response_body s) = Ok rbody ∧ ms_response_headers s = rhs.
Proof.
  intros Hc R Hx Hst He Hh [Hch Hl]. pose proof (r_size _ _ _ _ _ R) as Hz.
  destruct (signed_headers _ _ _ _ _ _ (r_signed _ _ _ _ _ R) (r_time _ _ _ _ _ R)) as (sig & Hrhs & _).
  assert (Hkept : kept_headers r = rhs) by (rewrite Hrhs in Hh |- *; by apply kept_same).
  assert (Hbody : read_bounded_response r 16384 = Ok (Some rbody)).
  { unfold read_bounded_response. pose proof (read_reply_all 16384 [] (reply_chunks r)) as Hall.
    rewrite Hch in Hall. cbn [app] in Hall. rewrite He, Hall by lia. destruct Hl as [-> | ->]; [done|].
    destruct (str_of_int (zlen rbody)) as [|c s] eqn:Hstr; [done|].
    rewrite <-Hstr, int_text_str, !(proj2 (Z.ltb_ge _ _)); [done|lia..|]. split; [lia|].
    eapply Z.le_lt_trans; [apply Hz|by vm_compute]. }
  assert (Hby : dict_lookup rhs (ustr "Epistula-Signed-By") = Some (lc_hotkey client)).
  { rewrite Hrhs, <-(r_address _ _ _ _ _ R). reflexivity. }
  unfold exchange. rewrite Hx. cbn [mbind result_bind]. rewrite Hst. change ((200 <? 200) || (300 <=? 200)) with false.
  cbv iota. rewrite Hbody. cbn [mbind result_bind]. rewrite Hkept. unfold accept_answer.
  rewrite Hby, bool_decide_eq_true_2 by done.
  rewrite (signed_verifies _ _ _ _ _ _ _ _ _ (r_signed _ _ _ _ _ R) (r_authentic _ _ _ _ _ R));
    [|rewrite (r_address _ _ _ _ _ R); by intros Hn; destruct Hc as (_ & Hc & _); rewrite Hn in Hc
     |exact (r_uuid _ _ _ _ _ R)|exact (r_time _ _ _ _ _ R)|by right
     |pose proof (r_clock _ _ _ _ _ R); unfold ALLOWED_DELTA_MS; lia].
  cbn [mbind result_bind negb]. rewrite (utf8_decode_encode _ _ (r_body _ _ _ _ _ R)). cbn [mbind result_bind].
  rewrite (r_read _ _ _ _ _ R). cbn [mbind result_bind]. rewrite (r_valid _ _ _ _ _ R). cbn [mbind result_bind mret result_ret].
  set (s := {| ms_uid := _ |}). assert (Hs : MinerSubmission_validate s = Ok s).
  { destruct Hc as (Hu & Hk & Hi). apply model_validate_Ok. split_and!; [| |done].
    - unfold MinerSubmission_fields. cbn [ms_uid ms_hotkey ms_request_id ms_response_body ms_error
        ms_response_headers ms_latency_ms s]. rewrite Hu, Hk, Hi, elapsed_ok, (r_headers _ _ _ _ _ R).
      unfold utf8_size at 1. rewrite (r_body _ _ _ _ _ R). cbn [mbind result_bind].
      rewrite (proj2 (Z.ltb_ge _ _)) by lia. done.
    - unfold validate_response_shape. cbn [ms_response_body ms_error ms_response_headers s].
      case_bool_decide as Hb; cbn [negb].
      { pose proof (r_body _ _ _ _ _ R) as Hn. rewrite Hb in Hn. injection Hn as <-. unfold zlen in Hz. simpl in Hz. lia. }
      rewrite Hrhs. rewrite !bool_decide_eq_true_2; [done| |done]. reflexivity. }
  rewrite Hs. exists s. split; [done|]. split; [|done]. exact (r_body _ _ _ _ _ R).
Qed.
End honest.

(** ** Properties *)

(** C21 (safety): however requests, notices and finished solves interleave, a notice is
    printed only for a task that this miner answered for the validator that signed the
    notice and for the registration it names, and at most once for every time the task
    was answered. *)
Theorem printed_once `{SH : !Sha256, KP : !Keypair, UG : !UnicodeDigits, MR : !MinerRequests}
    (settings : MinerSettings) (events : list happening) (log : list ledger_entry) (m : miner)
    (j : nat) (key : task_key) (uid : Z) (hotkey : pystr) :
  happen_all settings miner_init events = (log, m) → log !! j = Some (Printed key uid hotkey) →
  ∃ i, (i < j)%nat ∧ log !! i = Some (Served key uid hotkey) ∧
    ∀ k u hk, (i < k < j)%nat → log !! k ≠ Some (Printed key u hk).
Proof.
  intros Hall Hj. apply (happen_all_printed settings events [] log miner_init m j); [apply accounted_init|done|simpl; lia|done].
Qed.

(** (safety): a notice whose lines are printed was signed for this miner by a caller
    the metagraph authorizes, had a fresh nonce and at most 320 KiB, and named this
    miner's key and a task it answered for that caller; at most four notices are being
    written at a time, and one that finds them all taken is refused before it counts
    as answered. *)
Theorem notice_authentic `{SH : !Sha256, KP : !Keypair, UG : !UnicodeDigits, MR : !MinerRequests}
    (settings : MinerSettings) (m m' : miner) (env : call_env) (h : headers) (body : bytes)
    (reply : Z * Reply) (lines : option (list pystr)) :
  tasks_ok (served_tasks m) →
  handle_failure_notice settings m env h body = Ok (reply, lines, m') →
  match lines with
  | Some _ =>
      reply = (200, Accepted) ∧ zlen body <= FAILURE_NOTICE_MAX_BYTES ∧
      verify_signature h body ALLOWED_DELTA_MS (ce_verify_ms env) (Some (ce_hotkey env)) = Ok true ∧
      (check_and_add (nonces m) (header h "Epistula-Uuid") (ce_nonce_ms env)).1 = true ∧
      authorize settings (ce_metagraph env) (header h "Epistula-Signed-By") = true ∧
      printing_notices m < NOTICE_PRINT_SLOTS ∧
      ∃ n at_, read_notice body = Ok n ∧ n_hotkey n = ce_hotkey env ∧
        (notice_key h n, (at_, n_uid n, n_hotkey n)) ∈ served (served_tasks m)
  | None => reply.1 = 503 → served_tasks m' = served_tasks m
  end.
Proof.
  intros Hok Hn. destruct (notice_cases _ _ _ _ _ _ _ _ Hn) as [(-> & _ & Ht)|(n & Hr & -> & -> & Hh & Hz & Hp & _ & Hv & Hf & Ha & Hcl)].
  - destruct Ht as [Ht|(n & seen & _ & _ & Hne & _)]; [done|by intros].
  - pose proof (classify_spec (served_tasks m) (notice_key h n) (n_uid n) (n_hotkey n) (ce_monotonic env) Hok) as Hspec.
    rewrite Hcl in Hspec. destruct Hspec as (_ & _ & _ & Hnew). destruct (Hnew eq_refl) as (_ & at_ & Hin).
    split_and!; try done. by exists n, at_.
Qed.

(** (invariant): a miner stays bounded whatever happens to it and in whatever order: it
    remembers at most 256 tasks, under different keys, at most 100000 nonces, none of
    them twice, and writes at most four notices at a time. *)
Theorem miner_bounded `{SH : !Sha256, KP : !Keypair, UG : !UnicodeDigits, MR : !MinerRequests}
    (settings : MinerSettings) (events : list happening) :
  let m := (happen_all settings miner_init events).2 in
  zlen (served (served_tasks m)) <= 256 ∧ NoDup (map fst (served (served_tasks m))) ∧
  0 <= printing_notices m <= 4 ∧ zlen (seen (nonces m)) <= 100000 ∧ NoDup (map fst (seen (nonces m))).
Proof.
  intros m. destruct (happen_all_ok settings events miner_init) as ([(Hn & Hz & _) Hp [Hs Hd]] & Hl & Hc).
  { constructor; [by split_and!; [constructor|..]|done|]. constructor; [done|constructor]. }
  fold m in Hn, Hz, Hp, Hs, Hd, Hl, Hc. rewrite Hl in Hz. rewrite Hc in Hs.
  split_and!; [exact Hz|exact Hn|apply Hp|apply Hp|exact Hs|exact Hd].
Qed.

(** C12 (liveness): a dispatch to an honest miner is answered.  The validator sends in time
    a valid task to the miner it names; the request and the reply arrive, in whatever
    pieces; both sign with keys that verify, within the clock skew; the miner lets the
    validator in, has time, and its solver returns an answer that fits the task.  Then
    the miner replies 200, and remembers the task, and [solve_v3] returns the miner's own
    answer, with the body and headers it sent, and gives the send slot back. *)
Theorem honest_miner_answers `{UD : !UnicodeData, SH : !Sha256, KP : !Keypair, UG : !UnicodeDigits,
    MJ : !MinerJson, MR : !MinerRequests, UL : !UnicodeLaws, SL : !Sha256Laws}
    (client : LiveSolverClient) (env : DispatchEnv) (task : MinerTaskRequest) (settings : MinerSettings)
    (dump_response : MinerTaskResponse → pystr) (solve : MinerTaskRequest → float → SolveOutcome) (wallet : Hotkey)
    (m : miner) (ce : call_env) (h : headers) (body : bytes) (hs : list (pystr * pystr)) (chunks : list bytes)
    (payload : MinerTaskResponse) (clock : Z) (uuid : pystr) (rbody : bytes) (rhs : list (pystr * pystr))
    (request_id : pystr) (r : MinerReply) :
  dispatches client env task body hs → accepts client env task settings m ce body →
  answers client env task dump_response wallet payload clock uuid rbody rhs →
  derive_miner_request_id (t_challenge_id task) (lc_uid client) (lc_hotkey client) = Ok request_id →
  solve task (solve_timeout settings ce task) = Solved payload →
  same_envelope h (dict_lookup hs) → delivered body (h (ustr "content-length")) chunks →
  de_race env = Answered → de_exchange env = Ok r → reply_status r = 200 → reply_error r = None →
  same_envelope (reply_header r) (dict_lookup rhs) →
  delivered rbody (reply_header r (ustr "content-length")) (reply_chunks r) →
  ∃ m' s n,
    solve_endpoint settings dump_response solve wallet clock uuid m ce h chunks =
      Ok ({| hr_status := 200; hr_body := rbody; hr_headers := rhs |}, m') ∧
    served_tasks m' = add_served (served_tasks m)
      (keypair_address (lc_wallet client), t_challenge_id task, t_task_id task)
      (lc_uid client) (lc_hotkey client) (ce_monotonic ce) ∧
    solve_v3 client env task = (Ok (s, Some payload), Some n) ∧ (1 ≤ n)%nat ∧
    utf8_encode (ms_response_body s) = Ok rbody ∧ ms_response_headers s = rhs.
Proof.
  intros D A R Hid Hsolve Hh Hd Hrace Hx Hst He Hrh Hrd.
  destruct (honest_reply client env task settings dump_response solve wallet m ce h body hs chunks payload clock
    uuid rbody rhs D A Hh Hd R Hsolve) as (m' & Hm & Ht).
  assert (Hc : client_ok client request_id).
  { eapply valid_task_client; [exact (d_valid _ _ _ _ _ D)|exact (d_uid _ _ _ _ _ D)|exact (d_hotkey _ _ _ _ _ D)|exact Hid]. }
  destruct (honest_accept client env task dump_response solve wallet request_id payload clock uuid rbody rhs r Hc R
    Hx Hst He Hrh Hrd) as (s & Hs & Hb & Hk).
  exists m', s, (if de_streamed env then 2%nat else 1%nat). split; [exact Hm|]. split; [exact Ht|].
  split; [|split; [destruct (de_streamed env); lia|by split]].
  unfold solve_v3. rewrite (d_uid _ _ _ _ _ D), (d_hotkey _ _ _ _ _ D), Z.eqb_refl, bool_decide_eq_true_2 by done.
  cbn [negb orb raise_if mbind result_bind]. rewrite Hid. cbn [mbind result_bind]. rewrite (d_body _ _ _ _ _ D).
  cbn [mbind result_bind mret result_ret]. unfold dispatch.
  rewrite (d_signed _ _ _ _ _ D), (d_lease _ _ _ _ _ D), Hrace, Hs. done.
Qed.

(** ** Witnesses *)

Definition demo_identity : TaskIdentity :=
  TerminalTask {| t_instruction := ustr "do it"; t_environment_sha256 := zeros;
                  t_verifier_sha256 := zeros; t_execution_profile_id := ustr "repo-polyglot-v1";
                  t_result_tree_path := ustr "out"; t_verifier_policy := command_gold_digest_v1;
                  t_authoring_version := ustr "1" |}.

Definition demo_task : MinerTaskRequest :=
  {| t_protocol_version := 3; t_challenge_id := ustr "c1"; t_task_id := zeros; t_identity := demo_identity;
     t_workspace := l_workspace round_lease; t_workspace_url := ustr "https://w"; t_expires_at := 2000;
     t_slots := round_slots 1 "a" "x1" "x2" |}.

Definition demo_notice : MinerFailureNotice :=
  {| n_protocol_version := 3; n_challenge_id := ustr "c1"; n_task_id := zeros; n_uid := 1; n_hotkey := ustr "a";
     n_failure := {| fe_version := 1; fe_reason_code := code_evaluation_failed; fe_failed_check := None |} |}.

Definition demo_requests : MinerRequests :=
  {| read_task := λ _, Ok demo_task; read_notice := λ _, Ok demo_notice |}.

Definition demo_settings : MinerSettings :=
  {| min_stake := float_of_int 1; require_validator_permit := true; request_timeout_s := float_of_int 600;
     max_request_bytes := 1000000; metagraph_sync_s := float_of_int 300 |}.

Definition demo_env (t : Z) : call_env :=
  {| ce_hotkey := ustr "a";
     ce_metagraph := Some {| mm_hotkeys := [ustr "a"; ustr "val"]; mm_stakes := Some [f0; float_of_int 5];
                             mm_permits := Some [false; true] |};
     ce_verify_ms := t; ce_nonce_ms := t; ce_time := float_of_int 500; ce_monotonic := float_of_int 100 |}.

(** What the validator signs, for the miner. *)
Definition val_signed (uuid : string) (t : Z) : list (pystr * pystr) :=
  match sign_message (H := sha_const) (H0 := no_keypair) (HotkeyName (ustr "val")) (bstr "{}")
          (Some (ustr "a")) t (ustr uuid) with
  | Ok hs => hs
  | Raise _ => []
  end.

Definition demo_admission : Admission :=
  {| ad_request := demo_task; ad_signed_by := ustr "val"; ad_timeout := float_of_int 600 |}.

(** The task is asked and answered; then three notices arrive, the last before the first
    one's lines are written: a copy of the first one is a replay, the third repeats it. *)
Definition demo_events : list happening :=
  [Asked (demo_env 20000) (dict_lookup (val_signed "u1" 20000)) (bstr "{}");
   Finished demo_admission (Solved round_response) (float_of_int 100);
   Noticed (demo_env 30000) (dict_lookup (val_signed "u2" 30000)) (bstr "{}");
   Noticed (demo_env 30001) (dict_lookup (val_signed "u2" 30000)) (bstr "{}");
   Noticed (demo_env 30002) (dict_lookup (val_signed "u3" 30000)) (bstr "{}");
   Written].

Definition demo_run : list ledger_entry * miner :=
  happen_all (SH := sha_const) (KP := no_keypair) (UG := no_digits) (MR := demo_requests) demo_settings
    miner_init demo_events.

Definition demo_key : task_key := (ustr "val", ustr "c1", zeros).

Lemma printed_once_witness : ∃ i, (i < 2)%nat ∧ demo_run.1 !! i = Some (Served demo_key 1 (ustr "a")).
Proof.
  destruct (printed_once (SH := sha_const) (KP := no_keypair) (UG := no_digits) (MR := demo_requests) demo_settings
    demo_events demo_run.1 demo_run.2 2 demo_key 1 (ustr "a")) as (i & Hi & Hs & _).
  - unfold demo_run. destruct (happen_all _ _ _). reflexivity.
  - vm_compute. reflexivity.
  - exists i. split; [exact Hi|exact Hs].
Defined.

(** The miner after it answered. *)
Definition demo_answered : miner :=
  with_tasks miner_init (add_served (served_tasks miner_init) demo_key 1 (ustr "a") (float_of_int 100)).

Definition demo_noticed : result (Z * Reply * option (list pystr) * miner) :=
  handle_failure_notice (H := sha_const) (H0 := no_keypair) (H1 := no_digits) (H2 := demo_requests)
    demo_settings demo_answered (demo_env 30000) (dict_lookup (val_signed "u2" 30000)) (bstr "{}").

Definition has_lines (r : result (Z * Reply * option (list pystr) * miner)) : bool :=
  match r with Ok (_, Some _, _) => true | _ => false end.

Lemma notice_authentic_witness :
  ∃ lines m', demo_noticed = Ok (200, Accepted, Some lines, m') ∧
    printing_notices demo_answered < NOTICE_PRINT_SLOTS.
Proof.
  assert (Hl : has_lines demo_noticed = true) by (vm_compute; reflexivity).
  destruct demo_noticed as [[[reply [lines|]] m']|e] eqn:Hn; [|discriminate Hl..].
  destruct (notice_authentic (SH := sha_const) (KP := no_keypair) (UG := no_digits) (MR := demo_requests)
    demo_settings demo_answered m' (demo_env 30000) (dict_lookup (val_signed "u2" 30000)) (bstr "{}") reply
    (Some lines)) as (-> & _ & _ & _ & _ & Hp & _).
  - split_and!; [constructor; [intros Hin; by apply not_elem_of_nil in Hin|constructor]|discriminate..].
  - exact Hn.
  - exists lines, m'. split; [reflexivity|exact Hp].
Defined.

Definition demo_json : MinerJson :=
  {| dump_task := λ _, ustr "{}"; read_response := λ _, Ok round_response |}.

Definition demo_reply_headers : list (pystr * pystr) :=
  match sign_message (H := sha_const) (H0 := no_keypair) (HotkeyName (ustr "a")) (bstr "{}")
          (Some (ustr "val")) 510000 (ustr "u2") with
  | Ok hs => hs
  | Raise _ => []
  end.

Definition demo_reply : MinerReply :=
  {| reply_status := 200; reply_header := dict_lookup demo_reply_headers; reply_chunks := [bstr "{"; bstr "}"];
     reply_error := None |}.

Definition demo_dispatch : DispatchEnv :=
  {| de_sign_time := 500000; de_sign_uuid := ustr "u1"; de_clock := float_of_int 500;
     de_exchange := Ok demo_reply; de_verify_time := 510500; de_race := Answered; de_streamed := true;
     de_elapsed := 10000 |}.

Lemma honest_miner_answers_witness :
  ∃ s n, solve_v3 (H := ascii_unicode) (H0 := sha_const) (H1 := no_keypair) (H2 := no_digits) (H3 := demo_json)
    sample_client demo_dispatch demo_task = (Ok (s, Some round_response), Some n).
Proof.
  destruct (honest_miner_answers (UD := ascii_unicode) (SH := sha_const) (KP := no_keypair) (UG := no_digits)
    (MJ := demo_json) (MR := demo_requests) (UL := ascii_laws) (SL := const_laws) sample_client demo_dispatch
    demo_task demo_settings (λ _, ustr "{}") (λ _ _, Solved round_response) (HotkeyName (ustr "a")) miner_init
    (demo_env 501000) (dict_lookup (val_signed "u1" 500000)) (bstr "{}") (val_signed "u1" 500000)
    [bstr "{}"] round_response 510000 (ustr "u2") (bstr "{}") demo_reply_headers
    (hexdigest (replicate 32%nat (ascii_of_N 0))) demo_reply) as (m' & s & n & _ & _ & Hs & _).
  - constructor; vm_compute; try reflexivity; try discriminate. split; [discriminate|reflexivity].
  - constructor; try (vm_compute; reflexivity); try (intros _; vm_compute; reflexivity).
    + vm_compute. split; [discriminate|reflexivity].
    + vm_compute. split; discriminate.
  - constructor; vm_compute; try reflexivity; try discriminate; split; try reflexivity; discriminate.
  - reflexivity.
  - reflexivity.
  - intros name _. reflexivity.
  - split; [reflexivity|left; reflexivity].
  - reflexivity.
  - reflexivity.
  - reflexivity.
  - reflexivity.
  - intros name _. reflexivity.
  - split; [reflexivity|left; reflexivity].
  - exists s, n. exact Hs.
Defined.
