(* ===== verification/SolveSlots.v ===== *)
(** * The solve slots of the reference miner ([DemoMiner.handle_request] of
    [src/rlvr/neurons/demo_miner.py])

    A task that was admitted waits for one of the miner's slots, an [asyncio.Semaphore],
    and solves while it holds it; [asyncio.wait_for] cancels it at its timeout, waiting or
    solving.  The semaphore is that of Python 3.11 and 3.12: [release] hands the slot to
    the oldest waiter, who runs later.  (That of 3.10, which the project also supports, only
    wakes the waiter, and is not modelled.)  [slot_step] is one step of the event loop.

    [slots_sound]: over any interleaving. *)

From S2P Require Import Prelude PyFloat Text Json JsonSpec Canonical CanonicalSpec Wire Identity Codecs Api ApiSpec Protocol ProtocolSpec Feedback EvaluateRound Live Release MinerText Miner.

Local Open Scope Z_scope.

(** A waiter of the semaphore; [granted]: its future has a result. *)
Record waiter := { w_id : nat; w_deadline : float; granted : bool }.

Record solve_slots := {
  ss_value : Z;
  ss_waiters : list waiter;
  ss_solving : list nat;
  ss_done : list (nat * SolveOutcome)
}.

Definition slots_init (max_concurrent_requests : Z) : solve_slots :=
  {| ss_value := max_concurrent_requests; ss_waiters := []; ss_solving := []; ss_done := [] |}.

Definition grant (w : waiter) : waiter := {| w_id := w_id w; w_deadline := w_deadline w; granted := true |}.

(** [_wake_up_next]; [None]: there was no one to wake up. *)
Fixpoint wake_up_next (ws : list waiter) : option (list waiter) :=
  match ws with
  | [] => None
  | w :: ws => if granted w then cons w <$> wake_up_next ws else Some (grant w :: ws)
  end.

(** [while self._value > 0: if not self._wake_up_next(): break] *)
Fixpoint wake_up (value : Z) (ws : list waiter) : Z * list waiter :=
  match ws with
  | [] => (value, [])
  | w :: ws =>
      if granted w || (value <=? 0) then let '(value, ws) := wake_up value ws in (value, w :: ws)
      else let '(value, ws) := wake_up (value - 1) ws in (value, grant w :: ws)
  end.

Definition release (value : Z) (ws : list waiter) : Z * list waiter :=
  match wake_up_next ws with Some ws => (value, ws) | None => (value + 1, ws) end.

Definition locked (s : solve_slots) : bool := (ss_value s =? 0) || negb (bool_decide (ss_waiters s = [])).

Definition without (i : nat) (ws : list waiter) : list waiter := filter (λ w, w_id w ≠ i) ws.

(** The slot is given back and the request has its outcome. *)
Definition leave (s : solve_slots) (i : nat) (o : SolveOutcome) : solve_slots :=
  let '(value, ws) := release (ss_value s) (ss_waiters s) in
  {| ss_value := value; ss_waiters := ws; ss_solving := filter (λ j, j ≠ i) (ss_solving s);
     ss_done := ss_done s ++ [(i, o)] |}.

(** The body of [async with self.solve_slots], the slot being held. *)
Definition start_solving (s : solve_slots) (i : nat) (deadline now : float) : solve_slots :=
  if fleb (fsub deadline now) f0 then leave s i SolveTimedOut
  else {| ss_value := ss_value s; ss_waiters := ss_waiters s; ss_solving := ss_solving s ++ [i];
          ss_done := ss_done s |}.

(** The requests there ever were. *)
Definition ids (s : solve_slots) : list nat :=
  map w_id (ss_waiters s) ++ ss_solving s ++ map fst (ss_done s).

Inductive slot_event :=
  | Arrive (i : nat) (deadline now : float)  (* a task is admitted *)
  | Resume (i : nat) (now : float)           (* a waiter that was woken runs *)
  | Ends (i : nat) (o : SolveOutcome)        (* [solve] returned or raised *)
  | TimesOut (i : nat).                      (* [wait_for] cancels *)

(** [None]: the event cannot happen. *)
Definition slot_step (s : solve_slots) (ev : slot_event) : option solve_slots :=
  match ev with
  | Arrive i deadline now =>
      if bool_decide (i ∈ ids s) then None
      else if locked s then
        Some {| ss_value := ss_value s;
                ss_waiters := ss_waiters s ++ [{| w_id := i; w_deadline := deadline; granted := false |}];
                ss_solving := ss_solving s; ss_done := ss_done s |}
      else
        Some (start_solving {| ss_value := ss_value s - 1; ss_waiters := ss_waiters s;
                               ss_solving := ss_solving s; ss_done := ss_done s |} i deadline now)
  | Resume i now =>
      match find (λ w, bool_decide (w_id w = i)) (ss_waiters s) with
      | Some w =>
          if granted w then
            let '(value, ws) := wake_up (ss_value s) (without i (ss_waiters s)) in
            Some (start_solving {| ss_value := value; ss_waiters := ws; ss_solving := ss_solving s;
                                   ss_done := ss_done s |} i (w_deadline w) now)
          else None
      | None => None
      end
  | Ends i o => if bool_decide (i ∈ ss_solving s) then Some (leave s i o) else None
  | TimesOut i =>
      if bool_decide (i ∈ ss_solving s) then Some (leave s i SolveTimedOut)
      else
        match find (λ w, bool_decide (w_id w = i)) (ss_waiters s) with
        | Some w =>
            let '(value, ws) := wake_up (if granted w then ss_value s + 1 else ss_value s)
                                  (without i (ss_waiters s)) in
            Some {| ss_value := value; ss_waiters := ws; ss_solving := ss_solving s;
                    ss_done := ss_done s ++ [(i, SolveTimedOut)] |}
        | None => None
        end
  end.

Inductive slots_reach (capacity : Z) : solve_slots → Prop :=
  | reach_init : slots_reach capacity (slots_init capacity)
  | reach_step s s' (ev : slot_event) :
      slots_reach capacity s → slot_step s ev = Some s' → slots_reach capacity s'.

(** ** The invariant *)

Definition granted_count (ws : list waiter) : Z := zlen (filter (λ w, granted w = true) ws).

(** Those who were granted a slot are in front. *)
Definition in_order (ws : list waiter) : Prop :=
  ∃ g u, ws = g ++ u ∧ Forall (λ w, granted w = true) g ∧ Forall (λ w, granted w = false) u.

(** The semaphore alone, when [n] slots are not held by a request that solves. *)
Record balanced (n value : Z) (ws : list waiter) : Prop := {
  bal_sum : value + granted_count ws = n;
  bal_value : 0 <= value;
  (* with a free slot, someone who was granted one is about to run and wakes the others *)
  bal_full : 0 < value → granted_count ws = 0 → ws = [];
  bal_order : in_order ws
}.

Lemma granted_count_cons (w : waiter) (ws : list waiter) :
  granted_count (w :: ws) = (if granted w then 1 else 0) + granted_count ws.
Proof.
  unfold granted_count, zlen. rewrite filter_cons. destruct (granted w) eqn:Hw.
  - rewrite decide_True by done. cbn [length]. lia.
  - by rewrite decide_False.
Qed.

Lemma granted_count_nonneg (ws : list waiter) : 0 <= granted_count ws.
Proof. apply zlen_nonneg. Qed.

Lemma granted_count_app (ws ws' : list waiter) : granted_count (ws ++ ws') = granted_count ws + granted_count ws'.
Proof. unfold granted_count, zlen. rewrite filter_app, length_app. lia. Qed.

Lemma in_order_cons (w : waiter) (ws : list waiter) :
  in_order (w :: ws) ↔ if granted w then in_order ws else Forall (λ w, granted w = false) (w :: ws).
Proof.
  destruct (granted w) eqn:Hw; split.
  - intros ([|x g] & u & He & Hg & Hu); simplify_eq/=; [by apply Forall_cons in Hu as [? _]; congruence|].
    apply Forall_cons in Hg as [_ Hg]. by exists g, u.
  - intros (g & u & -> & Hg & Hu). exists (w :: g), u. split_and!; [done|by constructor|done].
  - intros ([|x g] & u & He & Hg & Hu); simplify_eq/=; [done|]. apply Forall_cons in Hg as [? _]. congruence.
  - intros Hf. by exists [], (w :: ws).
Qed.

Lemma in_order_ungranted (ws : list waiter) : Forall (λ w, granted w = false) ws → in_order ws.
Proof. intros Hf. by exists [], ws. Qed.

Lemma wake_up_none (ws : list waiter) : wake_up 0 ws = (0, ws).
Proof. induction ws as [|w ws IH]; [done|]. simpl. by rewrite orb_true_r, IH. Qed.

Lemma wake_up_spec (ws : list waiter) : ∀ value v' ws',
  0 <= value → in_order ws → wake_up value ws = (v', ws') →
  balanced (value + granted_count ws) v' ws' ∧ map w_id ws' = map w_id ws.
Proof.
  induction ws as [|w ws IH]; intros value v' ws' Hv Ho; [by intros [= <- <-]|].
  cbn [wake_up]. apply in_order_cons in Ho. destruct (granted w) eqn:Hw; cbn [orb].
  - destruct (wake_up value ws) as [v1 ws1] eqn:He. intros [= <- <-].
    destruct (IH _ _ _ Hv Ho He) as [[Hs H0 Hf Ho'] Hids]. split; [|simpl; by rewrite Hids].
    pose proof (granted_count_nonneg ws1).
    constructor; [rewrite !granted_count_cons, Hw; lia|done|rewrite granted_count_cons, Hw; lia|].
    apply in_order_cons. by rewrite Hw.
  - destruct (Z.leb_spec value 0).
    + assert (value = 0) as -> by lia. rewrite wake_up_none. intros [= <- <-]. split; [|done].
      constructor; [done|done|intros; lia|by apply in_order_ungranted].
    + apply Forall_cons in Ho as [_ Ho]. destruct (wake_up (value - 1) ws) as [v1 ws1] eqn:He.
      intros [= <- <-].
      destruct (IH (value - 1) v1 ws1 ltac:(lia) (in_order_ungranted _ Ho) He) as [[Hs H0 Hf Ho'] Hids].
      split; [|simpl; by rewrite Hids].
      pose proof (granted_count_nonneg ws1).
      constructor; [rewrite !granted_count_cons, Hw; simpl; lia|done|rewrite granted_count_cons; simpl; lia|].
      by apply in_order_cons.
Qed.

Lemma wake_up_next_spec (ws : list waiter) :
  in_order ws →
  match wake_up_next ws with
  | Some ws' => granted_count ws' = granted_count ws + 1 ∧ in_order ws' ∧ map w_id ws' = map w_id ws
  | None => Forall (λ w, granted w = true) ws
  end.
Proof.
  induction ws as [|w ws IH]; [intros _; constructor|]. intros Ho. apply in_order_cons in Ho. cbn [wake_up_next].
  destruct (granted w) eqn:Hw.
  - specialize (IH Ho). destruct (wake_up_next ws) as [ws'|]; cbn [fmap option_fmap option_map].
    + destruct IH as (Hc & Ho' & Hids). rewrite !granted_count_cons, Hw, in_order_cons, Hw.
      split_and!; [lia|done|simpl; by rewrite Hids].
    + by constructor.
  - apply Forall_cons in Ho as [_ Ho]. rewrite !granted_count_cons, Hw, in_order_cons. simpl. split_and!; [lia| |done].
    by apply in_order_ungranted.
Qed.

Lemma release_spec (n value v' : Z) (ws ws' : list waiter) :
  balanced n value ws → release value ws = (v', ws') → balanced (n + 1) v' ws' ∧ map w_id ws' = map w_id ws.
Proof.
  intros [Hs H0 Hf Ho]. pose proof (wake_up_next_spec ws Ho) as Hw. unfold release.
  destruct (wake_up_next ws) as [ws1|]; intros [= <- <-].
  - destruct Hw as (Hc & Ho' & Hids). pose proof (granted_count_nonneg ws).
    split; [|done]. constructor; [lia|done|lia|done].
  - split; [|done]. constructor; [lia|lia| |done]. intros _ Hc. destruct ws as [|w ws]; [done|].
    apply Forall_cons in Hw as [Hw _]. rewrite granted_count_cons, Hw in Hc. pose proof (granted_count_nonneg ws). lia.
Qed.

Lemma in_order_without (i : nat) (ws : list waiter) : in_order ws → in_order (without i ws).
Proof.
  intros (g & u & -> & Hg & Hu). exists (without i g), (without i u). unfold without.
  split_and!; [apply filter_app| |]; (apply Forall_forall; intros w [_ Hw]%list_elem_of_filter; revert w Hw; by apply Forall_forall).
Qed.

Lemma without_ids (i : nat) (ws : list waiter) : map w_id (without i ws) = filter (λ j, j ≠ i) (map w_id ws).
Proof.
  induction ws as [|w ws IH]; [done|]. unfold without in *. cbn [map]. rewrite !filter_cons.
  destruct (decide (w_id w = i)); [by rewrite !decide_False by tauto|]. rewrite !decide_True by done.
  cbn [map]. by rewrite IH.
Qed.

Lemma without_count (i : nat) (ws : list waiter) (w : waiter) :
  NoDup (map w_id ws) → find (λ w, bool_decide (w_id w = i)) ws = Some w →
  w_id w = i ∧ i ∈ map w_id ws ∧
  granted_count (without i ws) = granted_count ws - (if granted w then 1 else 0).
Proof.
  induction ws as [|x ws IH]; [done|]. cbn [map find]. intros [Hx Hnd]%NoDup_cons. unfold without. rewrite filter_cons.
  case_bool_decide as Hi.
  - intros [= ->]. rewrite decide_False by tauto. rewrite granted_count_cons. fold (without i ws).
    assert (Hw : without i ws = ws).
    { apply filter_all. intros y Hy Hyi. apply Hx. rewrite Hi, <-Hyi. by apply list_elem_of_fmap_2. }
    rewrite Hw. split_and!; [done|rewrite elem_of_cons; by left|lia].
  - intros Hf. rewrite decide_True by done. destruct (IH Hnd Hf) as (? & ? & Hc).
    rewrite !granted_count_cons. fold (without i ws). split_and!; [done|by right|lia].
Qed.

(** Capacity is shared between the semaphore and those who solve, and every request is in
    one place. *)
Record slots_ok (capacity : Z) (s : solve_slots) : Prop := {
  ok_balanced : balanced (capacity - zlen (ss_solving s)) (ss_value s) (ss_waiters s);
  ok_ids : NoDup (ids s)
}.

Lemma ids_leave (s : solve_slots) (i : nat) (o : SolveOutcome) (ws : list waiter) :
  map w_id ws = map w_id (ss_waiters s) → NoDup (ids s) → i ∈ ss_solving s →
  map w_id ws ++ filter (λ j, j ≠ i) (ss_solving s) ++ map fst (ss_done s ++ [(i, o)]) ≡ₚ ids s.
Proof.
  intros -> Hnd Hi. unfold ids. f_equiv. rewrite map_app, (assoc_L (++)), (Permutation_app_comm _ (map fst [_])).
  cbn [map fst app]. change (i :: ?l ++ ?k) with ((i :: l) ++ k). f_equiv.
  apply NoDup_app in Hnd as (_ & _ & Hnd). apply NoDup_app in Hnd as (Hnd & _ & _).
  clear -Hnd Hi. induction (ss_solving s) as [|j l IH]; [by apply not_elem_of_nil in Hi|].
  apply NoDup_cons in Hnd as [Hj Hnd]. rewrite filter_cons. destruct (decide (j = i)) as [->|Hne].
  - rewrite decide_False by tauto. f_equiv. rewrite filter_all; [done|]. by intros x Hx ->.
  - rewrite decide_True by done. apply elem_of_cons in Hi as [->|Hi]; [done|].
    rewrite Permutation_swap. f_equiv. by apply IH.
Qed.

Lemma zlen_without (i : nat) (l : list nat) : NoDup l → i ∈ l → zlen (filter (λ j, j ≠ i) l) = zlen l - 1.
Proof.
  intros Hnd Hi. induction l as [|j l IH]; [by apply not_elem_of_nil in Hi|].
  apply NoDup_cons in Hnd as [Hj Hnd]. unfold zlen in *. rewrite filter_cons.
  destruct (decide (j = i)) as [->|Hne].
  - rewrite decide_False by tauto. rewrite filter_all; [cbn [length]; lia|]. by intros x Hx ->.
  - rewrite decide_True by done. apply elem_of_cons in Hi as [->|Hi]; [done|]. specialize (IH Hnd Hi).
    cbn [length]. lia.
Qed.

Lemma leave_ok (capacity : Z) (s : solve_slots) (i : nat) (o : SolveOutcome) :
  slots_ok capacity s → i ∈ ss_solving s → slots_ok capacity (leave s i o).
Proof.
  intros [Hb Hnd] Hi. unfold leave. destruct (release _ _) as [v ws] eqn:Hr.
  apply release_spec with (n := capacity - zlen (ss_solving s)) in Hr as [Hb' Hids]; [|done].
  assert (Hs : NoDup (ss_solving s)).
  { unfold ids in Hnd. apply NoDup_app in Hnd as (_ & _ & Hnd). by apply NoDup_app in Hnd as (? & _ & _). }
  constructor; cbn [ss_value ss_waiters ss_solving ss_done].
  - rewrite zlen_without by done. by replace (capacity - (zlen (ss_solving s) - 1))
      with (capacity - zlen (ss_solving s) + 1) by lia.
  - unfold ids at 1. cbn [ss_waiters ss_solving ss_done]. by rewrite ids_leave.
Qed.

(** A request takes a slot that is free. *)
Lemma start_solving_ok (capacity : Z) (s : solve_slots) (i : nat) (deadline now : float) :
  balanced (capacity - zlen (ss_solving s) - 1) (ss_value s) (ss_waiters s) → NoDup (i :: ids s) →
  slots_ok capacity (start_solving s i deadline now).
Proof.
  intros Hb Hnd.
  assert (Hok : slots_ok capacity {| ss_value := ss_value s; ss_waiters := ss_waiters s;
      ss_solving := ss_solving s ++ [i]; ss_done := ss_done s |}).
  { constructor; cbn [ss_value ss_waiters ss_solving].
    - by replace (capacity - zlen (ss_solving s ++ [i])) with (capacity - zlen (ss_solving s) - 1)
        by (unfold zlen; rewrite length_app; simpl; lia).
    - eapply NoDup_Permutation_proper; [|exact Hnd]. unfold ids. cbn [ss_waiters ss_solving ss_done].
      rewrite <-(assoc_L (++)). cbn [app]. by rewrite <-!Permutation_middle. }
  unfold start_solving. case_match; [|done].
  assert (Hi : i ∉ ss_solving s).
  { apply NoDup_cons in Hnd as [Hi _]. intros Hx. apply Hi. unfold ids. set_solver. }
  eapply (leave_ok _ _ i SolveTimedOut) in Hok; [|cbn [ss_solving]; set_solver].
  unfold leave in *. cbn [ss_value ss_waiters ss_solving ss_done] in Hok.
  rewrite filter_app in Hok. replace (filter (λ j, j ≠ i) [i]) with (@nil nat) in Hok
    by (rewrite filter_cons; by rewrite decide_False by tauto). by rewrite app_nil_r in Hok.
Qed.

Lemma locked_false (capacity : Z) (s : solve_slots) :
  slots_ok capacity s → locked s = false → 0 < ss_value s ∧ ss_waiters s = [].
Proof.
  intros [[_ Hv _ _] _] [H1%Z.eqb_neq H2%negb_false_iff%bool_decide_eq_true]%orb_false_iff. split; [lia|done].
Qed.

(** A waiter that is taken out of the queue. *)
Lemma taken_out (capacity : Z) (s : solve_slots) (i : nat) (w : waiter) :
  slots_ok capacity s → find (λ w, bool_decide (w_id w = i)) (ss_waiters s) = Some w →
  let ws := without i (ss_waiters s) in
  w_id w = i ∧ in_order ws ∧ granted_count ws = granted_count (ss_waiters s) - (if granted w then 1 else 0) ∧
  i :: map w_id ws ++ ss_solving s ++ map fst (ss_done s) ≡ₚ ids s.
Proof.
  intros [[_ _ _ Ho] Hnd] Hf ws. unfold ids in *. apply NoDup_app in Hnd as (Hnd & _ & _).
  destruct (without_count _ _ _ Hnd Hf) as (Hi & Hin & Hc). split_and!; [done|by apply in_order_without|done|].
  unfold ws. rewrite without_ids. change (i :: ?l ++ ?k) with ((i :: l) ++ k). f_equiv.
  clear -Hnd Hin. induction (map w_id (ss_waiters s)) as [|j l IH]; [by apply not_elem_of_nil in Hin|].
  apply NoDup_cons in Hnd as [Hj Hnd]. rewrite filter_cons. destruct (decide (j = i)) as [->|Hne].
  - rewrite decide_False by tauto. f_equiv. rewrite filter_all; [done|]. by intros x Hx ->.
  - rewrite decide_True by done. apply elem_of_cons in Hin as [->|Hin]; [done|].
    rewrite Permutation_swap. f_equiv. by apply IH.
Qed.

(** A request queues up. *)
Lemma queued_ok (capacity : Z) (s : solve_slots) (i : nat) (deadline : float) :
  slots_ok capacity s → locked s = true → i ∉ ids s →
  slots_ok capacity
    {| ss_value := ss_value s;
       ss_waiters := ss_waiters s ++ [{| w_id := i; w_deadline := deadline; granted := false |}];
       ss_solving := ss_solving s; ss_done := ss_done s |}.
Proof.
  intros [[Hs Hv Hf Ho] Hnd] Hl Hi. set (w := {| w_id := i; w_deadline := deadline; granted := false |}).
  assert (Hc : granted_count (ss_waiters s ++ [w]) = granted_count (ss_waiters s)).
  { rewrite granted_count_app. change (granted_count [w]) with 0. lia. }
  constructor; cbn [ss_value ss_waiters ss_solving].
  - constructor; [by rewrite Hc|done| |].
    + intros H0. unfold locked in Hl. rewrite (proj2 (Z.eqb_neq (ss_value s) 0)) in Hl by lia.
      apply negb_true_iff, bool_decide_eq_false in Hl. rewrite Hc. intros Hg. by destruct Hl; apply Hf.
    + destruct Ho as (g & u & -> & Hg & Hu). exists g, (u ++ [w]). rewrite (assoc_L (++)).
      split_and!; [done|done|]. apply Forall_app. split; [done|by repeat constructor].
  - unfold ids in *. cbn [ss_waiters ss_solving ss_done]. rewrite map_app, <-(assoc_L (++)). cbn [map app w_id w].
    rewrite <-Permutation_middle. by constructor.
Qed.

Lemma slot_step_ok (capacity : Z) (s s' : solve_slots) (ev : slot_event) :
  slots_ok capacity s → slot_step s ev = Some s' → slots_ok capacity s'.
Proof.
  intros Hok. destruct ev as [i deadline now|i now|i o|i]; cbn [slot_step].
  - case_bool_decide as Hi; [done|]. destruct (locked s) eqn:Hl; intros [= <-].
    + by apply queued_ok.
    + destruct (locked_false _ _ Hok Hl) as [H0 Hw]. destruct Hok as [[Hs Hv Hf Ho] Hnd].
      apply start_solving_ok; cbn [ss_value ss_waiters ss_solving]; [|by constructor].
      rewrite Hw in *. by constructor; [lia|lia|..].
  - destruct (find _ _) as [w|] eqn:Hfi; [|done]. destruct (granted w) eqn:Hg; [|done].
    destruct (wake_up _ _) as [v ws] eqn:Hw. intros [= <-].
    destruct (taken_out _ _ _ _ Hok Hfi) as (Hi & Ho & Hc & Hp). rewrite Hg in Hc.
    destruct Hok as [[Hs Hv _ _] Hnd]. apply wake_up_spec in Hw as [Hb Hids]; [|done|done].
    apply start_solving_ok; cbn [ss_value ss_waiters ss_solving].
    + by replace (capacity - zlen (ss_solving s) - 1) with (ss_value s + granted_count (without i (ss_waiters s))) by lia.
    + unfold ids at 1. cbn [ss_waiters ss_solving ss_done]. by rewrite Hids, Hp.
  - case_bool_decide; [|done]. intros [= <-]. by apply leave_ok.
  - case_bool_decide; [intros [= <-]; by apply leave_ok|]. destruct (find _ _) as [w|] eqn:Hfi; [|done].
    destruct (wake_up _ _) as [v ws] eqn:Hw. intros [= <-].
    destruct (taken_out _ _ _ _ Hok Hfi) as (Hi & Ho & Hc & Hp).
    destruct Hok as [[Hs Hv _ _] Hnd]. apply wake_up_spec in Hw as [Hb Hids]; [|by destruct (granted w); lia|done].
    constructor; cbn [ss_value ss_waiters ss_solving].
    + rewrite Hc in Hb. by replace (capacity - zlen (ss_solving s)) with
        ((if granted w then ss_value s + 1 else ss_value s)
         + (granted_count (ss_waiters s) - (if granted w then 1 else 0))) by (destruct (granted w); lia).
    + unfold ids at 1. cbn [ss_waiters ss_solving ss_done]. rewrite Hids, map_app. cbn [map fst].
      rewrite (Permutation_app_comm (map fst (ss_done s))). cbn [app]. rewrite <-!Permutation_middle. by rewrite Hp.
Qed.

Lemma slots_reach_ok (capacity : Z) (s : solve_slots) : 0 <= capacity → slots_reach capacity s → slots_ok capacity s.
Proof.
  intros H0. induction 1 as [|s s' ev _ IH Hs]; [|by eapply slot_step_ok].
  constructor; [|constructor]. cbn [slots_init ss_value ss_waiters ss_solving].
  constructor; [change (granted_count []) with 0; change (zlen (@nil nat)) with 0; lia|done|done|by exists [], []].
Qed.

(** C40 (invariant, concurrency): whatever arrives, ends and times out, in any interleaving, at most
    as many requests solve at once as the miner has slots, and no slot is lost: those
    that are free, handed over, or held by a request that solves make up the capacity.
    Slots are handed over in the order of arrival; when no request solves and none was
    handed a slot, none waits.  Each request is in one place, so it ends at most once. *)
Theorem slots_sound (capacity : Z) (s : solve_slots) :
  1 <= capacity → slots_reach capacity s →
  zlen (ss_solving s) <= capacity ∧ 0 <= ss_value s ∧
  ss_value s + granted_count (ss_waiters s) + zlen (ss_solving s) = capacity ∧
  in_order (ss_waiters s) ∧
  (ss_solving s = [] → granted_count (ss_waiters s) = 0 → ss_waiters s = []) ∧
  NoDup (ids s).
Proof.
  intros H1 Hr. destruct (slots_reach_ok capacity s ltac:(lia) Hr) as [[Hs Hv Hf Ho] Hnd].
  pose proof (granted_count_nonneg (ss_waiters s)). split_and!; [lia|done|lia|done| |done].
  intros He Hg. rewrite He in Hs. change (zlen (@nil nat)) with 0 in Hs. apply Hf; [lia|done].
Qed.

(** ** Witness

    One slot: a second task waits, a third queues up behind it although the slot is free
    for a moment, the second is cancelled before it runs, and the third gets the slot. *)

Definition sample_events : list slot_event :=
  [Arrive 1 (float_of_int 100) f1; Arrive 2 (float_of_int 90) f1; Ends 1 SolveFailed;
   Arrive 3 (float_of_int 95) f1; TimesOut 2; Resume 3 f1].

Fixpoint play (s : solve_slots) (evs : list slot_event) : option solve_slots :=
  match evs with [] => Some s | ev :: evs => s ← slot_step s ev; play s evs end.

Lemma play_reach (capacity : Z) (evs : list slot_event) : ∀ s s',
  slots_reach capacity s → play s evs = Some s' → slots_reach capacity s'.
Proof.
  induction evs as [|ev evs IH]; intros s s' Hr; cbn [play]; [by intros [= <-]|].
  intros (s1 & Hs & Hp)%bind_Some. eapply IH; [|exact Hp]. by eapply reach_step.
Qed.

Lemma slots_sound_witness :
  ∃ s, play (slots_init 1) sample_events = Some s ∧ ss_solving s = [3%nat] ∧
    ss_done s = [(1%nat, SolveFailed); (2%nat, SolveTimedOut)] ∧
    ss_value s + granted_count (ss_waiters s) + zlen (ss_solving s) = 1.
Proof.
  set (s := default (slots_init 1) (play (slots_init 1) sample_events)).
  exists s. split; [vm_compute; reflexivity|]. split; [vm_compute; reflexivity|]. split; [vm_compute; reflexivity|].
  apply (slots_sound 1 s); [lia|]. apply (play_reach 1 sample_events (slots_init 1) s).
  - apply reach_init.
  - vm_compute. reflexivity.
Defined.
