(* ===== verification/FeedbackSenderSpec.v ===== *)
(** * What miners are told

    [notices_tell_grades], [graded_told]: the notices of a round are those of its grades.
    [notice_accepted]: an honest miner prints the notice it is sent. *)

From S2P Require Import Prelude PyFloat Text Json Canonical Wire Identity Codecs Api ApiSpec Protocol ProtocolSpec Supervisor Feedback Grading Round EvaluateRound EvaluateRoundSpec Live Release MinerText Miner MinerSpec FeedbackSender.

Local Open Scope Z_scope.

Section jobs.
Context `{UD : !UnicodeData, SH : !Sha256}.
Implicit Types (c : LiveSolverClient) (n : MinerFailureNotice) (m : MinerEvaluation) (r : RoundResult).

Lemma notice_with_Some challenge_id task_id uid hotkey code display n :
  notice_with challenge_id task_id uid hotkey code display = Some n →
  n = {| n_protocol_version := 3; n_challenge_id := challenge_id; n_task_id := task_id; n_uid := uid; n_hotkey := hotkey;
         n_failure := {| fe_version := 1; fe_reason_code := code; fe_failed_check := display |} |}.
Proof.
  unfold notice_with. destruct (_ ≫= _) as [x|e] eqn:Hx; [|done]. intros [= <-].
  apply bind_Ok in Hx as (f & Hf & Hn). apply model_validate_Ok in Hf as (_ & _ & ->).
  by apply model_validate_Ok in Hn as (_ & _ & ->).
Qed.

(** A notice without a check is built for every miner. *)
Lemma notice_with_builds challenge_id task_id uid hotkey code :
  BoundedIdentifier challenge_id = true → HexDigest task_id = true → UID uid = true → BoundedIdentifier hotkey = true →
  is_Some (notice_with challenge_id task_id uid hotkey code None).
Proof.
  intros Hc Ht Hu Hh. unfold notice_with. set (f := {| fe_version := 1; fe_reason_code := code; fe_failed_check := None |}).
  assert (Hf : FailureExplanation_validate f = Ok f) by (by apply model_validate_Ok). rewrite Hf. cbn [mbind result_bind].
  set (n := {| n_protocol_version := 3 |}). assert (Hn : notice_validate n = Ok n); [|by rewrite Hn].
  apply model_validate_Ok. split_and!; [|done|done]. unfold MinerFailureNotice_fields. rewrite !andb_true_iff.
  by split_and!.
Qed.

(** The notice of an evaluation. *)
Definition tells (challenge_id task_id : pystr) (details : bool) m n : Prop :=
  n_challenge_id n = challenge_id ∧ n_task_id n = task_id ∧ n_uid n = me_uid m ∧ n_hotkey n = me_hotkey m ∧
  notice_code (ev_status (me_result m)) (ev_reason_code (me_result m)) = Some (fe_reason_code (n_failure n)) ∧
  ∀ s, fe_failed_check (n_failure n) = Some s →
    details = true ∧ ev_failed_check (me_result m) = Some s ∧ ev_stage (me_result m) = Some CHECK ∧
    fe_reason_code (n_failure n) = code_reason CHECK_FAILED.

Lemma displayed_Some details code stage check s :
  displayed details code stage check = Some s → details = true ∧ check = Some s ∧ stage = Some CHECK ∧ code = code_reason CHECK_FAILED.
Proof.
  unfold displayed. destruct details; [|done]. case_bool_decide; [|done]. case_bool_decide; [|done]. done.
Qed.

Lemma build_notice_Some challenge_id task_id details m n :
  build_notice challenge_id task_id (me_uid m) (me_hotkey m) (ev_status (me_result m)) (ev_reason_code (me_result m))
    (ev_stage (me_result m)) (ev_failed_check (me_result m)) details = Some n →
  tells challenge_id task_id details m n.
Proof.
  unfold build_notice, tells. destruct (notice_code _ _) as [code|]; [|done].
  destruct (displayed _ _ _ _) as [s|] eqn:Hd; [|by intros ->%notice_with_Some].
  destruct (notice_with _ _ _ _ _ (Some s)) as [x|] eqn:Hs; [|by intros ->%notice_with_Some].
  intros [= <-]. apply notice_with_Some in Hs as ->. split_and!; try done. cbn. intros t [= <-].
  by apply displayed_Some.
Qed.

Lemma build_notice_builds challenge_id task_id details m :
  BoundedIdentifier challenge_id = true → HexDigest task_id = true → UID (me_uid m) = true →
  BoundedIdentifier (me_hotkey m) = true → ev_status (me_result m) ≠ eval_abandoned →
  is_Some (build_notice challenge_id task_id (me_uid m) (me_hotkey m) (ev_status (me_result m)) (ev_reason_code (me_result m))
    (ev_stage (me_result m)) (ev_failed_check (me_result m)) details).
Proof.
  intros Hc Ht Hu Hh Hs. unfold build_notice. destruct (notice_code _ _) as [code|] eqn:Hcode.
  - pose proof (notice_with_builds challenge_id task_id (me_uid m) (me_hotkey m) code Hc Ht Hu Hh).
    destruct (displayed _ _ _ _) as [s|]; [|done]. destruct (notice_with _ _ _ _ _ (Some s)); [by eexists|done].
  - unfold notice_code in Hcode. by destruct (ev_status _).
Qed.

Lemma client_of_Some solvers registration c :
  client_of solvers registration = Some c → c ∈ solvers ∧ registration_of_client c = registration.
Proof. unfold client_of. intros H%last_Some_elem_of. by apply list_elem_of_filter in H as []. Qed.

Lemma client_of_is_Some solvers c : c ∈ solvers → is_Some (client_of solvers (registration_of_client c)).
Proof.
  intros Hc. unfold client_of. apply last_is_Some. intros Hnil.
  assert (H : c ∈ filter (λ x, registration_of_client x = registration_of_client c) solvers) by (by apply list_elem_of_filter).
  rewrite Hnil in H. by apply elem_of_nil in H.
Qed.

Lemma collect_jobs_spec challenge_id task_id solvers assigned details (evs : list MinerEvaluation) : ∀ seen,
  let jobs := collect_jobs challenge_id task_id solvers assigned details seen evs in
  NoDup (map (λ j, registration_of_client j.1) jobs) ∧
  (∀ c n, (c, n) ∈ jobs → ∃ m, m ∈ evs ∧ c ∈ solvers ∧ registration_of_client c = (me_uid m, me_hotkey m) ∧
     ((me_uid m, me_hotkey m) ∉ seen) ∧ (me_uid m, me_hotkey m) ∈ assigned ∧ tells challenge_id task_id details m n) ∧
  (BoundedIdentifier challenge_id = true → HexDigest task_id = true →
   ∀ m c, m ∈ evs → c ∈ solvers → registration_of_client c = (me_uid m, me_hotkey m) → (me_uid m, me_hotkey m) ∈ assigned →
     ((me_uid m, me_hotkey m) ∉ seen) → UID (me_uid m) = true → BoundedIdentifier (me_hotkey m) = true →
     ev_status (me_result m) ≠ eval_abandoned → ∃ j, j ∈ jobs ∧ registration_of_client j.1 = (me_uid m, me_hotkey m)).
Proof.
  induction evs as [|m evs IH]; intros seen; cbn [collect_jobs]; cbv zeta.
  { split_and!; [by constructor|by intros ?? ?%elem_of_nil|]. by intros _ _ ? ? ?%elem_of_nil. }
  set (reg := (me_uid m, me_hotkey m)).
  assert (Hskip : ∀ jobs, jobs = collect_jobs challenge_id task_id solvers assigned details seen evs →
    (BoundedIdentifier challenge_id = true → HexDigest task_id = true → ∀ c, c ∈ solvers → registration_of_client c = reg → reg ∈ assigned →
       (reg ∉ seen) → UID (me_uid m) = true → BoundedIdentifier (me_hotkey m) = true → ev_status (me_result m) ≠ eval_abandoned → False) →
    NoDup (map (λ j : job, registration_of_client j.1) jobs) ∧
    (∀ c n, (c, n) ∈ jobs → ∃ m', m' ∈ m :: evs ∧ c ∈ solvers ∧ registration_of_client c = (me_uid m', me_hotkey m') ∧
       ((me_uid m', me_hotkey m') ∉ seen) ∧ (me_uid m', me_hotkey m') ∈ assigned ∧ tells challenge_id task_id details m' n) ∧
    (BoundedIdentifier challenge_id = true → HexDigest task_id = true →
     ∀ m' c, m' ∈ m :: evs → c ∈ solvers → registration_of_client c = (me_uid m', me_hotkey m') → (me_uid m', me_hotkey m') ∈ assigned →
       ((me_uid m', me_hotkey m') ∉ seen) → UID (me_uid m') = true → BoundedIdentifier (me_hotkey m') = true →
       ev_status (me_result m') ≠ eval_abandoned → ∃ j, j ∈ jobs ∧ registration_of_client j.1 = (me_uid m', me_hotkey m'))).
  { intros jobs -> Hno. destruct (IH seen) as (H1 & H2 & H3). split_and!; [done| |].
    - intros c n Hin. destruct (H2 c n Hin) as (m' & Hm & H). exists m'. split; [by right|done].
    - intros Hc Ht m' c [->|Hm]%elem_of_cons; [|by apply H3]. intros Hin Hreg Has Hs Hu Hh Hst. by destruct (Hno Hc Ht c). }
  case_bool_decide as Hseen; cbn [orb]; [apply Hskip; [done|by intros]|].
  case_bool_decide as Has; cbn [negb]; [|apply Hskip; [done|by intros]].
  destruct (client_of solvers reg) as [c|] eqn:Hc.
  2:{ apply Hskip; [done|]. intros _ _ c Hin Hreg. destruct (client_of_is_Some solvers c Hin) as [x Hx]. by rewrite Hreg, Hc in Hx. }
  destruct (build_notice _ _ _ _ _ _ _ _ _) as [n|] eqn:Hn.
  2:{ apply Hskip; [done|]. intros Hcid Htid c' _ _ _ _ Hu Hh Hst.
      destruct (build_notice_builds challenge_id task_id details m Hcid Htid Hu Hh Hst) as [x Hx]. by rewrite Hn in Hx. }
  apply client_of_Some in Hc as [Hin Hreg]. apply build_notice_Some in Hn. destruct (IH ({[reg]} ∪ seen)) as (H1 & H2 & H3).
  cbn [map fst]. split_and!.
  - apply NoDup_cons. split; [|done]. rewrite Hreg. intros (j & Hj & Hjin)%list_elem_of_fmap. destruct j as [c' n'].
    destruct (H2 c' n' Hjin) as (m' & _ & _ & Hr' & Hs' & _). cbn [fst] in Hj. rewrite <-Hr', <-Hj in Hs'. set_solver.
  - intros c' n' [[= -> ->]|Hj]%elem_of_cons; [exists m; split_and!; try done; by left|].
    destruct (H2 c' n' Hj) as (m' & Hm & Hc' & Hr' & Hs' & Ha' & Ht'). exists m'. split_and!; try done; [by right|set_solver].
  - intros Hcid Htid m' c' [->|Hm]%elem_of_cons Hc' Hr' Ha' Hs' Hu Hh Hst; [exists (c, n); split; [by left|done]|].
    destruct (decide ((me_uid m', me_hotkey m') = reg)) as [Heq|Hne]; [exists (c, n); split; [by left|by rewrite Heq]|].
    destruct (H3 Hcid Htid m' c') as (j & Hj & Hjr); try done; [set_solver|]. exists j. split; [by right|done].
Qed.

Lemma collect_jobs_length challenge_id task_id solvers assigned details (evs : list MinerEvaluation) : ∀ seen,
  zlen (collect_jobs challenge_id task_id solvers assigned details seen evs) <= zlen evs.
Proof.
  induction evs as [|e evs IH]; intros seen; cbn [collect_jobs]; [done|].
  assert (Hstep : ∀ k : list job, zlen k <= zlen evs → zlen k <= zlen (e :: evs)) by (intros k; unfold zlen; cbn [length]; lia).
  repeat case_match; try apply Hstep, IH. specialize (IH ({[(me_uid e, me_hotkey e)]} ∪ seen)). unfold zlen in *. cbn [length]. lia.
Qed.

Lemma job_le_total (i j : job) : job_le i j = true ∨ job_le j i = true.
Proof. unfold job_le. destruct (tells_pass i), (tells_pass j); auto. Qed.

Lemma jobs_elem r solvers details (j : job) : j ∈ jobs_of r solvers details →
  ∃ challenge_id task_id, rr_status r = completed ∧ rr_challenge_id r = Some challenge_id ∧ rr_task_id r = Some task_id ∧
    j ∈ collect_jobs challenge_id task_id solvers (list_to_set (rr_assigned_miners r)) details ∅ (rr_evaluations r).
Proof.
  unfold jobs_of. case_bool_decide as Hs; cbn [negb]; [|by intros ?%elem_of_nil].
  destruct (rr_challenge_id r) as [[|a challenge_id]|]; [by intros ?%elem_of_nil| |by intros ?%elem_of_nil].
  destruct (rr_task_id r) as [[|b task_id]|]; [by intros ?%elem_of_nil| |by intros ?%elem_of_nil].
  intros Hj%elem_of_slice_to. rewrite elem_of_sort_by in Hj. exists (a :: challenge_id), (b :: task_id). split_and!; done.
Qed.

(** The order of the jobs, and that no registration is told twice. *)
Lemma jobs_order r solvers details :
  NoDup (map (λ j : job, registration_of_client j.1) (jobs_of r solvers details)) ∧
  zlen (jobs_of r solvers details) <= 1024 ∧ StronglySorted (λ i j, job_le i j = true) (jobs_of r solvers details).
Proof.
  unfold jobs_of. assert (Hnil : NoDup (map (λ j : job, registration_of_client j.1) []) ∧ zlen ([] : list job) <= 1024 ∧
    StronglySorted (λ i j : job, job_le i j = true) []) by (split; [apply NoDup_nil_2|split; [unfold zlen; cbn; lia|constructor]]).
  case_bool_decide; cbn [negb]; [|done]. destruct (rr_challenge_id r) as [[|a c]|]; [done| |done].
  destruct (rr_task_id r) as [[|b t]|]; [done| |done]. clear Hnil.
  set (l := collect_jobs _ _ _ _ _ _ _). split_and!.
  - eapply sublist_NoDup; [|apply fmap_sublist, slice_to_sublist].
    change (NoDup ((λ j : job, registration_of_client j.1) <$> sort_by job_le l)). rewrite (sort_by_perm job_le l). apply collect_jobs_spec.
  - rewrite slice_to_length by done. unfold NOTICE_MAX_RECIPIENTS. lia.
  - destruct (slice_to_prefix NOTICE_MAX_RECIPIENTS (sort_by job_le l)) as [k Hk].
    assert (Hall : StronglySorted (λ i j, job_le i j = true) (sort_by job_le l)).
    { apply Sorted_StronglySorted; [|apply sort_by_sorted, job_le_total]. intros i j k'. unfold job_le.
      destruct (tells_pass i), (tells_pass j), (tells_pass k'); done. }
    rewrite Hk in Hall. by apply StronglySorted_app in Hall as (_ & Hall & _).
Qed.

(** ** Properties *)

(** C37 (safety): the notices of a round tell its grades.  Only a completed round is told; each
    notice goes to a client whose registration the round assigned and graded, names the
    challenge, the task and that miner, and carries the code of its evaluation; the
    failed check is shown only on request, of a check that failed, and it is the
    miner's own.  No registration is told twice, at most 1024 are told, and the failures
    come before the passes. *)
Theorem notices_tell_grades r (solvers : list LiveSolverClient) (details : bool) :
  let jobs := jobs_of r solvers details in
  (∀ c n, (c, n) ∈ jobs → rr_status r = completed ∧ c ∈ solvers ∧
     ∃ challenge_id task_id m, rr_challenge_id r = Some challenge_id ∧ rr_task_id r = Some task_id ∧ m ∈ rr_evaluations r ∧
       registration_of_client c = (me_uid m, me_hotkey m) ∧ (me_uid m, me_hotkey m) ∈ rr_assigned_miners r ∧
       tells challenge_id task_id details m n) ∧
  NoDup (map (λ j : job, registration_of_client j.1) jobs) ∧ zlen jobs <= 1024 ∧
  ∀ i k (a b : job), jobs !! i = Some a → jobs !! k = Some b → (i < k)%nat → tells_pass a = true → tells_pass b = true.
Proof.
  intros jobs. destruct (jobs_order r solvers details) as (Hn & Hz & Hs). split_and!; [|done|done|].
  - intros c n Hj%jobs_elem. destruct Hj as (ci & ti & Hst & Hc & Ht & Hj). split; [done|].
    apply collect_jobs_spec in Hj as (m & Hm & Hin & Hr & _ & Ha & Htell). split; [done|]. exists ci, ti, m.
    split_and!; try done. by apply elem_of_list_to_set in Ha.
  - intros i k a b Ha Hb Hik Hp. rewrite <-(take_drop (S i) (jobs_of r solvers details)) in Hs.
    assert (H : job_le a b = true); [|unfold job_le in H; by rewrite Hp in H].
    refine (StronglySorted_app_1_elem_of _ _ _ a b Hs _ _).
    + apply list_elem_of_lookup_2 with i. rewrite lookup_take_lt by lia. exact Ha.
    + apply list_elem_of_lookup_2 with (k - S i)%nat. rewrite lookup_drop. rewrite <-Hb. f_equal. lia.
Qed.

(** (functional): every graded miner is told: when the round is completed and names its
    challenge and task, an evaluation that is not abandoned, of a miner the round assigned
    and there is a client for, has its notice, whatever it says. *)
Theorem graded_told r (solvers : list LiveSolverClient) (details : bool) (challenge_id task_id : pystr) (m : MinerEvaluation)
    (c : LiveSolverClient) :
  rr_status r = completed → rr_challenge_id r = Some challenge_id → rr_task_id r = Some task_id →
  BoundedIdentifier challenge_id = true → HexDigest task_id = true → zlen (rr_evaluations r) <= 1024 →
  m ∈ rr_evaluations r → (me_uid m, me_hotkey m) ∈ rr_assigned_miners r → c ∈ solvers →
  registration_of_client c = (me_uid m, me_hotkey m) → UID (me_uid m) = true → BoundedIdentifier (me_hotkey m) = true →
  ev_status (me_result m) ≠ eval_abandoned →
  ∃ c' n, (c', n) ∈ jobs_of r solvers details ∧ registration_of_client c' = (me_uid m, me_hotkey m).
Proof.
  intros Hst Hc Ht Hci Hti Hz Hm Ha Hs Hr Hu Hh Hne. unfold jobs_of. rewrite Hst, Hc, Ht, bool_decide_eq_true_2 by done. cbn [negb].
  destruct challenge_id as [|x challenge_id]; [done|]. destruct task_id as [|y task_id]; [done|].
  set (l := collect_jobs _ _ _ _ _ _ _). assert (Hl : zlen l <= zlen (rr_evaluations r)) by apply collect_jobs_length.
  destruct (collect_jobs_spec (x :: challenge_id) (y :: task_id) solvers (list_to_set (rr_assigned_miners r)) details (rr_evaluations r) ∅)
    as (_ & _ & Hall). fold l in Hall.
  destruct (Hall Hci Hti m c Hm Hs Hr) as ([c' n] & Hj & Hjr); [by apply elem_of_list_to_set|apply not_elem_of_empty|done|done|done|].
  exists c', n. split; [|done]. rewrite slice_to_all; [by rewrite elem_of_sort_by|].
  unfold zlen in *. rewrite length_sort_by. unfold NOTICE_MAX_RECIPIENTS. lia.
Qed.
End jobs.

(** ** At the miner *)

(** The miner remembers a task that it has not answered a notice of. *)
Definition awaits_notice (t : ServedTasks) (key : task_key) (uid : Z) (hotkey : pystr) (now : float) : Prop :=
  ∃ served_at, lookup_key key (served (drop_expired t now)) = Some (served_at, uid, hotkey) ∧ (key ∉ answered t).

Lemma classify_awaited (t : ServedTasks) (key : task_key) (uid : Z) (hotkey : pystr) (now : float) :
  awaits_notice t key uid hotkey now → (classify t key uid hotkey now).1 = New.
Proof.
  intros (at_ & Hl & Ha). unfold classify. rewrite Hl, bool_decide_eq_true_2 by done. cbn [negb].
  rewrite bool_decide_eq_false_2; [done|]. intros Hin. apply Ha. cbn [drop_expired answered with_served] in Hin. set_solver.
Qed.

Section delivery.
Context `{UD : !UnicodeData, SH : !Sha256, KP : !Keypair, UG : !UnicodeDigits, MR : !MinerRequests}.

(** The headers of a signed JSON request. *)
Lemma signed_json_envelope (wallet : Hotkey) (body : bytes) (signed_for : option pystr) (now : Z) (uuid : pystr)
    (hs : list (pystr * pystr)) (size : pystr) :
  sign_message wallet body signed_for now uuid = Ok hs →
  same_envelope
    (dict_lookup (hs ++ [(ustr "Content-Type", ustr "application/json"); (ustr "Content-Length", size)])) (dict_lookup hs).
Proof.
  unfold sign_message. intros (sig & _ & [= <-])%bind_Ok name Hname. unfold dict_lookup. cbn [dict_of zip EPISTULA_HEADERS].
  apply list_elem_of_In in Hname. cbn in Hname. destruct Hname as [<-|[<-|[<-|[<-|[<-|[<-|[]]]]]]]; reflexivity.
Qed.

Lemma request_envelope (dump_notice : MinerFailureNotice → pystr) (wallet : Hotkey) (client : LiveSolverClient)
    (notice : MinerFailureNotice) (env : PostEnv) (request : notice_request) :
  notice_request_of dump_notice wallet client notice env = Ok request →
  nr_client request = client ∧ zlen (nr_body request) <= FAILURE_NOTICE_MAX_BYTES ∧
  ∃ hs, sign_message wallet (nr_body request) (Some (lc_hotkey client)) (pe_time env) (pe_uuid env) = Ok hs ∧
    same_envelope (dict_lookup (nr_headers request)) (dict_lookup hs).
Proof.
  unfold notice_request_of. intros (body & Hb & H)%bind_Ok. apply bind_Ok in H as (hs & Hs & [= <-]).
  cbn [nr_client nr_body nr_headers]. split; [done|]. split.
  - unfold serialize_failure_notice in Hb. apply bind_Ok in Hb as (v & _ & Hb). apply bind_Ok in Hb as (b & _ & Hb).
    apply guard_Ok in Hb as [Hle%Z.ltb_ge [= <-]]. exact Hle.
  - exists hs. split; [done|]. by eapply signed_json_envelope.
Qed.

(** C36 (liveness): the notice the validator sends is the notice the miner prints.  The
    validator signs for the client with a key that verifies, and the request arrives
    within the clock skew, with a new nonce, at a miner that holds the key of the
    registration, lets the validator in, has a print slot, and remembers the task
    unanswered: it replies 200 and prints the notice's code and failed check, once, and
    the sender counts the notice as delivered. *)
Theorem notice_accepted (dump_notice : MinerFailureNotice → pystr) (wallet : Hotkey) (client : LiveSolverClient)
    (notice : MinerFailureNotice) (env : JobEnv) (request : notice_request) (settings : MinerSettings) (m : miner)
    (ce : call_env) (h : headers) :
  let post := je_first env in
  je_permit env = true → notice_request_of dump_notice wallet client notice post = Ok request →
  read_notice (nr_body request) = Ok notice →
  authentic wallet → keypair_address wallet ≠ [] → pe_uuid post ≠ [] → 0 <= pe_time post < 2 ^ 4300 →
  pe_time post - 8000 <= ce_verify_ms ce <= pe_time post + 8000 →
  same_envelope h (dict_lookup (nr_headers request)) →
  n_hotkey notice = lc_hotkey client → ce_hotkey ce = lc_hotkey client → lc_hotkey client ≠ [] →
  is_Some (ce_metagraph ce) → authorize settings (ce_metagraph ce) (keypair_address wallet) = true →
  (check_and_add (nonces m) (pe_uuid post) (ce_nonce_ms ce)).1 = true → printing_notices m < NOTICE_PRINT_SLOTS →
  awaits_notice (served_tasks m) (keypair_address wallet, n_challenge_id notice, n_task_id notice) (n_uid notice)
    (n_hotkey notice) (ce_monotonic ce) →
  pe_status post = Some 200 →
  ∃ m', handle_failure_notice settings m ce h (nr_body request) =
      Ok (200, Accepted, Some (feedback_lines (notice_header notice) (fe_failed_check (n_failure notice))), m') ∧
    ((keypair_address wallet, n_challenge_id notice, n_task_id notice) ∈ answered (served_tasks m')) ∧
    deliver dump_notice wallet env (client, notice) = (true, [request]).
Proof.
  intros post Hpermit Hreq Hread Hauth Haddr Huuid Hts Hclock Henv Hnh Hch Hne Hmeta Hallow Hnonce Hslots Hawait Hstatus.
  destruct (request_envelope _ _ _ _ _ _ Hreq) as (_ & Hsize & hs & Hsign & Hsame).
  assert (Hh : same_envelope h (dict_lookup hs)) by (intros name Hname; by rewrite (Henv name Hname), (Hsame name Hname)).
  assert (Hv : verify_signature h (nr_body request) ALLOWED_DELTA_MS (ce_verify_ms ce) (Some (ce_hotkey ce)) = Ok true).
  { rewrite (verify_same _ _ _ _ _ _ Hh). eapply signed_verifies; [exact Hsign|done..| |exact Hclock]. right. by rewrite Hch. }
  destruct (signed_headers _ _ _ _ _ _ Hsign Hts) as (sig & _ & Hread' & _). rewrite <-(read_headers_same _ _ Hh) in Hread'.
  destruct (read_headers_fields h _ Hread') as (Hby & _ & Hu). cbn [h_signed_by h_uuid] in Hby, Hu.
  pose proof (classify_awaited _ _ _ _ _ Hawait) as Hnew.
  destruct (classify _ _ _ _ _) as [seen tasks] eqn:Hcl in Hnew. cbn [fst] in Hnew. subst seen.
  destruct (check_and_add (nonces m) (pe_uuid post) (ce_nonce_ms ce)) as [fresh cache] eqn:Hca. cbn [fst] in Hnonce. subst fresh.
  eexists. split; [|split].
  - unfold handle_failure_notice. rewrite (proj2 (Z.ltb_ge _ _)) by exact Hsize.
    rewrite !bool_decide_eq_true_2 by done. rewrite bool_decide_eq_false_2 by (by rewrite Hch). cbn [negb andb].
    rewrite Hv. cbn [mbind result_bind negb]. change (header h "Epistula-Uuid") with (uuid_of h). rewrite Hu.
    rewrite Hca. cbn [negb]. unfold header. rewrite Hby. cbn [from_option id]. rewrite Hallow. cbn [negb]. rewrite Hread.
    rewrite bool_decide_eq_true_2 by congruence. cbn [negb with_nonces printing_notices served_tasks].
    rewrite (proj2 (Z.leb_gt _ _)) by done. rewrite Hcl. reflexivity.
  - cbn [with_printing with_tasks served_tasks]. destruct Hawait as (at_ & Hl & Ha). unfold classify in Hcl.
    rewrite Hl, bool_decide_eq_true_2 in Hcl by done. cbn [negb] in Hcl. case_bool_decide; [discriminate Hcl|].
    injection Hcl as <-. cbn [answered with_served]. set_solver.
  - unfold deliver. rewrite Hpermit. cbn [negb]. unfold FeedbackSender.post. change (je_first env) with post.
    rewrite Hreq, Hstatus. done.
Qed.
End delivery.

(** ** Witnesses *)

Definition graded (u : Z) (hotkey : string) (st : EvaluationStatus) (code : option ReasonCode) (check : option pystr) : MinerEvaluation :=
  {| me_uid := u; me_hotkey := ustr hotkey; me_latency_ms := 5; me_grading_duration_ms := 7; me_trajectory := None;
     me_result := {| ev_status := st; ev_reason := match st with eval_passed => [] | _ => ustr "no" end; ev_checks := [];
                     ev_script_exit_code := None; ev_reason_code := code; ev_stage := Some CHECK; ev_failed_check := check |} |}.

(** Three miners graded: one passed, one failed a check, one is not assigned. *)
Definition told_round : RoundResult :=
  {| rr_status := completed; rr_reason := [];
     rr_evaluations := [graded 1 "a" eval_passed None None;
                        graded 2 "b" eval_failed (Some (miner_reason CHECK_FAILED)) (Some (ustr "wanted 1, got 2"));
                        graded 3 "c" eval_passed None None];
     rr_retry_after_s := None; rr_reason_code := None; rr_stage := None; rr_challenge_id := Some (ustr "c1");
     rr_task_id := Some zeros; rr_assigned_miners := [(1, ustr "a"); (2, ustr "b")]; rr_diagnostic_evaluations := [];
     rr_dispatch_failures := []; rr_checks_total := Some 1 |}.

Definition told_client (u : Z) (hotkey : string) : LiveSolverClient :=
  {| lc_uid := u; lc_hotkey := ustr hotkey; lc_wallet := HotkeyName (ustr "val") |}.

Definition told_clients : list LiveSolverClient := [told_client 1 "a"; told_client 2 "b"; told_client 3 "c"].

(** The failure is told first, with its check. *)
Example told_jobs :
  map (λ j : job, (lc_uid j.1, code_text (fe_reason_code (n_failure j.2)), fe_failed_check (n_failure j.2)))
    (jobs_of (H := ascii_unicode) told_round told_clients true) =
  [(2, ustr "check_failed", Some (ustr "wanted 1, got 2")); (1, ustr "passed", None)].
Proof. vm_compute. reflexivity. Qed.

Lemma graded_told_witness :
  ∃ c n, (c, n) ∈ jobs_of (H := ascii_unicode) told_round told_clients false ∧ registration_of_client c = (2, ustr "b").
Proof.
  apply (graded_told (UD := ascii_unicode) told_round told_clients false (ustr "c1") zeros
    (graded 2 "b" eval_failed (Some (miner_reason CHECK_FAILED)) (Some (ustr "wanted 1, got 2"))) (told_client 2 "b")).
  1-3: reflexivity.
  1-2: vm_compute; reflexivity.
  - vm_compute. discriminate.
  - right. left.
  - right. left.
  - right. left.
  - reflexivity.
  - reflexivity.
  - vm_compute. reflexivity.
  - discriminate.
Defined.

Definition told_env : JobEnv :=
  {| je_permit := true; je_first := {| pe_time := 30000; pe_uuid := ustr "u2"; pe_status := Some 200 |};
     je_second := {| pe_time := 30000; pe_uuid := ustr "u3"; pe_status := None |} |}.

Abbreviation told_request :=
  (notice_request_of (H := ascii_unicode) (H0 := sha_const) (H1 := no_keypair) (λ _, ustr "{}") (HotkeyName (ustr "val"))
     (told_client 1 "a") demo_notice (je_first told_env)).

Lemma notice_accepted_witness :
  ∃ request m', told_request = Ok request ∧
    handle_failure_notice (H := sha_const) (H0 := no_keypair) (H1 := no_digits) (H2 := demo_requests) demo_settings
      demo_answered (demo_env 30000) (dict_lookup (nr_headers request)) (nr_body request) =
    Ok (200, Accepted, Some (feedback_lines (notice_header demo_notice) None), m').
Proof.
  destruct told_request as [request|e] eqn:Hr; [|exfalso; revert Hr; vm_compute; discriminate].
  destruct (notice_accepted (UD := ascii_unicode) (SH := sha_const) (KP := no_keypair) (UG := no_digits) (MR := demo_requests)
    (λ _, ustr "{}") (HotkeyName (ustr "val")) (told_client 1 "a") demo_notice told_env request demo_settings demo_answered
    (demo_env 30000) (dict_lookup (nr_headers request))) as (m' & Hm & _).
  - reflexivity.
  - exact Hr.
  - reflexivity.
  - vm_compute. reflexivity.
  - discriminate.
  - discriminate.
  - split; [vm_compute; discriminate|]. apply Z.lt_trans with (2 ^ 100); [reflexivity|]. apply Z.pow_lt_mono_r; lia.
  - vm_compute. split; discriminate.
  - by intros name _.
  - reflexivity.
  - reflexivity.
  - discriminate.
  - by eexists.
  - vm_compute. reflexivity.
  - vm_compute. reflexivity.
  - reflexivity.
  - exists (float_of_int 100). split; [vm_compute; reflexivity|]. apply not_elem_of_empty.
  - reflexivity.
  - exists request, m'. split; [reflexivity|exact Hm].
Defined.
