(* ===== verification/Config.v ===== *)
(** * Settings of a validator ([src/rlvr/config.py])

    [Settings] are the values after pydantic read the environment and the [.env] file,
    [Settings_fields] the constraints of the fields, [validate_ranges] the validator of
    the model.  [ignored_release_policy_keys] and [nondefault_settings_summary] are what
    start-up reports of them.

    [settings_settle], [stale_key_reported], [summary_keeps_secrets]. *)

From Stdlib Require Import SpecFloat.
From S2P Require Import Prelude PyFloat Text Json Codecs Executor Release.

Local Open Scope Z_scope.

Definition SOLVE_DEADLINE_CEILING_S : Z := 3600.

Record Settings := {
  set_solve_deadline_s : float;
  set_band_low : float;
  set_band_high : float;
  set_difficulty_samples_m : Z;
  set_executor : pystr;
  set_per_test_timeout_s : float;
  set_docker_image : pystr;
  set_docker_memory : pystr;
  set_docker_cpus : float;
  set_docker_pids_limit : Z;
  set_reward_partial_credit : bool;
  problem_server_url : pystr;
  problem_server_url_migrated_from : pystr;
  problem_server_allow_insecure_http : bool;
  miner_max_response_bytes : Z;
  problem_server_request_timeout_s : float;
  problem_server_metagraph_sync_s : float;
  validator_dispatch_concurrency : Z;
  validator_grading_concurrency : option Z;
  validator_send_concurrency : Z;
  validator_verify_concurrency : Z;
  validator_score_state_file : pystr;
  validator_diagnostics_file : option pystr;
  validator_failure_notices : bool;
  validator_failed_check_details : bool;
  validator_trace_check_url : pystr;
  validator_trace_check_hotkey : pystr;
  validator_trace_check_rate : float;
  dataset_dir : pystr;
  netuid : Z;
  subtensor_network : pystr;
  subtensor_chain_endpoint : pystr;
  wallet_name : pystr;
  wallet_hotkey : pystr
}.

Definition DEFAULT_PROBLEM_SERVER_URL : pystr := ustr "https://d344p1xue0u9qs.cloudfront.net".

Definition default_settings : Settings :=
  {| set_solve_deadline_s := float_of_int SOLVE_DEADLINE_CEILING_S; set_band_low := literal 35 100;
     set_band_high := literal 65 100; set_difficulty_samples_m := 8; set_executor := ustr "docker";
     set_per_test_timeout_s := float_of_int 5; set_docker_image := ustr "python:3.12-slim"; set_docker_memory := ustr "256m";
     set_docker_cpus := f1; set_docker_pids_limit := 128; set_reward_partial_credit := false;
     problem_server_url := DEFAULT_PROBLEM_SERVER_URL; problem_server_url_migrated_from := [];
     problem_server_allow_insecure_http := false; miner_max_response_bytes := 128000;
     problem_server_request_timeout_s := float_of_int 60; problem_server_metagraph_sync_s := float_of_int 60;
     validator_dispatch_concurrency := 256; validator_grading_concurrency := None; validator_send_concurrency := 32;
     validator_verify_concurrency := 16; validator_score_state_file := ustr "data/validator_scores.json";
     validator_diagnostics_file := None; validator_failure_notices := true; validator_failed_check_details := true;
     validator_trace_check_url := []; validator_trace_check_hotkey := []; validator_trace_check_rate := literal 1 100;
     dataset_dir := ustr "data/rollouts"; netuid := 0; subtensor_network := ustr "test"; subtensor_chain_endpoint := [];
     wallet_name := ustr "default"; wallet_hotkey := ustr "default" |}.

(** ** Constraints *)

(** [gt], [ge], [le] of pydantic: a comparison that does not hold rejects nothing. *)
Definition float_gt (bound x : float) : bool := negb (fleb x bound).
Definition float_ge (bound x : float) : bool := negb (fltb x bound).
Definition float_le (bound x : float) : bool := negb (fltb bound x).
Definition between (low high x : Z) : bool := (low <=? x) && (x <=? high).

Definition alphanumeric (c : N) : bool := in_range 48 57 c || in_range 65 90 c || in_range 97 122 c.

(** [^[A-Za-z0-9][A-Za-z0-9._/:@-]*$] *)
Definition image_name (s : pystr) : bool :=
  match s with
  | c :: rest => alphanumeric c && forallb (λ c, alphanumeric c || bool_decide (c ∈ ustr "._/:@-")) rest
  | [] => false
  end.

(** [^[1-9][0-9]*[kKmMgG]$] *)
Definition memory_size (s : pystr) : bool :=
  match s, rev s with
  | first :: _, unit :: (_ :: _) as digits =>
      in_range 49 57 first && bool_decide (unit ∈ ustr "kKmMgG") && forallb is_digit (tail digits)
  | _, _ => false
  end.

Definition Settings_fields (s : Settings) : bool :=
  float_gt f0 (set_solve_deadline_s s) && float_le (float_of_int SOLVE_DEADLINE_CEILING_S) (set_solve_deadline_s s)
  && (float_ge f0 (set_band_low s) && float_le f1 (set_band_low s))
  && (float_ge f0 (set_band_high s) && float_le f1 (set_band_high s))
  && between 1 1024 (set_difficulty_samples_m s)
  && (bool_decide (set_executor s = ustr "subprocess") || bool_decide (set_executor s = ustr "docker"))
  && (float_gt f0 (set_per_test_timeout_s s) && float_le (float_of_int 300) (set_per_test_timeout_s s))
  && (between 1 512 (zlen (set_docker_image s)) && image_name (set_docker_image s)) && memory_size (set_docker_memory s)
  && (float_gt f0 (set_docker_cpus s) && float_le (float_of_int 256) (set_docker_cpus s))
  && between 16 4096 (set_docker_pids_limit s) && ((0 <? miner_max_response_bytes s) && (miner_max_response_bytes s <=? 1000000))
  && float_gt f0 (problem_server_request_timeout_s s) && float_gt f0 (problem_server_metagraph_sync_s s)
  && between 1 1024 (validator_dispatch_concurrency s)
  && match validator_grading_concurrency s with Some n => between 1 16 n | None => true end
  && between 1 1024 (validator_send_concurrency s) && between 1 256 (validator_verify_concurrency s)
  && (float_ge f0 (validator_trace_check_rate s) && float_le f1 (validator_trace_check_rate s)) && (0 <=? netuid s).

Definition LEGACY_PROBLEM_SERVER_URLS : list pystr := [ustr "https://dwvoiuahpq8jj.cloudfront.net"].

Definition rstrip_slash (s : pystr) : pystr := rev (drop_while (λ c, (c =? 47)%N) (rev s)).

Definition with_server (s : Settings) (url migrated_from : pystr) : Settings :=
  {| set_solve_deadline_s := set_solve_deadline_s s; set_band_low := set_band_low s; set_band_high := set_band_high s;
     set_difficulty_samples_m := set_difficulty_samples_m s; set_executor := set_executor s;
     set_per_test_timeout_s := set_per_test_timeout_s s; set_docker_image := set_docker_image s;
     set_docker_memory := set_docker_memory s; set_docker_cpus := set_docker_cpus s;
     set_docker_pids_limit := set_docker_pids_limit s; set_reward_partial_credit := set_reward_partial_credit s;
     problem_server_url := url; problem_server_url_migrated_from := migrated_from;
     problem_server_allow_insecure_http := problem_server_allow_insecure_http s;
     miner_max_response_bytes := miner_max_response_bytes s;
     problem_server_request_timeout_s := problem_server_request_timeout_s s;
     problem_server_metagraph_sync_s := problem_server_metagraph_sync_s s;
     validator_dispatch_concurrency := validator_dispatch_concurrency s;
     validator_grading_concurrency := validator_grading_concurrency s;
     validator_send_concurrency := validator_send_concurrency s; validator_verify_concurrency := validator_verify_concurrency s;
     validator_score_state_file := validator_score_state_file s; validator_diagnostics_file := validator_diagnostics_file s;
     validator_failure_notices := validator_failure_notices s;
     validator_failed_check_details := validator_failed_check_details s;
     validator_trace_check_url := validator_trace_check_url s; validator_trace_check_hotkey := validator_trace_check_hotkey s;
     validator_trace_check_rate := validator_trace_check_rate s; dataset_dir := dataset_dir s; netuid := netuid s;
     subtensor_network := subtensor_network s; subtensor_chain_endpoint := subtensor_chain_endpoint s;
     wallet_name := wallet_name s; wallet_hotkey := wallet_hotkey s |}.

Definition validate_ranges (s : Settings) : result Settings :=
  raise_if (fltb (set_band_high s) (set_band_low s)) ValueError "BAND_LOW must be <= BAND_HIGH";;
  mret (if bool_decide (rstrip_slash (problem_server_url s) ∈ LEGACY_PROBLEM_SERVER_URLS)
        then with_server s DEFAULT_PROBLEM_SERVER_URL (problem_server_url s) else s).

(** [Settings()] *)
Definition get_settings (s : Settings) : result Settings :=
  raise_if (negb (Settings_fields s)) ValidationError "1 validation error for Settings";;
  validate_ranges s.

(** ** Stale policy keys *)

Definition RELEASE_POLICY_ENV_KEYS : list pystr :=
  map ustr ["DISPATCH_SUBSET_FRACTION"; "DISPATCH_SUBSET_K"; "DETERMINISM_RUNS"; "PAYMENT_SPEED_FLOOR";
            "PAYMENT_SPEED_HALF_LIFE_MS"; "PROBLEM_MAX_RESPONSE_BYTES"; "ROUND_INTERVAL_BLOCKS"; "SCORE_DECAY_NONRESPONDERS";
            "SCORE_WINDOW_MAX_SAMPLES"; "SCORE_WINDOW_MIN_SAMPLES"; "SCORE_WINDOW_SECONDS"; "VALIDATOR_CHALLENGES_PER_ROUND";
            "VALIDATOR_MIN_WEIGHT_OBSERVATIONS"; "WEIGHTS_INTERVAL_BLOCKS"]%string.

(** [s.split("=", 1)[0]] *)
Fixpoint before_equals (s : pystr) : pystr :=
  match s with
  | [] => []
  | c :: s' => if (c =? 61)%N then [] else c :: before_equals s'
  end.

(** The key a line of the file declares. *)
Definition line_key (raw_line : pystr) : option pystr :=
  let line := strip py_isspace raw_line in
  if bool_decide (line = []) || startswith [35%N] line || negb (bool_decide (61%N ∈ line)) then None
  else
    let key := strip py_isspace (before_equals line) in
    let export := ustr "export " in
    Some (if startswith export key then strip py_isspace (drop (length export) key) else key).

(** [environ]: the names of the variables; [text]: the file, with what reading it raises. *)
Definition ignored_release_policy_keys (environ : gset pystr) (text : result pystr) : list pystr :=
  let from_file := match text with Ok t => omap line_key (str_splitlines t) | Raise _ => [] end in
  sort_by str_le (filter (λ k, k ∈ environ ∨ k ∈ from_file) RELEASE_POLICY_ENV_KEYS).

(** ** The summary of a start *)

Section summary.
Context `{!FloatRepr}.

Definition show_option (n : option Z) : pystr := match n with Some n => str_of_int n | None => ustr "None" end.

(** A label, and the text of the value where it is not the default. *)
Definition safe_settings (s : Settings) : list (string * option pystr) :=
  let d := default_settings in
  let changed {A} `{!EqDecision A} (f : Settings → A) (show : A → pystr) :=
    if bool_decide (f s = f d) then None else Some (show (f s)) in
  [("DOCKER_CPUS", if feqb (set_docker_cpus s) (set_docker_cpus d) then None else Some (float_repr (set_docker_cpus s)));
   ("DOCKER_MEMORY", changed set_docker_memory id);
   ("DOCKER_PIDS_LIMIT", changed set_docker_pids_limit str_of_int);
   ("EXECUTOR", changed set_executor id);
   ("MINER_MAX_RESPONSE_BYTES", changed miner_max_response_bytes str_of_int);
   ("PROBLEM_SERVER_REQUEST_TIMEOUT_S",
    if feqb (problem_server_request_timeout_s s) (problem_server_request_timeout_s d) then None
    else Some (float_repr (problem_server_request_timeout_s s)));
   ("VALIDATOR_DISPATCH_CONCURRENCY", changed validator_dispatch_concurrency str_of_int);
   ("VALIDATOR_GRADING_CONCURRENCY", changed validator_grading_concurrency show_option);
   ("VALIDATOR_SEND_CONCURRENCY", changed validator_send_concurrency str_of_int);
   ("VALIDATOR_VERIFY_CONCURRENCY", changed validator_verify_concurrency str_of_int)]%string.

Definition nondefault_settings_summary (s : Settings) : pystr :=
  join [32%N] (omap (λ '(label, value), (λ v, ustr label ++ [61%N] ++ v) <$> value) (safe_settings s)).
End summary.

(** ** Properties *)

(** (invariant): settings that were accepted are settled: the band is ordered, the address is
    not one of a server that was retired, moving it changed no other setting and
    remembers the old one, and reading the settings again changes nothing. *)
Theorem settings_settle (s s' : Settings) :
  get_settings s = Ok s' →
  get_settings s' = Ok s' ∧ fltb (set_band_high s') (set_band_low s') = false ∧
  (rstrip_slash (problem_server_url s') ∉ LEGACY_PROBLEM_SERVER_URLS) ∧
  (s' = s ∨ rstrip_slash (problem_server_url s) ∈ LEGACY_PROBLEM_SERVER_URLS ∧
            s' = with_server s DEFAULT_PROBLEM_SERVER_URL (problem_server_url s)).
Proof.
  unfold get_settings, validate_ranges. intros [Hf%negb_false_iff [Hb [= Hs]]%guard_Ok]%guard_Ok.
  case_bool_decide as Hl; subst s'.
  - change (Settings_fields (with_server _ _ _)) with (Settings_fields s). rewrite Hf.
    cbn [with_server set_band_high set_band_low problem_server_url negb raise_if mbind result_bind].
    rewrite Hb. cbn [raise_if mbind result_bind].
    assert (Hn : rstrip_slash DEFAULT_PROBLEM_SERVER_URL ∉ LEGACY_PROBLEM_SERVER_URLS)
      by (apply (bool_decide_unpack _); vm_compute; exact I).
    rewrite bool_decide_eq_false_2 by done. split_and!; [done|done|done|by right].
  - rewrite Hf. cbn [negb raise_if mbind result_bind]. rewrite Hb. cbn [raise_if mbind result_bind].
    rewrite bool_decide_eq_false_2 by done. split_and!; [done|done|done|by left].
Qed.

Lemma drop_while_app {A} (p : A → bool) (l t : list A) (c : A) : p c = false → drop_while p (l ++ c :: t) = drop_while p l ++ c :: t.
Proof. intros Hc. induction l as [|x l IH]; cbn [app drop_while]; [by rewrite Hc|]. by destruct (p x). Qed.

Lemma drop_while_prefix {A} (p : A → bool) (l t : list A) : forallb p l = true → drop_while p (l ++ t) = drop_while p t.
Proof. induction l as [|x l IH]; [done|]. cbn [forallb app drop_while]. intros [-> H]%andb_true_iff. by apply IH. Qed.

(** Stripping stops at characters that are no space. *)
Lemma strip_between (p : N → bool) (space left right : pystr) (a b : N) :
  forallb p space = true → p a = false → p b = false →
  strip p (space ++ a :: left ++ b :: right) = a :: left ++ b :: rev (drop_while p (rev right)).
Proof.
  intros Hs Ha Hb. unfold strip. rewrite drop_while_prefix by done. cbn [drop_while]. rewrite Ha.
  change (a :: left ++ b :: right) with ((a :: left) ++ b :: right). rewrite rev_app_distr. cbn [rev].
  rewrite <-!app_assoc. cbn [app]. rewrite drop_while_app by done.
  rewrite rev_app_distr. cbn [rev]. rewrite rev_app_distr. cbn [rev app]. rewrite rev_involutive.
  by rewrite <-!app_assoc.
Qed.

Lemma before_equals_app (s rest : pystr) : (61%N ∉ s) → before_equals (s ++ 61%N :: rest) = s.
Proof.
  induction s as [|c s IH]; [done|]. intros Hn. cbn [app before_equals]. apply not_elem_of_cons in Hn as [Hc Hs].
  rewrite (proj2 (N.eqb_neq _ _)) by done. by rewrite IH.
Qed.

Lemma space_no_equals (s : pystr) : forallb py_isspace s = true → 61%N ∉ s.
Proof. intros Hs Hin. rewrite forallb_forall in Hs. by apply list_elem_of_In, Hs in Hin. Qed.

(** A name that strips to itself and is no assignment. *)
Definition plain_key (k : pystr) : Prop :=
  ∃ a left b, k = a :: left ++ [b] ∧ py_isspace a = false ∧ py_isspace b = false ∧ (61%N ∉ k) ∧ a ≠ 35%N ∧
    startswith (ustr "export ") k = false.

Lemma strip_plain (k pad : pystr) : plain_key k → forallb py_isspace pad = true → strip py_isspace (k ++ pad) = k.
Proof.
  intros (a & left & b & -> & Ha & Hb & _) Hp. cbn [app]. rewrite <-app_assoc.
  pose proof (strip_between py_isspace [] left pad a b eq_refl Ha Hb) as Hs. cbn [app] in Hs. cbn [app]. rewrite Hs.
  rewrite <-(app_nil_r (rev pad)), drop_while_prefix; [done|]. rewrite forallb_forall in *. intros c Hc. apply Hp. by apply in_rev.
Qed.

Lemma line_key_declares (k indent pad value : pystr) (exported : bool) :
  plain_key k → forallb py_isspace indent = true → forallb py_isspace pad = true →
  line_key (indent ++ (if exported then ustr "export " else []) ++ k ++ pad ++ 61%N :: value) = Some k.
Proof.
  intros Hk Hi Hp. pose proof (space_no_equals pad Hp) as Hpe. pose proof Hk as (a & left & b & Heq & Ha & Hb & Hke & Hhash & Hexp).
  set (export := if exported then ustr "export " else []).
  assert (Hline : ∃ c rest value', export ++ k ++ pad = c :: rest ∧ py_isspace c = false ∧ c ≠ 35%N ∧
    strip py_isspace (indent ++ export ++ k ++ pad ++ 61%N :: value) = (export ++ k ++ pad) ++ 61%N :: value').
  { destruct exported; subst export.
    - eexists 101%N, _, _. split; [reflexivity|]. split; [done|]. split; [done|].
      pose proof (strip_between py_isspace indent (tail (ustr "export ") ++ k ++ pad) value 101 61 Hi eq_refl eq_refl) as Hs.
      rewrite <-!app_assoc in Hs. rewrite <-!app_assoc. exact Hs.
    - eexists a, _, _. rewrite Heq. split; [reflexivity|]. split; [done|]. split; [done|].
      pose proof (strip_between py_isspace indent ((left ++ [b]) ++ pad) value a 61 Hi Ha eq_refl) as Hs.
      rewrite <-!app_assoc in Hs. cbn [app] in *. rewrite <-!app_assoc. exact Hs. }
  destruct Hline as (c & rest & value' & Hc & Hspace & Hne & Hstrip). unfold line_key. rewrite Hstrip.
  assert (Hno : 61%N ∉ export ++ k ++ pad).
  { rewrite !elem_of_app. intros [H|[H|H]]; [|done|done]. destruct exported; [|by apply elem_of_nil in H].
    revert H. apply (bool_decide_unpack _). vm_compute. exact I. }
  rewrite before_equals_app by done. rewrite (bool_decide_eq_true_2 (61%N ∈ _)) by (apply elem_of_app; right; left).
  assert (Hfirst : bool_decide ((export ++ k ++ pad) ++ 61%N :: value' = []) = false ∧
    startswith [35%N] ((export ++ k ++ pad) ++ 61%N :: value') = false).
  { rewrite Hc. cbn [app startswith]. by rewrite !bool_decide_eq_false_2 by (try done; congruence). }
  destruct Hfirst as [-> ->]. cbn [orb negb]. cbv zeta.
  destruct exported; subst export.
  - assert (Hs : strip py_isspace (ustr "export " ++ k ++ pad) = ustr "export " ++ k).
    { pose proof (strip_between py_isspace [] (tail (ustr "export ") ++ a :: left) pad 101 b eq_refl eq_refl Hb) as Hs.
      rewrite <-(app_nil_r (rev pad)), drop_while_prefix in Hs.
      - rewrite Heq. cbn [app] in Hs |- *. rewrite <-!app_assoc in Hs. rewrite <-!app_assoc. exact Hs.
      - rewrite forallb_forall in *. intros x Hx. apply Hp. by apply in_rev. }
    rewrite Hs. rewrite (proj2 (startswith_spec _ _)) by (by eexists). rewrite drop_app_length.
    rewrite <-(app_nil_r k) at 1. by rewrite strip_plain.
  - cbn [app]. rewrite strip_plain by done. by rewrite Hexp.
Qed.

Lemma policy_keys_plain (k : pystr) : k ∈ RELEASE_POLICY_ENV_KEYS → plain_key k.
Proof.
  set (check := λ k : pystr, match k, rev k with
    | a :: rest, b :: _ => negb (py_isspace a) && negb (py_isspace b) && bool_decide (61%N ∉ k) && negb (a =? 35)%N
        && negb (startswith (ustr "export ") k) && bool_decide (rest ≠ [])
    | _, _ => false end).
  assert (Hall : forallb check RELEASE_POLICY_ENV_KEYS = true) by (vm_compute; reflexivity).
  rewrite forallb_forall in Hall. intros Hk%list_elem_of_In%Hall. unfold check in Hk. clearbody check.
  destruct k as [|a rest]; [done|]. destruct (rev (a :: rest)) as [|b l] eqn:Hr; [done|].
  rewrite !andb_true_iff, !negb_true_iff, !bool_decide_eq_true, N.eqb_neq in Hk. destruct Hk as [[[[[Ha Hb] He] Hh] Hx] Hne].
  destruct rest as [|x rest _] using rev_ind; [done|]. rewrite app_comm_cons, rev_app_distr in Hr. cbn [rev app] in Hr.
  injection Hr as -> _. by exists a, rest, b.
Qed.

(** (functional): a stale policy key is reported however it is written: any line of the file that
    assigns to it, indented or exported, with any value, is enough; so is a variable of
    the environment, even where the file cannot be read.  Nothing else is reported,
    nothing twice, and in order. *)
Theorem stale_key_reported (environ : gset pystr) (text : result pystr) :
  let reported := ignored_release_policy_keys environ text in
  NoDup reported ∧ Sorted (λ k l, str_le k l = true) reported ∧
  (∀ k, k ∈ reported → k ∈ RELEASE_POLICY_ENV_KEYS) ∧
  ∀ k, k ∈ RELEASE_POLICY_ENV_KEYS →
    k ∈ environ ∨ (∃ t indent pad value (exported : bool), text = Ok t ∧
      forallb py_isspace indent = true ∧ forallb py_isspace pad = true ∧
      indent ++ (if exported then ustr "export " else []) ++ k ++ pad ++ [61%N] ++ value ∈ str_splitlines t) →
    k ∈ reported.
Proof.
  intros reported. unfold reported, ignored_release_policy_keys. set (l := filter _ _). split_and!.
  - rewrite (sort_by_perm str_le l). apply NoDup_filter, (bool_decide_unpack _). vm_compute. exact I.
  - apply sort_by_sorted, str_le_total.
  - intros k Hk. rewrite elem_of_sort_by in Hk. by apply list_elem_of_filter in Hk as [_ Hk].
  - intros k Hk Hd. rewrite elem_of_sort_by. apply list_elem_of_filter. split; [|done].
    destruct Hd as [Hd|(t & indent & pad & value & exported & -> & Hi & Hp & Hin)]; [by left|right].
    apply list_elem_of_omap. eexists. split; [exact Hin|]. apply line_key_declares; [by apply policy_keys_plain|done|done].
Qed.

(** (safety): what start-up prints of the settings tells nothing but the ten machine settings:
    two validators that agree on them print the same, whatever their wallets, addresses
    and paths are; one with the defaults prints nothing. *)
Theorem summary_keeps_secrets `{FR : !FloatRepr} (s t : Settings) :
  set_docker_cpus s = set_docker_cpus t → set_docker_memory s = set_docker_memory t →
  set_docker_pids_limit s = set_docker_pids_limit t → set_executor s = set_executor t →
  miner_max_response_bytes s = miner_max_response_bytes t →
  problem_server_request_timeout_s s = problem_server_request_timeout_s t →
  validator_dispatch_concurrency s = validator_dispatch_concurrency t →
  validator_grading_concurrency s = validator_grading_concurrency t →
  validator_send_concurrency s = validator_send_concurrency t →
  validator_verify_concurrency s = validator_verify_concurrency t →
  nondefault_settings_summary s = nondefault_settings_summary t ∧ nondefault_settings_summary default_settings = [].
Proof.
  intros H1 H2 H3 H4 H5 H6 H7 H8 H9 H10. split; [|by vm_compute].
  unfold nondefault_settings_summary, safe_settings. by rewrite H1, H2, H3, H4, H5, H6, H7, H8, H9, H10.
Qed.

(** ** Witnesses *)

Definition moved_settings : Settings := with_server default_settings (ustr "https://dwvoiuahpq8jj.cloudfront.net//") [].

Lemma settings_settle_witness :
  ∃ s, get_settings moved_settings = Ok s ∧ problem_server_url s = DEFAULT_PROBLEM_SERVER_URL ∧ get_settings s = Ok s.
Proof.
  destruct (get_settings moved_settings) as [s|] eqn:Hs; [|vm_compute in Hs; discriminate Hs].
  exists s. split; [reflexivity|]. split; [|exact (proj1 (settings_settle _ _ Hs))].
  revert Hs. vm_compute. by intros [= <-].
Defined.

Example stale_keys :
  ignored_release_policy_keys {[ustr "PAYMENT_SPEED_FLOOR"; ustr "HOME"]}
    (Ok (join [10%N] (map ustr ["# WEIGHTS_INTERVAL_BLOCKS=1"; " export DISPATCH_SUBSET_K = 3"; "NETUID=5"]%string)))
  = [ustr "DISPATCH_SUBSET_K"; ustr "PAYMENT_SPEED_FLOOR"].
Proof. vm_compute. reflexivity. Qed.

Lemma summary_keeps_secrets_witness :
  nondefault_settings_summary (H := {| float_repr := λ _, [] |}) moved_settings = [].
Proof.
  assert (H := summary_keeps_secrets (FR := {| float_repr := λ _, [] |}) moved_settings default_settings
    eq_refl eq_refl eq_refl eq_refl eq_refl eq_refl eq_refl eq_refl eq_refl eq_refl).
  destruct H as [Heq Hd]. rewrite Heq. exact Hd.
Defined.
