(* ===== verification/Challenge.v ===== *)
(** * Signed solutions and the first wire contract
    ([src/rlvr/problemserver/api.py], [src/rlvr/problemserver/rust_validation.py],
    [src/rlvr/protocol.py], [src/rlvr/problemserver/client.py], [src/rlvr/neurons/live.py])

    The records of the first version of the problem server, the operations of its client
    (the transport is ProblemClient), and [solve_signed], which asks a miner for a
    solution and keeps the exact bytes it signed.  What pydantic and httpx read and
    write is the class [ChallengeJson]; what a dispatch finds is a [SignedEnv].

    ChallengeSpec has the theorems. *)

From Stdlib Require Import SpecFloat.
From S2P Require Import Prelude PyFloat Text Json JsonBytes Framing Canonical Wire Identity Codecs Scoring Api Protocol ProblemClient EvalEngine Executor Runner EvaluateRound Live Writer Config.

Local Open Scope Z_scope.

(** ** Records *)

Definition PROMPT_VARIANT_SPACE : Z := 2 ^ 31.

Definition derive_request_id `{!Sha256} (challenge_id : pystr) (uid : Z) (hotkey : pystr) : result pystr :=
  raw ← utf8_encode (ustr "rlvr-challenge-v1" ++ [0%N] ++ challenge_id ++ [0%N] ++ str_of_int uid ++ [0%N] ++ hotkey);
  mret (hexdigest (sha256 raw)).

(** [^[A-Za-z_][A-Za-z0-9_]*$] *)
Definition entry_start (c : N) : bool := in_range 65 90 c || in_range 97 122 c || (c =? 95)%N.
Definition entry_char (c : N) : bool := entry_start c || is_digit c.
Definition is_entrypoint (s : pystr) : bool :=
  match s with c :: rest => entry_start c && forallb entry_char rest | [] => false end.

Definition is_language (s : pystr) : bool := bool_decide (s = ustr "python") || bool_decide (s = ustr "rust").

Definition list_up_to {A} (n : Z) (l : list A) : bool := zlen l <=? n.

Record PublicChallenge := {
  pc_challenge_id : pystr;
  pc_problem_id : pystr;
  pc_language : pystr;
  pc_statement : pystr;
  pc_entrypoint : pystr;
  pc_public_examples : list TestCase;
  pc_prompt_variant : Z;
  pc_deadline_s : float;
  pc_commit_min_responses : Z;
  pc_commit_min_signed_responses : Z;
  pc_created_at : float;
  pc_expires_at : float
}.

Definition PublicChallenge_fields (c : PublicChallenge) : bool :=
  len_between 1 128 (pc_challenge_id c) && len_between 1 256 (pc_problem_id c) && is_language (pc_language c)
  && len_between 1 500000 (pc_statement c) && len_between 1 256 (pc_entrypoint c) && is_entrypoint (pc_entrypoint c)
  && list_up_to 1000 (pc_public_examples c) && ((0 <=? pc_prompt_variant c) && (pc_prompt_variant c <=? 2 ^ 31 - 1))
  && (float_gt f0 (pc_deadline_s c) && float_le (float_of_int 3600) (pc_deadline_s c))
  && ((1 <=? pc_commit_min_responses c) && (pc_commit_min_responses c <=? 1024))
  && ((1 <=? pc_commit_min_signed_responses c) && (pc_commit_min_signed_responses c <=? 1024))
  && float_ge f0 (pc_created_at c) && float_ge f0 (pc_expires_at c).

(** [to_problem]: what is not given has its default. *)
Definition to_problem (c : PublicChallenge) (tests : list TestCase) : Problem :=
  {| p_id := pc_problem_id c; p_language := pc_language c; p_statement := pc_statement c; p_entrypoint := pc_entrypoint c;
     p_tests := tests; p_public_examples := pc_public_examples c; p_created_at := pc_created_at c;
     p_measured_pass_rate := None; p_band := UNKNOWN; p_num_attempts := 0; p_prompt_variant := pc_prompt_variant c |}.

Definition ChallengeLeaseRequest_fields (request_id : pystr) : bool := len_between 1 128 request_id.

Record V1Submission := {
  v1_uid : Z;
  v1_hotkey : pystr;
  v1_request_id : pystr;
  v1_response_body : pystr;
  v1_response_headers : list (pystr * pystr);
  v1_error : pystr;
  v1_latency_ms : float
}.

Definition V1Submission_fields (s : V1Submission) : bool :=
  (0 <=? v1_uid s) && len_between 1 256 (v1_hotkey s) && len_between 1 256 (v1_request_id s)
  && list_up_to 32 (v1_response_headers s) && list_up_to 4096 (v1_error s) && float_ge f0 (v1_latency_ms s).

Record V1CommitRequest := { v1_challenge_id : pystr; v1_submissions : list V1Submission }.

Definition V1CommitRequest_fields (r : V1CommitRequest) : bool :=
  len_between 1 128 (v1_challenge_id r) && list_up_to 1024 (v1_submissions r) && forallb V1Submission_fields (v1_submissions r).

Record CommitReceipt := { ra_accepted : bool; ra_commit_token : pystr; ra_num_submissions : Z; ra_detail : pystr }.

Definition CommitReceipt_fields (r : CommitReceipt) : bool :=
  list_up_to 128 (ra_commit_token r) && ((0 <=? ra_num_submissions r) && (ra_num_submissions r <=? 1024)) && list_up_to 4096 (ra_detail r).

Record RevealRequest := { rq_challenge_id : pystr; rq_commit_token : pystr }.

Definition RevealRequest_fields (r : RevealRequest) : bool :=
  len_between 1 128 (rq_challenge_id r) && len_between 1 128 (rq_commit_token r).

Record TestReveal := { rv_challenge_id : pystr; rv_language : pystr; rv_tests : list TestCase }.

Definition TestReveal_fields (r : TestReveal) : bool :=
  len_between 1 128 (rv_challenge_id r) && is_language (rv_language r) && list_up_to 1000 (rv_tests r).

Record V1Verdict := { vd_uid : Z; vd_hotkey : pystr; vd_passed : bool }.

Record ChallengeFeedback := {
  cb_challenge_id : pystr;
  cb_pass_rate : float;
  cb_band : DifficultyBand;
  cb_num_responses : Z;
  cb_dup_ratio : float;
  cb_verdicts : list V1Verdict
}.

Definition unit_interval (x : float) : bool := float_ge f0 x && float_le f1 x.

Definition ChallengeFeedback_fields (f : ChallengeFeedback) : bool :=
  len_between 1 128 (cb_challenge_id f) && unit_interval (cb_pass_rate f) && (0 <=? cb_num_responses f)
  && unit_interval (cb_dup_ratio f) && list_up_to 1024 (cb_verdicts f)
  && forallb (λ v, (0 <=? vd_uid v) && len_between 1 256 (vd_hotkey v)) (cb_verdicts f).

Record TaskRequest := {
  tr_problem_id : pystr;
  tr_language : pystr;
  tr_statement : pystr;
  tr_entrypoint : pystr;
  tr_public_examples : list TestCase;
  tr_deadline_s : float;
  tr_prompt_variant : Z
}.

Definition TaskRequest_fields (t : TaskRequest) : bool :=
  len_between 1 256 (tr_problem_id t) && is_language (tr_language t) && len_between 1 500000 (tr_statement t)
  && len_between 1 256 (tr_entrypoint t) && is_entrypoint (tr_entrypoint t) && list_up_to 1000 (tr_public_examples t)
  && (float_gt f0 (tr_deadline_s t) && float_le (float_of_int 3600) (tr_deadline_s t))
  && ((0 <=? tr_prompt_variant t) && (tr_prompt_variant t <=? PROMPT_VARIANT_SPACE - 1)).

Record SolutionPayload := { sp_problem_id : pystr; sp_code : pystr; sp_raw_response : pystr }.

Definition SolutionPayload_fields (p : SolutionPayload) : bool := len_between 1 256 (sp_problem_id p).

Record SignedSolution := {
  ss_response_body : pystr;
  ss_response_headers : list (pystr * pystr);
  ss_error : pystr;
  ss_latency_ms : float;
  ss_responded : bool;
  ss_signed_age_s : option float
}.

Class ChallengeJson := {
  read_challenge : bytes → result PublicChallenge;   (* PublicChallenge.model_validate_json *)
  read_receipt : bytes → result CommitReceipt;
  read_tests : bytes → result TestReveal;
  read_payload : bytes → result SolutionPayload;
  dump_lease : pystr → pystr;                        (* the request id *)
  dump_commit : V1CommitRequest → pystr;
  dump_reveal : RevealRequest → pystr;
  dump_feedback : ChallengeFeedback → pystr;
  dump_task_request : TaskRequest → pystr
}.

(** ** Tests of a Rust challenge (rust_validation.py) *)

Definition MAX_STDIN_BYTES : Z := 65536.
Definition MAX_EXPECTED_BYTES : Z := 32768.

Definition validate_rust_test (case : TestCase) : result unit :=
  match args case with
  | [PStr stdin] =>
      raise_if (negb (bool_decide (kwargs case = []))) ValueError "Rust tests do not support keyword arguments";;
      match expected case with
      | PStr out =>
          raw ← utf8_encode stdin;
          raise_if (MAX_STDIN_BYTES <? zlen raw) ValueError "Rust test stdin exceeds 65536 bytes";;
          raw ← utf8_encode out;
          raise_if (MAX_EXPECTED_BYTES <? zlen raw) ValueError "Rust expected stdout exceeds 32768 bytes"
      | _ => raise ValueError "Rust expected stdout must be a string"
      end
  | _ => raise ValueError "Rust tests require exactly one string stdin argument"
  end.

Definition validate_rust_tests (cases : list TestCase) (require_nonempty : bool) : result unit :=
  raise_if (require_nonempty && bool_decide (zlen cases = 0)) ValueError "Rust challenge requires at least one test";;
  raise_if (100 <? zlen cases) ValueError "Rust challenge exceeds the 100-test limit";;
  for_each validate_rust_test cases.

(** ** The client (client.py) *)

(** [urlsplit]: the scheme and the network location. *)
Class UrlSplit := { urlsplit : pystr → result (pystr * pystr) }.

Definition require_secure_problem_url `{!UrlSplit} (url : pystr) (allow_insecure_http : bool) : result unit :=
  '(scheme, netloc) ← urlsplit url;
  let located := negb (bool_decide (netloc = [])) in
  raise_if (negb (bool_decide (scheme = ustr "https") && located
                  || allow_insecure_http && bool_decide (scheme = ustr "http") && located)) ValueError
    "PROBLEM_SERVER_URL must use https://; set PROBLEM_SERVER_ALLOW_INSECURE_HTTP=true only for local testing".

(** The address, the retries and the bound of a response. *)
Definition ProblemServerClient_init `{!UrlSplit} (url : pystr) (allow_insecure_http : bool) (retries max_response_bytes : Z)
    : result (pystr * Z * Z) :=
  require_secure_problem_url url allow_insecure_http;;
  mret (rstrip_slash url, Z.max 1 retries, Z.max 1 max_response_bytes).

Record LeaseOutcome := {
  le_category : LeaseCategory;
  le_challenge : option PublicChallenge;
  le_status : option Z;
  le_detail : pystr;
  le_retry_after_s : option Z;
  le_from_prior : bool;
  le_transport_error : pystr;
  le_detail_is_server : bool
}.

Definition leased (o : LeaseOutcome) : bool := bool_decide (is_Some (le_challenge o)).

Definition category_reason (c : LeaseCategory) : pystr :=
  ustr match c with
  | LEASED => "challenge leased" | EMPTY => "problem source has no challenge available"
  | PACED => "lease paced by the problem source" | DENIED => "validator not authorized to lease"
  | REJECTED => "problem source rejected the lease request" | UNAVAILABLE => "problem source could not serve the lease"
  | TRANSPORT => "problem source unreachable" | MALFORMED => "problem source returned an unusable challenge"
  end.

Definition describe (o : LeaseOutcome) : pystr :=
  join (ustr "; ")
    ([category_reason (le_category o)]
     ++ match le_status o with
        | Some status =>
            [(match le_transport_error o with [] => ustr "HTTP" | _ => ustr "last HTTP" end) ++ [32%N] ++ str_of_int status]
        | None => []
        end
     ++ match le_retry_after_s o with
        | Some s => [ustr "retry after " ++ str_of_int s ++ ustr "s" ++ (if le_from_prior o then ustr " (from an earlier response)" else [])]
        | None => []
        end
     ++ (if negb (bool_decide (le_detail o = [])) && negb (bool_decide (le_detail o = le_transport_error o))
         then [(if le_detail_is_server o then ustr "server said" else ustr "detail") ++ ustr ": " ++ le_detail o] else [])
     ++ match le_transport_error o with [] => [] | e => [ustr "transport error: " ++ e] end).

Section client.
Context `{!UnicodeData, !Sha256, !WireJson, !ChallengeJson}.
Context (retries max_response_bytes : Z) (server : pystr → bytes → Z → result Answer).

Definition post_to (path : string) (body : bytes) : PostOutcome := post_result retries max_response_bytes (server (ustr path) body).
Definition post_v1 (path : string) (body : bytes) : option Response := post retries max_response_bytes (server (ustr path) body).

(** [challenge_id], a fresh UUID, is the request. *)
Definition lease_v1 (request_id : pystr) : result LeaseOutcome :=
  request ← model_validate ChallengeLeaseRequest_fields (λ _, Ok ()) request_id;
  body ← utf8_encode (dump_lease request);
  let outcome := post_to "/v1/challenges/lease" body in
  match po_response outcome with
  | None =>
      let error := bounded_detail (po_transport_error outcome) in
      mret {| le_category := TRANSPORT; le_challenge := None; le_status := None; le_detail := error; le_retry_after_s := None;
              le_from_prior := false; le_transport_error := error; le_detail_is_server := false |}
  | Some response =>
      let status := rsp_status response in
      retry_after ← match po_retry_after_s outcome with
                    | Some s => mret (Some s)
                    | None => parse_retry_after (rsp_retry_after response)
                    end;
      let o category challenge detail prior transport_error is_server :=
        mret {| le_category := category; le_challenge := challenge; le_status := Some status; le_detail := detail;
                le_retry_after_s := retry_after; le_from_prior := prior; le_transport_error := transport_error;
                le_detail_is_server := is_server |} in
      let prior := po_retry_after_from_prior outcome in
      let protocol_error := po_protocol_error outcome in
      let no_protocol_error := bool_decide (protocol_error = []) in
      if negb (bool_decide (po_transport_error outcome = [])) then
        o TRANSPORT None (if no_protocol_error then response_detail response else protocol_error) prior
          (bounded_detail (po_transport_error outcome)) no_protocol_error
      else if negb no_protocol_error then
        o (if status =? 200 then MALFORMED else status_category status) None protocol_error prior [] false
      else if negb (status =? 200) then o (status_category status) None (response_detail response) prior [] true
      else
        match (c ← read_challenge (rsp_content response); model_validate PublicChallenge_fields (λ _, Ok ()) c) with
        | Raise e => o MALFORMED None (bounded_detail (exn_msg e)) false [] false
        | Ok challenge => o LEASED (Some challenge) [] prior [] true
        end
  end.

Definition commit_v1 (challenge_id : pystr) (submissions : list V1Submission) : result (option CommitReceipt) :=
  request ← model_validate V1CommitRequest_fields (λ _, Ok ()) {| v1_challenge_id := challenge_id; v1_submissions := submissions |};
  body ← utf8_encode (dump_commit request);
  mret (response ← post_v1 "/v1/challenges/commit" body;
        result_to_option (r ← read_receipt (rsp_content response); model_validate CommitReceipt_fields (λ _, Ok ()) r)).

Definition reveal_v1 (challenge_id commit_token : pystr) : result (option TestReveal) :=
  request ← model_validate RevealRequest_fields (λ _, Ok ()) {| rq_challenge_id := challenge_id; rq_commit_token := commit_token |};
  body ← utf8_encode (dump_reveal request);
  mret (response ← post_v1 "/v1/challenges/reveal" body;
        if negb (rsp_status response =? 200) then None
        else result_to_option (r ← read_tests (rsp_content response); model_validate TestReveal_fields (λ _, Ok ()) r)).

(** [bool(response.json().get("accepted"))]; an exception is [False]. *)
Definition feedback_v1 (f : ChallengeFeedback) : result bool :=
  body ← utf8_encode (dump_feedback f);
  mret match post_v1 "/v1/challenges/feedback" body with
       | Some response =>
           (rsp_status response =? 200)
           && match loads_bytes (rsp_content response) with
              | Ok (PDict members) =>
                  match member "accepted" members with Some v => is_truthy v | None => false end
              | _ => false
              end
       | None => false
       end.
End client.

(** ** A signed solution (live.py, protocol.py) *)

Record SignedEnv := {
  se_sign_time : Z;
  se_sign_uuid : pystr;
  se_exchange : result MinerReply;
  se_verify_time : Z;
  se_started : bool;           (* the exchange, or its request body, was there in time *)
  se_streamed : bool;          (* the request iterator was started *)
  se_latency_ms : float;
  se_signed_age_s : float;
  se_age_text : pystr          (* the age with three decimals *)
}.

Section signed.
Context `{!UnicodeData, !Sha256, !Keypair, !UnicodeDigits, !ChallengeJson}.
Context (client : LiveSolverClient) (env : SignedEnv) (solve_deadline_s : float) (miner_max_response_bytes : Z).

Definition signed_failure (error : pystr) (responded : bool) (age : option float) : SignedSolution :=
  {| ss_response_body := []; ss_response_headers := []; ss_error := error; ss_latency_ms := se_latency_ms env;
     ss_responded := responded; ss_signed_age_s := age |}.

Definition signed_task_request (p : Problem) (request_id : pystr) : TaskRequest :=
  {| tr_problem_id := request_id; tr_language := p_language p; tr_statement := p_statement p; tr_entrypoint := p_entrypoint p;
     tr_public_examples := p_public_examples p; tr_deadline_s := solve_deadline_s; tr_prompt_variant := p_prompt_variant p |}.

(** A response with status 200. *)
Definition accept_signed (request_id signed_by : pystr) (reply : MinerReply) : result SignedSolution :=
  body ← read_bounded_response reply (Z.max 1 miner_max_response_bytes);
  match body with
  | None => mret (signed_failure (ustr "<miner response exceeds byte limit>") true None)
  | Some body =>
      let hs := kept_headers reply in
      authentic ←
        (if bool_decide (dict_lookup hs (ustr "Epistula-Signed-By") = Some (lc_hotkey client))
         then verify_signature (dict_lookup hs) body ALLOWED_DELTA_MS (se_verify_time env) (Some signed_by)
         else mret false);
      if negb authentic then mret (signed_failure (ustr "<invalid or unauthenticated miner response>") true None)
      else
        payload ← (p ← read_payload body; model_validate SolutionPayload_fields (λ _, Ok ()) p);
        if negb (bool_decide (sp_problem_id payload = request_id)) then
          mret (signed_failure (ustr "<miner response request-id mismatch>") true None)
        else
          text ← utf8_decode body;
          mret {| ss_response_body := text; ss_response_headers := hs; ss_error := []; ss_latency_ms := se_latency_ms env;
                  ss_responded := true; ss_signed_age_s := None |}
  end.

Definition refuse_signed (reply : MinerReply) : result SignedSolution :=
  let status := reply_status reply in
  let age := if status =? 401 then Some (se_signed_age_s env) else None in
  error_body ← read_bounded_response reply 512;
  let detail := match error_body with Some b => take 200 (decode_replace b) | None => ustr "<oversized error response>" end in
  let detail := match age with
                | Some _ => detail ++ ustr " (rejected " ++ se_age_text env ++ ustr "s after signing)"
                | None => detail
                end in
  mret (signed_failure (ustr "HTTP " ++ str_of_int status ++ ustr ": " ++ detail) true age).

Definition signed_exchange (request_id signed_by : pystr) : SignedSolution :=
  let failed (e : exn) (responded : bool) := signed_failure (ustr "<dispatch error: " ++ exn_msg e ++ ustr ">") responded None in
  match se_exchange env with
  | Raise e => failed e false
  | Ok reply =>
      match (if negb (reply_status reply =? 200) then refuse_signed reply else accept_signed request_id signed_by reply) with
      | Ok s => s
      | Raise e => failed e true
      end
  end.

(** The solution, and how often the permit of the send gate is released. *)
Definition solve_signed (p : Problem) (request_id : pystr) : result (SignedSolution * nat) :=
  req ← model_validate TaskRequest_fields (λ _, Ok ()) (signed_task_request p request_id);
  body ← utf8_encode (dump_task_request req);
  match sign_message (lc_wallet client) body (Some (lc_hotkey client)) (se_sign_time env) (se_sign_uuid env) with
  | Raise e => mret (signed_failure (ustr "<dispatch error: " ++ exn_msg e ++ ustr ">") false None, 1%nat)
  | Ok _ =>
      mret (if se_started env then signed_exchange request_id (keypair_address (lc_wallet client))
            else signed_failure (ustr "<request body did not reach transport before signature deadline>") false None,
            if se_streamed env then 2%nat else 1%nat)
  end.

(** [to_solution]: pydantic reads the text as its UTF-8 bytes. *)
Definition to_solution (s : SignedSolution) (canonical_problem_id : pystr) : SolutionResponse :=
  let solution code raw :=
    {| s_problem_id := canonical_problem_id; code := code; raw_response := raw; latency_ms := ss_latency_ms s |} in
  if negb (bool_decide (ss_error s = [])) || bool_decide (ss_response_body s = []) then
    solution [] (match ss_error s with [] => ustr "<empty miner response>" | e => e end)
  else
    match (raw ← utf8_encode (ss_response_body s); p ← read_payload raw; model_validate SolutionPayload_fields (λ _, Ok ()) p) with
    | Ok p => solution (sp_code p) (sp_raw_response p)
    | Raise e => solution [] (ustr "<invalid signed miner response: " ++ exn_msg e ++ ustr ">")
    end.

Definition solve (p : Problem) (request_id : pystr) : result SolutionResponse :=
  '(artifact, _) ← solve_signed p request_id;
  mret (to_solution artifact (p_id p)).
End signed.
