(* ===== verification/ChallengeSpec.v ===== *)
(** * What a signed solution and a leased challenge promise

    [rust_tests_spec]: the tests of a Rust challenge that are accepted.  [lease_v1_sound]:
    a challenge comes from a valid answer.  [solved_code_signed]: code that is judged was
    signed by the miner it is judged for. *)

From Stdlib Require Import SpecFloat.
From S2P Require Import Prelude PyFloat Text Json JsonBytes Framing Canonical CanonicalSpec Wire Identity Codecs Scoring Api ApiSpec Protocol ProtocolSpec ProblemClient EvalEngine Executor Runner EvaluateRound Live Writer Orchestrator OrchestratorSpec Challenge.

Local Open Scope Z_scope.

(** ** Tests of a Rust challenge *)

(** One text on the standard input, one text expected, both of a bounded size. *)
Definition rust_test (case : TestCase) : Prop :=
  ∃ (stdin out : pystr) (raw_in raw_out : bytes),
    args case = [PStr stdin] ∧ kwargs case = [] ∧ expected case = PStr out ∧
    utf8_encode stdin = Ok raw_in ∧ zlen raw_in <= 65536 ∧ utf8_encode out = Ok raw_out ∧ zlen raw_out <= 32768.

Lemma raise_if_unit (b : bool) (e : exn_class) (m : string) : raise_if b e m = Ok () ↔ b = false.
Proof. by destruct b. Qed.

Lemma validate_rust_test_Ok (case : TestCase) : validate_rust_test case = Ok () ↔ rust_test case.
Proof.
  unfold validate_rust_test, rust_test. split.
  - destruct (args case) as [|[| | | |stdin| | |] [|]]; try done. intros [Hk H]%guard_Ok.
    apply negb_false_iff, bool_decide_eq_true in Hk. destruct (expected case) as [| | | |out| | |]; try done.
    apply bind_Ok in H as (raw & Hr & [Hz%Z.ltb_ge (raw' & Hr' & Hz')%bind_Ok]%guard_Ok).
    apply raise_if_unit, Z.ltb_ge in Hz'. by exists stdin, out, raw, raw'.
  - intros (stdin & out & r & r' & -> & -> & -> & Hr & Hz & Hr' & Hz'). cbn [bool_decide negb raise_if mbind result_bind].
    rewrite Hr. cbn [mbind result_bind]. unfold MAX_STDIN_BYTES, MAX_EXPECTED_BYTES. rewrite (proj2 (Z.ltb_ge _ _) Hz).
    cbn [raise_if mbind result_bind]. rewrite Hr'. cbn [mbind result_bind]. by rewrite (proj2 (Z.ltb_ge _ _) Hz').
Qed.

Lemma for_each_unit {A} (f : A → result unit) (l : list A) : for_each f l = Ok () ↔ Forall (λ x, f x = Ok ()) l.
Proof.
  induction l as [|x l IH]; cbn [for_each]; [by split|]. rewrite Forall_cons. split.
  - intros [H1 H2]%seq_Ok. by apply IH in H2.
  - intros [-> H]. by apply IH in H.
Qed.

(** (equivalence): the tests of a Rust challenge are accepted exactly when there are at most 100
    (and one where one is required), each with one text of at most 64 KiB on the standard
    input and one text of at most 32 KiB expected. *)
Theorem rust_tests_spec (cases : list TestCase) (require_nonempty : bool) :
  validate_rust_tests cases require_nonempty = Ok () ↔
  (require_nonempty = true → cases ≠ []) ∧ zlen cases <= 100 ∧ ∀ case, case ∈ cases → rust_test case.
Proof.
  unfold validate_rust_tests. split.
  - intros [Hn [Hz%Z.ltb_ge Hf%for_each_unit]%guard_Ok]%guard_Ok. rewrite Forall_forall in Hf.
    split_and!; [|done|by intros c Hc; apply validate_rust_test_Ok, Hf].
    intros -> ->. done.
  - intros (Hn & Hz & Hf). assert (Hb : require_nonempty && bool_decide (zlen cases = 0) = false).
    { destruct require_nonempty; [|done]. apply bool_decide_eq_false. intros H0. apply Hn; [done|].
      unfold zlen in H0. apply length_zero_iff_nil. lia. }
    rewrite Hb, (proj2 (Z.ltb_ge _ _) Hz). cbn [raise_if mbind result_bind]. apply for_each_unit, Forall_forall.
    intros c Hc. by apply validate_rust_test_Ok, Hf.
Qed.

(** ** Leasing a challenge *)

Section client.
Context `{UD : !UnicodeData, SH : !Sha256, WJ : !WireJson, CJ : !ChallengeJson}.
Context (retries max_response_bytes : Z) (server : pystr → bytes → Z → result Answer).

(** (safety): the lease has a challenge exactly when its category says so, and then it is
    one that passed its validation, from an answer with status 200, whole and without a
    transport error. *)
Theorem lease_v1_sound (request_id : pystr) (o : LeaseOutcome) :
  lease_v1 retries max_response_bytes server request_id = Ok o →
  leased o = bool_decide (le_category o = LEASED) ∧
  ∀ c, le_challenge o = Some c →
    model_validate PublicChallenge_fields (λ _, Ok ()) c = Ok c ∧ le_status o = Some 200 ∧ le_transport_error o = [].
Proof.
  unfold lease_v1, leased. intros (q & _ & (body & _ & H)%bind_Ok)%bind_Ok.
  destruct (po_response _) as [r|]; [|by injection H as <-]. apply bind_Ok in H as (ra & _ & H).
  assert (Hcat : ∀ s, status_category s ≠ LEASED).
  { intros s. unfold status_category. by repeat case_match. }
  destruct (negb _); [by injection H as <-|]. destruct (negb _).
  { injection H as <-. cbn [le_challenge le_category]. split; [|done]. symmetry. apply bool_decide_eq_false.
    case_match; [done|apply Hcat]. }
  destruct (rsp_status r =? 200) eqn:Hst; cbn [negb] in H.
  2:{ injection H as <-. cbn [le_challenge le_category]. split; [|done]. symmetry. apply bool_decide_eq_false, Hcat. }
  apply Z.eqb_eq in Hst. destruct (read_challenge _ ≫= _) as [c|e] eqn:Hc; injection H as <-; [|done].
  split; [done|]. intros c' [= <-]. apply bind_Ok in Hc as (c' & _ & Hv).
  pose proof (proj1 (model_validate_Ok _ _ _ _) Hv) as (_ & _ & ->). cbn [le_status le_transport_error]. by rewrite Hst.
Qed.
End client.

(** ** A signed solution *)

Section signed.
Context `{UD : !UnicodeData, SH : !Sha256, KP : !Keypair, UG : !UnicodeDigits, CJ : !ChallengeJson}.
Context (client : LiveSolverClient) (env : SignedEnv) (solve_deadline_s : float) (limit : Z).

(** A body the miner [hotkey] signed for the validator, when it was verified. *)
Definition signed_body (hotkey : pystr) (validator : Hotkey) (now : Z) (hs : list (pystr * pystr)) (body : bytes) : Prop :=
  zlen body <= Z.max 1 limit ∧ dict_lookup hs (ustr "Epistula-Signed-By") = Some hotkey ∧
  verify_signature (dict_lookup hs) body ALLOWED_DELTA_MS now (Some (keypair_address validator)) = Ok true.

(** The solution [payload] of the request is in a body the miner signed. *)
Definition signed_payload (request_id : pystr) (payload : SolutionPayload) : Prop :=
  ∃ hs body, signed_body (lc_hotkey client) (lc_wallet client) (se_verify_time env) hs body ∧
    read_payload body = Ok payload ∧ sp_problem_id payload = request_id.

(** A solution without an error is one that was accepted. *)
Definition artifact_ok (request_id : pystr) (s : SignedSolution) : Prop :=
  ss_error s = [] → ∃ body payload, utf8_decode body = Ok (ss_response_body s) ∧
    signed_body (lc_hotkey client) (lc_wallet client) (se_verify_time env) (ss_response_headers s) body ∧
    read_payload body = Ok payload ∧ sp_problem_id payload = request_id.

Lemma failure_ok (request_id error : pystr) (responded : bool) (age : option float) :
  error ≠ [] → artifact_ok request_id (signed_failure env error responded age).
Proof. by intros H ?. Qed.

Lemma accept_signed_ok (request_id : pystr) (reply : MinerReply) (s : SignedSolution) :
  accept_signed client env limit request_id (keypair_address (lc_wallet client)) reply = Ok s → artifact_ok request_id s.
Proof.
  unfold accept_signed. intros ([body|] & Hread & H)%bind_Ok; [|injection H as <-; by apply failure_ok].
  apply bind_Ok in H as (auth & Hauth & H). destruct auth; cbn [negb] in H; [|injection H as <-; by apply failure_ok].
  case_bool_decide as Hby; [|done]. apply bind_Ok in H as (payload & (q & Hq & Hv)%bind_Ok & H).
  pose proof (proj1 (model_validate_Ok _ _ _ _) Hv) as (_ & _ & ->).
  destruct (bool_decide (sp_problem_id q = request_id)) eqn:Hid; cbn [negb] in H; [|injection H as <-; by apply failure_ok].
  apply bool_decide_eq_true in Hid. apply bind_Ok in H as (text & Ht & [= <-]). intros _. exists body, q.
  cbn [ss_response_body ss_response_headers]. split_and!; [done| |done|done].
  split_and!; [|done|done]. eapply read_bounded_size; [|exact Hread]. lia.
Qed.

Lemma signed_exchange_ok (request_id : pystr) :
  artifact_ok request_id (signed_exchange client env limit request_id (keypair_address (lc_wallet client))).
Proof.
  unfold signed_exchange. destruct (se_exchange env) as [reply|e]; [|by apply failure_ok].
  destruct (negb (reply_status reply =? 200)).
  - destruct (refuse_signed env reply) as [s|e] eqn:Hr; [|by apply failure_ok]. unfold refuse_signed in Hr.
    apply bind_Ok in Hr as (b & _ & [= <-]). by apply failure_ok.
  - destruct (accept_signed _ _ _ _ _ _) as [s|e] eqn:Ha; [by eapply accept_signed_ok|by apply failure_ok].
Qed.

Lemma to_solution_code (s : SignedSolution) (request_id problem_id : pystr) :
  artifact_ok request_id s → code (to_solution s problem_id) ≠ [] →
  ∃ payload, signed_payload request_id payload ∧ code (to_solution s problem_id) = sp_code payload.
Proof.
  intros Hs. unfold to_solution. destruct (bool_decide (ss_error s = [])) eqn:He; cbn [negb orb]; [|done].
  apply bool_decide_eq_true in He. destruct (Hs He) as (body & payload & Hd & Hb & Hr & Hid).
  destruct (bool_decide (ss_response_body s = [])); [done|]. rewrite (utf8_encode_decode _ _ Hd). cbn [mbind result_bind].
  rewrite Hr. cbn [mbind result_bind]. destruct (model_validate _ _ payload) as [p|e] eqn:Hv; [|done].
  pose proof (proj1 (model_validate_Ok _ _ _ _) Hv) as (_ & _ & ->). cbn [code]. intros _. exists payload. split; [|done].
  by exists (ss_response_headers s), body.
Qed.

Lemma solve_code (p : Problem) (request_id : pystr) (s : SolutionResponse) :
  Challenge.solve client env solve_deadline_s limit p request_id = Ok s →
  code s ≠ [] → ∃ payload, signed_payload request_id payload ∧ code s = sp_code payload.
Proof.
  unfold Challenge.solve. intros ([artifact n] & Ha & [= <-])%bind_Ok. apply to_solution_code.
  unfold solve_signed in Ha. apply bind_Ok in Ha as (req & _ & (body & _ & Ha)%bind_Ok).
  destruct (sign_message _ _ _ _ _) as [hs|e]; [|injection Ha as <- _; by apply failure_ok].
  injection Ha as <- _. destruct (se_started env); [apply signed_exchange_ok|by apply failure_ok].
Qed.
End signed.

(** ** Judging signed solutions *)

Lemma attempt_solution (solve : Solver → Problem → pystr → Awaited SolutionResponse)
    (verifier : Problem → SolutionResponse → Awaited Verification) (s : Solver) (p : Problem) (prompt : pystr) (o : MinerOutcome) :
  attempt_one solve verifier s p prompt = Returned o → code (solution o) ≠ [] →
  solve s p prompt = Returned (solution o) ∧ uid o = sv_uid s ∧ hotkey o = sv_hotkey s.
Proof.
  unfold attempt_one. intros H Hc. destruct (solve s p prompt) as [x|e|e|e]; [| |done..];
    (destruct (verifier p _) as [v|e'|e'|e'] in H; [| |done..]); injection H as <-; done.
Qed.

Section judged.
Context `{UD : !UnicodeData, SH : !Sha256, KP : !Keypair, UG : !UnicodeDigits, CJ : !ChallengeJson, FR : !FloatRepr}.
Context (wallet : Hotkey) (envs : Solver → SignedEnv) (solve_deadline_s : float) (limit : Z).

(** The client of a solver. *)
Definition live_client (s : Solver) : LiveSolverClient :=
  {| lc_uid := sv_uid s; lc_hotkey := sv_hotkey s; lc_wallet := wallet |}.

(** The awaited call of [solve]; its requests have the ids [ids]. *)
Definition live_solve (ids : Solver → pystr) (s : Solver) (p : Problem) (prompt : pystr) : Awaited SolutionResponse :=
  match Challenge.solve (live_client s) (envs s) solve_deadline_s limit p (ids s) with
  | Ok x => Returned x
  | Raise e => Failed (exn_msg e)
  end.

(** (safety): code is judged for a miner only when that miner wrote it: whatever the network
    and the other miners do, the code an outcome stands with was in a body of bounded
    size that carries the request of this dispatch, signed by the hotkey of that very
    solver for this validator. *)
Theorem solved_code_signed (ids : Solver → pystr) (verifier : Problem → SolutionResponse → Awaited Verification)
    (st : OrchestratorSettings) (p p' : Problem) (solvers : list Solver) (cr : ChallengeResult) (o : MinerOutcome) :
  evaluate (live_solve ids) verifier st p solvers = Ok (cr, p') → o ∈ cr_outcomes cr → code (solution o) ≠ [] →
  ∃ s payload hs body, s ∈ solvers ∧ uid o = sv_uid s ∧ hotkey o = sv_hotkey s ∧
    signed_body limit (sv_hotkey s) wallet (se_verify_time (envs s)) hs body ∧
    read_payload body = Ok payload ∧ sp_problem_id payload = ids s ∧ code (solution o) = sp_code payload.
Proof.
  unfold evaluate. intros (prompt & _ & (raw & Hraw & [= <- _])%bind_Ok)%bind_Ok. cbn [cr_outcomes].
  apply gather_attempts_Ok in Hraw as [-> _].
  intros [Ho|Ho]%elem_of_app Hc; apply list_elem_of_omap in Ho as ([s a] & Hin & Ho);
    apply list_elem_of_fmap in Hin as (s' & Heq & Hs'); injection Heq as -> ->.
  2:{ destruct (attempt_one _ _ s' p prompt); [done| | |done]; by injection Ho as <-. }
  destruct (attempt_one _ _ s' p prompt) as [x|e|e|e] eqn:Ha; [|done..]. injection Ho as ->.
  destruct (attempt_solution _ _ _ _ _ _ Ha Hc) as (Hsol & -> & ->). unfold live_solve in Hsol.
  destruct (Challenge.solve _ _ _ _ _ _) as [sol|e] eqn:Hsolve; [|done]. injection Hsol as ->.
  destruct (solve_code _ _ _ _ _ _ _ Hsolve Hc) as (payload & (hs & body & Hb & Hr & Hid) & Hcode).
  by exists s', payload, hs, body.
Qed.
End judged.

(** ** Witnesses *)

Definition demo_challenge : PublicChallenge :=
  {| pc_challenge_id := ustr "c"; pc_problem_id := ustr "p"; pc_language := ustr "python"; pc_statement := ustr "add";
     pc_entrypoint := ustr "f"; pc_public_examples := []; pc_prompt_variant := 0; pc_deadline_s := float_of_int 300;
     pc_commit_min_responses := 1; pc_commit_min_signed_responses := 1; pc_created_at := f0; pc_expires_at := f0 |}.

(** The body of a demonstration names the request [r1] and has the code [f]. *)
Definition demo_wire : ChallengeJson :=
  {| read_challenge := λ _, Ok demo_challenge; read_receipt := λ _, raise ValidationError "1 validation error";
     read_tests := λ _, raise ValidationError "1 validation error";
     read_payload := λ _, Ok {| sp_problem_id := ustr "r1"; sp_code := ustr "f"; sp_raw_response := [] |};
     dump_lease := λ _, []; dump_commit := λ _, []; dump_reveal := λ _, []; dump_feedback := λ _, [];
     dump_task_request := λ _, ustr "{}" |}.

Lemma lease_v1_sound_witness :
  ∃ o, lease_v1 (H := ascii_unicode) (H1 := no_json) (H2 := demo_wire) 2 10 (λ _ _, one_answer) (ustr "r1") = Ok o ∧
    leased o = true ∧ le_status o = Some 200.
Proof.
  destruct (lease_v1 (H := ascii_unicode) (H1 := no_json) (H2 := demo_wire) 2 10 (λ _ _, one_answer) (ustr "r1")) as [o|] eqn:Ho;
    [|vm_compute in Ho; discriminate Ho].
  exists o. split; [reflexivity|].
  destruct (lease_v1_sound (UD := ascii_unicode) (WJ := no_json) (CJ := demo_wire) 2 10 (λ _ _, one_answer) (ustr "r1") o Ho) as [Hl Hc].
  vm_compute in Ho. injection Ho as <-. split; [reflexivity|]. exact (proj1 (proj2 (Hc _ eq_refl))).
Defined.

(** The miner [a] answers with a body it signed for [val]. *)
Definition demo_signed (s : Solver) : SignedEnv :=
  {| se_sign_time := 500000; se_sign_uuid := ustr "u1";
     se_exchange :=
       hs ← sign_message (H := sha_const) (H0 := no_keypair) (HotkeyName (ustr "a")) (bstr "{}")
              (Some (ustr "val")) 510000 (ustr "u2");
       mret {| reply_status := 200; reply_header := dict_lookup hs; reply_chunks := [bstr "{"; bstr "}"];
               reply_error := None |};
     se_verify_time := 510500; se_started := true; se_streamed := true; se_latency_ms := f1; se_signed_age_s := f0;
     se_age_text := [] |}.

Definition demo_solvers : list Solver := [{| sv_uid := 1; sv_hotkey := ustr "a" |}; {| sv_uid := 2; sv_hotkey := ustr "b" |}].

Definition demo_evaluate : result (ChallengeResult * Problem) :=
  evaluate (H := {| float_repr := λ _, [] |})
    (live_solve (SH := sha_const) (KP := no_keypair) (UG := no_digits) (CJ := demo_wire) (HotkeyName (ustr "val")) demo_signed
       (float_of_int 300) 100 (λ _, ustr "r1"))
    demo_verifier {| difficulty_samples_m := 2; band_low := f0; band_high := f1 |} demo_problem demo_solvers.

(** Only the code of the miner that signed is there. *)
Lemma solved_code_signed_witness :
  ∃ cr p', demo_evaluate = Ok (cr, p') ∧ map (code ∘ solution) (cr_outcomes cr) = [ustr "f"; []] ∧
    ∃ o s, cr_outcomes cr !! 0%nat = Some o ∧ s ∈ demo_solvers ∧ hotkey o = sv_hotkey s.
Proof.
  destruct demo_evaluate as [[cr p']|] eqn:He; [|vm_compute in He; discriminate He].
  exists cr, p'. assert (Hc : map (code ∘ solution) (cr_outcomes cr) = [ustr "f"; []]).
  { revert He. vm_compute. by intros [= <- _]. }
  split; [reflexivity|]. split; [exact Hc|]. destruct (cr_outcomes cr) as [|o os] eqn:Ho; [discriminate Hc|].
  destruct (solved_code_signed (SH := sha_const) (KP := no_keypair) (UG := no_digits) (CJ := demo_wire)
    (FR := {| float_repr := λ _, [] |}) (HotkeyName (ustr "val")) demo_signed (float_of_int 300) 100 (λ _, ustr "r1")
    demo_verifier {| difficulty_samples_m := 2; band_low := f0; band_high := f1 |} demo_problem p' demo_solvers cr o)
    as (s & payload & hs & body & Hs & _ & Hh & _).
  - exact He.
  - rewrite Ho. apply list_elem_of_here.
  - injection Hc as Hc _. rewrite Hc. vm_compute. discriminate.
  - by exists o, s.
Defined.
