(* ===== verification/TraceCheck.v ===== *)
(** * References to trajectories for the evaluation service ([src/rlvr/neurons/trace_check.py])

    After a completed round a sample of the graded submissions is reported, one signed
    ticket each.  What becomes of a ticket is a [TicketEnv]; an exception and the
    timeouts of the ticket and of the batch leave it without a status.  The tickets do
    not depend on each other, so their order in time is not modelled.  [randbelow] is
    what [secrets.randbelow] draws for the evaluation of an index.

    [tickets_sampled], [sample_share]: which submissions are reported, and how many. *)

From S2P Require Import Prelude PyFloat Text Json Canonical Wire Identity Codecs Api ApiSpec Protocol ProtocolSpec Grading Round EvaluateRound EvaluateRoundSpec Live MinerSpec FeedbackSender FeedbackSenderSpec.

Local Open Scope Z_scope.

Definition DRAW_SCALE : Z := 1000000.

(** One draw. *)
Definition selected (drawn : Z) (rate : float) : result bool :=
  threshold ← float_to_int (fmul rate (float_of_int DRAW_SCALE));
  mret (drawn <? threshold).

Definition submission_status (s : EvaluationStatus) : option SubmissionStatus :=
  match s with
  | eval_passed => Some status_passed
  | eval_failed => Some status_failed
  | eval_rejected => Some status_rejected
  | eval_abandoned => None
  end.

Record TicketEnv := { te_time : Z; te_uuid : pystr; te_status : option Z }.

(** A ticket that was sent. *)
Record ticket_request := { tk_url : pystr; tk_body : bytes; tk_headers : list (pystr * pystr) }.

Section tickets.
Context `{!UnicodeData, !Sha256, !Keypair}.
Context (dump_trace : TraceCheckRequest → pystr) (randbelow : nat → Z).
Context (wallet : Hotkey) (url service_hotkey : pystr) (rate : float).

(** [None]: an unusable reference. *)
Definition ticket_of (challenge_id task_id : pystr) (item : MinerEvaluation) (trajectory : MinerArtifactRef) : option TraceCheckRequest :=
  match submission_status (ev_status (me_result item)) with
  | None => None
  | Some status =>
      result_to_option
        (TraceCheckRequest_validate
           {| tc_protocol_version := 3; tc_challenge_id := challenge_id; tc_task_id := task_id; tc_uid := me_uid item;
              tc_hotkey := me_hotkey item; tc_trajectory := trajectory; tc_submission_status := status |})
  end.

(** The loop over the evaluations; [index] counts them. *)
Fixpoint collect_tickets (challenge_id task_id : pystr) (index : nat) (evaluations : list MinerEvaluation)
    : result (list TraceCheckRequest) :=
  match evaluations with
  | [] => mret []
  | item :: rest =>
      match me_trajectory item with
      | None => collect_tickets challenge_id task_id (S index) rest
      | Some trajectory =>
          chosen ← selected (randbelow index) rate;
          tickets ← collect_tickets challenge_id task_id (S index) rest;
          mret (if chosen : bool
                then match ticket_of challenge_id task_id item trajectory with Some t => t :: tickets | None => tickets end
                else tickets)
      end
  end.

(** An early return is an empty list too. *)
Definition tickets_of (r : RoundResult) : result (list TraceCheckRequest) :=
  if negb (startswith (ustr "https://") url) || bool_decide (service_hotkey = []) || fleb rate f0 then mret []
  else if negb (bool_decide (rr_status r = completed)) then mret []
  else
    match rr_challenge_id r, rr_task_id r with
    | Some ((_ :: _) as challenge_id), Some ((_ :: _) as task_id) => collect_tickets challenge_id task_id 0 (rr_evaluations r)
    | _, _ => mret []
    end.

Definition ticket_request_of (ticket : TraceCheckRequest) (env : TicketEnv) : result ticket_request :=
  body ← serialize_trace_check_request dump_trace ticket;
  hs ← sign_message wallet body (Some service_hotkey) (te_time env) (te_uuid env);
  mret {| tk_url := url; tk_body := body;
          tk_headers := hs ++ [(ustr "Content-Type", ustr "application/json"); (ustr "Content-Length", str_of_int (zlen body))] |}.

(** Whether the ticket was acknowledged, and the request. *)
Definition deliver_ticket (env : TicketEnv) (ticket : TraceCheckRequest) : bool * list ticket_request :=
  match ticket_request_of ticket env with
  | Ok request => (bool_decide (te_status env = Some 200), [request])
  | Raise _ => (false, [])
  end.

(** How many tickets were acknowledged, and the requests. *)
Definition send_trace_checks (r : RoundResult) (envs : TraceCheckRequest → TicketEnv) : result (Z * list ticket_request) :=
  tickets ← tickets_of r;
  let sent := map (λ t, deliver_ticket (envs t) t) tickets in
  mret (zlen (filter (λ s, s.1 = true) sent), concat (map snd sent)).
End tickets.

(** ** Properties *)

Section sampling.
Context `{UD : !UnicodeData, SH : !Sha256, KP : !Keypair}.
Context (dump_trace : TraceCheckRequest → pystr) (randbelow : nat → Z).
Context (wallet : Hotkey) (url service_hotkey : pystr) (rate : float).
Implicit Types (t : TraceCheckRequest) (m : MinerEvaluation) (r : RoundResult).

(** The ticket of an evaluation. *)
Definition reports (challenge_id task_id : pystr) m t : Prop :=
  TraceCheckRequest_validate t = Ok t ∧ tc_challenge_id t = challenge_id ∧ tc_task_id t = task_id ∧ tc_uid t = me_uid m ∧
  tc_hotkey t = me_hotkey m ∧ me_trajectory m = Some (tc_trajectory t) ∧
  submission_status (ev_status (me_result m)) = Some (tc_submission_status t).

Lemma ticket_of_Some challenge_id task_id m (trajectory : MinerArtifactRef) t :
  me_trajectory m = Some trajectory → ticket_of challenge_id task_id m trajectory = Some t → reports challenge_id task_id m t.
Proof.
  unfold ticket_of, reports. intros Hm. destruct (submission_status _) as [s|]; [|done].
  destruct (TraceCheckRequest_validate _) as [x|] eqn:Hv; [|done]. intros [= <-].
  pose proof (proj1 (model_validate_Ok _ _ _ _) Hv) as (_ & _ & ->). by rewrite Hv.
Qed.

(** The tickets are those of the indices [ix], in order. *)
Lemma collect_tickets_spec challenge_id task_id (evs : list MinerEvaluation) : ∀ (index : nat) (tickets : list TraceCheckRequest),
  collect_tickets randbelow rate challenge_id task_id index evs = Ok tickets →
  ∃ ix : list nat, ix `sublist_of` seq index (length evs) ∧
    Forall2 (λ t i, ∃ m, evs !! (i - index)%nat = Some m ∧ selected (randbelow i) rate = Ok true ∧
               reports challenge_id task_id m t) tickets ix.
Proof.
  induction evs as [|m evs IH]; intros index tickets; cbn [collect_tickets length seq].
  { intros [= <-]. exists []. split; constructor. }
  assert (Hrest : ∀ ts, collect_tickets randbelow rate challenge_id task_id (S index) evs = Ok ts →
    ∃ ix : list nat, ix `sublist_of` seq (S index) (length evs) ∧
      Forall2 (λ t i, ∃ x, (m :: evs) !! (i - index)%nat = Some x ∧ selected (randbelow i) rate = Ok true ∧
                 reports challenge_id task_id x t) ts ix).
  { intros ts (ix & Hsub & His)%IH. exists ix. split; [exact Hsub|]. apply Forall2_same_length_lookup_2.
    - by eapply Forall2_length.
    - intros k t i Ht Hi. destruct (Forall2_lookup_lr _ _ _ _ _ _ His Ht Hi) as (x & Hx & H).
      exists x. split; [|exact H]. assert (Hin : i ∈ seq (S index) (length evs)) by (eapply elem_of_submseteq; [|by apply sublist_submseteq]; by eapply list_elem_of_lookup_2).
      apply elem_of_seq in Hin. replace (i - index)%nat with (S (i - S index)) by lia. exact Hx. }
  assert (Hskip : ∀ ts, collect_tickets randbelow rate challenge_id task_id (S index) evs = Ok ts →
    ∃ ix : list nat, ix `sublist_of` (index :: seq (S index) (length evs)) ∧
      Forall2 (λ t i, ∃ x, (m :: evs) !! (i - index)%nat = Some x ∧ selected (randbelow i) rate = Ok true ∧
                 reports challenge_id task_id x t) ts ix).
  { intros ts (ix & Hsub & His)%Hrest. exists ix. split; [by constructor|exact His]. }
  destruct (me_trajectory m) as [trajectory|] eqn:Hm; [|apply Hskip].
  intros (chosen & Hc & (ts & Hts & [= <-])%bind_Ok)%bind_Ok.
  destruct chosen; [|by apply Hskip]. destruct (ticket_of _ _ _ _) as [t|] eqn:Ht; [|by apply Hskip].
  destruct (Hrest ts Hts) as (ix & Hsub & His). exists (index :: ix). split; [by constructor|]. constructor; [|exact His].
  exists m. rewrite Nat.sub_diag. split_and!; [done|done|]. by eapply ticket_of_Some.
Qed.

Lemma tickets_of_Ok r (tickets : list TraceCheckRequest) :
  tickets_of randbelow url service_hotkey rate r = Ok tickets →
  zlen tickets <= zlen (rr_evaluations r) ∧
  ∀ t, t ∈ tickets → ustr "https://" `prefix_of` url ∧ rr_status r = completed ∧
    ∃ i m challenge_id task_id, rr_evaluations r !! i = Some m ∧ rr_challenge_id r = Some challenge_id ∧
      rr_task_id r = Some task_id ∧ selected (randbelow i) rate = Ok true ∧ reports challenge_id task_id m t.
Proof.
  assert (Hnil : ∀ P : TraceCheckRequest → Prop, zlen ([] : list TraceCheckRequest) <= zlen (rr_evaluations r) ∧ ∀ t, t ∈ [] → P t).
  { intros P. split; [unfold zlen; cbn [length]; lia|by intros t ?%elem_of_nil]. }
  unfold tickets_of. destruct (startswith _ url) eqn:Hurl; cbn [negb orb]; [|intros [= <-]; apply Hnil].
  destruct (_ || _); [intros [= <-]; apply Hnil|]. apply startswith_spec in Hurl.
  case_bool_decide as Hst; cbn [negb]; [|intros [= <-]; apply Hnil].
  destruct (rr_challenge_id r) as [[|a c]|]; [intros [= <-]; apply Hnil| |intros [= <-]; apply Hnil].
  destruct (rr_task_id r) as [[|b k]|]; [intros [= <-]; apply Hnil| |intros [= <-]; apply Hnil].
  intros (ix & Hsub & His)%collect_tickets_spec. split.
  - pose proof (Forall2_length _ _ _ His) as Hl. apply sublist_length in Hsub. rewrite length_seq in Hsub. unfold zlen. lia.
  - intros t Ht. split_and!; [exact Hurl|exact Hst|]. apply list_elem_of_lookup in Ht as [n Hn].
    destruct (Forall2_lookup_l _ _ _ _ _ His Hn) as (i & _ & m & Hm & Hsel & Hr). rewrite Nat.sub_0_r in Hm.
    by exists i, m, (a :: c), (b :: k).
Qed.

Lemma deliver_ticket_sent (env : TicketEnv) t :
  let '(ok, sent) := deliver_ticket dump_trace wallet url service_hotkey env t in
  (if ok then 1 else 0) <= zlen sent <= 1 ∧
  ∀ request, request ∈ sent → tk_url request = url ∧ utf8_encode (dump_trace t) = Ok (tk_body request) ∧
    zlen (tk_body request) <= TRACE_CHECK_MAX_BYTES ∧
    ∃ hs, sign_message wallet (tk_body request) (Some service_hotkey) (te_time env) (te_uuid env) = Ok hs ∧
      same_envelope (dict_lookup (tk_headers request)) (dict_lookup hs).
Proof.
  unfold deliver_ticket. destruct (ticket_request_of _ _ _ _ _ _) as [request|] eqn:Hr.
  2:{ split; [unfold zlen; cbn; lia|by intros ? ?%elem_of_nil]. }
  split; [case_bool_decide; unfold zlen; cbn; lia|]. intros ? ->%list_elem_of_singleton.
  unfold ticket_request_of in Hr. apply bind_Ok in Hr as (body & Hb & (hs & Hs & [= <-])%bind_Ok).
  cbn [tk_url tk_body tk_headers]. unfold serialize_trace_check_request in Hb.
  apply bind_Ok in Hb as (v & (_ & _ & ->)%model_validate_Ok & (b & Hd & [Hle%Z.ltb_ge [= <-]]%guard_Ok)%bind_Ok).
  split_and!; [done|done|done|]. exists hs. split; [exact Hs|]. by eapply signed_json_envelope.
Qed.

(** (safety): only sampled grades are reported.  Every ticket goes to a configured HTTPS address,
    after a completed round, for an evaluation of that round that was drawn; it has the
    evaluation's miner, its status and the reference it committed, is of a bounded size,
    and is signed for the service.  At most one is sent for an evaluation, and at most
    what was sent is acknowledged. *)
Theorem tickets_sampled r (envs : TraceCheckRequest → TicketEnv) (accepted : Z) (sent : list ticket_request) :
  send_trace_checks dump_trace randbelow wallet url service_hotkey rate r envs = Ok (accepted, sent) →
  accepted <= zlen sent <= zlen (rr_evaluations r) ∧
  ∀ request, request ∈ sent → tk_url request = url ∧ ustr "https://" `prefix_of` url ∧ rr_status r = completed ∧
    zlen (tk_body request) <= TRACE_CHECK_MAX_BYTES ∧
    ∃ i m challenge_id task_id t hs, rr_evaluations r !! i = Some m ∧ rr_challenge_id r = Some challenge_id ∧
      rr_task_id r = Some task_id ∧ selected (randbelow i) rate = Ok true ∧ reports challenge_id task_id m t ∧
      utf8_encode (dump_trace t) = Ok (tk_body request) ∧
      sign_message wallet (tk_body request) (Some service_hotkey) (te_time (envs t)) (te_uuid (envs t)) = Ok hs ∧
      same_envelope (dict_lookup (tk_headers request)) (dict_lookup hs).
Proof.
  unfold send_trace_checks. intros (tickets & Ht & [= <- <-])%bind_Ok. destruct (tickets_of_Ok r tickets Ht) as [Hz Hall].
  set (go := λ t, deliver_ticket dump_trace wallet url service_hotkey (envs t) t). split.
  - assert (H : zlen (filter (λ s : bool * list ticket_request, s.1 = true) (map go tickets)) <=
      zlen (concat (map snd (map go tickets))) <= zlen tickets); [|lia].
    clear Ht Hz Hall. induction tickets as [|t tickets IH]; [unfold zlen; cbn; lia|]. cbn [map concat].
    pose proof (deliver_ticket_sent (envs t) t) as Hd. change (deliver_ticket _ _ _ _ (envs t) t) with (go t) in Hd.
    destruct (go t) as [ok out]. destruct Hd as [Hd _]. cbn [snd]. unfold zlen in *. rewrite length_app. cbn [length].
    rewrite filter_cons. cbn [fst]. destruct ok; case_decide; try done; cbn [length]; lia.
  - intros request Hreq. apply list_elem_of_In, in_concat in Hreq as (out & Hout & Hin).
    apply in_map_iff in Hout as (x & <- & Hx). apply in_map_iff in Hx as (t & <- & Ht').
    destruct (Hall t) as (Hurl & Hst & i & m & c & k & Hm & Hc & Hk & Hsel & Hr); [by apply list_elem_of_In|].
    pose proof (deliver_ticket_sent (envs t) t) as Hd. change (deliver_ticket _ _ _ _ (envs t) t) with (go t) in Hd.
    destruct (go t) as [ok out]. destruct Hd as [_ Hd].
    destruct (Hd request) as (Hu & Hb & Hle & hs & Hs & He); [by apply list_elem_of_In|].
    split_and!; [done..|]. by exists i, m, c, k, t, hs.
Qed.
End sampling.

(** Whether a draw reports the submission. *)
Definition hits (rate : float) (drawn : Z) : bool := match selected drawn rate with Ok b => b | Raise _ => false end.

Lemma filter_none {A} (P : A → Prop) `{!∀ x, Decision (P x)} (l : list A) : (∀ x, x ∈ l → ¬ P x) → filter P l = [].
Proof.
  induction l as [|x l IH]; intros Hno; [done|]. rewrite filter_cons_False by (apply Hno; by left). apply IH.
  intros y Hy. apply Hno. by right.
Qed.

Lemma count_below (threshold scale : Z) :
  0 <= threshold <= scale → zlen (filter (λ d, d < threshold) (seqZ 0 scale)) = threshold.
Proof.
  intros [H0 H1]. replace scale with (threshold + (scale - threshold)) by lia. rewrite seqZ_app by lia.
  rewrite filter_app, filter_all, (filter_none _ (seqZ _ (scale - threshold))), app_nil_r.
  - unfold zlen. rewrite length_seqZ. lia.
  - intros d Hd%elem_of_seqZ. lia.
  - intros d Hd%elem_of_seqZ. lia.
Qed.

(** (functional): the rate is the share of the draws that report a submission: of the million
    equally likely ones exactly [int(rate * 1000000)]. *)
Theorem sample_share (rate : float) (threshold : Z) :
  float_to_int (fmul rate (float_of_int DRAW_SCALE)) = Ok threshold → 0 <= threshold <= DRAW_SCALE →
  zlen (filter (λ drawn, hits rate drawn = true) (seqZ 0 DRAW_SCALE)) = threshold.
Proof.
  intros Ht H. rewrite (list_filter_iff _ (λ d, d < threshold)); [by apply count_below|].
  intros d. unfold hits, selected. rewrite Ht. cbn [mbind result_bind mret result_ret]. by rewrite Z.ltb_lt.
Qed.

(** ** Witnesses *)

Definition traced_round : RoundResult :=
  {| rr_status := completed; rr_reason := [];
     rr_evaluations := [graded 1 "a" eval_passed None None;
                        {| me_uid := 2; me_hotkey := ustr "b"; me_latency_ms := 5; me_grading_duration_ms := 7;
                           me_trajectory := Some {| m_role := role_trajectory; m_format := trajectory_v1; m_upload_id := ustr "k"; m_sha256 := zeros; m_size_bytes := 1 |};
                           me_result := me_result (graded 2 "b" eval_passed None None) |}];
     rr_retry_after_s := None; rr_reason_code := None; rr_stage := None; rr_challenge_id := Some (ustr "c1");
     rr_task_id := Some zeros; rr_assigned_miners := []; rr_diagnostic_evaluations := [];
     rr_dispatch_failures := []; rr_checks_total := Some 1 |}.

Abbreviation traced_run :=
  (send_trace_checks (H := ascii_unicode) (H0 := sha_const) (H1 := no_keypair) (λ _, ustr "{}") (λ _, 9999)
     (HotkeyName (ustr "val")) (ustr "https://traces") (ustr "service") (fdiv f1 (float_of_int 100)) traced_round
     (λ _, {| te_time := 5; te_uuid := ustr "u"; te_status := Some 200 |})).

(** One evaluation has a reference, and its draw is one of the ten thousand. *)
Lemma tickets_sampled_witness : ∃ sent, traced_run = Ok (1, sent) ∧ 1 <= zlen sent <= 2.
Proof.
  destruct traced_run as [[n sent]|e] eqn:Hr; [|exfalso; revert Hr; vm_compute; discriminate].
  assert (Hn : n = 1) by (revert Hr; vm_compute; by intros [= <- _]).
  exists sent. split; [by rewrite Hn|]. rewrite <-Hn at 1.
  exact (proj1 (tickets_sampled (UD := ascii_unicode) (SH := sha_const) (KP := no_keypair) _ _ _ _ _ _ _ _ _ _ Hr)).
Defined.

(** The default rate of one percent. *)
Lemma sample_share_witness :
  zlen (filter (λ drawn, hits (fdiv f1 (float_of_int 100)) drawn = true) (seqZ 0 DRAW_SCALE)) = 10000.
Proof. apply sample_share; [vm_compute; reflexivity|unfold DRAW_SCALE; lia]. Defined.
