(* ===== verification/Decentralized.v ===== *)
(** * The validator service ([src/rlvr/neurons/decentralized.py], [_solver_clients] of
    [live.py])

    [service] is what the round callback keeps between rounds: the scoring engine, the
    order of the last offer, and the score file.  [callback] is the whole callback; what
    it finds in one round (metagraph, miners, problem server, host, clocks, the shuffle
    and the outcome of writing the file) is a [RoundEnv].  An exception ends the
    process.  Printing, diagnostics, failure notices and trace checks change nothing
    the service keeps and are left out. *)

From S2P Require Import Prelude PyFloat Text Json JsonSpec Canonical CanonicalSpec Wire Identity Api ProblemClient FileSystem Archive Workspace Download Supervisor Manifest Feedback Patch Grading EvalEngine EvalEngineSpec Selection Round EvaluateRound ScoreState Validator Release.

Local Open Scope Z_scope.

(** ** Weights *)

(** What [set_weights] returns, as far as [_weight_result_status] reads it: an object
    with a [success] attribute, a tuple (the truth of its first item and the text of
    its second), or anything else by its truth. *)
Inductive WeightResponse :=
  | ExtrinsicResponse (success : bool) (message : pystr)
  | TupleResponse (fields : option (bool * option pystr))
  | PlainResponse (truth : bool).

Definition weight_result_status (r : WeightResponse) : bool * pystr :=
  match r with
  | ExtrinsicResponse success message => (success, message)
  | TupleResponse None => (false, [])
  | TupleResponse (Some (ok, message)) => (ok, default [] message)
  | PlainResponse truth => (truth, [])
  end.

(** The longest history, zero without any. *)
Definition weight_observation_count (e : engine) : Z :=
  foldr Z.max 0 (map (λ h, zlen h.2) (map_to_list (histories e))).

(** The submission: [None] when it is skipped.  [set_weights] is the chain call.
    [sum] over NumPy floats adds from left to right. *)
Definition submit_local_weights `{!NumPy} (p : ValidatorPolicy)
    (set_weights : list Z → list float → result WeightResponse) (e : engine)
    (hotkeys : list pystr) (uids : list Z) : result (option bool) :=
  if weight_observation_count e <? min_weight_observations p then mret None
  else
    weights ← get_weights e (Some (zlen hotkeys));
    if fleb (foldl fadd f0 weights) f0 then mret None
    else
      r ← set_weights uids weights;
      mret (Some (weight_result_status r).1).

(** ** Pacing *)

Definition MAX_LEASE_DEFERRAL_S : Z := 900.

Definition lease_deferral_s (retry_after_s : option Z) : option Z :=
  (λ s, Z.max 0 (Z.min s MAX_LEASE_DEFERRAL_S)) <$> retry_after_s.

(** ** The metagraph *)

(** [getattr(axon, "ip", ...)] and [getattr(axon, "port", ...)]; [None] when missing. *)
Record Axon := { axon_ip : option pystr; axon_port : option Z }.

Record Metagraph := {
  mg_hotkeys : list pystr;
  mg_axons : list Axon;
  mg_validator_permit : option (list bool);
  mg_validator_trust : option (list float);
  mg_owner_hotkey : option pystr
}.

Definition axon_serves (a : Axon) : bool :=
  match axon_port a, axon_ip a with
  | Some port, Some ip =>
      negb (port =? 0) && negb (bool_decide (ip = ustr "0.0.0.0")) && negb (bool_decide (ip = []))
  | _, _ => false
  end.

(** [dict(enumerate(hotkeys))], in order. *)
Definition enumerate (hotkeys : list pystr) : list registration :=
  imap (λ i h, (Z.of_nat i, h)) hotkeys.

(** The registrations of the clients. *)
Definition solver_clients (mg : Metagraph) : result (list registration) :=
  served ← mapM (λ r : registration,
    match mg_axons mg !! Z.to_nat r.1 with
    | Some a => Ok (if axon_serves a then [r] else [])
    | None => raise OtherError "IndexError"
    end) (enumerate (mg_hotkeys mg));
  mret (concat served).

Definition eligible_of (mg : Metagraph) (live : list registration) : list registration :=
  eligible_miners live (mg_validator_permit mg) (mg_validator_trust mg) (mg_owner_hotkey mg).

(** ** The round callback *)

Record service := {
  sv_engine : engine;
  sv_order : option (list registration);
  sv_file : result pyobj
}.

Record RoundEnv := {
  env_sync : result Metagraph;
  env_shuffle : list registration → list registration;
  env_client : V3Client;
  env_solve : Z * pystr → MinerTaskRequest → result (MinerSubmission * option MinerTaskResponse);
  env_host : RoundHost;
  env_clock : float;
  env_clock' : float;
  env_monotonic : float;
  env_write : result unit
}.

(** The miners a round may dispatch to. *)
Definition solvers_of (env : RoundEnv) (live offered : list registration) : V3Solver :=
  {| serving := filter (.∈ offered) live; solve_v3 := env_solve env |}.

(** A round after which the next offer is a fresh draw. *)
Definition earns_fresh_draw (r : RoundResult) : bool :=
  bool_decide (rr_status r = completed) || bool_decide (rr_reason_code r = Some QUORUM_NOT_MET).

Section callback.
Context `{!UnicodeData, !Sha256, !Zstd, !Tar, !UrlParser, !PyMath, !NumPy, !NumPyArray, !PyRepr}.
Context (release : ValidatorPolicy) (policy : RoundPolicy) (score_file : pystr).

(** The engine and the deferral after a result. *)
Definition settle_result (env : RoundEnv) (live : list registration) (r : RoundResult)
    (deferral : option float) (e : engine) : result (option float * engine) :=
  match rr_status r with
  | completed =>
      '(_, e') ← apply_round_scores r e (env_clock env) (env_clock' env) (list_to_map live)
                   (payment_speed_half_life_ms release) (payment_speed_floor release);
      mret (deferral, e')
  | unavailable =>
      match lease_deferral_s (rr_retry_after_s r) with
      | Some wait =>
          d ← defer_rounds_until deferral (next_lease_not_before wait (env_monotonic env));
          mret (d, e)
      | None => mret (deferral, e)
      end
  | abandoned => mret (deferral, e)
  end.

(** The engine after the metagraph of the round. *)
Definition track_metagraph (e : engine) (mg : Metagraph) : result engine :=
  e ← resize e (zlen (mg_hotkeys mg));
  fst <$> sync e (enumerate (mg_hotkeys mg)) None.

Definition callback (env : RoundEnv) (deferral : option float) (sv : service)
    : result (option float * service) :=
  mg ← env_sync env;
  e ← track_metagraph (sv_engine sv) mg;
  live ← solver_clients mg;
  let offered := next_offer (env_shuffle env) (sv_order sv) (eligible_of mg live) CANDIDATE_LIMIT in
  if bool_decide (offered = []) then
    mret (deferral, {| sv_engine := e; sv_order := Some offered; sv_file := sv_file sv |})
  else
    r ← evaluate_round (H4 := env_client env) (H5 := solvers_of env live offered) policy (env_host env) offered;
    '(deferral', e') ← settle_result env live r deferral e;
    '(_, file) ← save_scores score_file (env_write env) e' (sv_file sv);
    mret (deferral', {| sv_engine := e';
                        sv_order := if earns_fresh_draw r then None else Some offered;
                        sv_file := file |}).

(** ** Start-up *)

(** The engine of a new process, with the saved scores. *)
Definition start_service (mg : Metagraph) (now : float) (write : result unit) (file : result pyobj)
    : result service :=
  e ← EvalEngine_init (zlen (mg_hotkeys mg)) (float_of_int 57600) (score_window_max_samples release)
        (score_window_min_samples release) (decay_nonresponders release)
        (Some (policy_rank_decay release));
  let '(e, file) := load_scores score_file now write e file in
  mret {| sv_engine := e; sv_order := None; sv_file := file |}.
End callback.
