(* ===== verification/DecentralizedSpec.v ===== *)
(** * What the validator service keeps

    [service_invariant]: whatever the score file held at start-up and whatever the
    rounds brought, the engine is well formed and every miner with a history is known.
    [restart_restores]: a restart brings the saved scores back.  [draw_is_kept]: only
    a completed round, or one without a quorum, leads to a fresh draw. *)

From S2P Require Import Prelude PyFloat Text Json JsonSpec Canonical CanonicalSpec Wire Identity Api ApiSpec ProblemClient FileSystem Archive ArchiveSpec Workspace Download Supervisor Manifest Feedback Patch Grading GradingSpec EvalEngine EvalEngineSpec Selection Round EvaluateRound EvaluateRoundSpec ScoreState Validator Release Decentralized.

Local Open Scope Z_scope.

(** Every known UID is a slot of the score vector. *)
Definition known (e : engine) : Prop :=
  ∀ uid hk, hotkeys e !! uid = Some hk → 0 <= uid < zlen (scores e) ∧ hk ≠ [].

Lemma owned_known (e : engine) : owned e → known e.
Proof. intros Ho. exact (owned_range e Ho). Qed.

Lemma known_grown (e : engine) (n : Z) : known e → known (with_scores e (grown n (scores e))).
Proof. intros Hk uid hk Hu. apply Hk in Hu as [Hr Hne]. simpl. rewrite zlen_grown. split; [lia|done]. Qed.

Section engine_ops.
Context `{PM : !PyMath, NP : !NumPy}.
Implicit Types (e : engine) (ts now : float).

Lemma record_all_owned e e' (rewards : list (Z * float)) ts :
  record_all e rewards ts = Ok e' → owned e → (∀ u, u ∈ map fst rewards → is_Some (hotkeys e !! u)) →
  owned e' ∧ hotkeys e' = hotkeys e ∧ same_config e e'.
Proof.
  revert e. induction rewards as [|[u r] rewards IH]; intros e; simpl; [by intros [= <-]|].
  intros (e1 & [Hu ->]%record_Ok & He')%bind_Ok Ho Hk.
  apply IH in He' as (Ho' & Hh & Hc); [by split_and!| |].
  - destruct Ho as [Hh Hr]. constructor; simpl.
    + intros uid. destruct (decide (uid = u)) as [->|Hne]; [intros _; apply Hk; by left|].
      rewrite lookup_insert_ne by done. apply Hh.
    + intros uid hk Huid. apply Hr in Huid as [Hrange Hne]. rewrite zlen_insert, zlen_grown. split; [lia|done].
  - intros v Hv. apply Hk. by right.
Qed.

Lemma set_hotkeys_owned e e' (hk : list (Z * pystr)) :
  set_hotkeys e hk = Ok e' → owned e → Forall (λ p, p.2 ≠ []) hk →
  owned e' ∧ same_config e e' ∧
  (∀ u, u ∈ map fst hk ∨ is_Some (hotkeys e !! u) → is_Some (hotkeys e' !! u)).
Proof.
  revert e. induction hk as [|[u k] hk IH]; intros e; simpl.
  { intros [= <-] Ho _. split_and!; try done. intros v [Hv|Hv]; [by apply not_elem_of_nil in Hv|done]. }
  intros (e1 & [Hu ->]%ensure_capacity_Ok & He')%bind_Ok Ho [Hne Hok]%Forall_cons.
  apply IH in He' as (Ho' & Hc & Hk); [|  |done].
  - split_and!; try done. intros v Hv. apply Hk. simpl. destruct (decide (v = u)) as [->|Hvu].
    + right. rewrite lookup_insert_eq. by eexists.
    + rewrite lookup_insert_ne by done. destruct Hv as [[?|Hv]%elem_of_cons|Hv]; [done|by left|by right].
  - destruct Ho as [Hh Hr]. constructor; simpl.
    + intros uid Huid%Hh. destruct (decide (uid = u)) as [->|Hvu]; [rewrite lookup_insert_eq; by eexists|].
      by rewrite lookup_insert_ne.
    + intros uid h. rewrite zlen_grown. intros [[<- <-]|[_ Huid]]%lookup_insert_Some; [split; [lia|done]|].
      apply Hr in Huid as [Hrange Hne']. split; [lia|done].
Qed.

Lemma update_owned e e' now ts (rewards : list (Z * float)) (hk : list (Z * pystr)) (d : gset Z) :
  update e now rewards (Some hk) (Some d) None = Ok (e', ts) → owned e → Forall (λ p, p.2 ≠ []) hk →
  (∀ u, u ∈ map fst rewards ∨ u ∈ d → u ∈ map fst hk) → owned e' ∧ same_config e e'.
Proof.
  unfold update. intros (e1 & H1 & Hu)%bind_Ok Ho Hne Hd.
  destruct (set_hotkeys_owned _ _ _ H1 Ho Hne) as (Ho1 & Hc1 & Hk1).
  apply bind_Ok in Hu as (t & _ & Hu). rewrite andb_false_r in Hu.
  apply bind_Ok in Hu as (e2 & H2 & Hu).
  destruct (record_all_owned _ _ _ _ H2 Ho1) as (Ho2 & Hh2 & Hc2).
  { intros u Hin. apply Hk1. left. apply Hd. by left. }
  destruct (negb (decay e2)); [injection Hu as <- <-; split; [done|by transitivity e1]|].
  apply bind_Ok in Hu as (e3 & H3 & [= <- <-]).
  destruct (record_all_owned _ _ _ _ H3 Ho2) as (Ho3 & _ & Hc3).
  { intros u Hin. rewrite map_map in Hin. simpl in Hin. rewrite map_id, elem_of_elements in Hin.
    rewrite Hh2. apply Hk1. left. apply Hd. right. set_solver. }
  split; [done|]. transitivity e1; [done|]. by transitivity e2.
Qed.

Lemma nonserving_owned e e' now (active : gset Z) (o : option float) :
  record_nonserving e now active o = Ok e' → owned e → owned e' ∧ same_config e e'.
Proof.
  unfold record_nonserving. destruct (_ || _); [by intros [= <-]|].
  intros (t & _ & H2)%bind_Ok Ho. destruct (record_all_owned _ _ _ _ H2 Ho) as (Ho2 & _ & Hc2); [|done].
  intros u Hin. rewrite map_map in Hin. simpl in Hin. rewrite map_id, elem_of_elements in Hin.
  apply (owned_history e Ho), elem_of_dom. set_solver.
Qed.
End engine_ops.

(** ** The dicts of a round *)

Section dicts.
Context {V A : Type} (key : A → Z) (val : A → V).
Implicit Types (d : list (Z * V)) (l : list A).

Lemma dict_set_keys (k : Z) (v : V) d u : u ∈ map fst (dict_set k v d) ↔ u = k ∨ u ∈ map fst d.
Proof.
  induction d as [|[k' v'] d IH]; simpl; [set_solver|].
  destruct (Z.eqb_spec k' k) as [->|Hne]; simpl; rewrite ?elem_of_cons, ?IH; set_solver.
Qed.

Lemma dict_build_keys l d (u : Z) :
  u ∈ map fst (foldl (λ d x, dict_set (key x) (val x) d) d l) ↔ u ∈ map key l ∨ u ∈ map fst d.
Proof.
  revert d. induction l as [|x l IH]; intros d; simpl; [set_solver|].
  rewrite IH, dict_set_keys, elem_of_cons. tauto.
Qed.

Lemma dict_set_Forall (P : V → Prop) (k : Z) (v : V) d :
  P v → Forall (λ p, P p.2) d → Forall (λ p, P p.2) (dict_set k v d).
Proof.
  intros Hv. induction 1 as [|[k' v'] d Hp Hd IH]; simpl; [by repeat constructor|].
  destruct (k' =? k); by constructor.
Qed.

Lemma dict_build_Forall (P : V → Prop) l d :
  Forall (λ x, P (val x)) l → Forall (λ p, P p.2) d →
  Forall (λ p, P p.2) (foldl (λ d x, dict_set (key x) (val x) d) d l).
Proof.
  intros Hl. revert d. induction Hl as [|x l Hx Hl IH]; intros d Hd; simpl; [done|].
  apply IH. by apply dict_set_Forall.
Qed.
End dicts.

(** ** Scores of a round *)

Section rounds.
Context `{PM : !PyMath, NP : !NumPy}.
Implicit Types (e : engine) (r : RoundResult) (active : gmap Z pystr).

Lemma apply_round_scores_owned e e' r now now' active (half floor : float) (b : bool) :
  apply_round_scores r e now now' active half floor = Ok (b, e') →
  wf e → owned e → (∀ uid hk, active !! uid = Some hk → hk ≠ []) →
  wf e' ∧ owned e' ∧ same_config e e'.
Proof.
  unfold apply_round_scores. destruct (negb _); [intros [= <- <-] ? ? _; by split_and!|].
  set (ms := filter _ (rr_evaluations r)).
  intros ([e1 ts] & Hu & (e2 & Hn & [= <- <-])%bind_Ok)%bind_Ok Hwf Ho Hact.
  assert (Hwf1 : wf e1) by (by eapply wf_update).
  apply update_owned in Hu as [Ho1 Hc1]; [|done| |].
  - apply nonserving_owned in Hn as Hn'; [|done]. destruct Hn' as [Ho2 Hc2].
    split_and!; [by eapply wf_nonserving|done|]. by transitivity e1.
  - apply dict_build_Forall with (P := λ h : pystr, h ≠ []); [|constructor].
    apply Forall_forall. intros m Hm%list_elem_of_filter. destruct Hm as [Hm _]. by apply Hact in Hm.
  - intros u Hin. apply dict_build_keys. left. destruct Hin as [Hin|Hin].
    + unfold compute_round_payments in Hin. simpl in Hin.
      by apply dict_build_keys in Hin as [Hin|Hin%not_elem_of_nil].
    + by apply elem_of_list_to_set in Hin.
Qed.

(** ** The metagraph of a round *)

Lemma resize_known e e' n : resize e n = Ok e' → wf e → known e →
  wf e' ∧ known e' ∧ zlen (scores e') = n ∧ same_config e e'.
Proof.
  intros Hr Hwf Hk. assert (Hwf' : wf e') by (by eapply wf_resize). split; [done|].
  unfold resize in Hr. apply guard_Ok in Hr as [Hn%Z.ltb_ge [= <-]].
  destruct (Z.eqb_spec n (zlen (scores e))) as [->|Hne]; [done|].
  destruct (Z.ltb_spec (zlen (scores e)) n).
  - change (scores e ++ np_zeros (n - zlen (scores e))) with (grown n (scores e)).
    split_and!; [by apply known_grown| |done]. simpl. rewrite zlen_grown. lia.
  - assert (Hz : zlen (slice_to n (scores e)) = n) by (rewrite slice_to_length by done; lia).
    split_and!; try done. intros uid hk [Hu Hlt]%map_lookup_filter_Some. simpl in Hlt |- *.
    apply Hk in Hu as [Hu Hne']. rewrite Hz. split; [lia|done].
Qed.

Lemma sync_one_known e e' uid (hk : pystr) (rs : list Z) :
  sync_one e uid hk = Ok (e', rs) → known e → 0 <= uid < zlen (scores e) → hk ≠ [] →
  known e' ∧ zlen (scores e') = zlen (scores e) ∧ same_config e e' ∧
  hotkeys e' = <[uid := hk]> (hotkeys e).
Proof.
  intros Hs Hk Hu Hne. unfold sync_one in Hs. rewrite ensure_capacity_eq in Hs by lia.
  cbn [mbind result_bind] in Hs. rewrite store_score_in_range in Hs by (simpl; rewrite zlen_grown; lia).
  apply bind_Ok in Hs as (e2 & He2 & [= <- _]).
  assert (Hz : zlen (scores e2) = zlen (scores e) ∧ hotkeys e2 = hotkeys e ∧ same_config e e2).
  { case_match; injection He2 as <-; simpl; rewrite ?zlen_insert, zlen_grown; split_and!; try done; lia. }
  destruct Hz as (Hz & Hh & Hc). split_and!; [|done|done|by simpl; rewrite Hh].
  intros v h. simpl. rewrite Hz, Hh. intros [[<- <-]|[_ Hv]]%lookup_insert_Some; [done|by apply Hk].
Qed.

Lemma sync_loop_known e e' (hks : list (Z * pystr)) (rs : list Z) :
  sync_loop e hks = Ok (e', rs) → known e →
  Forall (λ p, 0 <= p.1 < zlen (scores e) ∧ p.2 ≠ []) hks →
  known e' ∧ zlen (scores e') = zlen (scores e) ∧ same_config e e' ∧
  (∀ u, u ∈ map fst hks ∨ is_Some (hotkeys e !! u) → is_Some (hotkeys e' !! u)).
Proof.
  revert e rs. induction hks as [|[u k] hks IH]; intros e rs; simpl.
  { intros [= <- _] Hk _. split_and!; try done. intros v [Hv%not_elem_of_nil|Hv]; done. }
  intros ([e1 r1] & H1 & ([e2 r2] & H2 & [= <- _])%bind_Ok)%bind_Ok Hk [[Hu Hne] Hok]%Forall_cons.
  apply sync_one_known in H1 as (Hk1 & Hz1 & Hc1 & Hh1); [|done..]. simpl in *.
  apply IH in H2 as (Hk2 & Hz2 & Hc2 & Hd2); [|done|by rewrite Hz1].
  split_and!; [done|congruence|by transitivity e1|]. intros v Hv. apply Hd2.
  rewrite Hh1, lookup_insert_is_Some. destruct Hv as [[->|Hv]%elem_of_cons|Hv]; [by right; left|by left|].
  destruct (decide (u = v)); [by right; left|by right; right].
Qed.

Lemma elem_of_enumerate (hks : list pystr) (u : Z) (h : pystr) :
  (u, h) ∈ enumerate hks ↔ 0 <= u ∧ hks !! Z.to_nat u = Some h.
Proof.
  unfold enumerate. rewrite elem_of_lookup_imap. split.
  - intros (i & y & [= -> ->] & Hi). rewrite Nat2Z.id. split; [lia|done].
  - intros [Hu Hi]. exists (Z.to_nat u), h. by rewrite Z2Nat.id.
Qed.

(** Once the metagraph is known, every miner with a history is known. *)
Lemma track_metagraph_owned e e' (mg : Metagraph) :
  track_metagraph e mg = Ok e' → wf e → known e → Forall (λ h, h ≠ []) (mg_hotkeys mg) →
  wf e' ∧ owned e' ∧ same_config e e'.
Proof.
  unfold track_metagraph. intros (e1 & H1 & ([e2 rs] & H2 & ->)%fmap_Ok)%bind_Ok Hwf Hk Hne.
  apply resize_known in H1 as (Hwf1 & Hk1 & Hz1 & Hc1); [|done..].
  assert (Hwf2 : wf e2) by (by eapply wf_sync; [exact Hwf1|exact H2]). cbn [fst].
  unfold sync in H2. apply bind_Ok in H2 as ([e3 r3] & H3 & [= -> ->]).
  apply sync_loop_known in H3 as (Hk2 & Hz2 & Hc2 & Hd2); [|done|].
  - split_and!; [done| |by transitivity e1]. constructor; [|exact Hk2].
    intros u [h Hh]. apply (wf_hist _ Hwf2) in Hh as [Hr _]. rewrite Hz2, Hz1 in Hr. apply Hd2. left.
    unfold zlen in Hr. destruct (lookup_lt_is_Some_2 (mg_hotkeys mg) (Z.to_nat u)) as [k Hk']; [lia|].
    apply list_elem_of_fmap. exists (u, k). split; [done|]. apply elem_of_enumerate. split; [lia|done].
  - apply Forall_forall. intros [u h] [Hu Hl]%elem_of_enumerate. rewrite Hz1. simpl. split.
    + apply lookup_lt_Some in Hl. unfold zlen. lia.
    + rewrite Forall_forall in Hne. apply Hne. by eapply list_elem_of_lookup_2.
Qed.

Lemma solver_clients_registered (mg : Metagraph) (live : list registration) (r : registration) :
  solver_clients mg = Ok live → r ∈ live → r ∈ enumerate (mg_hotkeys mg).
Proof.
  unfold solver_clients. intros (served & Hs & [= <-])%bind_Ok Hin.
  apply mapM_Ok in Hs. apply list_elem_of_In, in_concat in Hin as (rs & Hrs%list_elem_of_In & Hin%list_elem_of_In).
  apply list_elem_of_lookup in Hrs as [i Hi]. eapply Forall2_lookup_r in Hs as (r' & Hr' & Hx); [|exact Hi].
  destruct (mg_axons mg !! _); [|done]. injection Hx as <-. apply list_elem_of_lookup_2 in Hr'.
  destruct (axon_serves a); [|by apply not_elem_of_nil in Hin]. by apply list_elem_of_singleton in Hin as ->.
Qed.

Lemma solver_clients_active (mg : Metagraph) (live : list registration) (u : Z) (h : pystr) :
  solver_clients mg = Ok live → Forall (λ k, k ≠ []) (mg_hotkeys mg) →
  (list_to_map live : gmap Z pystr) !! u = Some h → h ≠ [].
Proof.
  intros Hs Hne Hu%elem_of_list_to_map_2. eapply solver_clients_registered in Hu; [|exact Hs].
  apply elem_of_enumerate in Hu as [_ Hu%list_elem_of_lookup_2]. rewrite Forall_forall in Hne. by apply Hne.
Qed.
End rounds.

(** ** Reading a score file *)

Section loading.
Context `{PM : !PyMath, NP : !NumPy, NA : !NumPyArray, PR : !PyRepr}.
Implicit Types (e : engine) (file : result pyobj).

Lemma restore_loop_size e e' (hs : list (Z * list observation)) :
  restore_loop e hs = Ok e' → zlen (scores e') = zlen (scores e) ∧ same_config e e'.
Proof.
  revert e. induction hs as [|[u vs] hs IH]; intros e; simpl; [by intros [= <-]|].
  destruct (slice_from _ _) as [|o k]; [apply IH|].
  intros (e1 & (s & Hs & [= <-])%bind_Ok & H2)%bind_Ok. apply IH in H2 as [Hz Hc]. rewrite Hz.
  simpl in *. split; [|done]. unfold store_score in Hs.
  repeat case_match; simplify_eq; by rewrite zlen_insert.
Qed.

Lemma read_observation_good (v : pyobj) (o : observation) : read_observation v = Ok o → good_obs o.
Proof.
  unfold read_observation. destruct v as [| | | | |[|ts [|p [|]]]| |]; try done.
  intros (x & _ & (t & _ & (q & _ & H)%bind_Ok)%bind_Ok)%bind_Ok.
  apply guard_Ok in H as [Hb [= <-]]. rewrite !orb_false_iff, !negb_false_iff in Hb.
  destruct Hb as [[[? ?] ?] ?]. by unfold good_obs.
Qed.

Lemma read_histories_good (n mx : Z) (raw : list (pyobj * pyobj)) (acc hs : list (Z * list observation)) :
  read_histories n mx raw acc = Ok hs → Forall (λ h, 0 <= h.1 ∧ Forall good_obs h.2) acc →
  Forall (λ h, 0 <= h.1 ∧ Forall good_obs h.2) hs.
Proof.
  revert acc. induction raw as [|[k v] raw IH]; intros acc; simpl; [by intros [= <-]|].
  intros (u & _ & H)%bind_Ok Hacc. apply guard_Ok in H as [Hb (h & Hh & H)%bind_Ok].
  apply orb_false_iff in Hb as [[_ Hu%Z.ltb_ge]%orb_false_iff _].
  eapply IH; [exact H|]. apply Forall_app. split; [done|]. constructor; [|constructor]. split; [done|].
  unfold read_history in Hh. destruct v; try done. apply guard_Ok in Hh as [_ Hh%mapM_Ok].
  simpl. clear -Hh. induction Hh as [|x o l k Ho Hl IH]; constructor; [by eapply read_observation_good|done].
Qed.

Lemma read_version_2_good e (state : pyobj) (n : Z) (hk : gmap Z pystr) (hs : list (Z * list observation)) :
  read_version_2 e state n hk = Ok hs → Forall (λ h, 0 <= h.1 ∧ Forall good_obs h.2) hs.
Proof.
  unfold read_version_2. rewrite bind_Ok. intros (w & _ & H).
  apply seq_Ok in H as [_ H]. apply bind_Ok in H as (mx & _ & H). apply bind_Ok in H as (mn & _ & H).
  apply bind_Ok in H as (smx & _ & H). apply bind_Ok in H as (raw & _ & H). apply bind_Ok in H as (l & _ & H).
  apply bind_Ok in H as (k & Hk%read_histories_good & H); [|constructor].
  apply bind_Ok in H as (sc & _ & H). apply seq_Ok in H as [_ H].
  apply guard_Ok in H as [_ [= <-]]. apply Forall_fmap. eapply Forall_impl; [exact Hk|].
  intros h [Hu Hg]. split; [done|]. simpl. unfold slice_from. case_match; by apply Forall_drop.
Qed.
Lemma read_version_1_good e (now : float) (v : list float) (hk : gmap Z pystr) (hs : list (Z * list observation)) :
  read_version_1 e now v hk = Ok hs → hotkeys_in_range (zlen v) hk = true →
  forallb isfinite v = true → forallb (λ x, negb (fltb x f0)) v = true →
  Forall (λ h, 0 <= h.1 ∧ Forall good_obs h.2) hs.
Proof.
  unfold read_version_1. rewrite guard_Ok. intros [_ (t & [Ht1 Ht2]%timestamp_inv & [= <-])%bind_Ok] Hr Hf Hp.
  apply Forall_fmap, Forall_forall. intros [u h] [_ Hin]%list_elem_of_filter. simpl.
  unfold hotkeys_in_range in Hr. rewrite forallb_forall in Hr. specialize (Hr (u, h)).
  rewrite <-list_elem_of_In in Hr. apply Hr in Hin. simpl in Hin. bool_simpl. unfold zlen in *.
  destruct Hin as [[Hu1 Hu2] _]. split; [lia|]. apply Forall_replicate. rewrite forallb_forall in Hf, Hp.
  assert (Hn : In (nth (Z.to_nat u) v f0) v) by (apply nth_In; lia).
  apply Hf in Hn as Hn1. apply Hp, negb_true_iff in Hn as Hn2. by unfold good_obs.
Qed.

Lemma read_score_state_good e (now : float) (state : pyobj) (n : Z) (hs : list (Z * list observation))
    (hk : gmap Z pystr) (old : bool) :
  read_score_state e now state = Ok (n, hs, hk, old) →
  0 <= n ∧ hotkeys_in_range n hk = true ∧ Forall (λ h, 0 <= h.1 ∧ Forall good_obs h.2) hs.
Proof.
  unfold read_score_state. rewrite bind_Ok. intros (ver & _ & [_ H]%guard_Ok).
  apply bind_Ok in H as ([n' v] & Hv & H). apply bind_Ok in H as (raw & _ & H).
  apply bind_Ok in H as (hk' & _ & [Hr%negb_false_iff H]%guard_Ok).
  apply bind_Ok in H as (hs' & Hh & [= -> -> -> _]). destruct (py_eq_int ver 1).
  - apply bind_Ok in Hv as (r & _ & (a & _ & Hv)%bind_Ok). destruct a as [s|]; [|done].
    destruct (forallb isfinite s && _) eqn:Hs; [|done]. injection Hv as <- <-.
    apply andb_true_iff in Hs as [Hs1 Hs2]. split_and!; [apply zlen_nonneg|done|].
    by eapply read_version_1_good.
  - apply bind_Ok in Hv as (r & _ & Hv). destruct (plain_int r) as [m|]; [|done].
    destruct (Z.ltb_spec m 0); [done|]. injection Hv as <- <-.
    split_and!; [done|done|]. by eapply read_version_2_good.
Qed.

(** Whatever a score file holds, loading it leaves a well-formed engine. *)
Lemma load_scores_good (path : pystr) (now : float) (write : result unit) e e' file file' :
  load_scores path now write e file = (e', file') → wf e → known e → wf e' ∧ known e' ∧ same_config e e'.
Proof.
  unfold load_scores. case_bool_decide; [by intros [= <- _]|].
  destruct (file ≫= _) as [[e1 old]|x] eqn:Hr; [|by intros [= <- _]].
  intros [= <- _] Hwf Hk. apply bind_Ok in Hr as (st & _ & Hr).
  apply bind_Ok in Hr as ([[[n hs] hk] o] & (Hn & Hhk & Hhs)%read_score_state_good & Hr).
  apply bind_Ok in Hr as (e2 & Hres & [= -> ->]).
  split; [by eapply wf_restore; [exact Hwf|split|exact Hres]|].
  unfold restore in Hres. apply bind_Ok in Hres as (e2 & Hl & [= <-]).
  apply restore_loop_size in Hl as [Hz Hc]. split; [|exact Hc]. intros u h Hu. simpl in *.
  rewrite Hz, zlen_np_zeros by done. unfold hotkeys_in_range in Hhk. rewrite forallb_forall in Hhk.
  specialize (Hhk (u, h)). rewrite <-list_elem_of_In, elem_of_map_to_list in Hhk. apply Hhk in Hu.
  simpl in Hu. rewrite !andb_true_iff, negb_true_iff, Z.leb_le, Z.ltb_lt in Hu.
  destruct Hu as [Hu Hne%bool_decide_eq_false]. done.
Qed.
End loading.

(** ** A running service *)

Section life.
Context `{UD : !UnicodeData, SH : !Sha256, ZS : !Zstd, TR : !Tar, UP : !UrlParser, PM : !PyMath,
  NP : !NumPy, NA : !NumPyArray, PR : !PyRepr}.
Context (release : ValidatorPolicy) (policy : RoundPolicy) (path : pystr).
Implicit Types (sv : service) (env : RoundEnv) (mg : Metagraph).

(** What happens to a service: a round callback, or a restart of the process, which
    keeps only the score file. *)
Inductive service_op :=
  | Round (env : RoundEnv) (deferral : option float)
  | Restart (mg : Metagraph) (now : float) (write : result unit).

Definition run_service sv (op : service_op) : result service :=
  match op with
  | Round env deferral => snd <$> callback release policy path env deferral sv
  | Restart mg now write => start_service release path mg now write (sv_file sv)
  end.

(** The chain gives every registration a hotkey; [shuffle] rearranges. *)
Definition env_ok env : Prop :=
  is_shuffle (env_shuffle env) ∧ ∀ mg, env_sync env = Ok mg → Forall (λ h, h ≠ []) (mg_hotkeys mg).

Definition service_op_ok (op : service_op) : Prop :=
  match op with Round env _ => env_ok env | Restart _ _ _ => True end.

(** The services a process started on any score file can be in. *)
Inductive lives : service → Prop :=
  | lives_start mg (now : float) (write : result unit) (file : result pyobj) sv :
      start_service release path mg now write file = Ok sv → lives sv
  | lives_step sv (op : service_op) sv' :
      lives sv → service_op_ok op → run_service sv op = Ok sv' → lives sv'.

Record sound sv : Prop := {
  sound_wf : wf (sv_engine sv);
  sound_known : known (sv_engine sv);
  sound_config : max_samples (sv_engine sv) = score_window_max_samples release
    ∧ min_samples (sv_engine sv) = score_window_min_samples release
    ∧ window_seconds (sv_engine sv) = float_of_int 57600;
  sound_order : NoDup (default [] (sv_order sv)) ∧ zlen (default [] (sv_order sv)) <= CANDIDATE_LIMIT
}.

Lemma config_kept (e e' : engine) (mx mn : Z) (w : float) :
  same_config e e' → max_samples e = mx ∧ min_samples e = mn ∧ window_seconds e = w →
  max_samples e' = mx ∧ min_samples e' = mn ∧ window_seconds e' = w.
Proof. unfold same_config. intros (? & ? & ? & ? & ?) (? & ? & ?). split_and!; congruence. Qed.

Lemma start_sound mg (now : float) (write : result unit) (file : result pyobj) sv :
  start_service release path mg now write file = Ok sv → sound sv.
Proof.
  unfold start_service. intros (e & He & Hs)%bind_Ok. assert (Hwf : wf e) by (by eapply wf_init).
  assert (Hc : known e ∧ max_samples e = score_window_max_samples release
    ∧ min_samples e = score_window_min_samples release ∧ window_seconds e = float_of_int 57600).
  { unfold EvalEngine_init in He. rewrite !guard_Ok in He. destruct He as (_ & _ & _ & _ & _ & [= <-]).
    split; [|done]. intros u h Hu. simpl in Hu. by rewrite lookup_empty in Hu. }
  destruct Hc as [Hk Hc]. destruct (load_scores path now write e file) as [e' file'] eqn:Hl.
  injection Hs as <-. apply load_scores_good in Hl as (Hwf' & Hk' & Hc'); [|done..].
  constructor; simpl; [done|done|by eapply config_kept|]. split; [constructor|done].
Qed.

Lemma offer_sound (sh : list registration → list registration) (prev : option (list registration))
    (el : list registration) :
  is_shuffle sh → NoDup (default [] prev) →
  let offered := next_offer sh prev el CANDIDATE_LIMIT in
  NoDup offered ∧ zlen offered <= CANDIDATE_LIMIT.
Proof.
  intros Hs Hnd offered. destruct (offer_full_spec sh Hs prev el Hnd) as [Hf _]. split.
  - eapply sublist_NoDup; [exact Hf|apply slice_to_sublist].
  - unfold offered, next_offer. rewrite slice_to_length by done. lia.
Qed.

(** The engine after a callback that returned. *)
Lemma callback_engine env (d d' : option float) sv sv' :
  callback release policy path env d sv = Ok (d', sv') → sound sv → env_ok env →
  wf (sv_engine sv') ∧ owned (sv_engine sv') ∧ same_config (sv_engine sv) (sv_engine sv').
Proof.
  unfold callback. intros (mg & Hmg & (e & He & (live & Hlive & H)%bind_Ok)%bind_Ok)%bind_Ok Hsv [_ Hne].
  specialize (Hne mg Hmg).
  apply track_metagraph_owned in He as (Hwf & Ho & Hc); [|by destruct Hsv..].
  case_bool_decide; [by injection H as _ <-|].
  apply bind_Ok in H as (r & _ & ([d1 e1] & Hr & ([b file] & _ & [= _ <-])%bind_Ok)%bind_Ok). simpl.
  unfold settle_result in Hr. destruct (rr_status r).
  - apply bind_Ok in Hr as ([b' e2] & Hr & [= _ <-]).
    apply apply_round_scores_owned in Hr as (? & ? & ?); [|done..|by intros u h; eapply solver_clients_active].
    split_and!; [done|done|]. by transitivity e.
  - destruct (lease_deferral_s _); [apply bind_Ok in Hr as (? & _ & [= _ <-])|injection Hr as _ <-]; done.
  - by injection Hr as _ <-.
Qed.

(** What a callback makes of the order: it keeps the offer, unless the round earned a
    fresh draw. *)
Lemma callback_order env (d d' : option float) sv sv' :
  callback release policy path env d sv = Ok (d', sv') →
  ∃ mg live, env_sync env = Ok mg ∧ solver_clients mg = Ok live ∧
    let offered := next_offer (env_shuffle env) (sv_order sv) (eligible_of mg live) CANDIDATE_LIMIT in
    sv_order sv' = Some offered ∨
    (sv_order sv' = None ∧ ∃ r,
       evaluate_round (H4 := env_client env) (H5 := solvers_of env live offered) policy (env_host env) offered
       = Ok r ∧ (rr_status r = completed ∨ rr_reason_code r = Some QUORUM_NOT_MET)).
Proof.
  unfold callback. intros (mg & Hmg & (e & He & (live & Hlive & H)%bind_Ok)%bind_Ok)%bind_Ok.
  exists mg, live. split; [done|]. split; [done|].
  case_bool_decide as Hoff; [injection H as _ <-; by left|].
  apply bind_Ok in H as (r & Hr & ([d1 e1] & _ & ([b file] & _ & [= _ <-])%bind_Ok)%bind_Ok). simpl.
  destruct (earns_fresh_draw r) eqn:Hf; [right; split; [done|]|by left]. exists r. split; [exact Hr|].
  unfold earns_fresh_draw in Hf. by rewrite orb_true_iff, !bool_decide_eq_true in Hf.
Qed.

Lemma callback_sound env (d d' : option float) sv sv' :
  callback release policy path env d sv = Ok (d', sv') → sound sv → env_ok env → sound sv'.
Proof.
  intros Hcb Hsv Henv. pose proof (callback_engine _ _ _ _ _ Hcb Hsv Henv) as (Hwf & Ho & Hc).
  destruct Hsv as [_ _ Hconf [Hnd _]]. constructor; [done|by apply owned_known|by eapply config_kept|].
  apply callback_order in Hcb as (mg & live & _ & _ & [->|[-> _]]); [|by split; [constructor|]].
  apply offer_sound; [by destruct Henv|done].
Qed.

Lemma lives_sound sv : lives sv → sound sv.
Proof.
  induction 1 as [mg now write file sv Hs|sv op sv' _ IH Hok Hrun]; [by eapply start_sound|].
  destruct op as [env d|mg now write]; cbn [run_service] in Hrun; [|by eapply start_sound].
  apply fmap_Ok in Hrun as ([d' sv2] & Hcb & ->). by eapply callback_sound.
Qed.
(** What the release makes of the engine: [EvalEngine_init] accepts it for any size. *)
Lemma lives_init sv (n : Z) :
  lives sv → 0 <= n →
  ∃ e, EvalEngine_init n (float_of_int 57600) (score_window_max_samples release)
         (score_window_min_samples release) (decay_nonresponders release)
         (Some (policy_rank_decay release)) = Ok e ∧
       max_samples e = score_window_max_samples release ∧ min_samples e = score_window_min_samples release.
Proof.
  intros Hl Hn. assert (Hr : ∃ n' e', EvalEngine_init n' (float_of_int 57600) (score_window_max_samples release)
    (score_window_min_samples release) (decay_nonresponders release) (Some (policy_rank_decay release)) = Ok e').
  { induction Hl as [mg now write file sv Hs|]; [|done]. unfold start_service in Hs.
    apply bind_Ok in Hs as (e & He & _). by exists (zlen (mg_hotkeys mg)), e. }
  destruct Hr as (n' & e' & He'). unfold EvalEngine_init in *. rewrite !guard_Ok in He'.
  destruct He' as (_ & H1 & H2 & H3 & H4 & _). rewrite (proj2 (Z.ltb_ge n 0)), H1, H2, H3, H4 by done.
  cbn [raise_if mbind result_bind]. by eexists.
Qed.

(** After a round whose file was written, the file is the engine's. *)
Lemma callback_file env (d d' : option float) sv sv' :
  callback release policy path env d sv = Ok (d', sv') → path ≠ [] → env_write env = Ok () →
  sv_order sv' ≠ Some [] → sv_file sv' = Ok (score_document (sv_engine sv')).
Proof.
  unfold callback. intros (mg & _ & (e & _ & (live & _ & H)%bind_Ok)%bind_Ok)%bind_Ok Hpath Hw Ho.
  case_bool_decide as Hoff; [injection H as _ <-; simpl in Ho; by rewrite Hoff in Ho|].
  apply bind_Ok in H as (r & _ & ([d1 e1] & _ & ([b file] & Hs & [= _ <-])%bind_Ok)%bind_Ok).
  unfold save_scores in Hs. rewrite bool_decide_eq_false_2, Hw in Hs by done. by injection Hs as _ <-.
Qed.

(** Starting from the document of a sound engine brings it back. *)
Lemma start_saved mg (now : float) (write : result unit) sv :
  lives sv → owned (sv_engine sv) → path ≠ [] →
  np_asarray (PList (map PFloat (scores (sv_engine sv)))) = Ok (Some (scores (sv_engine sv))) →
  ∃ sv', start_service release path mg now write (Ok (score_document (sv_engine sv))) = Ok sv' ∧
    histories (sv_engine sv') = histories (sv_engine sv) ∧ hotkeys (sv_engine sv') = hotkeys (sv_engine sv) ∧
    scores (sv_engine sv') = scores (sv_engine sv) ∧ sv_file sv' = Ok (score_document (sv_engine sv)).
Proof.
  intros Hl Ho Hpath Hnp. pose proof (lives_sound _ Hl) as [Hwf _ (Hmx & Hmn & Hw) _].
  destruct (lives_init sv (zlen (mg_hotkeys mg)) Hl (zlen_nonneg _)) as (e0 & He0 & Hmx0 & Hmn0).
  assert (Hwf0 : wf e0) by (by eapply wf_init).
  destruct (load_saved path (sv_engine sv) e0 now write) as (e1 & Hload & Hwf1 & Hhk & Hz & Hh & Hmn1);
    try done; [by rewrite Hw..|].
  rewrite Hmx0, <-Hmx, window_kept in Hh by done.
  eexists. split; [unfold start_service; rewrite He0; cbn [mbind result_bind]; by rewrite Hload|]. simpl.
  split_and!; [done|done| |done]. apply wf_scores_eq; try done. by rewrite Hmn1, Hmn0, Hmn.
Qed.

(** ** The order over several rounds *)

(** The miners eligible in a round. *)
Definition eligible_in env : list registration :=
  match env_sync env with
  | Ok mg => match solver_clients mg with Ok live => eligible_of mg live | Raise _ => [] end
  | Raise _ => []
  end.

(** Consecutive callbacks of one process, none of which earned a fresh draw. *)
Inductive keeps : list RoundEnv → service → service → Prop :=
  | keeps_nil sv : keeps [] sv sv
  | keeps_cons env envs (d d' : option float) sv sv1 sv2 :
      env_ok env → callback release policy path env d sv = Ok (d', sv1) → sv_order sv1 ≠ None →
      keeps envs sv1 sv2 → keeps (env :: envs) sv sv2.

(** One offer starts with the miners of the previous one that are still eligible. *)
Lemma offer_starts (sh : list registration → list registration) (prev el : list registration) :
  is_shuffle sh → zlen prev <= CANDIDATE_LIMIT →
  filter (.∈ el) prev `prefix_of` next_offer sh (Some prev) el CANDIDATE_LIMIT.
Proof.
  intros Hs Hlen. unfold next_offer. rewrite slice_to_nonneg by done.
  assert (Hk : kept_of (Some prev) (list_to_set el) = filter (.∈ el) prev).
  { apply list_filter_iff. intros r. apply elem_of_list_to_set. }
  rewrite Hk, take_app. apply prefix_app_r. rewrite take_ge; [done|].
  etransitivity; [apply length_filter|]. unfold zlen in Hlen. lia.
Qed.

Lemma keeps_order (envs : list RoundEnv) sv sv' (prev : list registration) :
  keeps envs sv sv' → zlen prev <= CANDIDATE_LIMIT → NoDup prev → sv_order sv = Some prev →
  ∃ later, sv_order sv' = Some later ∧
    filter (λ r, Forall (λ env, r ∈ eligible_in env) envs) prev `prefix_of` later.
Proof.
  intros Hk. revert prev. induction Hk as [sv|env envs d d' sv sv1 sv2 [Hsh _] Hcb Hn Hk IH]; intros prev Hl Hnd Ho.
  { exists prev. split; [done|]. rewrite filter_all; [done|]. constructor. }
  apply callback_order in Hcb as (mg & live & Hmg & Hlive & [Ho1|[? _]]); [|done]. rewrite Ho in Ho1.
  set (el := eligible_of mg live) in *. assert (Hel : eligible_in env = el) by (unfold eligible_in; by rewrite Hmg, Hlive).
  destruct (offer_sound (env_shuffle env) (Some prev) el Hsh Hnd) as [Hnd1 Hl1].
  destruct (IH _ Hl1 Hnd1 Ho1) as (later & Hlater & Hp). exists later. split; [done|].
  etransitivity; [|exact Hp]. destruct (offer_starts (env_shuffle env) prev el Hsh Hl) as [rest ->].
  rewrite filter_app. apply prefix_app_r. rewrite list_filter_filter.
  apply reflexive_eq, list_filter_iff. intros r. rewrite Forall_cons, Hel. tauto.
Qed.
End life.

(** C6 (invariant): whatever the score file held when the validator started, and
    whatever the rounds and restarts brought, as long as the process has not died:
    the engine is well formed (bounded windows, scores that follow from them), no
    known miner is out of range, the window is the release's, and the offered order
    has no duplicates and at most 256 miners.  After every round, moreover, every
    miner with a history is a registered miner. *)
Theorem service_invariant `{UD : !UnicodeData, SH : !Sha256, ZS : !Zstd, TR : !Tar, UP : !UrlParser,
    PM : !PyMath, NP : !NumPy, NA : !NumPyArray, PR : !PyRepr} (release : ValidatorPolicy)
    (policy : RoundPolicy) (path : pystr) (sv : service) :
  lives release policy path sv →
  sound release sv ∧
  ∀ env d d' sv', env_ok env → callback release policy path env d sv = Ok (d', sv') →
    ∀ uid, is_Some (histories (sv_engine sv') !! uid) → is_Some (hotkeys (sv_engine sv') !! uid).
Proof.
  intros Hl%lives_sound. split; [done|]. intros env d d' sv' Henv Hcb.
  apply callback_engine in Hcb as (_ & Ho & _); [|done..]. apply (owned_history _ Ho).
Qed.

(** C27 (roundtrip): a restart loses no score.  After a round at whose end the score file
    was replaced, a new process that finds this file, whatever metagraph it starts on,
    has the same histories, hotkeys and scores, and leaves the file alone. *)
Theorem restart_restores `{UD : !UnicodeData, SH : !Sha256, ZS : !Zstd, TR : !Tar, UP : !UrlParser,
    PM : !PyMath, NP : !NumPy, NA : !NumPyArray, PR : !PyRepr} (release : ValidatorPolicy)
    (policy : RoundPolicy) (path : pystr) (sv sv' : service) (env : RoundEnv) (d d' : option float)
    (mg : Metagraph) (now : float) (write : result unit) :
  lives release policy path sv → env_ok env → callback release policy path env d sv = Ok (d', sv') →
  path ≠ [] → env_write env = Ok () → sv_order sv' ≠ Some [] →
  (∀ s : list float, np_asarray (PList (map PFloat s)) = Ok (Some s)) →
  ∃ sv'', start_service release path mg now write (sv_file sv') = Ok sv'' ∧
    histories (sv_engine sv'') = histories (sv_engine sv') ∧
    hotkeys (sv_engine sv'') = hotkeys (sv_engine sv') ∧
    scores (sv_engine sv'') = scores (sv_engine sv') ∧ sv_file sv'' = sv_file sv'.
Proof.
  intros Hl Henv Hcb Hpath Hw Hne Hnp.
  assert (Hl' : lives release policy path sv').
  { eapply (lives_step _ _ _ sv (Round env d)); [done..|]. cbn [run_service]. by rewrite Hcb. }
  rewrite (callback_file _ _ _ _ _ _ _ _ Hcb Hpath Hw Hne).
  apply callback_engine in Hcb as (_ & Ho & _); [|by eapply lives_sound|done].
  by eapply start_saved.
Qed.

(** C7 (safety, one draw): within a process, a round that fails cannot be retried
    against another draw.  Over any callbacks none of which earned a fresh draw, the
    miners of an offer that stayed eligible throughout come first, and in the same
    order, in every later offer; and the order is only dropped by a round that
    completed or was abandoned without a quorum. *)
Theorem draw_is_kept `{UD : !UnicodeData, SH : !Sha256, ZS : !Zstd, TR : !Tar, UP : !UrlParser,
    PM : !PyMath, NP : !NumPy, NA : !NumPyArray, PR : !PyRepr} (release : ValidatorPolicy)
    (policy : RoundPolicy) (path : pystr) (sv sv' : service) (envs : list RoundEnv)
    (prev : list registration) :
  lives release policy path sv → sv_order sv = Some prev → keeps release policy path envs sv sv' →
  (∃ later, sv_order sv' = Some later ∧
     filter (λ r, Forall (λ env, r ∈ eligible_in env) envs) prev `prefix_of` later) ∧
  ∀ env d d' sv'', callback release policy path env d sv' = Ok (d', sv'') → sv_order sv'' = None →
    ∃ solver r,
      evaluate_round (H4 := env_client env) (H5 := solver) policy (env_host env)
        (next_offer (env_shuffle env) (sv_order sv') (eligible_in env) CANDIDATE_LIMIT) = Ok r ∧
      (rr_status r = completed ∨ rr_reason_code r = Some QUORUM_NOT_MET).
Proof.
  intros Hl%lives_sound Ho Hk. split.
  - destruct (sound_order _ _ Hl) as [Hnd Hlen]. rewrite Ho in Hnd, Hlen. by eapply keeps_order.
  - intros env d d' sv'' Hcb Hnone. apply callback_order in Hcb as (mg & live & Hmg & Hlive & [Hs|(_ & r & Hr & Hf)]).
    { by rewrite Hs in Hnone. }
    unfold eligible_in. rewrite Hmg, Hlive. by eexists _, r.
Qed.

(** ** Witnesses

    A subnet of an owner and three miners, a first start without a score file, a
    round without a task, and a round that completes. *)

Definition sample_metagraph : Metagraph :=
  {| mg_hotkeys := map ustr ["o"; "a"; "b"; "c"];
     mg_axons := replicate 4 {| axon_ip := Some (ustr "10.0.0.1"); axon_port := Some 8000 |};
     mg_validator_permit := None; mg_validator_trust := None; mg_owner_hotkey := Some (ustr "o") |}.

Definition idle_client : V3Client :=
  {| client_lease := λ _ _, Ok (lease_outcome PACED None (Some 204) [] (Some 60) []);
     client_commit := λ _, Ok None; client_feedback := λ _, Ok false |}.

Definition sample_env (client : V3Client) : RoundEnv :=
  {| env_sync := Ok sample_metagraph; env_shuffle := λ l, l; env_client := client;
     env_solve := solve_v3 (V3Solver := round_solver); env_host := round_host ∅;
     env_clock := float_of_int 600; env_clock' := float_of_int 601; env_monotonic := float_of_int 50;
     env_write := Ok () |}.

Definition sample_file : pystr := ustr "s.json".

Definition sample_start (file : result pyobj) : result service :=
  start_service (H4 := naive_math) (H6 := list_array) (H7 := no_repr) RELEASE_POLICY sample_file
    sample_metagraph f1 (Ok ()) file.

Definition sample_callback (client : V3Client) (sv : service) : result (option float * service) :=
  callback (H := ascii_unicode) (H0 := sha_const) (H1 := store_zstd) (H2 := round_tar) (H3 := one_url)
    (H4 := naive_math) RELEASE_POLICY EvaluateRoundSpec.round_policy sample_file (sample_env client) None sv.

Definition no_service : service := {| sv_engine := engine_a; sv_order := None; sv_file := Ok PNone |}.
Definition ok_or {A} (x : A) (r : result A) : A := match r with Ok y => y | Raise _ => x end.

Definition service_0 : service := ok_or no_service (sample_start (raise OSError "no file")).
Definition service_1 : service := (ok_or (None, no_service) (sample_callback idle_client service_0)).2.
Definition service_2 : service := (ok_or (None, no_service) (sample_callback round_client service_1)).2.

Abbreviation sample_lives :=
  (lives (UD := ascii_unicode) (SH := sha_const) (ZS := store_zstd) (TR := round_tar) (UP := one_url)
    (PM := naive_math) (NA := list_array) (PR := no_repr) RELEASE_POLICY EvaluateRoundSpec.round_policy sample_file).

Lemma sample_env_ok (client : V3Client) : env_ok (sample_env client).
Proof.
  split; [exact is_shuffle_id|]. intros mg [= <-]. repeat constructor; discriminate.
Qed.

Lemma service_0_lives : sample_lives service_0.
Proof. eapply (lives_start _ _ _ sample_metagraph f1 (Ok ()) (raise OSError "no file")). vm_compute. reflexivity. Qed.

Lemma service_1_lives : sample_lives service_1.
Proof.
  eapply (lives_step _ _ _ service_0 (Round (sample_env idle_client) None));
    [apply service_0_lives|apply sample_env_ok|vm_compute; reflexivity].
Qed.

Lemma service_invariant_witness : is_Some (hotkeys (sv_engine service_2) !! 1).
Proof.
  destruct (service_invariant (UD := ascii_unicode) (SH := sha_const) (ZS := store_zstd) (TR := round_tar)
    (UP := one_url) (PM := naive_math) (NP := naive_numpy) (NA := list_array) (PR := no_repr) RELEASE_POLICY
    EvaluateRoundSpec.round_policy sample_file service_1 service_1_lives) as [_ Hk].
  eapply (Hk (sample_env round_client) None None).
  - apply sample_env_ok.
  - vm_compute. reflexivity.
  - vm_compute. by eexists.
Defined.

Lemma restart_restores_witness :
  ∃ sv'', sample_start (sv_file service_2) = Ok sv'' ∧
    scores (sv_engine sv'') = scores (sv_engine service_2) ∧ zlen (scores (sv_engine sv'')) = 4.
Proof.
  destruct (restart_restores (UD := ascii_unicode) (SH := sha_const) (ZS := store_zstd) (TR := round_tar)
    (UP := one_url) (PM := naive_math) (NP := naive_numpy) (NA := list_array) (PR := no_repr) RELEASE_POLICY
    EvaluateRoundSpec.round_policy sample_file service_1 service_2 (sample_env round_client) None None
    sample_metagraph f1 (Ok ())) as (sv & Hs & _ & _ & Hsc & _).
  - apply service_1_lives.
  - apply sample_env_ok.
  - vm_compute. reflexivity.
  - discriminate.
  - reflexivity.
  - vm_compute. discriminate.
  - intros s. cbn [np_asarray list_array]. by rewrite (mapM_map _ _ id), map_id.
  - exists sv. split; [exact Hs|]. split; [exact Hsc|]. rewrite Hsc. vm_compute. reflexivity.
Defined.

Lemma draw_is_kept_witness :
  ∃ later, sv_order service_1 = Some later ∧
    [(1, ustr "a"); (2, ustr "b"); (3, ustr "c")] `prefix_of` later.
Proof.
  set (prev := [(1, ustr "a"); (2, ustr "b"); (3, ustr "c")]).
  set (again := (ok_or (None, no_service) (sample_callback idle_client service_1)).2).
  destruct (draw_is_kept (UD := ascii_unicode) (SH := sha_const) (ZS := store_zstd) (TR := round_tar)
    (UP := one_url) (PM := naive_math) (NP := naive_numpy) (NA := list_array) (PR := no_repr) RELEASE_POLICY
    EvaluateRoundSpec.round_policy sample_file service_1 again [sample_env idle_client] prev) as [(later & Hl & Hp) _].
  - apply service_1_lives.
  - vm_compute. reflexivity.
  - eapply (keeps_cons _ _ _ _ _ None); [apply sample_env_ok|vm_compute; reflexivity|vm_compute; discriminate|].
    apply keeps_nil.
  - exists later. split; [rewrite <-Hl; vm_compute; reflexivity|]. vm_compute in Hp. exact Hp.
Defined.
