(* ===== verification/PaymentSpec.v ===== *)
(** * From a verdict to the score window

    [pay_is_earned]: what a whole round callback adds to the histories of the engine, and
    what stands behind every payment. *)

From Stdlib Require Import SpecFloat.
From S2P Require Import Prelude PyFloat Text Json JsonSpec Canonical CanonicalSpec Wire Identity Api ApiSpec ProblemClient FileSystem Archive ArchiveSpec Workspace Download Supervisor Manifest Feedback Patch Grading GradingSpec EvalEngine EvalEngineSpec Selection Round EvaluateRound EvaluateRoundSpec ScoreState Validator Release Decentralized DecentralizedSpec.

Local Open Scope Z_scope.

(** What the payments rely on of [**]: two to a power that is not positive is finite. *)
Class PowLaws `{!PyMath} : Prop := {
  pow_finite (x : float) : isnan x = false → fltb f0 x = false → isfinite (fpow f2 x) = true
}.

Lemma float_of_nonpos (z : Z) : z <= 0 → signed true (float_of_int z) ∨ float_of_int z = f0.
Proof.
  destruct z as [|p|p]; [by right|lia|]. intros _. left.
  unfold float_of_int, fround, binary_normalize, binary_round.
  destruct (shl_align p 0 _) as [mz ez]. by apply binary_round_aux_signed.
Qed.

(** A delay over a half-life, negated, is an exponent that is not positive. *)
Lemma delay_exponent (delay : Z) (half_life : float) :
  0 <= delay → isfinite half_life = true → fleb half_life f0 = false →
  let x := fdiv (float_of_int (- delay)) half_life in isnan x = false ∧ fltb f0 x = false.
Proof.
  intros Hd Hfin Hpos. destruct (finite_positive _ Hfin Hpos) as (m & e & ->).
  destruct (float_of_nonpos (- delay) ltac:(lia)) as [Hs | ->]; [|done].
  by apply signed_true_not_pos, (fdiv_signed true false).
Qed.

Section flat.
Context `{PM : !PyMath, PL : !PowLaws}.

(** With a speed floor of one the latencies do not matter. *)
Lemma flat_payment (fastest : option Z) (half_life : float) (m : MinerEvaluation) :
  round_payment fastest half_life f1 m = if did_pass m then f1 else f0.
Proof.
  unfold round_payment. destruct (did_pass m); [|done]. destruct fastest as [fastest|]; [|done].
  cbn [negb]. destruct (negb (isfinite half_life) || fleb half_life f0) eqn:Hhl; [done|].
  apply orb_false_iff in Hhl as [Hfin%negb_false_iff Hpos].
  destruct (delay_exponent (Z.max 0 (me_latency_ms m - fastest)) half_life ltac:(lia) Hfin Hpos) as [Hn Hp].
  pose proof (pow_finite _ Hn Hp) as Hpow. cbv zeta. by destruct (fpow f2 _) as [[]|[]| |[] ? ?].
Qed.

(** What a round records for a UID: one for a pass, zero for a verdict that is none, and
    zero for a miner with a history that is gone. *)
Definition flat_observation (e : engine) (r : RoundResult) (active : gmap Z pystr) (uid : Z) : option float :=
  match find (λ m, bool_decide (me_uid m = uid)) (eligible_evaluations r active) with
  | Some m => Some (if did_pass m then f1 else f0)
  | None =>
      if decide (decay e = true ∧ is_Some (histories e !! uid) ∧ uid ∉ dom active) then Some f0 else None
  end.

Lemma round_observation_flat (e : engine) (r : RoundResult) (active : gmap Z pystr) (half_life : float) (uid : Z) :
  round_observation e r active half_life f1 uid = flat_observation e r active uid.
Proof.
  unfold round_observation, flat_observation. destruct (find _ _) as [m|]; [|done].
  change (fmin f1 (fmax f0 f1)) with f1. by rewrite flat_payment.
Qed.
End flat.

(** ** The miners of an offer *)

Lemma offered_nonneg (sh : list registration → list registration) (prev : option (list registration))
    (mg : Metagraph) (live : list registration) (n : Z) (reg : registration) :
  is_shuffle sh → NoDup (default [] prev) → solver_clients mg = Ok live →
  reg ∈ slice_to n (next_offer sh prev (eligible_of mg live) CANDIDATE_LIMIT) → 0 <= reg.1.
Proof.
  intros Hs Hnd Hlive Hin. destruct (offer_full_spec sh Hs prev (eligible_of mg live) Hnd) as [_ Hf].
  eapply elem_of_submseteq in Hin; [|apply sublist_submseteq, slice_to_sublist].
  eapply elem_of_submseteq in Hin; [|apply sublist_submseteq, slice_to_sublist].
  apply Hf in Hin. unfold eligible_of, eligible_miners in Hin. apply list_elem_of_filter in Hin as [_ Hin].
  destruct reg as [u k]. eapply solver_clients_registered, elem_of_enumerate in Hin; [|exact Hlive]. by destruct Hin.
Qed.

(** C2 (safety): pay follows the verdicts of the round, and every payment was earned.  The
    callback draws its offer from the miners that serve.  With no offer the engine stays as
    the metagraph made it.  Otherwise the round of exactly this offer has a result; when the
    round did not complete the engine stays so too; when it completed every history moved by
    its observation (the release's speed floor is one): exactly one for a miner that passed
    and still holds its registration, zero for one that did not pass and for a scored miner
    that is gone, and nothing for anybody else.  Nobody is judged twice, and behind each pass
    of this round is the chain of [earned_by], from the task to the last check. *)
Theorem pay_is_earned `{UD : !UnicodeData, SH : !Sha256, ZS : !Zstd, TR : !Tar, UP : !UrlParser,
    PM : !PyMath, NP : !NumPy, NA : !NumPyArray, PR : !PyRepr, PL : !PowLaws} (release : ValidatorPolicy)
    (policy : RoundPolicy) (path : pystr) (sv sv' : service) (env : RoundEnv) (d d' : option float) :
  lives release policy path sv → env_ok env → check_round_policy policy = Ok () →
  payment_speed_floor release = f1 →
  V3ClientLaws (H1 := env_client env) → V3SolverLaws (H := solvers_of env [] []) →
  isfinite (env_clock env) = true → fltb (env_clock env) f0 = false →
  callback release policy path env d sv = Ok (d', sv') →
  ∃ mg live e, env_sync env = Ok mg ∧ solver_clients mg = Ok live ∧ track_metagraph (sv_engine sv) mg = Ok e ∧
    let offered := next_offer (env_shuffle env) (sv_order sv) (eligible_of mg live) CANDIDATE_LIMIT in
    let VC := env_client env in
    let VS := solvers_of env live offered in
    (offered = [] → sv_engine sv' = e) ∧
    (offered ≠ [] → ∃ r, evaluate_round policy (env_host env) offered = Ok r ∧
       (rr_status r ≠ completed → sv_engine sv' = e) ∧
       (rr_status r = completed →
          (∀ uid, histories (sv_engine sv') !! uid =
             window_after e (flat_observation e r (list_to_map live) uid) (env_clock env) (histories e !! uid)) ∧
          NoDup (map me_uid (rr_evaluations r)) ∧
          ∀ m, m ∈ rr_evaluations r → did_pass m = true → pass_earned policy (env_host env) offered m)).
Proof.
  intros Hl%lives_sound [Hsh Hne] Hpol Hfloor CL SL Hc1 Hc2. unfold callback.
  intros (mg & Hmg & (e & He & (live & Hlive & H)%bind_Ok)%bind_Ok)%bind_Ok.
  exists mg, live, e. do 3 (split; [done|]). cbv zeta.
  assert (Hwf : wf e).
  { destruct Hl as [Hw Hk _ _]. by apply (track_metagraph_owned _ _ mg He Hw Hk (Hne mg Hmg)). }
  set (offered := next_offer _ _ _ _) in *. case_bool_decide as Hoff; [by injection H as _ <-|].
  split; [intros Ho; by destruct (Hoff Ho)|intros _].
  apply bind_Ok in H as (r & Hr & ([d1 e1] & Hs & ([b file] & _ & [= _ <-])%bind_Ok)%bind_Ok). cbn [sv_engine].
  exists r. split; [exact Hr|]. unfold settle_result in Hs. split.
  { intros Hst. destruct (rr_status r); [done| |].
    - destruct (lease_deferral_s _); [apply bind_Ok in Hs as (? & _ & [= _ <-])|injection Hs as _ <-]; done.
    - by injection Hs as _ <-. }
  intros Hst. rewrite Hst in Hs.
  set (VS := solvers_of env live offered). assert (SL' : V3SolverLaws (H := VS)) by (constructor; apply SL).
  unfold evaluate_round in Hr. rewrite bool_decide_eq_false_2 in Hr by done.
  apply bind_Ok in Hr as (o & Ho & Hr). destruct (lo_challenge o) as [lease|] eqn:Hlease; [|by injection Hr as <-].
  injection Hr as Hr.
  destruct (run_round_judges (VC := env_client env) (VS := VS) _ _ _ _ _ Hpol Hr Hst) as [Hperm Hnd].
  assert (Hpos : Forall (λ m, 0 <= me_uid m) (rr_evaluations r)).
  { apply Forall_forall. intros m Hm. assert (Hin : evaluated m ∈ first_offered policy offered).
    { rewrite <-Hperm. by apply list_elem_of_fmap_2. }
    eapply (offered_nonneg _ _ mg live _ (evaluated m)); [exact Hsh| |exact Hlive|exact Hin].
    by destruct (sound_order _ _ Hl). }
  destruct (round_scores r e (env_clock env) (env_clock' env) (list_to_map live)
    (payment_speed_half_life_ms release) (payment_speed_floor release)) as [_ Hsc]; try done.
  destruct (Hsc Hst) as (e2 & He2 & Hh). rewrite He2 in Hs. injection Hs as _ <-. split_and!; [|done|].
  - intros uid. by rewrite Hh, Hfloor, round_observation_flat.
  - intros m Hm Hp.
    destruct (run_round_passed (VC := env_client env) (VS := VS) _ _ _ _ _ m Hpol Hr Hst Hm Hp) as [v Hv].
    by exists o, lease, v.
Qed.

(** ** Witness: the round of [DecentralizedSpec], in which one miner passes *)

Lemma naive_pow : PowLaws (H := naive_math).
Proof. constructor. intros x _ _. reflexivity. Qed.

Lemma pay_is_earned_witness :
  histories (sv_engine service_2) !! 1 = Some [(float_of_int 600, f1)] ∧
  ∃ live offered r m, evaluate_round (H := ascii_unicode) (H0 := sha_const) (H1 := store_zstd) (H2 := round_tar)
      (H3 := one_url) (H4 := round_client) (H5 := solvers_of (sample_env round_client) live offered)
      EvaluateRoundSpec.round_policy (round_host ∅) offered = Ok r ∧
    rr_status r = completed ∧ m ∈ rr_evaluations r ∧ did_pass m = true ∧
    pass_earned (H := ascii_unicode) (H0 := sha_const) (H1 := store_zstd) (H2 := round_tar) (H3 := one_url)
      (H4 := round_client) (H5 := solvers_of (sample_env round_client) live offered)
      EvaluateRoundSpec.round_policy (round_host ∅) offered m.
Proof.
  split; [vm_compute; reflexivity|].
  destruct (pay_is_earned (UD := ascii_unicode) (SH := sha_const) (ZS := store_zstd) (TR := round_tar)
    (UP := one_url) (PM := naive_math) (NP := naive_numpy) (NA := list_array) (PR := no_repr) (PL := naive_pow)
    RELEASE_POLICY EvaluateRoundSpec.round_policy sample_file service_1 service_2 (sample_env round_client)
    None None) as (mg & live & e & Hmg & Hlive & He & Hnone & Hsome).
  - apply service_1_lives.
  - apply sample_env_ok.
  - reflexivity.
  - reflexivity.
  - exact round_client_laws.
  - constructor. exact (solver_identity (V3SolverLaws := round_solver_laws)).
  - reflexivity.
  - reflexivity.
  - vm_compute. reflexivity.
  - injection Hmg as <-. vm_compute in Hlive. injection Hlive as <-.
    destruct Hsome as (r & Hr & Hnot & Hdone); [vm_compute; discriminate|]. pose proof Hr as Hr'. vm_compute in Hr'.
    injection Hr' as Hr'. subst r. destruct Hdone as (_ & _ & Hp); [reflexivity|].
    eexists _, _, _, _. split; [exact Hr|]. split; [reflexivity|]. split; [left|]. split; [reflexivity|].
    apply Hp; [left|reflexivity].
Defined.
