(* ===== verification/Startup.v ===== *)
(** * Start-up of a validator, and what it reports
    ([src/rlvr/neurons/decentralized.py], [src/rlvr/neurons/base.py])

    [startup] is [_run_decentralized_validator_async] up to the run loop; what it finds
    (the chain, the wallet, the score file, the host) is a [StartEnv].  [after_round] is
    what leaves the validator about a round, [weight_failure_report] what is printed of a
    submission that failed without a message.

    [starts]: exactly when a validator starts, and with what.  [reported_once_saved],
    [weight_detail_plain]. *)

From Stdlib Require Import SpecFloat.
From S2P Require Import Prelude PyFloat Text Json Canonical Wire Identity Codecs Api ApiSpec Protocol ProtocolSpec ProblemClient FileSystem Archive ArchiveSpec Workspace Download Supervisor Manifest Feedback Patch Grading EvalEngine EvalEngineSpec Selection Round EvaluateRound EvaluateRoundSpec ScoreState Validator Release Live MinerSpec Decentralized DecentralizedSpec Diagnostics FeedbackSender FeedbackSenderSpec Config Challenge TraceCheck.

Local Open Scope Z_scope.

(** ** A submission that failed *)

Definition MAX_WEIGHT_DETAIL_CHARS : Z := 200.
Definition MAX_WEIGHT_FIELD_CHARS : Z := 80.

(** An attribute of the SDK's result.  [empty]: a container without items, or the number
    zero; asking that, or for the [repr], may raise. *)
Inductive SdkField :=
  | NoField
  | NothingField
  | TextField (s : pystr)
  | OtherField (empty : result bool) (repr : result pystr).

Section reports.
Context `{!UnicodeData}.

Definition field_text (f : SdkField) : pystr :=
  match f with
  | NoField | NothingField => []
  | TextField s => s
  | OtherField empty repr =>
      match empty with
      | Ok false => match repr with Ok s => s | Raise _ => [] end
      | _ => []
      end
  end.

Definition render_field (name : string) (f : SdkField) : pystr :=
  let rendered := filter (λ c, py_isprintable c = true) (join [32%N] (split_ws (field_text f))) in
  match rendered with
  | [] => []
  | _ =>
      ustr name ++ [61%N]
      ++ (if MAX_WEIGHT_FIELD_CHARS <? zlen rendered
          then slice_to (MAX_WEIGHT_FIELD_CHARS - 3) rendered ++ ustr "..." else rendered)
  end.

Definition weight_failure_detail (error data : SdkField) : pystr :=
  slice_to MAX_WEIGHT_DETAIL_CHARS
    (join [32%N] (filter (λ p, p ≠ []) [render_field "error" error; render_field "data" data])).

(** What the chain and the validator answer when a submission failed. *)
Record FailureEnv := {
  fe_current_block : result Z;
  fe_last_update : result Z;
  fe_chain_limit : option Z;
  fe_interval : option Z
}.

Definition shown_block (n : option Z) : pystr := match n with Some n => str_of_int n | None => ustr "unknown" end.

Definition weight_failure_report (r : WeightResponse) (error data : SdkField) (env : FailureEnv) : pystr :=
  let '(ok, message) := weight_result_status r in
  if ok || negb (bool_decide (message = [])) then []
  else
    match weight_failure_detail error data with
    | _ :: _ as detail => detail
    | [] =>
        let current := result_to_option (fe_current_block env) in
        let last_update := result_to_option (fe_last_update env) in
        let elapsed := match current, last_update with Some c, Some l => Some (c - l) | _, _ => None end in
        let limit := fe_chain_limit env in
        ustr "current_block=" ++ shown_block current ++ ustr " last_update_block=" ++ shown_block last_update
        ++ ustr " blocks_elapsed=" ++ shown_block elapsed ++ ustr " chain_limit=" ++ shown_block limit
        ++ ustr " effective_interval=" ++ shown_block (fe_interval env)
        ++ match elapsed, limit with
           | Some _, Some _ => ustr " rate_limited=" ++ (if weights_rate_limited elapsed limit then ustr "True" else ustr "False")
           | _, _ => []
           end
    end.
End reports.

(** ** The host *)

(** [weights_rate_limit(netuid)]: it raises, is no integer, or is one. *)
Inductive LimitReply := LimitFailed | LimitNoInteger | LimitBlocks (n : Z).

Definition read_weights_rate_limit (r : LimitReply) : option Z :=
  match r with LimitBlocks n => if n <=? 0 then None else Some n | _ => None end.

(** Both limits of [httpx.Limits]: connections, and those kept alive. *)
Definition validator_http_limits (s : Settings) : Z * Z :=
  let dispatch := Z.max 1 (validator_dispatch_concurrency s) in (dispatch + 8, Z.min dispatch 64).

Definition KEEPALIVE_IDLE_S : Z := 60.
Definition KEEPALIVE_INTERVAL_S : Z := 60.
Definition KEEPALIVE_PROBES : Z := 60.

(** The names of a directory's path, last first; [None]: no ancestor exists, and the loop
    does not end. *)
Fixpoint existing_ancestor (exists_at : list pystr → bool) (path : list pystr) : option (list pystr) :=
  if exists_at path then Some path
  else match path with [] => None | _ :: parent => existing_ancestor exists_at parent end.

Record StartEnv := {
  st_metagraph : result Metagraph;   (* bittensor, the wallet, the chain and its metagraph *)
  st_registered : result bool;
  st_hotkey : pystr;
  st_rate_limit : LimitReply;
  st_now : float;
  st_write : result unit;
  st_file : result pyobj;
  st_state_dir : list pystr;
  st_state_path : pystr;             (* the same directory, as text *)
  st_cpu_count : option Z;
  st_memory_bytes : result Z;
  st_exists : list pystr → bool;
  st_free_bytes : list pystr → result Z;
  st_uid : Z;
  st_gid : Z;
  st_docker : bool
}.

Section start.
Context `{!PyMath, !NumPyArray, !PyRepr, !UrlSplit}.
Context (env : StartEnv) (policy : ValidatorPolicy).

(** [setup_bittensor]: the metagraph, and the UID of the wallet's hotkey. *)
Definition setup_bittensor : result (Metagraph * Z) :=
  mg ← st_metagraph env;
  registered ← st_registered env;
  raise_if (negb registered) RuntimeError "Hotkey is not registered on the subnet";;
  match list_find (λ h, h = st_hotkey env) (mg_hotkeys mg) with
  | Some (i, _) => mret (mg, Z.of_nat i)
  | None => raise ValueError "hotkey is not in list"
  end.

(** [None]: it does not end. *)
Definition grading_concurrency_of (s : Settings) : option (result Z) :=
  match validator_grading_concurrency s with
  | Some n => Some (Ok n)
  | None =>
      let cpus := match st_cpu_count env with Some n => if n =? 0 then 1 else n | None => 1 end in
      match st_memory_bytes env with
      | Raise e => Some (Raise e)
      | Ok memory =>
          match existing_ancestor (st_exists env) (st_state_dir env) with
          | None => None
          | Some probe =>
              Some (free ← st_free_bytes env probe;
                    mret (default_grading_concurrency policy cpus memory free))
          end
      end
  end.

(** What the run loop starts with. *)
Record Started := {
  sd_uid : Z;
  sd_chain_limit : option Z;
  sd_weights_interval : Z;
  sd_service : service;
  sd_round_policy : RoundPolicy;
  sd_log : EvaluationLog;
  sd_client : pystr * Z * Z;
  sd_gate : SendGate
}.

Definition diagnostics_path (s : Settings) : pystr :=
  default (st_state_path env ++ ustr "/v3_evaluations.jsonl") (validator_diagnostics_file s).

Definition startup (s : Settings) : option (result Started) :=
  match (require_secure_problem_url (problem_server_url s) (problem_server_allow_insecure_http s);;
         '(mg, uid) ← setup_bittensor;
         sv ← start_service policy (validator_score_state_file s) mg (st_now env) (st_write env) (st_file env);
         mret (uid, sv)) with
  | Raise e => Some (Raise e)
  | Ok (uid, sv) =>
      let limit := read_weights_rate_limit (st_rate_limit env) in
      (λ grading,
         grading ← grading;
         rounds ← round_policy policy (st_uid env) (st_gid env) (st_docker env) (validator_dispatch_concurrency s) grading;
         log ← evaluation_log (diagnostics_path s) MAX_FILE_BYTES BACKUP_COUNT;
         client ← ProblemServerClient_init (problem_server_url s) (problem_server_allow_insecure_http s) 3
                    (v3_problem_response_read_bytes policy);
         gate ← SendGate_init (validator_send_concurrency s);
         mret {| sd_uid := uid; sd_chain_limit := limit;
                 sd_weights_interval := effective_weights_interval (weights_interval_blocks policy) limit; sd_service := sv;
                 sd_round_policy := rounds; sd_log := log; sd_client := client; sd_gate := gate |})
      <$> grading_concurrency_of s
  end.
End start.

(** ** After a round *)

(** Whether [set_weights] was reached once, so that its response is not logged again. *)
Definition weight_setter_turn `{!NumPy} (p : ValidatorPolicy) (set_weights : list Z → list float → result WeightResponse)
    (e : engine) (hotkeys : list pystr) (uids : list Z) (logged : bool) : result (option bool * bool) :=
  r ← submit_local_weights p set_weights e hotkeys uids;
  mret (r, logged || bool_decide (is_Some r)).

Section after.
Context `{!UnicodeData, !Sha256, !Keypair}.
Context (dump_notice : MinerFailureNotice → pystr) (dump_trace : TraceCheckRequest → pystr) (randbelow : nat → Z).
Context (wallet : Hotkey) (s : Settings).

(** The requests that follow a round: notices for the miners, tickets for the service.
    [saved]: the scores were written; what a part raises stays in it. *)
Definition after_round (saved : bool) (r : RoundResult) (live : list LiveSolverClient) (jobs : Z * pystr → JobEnv)
    (tickets : TraceCheckRequest → TicketEnv) : list notice_request * list ticket_request :=
  (if saved && validator_failure_notices s
   then concat (send_failure_notices dump_notice wallet r live (validator_failed_check_details s) jobs).2 else [],
   if saved && negb (bool_decide (validator_trace_check_url s = []))
   then match send_trace_checks dump_trace randbelow wallet (validator_trace_check_url s) (validator_trace_check_hotkey s)
                (validator_trace_check_rate s) r tickets with
        | Ok (_, sent) => sent
        | Raise _ => []
        end
   else []).
End after.

(** ** Properties *)

(** Texts of printable characters. *)
Definition plain_text `{!UnicodeData} (s : pystr) : Prop := ∀ c, c ∈ s → py_isprintable c = true.

(** A text of printable ASCII, and numbers in one. *)
Definition ascii_printable (s : pystr) : bool := forallb (λ c, (32 <=? c)%N && (c <? 127)%N) s.

Section plain.
Context `{UD : !UnicodeData}.
Context (ascii_prints : ∀ c : N, (32 <= c < 127)%N → py_isprintable c = true).

Lemma ascii_plain (s : pystr) : ascii_printable s = true → plain_text s.
Proof.
  unfold ascii_printable. rewrite forallb_forall. intros Hs c Hc%list_elem_of_In. apply Hs in Hc.
  apply andb_true_iff in Hc as [?%N.leb_le ?%N.ltb_lt]. by apply ascii_prints.
Qed.

Lemma plain_app (s t : pystr) : plain_text s → plain_text t → plain_text (s ++ t).
Proof. intros Hs Ht c [Hc|Hc]%elem_of_app; auto. Qed.

Lemma render_field_spec (name : string) (f : SdkField) :
  ascii_printable (ustr name) = true →
  plain_text (render_field name f) ∧ zlen (render_field name f) <= zlen (ustr name) + 81.
Proof.
  intros Hn. unfold render_field. set (r := filter _ _).
  assert (Hr : plain_text r) by (by intros c [Hc _]%list_elem_of_filter). clearbody r. destruct r as [|x r]; [split; [by intros c ?%elem_of_nil|]|].
  { pose proof (zlen_nonneg (ustr name)). change (zlen ([] : pystr)) with 0. lia. }
  split.
  - apply plain_app; [by apply ascii_plain|]. apply (plain_app [61%N]); [by apply ascii_plain|].
    case_match; [|done]. apply plain_app; [|by apply ascii_plain; vm_compute]. intros c Hc%elem_of_slice_to. by apply Hr.
  - assert (H : ∀ t : pystr, zlen t <= 80 → zlen (ustr name ++ [61%N] ++ t) <= zlen (ustr name) + 81).
    { intros t Ht. unfold zlen in *. rewrite !length_app. cbn [length]. lia. }
    apply H. destruct (Z.ltb_spec MAX_WEIGHT_FIELD_CHARS (zlen (x :: r))) as [Hlt|Hle]; [|exact Hle].
    unfold zlen. rewrite length_app. pose proof (slice_to_length (MAX_WEIGHT_FIELD_CHARS - 3) (x :: r) ltac:(done)) as Hl.
    unfold zlen in Hl. unfold MAX_WEIGHT_FIELD_CHARS in *. change (length (ustr "...")) with 3%nat. lia.
Qed.

(** (bounds): what is printed of a failed submission is one line of at most 172 printable
    characters, whatever the SDK's result holds and whatever its attributes raise; the
    final cut at 200 characters takes nothing away. *)
Theorem weight_detail_plain (error data : SdkField) :
  let parts := filter (λ p, p ≠ []) [render_field "error" error; render_field "data" data] in
  weight_failure_detail error data = join [32%N] parts ∧ zlen (weight_failure_detail error data) <= 172 ∧
  plain_text (weight_failure_detail error data).
Proof.
  intros parts. destruct (render_field_spec "error" error eq_refl) as [He Hez].
  destruct (render_field_spec "data" data eq_refl) as [Hd Hdz].
  change (zlen (ustr "error") + 81) with 86 in Hez. change (zlen (ustr "data") + 81) with 85 in Hdz.
  assert (Hj : zlen (join [32%N] parts) <= 172 ∧ plain_text (join [32%N] parts)).
  { unfold parts. rewrite !filter_cons, filter_nil. pose proof (zlen_nonneg (render_field "error" error)).
    pose proof (zlen_nonneg (render_field "data" data)).
    repeat case_decide; cbn [join]; (split; [unfold zlen in *; rewrite ?length_app; cbn [length] in *; lia|]);
      try done; try (by intros c ?%elem_of_nil).
    apply plain_app; [done|]. apply (plain_app [32%N]); [by apply ascii_plain|done]. }
  destruct Hj as [Hz Hp]. unfold weight_failure_detail. fold parts.
  rewrite slice_to_all by (unfold MAX_WEIGHT_DETAIL_CHARS; lia). done.
Qed.
End plain.

Lemma existing_ancestor_Some (exists_at : list pystr → bool) (path : list pystr) :
  exists_at [] = true → ∃ probe, existing_ancestor exists_at path = Some probe ∧ exists_at probe = true ∧ probe `suffix_of` path.
Proof.
  intros Hroot. induction path as [|x path IH]; cbn [existing_ancestor].
  - rewrite Hroot. by exists [].
  - destruct (exists_at (x :: path)) eqn:Hx; [by exists (x :: path)|].
    destruct IH as (probe & -> & Hp & Hs). exists probe. split_and!; [done|done|by apply suffix_cons_r].
Qed.

Section starting.
Context `{UD : !UnicodeData, SH : !Sha256, ZS : !Zstd, TR : !Tar, UP : !UrlParser, PM : !PyMath, NP : !NumPy,
  NA : !NumPyArray, PR : !PyRepr, US : !UrlSplit}.
Implicit Types (env : StartEnv) (s : Settings).

(** The chain answers, and the wallet's hotkey is registered. *)
Definition on_chain env (mg : Metagraph) : Prop :=
  st_metagraph env = Ok mg ∧ st_registered env = Ok true ∧ st_hotkey env ∈ mg_hotkeys mg.

Lemma setup_bittensor_Ok env (mg : Metagraph) (uid : Z) :
  setup_bittensor env = Ok (mg, uid) → on_chain env mg ∧ 0 <= uid ∧ mg_hotkeys mg !! Z.to_nat uid = Some (st_hotkey env).
Proof.
  unfold setup_bittensor, on_chain. intros (m & Hm & (reg & Hr & [Hreg%negb_false_iff H]%guard_Ok)%bind_Ok)%bind_Ok. subst reg.
  destruct (list_find _ _) as [[i h]|] eqn:Hf; [|done]. injection H as -> <-.
  apply list_find_Some in Hf as (Hi & -> & _). split_and!; [done|done| |lia|by rewrite Nat2Z.id].
  by eapply list_elem_of_lookup_2.
Qed.

Lemma setup_bittensor_is_ok env (mg : Metagraph) : on_chain env mg → ∃ uid, setup_bittensor env = Ok (mg, uid).
Proof.
  intros (Hm & Hr & Hin). unfold setup_bittensor. rewrite Hm, Hr. cbn [mbind result_bind negb raise_if].
  destruct (list_find _ _) as [[i h]|] eqn:Hf; [by eexists|]. apply list_find_None in Hf.
  rewrite Forall_forall in Hf. by apply Hf in Hin.
Qed.

Lemma start_service_release (path : pystr) (mg : Metagraph) (now : float) (write : result unit) (file : result pyobj) :
  ∃ sv, start_service RELEASE_POLICY path mg now write file = Ok sv.
Proof.
  assert (He : ∃ e, EvalEngine_init (zlen (mg_hotkeys mg)) (float_of_int 57600) (score_window_max_samples RELEASE_POLICY)
    (score_window_min_samples RELEASE_POLICY) (decay_nonresponders RELEASE_POLICY) (Some (policy_rank_decay RELEASE_POLICY)) = Ok e).
  { eexists. unfold EvalEngine_init. apply guard_Ok. split; [apply Z.ltb_ge, zlen_nonneg|].
    repeat (apply guard_Ok; split; [vm_compute; reflexivity|]). reflexivity. }
  destruct He as [e He]. unfold start_service. rewrite He. cbn [mbind result_bind].
  destruct (load_scores _ _ _ _ _) as [e' file']. by eexists.
Qed.

Lemma send_gate_init (capacity : Z) : 1 <= capacity →
  SendGate_init capacity = Ok {| gate_capacity := capacity; gate_available := capacity; gate_released := [] |}.
Proof. intros H. unfold SendGate_init. by rewrite (proj2 (Z.ltb_ge _ _)). Qed.

Lemma settings_limits (raw s : Settings) :
  get_settings raw = Ok s →
  1 <= validator_dispatch_concurrency s <= 1024 ∧ 1 <= validator_send_concurrency s <= 1024 ∧
  ∀ n, validator_grading_concurrency s = Some n → 1 <= n <= 16.
Proof.
  intros (Hs & _)%settings_settle. unfold get_settings in Hs. apply guard_Ok in Hs as [Hf%negb_false_iff _].
  unfold Settings_fields, between in Hf. rewrite !andb_true_iff, !Z.leb_le in Hf.
  split_and!; try tauto. intros n Hn. rewrite Hn, !andb_true_iff, !Z.leb_le in Hf. tauto.
Qed.

(** C30 (functional): the validator starts exactly when its problem server's address is secure, the
    chain answers and knows its hotkey, it does not run as root, docker is there and the
    host could be measured; start-up always ends.  It then runs with its own UID, a
    release round policy with 128 miners, a quorum of 4 and 1 to 16 concurrent gradings,
    a whole send gate, a weights interval the chain admits, and a service whose scores
    are sound whatever the score file held. *)
Theorem starts (raw s : Settings) env :
  get_settings raw = Ok s → st_exists env [] = true →
  ∃ r, startup env RELEASE_POLICY s = Some r ∧
    (is_ok r = true ↔
       require_secure_problem_url (problem_server_url s) (problem_server_allow_insecure_http s) = Ok () ∧
       (∃ mg, on_chain env mg) ∧ 0 < st_uid env ∧ 0 < st_gid env ∧ st_docker env = true ∧
       ∃ n, grading_concurrency_of env RELEASE_POLICY s = Some (Ok n)) ∧
    ∀ d, r = Ok d → ∃ mg, on_chain env mg ∧ mg_hotkeys mg !! Z.to_nat (sd_uid d) = Some (st_hotkey env) ∧
      (miners_per_task (sd_round_policy d) = 128 ∧ commit_quorum (sd_round_policy d) = 4 ∧
       1 <= grading_concurrency (sd_round_policy d) <= 16 ∧ check_round_policy (sd_round_policy d) = Ok ()) ∧
      gate_available (sd_gate d) = validator_send_concurrency s ∧ gate_sound (sd_gate d) ∧
      (180 <= sd_weights_interval d ∧ ∀ limit, sd_chain_limit d = Some limit → limit < sd_weights_interval d) ∧
      lives RELEASE_POLICY (sd_round_policy d) (validator_score_state_file s) (sd_service d).
Proof.
  intros Hs Hroot. destruct (settings_limits raw s Hs) as (Hdisp & Hsend & Hgrade). unfold startup.
  destruct (grading_concurrency_of env RELEASE_POLICY s) as [g|] eqn:Hg.
  2:{ exfalso. unfold grading_concurrency_of in Hg. destruct (validator_grading_concurrency s); [done|].
      destruct (st_memory_bytes env); [|done]. destruct (existing_ancestor_Some (st_exists env) (st_state_dir env) Hroot) as (? & He & _).
      by rewrite He in Hg. }
  assert (Hgb : ∀ n, g = Ok n → 1 <= n <= 16).
  { intros n ->. unfold grading_concurrency_of in Hg. destruct (validator_grading_concurrency s) as [k|]; [injection Hg as ->; by apply Hgrade|].
    destruct (st_memory_bytes env) as [memory|]; [|done]. destruct (existing_ancestor _ _) as [probe|]; [|done].
    injection Hg as Hg. apply bind_Ok in Hg as (free & _ & [= <-]). apply default_grading_fits. by vm_compute. }
  destruct (require_secure_problem_url _ _) as [[]|e] eqn:Hsec.
  2:{ eexists. split; [reflexivity|]. split; [|done]. split; [done|]. by intros [? _]. }
  cbn [mbind result_bind]. destruct (setup_bittensor env) as [[mg uid]|e] eqn:Hset.
  2:{ eexists. split; [reflexivity|]. split; [|done]. split; [done|]. intros (_ & (mg & Hmg) & _).
      destruct (setup_bittensor_is_ok env mg Hmg) as [uid Hu]. by rewrite Hu in Hset. }
  pose proof (setup_bittensor_Ok env mg uid Hset) as (Hchain & _ & Huid).
  destruct (start_service_release (validator_score_state_file s) mg (st_now env) (st_write env) (st_file env)) as [sv Hsv].
  cbn [mbind result_bind]. rewrite Hsv. cbn [mbind result_bind mret result_ret]. eexists. split; [reflexivity|].
  set (policy_of n := round_policy RELEASE_POLICY (st_uid env) (st_gid env) (st_docker env) (validator_dispatch_concurrency s) n).
  pose proof (λ n, release_round_policy (st_uid env) (st_gid env) (validator_dispatch_concurrency s) n (st_docker env)) as Hrel.
  assert (Hlog : is_ok (evaluation_log (diagnostics_path env s) MAX_FILE_BYTES BACKUP_COUNT) = true) by reflexivity.
  apply is_ok_true in Hlog as [log Hlog]. rewrite Hlog.
  unfold ProblemServerClient_init. rewrite Hsec, send_gate_init by lia. cbn [mbind result_bind].
  split.
  - rewrite is_ok_true. split.
    + intros (d & (n & Hn & (rp & Hrp & _)%bind_Ok)%bind_Ok).
      assert (Hok : is_ok (policy_of n) = true) by (by rewrite Hrp).
      apply (proj1 (proj2 (Hrel n))) in Hok as (? & ? & ? & _). split_and!; [done|by exists mg|done|done|done|].
      exists n. by rewrite Hn.
    + intros (_ & _ & Hu & Hgi & Hd & n & [= ->]). cbn [mbind result_bind].
      assert (Hok : is_ok (policy_of n) = true) by (apply (proj1 (proj2 (Hrel n))); split_and!; try done; [lia|apply Hgb; done]).
      apply is_ok_true in Hok as [rp Hrp]. rewrite Hrp. by eexists.
  - intros d (n & Hn & (rp & Hrp & [= <-])%bind_Ok)%bind_Ok. exists mg.
    cbn [sd_uid sd_round_policy sd_gate sd_chain_limit sd_weights_interval sd_service gate_available].
    destruct (proj2 (proj2 (Hrel n)) rp Hrp) as (H1 & H2 & H3 & _ & _ & _ & _ & H4). split_and!; try done.
    + rewrite H4. by apply Hgb.
    + rewrite H4. by apply Hgb.
    + unfold gate_sound, outstanding, zlen. cbn. lia.
    + unfold effective_weights_interval. change (weights_interval_blocks RELEASE_POLICY) with 180.
      destruct (read_weights_rate_limit _); [|lia]. destruct (_ <=? 0); lia.
    + intros limit Hl. rewrite Hl. unfold read_weights_rate_limit in Hl. destruct (st_rate_limit env) as [| |b]; [done|done|].
      destruct (Z.leb_spec b 0); [done|]. injection Hl as ->. unfold effective_weights_interval.
      rewrite (proj2 (Z.leb_gt _ _)) by done. unfold WEIGHTS_RATE_LIMIT_MARGIN. lia.
    + eapply lives_start. exact Hsv.
Qed.
End starting.

(** ** What leaves the validator *)

Section reporting.
Context `{UD : !UnicodeData, SH : !Sha256, KP : !Keypair}.
Context (dump_notice : MinerFailureNotice → pystr) (dump_trace : TraceCheckRequest → pystr) (randbelow : nat → Z).
Context (wallet : Hotkey) (s : Settings).

Lemma post_client (client : LiveSolverClient) (notice : MinerFailureNotice) (env : PostEnv) (request : notice_request) :
  request ∈ (FeedbackSender.post dump_notice wallet client notice env).2 → nr_client request = client.
Proof.
  unfold FeedbackSender.post. destruct (notice_request_of _ _ _ _ _) as [q|] eqn:Hq; [|by intros ?%elem_of_nil].
  intros ->%list_elem_of_singleton. unfold notice_request_of in Hq. by apply bind_Ok in Hq as (b & _ & (h & _ & [= <-])%bind_Ok).
Qed.

Lemma deliver_client (env : JobEnv) (j : job) (request : notice_request) :
  request ∈ (deliver dump_notice wallet env j).2 → nr_client request = j.1.
Proof.
  destruct j as [client notice]. unfold deliver. destruct (negb _); [by intros ?%elem_of_nil|].
  pose proof (post_client client notice (je_first env)) as H1.
  destruct (FeedbackSender.post _ _ _ _ (je_first env)) as [[code|] sent]; [|by apply H1]. cbn [snd] in H1.
  destruct (_ && _); [|by apply H1]. destruct (reason_only notice) as [reduced|]; [|by apply H1].
  pose proof (post_client client reduced (je_second env)) as H2.
  destruct (FeedbackSender.post _ _ _ _ (je_second env)) as [st again]. cbn [snd] in H2 |- *.
  intros [H|H]%elem_of_app; [by apply H1|by apply H2].
Qed.

(** (safety): nothing is told before it is kept.  Requests follow a round only when it is
    completed and its scores are on disk; a notice goes to a live miner of the round that
    it graded, a ticket to the configured service, and either can be switched off. *)
Theorem reported_once_saved (saved : bool) (r : RoundResult) (live : list LiveSolverClient) (jobs : Z * pystr → JobEnv)
    (tickets : TraceCheckRequest → TicketEnv) :
  let '(notices, sent) := after_round dump_notice dump_trace randbelow wallet s saved r live jobs tickets in
  (∀ request, request ∈ notices →
     saved = true ∧ rr_status r = completed ∧ validator_failure_notices s = true ∧ nr_client request ∈ live ∧
     ∃ m, m ∈ rr_evaluations r ∧ registration_of_client (nr_client request) = (me_uid m, me_hotkey m)) ∧
  ∀ request, request ∈ sent →
    saved = true ∧ rr_status r = completed ∧ tk_url request = validator_trace_check_url s ∧
    ustr "https://" `prefix_of` validator_trace_check_url s.
Proof.
  unfold after_round. split.
  - intros request. destruct (saved && _) eqn:Hs; [|by intros ?%elem_of_nil]. apply andb_true_iff in Hs as [Hs Hn].
    unfold send_failure_notices. cbn [snd]. intros (out & Hout & Hin)%list_elem_of_In%in_concat.
    apply in_map_iff in Hout as (x & <- & (j & <- & Hj)%in_map_iff). apply list_elem_of_In, deliver_client in Hin.
    apply list_elem_of_In, jobs_elem in Hj as (c & t & Hst & _ & _ & Hj). destruct j as [client n].
    apply collect_jobs_spec in Hj as (m & Hm & Hlive & Hreg & _). cbn [fst] in Hin. rewrite Hin. split_and!; try done. by exists m.
  - intros request. destruct (saved && _) eqn:Hs; [|by intros ?%elem_of_nil]. apply andb_true_iff in Hs as [Hs _].
    destruct (send_trace_checks _ _ _ _ _ _ _ _) as [[n sent]|] eqn:Hsent; [|by intros ?%elem_of_nil].
    unfold send_trace_checks in Hsent. apply bind_Ok in Hsent as (ts & Hts & [= <- <-]).
    intros (out & Hout & Hin)%list_elem_of_In%in_concat. apply in_map_iff in Hout as (x & <- & (t & <- & Ht)%in_map_iff).
    destruct (tickets_of_Ok _ _ _ _ r ts Hts) as [_ Hall]. destruct (Hall t) as (Hurl & Hst & _); [by apply list_elem_of_In|].
    pose proof (deliver_ticket_sent dump_trace wallet (validator_trace_check_url s) (validator_trace_check_hotkey s) (tickets t) t) as Hd.
    destruct (deliver_ticket _ _ _ _ _ t) as [ok out]. destruct (proj2 Hd request) as (Hu & _); [by apply list_elem_of_In|].
    done.
Qed.
End reporting.

(** The probes outlast the longest wait for a miner. *)
Example keepalive_outlasts :
  KEEPALIVE_IDLE_S + KEEPALIVE_PROBES * KEEPALIVE_INTERVAL_S > SOLVE_DEADLINE_CEILING_S + 10.
Proof. unfold KEEPALIVE_IDLE_S, KEEPALIVE_PROBES, KEEPALIVE_INTERVAL_S, SOLVE_DEADLINE_CEILING_S. lia. Qed.

(** ** Witnesses *)

Definition https_urls : UrlSplit := {| urlsplit := λ url, Ok (take 5 url, drop 8 url) |}.

(** A new host: the state directory is not there yet. *)
Definition new_host : StartEnv :=
  {| st_metagraph := Ok sample_metagraph; st_registered := Ok true; st_hotkey := ustr "a"; st_rate_limit := LimitBlocks 360;
     st_now := f1; st_write := Ok (); st_file := raise OSError "no file"; st_state_dir := [ustr "data"; ustr "srv"];
     st_state_path := ustr "/srv/data"; st_cpu_count := Some 8; st_memory_bytes := Ok (32 * 1024 ^ 3);
     st_exists := λ path, bool_decide (path ≠ [ustr "data"; ustr "srv"]); st_free_bytes := λ _, Ok (100 * 1000 ^ 3);
     st_uid := 1000; st_gid := 1000; st_docker := true |}.

Abbreviation first_start :=
  (startup (H := naive_math) (H0 := list_array) (H1 := no_repr) (H2 := https_urls) new_host RELEASE_POLICY default_settings).

(** It starts as UID 1, with four gradings at a time and weights every 380 blocks. *)
Lemma starts_witness :
  ∃ d, first_start = Some (Ok d) ∧ sd_uid d = 1 ∧ grading_concurrency (sd_round_policy d) = 4 ∧ sd_weights_interval d = 380 ∧
    miners_per_task (sd_round_policy d) = 128.
Proof.
  destruct (starts (UD := ascii_unicode) (SH := sha_const) (ZS := store_zstd) (TR := round_tar)
    (UP := one_url) (PM := naive_math) (NA := list_array) (PR := no_repr) (US := https_urls)
    default_settings default_settings new_host) as (r & Hr & _ & Hall).
  - vm_compute. reflexivity.
  - vm_compute. reflexivity.
  - destruct r as [d|e]; [|exfalso; revert Hr; vm_compute; discriminate].
    destruct (Hall d eq_refl) as (mg & _ & _ & (Hm & _) & _).
    exists d. split; [exact Hr|].
    assert (Hd : sd_uid d = 1 ∧ grading_concurrency (sd_round_policy d) = 4 ∧ sd_weights_interval d = 380).
    { revert Hr. vm_compute. by intros [= <-]. }
    destruct Hd as (H1 & H2 & H3). split_and!; assumption.
Defined.

(** The message of a refusal, with a line break in it. *)
Lemma weight_detail_plain_witness :
  ∃ s, weight_failure_detail (H := ascii_unicode) (TextField (ustr "rate" ++ [10%N] ++ ustr "limit")) (OtherField (Ok false) (Ok (ustr "(1, 2)"))) = s ∧
    s = ustr "error=rate limit data=(1, 2)" ∧ zlen s <= 172.
Proof.
  eexists. split; [reflexivity|].
  destruct (weight_detail_plain (UD := ascii_unicode)) with
    (error := TextField (ustr "rate" ++ [10%N] ++ ustr "limit")) (data := OtherField (Ok false) (Ok (ustr "(1, 2)"))) as (_ & Hz & _).
  - intros c Hc. unfold py_isprintable, ascii_unicode. simpl. apply andb_true_iff. rewrite N.leb_le, N.ltb_lt. lia.
  - split; [vm_compute; reflexivity|exact Hz].
Defined.
