(* ===== verification/MinerWorkspace.v ===== *)
(** * The workspace a miner reads ([src/rlvr/v3/miner_workspace.py])

    The tools of [WorkspaceReader] over the tree of [FileSystem].  The walk of
    [find_files] keeps an explicit stack and gets the size of the tree as fuel;
    [tree_files] is its specification.  The incremental UTF-8 decoder is [decode_part]:
    the text so far and the bytes it keeps back.

    [files_under_spec], [read_file_pages], [find_files_pages]: paging through a tool
    gives the whole file, and every file, exactly once. *)

From S2P Require Import Prelude PyFloat Text Json Canonical Identity Codecs Api FileSystem Archive Download Release.

Local Open Scope Z_scope.

Definition READ_BYTES : Z := 32 * 1024.
Definition LIST_ENTRIES : Z := 200.

(** ** Walking *)

Definition is_regular (n : node) : bool := match n with NFile _ _ _ => true | _ => false end.

(** The entries of one directory, until there are [limit] files. *)
Fixpoint scan_entries (limit : Z) (rel : fspath) (found : list fspath) (later : list (fspath * node))
    (entries : list (pystr * node)) : list fspath * list (fspath * node) :=
  match entries with
  | [] => (found, later)
  | (name, n) :: entries' =>
      if is_dir n then scan_entries limit rel found (later ++ [(rel ++ [name], n)]) entries'
      else if is_regular n then
        let found := found ++ [rel ++ [name]] in
        if limit <=? zlen found then (found, later) else scan_entries limit rel found later entries'
      else scan_entries limit rel found later entries'
  end.

(** The loop; the head of [pending] is the end of the source's list. *)
Fixpoint files_loop (fuel : nat) (limit : Z) (found : list fspath) (pending : list (fspath * node))
    : list fspath :=
  match fuel with
  | O => found
  | S fuel' =>
      match pending with
      | [] => found
      | (rel, directory) :: pending' =>
          if zlen found <? limit then
            match directory with
            | NDir _ children =>
                let '(found', later) := scan_entries limit rel found [] (sort_by name_le children) in
                files_loop fuel' limit found' (later ++ pending')
            | _ => files_loop fuel' limit found pending'
            end
          else found
      end
  end.

Fixpoint node_count (n : node) : nat :=
  match n with
  | NDir _ children => S (sum_list (map (λ nc, node_count nc.2) children))
  | _ => 1
  end.

Definition files_under (rel : fspath) (root : node) (limit : Z) : list fspath :=
  slice_to limit (files_loop (node_count root) limit [] [(rel, root)]).

(** ** Decoding in parts *)

(** The decoder before the end of the data: a sequence that is cut short is kept back. *)
Fixpoint decode_part (bad : pystr) (bs : list N) : pystr * list N :=
  match bs with
  | [] => ([], [])
  | x :: r =>
      let emit (c : pystr) (p : pystr * list N) := (c ++ p.1, p.2) in
      if (x <? 128)%N then emit [x] (decode_part bad r)
      else if in_range 194 223 x then
        match r with
        | y :: r1 => if is_cont y then emit [cp2 x y] (decode_part bad r1) else emit bad (decode_part bad r)
        | [] => ([], bs)
        end
      else if in_range 224 239 x then
        match r with
        | y :: r1 =>
            if negb (second_ok x y) then emit bad (decode_part bad r)
            else match r1 with
                 | z :: r2 =>
                     if is_cont z then emit [cp3 x y z] (decode_part bad r2) else emit bad (decode_part bad r1)
                 | [] => ([], bs)
                 end
        | [] => ([], bs)
        end
      else if in_range 240 244 x then
        match r with
        | y :: r1 =>
            if negb (second_ok x y) then emit bad (decode_part bad r)
            else match r1 with
                 | z :: r2 =>
                     if negb (is_cont z) then emit bad (decode_part bad r1)
                     else match r2 with
                          | w :: r3 =>
                              if is_cont w then emit [cp4 x y z w] (decode_part bad r3)
                              else emit bad (decode_part bad r2)
                          | [] => ([], bs)
                          end
                 | [] => ([], bs)
                 end
        | [] => ([], bs)
        end
      else emit bad (decode_part bad r)
  end.

(** [decoder.decode(raw, final=...)] of a fresh decoder, and what it keeps back. *)
Definition decode_chunk (raw : bytes) (final : bool) : pystr * list N :=
  if final then (decode_replace raw, []) else decode_part [REPLACEMENT] (map N_of_ascii raw).

(** ** The tools *)

Section reader.
Context `{!UnicodeData}.
Context (root : node).

(** [lstat] of every component in turn. *)
Fixpoint follow (n : node) (segments : fspath) : result node :=
  match segments with
  | [] => Ok n
  | segment :: segments' =>
      match n with
      | NDir _ children =>
          match child segment children with
          | None => raise OSError "No such file or directory"
          | Some c =>
              raise_if (negb (is_dir c || is_regular c)) ValueError
                "workspace path is not a regular file or directory";;
              follow c segments'
          end
      | _ => raise OSError "Not a directory"
      end
  end.

Definition reader_path (relative : pystr) : result (fspath * node) :=
  validate_relative_path relative;;
  let segments := segments_of relative in
  n ← follow root segments;
  mret (segments, n).

Definition arg (arguments : list (pystr * pyobj)) (key : string) : option pyobj :=
  snd <$> find (λ kv, bool_decide (kv.1 = ustr key)) arguments.

Definition next_offset (more : bool) (offset : Z) : pyobj * pyobj :=
  (PStr (ustr "next_offset"), if more then PInt offset else PNone).

Definition find_files (rel : fspath) (n : node) (offset : Z) : result pyobj :=
  raise_if (negb (is_dir n)) ValueError "find_files requires a directory";;
  let found := files_under rel n (offset + LIST_ENTRIES + 1) in
  let page := slice_to LIST_ENTRIES (slice_from offset found) in
  mret (PDict [(PStr (ustr "files"), PList (map (λ p, PStr (as_posix p)) page));
               next_offset (offset + zlen page <? zlen found) (offset + zlen page)]).

Definition list_files (n : node) (offset : Z) : result pyobj :=
  match n with
  | NDir _ children =>
      let entries := sort_by name_le children in
      let page := slice_to LIST_ENTRIES (slice_from offset entries) in
      mret (PDict [(PStr (ustr "entries"),
                    PList (map (λ e, PDict [(PStr (ustr "name"), PStr e.1);
                                            (PStr (ustr "directory"), PBool (walk_dir e.2))]) page));
                   next_offset (offset + zlen page <? zlen entries) (offset + zlen page)])
  | _ => raise OSError "Not a directory"
  end.

(** [seek] takes a signed 64-bit offset. *)
Definition read_file (n : node) (offset : Z) : result pyobj :=
  match n with
  | NFile _ _ content =>
      raise_if (2 ^ 63 <=? offset) OverflowError "Python int too large to convert to C long";;
      let rest := slice_from offset content in
      let raw := slice_to READ_BYTES rest in
      let has_more := READ_BYTES <? zlen rest in
      let '(text, buffered) := decode_chunk raw (negb has_more) in
      mret (PDict [(PStr (ustr "content"), PStr text);
                   (PStr (ustr "encoding"), PStr (ustr "UTF-8; invalid byte sequences replaced"));
                   next_offset has_more (offset + zlen raw - zlen buffered)])
  | _ => raise ValueError "read_file requires a regular file"
  end.

Definition run_tool (arguments : list (pystr * pyobj)) : result pyobj :=
  raise_if (negb (bool_decide (list_to_set (map fst arguments)
                               =@{gset pystr} {[ustr "tool"; ustr "path"; ustr "offset"]})))
    ValueError "tool requires tool, path, and offset";;
  match arg arguments "path", arg arguments "offset" with
  | Some (PStr relative), Some (PInt offset) =>
      raise_if (offset <? 0) ValueError "path must be a string and offset a nonnegative integer";;
      '(rel, n) ← reader_path relative;
      match arg arguments "tool" with
      | Some (PStr tool) =>
          if bool_decide (tool = ustr "find_files") then find_files rel n offset
          else if bool_decide (tool = ustr "list_files") then list_files n offset
          else if bool_decide (tool = ustr "read_file") then read_file n offset
          else raise ValueError "unknown workspace tool"
      | _ => raise ValueError "unknown workspace tool"
      end
  | _, _ => raise ValueError "path must be a string and offset a nonnegative integer"
  end.

(** [except (OSError, ValueError, OverflowError)] *)
Definition tool_value (arguments : list (pystr * pyobj)) : result pyobj :=
  match run_tool arguments with
  | Ok v => Ok v
  | Raise e =>
      if is_value_error (exn_cls e) then mret (PDict [(PStr (ustr "error"), PStr (exn_msg e))])
      else if bool_decide (exn_cls e = OSError) || bool_decide (exn_cls e = OverflowError)
      then mret (PDict [(PStr (ustr "error"), PStr (ustr "workspace path could not be read"))])
      else Raise e
  end.
End reader.

(** [json.dumps(value, ensure_ascii=False, separators=(",", ":"))] of the values the
    tools return: they hold no float and no object. *)
Fixpoint compact_json (v : pyobj) : result pystr :=
  match v with
  | PNone => Ok lit_null
  | PBool b => Ok (if b then lit_true else lit_false)
  | PInt z => Ok (str_of_int z)
  | PStr s => Ok (quote_string s)
  | PList l => items ← mapM id (map compact_json l); mret (91%N :: join comma items ++ [93%N])
  | PDict l =>
      items ← mapM id (map (λ '(key, item),
        k ← match key with PStr s => Ok (quote_string s) | _ => raise TypeError "keys must be str" end;
        i ← compact_json item; mret (k ++ colon ++ i)) l);
      mret (123%N :: join comma items ++ [125%N])
  | PFloat _ | POther _ => raise TypeError "Object is not JSON serializable"
  end.

Definition execute `{!UnicodeData} (root : node) (arguments : list (pystr * pyobj)) : result bytes :=
  value ← tool_value root arguments;
  text ← compact_json value;
  utf8_encode text.

(** ** Opening *)

Definition miner_archive_limits (policy : ValidatorPolicy) : ArchiveLimits :=
  {| max_compressed_bytes := v3_workspace_compressed_bytes policy;
     max_expanded_bytes := v3_workspace_bytes policy;
     Archive.max_file_bytes := v3_max_file_bytes policy; max_archive_entries := 200000;
     max_archive_path_bytes := 4096; max_zstd_window_bytes := 128 * 1024 ^ 2 |}.

(** [free]: [shutil.disk_usage(root).free]. *)
Definition open_miner_workspace `{!UnicodeData, !UrlParser, !Sha256, !Zstd, !Tar} (umask : Z)
    (http : pystr → result HttpResponse) (free : Z) (request : MinerTaskRequest) (policy : ValidatorPolicy)
    : result node :=
  let limits := miner_archive_limits policy in
  let workspace := t_workspace request in
  raise_if (max_expanded_bytes limits <? ar_expanded_size workspace) ValueError
    "workspace exceeds the expanded byte limit";;
  raise_if (free <? ar_compressed_size workspace + 2 * ar_expanded_size workspace) ValueError
    "insufficient workspace storage";;
  archive ← download_artifact http (t_workspace_url request) workspace false limits
    (list_to_set (v3_artifact_origins policy));
  match extract_archive umask (Some archive) workspace None limits true with
  | (Some root, Ok _) => mret root
  | (_, Raise e) => Raise e
  | (None, Ok _) => raise OtherError "no destination"
  end.

(** ** The walk is the specification, cut at the limit *)

Fixpoint tree_files (n : node) (rel : fspath) : list fspath :=
  match n with
  | NDir _ children =>
      let below := sort_by name_le (map (λ '(name, c), (name, (c, tree_files c))) children) in
      map (λ e, rel ++ [e.1]) (filter (λ e, is_regular e.2.1 = true) below)
      ++ concat (map (λ e, e.2.2 (rel ++ [e.1])) (filter (λ e, is_dir e.2.1 = true) below))
  | _ => []
  end.

Definition files_of (rel : fspath) (entries : list (pystr * node)) : list fspath :=
  map (λ e, rel ++ [e.1]) (filter (λ e, is_regular e.2 = true) entries).

Definition dirs_of (rel : fspath) (entries : list (pystr * node)) : list (fspath * node) :=
  map (λ e, (rel ++ [e.1], e.2)) (filter (λ e, is_dir e.2 = true) entries).

Definition pending_files (pending : list (fspath * node)) : list fspath :=
  concat (map (λ e, tree_files e.2 e.1) pending).

Lemma tree_files_dir (mode : Z) (children : list (pystr * node)) (rel : fspath) :
  tree_files (NDir mode children) rel =
  files_of rel (sort_by name_le children) ++ pending_files (dirs_of rel (sort_by name_le children)).
Proof.
  cbn [tree_files]. set (f := λ nc : pystr * node, (nc.1, (nc.2, tree_files nc.2))).
  assert (Hm : map (λ '(name, c), (name, (c, tree_files c))) children = map f children).
  { apply map_ext. by intros []. }
  rewrite Hm, (sort_by_map name_le name_le f) by done. unfold files_of, pending_files, dirs_of.
  generalize (sort_by name_le children). intros l.
  assert (Hf : ∀ (p : node → bool), filter (λ e, p e.2.1 = true) (map f l) = map f (filter (λ e, p e.2 = true) l)).
  { intros p. induction l as [|e l IH]; [done|]. rewrite filter_cons. simpl. rewrite filter_cons.
    simpl. case_decide; simpl; by rewrite IH. }
  rewrite !Hf, !map_map. f_equal.
Qed.

Lemma scan_entries_full (limit : Z) (rel : fspath) (entries : list (pystr * node)) (found : list fspath)
    (later : list (fspath * node)) :
  zlen found < limit → zlen (found ++ files_of rel entries) < limit →
  scan_entries limit rel found later entries = (found ++ files_of rel entries, later ++ dirs_of rel entries).
Proof.
  revert found later. induction entries as [|[name n] entries IH]; intros found later Hf Hl.
  { unfold files_of, dirs_of. simpl. by rewrite !app_nil_r. }
  unfold files_of, dirs_of in *. cbn [scan_entries]. rewrite !filter_cons in *. simpl in *.
  destruct (is_dir n) eqn:Hd.
  - assert (is_regular n = false) as Hr by (by destruct n). rewrite Hr in *. rewrite decide_False, decide_True in * by done.
    rewrite IH by done. simpl. by rewrite <-(assoc_L (++)).
  - destruct (is_regular n) eqn:Hr; rewrite ?decide_True, ?decide_False in * by done; [|by apply IH].
    simpl in Hl. change (?x :: ?y) with ([x] ++ y) in Hl. rewrite (assoc_L (++)) in Hl.
    assert (zlen (found ++ [rel ++ [name]]) < limit).
    { unfold zlen in *. rewrite length_app in Hl. lia. }
    rewrite (proj2 (Z.leb_gt _ _)) by done. rewrite IH by done. simpl. by rewrite <-(assoc_L (++)).
Qed.

Lemma scan_entries_cut (limit : Z) (rel : fspath) (entries : list (pystr * node)) (found : list fspath)
    (later : list (fspath * node)) :
  zlen found < limit → limit <= zlen (found ++ files_of rel entries) →
  ∃ later', scan_entries limit rel found later entries = (slice_to limit (found ++ files_of rel entries), later').
Proof.
  revert found later. induction entries as [|[name n] entries IH]; intros found later Hf Hl.
  { unfold files_of in Hl. simpl in Hl. rewrite app_nil_r in Hl. lia. }
  unfold files_of in *. cbn [scan_entries]. rewrite !filter_cons in *. simpl in *.
  destruct (is_dir n) eqn:Hd.
  { assert (is_regular n = false) as Hr by (by destruct n). rewrite Hr, decide_False in * by done. by apply IH. }
  destruct (is_regular n) eqn:Hr; rewrite ?decide_True, ?decide_False in * by done; [|by apply IH].
  simpl in *. set (more := map _ _) in *. change (?x :: more) with ([x] ++ more) in *.
  rewrite (assoc_L (++)) in *.
  destruct (Z.leb_spec limit (zlen (found ++ [rel ++ [name]]))) as [Hle|Hlt]; [|by apply IH].
  exists later. f_equal. assert (Hz : zlen (found ++ [rel ++ [name]]) = limit).
  { unfold zlen in *. rewrite length_app in *. simpl in *. lia. }
  pose proof (zlen_nonneg found).
  rewrite slice_to_nonneg, <-Hz by lia. unfold zlen. rewrite Nat2Z.id. by rewrite take_app_length.
Qed.

Lemma files_loop_done (fuel : nat) (limit : Z) (found : list fspath) (pending : list (fspath * node)) :
  limit <= zlen found → files_loop fuel limit found pending = found.
Proof. intros Hl. destruct fuel, pending as [|[]]; simpl; [done..|]. by rewrite (proj2 (Z.ltb_ge _ _)). Qed.

Definition pending_count (pending : list (fspath * node)) : nat :=
  sum_list (map (λ e, node_count e.2) pending).

Lemma sum_list_app (l k : list nat) : sum_list (l ++ k) = (sum_list l + sum_list k)%nat.
Proof. induction l as [|x l IH]; simpl; [done|]. lia. Qed.

Lemma sum_list_perm (l k : list nat) : l ≡ₚ k → sum_list l = sum_list k.
Proof. induction 1; simpl; lia. Qed.

Lemma dirs_of_count (rel : fspath) (entries : list (pystr * node)) :
  (pending_count (dirs_of rel entries) <= sum_list (map (λ nc, node_count nc.2) entries))%nat.
Proof.
  unfold pending_count, dirs_of. rewrite map_map. induction entries as [|e l IH]; [done|].
  rewrite filter_cons. simpl. case_decide; simpl in *; lia.
Qed.

Lemma slice_to_app_ge {A} (n : Z) (l k : list A) : 0 <= n <= zlen l → slice_to n (l ++ k) = slice_to n l.
Proof.
  intros Hn. rewrite !slice_to_nonneg by lia. apply take_app_le. unfold zlen in Hn. lia.
Qed.

Lemma files_loop_spec (fuel : nat) (limit : Z) (found : list fspath) (pending : list (fspath * node)) :
  (pending_count pending <= fuel)%nat → zlen found <= limit →
  files_loop fuel limit found pending = slice_to limit (found ++ pending_files pending).
Proof.
  revert found pending. induction fuel as [|fuel IH]; intros found pending Hfuel Hf;
    pose proof (zlen_nonneg found) as Hz.
  { destruct pending as [|[rel n] pending]; [|unfold pending_count in Hfuel; simpl in Hfuel; destruct n; simpl in *; lia].
    unfold pending_files. simpl. by rewrite app_nil_r, slice_to_all. }
  destruct pending as [|[rel n] pending]; cbn [files_loop].
  { unfold pending_files. simpl. by rewrite app_nil_r, slice_to_all. }
  change (pending_files ((rel, n) :: pending)) with (tree_files n rel ++ pending_files pending).
  unfold pending_count in Hfuel. simpl in Hfuel. fold (pending_count pending) in Hfuel.
  destruct (Z.ltb_spec (zlen found) limit) as [Hlt|Hge].
  2:{ rewrite slice_to_app_ge by lia. symmetry. apply slice_to_all. lia. }
  destruct n as [m k c|mode children|b|]; try (apply IH; [simpl in Hfuel; lia|done]).
  rewrite tree_files_dir, <-(assoc_L (++)), (assoc_L (++)). simpl in Hfuel.
  pose proof (dirs_of_count rel (sort_by name_le children)) as Hdirs.
  rewrite (sum_list_perm _ (map (λ nc, node_count nc.2) children)) in Hdirs
    by (apply Permutation_map, sort_by_perm).
  destruct (Z.lt_ge_cases (zlen (found ++ files_of rel (sort_by name_le children))) limit) as [Hs|Hs].
  - rewrite scan_entries_full by done. simpl. rewrite IH; [|unfold pending_count in *; rewrite map_app, sum_list_app; lia|lia].
    unfold pending_files. by rewrite map_app, concat_app.
  - destruct (scan_entries_cut limit rel _ found [] Hlt Hs) as [later ->].
    rewrite (slice_to_app_ge limit (found ++ files_of _ _)) by lia. apply files_loop_done. rewrite slice_to_length by lia. lia.
Qed.

Lemma files_under_spec (rel : fspath) (root : node) (limit : Z) :
  0 <= limit → files_under rel root limit = slice_to limit (tree_files root rel).
Proof.
  intros Hl. unfold files_under. rewrite files_loop_spec.
  - unfold pending_files. simpl. rewrite app_nil_r, !slice_to_nonneg by done. by rewrite take_take, Nat.min_id.
  - unfold pending_count. simpl. lia.
  - done.
Qed.

(** ** Every regular file is there, once *)

Lemma elem_of_files_of (rel p : fspath) (entries : list (pystr * node)) :
  p ∈ files_of rel entries ↔ ∃ e, e ∈ entries ∧ is_regular e.2 = true ∧ p = rel ++ [e.1].
Proof.
  unfold files_of. rewrite list_elem_of_In, in_map_iff. setoid_rewrite <-list_elem_of_In.
  setoid_rewrite list_elem_of_filter. naive_solver.
Qed.

Lemma elem_of_pending_files (rel p : fspath) (entries : list (pystr * node)) :
  p ∈ pending_files (dirs_of rel entries) ↔
  ∃ e, e ∈ entries ∧ is_dir e.2 = true ∧ p ∈ tree_files e.2 (rel ++ [e.1]).
Proof.
  unfold pending_files, dirs_of. rewrite map_map, list_elem_of_In, in_concat. setoid_rewrite in_map_iff.
  setoid_rewrite <-list_elem_of_In. setoid_rewrite list_elem_of_filter. naive_solver.
Qed.

Lemma elem_of_tree_files (mode : Z) (children : list (pystr * node)) (rel p : fspath) :
  p ∈ tree_files (NDir mode children) rel ↔
  ∃ e, e ∈ children ∧ (is_regular e.2 = true ∧ p = rel ++ [e.1] ∨
                       is_dir e.2 = true ∧ p ∈ tree_files e.2 (rel ++ [e.1])).
Proof.
  rewrite tree_files_dir, elem_of_app, elem_of_files_of, elem_of_pending_files.
  setoid_rewrite elem_of_sort_by. naive_solver.
Qed.

Lemma tree_files_complete (n : node) (segments rel : fspath) (f : node) :
  fs_lookup n segments = Some f → is_regular f = true → segments ≠ [] → rel ++ segments ∈ tree_files n rel.
Proof.
  revert n rel. induction segments as [|name segments IH]; intros n rel; [done|].
  intros Hl Hf _. destruct n as [|mode children| |]; try done. cbn [fs_lookup] in Hl.
  apply bind_Some in Hl as (c & Hc & Hl). apply elem_of_tree_files.
  exists (name, c). split; [by apply child_elem|]. cbn [fst snd].
  destruct segments as [|name' segments].
  - left. injection Hl as ->. done.
  - right. destruct c as [|m ch| |]; try done. split; [done|].
    change (name :: ?x) with ([name] ++ x). rewrite (assoc_L (++)). by apply IH.
Qed.

(** The directories of a real tree do not name an entry twice. *)
Fixpoint names_distinct (n : node) : Prop :=
  match n with
  | NDir _ children => NoDup (map fst children) ∧ Forall id (map (λ nc, names_distinct nc.2) children)
  | _ => True
  end.

Lemma tree_files_below (n : node) (rel p : fspath) :
  p ∈ tree_files n rel → ∃ name s, p = rel ++ name :: s.
Proof.
  revert rel. induction n as [m k c|mode children IH|b|] using node_nested_ind; intros rel;
    try (by intros ?%not_elem_of_nil).
  intros ([name c] & Hin & [[_ ->]|[_ Hp]])%elem_of_tree_files; cbn [fst snd] in *; [by exists name, []|].
  rewrite Forall_forall in IH. apply (IH (name, c)) in Hp as (nm & s & ->); [|done].
  exists name, (nm :: s). by rewrite <-(assoc_L (++)).
Qed.

Lemma pending_files_NoDup (rel : fspath) (entries : list (pystr * node)) :
  NoDup (map fst entries) → (∀ e, e ∈ entries → ∀ rel', NoDup (tree_files e.2 rel')) →
  NoDup (pending_files (dirs_of rel entries)).
Proof.
  intros Hn He. induction entries as [|e l IH]; [constructor|].
  inversion_clear Hn as [|? ? Hnin Hn']. unfold dirs_of. rewrite filter_cons. case_decide as Hd.
  2:{ apply IH; [done|]. intros e' ?. apply He. by right. }
  change (pending_files _) with (tree_files e.2 (rel ++ [e.1]) ++ pending_files (dirs_of rel l)).
  apply NoDup_app. split_and!; [by apply He; left| |apply IH; [done|]; intros; apply He; by right].
  intros p Hp (e' & Hin & _ & Hp')%elem_of_pending_files. apply Hnin.
  apply tree_files_below in Hp as (nm & s & ->), Hp' as (nm' & s' & Heq).
  rewrite <-!(assoc_L (++)) in Heq. apply app_inv_head in Heq. injection Heq as Heq _.
  rewrite Heq. by apply list_elem_of_In, in_map, list_elem_of_In.
Qed.

Lemma tree_files_NoDup (n : node) (rel : fspath) : names_distinct n → NoDup (tree_files n rel).
Proof.
  revert rel. induction n as [m k c|mode children IH|b|] using node_nested_ind; intros rel; try constructor.
  intros [Hn Hc]. rewrite tree_files_dir.
  set (l := sort_by name_le children).
  assert (Hl : l ≡ₚ children) by apply sort_by_perm.
  assert (Hn' : NoDup (map fst l)) by (eapply NoDup_Permutation_proper; [by apply Permutation_map|done]).
  assert (He : ∀ e, e ∈ l → ∀ rel', NoDup (tree_files e.2 rel')).
  { intros e Hin rel'. rewrite Hl in Hin. rewrite Forall_forall in IH. apply IH; [done|].
    rewrite Forall_forall in Hc. apply Hc. apply list_elem_of_In, in_map_iff. exists e. split; [done|].
    by apply list_elem_of_In. }
  clearbody l. apply NoDup_app. split_and!; [| |by apply pending_files_NoDup].
  - unfold files_of. rewrite <-(map_map fst (λ x, rel ++ [x])). apply NoDup_fmap_2.
    { intros x y Hxy. apply app_inv_head in Hxy. by injection Hxy. }
    eapply sublist_NoDup; [exact Hn'|]. apply fmap_sublist, sublist_filter.
  - intros p (e & Hin & Hr & ->)%elem_of_files_of (e' & Hin' & Hd & Hp)%elem_of_pending_files.
    apply tree_files_below in Hp as (nm & s & Heq). rewrite <-(assoc_L (++)) in Heq.
    by apply app_inv_head in Heq.
Qed.

(** ** Decoding in parts gives what decoding at once gives *)

(** What was read of [bs] and what is kept back, whatever comes next. *)
Definition part_of (bad : pystr) (bs : list N) (p : pystr * list N) : Prop :=
  (∃ read, bs = read ++ p.2) ∧ (length p.2 <= 3)%nat ∧
  ∀ more, utf8_decode_lenient bad (bs ++ more) = p.1 ++ utf8_decode_lenient bad (p.2 ++ more).

Lemma part_of_step (bad : pystr) (bs pre r : list N) (c : pystr) (p : pystr * list N) :
  part_of bad r p → bs = pre ++ r →
  (∀ more, utf8_decode_lenient bad (bs ++ more) = c ++ utf8_decode_lenient bad (r ++ more)) →
  part_of bad bs (c ++ p.1, p.2).
Proof.
  intros ((read & Hr) & H3 & Hmore) Hbs Hlen. split_and!; cbn [fst snd]; [|done|].
  - exists (pre ++ read). by rewrite Hbs, <-(assoc_L (++)), <-Hr.
  - intros more. by rewrite Hlen, Hmore, (assoc_L (++)).
Qed.

Lemma part_of_kept (bad : pystr) (bs : list N) : (length bs <= 3)%nat → part_of bad bs ([], bs).
Proof. intros Hl. split_and!; [by exists []|done|done]. Qed.

(** One step of the decoders, when the tests on the bytes are hypotheses. *)
Ltac decode_step :=
  cbn [decode_part utf8_decode_lenient app];
  repeat match goal with
         | H : ?b = _ |- context [if ?b then _ else _] => rewrite H
         | H : ?b = _ |- context [if negb ?b then _ else _] => rewrite H; cbn [negb]
         end.

Ltac emit c pre r :=
  match goal with
  | IH : (∀ bs : list N, _ → part_of ?bad bs _) |- part_of ?bad ?bs _ =>
      change (part_of bad (pre ++ r) (decode_part bad (pre ++ r)));
      replace (decode_part bad (pre ++ r)) with (c ++ (decode_part bad r).1, (decode_part bad r).2)
        by (by decode_step);
      apply (part_of_step bad _ pre r c); [apply IH; simpl in *; lia|done|intros more; by decode_step]
  end.

Ltac keep := decode_step; apply part_of_kept; simpl; lia.

Lemma decode_part_of (k : nat) (bad : pystr) (bs : list N) :
  (length bs <= k)%nat → part_of bad bs (decode_part bad bs).
Proof.
  revert bs. induction k as [|k IH]; intros bs Hk.
  { destruct bs; [|simpl in Hk; lia]. apply part_of_kept. simpl. lia. }
  destruct bs as [|x r]; [apply part_of_kept; simpl; lia|].
  destruct (x <? 128)%N eqn:H1; [emit [x] [x] r|].
  destruct (in_range 194 223 x) eqn:H2.
  { destruct r as [|y r]; [keep|]. destruct (is_cont y) eqn:Hy; [emit [cp2 x y] [x; y] r|emit bad [x] (y :: r)]. }
  destruct (in_range 224 239 x) eqn:H3.
  { destruct r as [|y r]; [keep|]. destruct (second_ok x y) eqn:Hy; [|emit bad [x] (y :: r)].
    destruct r as [|z r]; [keep|]. destruct (is_cont z) eqn:Hz; [emit [cp3 x y z] [x; y; z] r|emit bad [x; y] (z :: r)]. }
  destruct (in_range 240 244 x) eqn:H4; [|emit bad [x] r].
  destruct r as [|y r]; [keep|]. destruct (second_ok x y) eqn:Hy; [|emit bad [x] (y :: r)].
  destruct r as [|z r]; [keep|]. destruct (is_cont z) eqn:Hz; [|emit bad [x; y] (z :: r)].
  destruct r as [|w r]; [keep|]. destruct (is_cont w) eqn:Hw; [emit [cp4 x y z w] [x; y; z; w] r|emit bad [x; y; z] (w :: r)].
Qed.

(** ** Paging *)

(** A model that follows [next_offset] until it is null. *)
Fixpoint page_through (fuel : nat) (call : Z → result pyobj) (offset : Z) : option (list pyobj) :=
  match fuel with
  | O => None
  | S fuel' =>
      match call offset with
      | Ok (PDict v) =>
          match snd <$> find (λ kv, match kv.1 with PStr k => bool_decide (k = ustr "next_offset") | _ => false end) v with
          | Some PNone => Some [PDict v]
          | Some (PInt next) => cons (PDict v) <$> page_through fuel' call next
          | _ => None
          end
      | _ => None
      end
  end.

Lemma find_app_None {A} (p : A → bool) (l k : list A) : find p l = None → find p (l ++ k) = find p k.
Proof. induction l as [|x l IH]; simpl; [done|]. by destruct (p x). Qed.

Lemma page_step (fuel : nat) (call : Z → result pyobj) (offset next : Z) (kvs : list (pyobj * pyobj)) (more : bool) :
  call offset = Ok (PDict (kvs ++ [next_offset more next])) →
  find (λ kv, match kv.1 with PStr k => bool_decide (k = ustr "next_offset") | _ => false end) kvs = None →
  page_through (S fuel) call offset =
  if more then cons (PDict (kvs ++ [next_offset more next])) <$> page_through fuel call next
  else Some [PDict (kvs ++ [next_offset more next])].
Proof.
  intros Hc Hn. cbn [page_through]. rewrite Hc, find_app_None by done. by destruct more.
Qed.

Section pages.
Context `{UD : !UnicodeData}.
Implicit Types (root n : node) (rel : fspath) (path : pystr) (offset : Z).

Definition call_tool root (tool : string) path offset : result pyobj :=
  tool_value root [(ustr "tool", PStr (ustr tool)); (ustr "path", PStr path); (ustr "offset", PInt offset)].

Lemma call_tool_run root (tool : string) path offset rel n (v : pyobj) :
  0 <= offset → reader_path root path = Ok (rel, n) →
  (if bool_decide (ustr tool = ustr "find_files") then find_files rel n offset
   else if bool_decide (ustr tool = ustr "list_files") then list_files n offset
   else if bool_decide (ustr tool = ustr "read_file") then read_file n offset
   else raise ValueError "unknown workspace tool") = Ok v →
  call_tool root tool path offset = Ok v.
Proof.
  intros Ho Hp Hv. unfold call_tool, tool_value, run_tool.
  rewrite bool_decide_eq_true_2 by (simpl; set_solver).
  set (args := [_; _; _]).
  assert (Ha : arg args "path" = Some (PStr path) ∧ arg args "offset" = Some (PInt offset) ∧
               arg args "tool" = Some (PStr (ustr tool))) by (split_and!; reflexivity).
  clearbody args. destruct Ha as (-> & -> & ->). cbn [negb raise_if mbind result_bind].
  rewrite (proj2 (Z.ltb_ge _ _)) by done. cbn [raise_if mbind result_bind]. rewrite Hp.
  cbn [mbind result_bind]. by rewrite Hv.
Qed.

(** The text of a page. *)
Definition text_of (v : pyobj) : pystr :=
  match v with PDict ((_, PStr s) :: _) => s | _ => [] end.

(** The entries of a page. *)
Definition entries_of (v : pyobj) : list pyobj :=
  match v with PDict ((_, PList l) :: _) => l | _ => [] end.

Lemma drop_decode (size : nat) (content : bytes) (offset : nat) (buffered : list N) :
  (3 < size)%nat → (size < length (drop offset content))%nat →
  (∃ read, map N_of_ascii (take size (drop offset content)) = read ++ buffered) →
  (length buffered <= 3)%nat →
  map N_of_ascii (drop (offset + (size - length buffered)) content) =
  buffered ++ map N_of_ascii (drop size (drop offset content)).
Proof.
  intros Hn Hlen [read Hr] H3. rewrite <-drop_drop. rewrite <-(take_drop size (drop offset content)) at 1.
  assert (Ht : length read = (size - length buffered)%nat).
  { apply (f_equal length) in Hr. rewrite length_map, length_take, length_app in Hr. lia. }
  rewrite drop_app_le by (rewrite length_take; lia). rewrite map_app. f_equal.
  rewrite <-skipn_map, Hr, <-Ht. by rewrite drop_app_length.
Qed.

Definition text_key : pyobj * pyobj := (PStr (ustr "encoding"), PStr (ustr "UTF-8; invalid byte sequences replaced")).

(** The answer of [read_file]. *)
Definition text_page (size : nat) (content : bytes) offset : pyobj :=
  let rest := drop (Z.to_nat offset) content in
  let raw := take size rest in
  let more := Z.of_nat size <? zlen rest in
  let p := decode_chunk raw (negb more) in
  PDict ([(PStr (ustr "content"), PStr p.1); text_key] ++ [next_offset more (offset + zlen raw - zlen p.2)]).

(** Pages of a text. *)
Lemma text_pages (size : nat) (content : bytes) (call : Z → result pyobj) (fuel : nat) offset :
  (3 < size)%nat → (∀ o, 0 <= o <= zlen content → call o = Ok (text_page size content o)) →
  0 <= offset <= zlen content → (length (drop (Z.to_nat offset) content) < fuel)%nat →
  ∃ vs, page_through fuel call offset = Some vs ∧
        concat (map text_of vs) = decode_replace (drop (Z.to_nat offset) content).
Proof.
  intros Hsize Hcall. revert offset. induction fuel as [|fuel IH]; intros offset Ho Hf; [lia|].
  pose proof (Hcall offset Ho) as Hread. unfold text_page in Hread.
  set (rest := drop (Z.to_nat offset) content) in *. set (raw := take size rest) in *.
  rewrite (page_step _ _ _ _ _ _ Hread) by done. clear Hread. unfold decode_chunk.
  assert (Hraw : length raw = Nat.min size (length rest)) by apply length_take.
  destruct (Z.ltb_spec (Z.of_nat size) (zlen rest)) as [Hlt|Hge]; cbn [negb]; unfold zlen in *.
  2:{ eexists. split; [reflexivity|]. simpl. rewrite app_nil_r. f_equal. apply take_ge. lia. }
  pose proof (decode_part_of _ [REPLACEMENT] (map N_of_ascii raw) (le_n _)) as (Hr & H3 & Hmore).
  destruct (decode_part _ _) as [text buffered]. cbn [fst snd] in *.
  pose proof (drop_decode size content (Z.to_nat offset) buffered Hsize (proj2 (Nat2Z.inj_lt _ _) Hlt) Hr H3) as Hd.
  assert (Hrest : length rest = (length content - Z.to_nat offset)%nat) by apply length_drop.
  set (next := offset + Z.of_nat (length raw) - Z.of_nat (length buffered)).
  assert (Hlen : Z.to_nat next = (Z.to_nat offset + (size - length buffered))%nat) by lia.
  destruct (IH next) as (vs & Hvs & Htext); [lia|rewrite Hlen, length_drop; lia|].
  rewrite Hvs. eexists. split; [reflexivity|]. cbn [map concat text_of app]. rewrite Htext, Hlen.
  unfold decode_replace. rewrite Hd, <-Hmore, <-map_app. unfold raw. by rewrite take_drop.
Qed.

Lemma read_pages root path rel (mode nlink : Z) (content : bytes) (fuel : nat) :
  reader_path root path = Ok (rel, NFile mode nlink content) → zlen content < 2 ^ 63 →
  (length content < fuel)%nat →
  ∃ vs, page_through fuel (call_tool root "read_file" path) 0 = Some vs ∧
        concat (map text_of vs) = decode_replace content.
Proof.
  intros Hp Hz Hf. apply (text_pages (Z.to_nat READ_BYTES) content).
  - unfold READ_BYTES. lia.
  - intros o Ho. apply (call_tool_run _ _ _ _ _ _ _ (proj1 Ho) Hp).
    rewrite !bool_decide_eq_false_2, bool_decide_eq_true_2 by done.
    unfold read_file, text_page. rewrite (proj2 (Z.leb_gt _ _)) by lia. cbn [raise_if mbind result_bind].
    unfold slice_from. rewrite (proj2 (Z.leb_le 0 o)) by lia.
    assert (Hr : 0 <= READ_BYTES) by (unfold READ_BYTES; lia).
    rewrite (slice_to_nonneg READ_BYTES), Z2Nat.id by done. by destruct (decode_chunk _ _).
  - pose proof (zlen_nonneg content). lia.
  - exact Hf.
Qed.

(** Pages of a list. *)
Lemma list_pages {A} (f : A → pyobj) (key : string) (l : list A) (call : Z → result pyobj) (fuel : nat) offset :
  ustr key ≠ ustr "next_offset" →
  (∀ o, 0 <= o <= zlen l → ∃ page, page = slice_to LIST_ENTRIES (slice_from o l) ∧
     call o = Ok (PDict [(PStr (ustr key), PList (map f page));
                         next_offset (o + zlen page <? zlen l) (o + zlen page)])) →
  0 <= offset <= zlen l → (length (drop (Z.to_nat offset) l) < fuel)%nat →
  ∃ vs, page_through fuel call offset = Some vs ∧
        concat (map entries_of vs) = map f (drop (Z.to_nat offset) l).
Proof.
  intros Hk Hcall. revert offset. induction fuel as [|fuel IH]; intros offset Ho Hf; [lia|].
  destruct (Hcall offset Ho) as (page & Hp & Hc).
  rewrite (page_step _ _ _ _ [(PStr (ustr key), PList (map f page))] _ Hc)
    by (simpl; by rewrite bool_decide_eq_false_2).
  unfold slice_from in Hp. rewrite (proj2 (Z.leb_le 0 offset)), slice_to_nonneg in Hp by (unfold LIST_ENTRIES; lia).
  set (rest := drop (Z.to_nat offset) l) in *.
  assert (Hrest : length rest = (length l - Z.to_nat offset)%nat) by apply length_drop.
  assert (Hpage : length page = Nat.min 200 (length rest)) by (rewrite Hp; apply length_take).
  destruct (Z.ltb_spec (offset + zlen page) (zlen l)) as [Hlt|Hge].
  - assert (Hoff : Z.to_nat (offset + zlen page) = (Z.to_nat offset + 200)%nat) by (unfold zlen in *; lia).
    destruct (IH (offset + zlen page)) as (vs & Hvs & He).
    { unfold zlen in *. lia. }
    { rewrite Hoff, length_drop. unfold zlen in *. lia. }
    rewrite Hvs. eexists. split; [reflexivity|]. cbn [map concat entries_of app]. rewrite He, Hoff, <-map_app.
    f_equal. rewrite Hp, <-drop_drop. change (Z.to_nat LIST_ENTRIES) with 200%nat. apply take_drop.
  - eexists. split; [reflexivity|]. simpl. rewrite app_nil_r. f_equal. rewrite Hp. apply take_ge.
    unfold zlen in *. change (Z.to_nat LIST_ENTRIES) with 200%nat. lia.
Qed.

Lemma find_pages root path rel n (fuel : nat) :
  reader_path root path = Ok (rel, n) → is_dir n = true → (length (tree_files n rel) < fuel)%nat →
  ∃ vs, page_through fuel (call_tool root "find_files" path) 0 = Some vs ∧
        concat (map entries_of vs) = map (λ p, PStr (as_posix p)) (tree_files n rel).
Proof.
  intros Hp Hd Hf. pose proof (zlen_nonneg (tree_files n rel)) as Hz.
  apply (list_pages (λ p, PStr (as_posix p)) "files" (tree_files n rel)); [done| |lia|done].
  intros o Ho. eexists. split; [reflexivity|]. apply (call_tool_run _ _ _ _ rel n); [lia|done|].
  rewrite (bool_decide_eq_true_2 (ustr "find_files" = _)) by done. unfold find_files. rewrite Hd. cbn [negb raise_if mbind result_bind].
  unfold LIST_ENTRIES. rewrite files_under_spec by lia. set (l := tree_files n rel) in *.
  assert (Hn : Z.to_nat (o + 200 + 1) = (Z.to_nat o + 201)%nat) by lia.
  assert (Hpage : slice_to 200 (slice_from o (slice_to (o + 200 + 1) l)) = slice_to 200 (slice_from o l)).
  { unfold slice_from. rewrite (proj2 (Z.leb_le 0 o)), !slice_to_nonneg, Hn by lia.
    rewrite <-take_drop_commute, take_take. done. }
  rewrite Hpage. set (page := slice_to 200 (slice_from o l)).
  assert (Hlen : zlen page = Z.min 200 (zlen l - o)).
  { unfold page, slice_from. rewrite (proj2 (Z.leb_le 0 o)), slice_to_length by lia. unfold zlen in *.
    rewrite length_drop. lia. }
  rewrite slice_to_length by lia.
  replace (o + zlen page <? Z.min (o + 200 + 1) (zlen l)) with (o + zlen page <? zlen l); [done|].
  destruct (Z.ltb_spec (o + zlen page) (zlen l)), (Z.ltb_spec (o + zlen page) (Z.min (o + 200 + 1) (zlen l))); lia.
Qed.
End pages.

(** ** Properties *)

(** C31 (termination): a model that pages through [find_files] on a directory, following
    [next_offset], comes to an end after at most one call more than there are files, and has
    then seen every regular file below the directory exactly once. *)
Theorem find_files_pages `{UD : !UnicodeData} (root n : node) (path : pystr) (rel : fspath) (fuel : nat) :
  reader_path root path = Ok (rel, n) → is_dir n = true → names_distinct n →
  (length (tree_files n rel) < fuel)%nat →
  ∃ vs files,
    page_through fuel (call_tool root "find_files" path) 0 = Some vs ∧
    concat (map entries_of vs) = map (λ p, PStr (as_posix p)) files ∧ NoDup files ∧
    ∀ segments f, fs_lookup n segments = Some f → is_regular f = true → rel ++ segments ∈ files.
Proof.
  intros Hp Hd Hn Hf. destruct (find_pages root path rel n fuel Hp Hd Hf) as (vs & Hvs & He).
  exists vs, (tree_files n rel). split_and!; [done|done|by apply tree_files_NoDup|].
  intros segments f Hl Hr. eapply tree_files_complete; [done..|]. intros ->. injection Hl as <-. by destruct n.
Qed.

(** (roundtrip): a model that pages through [read_file] comes to an end, and the texts
    of its pages, one after the other, are the decoded file: no character is lost, torn or
    repeated where two pages meet. *)
Theorem read_file_pages `{UD : !UnicodeData} (root : node) (path : pystr) (rel : fspath) (mode nlink : Z)
    (content : bytes) (fuel : nat) :
  reader_path root path = Ok (rel, NFile mode nlink content) → zlen content < 2 ^ 63 →
  (length content < fuel)%nat →
  ∃ vs, page_through fuel (call_tool root "read_file" path) 0 = Some vs ∧
        concat (map text_of vs) = decode_replace content.
Proof. apply read_pages. Qed.

(** ** Witnesses *)

Definition reader_tree : node :=
  NDir 448 [(ustr "b", NFile 420 1 (bstr "hello")); (ustr "a", NDir 448 [(ustr "x", NFile 420 1 [])]);
            (ustr "l", NLink true)].

Lemma find_files_pages_witness :
  ∃ vs files, page_through 5 (call_tool (UD := ascii_unicode) reader_tree "find_files" (ustr ".")) 0 = Some vs ∧
    concat (map entries_of vs) = map (λ p, PStr (as_posix p)) files ∧ [ustr "a"; ustr "x"] ∈ files.
Proof.
  destruct (find_files_pages (UD := ascii_unicode) reader_tree reader_tree (ustr ".") [] 5)
    as (vs & files & Hv & He & _ & Hin).
  - vm_compute. reflexivity.
  - reflexivity.
  - cbn. repeat constructor; set_solver.
  - vm_compute. lia.
  - exists vs, files. split; [exact Hv|]. split; [exact He|].
    apply (Hin [ustr "a"; ustr "x"] (NFile 420 1 [])); reflexivity.
Defined.

Lemma read_file_pages_witness :
  ∃ vs, page_through 9 (call_tool (UD := ascii_unicode) reader_tree "read_file" (ustr "b")) 0 = Some vs ∧
        concat (map text_of vs) = ustr "hello".
Proof.
  apply (read_file_pages (UD := ascii_unicode) reader_tree (ustr "b") [ustr "b"] 420 1 (bstr "hello") 9).
  - vm_compute. reflexivity.
  - vm_compute. reflexivity.
  - vm_compute. lia.
Defined.
