(* ===== verification/Trajectory.v ===== *)
(** * Trajectories ([src/rlvr/v3/trajectory.py])

    The record of how a miner came to its submission: the events with their field
    constraints and validators, and the parser.  JSON text is the class
    [TrajectoryJson] (rfc8785 and pydantic); base64 is written out.

    [trajectory_ordered]: what a validated trajectory says.  [trajectory_canonical]:
    a trajectory has one encoding. *)

From S2P Require Import Prelude PyFloat Text Json JsonSpec Canonical CanonicalSpec Wire Identity Codecs Api ProtocolSpec.

Local Open Scope Z_scope.

(** ** Base64 *)

(** The character of a 6-bit value. *)
Definition b64_char (n : N) : N :=
  (if n <? 26 then 65 + n else if n <? 52 then 71 + n else if n <? 62 then n - 4
   else if n =? 62 then 43 else 47)%N.

Definition b64_val (c : N) : option N :=
  (if in_range 65 90 c then Some (c - 65) else if in_range 97 122 c then Some (c - 71)
   else if is_digit c then Some (c + 4) else if c =? 43 then Some 62 else if c =? 47 then Some 63 else None)%N.

Definition pad : N := 61.

(** Three bytes as four characters; the last group is padded. *)
Fixpoint b64_groups (bs : list N) : pystr :=
  match bs with
  | [] => []
  | [x] => [b64_char (x / 4); b64_char (x mod 4 * 16); pad; pad]%N
  | [x; y] => [b64_char (x / 4); b64_char (x mod 4 * 16 + y / 16); b64_char (y mod 16 * 4); pad]%N
  | x :: y :: z :: r =>
      [b64_char (x / 4); b64_char (x mod 4 * 16 + y / 16); b64_char (y mod 16 * 4 + z / 64); b64_char (z mod 64)]%N
      ++ b64_groups r
  end.

(** [base64.b64encode(value).decode("ascii")] *)
Definition b64encode (value : bytes) : pystr := b64_groups (map N_of_ascii value).

(** [base64.b64decode(value, validate=True)]: groups of four, the last one padded; the
    bits a padded group does not use are not looked at. *)
Fixpoint b64_ungroup (s : pystr) : option (list N) :=
  match s with
  | [] => Some []
  | c1 :: c2 :: c3 :: c4 :: r =>
      v1 ← b64_val c1; v2 ← b64_val c2;
      if bool_decide (c3 = pad) && bool_decide (c4 = pad) && bool_decide (r = []) then
        Some [v1 * 4 + v2 / 16]%N
      else
        v3 ← b64_val c3;
        if bool_decide (c4 = pad) && bool_decide (r = []) then
          Some [v1 * 4 + v2 / 16; v2 mod 16 * 16 + v3 / 4]%N
        else
          v4 ← b64_val c4;
          rest ← b64_ungroup r;
          Some ((v1 * 4 + v2 / 16) :: (v2 mod 16 * 16 + v3 / 4) :: (v3 mod 4 * 64 + v4) :: rest)%N
  | _ => None
  end.

Definition b64decode (value : pystr) : result bytes :=
  match b64_ungroup value with
  | Some bs => Ok (map ascii_of_N bs)
  | None => raise ValueError "Incorrect padding"
  end.

Definition canonical_base64 (value : pystr) : result pystr :=
  decoded ← catch (b64decode value) is_value_error (λ _, raise ValueError "invalid Base64");
  raise_if (negb (bool_decide (b64encode decoded = value))) ValueError
    "Base64 must use canonical padded encoding";;
  mret value.

(** ** Events *)

Inductive TokenId := TokenNumber (z : Z) | TokenText (s : pystr) | NoToken.
Inductive Logprob := LogFloat (x : float) | LogInt (z : Z).

Record TokenAlternative := {
  ta_bytes : pystr;
  ta_id : TokenId;
  ta_logprob : option Logprob
}.

Record GeneratedToken := {
  gt_bytes : pystr;
  gt_id : TokenId;
  gt_logprob : Logprob;
  gt_alternatives : list TokenAlternative
}.

Inductive FailureKind := transport_error | http_error | provider_rejected.

Inductive Event :=
  | ModelTurn (request_body response_body generated_bytes reasoning output : pystr) (tokens : list GeneratedToken)
  | ModelFailure (request_body : pystr) (response_body : option pystr) (failure_kind : FailureKind)
      (status_code : option Z)
  | ToolCall (call_id tool_name input_body : pystr)
  | ToolResult (call_id output_body : pystr) (is_error : bool)
  | FinalSubmission (submission_sha256 : pystr).

Record TrajectoryEvent := { sequence : Z; event : Event }.

Record Trajectory := {
  tr_schema_version : Z;
  tr_task_id : pystr;
  tr_challenge_id : pystr;
  tr_miner_hotkey : pystr;
  tr_submission_sha256 : pystr;
  tr_harness_name : pystr;
  tr_harness_version : pystr;
  tr_model_provider : pystr;
  tr_model_name : pystr;
  tr_events : list TrajectoryEvent
}.

(** ** Field constraints: a [str] of pydantic has no lone surrogate *)

Definition text_field (lo hi : Z) (s : pystr) : bool := len_between lo hi s && forallb scalar s.
Definition base64_field (limit : Z) (s : pystr) : bool := text_field 0 limit s && is_ok (canonical_base64 s).

Definition MiB : Z := 1024 ^ 2.
Definition TOKEN_CHARS : Z := 65536.
Definition Base64Text : pystr → bool := base64_field (64 * MiB).
Definition LargeBase64Text : pystr → bool := base64_field (128 * MiB).
Definition SequenceNumber (z : Z) : bool := (0 <=? z) && (z <=? 2 ^ 31 - 1).
Definition SmallText : pystr → bool := text_field 1 256.
Definition Digest (s : pystr) : bool := (zlen s =? 64) && forallb is_lower_hex s.

Definition validate_token_id (value : TokenId) : bool :=
  match value with
  | TokenNumber z => (- SAFE_INTEGER_MAX <=? z) && (z <=? SAFE_INTEGER_MAX)
  | TokenText s => forallb scalar s
  | NoToken => true
  end.

(** An integer too large for a float counts as not finite; in the source [math.isfinite]
    raises [OverflowError] for it, which refuses the trajectory too. *)
Definition py_isfinite (x : Logprob) : bool :=
  isfinite match x with LogFloat f => f | LogInt z => float_of_int z end.

Definition finite_or_null (x : option Logprob) : bool :=
  match x with Some p => py_isfinite p | None => true end.

Definition TokenAlternative_fields (a : TokenAlternative) : bool :=
  base64_field TOKEN_CHARS (ta_bytes a) && validate_token_id (ta_id a) && finite_or_null (ta_logprob a).

Definition GeneratedToken_fields (t : GeneratedToken) : bool :=
  base64_field TOKEN_CHARS (gt_bytes t) && validate_token_id (gt_id t) && py_isfinite (gt_logprob t)
  && (zlen (gt_alternatives t) =? 5) && forallb TokenAlternative_fields (gt_alternatives t).

Definition TRACE_EVIDENCE_REQUIRED : bool := false.

Definition validate_evidence (reasoning : pystr) (tokens : list GeneratedToken) : result unit :=
  raise_if (TRACE_EVIDENCE_REQUIRED && bool_decide (reasoning = [])) ValueError "model turn requires reasoning";;
  raise_if (TRACE_EVIDENCE_REQUIRED && bool_decide (zlen tokens = 0)) ValueError
    "model turn requires token log probabilities".

Definition validate_generated_bytes (generated : pystr) (tokens : list GeneratedToken) : result unit :=
  match tokens with
  | [] => Ok ()
  | _ =>
      chosen ← mapM (λ t, b64decode (gt_bytes t)) tokens;
      raise_if (negb (bool_decide (b64encode (concat chosen) = generated))) ValueError
        "chosen tokens do not reproduce generated bytes"
  end.

Definition validate_failure (response_body : option pystr) (kind : FailureKind) (status : option Z) : result unit :=
  let valid :=
    match kind with
    | transport_error => bool_decide (response_body = None) && bool_decide (status = None)
    | _ => negb (bool_decide (response_body = None)) && negb (bool_decide (status = None))
    end in
  raise_if (negb valid) ValueError "failure response fields do not match failure_kind".

Definition event_fields (e : Event) : bool :=
  match e with
  | ModelTurn req res gen reasoning output tokens =>
      Base64Text req && LargeBase64Text res && Base64Text gen && text_field 0 (64 * MiB) reasoning
      && text_field 0 (64 * MiB) output && (zlen tokens <=? 250000) && forallb GeneratedToken_fields tokens
  | ModelFailure req res _ status =>
      Base64Text req && (match res with Some r => LargeBase64Text r | None => true end)
      && (match status with Some s => (100 <=? s) && (s <=? 599) | None => true end)
  | ToolCall id name body => SmallText id && SmallText name && Base64Text body
  | ToolResult id body _ => SmallText id && LargeBase64Text body
  | FinalSubmission digest => Digest digest
  end.

Definition event_after (e : Event) : result unit :=
  match e with
  | ModelTurn _ _ gen reasoning _ tokens => validate_evidence reasoning tokens;; validate_generated_bytes gen tokens
  | ModelFailure _ res kind status => validate_failure res kind status
  | _ => Ok ()
  end.

Definition TrajectoryEvent_validate : TrajectoryEvent → result TrajectoryEvent :=
  model_validate (λ e, SequenceNumber (sequence e) && event_fields (event e)) (λ e, event_after (event e)).

(** ** The validator of a trajectory *)

Definition is_model_turn (e : TrajectoryEvent) : bool :=
  match event e with ModelTurn _ _ _ _ _ _ => true | _ => false end.

Definition final_digest (e : TrajectoryEvent) : option pystr :=
  match event e with FinalSubmission d => Some d | _ => None end.

(** [calls] and [results]: the sequence number of every call and result. *)
Fixpoint collect_calls (calls results : gmap pystr Z) (events : list TrajectoryEvent)
    : result (gmap pystr Z * gmap pystr Z) :=
  match events with
  | [] => Ok (calls, results)
  | e :: events' =>
      match event e with
      | ToolCall id _ _ =>
          raise_if (bool_decide (is_Some (calls !! id))) ValueError "tool call IDs must be unique";;
          collect_calls (<[id := sequence e]> calls) results events'
      | ToolResult id _ _ =>
          raise_if (bool_decide (is_Some (results !! id))) ValueError "tool calls must have exactly one result";;
          collect_calls calls (<[id := sequence e]> results) events'
      | _ => collect_calls calls results events'
      end
  end.

Definition alternatives (events : list TrajectoryEvent) : list (option Logprob) :=
  concat (map (λ e, match event e with
                    | ModelTurn _ _ _ _ _ tokens => concat (map (λ t, map ta_logprob (gt_alternatives t)) tokens)
                    | _ => []
                    end) events).

Definition validate_events (t : Trajectory) : result unit :=
  let events := tr_events t in
  raise_if (negb (bool_decide (map sequence events = map Z.of_nat (seq 0 (length events))))) ValueError
    "event sequences must start at zero and be contiguous";;
  raise_if (negb (existsb is_model_turn events)) ValueError "trajectory requires a model turn";;
  match omap final_digest events, last events ≫= final_digest with
  | [digest], Some _ =>
      raise_if (negb (bool_decide (digest = tr_submission_sha256 t))) ValueError
        "final submission hash does not match trajectory";;
      '(calls, results) ← collect_calls ∅ ∅ events;
      raise_if (bool_decide (calls = ∅) || negb (bool_decide (dom calls = dom results))) ValueError
        "every tool call must have exactly one result";;
      raise_if (existsb (λ '(id, s), match results !! id with Some r => r <=? s | None => false end) (map_to_list calls))
        ValueError "tool results must follow their calls";;
      let values := alternatives events in
      let finite := zlen (filter (λ v, match v with Some p => py_isfinite p | None => false end = true) values) in
      raise_if (finite * 100 <? zlen values * 85) ValueError
        "at least 85% of alternative logprobs must be finite"
  | _, _ => raise ValueError "trajectory requires one final submission as its last event"
  end.

Definition Trajectory_fields (t : Trajectory) : bool :=
  exact_int 1 (tr_schema_version t) && Digest (tr_task_id t) && text_field 1 128 (tr_challenge_id t)
  && text_field 1 128 (tr_miner_hotkey t) && Digest (tr_submission_sha256 t) && SmallText (tr_harness_name t)
  && SmallText (tr_harness_version t) && SmallText (tr_model_provider t) && SmallText (tr_model_name t)
  && (4 <=? zlen (tr_events t)) && (zlen (tr_events t) <=? 100000)
  && forallb (λ e, is_ok (TrajectoryEvent_validate e)) (tr_events t).

Definition Trajectory_validate : Trajectory → result Trajectory := model_validate Trajectory_fields validate_events.

(** ** Bytes *)

(** [dump_trajectory]: [rfc8785.dumps] of the model.  [read_trajectory]: [json.loads]
    with the hook that refuses duplicate keys, read into the fields of the model. *)
Class TrajectoryJson := {
  dump_trajectory : Trajectory → result bytes;
  read_trajectory : bytes → result Trajectory
}.

Section bytes.
Context `{!TrajectoryJson}.

Definition serialize_trajectory (t : Trajectory) : result bytes :=
  catch (dump_trajectory t) (λ c, bool_decide (c = CanonicalizationError))
    (λ _, raise TrajectoryError "trajectory cannot be canonicalized").

Definition bom_bytes : bytes := map ascii_of_N [239; 187; 191]%N.

Definition parse_trajectory (raw : bytes) : result Trajectory :=
  raise_if (bool_decide (raw = []) || startswith bom_bytes raw) TrajectoryError
    "trajectory must be nonempty UTF-8 JSON without a BOM";;
  catch
    (value ← read_trajectory raw;
     t ← Trajectory_validate value;
     again ← serialize_trajectory t;
     raise_if (negb (bool_decide (again = raw))) TrajectoryError "trajectory is not canonical JCS";;
     mret t)
    (λ c, negb (bool_decide (c = TrajectoryError)) && (is_value_error c || bool_decide (c = TypeError)))
    (λ _, raise TrajectoryError "invalid trajectory").
End bytes.

(** ** Base64 *)

Lemma b64_val_char (n : N) : (n < 64)%N → b64_val (b64_char n) = Some n.
Proof.
  intros Hn. assert (Hall : forallb (λ k, bool_decide (b64_val (b64_char (N.of_nat k)) = Some (N.of_nat k))) (seq 0 64) = true)
    by (vm_compute; reflexivity).
  rewrite forallb_forall in Hall. specialize (Hall (N.to_nat n)). rewrite in_seq, N2Nat.id in Hall.
  apply (bool_decide_eq_true_1 _), Hall. lia.
Qed.

Lemma b64_char_pad (n : N) : (n < 64)%N → b64_char n ≠ pad.
Proof. intros Hn He. pose proof (b64_val_char n Hn) as Hv. rewrite He in Hv. vm_compute in Hv. discriminate Hv. Qed.

Lemma b64_groups_unfold (x y z : N) (r : list N) :
  b64_groups (x :: y :: z :: r) =
  ([b64_char (x / 4); b64_char (x mod 4 * 16 + y / 16); b64_char (y mod 16 * 4 + z / 64); b64_char (z mod 64)]%N
   ++ b64_groups r).
Proof. done. Qed.

Ltac b64_bytes := zify; Z.to_euclidean_division_equations; lia.

Lemma b64_ungroup_groups_n (k : nat) (bs : list N) :
  (length bs <= k)%nat → Forall (λ b, (b < 256)%N) bs → b64_ungroup (b64_groups bs) = Some bs.
Proof.
  revert bs. induction k as [|k IH]; intros bs Hk Hb; [by destruct bs; [|simpl in Hk; lia]|].
  destruct Hb as [|x bs Hx Hb]; [done|]. destruct Hb as [|y bs Hy Hb].
  { cbn [b64_groups b64_ungroup]. rewrite !b64_val_char by b64_bytes. cbn [mbind option_bind].
    rewrite bool_decide_eq_true_2 by done. cbn [andb]. do 2 f_equal. b64_bytes. }
  destruct Hb as [|z bs Hz Hb].
  { cbn [b64_groups b64_ungroup]. rewrite !b64_val_char by b64_bytes. cbn [mbind option_bind].
    rewrite (bool_decide_eq_false_2 (_ = pad)) by (apply b64_char_pad; b64_bytes). cbn [andb].
    rewrite bool_decide_eq_true_2 by done. cbn [andb]. f_equal. f_equal; [b64_bytes|f_equal; b64_bytes]. }
  rewrite b64_groups_unfold. cbn [app b64_ungroup]. rewrite !b64_val_char by b64_bytes. cbn [mbind option_bind].
  rewrite !(bool_decide_eq_false_2 (_ = pad)) by (apply b64_char_pad; b64_bytes). cbn [andb].
  rewrite IH; [|simpl in Hk; lia|done]. cbn [mbind option_bind].
  f_equal. f_equal; [b64_bytes|f_equal; [b64_bytes|f_equal; b64_bytes]].
Qed.

Lemma b64decode_encode (b : bytes) : b64decode (b64encode b) = Ok b.
Proof.
  unfold b64decode, b64encode. rewrite (b64_ungroup_groups_n _ _ (le_n _)).
  - rewrite map_map. f_equal. rewrite (map_ext _ id) by apply ascii_N_embedding. by rewrite map_id.
  - apply Forall_forall. intros x Hx%list_elem_of_In%in_map_iff. destruct Hx as (c & <- & _). apply N_ascii_bounded.
Qed.

Lemma b64_char_ascii (n : N) : (b64_char n < 128)%N.
Proof.
  unfold b64_char. destruct (N.ltb_spec n 26); [lia|]. destruct (N.ltb_spec n 52); [lia|].
  destruct (N.ltb_spec n 62); [lia|]. by destruct (n =? 62)%N.
Qed.

Lemma b64_groups_ascii (k : nat) (bs : list N) : (length bs <= k)%nat → Forall (λ c, (c < 128)%N) (b64_groups bs).
Proof.
  revert bs. induction k as [|k IH]; intros bs Hk; [by destruct bs; [constructor|simpl in Hk; lia]|].
  destruct bs as [|x [|y [|z bs]]]; [constructor| | |rewrite b64_groups_unfold; apply Forall_app; split];
    try (cbn [b64_groups]; repeat constructor; apply b64_char_ascii).
  apply IH. simpl in Hk. lia.
Qed.

(** Encoded text is text. *)
Lemma b64encode_scalar (b : bytes) : forallb scalar (b64encode b) = true.
Proof.
  rewrite forallb_elem. intros c Hc. pose proof (b64_groups_ascii _ _ (le_n (length (map N_of_ascii b)))) as Ha.
  rewrite Forall_forall in Ha. apply scalar_bounds. specialize (Ha c Hc). lia.
Qed.

Lemma canonical_base64_Ok (v w : pystr) : canonical_base64 v = Ok w ↔ w = v ∧ ∃ b, v = b64encode b.
Proof.
  unfold canonical_base64. split.
  - intros (d & _ & [He [= <-]]%guard_Ok)%bind_Ok. split; [done|]. exists d.
    by rewrite negb_false_iff, bool_decide_eq_true in He.
  - intros [-> [b ->]]. rewrite b64decode_encode. cbn [catch mbind result_bind].
    by rewrite bool_decide_eq_true_2.
Qed.

(** ** Calls and results *)

Definition call_of (e : TrajectoryEvent) : option pystr :=
  match event e with ToolCall id _ _ => Some id | _ => None end.

Definition result_of (e : TrajectoryEvent) : option pystr :=
  match event e with ToolResult id _ _ => Some id | _ => None end.

Definition recorded (m m' : gmap pystr Z) (id_of : TrajectoryEvent → option pystr) (events : list TrajectoryEvent) : Prop :=
  ∀ id s, m' !! id = Some s ↔ m !! id = Some s ∨ ∃ e, e ∈ events ∧ id_of e = Some id ∧ sequence e = s.

Lemma recorded_skip (m m' : gmap pystr Z) (id_of : TrajectoryEvent → option pystr) (e : TrajectoryEvent)
    (events : list TrajectoryEvent) :
  id_of e = None → recorded m m' id_of events → recorded m m' id_of (e :: events).
Proof.
  intros He Hr id s. rewrite (Hr id s). setoid_rewrite elem_of_cons. split; [naive_solver|].
  intros [?|(x & [->|Hx] & Hid & Hs)]; [by left|congruence|right; eauto].
Qed.

Lemma recorded_add (m m' : gmap pystr Z) (id_of : TrajectoryEvent → option pystr) (e : TrajectoryEvent)
    (events : list TrajectoryEvent) (id : pystr) :
  id_of e = Some id → m !! id = None → recorded (<[id := sequence e]> m) m' id_of events →
  recorded m m' id_of (e :: events).
Proof.
  intros He Hm Hr k s. rewrite (Hr k s), lookup_insert_Some. setoid_rewrite elem_of_cons. split.
  - intros [[[<- <-]|[Hne Hk]]|(x & Hx & Hid & Hs)]; [right; eauto|by left|right; eauto].
  - intros [Hk|(x & [->|Hx] & Hid & Hs)]; [left; right; split; [congruence|done]| |right; eauto].
    left. left. split; congruence.
Qed.

Lemma collect_calls_spec (events : list TrajectoryEvent) (c r c' r' : gmap pystr Z) :
  collect_calls c r events = Ok (c', r') → recorded c c' call_of events ∧ recorded r r' result_of events.
Proof.
  revert c r. induction events as [|e events IH]; intros c r; cbn [collect_calls].
  { intros [= <- <-]. split; intros id s; (split; [by left|]);
      intros [?|(x & Hx%not_elem_of_nil & _)]; done. }
  destruct (event e) eqn:He; try (intros [Hc Hr]%IH; split;
    [by apply recorded_skip; [unfold call_of; rewrite He|]|by apply recorded_skip; [unfold result_of; rewrite He|]]).
  - rewrite guard_Ok, bool_decide_eq_false, <-eq_None_not_Some. intros [Hn [Hc Hr]%IH]. split.
    + by eapply recorded_add; [unfold call_of; rewrite He|..].
    + by apply recorded_skip; [unfold result_of; rewrite He|].
  - rewrite guard_Ok, bool_decide_eq_false, <-eq_None_not_Some. intros [Hn [Hc Hr]%IH]. split.
    + by apply recorded_skip; [unfold call_of; rewrite He|].
    + by eapply recorded_add; [unfold result_of; rewrite He|..].
Qed.

Lemma sequence_index (events : list TrajectoryEvent) (i : nat) (e : TrajectoryEvent) :
  map sequence events = map Z.of_nat (seq 0 (length events)) → events !! i = Some e → sequence e = Z.of_nat i.
Proof.
  intros Hs Hi. apply (f_equal (λ l, l !! i)) in Hs.
  change (map sequence events) with (sequence <$> events) in Hs. change (map Z.of_nat ?l) with (Z.of_nat <$> l) in Hs.
  rewrite !list_lookup_fmap, Hi in Hs. pose proof (lookup_lt_Some _ _ _ Hi) as Hl.
  rewrite lookup_seq_lt in Hs by done. by injection Hs.
Qed.

(** What [collect_calls] from nothing says of the events by their index. *)
Lemma recorded_index (m : gmap pystr Z) (id_of : TrajectoryEvent → option pystr) (events : list TrajectoryEvent)
    (i : nat) (e : TrajectoryEvent) (id : pystr) :
  map sequence events = map Z.of_nat (seq 0 (length events)) → recorded ∅ m id_of events →
  events !! i = Some e → id_of e = Some id →
  m !! id = Some (Z.of_nat i) ∧ ∀ k e', events !! k = Some e' → id_of e' = Some id → k = i.
Proof.
  intros Hs Hr Hi Hid.
  assert (Hm : ∀ k e', events !! k = Some e' → id_of e' = Some id → m !! id = Some (Z.of_nat k)).
  { intros k e' Hk Hk'. apply Hr. right. exists e'. split; [by eapply list_elem_of_lookup_2|].
    split; [done|by eapply sequence_index]. }
  split; [by eapply Hm|]. intros k e' Hk Hk'. specialize (Hm i e Hi Hid) as H1. specialize (Hm k e' Hk Hk') as H2.
  rewrite H1 in H2. injection H2. lia.
Qed.

Lemma recorded_of (m : gmap pystr Z) (id_of : TrajectoryEvent → option pystr) (events : list TrajectoryEvent)
    (id : pystr) (s : Z) :
  map sequence events = map Z.of_nat (seq 0 (length events)) → recorded ∅ m id_of events → m !! id = Some s →
  ∃ i e, events !! i = Some e ∧ id_of e = Some id ∧ s = Z.of_nat i.
Proof.
  intros Hs Hr [Hn|(e & He & Hid & <-)]%Hr; [by rewrite lookup_empty in Hn|].
  apply list_elem_of_lookup_1 in He as [i Hi]. exists i, e. split_and!; [done|done|by eapply sequence_index].
Qed.

(** ** Properties *)

(** Each of [from] is answered by exactly one of [to], and on the right side of it. *)
Definition paired (events : list TrajectoryEvent) (from to : TrajectoryEvent → option pystr)
    (before : nat → nat → Prop) : Prop :=
  ∀ i e id, events !! i = Some e → from e = Some id →
    (∃ j e', events !! j = Some e' ∧ to e' = Some id ∧ before i j ∧
       ∀ k e'', events !! k = Some e'' → to e'' = Some id → k = j) ∧
    ∀ k e', events !! k = Some e' → from e' = Some id → k = i.

Lemma calls_answered (events : list TrajectoryEvent) (calls results : gmap pystr Z) :
  map sequence events = map Z.of_nat (seq 0 (length events)) →
  recorded ∅ calls call_of events → recorded ∅ results result_of events → dom calls = dom results →
  existsb (λ '(id, s), match results !! id with Some r => r <=? s | None => false end) (map_to_list calls) = false →
  paired events call_of result_of lt ∧ paired events result_of call_of (λ i j, (j < i)%nat).
Proof.
  intros Hseq Hcalls Hres Hdom Hafter.
  assert (Hlt : ∀ id s r, calls !! id = Some s → results !! id = Some r → s < r).
  { intros id s r Hs Hr. destruct (Z.lt_ge_cases s r) as [|Hge]; [done|]. exfalso.
    apply not_true_iff_false in Hafter. apply Hafter, existsb_exists. exists (id, s).
    rewrite <-list_elem_of_In, elem_of_map_to_list, Hr, Z.leb_le. done. }
  split; intros i e id Hi Hid.
  - destruct (recorded_index _ _ _ _ _ _ Hseq Hcalls Hi Hid) as [Hc Hone]. split; [|exact Hone].
    assert (Hr : is_Some (results !! id)) by (rewrite <-elem_of_dom, <-Hdom, elem_of_dom; by eexists).
    destruct Hr as [s Hr]. destruct (recorded_of _ _ _ _ _ Hseq Hres Hr) as (j & e' & Hj & Hj' & ->).
    exists j, e'. split_and!; [done|done|specialize (Hlt _ _ _ Hc Hr); lia|].
    by apply (recorded_index _ _ _ _ _ _ Hseq Hres Hj Hj').
  - destruct (recorded_index _ _ _ _ _ _ Hseq Hres Hi Hid) as [Hr Hone]. split; [|exact Hone].
    assert (Hc : is_Some (calls !! id)) by (rewrite <-elem_of_dom, Hdom, elem_of_dom; by eexists).
    destruct Hc as [s Hc]. destruct (recorded_of _ _ _ _ _ Hseq Hcalls Hc) as (j & e' & Hj & Hj' & ->).
    exists j, e'. split_and!; [done|done|specialize (Hlt _ _ _ Hc Hr); lia|].
    by apply (recorded_index _ _ _ _ _ _ Hseq Hcalls Hj Hj').
Qed.

Lemma only_final (events : list TrajectoryEvent) (digest d d' : pystr) (i : nat) (e : TrajectoryEvent) :
  omap final_digest events = [digest] → last events ≫= final_digest = Some d →
  events !! i = Some e → event e = FinalSubmission d' → S i = length events ∧ d' = digest.
Proof.
  intros Hfin (x & Hlast & Hx)%bind_Some Hi He. apply last_Some in Hlast as [l ->].
  assert (Hd : final_digest e = Some d') by (unfold final_digest; by rewrite He).
  rewrite omap_app in Hfin. simpl in Hfin. rewrite Hx in Hfin. rewrite length_app. simpl.
  destruct (omap final_digest l) as [|y ys] eqn:Hl; [|by destruct ys].
  apply lookup_app_Some in Hi as [Hi|[Hi Hx']].
  - assert (Hin : d' ∈ omap final_digest l) by (apply list_elem_of_omap; exists e; split; [by eapply list_elem_of_lookup_2|done]).
    rewrite Hl in Hin. by apply not_elem_of_nil in Hin.
  - apply list_lookup_singleton_Some in Hx' as [Hx' ->]. split; [lia|]. simpl in Hfin. congruence.
Qed.

Lemma turn_bytes (e : TrajectoryEvent) (req res gen reasoning output : pystr) (tokens : list GeneratedToken) :
  is_ok (TrajectoryEvent_validate e) = true → event e = ModelTurn req res gen reasoning output tokens → tokens ≠ [] →
  ∃ chosen, Forall2 (λ t b, gt_bytes t = b64encode b) tokens chosen ∧ gen = b64encode (concat chosen).
Proof.
  intros (e' & He)%is_ok_true Hev Hne. apply model_validate_Ok in He as (Hf & Ha & _). rewrite Hev in Hf, Ha.
  cbn [event_after] in Ha. apply seq_Ok in Ha as [_ Ha]. unfold validate_generated_bytes in Ha.
  destruct tokens as [|tok tokens]; [done|]. apply bind_Ok in Ha as (chosen & Hc & Hgen).
  apply raise_if_Ok, negb_false_iff, bool_decide_eq_true in Hgen. exists chosen. split; [|done].
  apply mapM_Ok in Hc. cbn [event_fields] in Hf. rewrite !andb_true_iff in Hf. destruct Hf as [_ [_ Hf]].
  rewrite forallb_elem in Hf. clear Hne Hev Hgen. revert Hf. induction Hc as [|x b l k Hx Hc IH]; intros Hf; constructor.
  - specialize (Hf x (list_elem_of_here _ _)). unfold GeneratedToken_fields, base64_field in Hf.
    rewrite !andb_true_iff in Hf. destruct Hf as [[[[[_ (v & Hv)%is_ok_true] _] _] _] _].
    apply canonical_base64_Ok in Hv as [_ [b' Hb]]. rewrite Hb, b64decode_encode in Hx. by injection Hx as <-.
  - apply IH. intros y Hy. apply Hf. by right.
Qed.

(** (safety): in a validated trajectory the events are numbered as they stand; the
    last one, and only it, is the final submission, with the digest the trajectory
    names; every tool call has its own identifier and exactly one result, which comes
    later, and every result has its call; and where a model turn gives its tokens, they
    spell the bytes it generated. *)
Theorem trajectory_ordered (t v : Trajectory) :
  Trajectory_validate v = Ok t →
  let events := tr_events t in
  (∀ i e, events !! i = Some e → sequence e = Z.of_nat i) ∧
  (∀ i e d, events !! i = Some e → event e = FinalSubmission d →
     S i = length events ∧ d = tr_submission_sha256 t) ∧
  paired events call_of result_of lt ∧ paired events result_of call_of (λ i j, (j < i)%nat) ∧
  (∀ i e req res gen reasoning output tokens, events !! i = Some e →
     event e = ModelTurn req res gen reasoning output tokens → tokens ≠ [] →
     ∃ chosen, Forall2 (λ t b, gt_bytes t = b64encode b) tokens chosen ∧ gen = b64encode (concat chosen)).
Proof.
  intros (Hf & Ha & ->)%model_validate_Ok events. unfold validate_events in Ha. fold events in Ha.
  rewrite !guard_Ok in Ha. destruct Ha as (Hseq & _ & Ha). apply negb_false_iff, bool_decide_eq_true in Hseq.
  destruct (omap final_digest events) as [|digest [|]] eqn:Hfin; [done| |done].
  destruct (last events ≫= final_digest) as [d|] eqn:Hlast; [|done].
  apply guard_Ok in Ha as [Hd Ha]. apply negb_false_iff, bool_decide_eq_true in Hd.
  apply bind_Ok in Ha as ([calls results] & Hcol & Ha). rewrite !guard_Ok in Ha. destruct Ha as (Hdom & Hafter & _).
  apply collect_calls_spec in Hcol as [Hcalls Hres].
  apply orb_false_iff in Hdom as [_ Hdom]. apply negb_false_iff, bool_decide_eq_true in Hdom.
  pose proof (calls_answered events calls results Hseq Hcalls Hres Hdom Hafter) as [Hp1 Hp2].
  split_and!; [intros i e; by apply sequence_index| |exact Hp1|exact Hp2|].
  - intros i e d' Hi He. rewrite <-Hd. by eapply only_final.
  - intros i e req res gen reasoning output tokens Hi He Hne.
    eapply turn_bytes; [|exact He|exact Hne]. unfold Trajectory_fields in Hf. rewrite !andb_true_iff in Hf.
    destruct Hf as [_ Hf]. rewrite forallb_forall in Hf. apply Hf, list_elem_of_In. by eapply list_elem_of_lookup_2.
Qed.

(** (roundtrip): with a JSON codec that reads back what it wrote, the parser accepts
    exactly the canonical encodings of the valid trajectories: a trajectory has one
    encoding, and every valid one can be read back. *)
Theorem trajectory_canonical `{TJ : !TrajectoryJson} (raw : bytes) (t : Trajectory) :
  (dump_trajectory t = Ok raw → raw ≠ [] ∧ startswith bom_bytes raw = false ∧ read_trajectory raw = Ok t) →
  parse_trajectory raw = Ok t ↔ Trajectory_validate t = Ok t ∧ serialize_trajectory t = Ok raw.
Proof.
  intros Hread. unfold parse_trajectory. rewrite guard_Ok. split.
  - intros [_ H]. unfold catch in H. destruct (value ← read_trajectory raw; _) as [t'|e] eqn:Hb; [|by case_match].
    injection H as ->. apply bind_Ok in Hb as (v & _ & (t' & Ht & (again & Hs & [Heq [= ->]]%guard_Ok)%bind_Ok)%bind_Ok).
    apply negb_false_iff, bool_decide_eq_true in Heq as ->. split; [|done].
    pose proof Ht as (_ & _ & ->)%model_validate_Ok. exact Ht.
  - intros [Ht Hs]. assert (Hd : dump_trajectory t = Ok raw).
    { unfold serialize_trajectory, catch in Hs. destruct (dump_trajectory t); [done|]. by case_match. }
    destruct (Hread Hd) as (Hne & Hbom & Hr). split; [by rewrite bool_decide_eq_false_2, Hbom|].
    rewrite Hr. cbn [mbind result_bind]. rewrite Ht. cbn [mbind result_bind]. rewrite Hs. cbn [mbind result_bind].
    by rewrite bool_decide_eq_true_2.
Qed.

(** ** Witnesses *)

Definition sample_digest : pystr := replicate 64 97%N.

Definition sample_token : GeneratedToken :=
  {| gt_bytes := ustr "aGk="; gt_id := TokenNumber 7; gt_logprob := LogInt 0;
     gt_alternatives := replicate 5 {| ta_bytes := ustr "aGk="; ta_id := NoToken; ta_logprob := Some (LogInt 0) |} |}.

Definition sample_trajectory : Trajectory :=
  {| tr_schema_version := 1; tr_task_id := sample_digest; tr_challenge_id := ustr "c1"; tr_miner_hotkey := ustr "a";
     tr_submission_sha256 := sample_digest; tr_harness_name := ustr "h"; tr_harness_version := ustr "3";
     tr_model_provider := ustr "p"; tr_model_name := ustr "m";
     tr_events :=
       [{| sequence := 0; event := ModelTurn (ustr "e30=") (ustr "e30=") (ustr "aGk=") [] (ustr "hi") [sample_token] |};
        {| sequence := 1; event := ToolCall (ustr "x") (ustr "validate") (ustr "aGk=") |};
        {| sequence := 2; event := ToolResult (ustr "x") [] false |};
        {| sequence := 3; event := FinalSubmission sample_digest |}] |}.

Lemma trajectory_ordered_witness :
  paired (tr_events sample_trajectory) call_of result_of lt ∧ ∃ b, ustr "aGk=" = b64encode b.
Proof.
  destruct (trajectory_ordered sample_trajectory sample_trajectory) as (_ & _ & Hp & _ & Hb).
  - vm_compute. reflexivity.
  - split; [exact Hp|]. destruct (Hb 0%nat _ _ _ _ _ _ _ eq_refl eq_refl) as (chosen & _ & Hc); [discriminate|].
    by exists (concat chosen).
Defined.

Definition one_trajectory : TrajectoryJson :=
  {| dump_trajectory := λ _, Ok (bstr "{}"); read_trajectory := λ _, Ok sample_trajectory |}.

Lemma trajectory_canonical_witness :
  parse_trajectory (H := one_trajectory) (bstr "{}") = Ok sample_trajectory.
Proof.
  apply (trajectory_canonical (TJ := one_trajectory) (bstr "{}") sample_trajectory).
  - intros _. split; [discriminate|]. split; reflexivity.
  - split; vm_compute; reflexivity.
Defined.
