(* ===== verification/ModelClient.v ===== *)
(** * The model client of the reference miner ([src/rlvr/neurons/demo_miner.py])

    The reply of a chat-completions service is a JSON value; [parse_completion] reads it
    with the exceptions Python's subscripts and methods raise.  [complete] is the retrying
    request, in a monad over an abstract world [Model] that has the clock, the service
    and the runs of git.

    [complete_completes]: what a completion keeps of the service's reply.
    [spends_complete]: how often the service is asked. *)

From S2P Require Import Prelude PyFloat Text Json JsonSpec JsonBytes Canonical CanonicalSpec Codecs Download Trajectory MinerText.

Local Open Scope Z_scope.

(** ** Python values of a JSON document *)

Definition as_key (key : string) : pyobj := PStr (ustr key).

Definition dict (members : list (string * pyobj)) : pyobj := PDict (map (λ '(k, v), (as_key k, v)) members).

(** The value of a key of a dictionary whose keys are strings. *)
Definition dict_find (key : string) (d : list (pyobj * pyobj)) : option pyobj :=
  snd <$> List.find (λ kv, match kv.1 with PStr k => bool_decide (k = ustr key) | _ => false end) d.

(** [value["key"]] *)
Definition subscript (v : pyobj) (key : string) : result pyobj :=
  match v with
  | PDict d => match dict_find key d with Some x => Ok x | None => raise KeyError key end
  | PList _ => raise TypeError "list indices must be integers or slices, not str"
  | PStr _ => raise TypeError "string indices must be integers, not 'str'"
  | _ => raise TypeError "object is not subscriptable"
  end.

(** [value[0]]; JSON has no integer keys. *)
Definition subscript_first (v : pyobj) : result pyobj :=
  match v with
  | PList (x :: _) => Ok x
  | PList [] => raise IndexError "list index out of range"
  | PStr (c :: _) => Ok (PStr [c])
  | PStr [] => raise IndexError "string index out of range"
  | PDict _ => raise KeyError "0"
  | _ => raise TypeError "object is not subscriptable"
  end.

(** [value.get("key")]: only a dictionary has the method. *)
Definition get (v : pyobj) (key : string) : result pyobj :=
  match v with
  | PDict d => Ok (default PNone (dict_find key d))
  | _ => raise AttributeError "object has no attribute 'get'"
  end.

Definition truthy (v : pyobj) : bool :=
  match v with
  | PNone | PBool false | PInt 0 | PStr [] | PList [] | PDict [] => false
  | PFloat x => negb (feqb x f0)
  | _ => true
  end.

Definition is_text (v : pyobj) (text : string) : bool :=
  match v with PStr s => bool_decide (s = ustr text) | _ => false end.

Definition is_none (v : pyobj) : bool := match v with PNone => true | _ => false end.

(** ** Completions *)

Record ModelCompletion := {
  mc_request_body : bytes;
  mc_response_body : bytes;
  mc_output : pystr;
  mc_reasoning : pystr;
  mc_generated_bytes : bytes;
  mc_tokens : list GeneratedToken;
  mc_tool_calls : list (pystr * pystr * pystr)   (* id, name, arguments *)
}.

Definition tool_call_of (item : pyobj) : result (pystr * pystr * pystr) :=
  function ← match item with PDict _ => get item "function" | _ => Ok PNone end;
  match function with
  | PDict _ =>
      call_id ← get item "id";
      name ← get function "name";
      arguments ← get function "arguments";
      match call_id, name, arguments with
      | PStr i, PStr n, PStr a => Ok (i, n, a)
      | _, _, _ => raise ValueError "Bedrock returned an invalid tool call"
      end
  | _ => raise ValueError "Bedrock returned an invalid tool call"
  end.

Definition tool_calls (message : pyobj) : result (list (pystr * pystr * pystr)) :=
  raw ← get message "tool_calls";
  match raw with
  | PNone => Ok []
  | PList l => mapM tool_call_of l
  | _ => raise ValueError "Bedrock returned invalid tool calls"
  end.

Definition byte_of (item : pyobj) : option ascii :=
  match item with
  | PInt z => if (0 <=? z) && (z <=? 255) then Some (ascii_of_N (Z.to_N z)) else None
  | _ => None
  end.

Definition token_bytes (record : pyobj) : result bytes :=
  raw ← get record "bytes";
  if is_none raw then
    token ← get record "token";
    match token with
    | PStr s => utf8_encode s
    | _ => raise ValueError "model token has no byte representation"
    end
  else
    match raw with
    | PList l =>
        match mapM byte_of l with
        | Some bs => Ok bs
        | None => raise ValueError "model token has invalid bytes"
        end
    | _ => raise ValueError "model token has invalid bytes"
    end.

Definition token_id_of (v : pyobj) (message : string) : result TokenId :=
  match v with
  | PInt z => Ok (TokenNumber z)
  | PStr s => Ok (TokenText s)
  | PNone => Ok NoToken
  | _ => raise ValueError message
  end.

(** [math.isfinite] converts an integer to a float. *)
Definition finite_logprob (v : pyobj) (message : string) : result Logprob :=
  match v with
  | PInt z => raise_if (negb (isfinite (float_of_int z))) OverflowError "int too large to convert to float";;
              Ok (LogInt z)
  | PFloat x => raise_if (negb (isfinite x)) ValueError message;; Ok (LogFloat x)
  | _ => raise ValueError message
  end.

Definition token_alternative (record : pyobj) : result TokenAlternative :=
  token_id ← get record "token_id";
  logprob ← get record "logprob";
  id ← token_id_of token_id "Bedrock returned an invalid alternative token ID";
  p ← (if is_none logprob then Ok None
       else Some <$> finite_logprob logprob "Bedrock returned an invalid alternative logprob");
  bs ← token_bytes record;
  mret {| ta_bytes := b64encode bs; ta_id := id; ta_logprob := p |}.

(** One turn of the loop over the token records: the bytes and the token. *)
Definition token_record (record : pyobj) : result (bytes * GeneratedToken) :=
  bs ← token_bytes record;
  token_id ← get record "token_id";
  logprob ← subscript record "logprob";
  id ← token_id_of token_id "Bedrock returned an invalid token ID";
  p ← finite_logprob logprob "Bedrock returned an invalid token logprob";
  alternatives ← subscript record "top_logprobs";
  items ← match alternatives with
          | PList l => raise_if (negb (zlen l =? 5)) ValueError "Bedrock did not return five token alternatives";; Ok l
          | _ => raise ValueError "Bedrock did not return five token alternatives"
          end;
  alts ← mapM token_alternative items;
  mret (bs, {| gt_bytes := b64encode bs; gt_id := id; gt_logprob := p; gt_alternatives := alts |}).

(** The first of the two keys the message has. *)
Definition reasoning_of (message : pyobj) : result pyobj :=
  a ← get message "reasoning_content";
  if is_none a then
    b ← get message "reasoning"; mret (if is_none b then PStr [] else b)
  else mret a.

(** What follows the status of a reply. *)
Definition read_completion (data : pyobj) (request_body response_body : bytes) : result ModelCompletion :=
  choices ← subscript data "choices";
  choice ← subscript_first choices;
  finish ← get choice "finish_reason";
  raise_if (negb (is_text finish "stop" || is_text finish "tool_calls")) ValueError
    "Bedrock completion did not finish normally";;
  message ← subscript choice "message";
  content ← get message "content";
  let content := if truthy content then content else PStr [] in
  reasoning ← reasoning_of message;
  calls ← tool_calls message;
  output ← match content with PStr s => Ok s | _ => raise ValueError "Bedrock returned invalid content" end;
  thoughts ← match reasoning with PStr s => Ok s | _ => raise ValueError "Bedrock returned invalid reasoning" end;
  logprobs ← get choice "logprobs";
  records ← (if is_none logprobs then Ok (PList []) else subscript logprobs "content");
  records ← match records with PList l => Ok l | _ => raise ValueError "Bedrock returned invalid token records" end;
  tokens ← mapM token_record records;
  mret {| mc_request_body := request_body; mc_response_body := response_body; mc_output := output;
          mc_reasoning := thoughts; mc_generated_bytes := concat (map fst tokens); mc_tokens := map snd tokens;
          mc_tool_calls := calls |}.

Definition parse_completion (request_body response_body : bytes) : result ModelCompletion :=
  data ← loads_bytes response_body;
  read_completion data request_body response_body.

(** ** The world of a miner that solves *)

(** How a call fails: [asyncio]'s timeout, httpx's timeouts and transport errors, an
    HTTP status, or any other exception. *)
Inductive failure :=
  | TimedOut (message : pystr)
  | HttpTimeout
  | HttpTransport
  | HttpStatus (status : Z)
  | Failed (e : exn).

Inductive outcome (A : Type) := Got (a : A) | Fails (f : failure).
Arguments Got {A} _.
Arguments Fails {A} _.

Record ChatResponse := { ch_status : Z; ch_body : bytes }.

(** [git apply --check]: it could not be run, or its return code and its stderr. *)
Inductive GitRun := GitNotRun | GitRan (returncode : Z) (stderr : bytes).

Class Model := {
  world : Type;
  monotonic : world → float * world;
  (* POST of a body with a bearer token, bounded by a timeout *)
  send : pystr → pystr → bytes → float → world → outcome ChatResponse * world;
  pause : float → world → world;
  git_apply : pystr → bytes → float → world → GitRun * world
}.

Section monad.
Context `{!Model}.

Definition miner_m (A : Type) : Type := world → outcome A * world.

#[export] Instance miner_ret : MRet miner_m := λ A a w, (Got a, w).
#[export] Instance miner_bind : MBind miner_m := λ A B f m w,
  match m w with
  | (Got a, w') => f a w'
  | (Fails e, w') => (Fails e, w')
  end.

Definition fails {A} (f : failure) : miner_m A := λ w, (Fails f, w).
Definition lift {A} (m : result A) : miner_m A := λ w,
  (match m with Ok a => Got a | Raise e => Fails (Failed e) end, w).
Definition clock : miner_m float := λ w, let '(t, w') := monotonic w in (Got t, w').
Definition sleep (s : float) : miner_m unit := λ w, (Got (), pause s w).

(** A call with its outcome: the caller has an [except]. *)
Definition attempted {A} (m : miner_m A) : miner_m (outcome A) := λ w,
  let '(r, w') := m w in (Got r, w').
End monad.

(** ** The client *)

Record ModelSettings := {
  bedrock_api_key : pystr;
  bedrock_base_url : pystr;
  bedrock_model : pystr;
  bedrock_max_tokens : Z;
  bedrock_temperature : float;
  bedrock_reasoning_effort : pystr;
  bedrock_request_timeout_s : float;
  bedrock_max_retries : Z;
  bedrock_upload_reserve_s : float;
  miner_max_workspace_tool_calls : Z
}.

Definition completion_url (settings : ModelSettings) : result pystr :=
  let base := rev (drop_while (N.eqb 47) (rev (bedrock_base_url settings))) in
  raise_if (negb (startswith (ustr "https://") base)) RuntimeError "BEDROCK_BASE_URL must use HTTPS";;
  mret (if endswith (ustr "/chat/completions") base then base else base ++ ustr "/chat/completions").

Definition completion_request (settings : ModelSettings) (messages tools : list pyobj) : pyobj :=
  dict ([("model", PStr (bedrock_model settings)); ("messages", PList messages); ("stream", PBool false);
         ("max_tokens", PInt (bedrock_max_tokens settings)); ("temperature", PFloat (bedrock_temperature settings));
         ("reasoning_effort", PStr (bedrock_reasoning_effort settings)); ("logprobs", PBool true);
         ("top_logprobs", PInt 5); ("include_reasoning", PBool true)]%string
        ++ if bool_decide (tools = []) then [] else [("tools", PList tools)]%string).

(** The exceptions of a malformed reply. *)
Definition malformed (c : exn_class) : bool :=
  is_value_error c || bool_decide (c = KeyError) || bool_decide (c = IndexError) || bool_decide (c = TypeError).

Section client.
Context `{!Model, !FloatRepr}.
Context (settings : ModelSettings).

Definition backoff (attempt : Z) (remaining : float) : float := fmin (float_of_int (2 ^ attempt)) (fmax f0 remaining).

(** The [try] of one attempt; [None]: it is to be repeated. *)
Definition one_attempt (request_body : bytes) (attempt : Z) (remaining : float) : miner_m (option ModelCompletion) :=
  url ← lift (completion_url settings);
  response ← send url (bedrock_api_key settings) request_body remaining;
  let status := ch_status response in
  if ((status =? 429) || (500 <=? status)) && (attempt <? bedrock_max_retries settings) then
    sleep (backoff attempt remaining);; mret None
  else if negb ((200 <=? status) && (status <=? 299)) then fails (HttpStatus status)
  else completion ← lift (parse_completion request_body (ch_body response)); mret (Some completion).

Fixpoint complete_loop (request_body : bytes) (deadline : float) (attempts : list Z) : miner_m ModelCompletion :=
  match attempts with
  | [] => fails (Failed (Exn RuntimeError (ustr "Bedrock request failed")))
  | attempt :: attempts' =>
      now ← clock;
      let remaining := fsub deadline now in
      if fleb remaining f0 then fails (TimedOut (ustr "Bedrock request deadline exceeded"))
      else
        r ← attempted (one_attempt request_body attempt remaining);
        match r with
        | Got (Some completion) => mret completion
        | Got None => complete_loop request_body deadline attempts'
        | Fails (HttpTimeout as f) | Fails (HttpTransport as f) =>
            if bedrock_max_retries settings <=? attempt then fails f
            else
              now ← clock;
              sleep (backoff attempt (fsub deadline now));;
              complete_loop request_body deadline attempts'
        | Fails (Failed e) =>
            if malformed (exn_cls e) then fails (Failed (Exn RuntimeError (ustr "Bedrock returned an invalid response")))
            else fails (Failed e)
        | Fails f => fails f
        end
  end.

(** [ensure_ascii=False, separators=(",", ":")] *)
Definition chat_options : DumpOptions := keep_unicode (compact default_options).

Definition complete (messages tools : list pyobj) (timeout_s : float) : miner_m ModelCompletion :=
  lift (raise_if (bool_decide (bedrock_api_key settings = [])) RuntimeError "BEDROCK_API_KEY is not configured");;
  text ← lift (dumps chat_options (completion_request settings messages tools));
  request_body ← lift (utf8_encode text);
  now ← clock;
  let deadline := fadd now (fmin timeout_s (bedrock_request_timeout_s settings)) in
  complete_loop request_body deadline (map Z.of_nat (seq 0 (Z.to_nat (bedrock_max_retries settings + 1)))).
End client.

(** ** The monad *)

Section monad_lemmas.
Context `{MO : !Model, FR : !FloatRepr}.

Lemma bind_Got {A B} (m : miner_m A) (f : A → miner_m B) (w w' : world) (b : B) :
  (m ≫= f) w = (Got b, w') ↔ ∃ a w1, m w = (Got a, w1) ∧ f a w1 = (Got b, w').
Proof.
  unfold mbind, miner_bind. destruct (m w) as [[a|e] w1]; split; [naive_solver| |done|naive_solver].
  intros (a' & w2 & [= <- <-] & Hf). exact Hf.
Qed.

Lemma lift_Got {A} (m : result A) (w w' : world) (a : A) : lift m w = (Got a, w') ↔ m = Ok a ∧ w' = w.
Proof. unfold lift. destruct m; naive_solver. Qed.

Lemma clock_Got (w w' : world) (t : float) : clock w = (Got t, w') ↔ monotonic w = (t, w').
Proof. unfold clock. destruct (monotonic w). naive_solver. Qed.

Lemma ret_Got {A} (a b : A) (w w' : world) : (mret a : miner_m A) w = (Got b, w') ↔ a = b ∧ w = w'.
Proof. unfold mret, miner_ret. naive_solver. Qed.

Lemma attempted_Got {A} (m : miner_m A) (w w' : world) (r : outcome A) :
  attempted m w = (Got r, w') → m w = (r, w').
Proof. unfold attempted. destruct (m w). naive_solver. Qed.

(** What a computation costs, when only [send] costs anything. *)
Section cost.
Context (cost : world → Z).

Definition costs : Prop :=
  (∀ u k b t w, cost (send u k b t w).2 <= cost w + 1) ∧ (∀ w, cost (monotonic w).2 <= cost w) ∧
  (∀ s w, cost (pause s w) <= cost w) ∧ ∀ g p t w, cost (git_apply g p t w).2 <= cost w.

Definition spends {A} (n : Z) (m : miner_m A) : Prop := ∀ w, cost (m w).2 <= cost w + n.

Lemma spends_ret {A} (a : A) : spends 0 (mret a).
Proof. intros w. unfold mret, miner_ret. cbn [snd]. lia. Qed.

Lemma spends_fails {A} (f : failure) : spends 0 (fails f : miner_m A).
Proof. intros w. unfold fails. cbn [snd]. lia. Qed.

Lemma spends_lift {A} (m : result A) : spends 0 (lift m).
Proof. intros w. unfold lift. cbn [snd]. lia. Qed.

Lemma spends_more {A} (n k : Z) (m : miner_m A) : spends n m → n <= k → spends k m.
Proof. intros Hm Hk w. specialize (Hm w). lia. Qed.

Lemma spends_attempted {A} (n : Z) (m : miner_m A) : spends n m → spends n (attempted m).
Proof. intros Hm w. specialize (Hm w). unfold attempted. by destruct (m w). Qed.

Lemma spends_bind {A B} (n k : Z) (m : miner_m A) (f : A → miner_m B) :
  0 <= k → spends n m → (∀ a, spends k (f a)) → spends (n + k) (m ≫= f).
Proof.
  intros Hk Hm Hf w. unfold mbind, miner_bind. specialize (Hm w). destruct (m w) as [[a|e] w1]; cbn [snd] in *; [|lia].
  specialize (Hf a w1). lia.
Qed.

Lemma spends_free {A B} (k : Z) (m : miner_m A) (f : A → miner_m B) :
  0 <= k → spends 0 m → (∀ a, spends k (f a)) → spends k (m ≫= f).
Proof. intros. by apply (spends_bind 0 k). Qed.

Context (Hcost : costs).

Lemma spends_clock : spends 0 clock.
Proof. intros w. unfold clock. pose proof (proj1 (proj2 Hcost) w). destruct (monotonic w). cbn [snd] in *. lia. Qed.

Lemma spends_sleep (s : float) : spends 0 (sleep s).
Proof. intros w. cbn [sleep snd]. pose proof (proj1 (proj2 (proj2 Hcost)) s w). lia. Qed.

Lemma spends_complete (settings : ModelSettings) (messages tools : list pyobj) (timeout_s : float) :
  0 <= bedrock_max_retries settings →
  spends (bedrock_max_retries settings + 1) (complete settings messages tools timeout_s).
Proof.
  intros Hr. unfold complete. apply spends_free; [lia|apply spends_lift|intros _].
  apply spends_free; [lia|apply spends_lift|intros text]. apply spends_free; [lia|apply spends_lift|intros body].
  apply spends_free; [lia|apply spends_clock|intros now]. generalize (fadd now (fmin timeout_s (bedrock_request_timeout_s settings))).
  intros deadline. set (attempts := map Z.of_nat _).
  assert (Hl : zlen attempts = bedrock_max_retries settings + 1).
  { unfold attempts, zlen. rewrite length_map, length_seq. lia. }
  rewrite <-Hl. clearbody attempts. clear Hl. induction attempts as [|a attempts IH]; cbn [complete_loop].
  { apply spends_fails. }
  replace (zlen (a :: attempts)) with (1 + zlen attempts) by (unfold zlen; cbn [length]; lia).
  pose proof (zlen_nonneg attempts) as Hz.
  apply spends_free; [lia|apply spends_clock|intros t]. destruct (fleb _ f0).
  { eapply spends_more; [apply spends_fails|lia]. }
  apply spends_bind; [lia| |].
  - apply spends_attempted. unfold one_attempt. apply spends_free; [lia|apply spends_lift|intros url].
    apply (spends_bind 1 0); [lia|intros w; apply (proj1 Hcost)|]. intros response.
    destruct (_ && _); [apply spends_free; [lia|apply spends_sleep|intros _; apply spends_ret]|].
    destruct (negb _); [apply spends_fails|]. apply spends_free; [lia|apply spends_lift|intros c; apply spends_ret].
  - assert (Hf : ∀ f, spends (zlen attempts) (fails f : miner_m ModelCompletion)).
    { intros f. eapply spends_more; [apply spends_fails|lia]. }
    assert (Hagain : spends (zlen attempts)
      (now ← clock; sleep (backoff a (fsub deadline now));; complete_loop settings body deadline attempts)).
    { apply spends_free; [lia|apply spends_clock|intros u].
      apply spends_free; [lia|apply spends_sleep|intros _]. exact IH. }
    intros [[c|]|[s| | |s|e]]; [eapply spends_more; [apply spends_ret|lia]|exact IH|apply Hf| | |apply Hf|].
    + destruct (_ <=? a); [apply Hf|exact Hagain].
    + destruct (_ <=? a); [apply Hf|exact Hagain].
    + destruct (malformed _); apply Hf.
Qed.
End cost.
End monad_lemmas.

(** ** What a completion says *)

(** What was checked of a token: its log probability is a finite number, it has five
    alternatives, the bytes of each are encoded and its log probability is finite or absent. *)
Definition token_shaped (t : GeneratedToken) : Prop :=
  py_isfinite (gt_logprob t) = true ∧ zlen (gt_alternatives t) = 5 ∧
  Forall (λ a, (∃ b, ta_bytes a = b64encode b) ∧ finite_or_null (ta_logprob a) = true) (gt_alternatives t).

(** The tokens of a completion were checked, and spell the bytes it generated. *)
Definition spelled (c : ModelCompletion) : Prop :=
  Forall token_shaped (mc_tokens c) ∧
  ∃ chosen, Forall2 (λ t b, gt_bytes t = b64encode b) (mc_tokens c) chosen ∧ mc_generated_bytes c = concat chosen.

Lemma finite_logprob_Ok (v : pyobj) (message : string) (p : Logprob) :
  finite_logprob v message = Ok p → py_isfinite p = true.
Proof.
  unfold finite_logprob. destruct v; try done; rewrite guard_Ok, negb_false_iff; by intros [H [= <-]].
Qed.

Lemma token_alternative_Ok (v : pyobj) (a : TokenAlternative) :
  token_alternative v = Ok a → (∃ b, ta_bytes a = b64encode b) ∧ finite_or_null (ta_logprob a) = true.
Proof.
  unfold token_alternative. intros (id & _ & (lp & _ & (i & _ & (p & Hp & (bs & _ & [= <-])%bind_Ok)%bind_Ok)%bind_Ok)%bind_Ok)%bind_Ok.
  cbn [ta_bytes ta_logprob]. split; [by exists bs|]. destruct (is_none lp); [by injection Hp as <-|].
  apply fmap_Ok in Hp as (q & Hq & <-) || apply fmap_Ok in Hp as (q & Hq & ->). by apply finite_logprob_Ok in Hq.
Qed.

Lemma token_record_Ok (v : pyobj) (bs : bytes) (t : GeneratedToken) :
  token_record v = Ok (bs, t) → gt_bytes t = b64encode bs ∧ token_shaped t.
Proof.
  unfold token_record. intros (bs' & _ & (tid & _ & (lp & _ & (id & _ & (p & Hp & (alts & _ & (items & Hi & H)%bind_Ok)%bind_Ok)%bind_Ok)%bind_Ok)%bind_Ok)%bind_Ok)%bind_Ok.
  apply bind_Ok in H as (found & Hf & [= <- <-]). split; [done|]. unfold token_shaped. cbn [gt_logprob gt_alternatives].
  apply finite_logprob_Ok in Hp. destruct alts; try done. apply guard_Ok in Hi as [Hi%negb_false_iff%Z.eqb_eq [= <-]].
  apply mapM_Ok in Hf. split_and!; [done| |].
  - unfold zlen in *. by rewrite <-(Forall2_length _ _ _ Hf).
  - clear -Hf. induction Hf as [|x a xs l Ha _ IH]; [constructor|]. constructor; [by apply token_alternative_Ok in Ha|done].
Qed.

Lemma read_completion_spelled (data : pyobj) (request_body response_body : bytes) (c : ModelCompletion) :
  read_completion data request_body response_body = Ok c →
  spelled c ∧ mc_request_body c = request_body ∧ mc_response_body c = response_body.
Proof.
  unfold read_completion. intros H.
  do 13 (apply bind_Ok in H as (? & _ & H)). apply bind_Ok in H as (tokens & Ht & [= <-]).
  split; [|done]. unfold spelled. cbn [mc_tokens mc_generated_bytes].
  apply mapM_Ok in Ht. assert (Hall : Forall (λ bt, gt_bytes bt.2 = b64encode bt.1 ∧ token_shaped bt.2) tokens).
  { clear -Ht. induction Ht as [|v [bs t] vs ts Hv _ IH]; constructor; [by eapply token_record_Ok|exact IH]. }
  split; [clear -Hall; induction Hall as [|[bs t] ts [_ Hs] _ IH]; constructor; [exact Hs|exact IH]|].
  exists (map fst tokens). split; [|done].
  clear -Hall. induction Hall as [|[bs t] ts [Hb _] _ IH]; constructor; [exact Hb|exact IH].
Qed.

(** A completion of a conversation: it keeps the very bytes of the request and of the
    reply it was read from, and its tokens spell what was generated. *)
Definition completes `{!FloatRepr} (settings : ModelSettings) (messages tools : list pyobj) (c : ModelCompletion) : Prop :=
  (∃ text, dumps chat_options (completion_request settings messages tools) = Ok text ∧
           utf8_encode text = Ok (mc_request_body c)) ∧
  (∃ data, loads_bytes (mc_response_body c) = Ok data ∧
           read_completion data (mc_request_body c) (mc_response_body c) = Ok c) ∧
  spelled c.

Section completion.
Context `{MO : !Model, FR : !FloatRepr}.

Lemma parse_completion_read (request_body response_body : bytes) (c : ModelCompletion) :
  parse_completion request_body response_body = Ok c →
  mc_request_body c = request_body ∧ mc_response_body c = response_body ∧ spelled c ∧
  ∃ data, loads_bytes response_body = Ok data ∧ read_completion data request_body response_body = Ok c.
Proof.
  unfold parse_completion. intros (data & Hd & Hc)%bind_Ok.
  pose proof (read_completion_spelled _ _ _ _ Hc) as (Hs & H1 & H2). split_and!; [done..|by exists data].
Qed.

Lemma one_attempt_parsed (settings : ModelSettings) (request_body : bytes) (attempt : Z) (remaining : float)
    (c : ModelCompletion) (w w' : world) :
  one_attempt settings request_body attempt remaining w = (Got (Some c), w') →
  ∃ response, parse_completion request_body response = Ok c.
Proof.
  unfold one_attempt. intros (url & w1 & _ & (response & w2 & _ & H)%bind_Got)%bind_Got.
  destruct (_ && _); [by apply bind_Got in H as (u & w3 & _ & [[=] _]%ret_Got)|]. destruct (negb _); [done|].
  apply bind_Got in H as (c' & w3 & [Hp _]%lift_Got & [[= ->] _]%ret_Got). by eexists.
Qed.

Lemma complete_loop_parsed (settings : ModelSettings) (request_body : bytes) (deadline : float) (attempts : list Z)
    (c : ModelCompletion) (w w' : world) :
  complete_loop settings request_body deadline attempts w = (Got c, w') →
  ∃ response, parse_completion request_body response = Ok c.
Proof.
  revert w. induction attempts as [|a attempts IH]; intros w; cbn [complete_loop]; [done|].
  intros (t & w1 & _ & H)%bind_Got. destruct (fleb _ f0); [done|].
  apply bind_Got in H as (r & w2 & Hr%attempted_Got & H).
  assert (Hagain : ∀ w3,
    (now ← clock; sleep (backoff a (fsub deadline now));; complete_loop settings request_body deadline attempts) w3
    = (Got c, w') → ∃ response, parse_completion request_body response = Ok c).
  { intros w3 (u & w4 & _ & (u' & w5 & _ & Hl)%bind_Got)%bind_Got. by eapply IH. }
  destruct r as [[c'|]|[s| | |s|e]]; [|by eapply IH|done| | |done|].
  - apply ret_Got in H as [-> _]. eapply one_attempt_parsed. exact Hr.
  - destruct (_ <=? a); [done|by eapply Hagain].
  - destruct (_ <=? a); [done|by eapply Hagain].
  - by destruct (malformed _).
Qed.

Lemma complete_completes (settings : ModelSettings) (messages tools : list pyobj) (timeout_s : float)
    (c : ModelCompletion) (w w' : world) :
  complete settings messages tools timeout_s w = (Got c, w') → completes settings messages tools c.
Proof.
  unfold complete. intros (u & w1 & _ & (text & w2 & [Ht _]%lift_Got & H)%bind_Got)%bind_Got.
  apply bind_Got in H as (body & w3 & [Hb _]%lift_Got & (now & w4 & _ & H)%bind_Got).
  apply complete_loop_parsed in H as (response & Hp).
  apply parse_completion_read in Hp as (<- & <- & Hs & Hd). split_and!; [by exists text|exact Hd|exact Hs].
Qed.
End completion.
