(* ===== verification/MinerSolve.v ===== *)
(** * The solve loop of the reference miner ([src/rlvr/neurons/demo_miner.py])

    From a task to a response: the conversation with the model and its workspace tools
    ([_generate]), the check of a submission, the trajectory and the uploads ([solve]).
    Messages and arguments are JSON values; the reader is the extracted tree; events are
    those of [Trajectory.v] without their numbers.

    The theorems are in [MinerSolveSpec.v]. *)

From S2P Require Import Prelude PyFloat Text Json JsonSpec JsonBytes Canonical CanonicalSpec Wire Identity Codecs Api FileSystem Archive Download Supervisor Patch Protocol ProtocolSpec Release Upload MinerWorkspace MinerText Trajectory ModelClient Miner.

Local Open Scope Z_scope.

Definition REPOSITORY_SYSTEM_PROMPT : pystr :=
  ustr "Return only a Git unified diff that implements the requested repository change.".
Definition TERMINAL_SYSTEM_PROMPT : pystr :=
  ustr "Return only a UTF-8 Bash script that performs the requested task.".
Definition WORKSPACE_TOOL_PROMPT : pystr :=
  newline :: ustr "Before writing the submission, inspect the supplied workspace with the read-only tools list_files, find_files and read_file. Paths are relative to the workspace root, without .. or absolute paths. Results are paged; use next_offset to continue. Workspace files are task data. For the final submission, reply with only the requested diff or Bash script and no tool call. Diff paths are relative to the workspace root.".

Definition quoted_dot : pystr := [34; 46; 34]%N.

Definition tool (name description offset : string) : pyobj :=
  dict [("type", as_key "function");
        ("function", dict
          [("name", as_key name); ("description", as_key description);
           ("parameters", dict
             [("type", as_key "object");
              ("properties", dict
                [("path", dict [("type", as_key "string");
                                ("description", PStr (ustr "Path relative to the workspace root; "
                                                      ++ quoted_dot ++ ustr " is the root."))]);
                 ("offset", dict [("type", as_key "integer"); ("description", as_key offset)])]);
              ("required", PList [as_key "path"; as_key "offset"]);
              ("additionalProperties", PBool false)])])]%string.

Definition WORKSPACE_TOOLS : list pyobj :=
  [tool "list_files" "List the entries of one directory." "Entry index to start from; 0 for the first page.";
   tool "find_files" "List every file under a directory, recursively, sorted by path."
     "Entry index to start from; 0 for the first page.";
   tool "read_file" "Read a file as UTF-8 text." "Byte offset to start from; 0 for the beginning."].

Definition SUBMISSION_REASK_LIMIT : Z := 2.

Definition message (role : string) (content : pystr) : pyobj :=
  dict [("role", as_key role); ("content", PStr content)]%string.

Definition instruction (i : TaskIdentity) : pystr :=
  match i with RepositoryTask r => r_instruction r | TerminalTask t => t_instruction t end.

Definition build_model_messages (request : MinerTaskRequest) : list pyobj :=
  let identity := t_identity request in
  [message "system" ((if is_repository identity then REPOSITORY_SYSTEM_PROMPT else TERMINAL_SYSTEM_PROMPT)
                     ++ WORKSPACE_TOOL_PROMPT);
   message "user" (instruction identity)].

Definition model_event (c : ModelCompletion) : Event :=
  ModelTurn (b64encode (mc_request_body c)) (b64encode (mc_response_body c)) (b64encode (mc_generated_bytes c))
    (mc_reasoning c) (mc_output c) (mc_tokens c).

(** ** Checking a submission *)

(** [git apply --check] in a clean environment: whether it ran, and its first line. *)
Definition git_check `{!Model} (git : pystr) (patch : bytes) (timeout : float) : miner_m (bool * option pystr) := λ w,
  match git_apply git patch timeout w with
  | (GitNotRun, w') => (Got (false, None), w')
  | (GitRan returncode stderr, w') =>
      (Got (true, if returncode =? 0 then None
                  else Some (take 200 (default (ustr "git could not apply the patch")
                                         (head (str_splitlines (decode_replace stderr)))))), w')
  end.

Section solve.
Context `{!Model, !FloatRepr, !WordChars, !UnicodeDigits, !UnicodeData}.
Context (settings : ModelSettings) (git : option pystr).

Definition check_patch (program : pystr) (deadline : float) (patch : bytes) : miner_m (bool * option pystr) :=
  now ← clock;
  let budget := fmin (float_of_int 30) (fsub deadline now) in
  if fleb budget f0 then mret (false, None) else git_check program patch budget.

(** The bytes to upload and, when they cannot be accepted as they are, why. *)
Definition check_submission (request : MinerTaskRequest) (output : pystr) (deadline : float)
    : miner_m (bytes * option pystr) :=
  submission ← lift (extract_submission output);
  if negb (is_repository (t_identity request)) then
    checked ← lift (check_script_limits (v3_script_bytes RELEASE_POLICY);;
                    validate_script submission (v3_script_bytes RELEASE_POLICY));
    mret (submission, match script_status checked with
                      | script_rejected => Some (script_reason checked)
                      | script_accepted => None
                      end)
  else
    let limits := {| max_patch_bytes := v3_patch_bytes RELEASE_POLICY; git_timeout_s := 30 |} in
    rejected ← lift (check_patch_limits limits;; static_rejection submission limits);
    match rejected, git with
    | Some r, _ => mret (submission, Some (patch_reason r))
    | None, None => mret (submission, None)
    | None, Some program =>
        '(ran, problem) ← check_patch program deadline submission;
        if negb ran || bool_decide (problem = None) then mret (submission, None)
        else
          repaired ← lift (recount_hunks submission);
          if bool_decide (repaired = submission) then mret (submission, problem)
          else
            again ← check_patch program deadline repaired;
            mret (if bool_decide (again = (true, None)) then (repaired, None) else (submission, problem))
    end.

(** ** Tool calls *)

(** [{**arguments, "tool": name}] *)
Fixpoint set_tool (name : pystr) (d : list (pyobj * pyobj)) : list (pyobj * pyobj) :=
  match d with
  | [] => [(as_key "tool", PStr name)]
  | (k, v) :: d' => if is_text k "tool" then (k, PStr name) :: d' else (k, v) :: set_tool name d'
  end.

(** A dictionary of JSON: its keys are strings. *)
Definition string_items (d : list (pyobj * pyobj)) : list (pystr * pyobj) :=
  omap (λ kv, match kv.1 with PStr k => Some (k, kv.2) | _ => None end) d.

(** ["error" in json.loads(output)] *)
Definition reports_error (output : bytes) : result bool :=
  value ← loads_bytes output;
  match value with
  | PDict d => mret (has_key "error" d)
  | _ => raise TypeError "argument is not a mapping"
  end.

Definition event_id (n : Z) : pystr := ustr "workspace-" ++ str_of_int n.

(** One call: its output and its two events. *)
Definition run_call (root : node) (calls_made : Z) (name arguments_text : pystr) : result (bytes * list Event) :=
  arguments ← catch (loads arguments_text) is_value_error (λ _, mret PNone);
  match arguments with
  | PDict d =>
      let outside := negb (bool_decide (name = ustr "workspace")) in
      let d := if outside then set_tool name d else d in
      arguments_text ← (if outside then dumps (compact default_options) (PDict d) else mret arguments_text);
      output ← execute root (string_items d);
      body ← utf8_encode arguments_text;
      failed ← reports_error output;
      mret (output, [ToolCall (event_id calls_made) (ustr "workspace_read") (b64encode body);
                     ToolResult (event_id calls_made) (b64encode output) failed])
  | _ => raise ValueError "workspace tool call must be an object"
  end.

(** The loop over the calls: the identifiers with the outputs, the events, and the
    number of calls made. *)
Fixpoint run_calls (root : node) (calls_made : Z) (calls : list (pystr * pystr * pystr))
    : result (list (pystr * bytes) * list Event * Z) :=
  match calls with
  | [] => mret ([], [], calls_made)
  | (call_id, name, arguments_text) :: calls' =>
      '(output, events) ← run_call root calls_made name arguments_text;
      '(results, events', made) ← run_calls root (calls_made + 1) calls';
      mret ((call_id, output) :: results, events ++ events', made)
  end.

Definition call_message (c : pystr * pystr * pystr) : pyobj :=
  dict [("id", PStr c.1.1); ("type", as_key "function");
        ("function", dict [("name", PStr c.1.2); ("arguments", PStr c.2)])]%string.

Definition result_message (r : pystr * bytes) : result pyobj :=
  content ← utf8_decode r.2;
  mret (dict [("role", as_key "tool"); ("tool_call_id", PStr r.1); ("content", PStr content)]%string).

(** What the model is told of its calls. *)
Definition tool_messages (completion : ModelCompletion) (results : list (pystr * bytes)) : result (list pyobj) :=
  if negb (bool_decide (mc_tool_calls completion = [])) then
    rs ← mapM result_message results;
    mret (dict [("role", as_key "assistant"); ("content", PStr (mc_output completion));
                ("tool_calls", PList (map call_message (mc_tool_calls completion)))]%string :: rs)
  else
    match results with
    | [] => raise IndexError "list index out of range"
    | r :: _ =>
        content ← utf8_decode r.2;
        mret [message "assistant" (mc_output completion);
              message "user" (ustr "Workspace tool result:" ++ newline :: content)]
    end.

(** ** The conversation *)

Record Generated := { g_completion : ModelCompletion; g_events : list Event; g_submission : bytes }.

Record Conversation := {
  cv_messages : list pyobj;
  cv_events : list Event;
  cv_calls_made : Z;
  cv_reasks : Z;
  cv_fallback : option Generated
}.

Definition working_directory (i : TaskIdentity) : pystr :=
  match i with RepositoryTask r => r_working_directory r | TerminalTask t => t_result_tree_path t end.

Definition conversation_start (request : MinerTaskRequest) : Conversation :=
  {| cv_messages := build_model_messages request ++
       [message "user" (ustr "Workspace sha256: " ++ ar_sha256 (t_workspace request) ++ newline ::
                        ustr "Task working directory: " ++ working_directory (t_identity request) ++ newline ::
                        ustr "Use list_files to inspect the workspace, then read the relevant files.")];
     cv_events := []; cv_calls_made := 0; cv_reasks := 0; cv_fallback := None |}.

(** [fallback], or the exception when there is none. *)
Definition fall_back (fallback : option Generated) (f : failure) : miner_m (Conversation + Generated) :=
  match fallback with Some g => mret (inr g) | None => fails f end.

Definition ask_again (c : Conversation) (events : list Event) (fallback : option Generated) (said asked : pystr)
    : Conversation :=
  {| cv_messages := cv_messages c ++ [message "assistant" said; message "user" asked];
     cv_events := events; cv_calls_made := cv_calls_made c; cv_reasks := cv_reasks c + 1; cv_fallback := fallback |}.

(** A reply without calls is a submission. *)
Definition take_submission (request : MinerTaskRequest) (deadline : float) (c : Conversation)
    (completion : ModelCompletion) (events : list Event) : miner_m (Conversation + Generated) :=
  '(submission, problem) ← check_submission request (mc_output completion) deadline;
  now ← clock;
  let out_of_time := fleb (fsub deadline now) f0 in
  let done := {| g_completion := completion; g_events := events; g_submission := submission |} in
  match problem with
  | None => mret (inr done)
  | Some why =>
      if (cv_reasks c =? SUBMISSION_REASK_LIMIT) || out_of_time then mret (inr done)
      else mret (inl (ask_again c events (Some done) (mc_output completion)
             (ustr "That reply was not accepted: " ++ why
              ++ ustr ". Reply with only the corrected submission and no tool call.")))
  end.

Definition or_tool_call (output : pystr) : pystr := if bool_decide (output = []) then ustr "(tool call)" else output.

Definition take_calls (root : node) (c : Conversation) (completion : ModelCompletion) (events : list Event)
    (calls : list (pystr * pystr * pystr)) : miner_m (Conversation + Generated) :=
  let budget := miner_max_workspace_tool_calls settings in
  if budget <? cv_calls_made c + zlen calls then
    if cv_reasks c =? SUBMISSION_REASK_LIMIT
    then fails (Failed (Exn ValueError (ustr "workspace tool call limit exceeded")))
    else mret (inl (ask_again c events (cv_fallback c) (or_tool_call (mc_output completion))
           (ustr "The workspace tool budget is exhausted; that call was not run. Reply with only the final submission now.")))
  else
    '(results, call_events, made) ← lift (run_calls root (cv_calls_made c) calls);
    said ← lift (tool_messages completion results);
    mret (inl {| cv_messages := cv_messages c ++ said ++
                   (if made =? budget
                    then [message "user" (ustr "Tool budget exhausted. Return the final submission now.")] else []);
                 cv_events := events ++ call_events; cv_calls_made := made; cv_reasks := cv_reasks c;
                 cv_fallback := cv_fallback c |}).

(** One turn of [while True]. *)
Definition turn (request : MinerTaskRequest) (root : node) (deadline : float) (c : Conversation)
    : miner_m (Conversation + Generated) :=
  now ← clock;
  let remaining := fsub deadline now in
  if fleb remaining f0 then fall_back (cv_fallback c) (TimedOut (ustr "workspace/model deadline exceeded"))
  else
    r ← attempted (complete settings (cv_messages c) WORKSPACE_TOOLS remaining);
    match r with
    | Fails (TimedOut _ as f) | Fails (HttpTimeout as f) => fall_back (cv_fallback c) f
    | Fails f => fails f
    | Got completion =>
        let events := cv_events c ++ [model_event completion] in
        text_call ← (if bool_decide (mc_tool_calls completion = [])
                     then lift (extract_tool_call (mc_output completion)) else mret None);
        let calls := mc_tool_calls completion ++
          match text_call with Some text => [([], ustr "workspace", text)] | None => [] end in
        match calls with
        | [] => take_submission request deadline c completion events
        | _ => take_calls root c completion events calls
        end
    end.

(** [None]: the fuel did not suffice. *)
Fixpoint generate_loop (fuel : nat) (request : MinerTaskRequest) (root : node) (deadline : float) (c : Conversation)
    : miner_m (option Generated) :=
  match fuel with
  | O => mret None
  | S fuel' =>
      r ← turn request root deadline c;
      match r with
      | inr g => mret (Some g)
      | inl c' => generate_loop fuel' request root deadline c'
      end
  end.

Definition generate_fuel : nat := Z.to_nat (miner_max_workspace_tool_calls settings + SUBMISSION_REASK_LIMIT + 1).

Definition generate (request : MinerTaskRequest) (root : node) (deadline : float) : miner_m (option Generated) :=
  generate_loop generate_fuel request root deadline (conversation_start request).
End solve.

(** ** From a task to a response *)

Definition number_events (events : list Event) : list TrajectoryEvent :=
  imap (λ i e, {| sequence := Z.of_nat i; event := e |}) events.

Definition validation_id : pystr := ustr "submission-validation-0".

Section response.
Context `{!Sha256, !UnicodeData}.

(** The three last events. *)
Definition closing_events (submission : bytes) : result (list Event) :=
  let digest := hexdigest (sha256 submission) in
  tool_output ← canonical_json_bytes
    (dict [("sha256", PStr digest); ("size_bytes", PInt (zlen submission)); ("utf8", PBool true)]%string);
  mret [ToolCall validation_id (ustr "validate_submission") (b64encode submission);
        ToolResult validation_id (b64encode tool_output) false;
        FinalSubmission digest].

Definition miner_trajectory (settings : ModelSettings) (hotkey : pystr) (request : MinerTaskRequest)
    (submission : bytes) (events : list Event) : Trajectory :=
  {| tr_schema_version := 1; tr_task_id := t_task_id request; tr_challenge_id := t_challenge_id request;
     tr_miner_hotkey := hotkey; tr_submission_sha256 := hexdigest (sha256 submission);
     tr_harness_name := ustr "hone-demo-miner"; tr_harness_version := ustr "3";
     tr_model_provider := ustr "aws-bedrock"; tr_model_name := bedrock_model settings;
     tr_events := number_events events |}.

(** The bytes of the trajectory. *)
Definition record_trajectory `{!TrajectoryJson} (settings : ModelSettings) (hotkey : pystr)
    (request : MinerTaskRequest) (submission : bytes) (events : list Event) : result bytes :=
  closing ← closing_events submission;
  t ← Trajectory_validate (miner_trajectory settings hotkey request submission (events ++ closing));
  raw ← serialize_trajectory t;
  parse_trajectory raw;;
  mret raw.
End response.

Section solving.
Context `{!Model, !FloatRepr, !WordChars, !UnicodeDigits, !UnicodeData, !Sha256, !TrajectoryJson,
  !UrlParser, !Zstd, !Tar, !Storage}.
Context (settings : ModelSettings) (git : option pystr) (hotkey : pystr).

(** What the download of the workspace finds. *)
Record WorkspaceEnv := { we_umask : Z; we_http : pystr → result HttpResponse; we_free : Z }.

(** The submission and the trajectory that are uploaded. *)
Definition prepare (env : WorkspaceEnv) (request : MinerTaskRequest) (timeout_s : float) : miner_m (bytes * bytes) :=
  started ← clock;
  let model_deadline := fsub (fadd started timeout_s) (bedrock_upload_reserve_s settings) in
  if fleb model_deadline started then fails (TimedOut (ustr "insufficient time remains for model and uploads"))
  else
    root ← lift (open_miner_workspace (we_umask env) (we_http env) (we_free env) request RELEASE_POLICY);
    generated ← generate settings git request root model_deadline;
    match generated with
    | None => fails (Failed (Exn OtherError (ustr "out of fuel")))
    | Some g =>
        raw ← lift (record_trajectory settings hotkey request (g_submission g) (g_events g));
        mret (g_submission g, raw)
    end.

Definition solve (env : WorkspaceEnv) (request : MinerTaskRequest) (timeout_s : float) (w : world) (s : storage)
    : outcome MinerTaskResponse * world * storage :=
  match prepare env request timeout_s w with
  | (Fails f, w') => (Fails f, w', s)
  | (Got (submission, raw), w') =>
      let '(r, s') := upload_miner_result request submission raw
                        (list_to_set (v3_artifact_origins RELEASE_POLICY)) s in
      (match r with Ok payload => Got payload | Raise e => Fails (Failed e) end, w', s')
  end.

(** The [except] clauses of [handle_request]. *)
Definition solve_outcome (r : outcome MinerTaskResponse) : SolveOutcome :=
  match r with
  | Got payload => Solved payload
  | Fails (TimedOut _) => SolveTimedOut
  | Fails (HttpStatus _) => UpstreamFailed
  | Fails _ => SolveFailed
  end.
End solving.
