(* ===== verification/MinerSolveSpec.v ===== *)
(** * What the solve loop guarantees

    [generate_ends]: the conversation with the model ends, after a bounded number of
    requests.  [trajectory_builds]: which trajectories it leaves are accepted, by the sizes
    and the token identifiers that the model decides; the rest holds by construction.  [solve_answers]: what the miner answers fits the task. *)

From S2P Require Import Prelude PyFloat Text Json JsonSpec JsonBytes Canonical CanonicalSpec Wire Identity Codecs Api ApiSpec FileSystem Archive ArchiveSpec Download Supervisor Patch EvaluateRound EvaluateRoundSpec Protocol ProtocolSpec Release Upload MinerWorkspace MinerText Trajectory ModelClient Miner MinerSolve.

Local Open Scope Z_scope.

(** ** The events of a conversation *)

(** [history n t es]: the events of [t] model turns and [n] tool calls, in any order;
    every call is numbered by the calls before it and directly followed by its result. *)
Inductive history : Z → Z → list Event → Prop :=
  | history_nil : history 0 0 []
  | history_turn n t es c : history n t es → spelled c → history n (t + 1) (es ++ [model_event c])
  | history_call n t es (body out : bytes) (err : bool) :
      history n t es →
      history (n + 1) t
        (es ++ [ToolCall (event_id n) (ustr "workspace_read") (b64encode body);
                ToolResult (event_id n) (b64encode out) err]).

Lemma history_nonneg (n t : Z) (es : list Event) : history n t es → 0 <= n ∧ 0 <= t.
Proof. induction 1; lia. Qed.

Section runs.
Context `{MO : !Model, FR : !FloatRepr, WC : !WordChars, UG : !UnicodeDigits, UD : !UnicodeData}.
Context (settings : ModelSettings) (git : option pystr).
Implicit Types (request : MinerTaskRequest) (root : node) (deadline : float) (c : Conversation) (w : world).

Abbreviation budget := (miner_max_workspace_tool_calls settings).

Lemma run_calls_history root (n made t : Z) (es : list Event) (calls : list (pystr * pystr * pystr))
    (results : list (pystr * bytes)) (events : list Event) :
  run_calls root n calls = Ok (results, events, made) → history n t es →
  history made t (es ++ events) ∧ made = n + zlen calls ∧ zlen results = zlen calls.
Proof.
  revert n es results events. induction calls as [|[[call_id name] text] calls IH]; intros n es results events; cbn [run_calls].
  { intros [= <- <- <-] Hh. rewrite app_nil_r. split_and!; [done|unfold zlen; simpl; lia|done]. }
  intros ([out evs] & Hc & ([[rs evs'] m] & Hcs & [= <- <- <-])%bind_Ok)%bind_Ok Hh.
  assert (He : ∃ body err, evs = [ToolCall (event_id n) (ustr "workspace_read") (b64encode body);
                                 ToolResult (event_id n) (b64encode out) err]).
  { unfold run_call in Hc. apply bind_Ok in Hc as (arguments & _ & Hc). destruct arguments; try done.
    apply bind_Ok in Hc as (text' & _ & (o & _ & (body & _ & (err & _ & [= <- <-])%bind_Ok)%bind_Ok)%bind_Ok). by exists body, err. }
  destruct He as (body & err & ->).
  destruct (IH (n + 1) (es ++ [ToolCall (event_id n) (ustr "workspace_read") (b64encode body);
                               ToolResult (event_id n) (b64encode out) err]) rs evs' Hcs) as (Hh' & Hm & Hr).
  { by apply history_call. }
  rewrite <-(assoc_L (++)) in Hh'. split_and!; [exact Hh'|unfold zlen in *; cbn [length]; lia|unfold zlen in *; cbn [length]; lia].
Qed.

(** ** Progress *)

(** What a conversation that goes on keeps: the calls and the corrections are within
    their limits, and every turn so far made one of them. *)
Record conversation_ok c (turns : Z) : Prop := {
  co_calls : 0 <= cv_calls_made c <= Z.max 0 budget;
  co_reasks : 0 <= cv_reasks c <= SUBMISSION_REASK_LIMIT;
  co_turns : turns <= cv_calls_made c + cv_reasks c;
  co_history : history (cv_calls_made c) turns (cv_events c);
  co_fallback : ∀ g, cv_fallback c = Some g →
    ∃ n t, history n t (g_events g) ∧ 0 < t <= turns ∧ n <= Z.max 0 budget
}.

(** What a conversation that ended leaves. *)
Definition generated_ok (g : Generated) : Prop :=
  ∃ n t, history n t (g_events g) ∧ 0 < t <= Z.max 0 budget + SUBMISSION_REASK_LIMIT + 1 ∧ n <= Z.max 0 budget.

Lemma fall_back_ok c (turns : Z) (f : failure) w w' (r : Conversation + Generated) :
  conversation_ok c turns → fall_back (cv_fallback c) f w = (Got r, w') → ∃ g, r = inr g ∧ generated_ok g.
Proof.
  intros [Hc Hr Ht _ Hf]. unfold fall_back. destruct (cv_fallback c) as [g|]; [|done].
  intros [<- _]%ret_Got. exists g. split; [done|]. destruct (Hf g eq_refl) as (n & t & Hh & Hb & Hn).
  exists n, t. split; [done|]. lia.
Qed.

Lemma turn_ok request root deadline c (turns : Z) w w' (r : Conversation + Generated) :
  conversation_ok c turns → turn settings git request root deadline c w = (Got r, w') →
  match r with
  | inl c' => conversation_ok c' (turns + 1) ∧ cv_calls_made c + cv_reasks c < cv_calls_made c' + cv_reasks c'
  | inr g => generated_ok g
  end.
Proof.
  intros Hok. unfold turn. intros (t & w1 & _ & H)%bind_Got.
  assert (Hback : ∀ f w, fall_back (cv_fallback c) f w = (Got r, w') → match r with inl _ => False | inr g => generated_ok g end).
  { intros f w0 (g & -> & Hg)%(fall_back_ok c turns); done. }
  destruct (fleb _ f0); [apply Hback in H; by destruct r|].
  apply bind_Got in H as (o & w2 & Ho%attempted_Got & H).
  destruct o as [completion|[s| | |s|e]]; [|apply Hback in H; by destruct r|apply Hback in H; by destruct r|done..].
  apply complete_completes in Ho as (_ & _ & Hs).
  apply bind_Got in H as (text_call & w3 & _ & H). destruct Hok as [Hc Hr Ht Hh Hf].
  pose proof (history_turn _ _ _ _ Hh Hs) as Hh'.
  pose proof (history_nonneg _ _ _ Hh) as [_ Htn].
  set (events := cv_events c ++ [model_event completion]) in *.
  set (calls := mc_tool_calls completion ++ _) in H. clearbody calls events.
  assert (Hf' : ∀ g, cv_fallback c = Some g →
    ∃ n t, history n t (g_events g) ∧ 0 < t <= turns + 1 ∧ n <= Z.max 0 budget).
  { intros g Hg. destruct (Hf g Hg) as (n & u & ? & ? & ?). exists n, u. split; [done|]. lia. }
  destruct calls as [|call calls].
  - unfold take_submission in H. apply bind_Got in H as ([sub problem] & w4 & _ & (now & w5 & _ & H)%bind_Got).
    assert (Hdone : generated_ok {| g_completion := completion; g_events := events; g_submission := sub |}).
    { exists (cv_calls_made c), (turns + 1). split; [done|]. unfold SUBMISSION_REASK_LIMIT in *. lia. }
    destruct problem as [why|]; [|by apply ret_Got in H as [<- _]].
    destruct (Z.eqb_spec (cv_reasks c) SUBMISSION_REASK_LIMIT) as [|Hne]; cbn [orb] in H; [by apply ret_Got in H as [<- _]|].
    destruct (fleb _ f0); [by apply ret_Got in H as [<- _]|]. apply ret_Got in H as [<- _].
    split; [|cbn; lia]. constructor; cbn [ask_again cv_calls_made cv_reasks cv_events cv_fallback]; [done|lia|lia|done|].
    intros g [= <-]. exists (cv_calls_made c), (turns + 1). cbn [g_events]. split; [done|]. lia.
  - unfold take_calls in H. pose proof (zlen_nonneg calls) as Hz.
    assert (Hz' : zlen (call :: calls) = 1 + zlen calls) by (unfold zlen; cbn [length]; lia).
    destruct (Z.ltb_spec budget (cv_calls_made c + zlen (call :: calls))) as [Hlt|Hle].
    + destruct (Z.eqb_spec (cv_reasks c) SUBMISSION_REASK_LIMIT) as [|Hne]; [done|]. apply ret_Got in H as [<- _].
      split; [|cbn; lia]. constructor; cbn [ask_again cv_calls_made cv_reasks cv_events cv_fallback]; [done|lia|lia|done|done].
    + apply bind_Got in H as ([[rs evs] made] & w4 & [Hrun _]%lift_Got & (said & w5 & _ & H)%bind_Got).
      apply ret_Got in H as [<- _].
      destruct (run_calls_history _ _ _ _ _ _ _ _ Hrun Hh') as (Hh2 & -> & _).
      split; [|cbn; lia]. constructor; cbn [cv_calls_made cv_reasks cv_events cv_fallback]; [lia|lia|lia|done|done].
Qed.

Lemma generate_loop_ok (fuel : nat) request root deadline c (turns : Z) w w' (r : option Generated) :
  conversation_ok c turns →
  Z.max 0 budget + SUBMISSION_REASK_LIMIT - (cv_calls_made c + cv_reasks c) < Z.of_nat fuel →
  generate_loop settings git fuel request root deadline c w = (Got r, w') →
  ∃ g, r = Some g ∧ generated_ok g.
Proof.
  revert c turns w. induction fuel as [|fuel IH]; intros c turns w Hok Hf; cbn [generate_loop].
  { destruct Hok. lia. }
  intros (r' & w1 & Hturn & H)%bind_Got. apply (turn_ok _ _ _ _ _ _ _ _ Hok) in Hturn. destruct r' as [c'|g].
  - destruct Hturn as [Hok' Hlt]. eapply IH; [exact Hok'| |exact H]. lia.
  - apply ret_Got in H as [<- _]. by exists g.
Qed.

Lemma start_ok request : conversation_ok (conversation_start request) 0.
Proof.
  constructor; cbn [conversation_start cv_calls_made cv_reasks cv_events cv_fallback]; [lia|unfold SUBMISSION_REASK_LIMIT; lia|lia|constructor|done].
Qed.

Lemma generate_ok request root deadline w w' (r : option Generated) :
  0 <= budget → generate settings git request root deadline w = (Got r, w') → ∃ g, r = Some g ∧ generated_ok g.
Proof.
  intros Hb. apply generate_loop_ok with (turns := 0); [apply start_ok|]. unfold generate_fuel.
  cbn [conversation_start cv_calls_made cv_reasks]. unfold SUBMISSION_REASK_LIMIT in *. lia.
Qed.
End runs.

(** ** The requests of a conversation *)

Section requests.
Context `{MO : !Model, FR : !FloatRepr, WC : !WordChars, UG : !UnicodeDigits, UD : !UnicodeData}.
Context (settings : ModelSettings) (git : option pystr) (cost : world → Z).
Context (Hcost : costs cost) (Hretries : 0 <= bedrock_max_retries settings).

Lemma spends_check_patch (program : pystr) (deadline : float) (patch : bytes) :
  spends cost 0 (check_patch program deadline patch).
Proof.
  unfold check_patch. apply spends_free; [lia|by apply spends_clock|intros now].
  destruct (fleb _ f0); [apply spends_ret|]. intros w. unfold git_check.
  pose proof (proj2 (proj2 (proj2 Hcost)) program patch (fmin (float_of_int 30) (fsub deadline now)) w) as Hg.
  destruct (git_apply _ _ _ _) as [[|code err] w']; cbn [snd] in *; lia.
Qed.

Lemma spends_check_submission (request : MinerTaskRequest) (output : pystr) (deadline : float) :
  spends cost 0 (check_submission git request output deadline).
Proof.
  unfold check_submission. apply spends_free; [lia|apply spends_lift|intros submission].
  destruct (negb _); (apply spends_free; [lia|apply spends_lift|intros checked]); [apply spends_ret|].
  destruct checked as [r|], git as [program|]; try apply spends_ret.
  apply spends_free; [lia|apply spends_check_patch|intros [ran problem]].
  destruct (_ || _); [apply spends_ret|]. apply spends_free; [lia|apply spends_lift|intros repaired].
  destruct (bool_decide _); [apply spends_ret|].
  apply spends_free; [lia|apply spends_check_patch|intros again; apply spends_ret].
Qed.

Lemma spends_fall_back (fallback : option Generated) (f : failure) : spends cost 0 (fall_back fallback f).
Proof. destruct fallback; [apply spends_ret|apply spends_fails]. Qed.

Lemma spends_take_submission (request : MinerTaskRequest) (deadline : float) (c : Conversation)
    (completion : ModelCompletion) (events : list Event) :
  spends cost 0 (take_submission git request deadline c completion events).
Proof.
  unfold take_submission. apply spends_free; [lia|apply spends_check_submission|intros [sub problem]].
  apply spends_free; [lia|by apply spends_clock|intros now]. destruct problem; [|apply spends_ret].
  destruct (_ || _); apply spends_ret.
Qed.

Lemma spends_take_calls (root : node) (c : Conversation) (completion : ModelCompletion) (events : list Event)
    (calls : list (pystr * pystr * pystr)) :
  spends cost 0 (take_calls settings root c completion events calls).
Proof.
  unfold take_calls. destruct (_ <? _); [destruct (_ =? _); [apply spends_fails|apply spends_ret]|].
  apply spends_free; [lia|apply spends_lift|intros [[rs evs] made]].
  apply spends_free; [lia|apply spends_lift|intros said; apply spends_ret].
Qed.

Lemma spends_turn (request : MinerTaskRequest) (root : node) (deadline : float) (c : Conversation) :
  spends cost (bedrock_max_retries settings + 1) (turn settings git request root deadline c).
Proof.
  unfold turn. apply spends_free; [lia|by apply spends_clock|intros now].
  destruct (fleb _ f0); [eapply spends_more; [apply spends_fall_back|lia]|].
  replace (bedrock_max_retries settings + 1) with (bedrock_max_retries settings + 1 + 0) by lia.
  apply spends_bind; [lia|by apply spends_attempted, spends_complete|].
  intros [completion|[s| | |s|e]]; [|apply spends_fall_back|apply spends_fall_back|apply spends_fails..].
  apply spends_free; [lia|destruct (bool_decide _); [apply spends_lift|apply spends_ret]|intros text_call].
  destruct (mc_tool_calls completion ++ _); [apply spends_take_submission|apply spends_take_calls].
Qed.

Lemma spends_generate_loop (fuel : nat) (request : MinerTaskRequest) (root : node) (deadline : float) (c : Conversation) :
  spends cost (Z.of_nat fuel * (bedrock_max_retries settings + 1))
    (generate_loop settings git fuel request root deadline c).
Proof.
  revert c. induction fuel as [|fuel IH]; intros c; cbn [generate_loop]; [apply spends_ret|].
  replace (Z.of_nat (S fuel) * (bedrock_max_retries settings + 1))
    with (bedrock_max_retries settings + 1 + Z.of_nat fuel * (bedrock_max_retries settings + 1)) by lia.
  apply spends_bind; [lia|apply spends_turn|]. intros [c'|g]; [apply IH|eapply spends_more; [apply spends_ret|lia]].
Qed.
End requests.

(** ** Well-formed trajectories *)

Section trajectories.
Implicit Types (es : list Event) (calls results : gmap pystr Z) (id : pystr).

Lemma number_events_app es es' :
  number_events (es ++ es') =
  number_events es ++ imap (λ i e, {| sequence := Z.of_nat (length es + i); event := e |}) es'.
Proof. unfold number_events. by rewrite imap_app. Qed.

Lemma number_events_sequence es : map sequence (number_events es) = map Z.of_nat (seq 0 (length es)).
Proof.
  apply list_eq. intros i. change (map ?f ?l) with (f <$> l). unfold number_events.
  rewrite !list_lookup_fmap, list_lookup_imap. destruct (es !! i) as [e|] eqn:He.
  - rewrite lookup_seq_lt by (by eapply lookup_lt_Some). done.
  - rewrite lookup_seq_ge by (by apply lookup_ge_None). done.
Qed.

Lemma length_number_events es : length (number_events es) = length es.
Proof. apply length_imap. Qed.

Lemma omap_final_number es es' :
  omap final_digest (number_events (es ++ es')) =
  omap final_digest (number_events es) ++ omap final_digest (imap (λ i e, {| sequence := Z.of_nat (length es + i); event := e |}) es').
Proof. by rewrite number_events_app, omap_app. Qed.

Lemma collect_calls_app (l l' : list TrajectoryEvent) calls results :
  collect_calls calls results (l ++ l') =
  ('(calls, results) ← collect_calls calls results l; collect_calls calls results l').
Proof.
  revert calls results. induction l as [|e l IH]; intros calls results; [done|]. cbn [collect_calls app].
  destruct (event e); rewrite ?IH; try done; by destruct (bool_decide _).
Qed.

(** The calls of [ids] have one later result each. *)
Definition calls_match (ids : pystr → Prop) calls results : Prop :=
  (∀ id, is_Some (calls !! id) ↔ ids id) ∧ dom calls = dom results ∧
  ∀ id s, calls !! id = Some s → ∃ r, results !! id = Some r ∧ s < r.

Lemma match_pair (ids : pystr → Prop) calls results id (name body out : pystr) (err : bool) (s r : Z) :
  calls_match ids calls results → ¬ ids id → s < r →
  ∃ calls' results',
    collect_calls calls results [{| sequence := s; event := ToolCall id name body |};
                                 {| sequence := r; event := ToolResult id out err |}] = Ok (calls', results') ∧
    calls_match (λ k, k = id ∨ ids k) calls' results'.
Proof.
  intros (Hids & Hdom & Hlater) Hfresh Hlt.
  assert (Hc : calls !! id = None) by (apply eq_None_not_Some; by rewrite Hids).
  assert (Hr : results !! id = None) by (apply not_elem_of_dom; rewrite <-Hdom; by apply not_elem_of_dom).
  exists (<[id := s]> calls), (<[id := r]> results). cbn [collect_calls event sequence].
  rewrite Hc, Hr, !bool_decide_eq_false_2 by (by intros []). split; [done|]. split_and!.
  - intros k. rewrite lookup_insert_is_Some, Hids. destruct (decide (k = id)); naive_solver.
  - by rewrite !dom_insert_L, Hdom.
  - intros k x. rewrite lookup_insert_Some. intros [[<- <-]|[Hne Hk]].
    + exists r. by rewrite lookup_insert_eq.
    + destruct (Hlater k x Hk) as (y & Hy & Hxy). exists y. by rewrite lookup_insert_ne.
Qed.

Lemma event_id_inj (n k : Z) : event_id n = event_id k → n = k.
Proof. unfold event_id. intros He%app_inv_head. by apply str_of_int_inj. Qed.

Lemma validation_id_fresh (n : Z) : validation_id ≠ event_id n.
Proof. discriminate. Qed.

Lemma spelled_turn (c : ModelCompletion) : spelled c → event_after (model_event c) = Ok ().
Proof.
  intros (_ & chosen & Hs & Hg). cbn [event_after model_event]. unfold validate_generated_bytes.
  assert (Hm : mapM (λ t, b64decode (gt_bytes t)) (mc_tokens c) = Ok chosen).
  { apply mapM_Ok. eapply Forall2_impl; [exact Hs|]. intros t b ->. apply b64decode_encode. }
  rewrite Hm. cbn [mbind result_bind]. rewrite Hg, bool_decide_eq_true_2 by done. by destruct (mc_tokens c).
Qed.

(** The tool calls of a history. *)
Lemma history_calls (n t : Z) es :
  history n t es →
  (∃ calls results, collect_calls ∅ ∅ (number_events es) = Ok (calls, results) ∧
     calls_match (λ id, ∃ k, 0 <= k < n ∧ id = event_id k) calls results) ∧
  omap final_digest (number_events es) = [] ∧
  (0 < t → existsb is_model_turn (number_events es) = true) ∧
  (∀ e, e ∈ es → event_after e = Ok ()).
Proof.
  induction 1 as [|n t es c Hh ((calls & results & Hc & Hm) & Hf & Ht & Ha) Hs
                 |n t es body out err Hh ((calls & results & Hc & Hm) & Hf & Ht & Ha)].
  - split_and!; [|done|lia|by intros e ?%not_elem_of_nil]. exists ∅, ∅. split; [done|]. split_and!.
    + intros id. rewrite lookup_empty. split; [by intros []|]. intros (k & Hk & _). lia.
    + done.
    + intros id s Hid. by rewrite lookup_empty in Hid.
  - rewrite omap_final_number, number_events_app, Hf. split_and!.
    + exists calls, results. rewrite collect_calls_app, Hc. done.
    + done.
    + intros _. rewrite existsb_app. cbn. by rewrite orb_true_r.
    + intros e [He|He%list_elem_of_singleton]%elem_of_app; [by apply Ha|]. subst e. cbn [event_after model_event].
      by apply spelled_turn.
  - rewrite omap_final_number, number_events_app, Hf. split_and!.
    + destruct (match_pair _ _ _ (event_id n) (ustr "workspace_read") (b64encode body) (b64encode out) err
        (Z.of_nat (length es + 0)) (Z.of_nat (length es + 1)) Hm) as (calls' & results' & Hc' & Hm').
      { intros (k & Hk & He%event_id_inj). lia. }
      { lia. }
      exists calls', results'. rewrite collect_calls_app, Hc. split; [exact Hc'|].
      destruct Hm' as (Hids & Hrest). split; [|exact Hrest]. intros id. rewrite Hids.
      pose proof (history_nonneg _ _ _ Hh). split.
      * intros [->|(k & Hk & ->)]; [exists n|exists k]; (split; [lia|done]).
      * intros (k & Hk & ->). destruct (decide (k = n)) as [->|]; [by left|right]. exists k. split; [lia|done].
    + done.
    + intros Hlt. rewrite existsb_app, Ht by done. done.
    + intros e [He|He]%elem_of_app; [by apply Ha|]. by repeat (apply elem_of_cons in He as [->|He]; [done|]); apply not_elem_of_nil in He.
Qed.

(** Too few of the alternatives of the tokens have a finite log probability. *)
Definition sparse (events : list TrajectoryEvent) : bool :=
  zlen (filter (λ v, match v with Some p => py_isfinite p | None => false end = true) (alternatives events)) * 100
  <? zlen (alternatives events) * 85.

Lemma history_validates (n turns : Z) es (t : Trajectory) (name sub out : pystr) (err : bool) :
  history n turns es → 0 < turns →
  tr_events t = number_events (es ++ [ToolCall validation_id name sub; ToolResult validation_id out err;
                                      FinalSubmission (tr_submission_sha256 t)]) →
  validate_events t = raise_if (sparse (tr_events t)) ValueError "at least 85% of alternative logprobs must be finite".
Proof.
  intros Hh Hturns Ht. destruct (history_calls _ _ _ Hh) as ((calls & results & Hc & Hm) & Hf & Hmodel & _).
  set (closing := [ToolCall _ _ _; _; _]) in Ht.
  destruct (match_pair _ _ _ validation_id name sub out err (Z.of_nat (length es + 0)) (Z.of_nat (length es + 1)) Hm)
    as (calls' & results' & Hc' & Hids & Hdom & Hlater).
  { intros (k & _ & He). by apply validation_id_fresh in He. }
  { lia. }
  assert (Hall : collect_calls ∅ ∅ (tr_events t) = Ok (calls', results')).
  { rewrite Ht, number_events_app, collect_calls_app, Hc. cbn [mbind result_bind].
    change (imap _ closing) with
      ([{| sequence := Z.of_nat (length es + 0); event := ToolCall validation_id name sub |};
        {| sequence := Z.of_nat (length es + 1); event := ToolResult validation_id out err |}]
       ++ [{| sequence := Z.of_nat (length es + 2); event := FinalSubmission (tr_submission_sha256 t) |}]).
    by rewrite collect_calls_app, Hc'. }
  assert (Hone : omap final_digest (tr_events t) = [tr_submission_sha256 t]) by (by rewrite Ht, omap_final_number, Hf).
  assert (Hlast : last (tr_events t) ≫= final_digest = Some (tr_submission_sha256 t)).
  { rewrite Ht, number_events_app. change (imap _ closing) with
      ([{| sequence := Z.of_nat (length es + 0); event := ToolCall validation_id name sub |};
        {| sequence := Z.of_nat (length es + 1); event := ToolResult validation_id out err |}]
       ++ [{| sequence := Z.of_nat (length es + 2); event := FinalSubmission (tr_submission_sha256 t) |}]).
    by rewrite (assoc_L (++)), last_snoc. }
  assert (Hturn : existsb is_model_turn (tr_events t) = true) by (by rewrite Ht, number_events_app, existsb_app, Hmodel).
  assert (Hseq : map sequence (tr_events t) = map Z.of_nat (seq 0 (length (tr_events t)))).
  { rewrite Ht. by rewrite number_events_sequence, length_number_events. }
  unfold validate_events. rewrite Hone, Hlast, Hturn, Hall, bool_decide_eq_true_2 by done.
  rewrite bool_decide_eq_true_2 by done. cbn [negb raise_if mbind result_bind].
  rewrite bool_decide_eq_false_2.
  2:{ intros Hn. assert (Hv : is_Some (calls' !! validation_id)) by (apply Hids; by left). rewrite Hn, lookup_empty in Hv. by destruct Hv. }
  rewrite Hdom, bool_decide_eq_true_2 by done. cbn [negb orb raise_if mbind result_bind].
  assert (Hex : existsb (λ '(id, s), match results' !! id with Some r => r <=? s | None => false end) (map_to_list calls') = false).
  { apply not_true_is_false. rewrite existsb_exists. intros ([id s] & Hin & Hle).
    apply list_elem_of_In, elem_of_map_to_list in Hin. destruct (Hlater id s Hin) as (r & Hr & Hlt).
    rewrite Hr in Hle. apply Z.leb_le in Hle. lia. }
  by rewrite Hex.
Qed.
(** ** Fields

    What the constraints on the fields leave open of the events a miner records: sizes, text
    with a lone surrogate, and the identifiers of tokens. *)

Definition token_fits (t : GeneratedToken) : bool :=
  (zlen (gt_bytes t) <=? TOKEN_CHARS) && validate_token_id (gt_id t)
  && forallb (λ a, (zlen (ta_bytes a) <=? TOKEN_CHARS) && validate_token_id (ta_id a)) (gt_alternatives t).

Definition event_fits (e : Event) : bool :=
  match e with
  | ModelTurn req res gen reasoning output tokens =>
      (zlen req <=? 64 * MiB) && (zlen res <=? 128 * MiB) && (zlen gen <=? 64 * MiB)
      && text_field 0 (64 * MiB) reasoning && text_field 0 (64 * MiB) output
      && (zlen tokens <=? 250000) && forallb token_fits tokens
  | ModelFailure _ _ _ _ => false
  | ToolCall _ _ body => zlen body <=? 64 * MiB
  | ToolResult _ body _ => zlen body <=? 128 * MiB
  | FinalSubmission _ => true
  end.

(** The header of a trajectory. *)
Definition header_fits (t : Trajectory) : bool :=
  Digest (tr_task_id t) && text_field 1 128 (tr_challenge_id t) && text_field 1 128 (tr_miner_hotkey t)
  && SmallText (tr_model_name t).

Lemma forallb_eq {A} (p q : A → bool) (l : list A) : Forall (λ x, p x = q x) l → forallb p l = forallb q l.
Proof. induction 1 as [|x l Hx _ IH]; [done|]. cbn [forallb]. by rewrite Hx, IH. Qed.

Lemma encoded_field (limit : Z) (b : bytes) : base64_field limit (b64encode b) = (zlen (b64encode b) <=? limit).
Proof.
  unfold base64_field, text_field, len_between. rewrite b64encode_scalar.
  rewrite (proj2 (Z.leb_le 0 _)) by apply zlen_nonneg.
  assert (Hc : is_ok (canonical_base64 (b64encode b)) = true).
  { apply is_ok_true. exists (b64encode b). apply canonical_base64_Ok. split; [done|by exists b]. }
  rewrite Hc. by rewrite !andb_true_r.
Qed.

Lemma token_fields (t : GeneratedToken) (b : bytes) :
  token_shaped t → gt_bytes t = b64encode b → GeneratedToken_fields t = token_fits t.
Proof.
  intros (Hp & Hl & Ha) Hb. unfold GeneratedToken_fields, token_fits. rewrite Hb, encoded_field, Hp, Hl.
  rewrite !andb_true_r. f_equal. apply forallb_eq. eapply Forall_impl; [exact Ha|].
  intros a [[c Hc] Hf]. unfold TokenAlternative_fields. by rewrite Hc, encoded_field, Hf, andb_true_r.
Qed.

Lemma model_event_fields (c : ModelCompletion) : spelled c → event_fields (model_event c) = event_fits (model_event c).
Proof.
  intros (Hshape & chosen & Hb & _). unfold model_event. cbn [event_fields event_fits].
  unfold Base64Text, LargeBase64Text. rewrite !encoded_field. f_equal. apply forallb_eq. revert Hshape.
  clear -Hb. induction Hb as [|t b ts bs Ht _ IH]; intros Hs; constructor; inversion_clear Hs; [by eapply token_fields|by apply IH].
Qed.

Lemma event_id_fits (n : Z) : 0 <= n < 2 ^ 100 → SmallText (event_id n) = true.
Proof.
  intros Hn. unfold SmallText, text_field, len_between, event_id.
  destruct (str_of_int_digits n) as (_ & Hd & _); [lia|].
  pose proof (str_of_int_length 100 n ltac:(lia) ltac:(lia)) as Hl.
  rewrite forallb_app. assert (Hs : forallb scalar (str_of_int n) = true).
  { rewrite forallb_elem in Hd |- *. intros c Hc%Hd. apply scalar_bounds. unfold is_digit in Hc.
    apply andb_true_iff in Hc as [Hc1%N.leb_le Hc2%N.leb_le]. lia. }
  rewrite Hs. change (forallb scalar (ustr "workspace-")) with true. unfold zlen. rewrite length_app.
  change (length (ustr "workspace-")) with 10%nat. cbn [andb]. rewrite andb_true_r, andb_true_iff, !Z.leb_le. lia.
Qed.

Lemma history_size (n t : Z) es : history n t es → zlen es = t + 2 * n.
Proof.
  induction 1 as [|n t es c _ IH _|n t es body out err _ IH]; [done|..];
    unfold zlen in *; rewrite length_app; cbn [length]; lia.
Qed.

(** The fields of the events of a history are right when they fit. *)
Lemma history_fields (n t : Z) es :
  history n t es → n <= 2 ^ 99 → Forall (λ e, event_fields e = event_fits e) es.
Proof.
  induction 1 as [|n t es c _ IH Hs|n t es body out err Hh IH]; intros Hn; [constructor|..];
    (apply Forall_app; split; [apply IH; lia|]); repeat constructor; [by apply model_event_fields| |];
    cbn [event_fields event_fits]; unfold Base64Text, LargeBase64Text; rewrite encoded_field;
    (rewrite event_id_fits by (apply history_nonneg in Hh; lia)); done.
Qed.

Lemma number_events_valid es :
  zlen es <= 100000 → (∀ e, e ∈ es → event_after e = Ok ()) →
  forallb (λ e, is_ok (TrajectoryEvent_validate e)) (number_events es) = forallb event_fields es.
Proof.
  intros Hl Ha. assert (Hev : ∀ e, e ∈ es → ∀ i, 0 <= i < 100000 →
    is_ok (TrajectoryEvent_validate {| sequence := i; event := e |}) = event_fields e).
  { intros e He i Hi. unfold TrajectoryEvent_validate, model_validate, SequenceNumber. cbn [sequence event].
    rewrite (Ha e He), (proj2 (Z.leb_le 0 i)), (proj2 (Z.leb_le i _)) by lia. cbn [andb]. by destruct (event_fields e). }
  apply eq_iff_eq_true. rewrite !forallb_elem. unfold number_events. split.
  - intros H e He. pose proof He as [i Hi]%list_elem_of_lookup. pose proof (lookup_lt_Some _ _ _ Hi) as Hlt.
    rewrite <-(Hev e He (Z.of_nat i)) by (unfold zlen in Hl; lia). apply H. apply elem_of_lookup_imap. by exists i, e.
  - intros H x (i & e & -> & Hi)%elem_of_lookup_imap. pose proof (lookup_lt_Some _ _ _ Hi) as Hlt.
    apply list_elem_of_lookup_2 in Hi as He. rewrite Hev by (done || unfold zlen in Hl; lia). by apply H.
Qed.

Lemma trajectory_fields_fit `{SH : !Sha256, SL : !Sha256Laws} (settings : ModelSettings) (hotkey : pystr)
    (request : MinerTaskRequest) (submission : bytes) (n turns : Z) es (out : bytes) (events : list Event) (err : bool) :
  history n turns es → 0 < turns →
  events = es ++ [ToolCall validation_id (ustr "validate_submission") (b64encode submission);
                  ToolResult validation_id (b64encode out) err; FinalSubmission (hexdigest (sha256 submission))] →
  (∀ e, e ∈ events → event_after e = Ok ()) →
  let t := miner_trajectory settings hotkey request submission events in
  Trajectory_fields t = header_fits t && (zlen events <=? 100000) && forallb event_fits events.
Proof.
  intros Hh Ht -> Hafter t. set (events := es ++ _) in *.
  assert (Hsub : Digest (hexdigest (sha256 submission)) = true).
  { unfold Digest, zlen. by rewrite hexdigest_length, sha256_length, hexdigest_lower. }
  pose proof (history_nonneg _ _ _ Hh) as [Hn _]. pose proof (history_size _ _ _ Hh) as Hsize.
  assert (Hl : zlen events = zlen es + 3) by (unfold events, zlen; rewrite length_app; cbn [length]; lia).
  unfold Trajectory_fields, header_fits, t, miner_trajectory.
  cbn [tr_schema_version tr_task_id tr_challenge_id tr_miner_hotkey tr_submission_sha256 tr_harness_name
    tr_harness_version tr_model_provider tr_model_name tr_events].
  rewrite Hsub. change (exact_int 1 1) with true. change (SmallText (ustr "hone-demo-miner")) with true.
  change (SmallText (ustr "3")) with true. change (SmallText (ustr "aws-bedrock")) with true.
  assert (Hz : zlen (number_events events) = zlen events) by (unfold zlen; by rewrite length_number_events).
  rewrite Hz, (proj2 (Z.leb_le 4 _)) by lia. cbn [andb]. rewrite !andb_true_r.
  destruct (Z.leb_spec (zlen events) 100000) as [Hle|]; [|by rewrite !andb_false_r].
  rewrite number_events_valid by done. f_equal. apply forallb_eq, Forall_app. split; [eapply history_fields; [exact Hh|lia]|].
  repeat constructor; cbn [event_fields event_fits]; unfold Base64Text, LargeBase64Text; rewrite ?encoded_field; done.
Qed.
End trajectories.

(** ** Properties *)

(** C17 (termination): whatever the model, the clock and git do, the conversation ends: it
    asks for at most one completion per allowed tool call and three more, and sends at
    most [retries + 1] requests for each; what it returns is the record of at most
    [budget + 3] model turns and [budget] tool calls, each directly followed by its
    result. *)
Theorem generate_ends `{MO : !Model, FR : !FloatRepr, WC : !WordChars, UG : !UnicodeDigits,
    UD : !UnicodeData} (settings : ModelSettings) (git : option pystr) (request : MinerTaskRequest) (root : node)
    (deadline : float) (w : world) :
  0 <= miner_max_workspace_tool_calls settings → 0 <= bedrock_max_retries settings →
  let '(r, w') := generate settings git request root deadline w in
  r ≠ Got None ∧
  (∀ cost, costs cost →
     cost w' <= cost w + (miner_max_workspace_tool_calls settings + 3) * (bedrock_max_retries settings + 1)) ∧
  ∀ g, r = Got (Some g) →
    ∃ n t, history n t (g_events g) ∧ 0 < t <= miner_max_workspace_tool_calls settings + 3 ∧
      n <= miner_max_workspace_tool_calls settings.
Proof.
  intros Hb Hr. destruct (generate settings git request root deadline w) as [r w'] eqn:Hg.
  assert (Hok : ∀ o, r = Got o → ∃ g, o = Some g ∧ generated_ok settings g).
  { intros o ->. by apply generate_ok in Hg. }
  split; [intros ->; by destruct (Hok None eq_refl) as (g & ? & _)|]. split.
  - intros cost Hc. pose proof (spends_generate_loop settings git cost Hc Hr (generate_fuel settings) request root deadline
      (conversation_start request) w) as Hs.
    change (generate_loop _ _ _ _ _ _ _ w) with (generate settings git request root deadline w) in Hs.
    rewrite Hg in Hs. cbn [snd] in Hs. unfold generate_fuel, SUBMISSION_REASK_LIMIT in Hs. rewrite Z2Nat.id in Hs by lia. lia.
  - intros g ->. destruct (Hok _ eq_refl) as (g' & [= <-] & n & t & Hh & Ht & Hn). exists n, t.
    unfold SUBMISSION_REASK_LIMIT in Ht. split; [done|]. lia.
Qed.


(** C16 (refinement): the reference miner keeps the contract of a miner.  When [solve] answers a valid
    task, over a store that honours [If-None-Match] and whose slots nobody else writes
    to, the answer passes the validator's checks of a response to this task, the
    submission slot holds the bytes it names, and the trajectory slot holds a trajectory
    that parses, names the task, the challenge and the miner, and was built for that
    very submission. *)
Theorem solve_answers `{MO : !Model, FR : !FloatRepr, WC : !WordChars, UG : !UnicodeDigits,
    UD : !UnicodeData, SH : !Sha256, TJ : !TrajectoryJson, UP : !UrlParser, ZS : !Zstd, TR : !Tar, ST : !Storage,
    SL : !StorageLaws} (settings : ModelSettings) (git : option pystr) (hotkey : pystr) (env : WorkspaceEnv)
    (request : MinerTaskRequest) (timeout_s : float) (payload : MinerTaskResponse) (w w' : world) (s s' : storage) :
  MinerTaskRequest_validate request = Ok request →
  s_upload_url (submission (t_slots request)) ≠ s_upload_url (trajectory (t_slots request)) →
  object s (s_upload_url (submission (t_slots request))) = None →
  object s (s_upload_url (trajectory (t_slots request))) = None →
  solve settings git hotkey env request timeout_s w s = (Got payload, w', s') →
  MinerTaskResponse_validate payload = Ok payload ∧ validate_miner_response request payload = Ok () ∧
  ∃ sub raw t,
    object s' (s_upload_url (submission (t_slots request))) = Some sub ∧
    object s' (s_upload_url (trajectory (t_slots request))) = Some raw ∧
    Trajectory_validate t = Ok t ∧ serialize_trajectory t = Ok raw ∧ is_ok (parse_trajectory raw) = true ∧
    tr_task_id t = t_task_id request ∧ tr_challenge_id t = t_challenge_id request ∧ tr_miner_hotkey t = hotkey ∧
    tr_submission_sha256 t = hexdigest (sha256 sub) ∧ m_sha256 (p_submission payload) = hexdigest (sha256 sub) ∧
    m_sha256 (p_trajectory payload) = hexdigest (sha256 raw).
Proof.
  intros Hv Hne Hns Hnt. unfold solve. destruct (prepare _ _ _ _ _ _ w) as [[[sub raw]|f] w1] eqn:Hp; [|done].
  destruct (upload_miner_result _ _ _ _ s) as [[r|e] s1] eqn:Hu; [|done]. intros [= <- <- <-].
  destruct (upload_answers _ _ _ _ _ _ _ Hv Hne Hns Hnt Hu) as (Hr & Hfit & Hs1 & Hs2 & Ho1 & Ho2).
  split; [done|]. split; [done|]. exists sub, raw.
  unfold prepare in Hp. apply bind_Got in Hp as (started & w2 & _ & Hp). destruct (fleb _ started); [done|].
  apply bind_Got in Hp as (root & w3 & _ & Hp). apply bind_Got in Hp as ([g|] & w4 & _ & Hp); [|done].
  apply bind_Got in Hp as (raw' & w5 & [Hrec _]%lift_Got & [[= <- <-] _]%ret_Got).
  unfold record_trajectory in Hrec. apply bind_Ok in Hrec as (closing & _ & (t & Ht & Hrec)%bind_Ok).
  apply bind_Ok in Hrec as (raw1 & Hser & (t' & Hparse & [= <-])%bind_Ok).
  pose proof Ht as (_ & _ & Heq)%model_validate_Ok. exists t. split_and!; try done; subst t; try done. by rewrite Hparse.
Qed.

(** ** Witnesses *)

(** A model that replies what the world says, a clock that stands still. *)
Definition scripted : Model :=
  {| world := list bytes;
     monotonic := λ w, (float_of_int 100, w);
     send := λ _ _ _ _ w, match w with
                          | [] => (Fails HttpTimeout, [])
                          | b :: w' => (Got {| ch_status := 200; ch_body := b |}, w')
                          end;
     pause := λ _ w, w; git_apply := λ _ _ _ w, (GitNotRun, w) |}.

Definition model_says (message : list (string * pyobj)) : pyobj :=
  dict [("choices", PList [dict [("finish_reason", as_key "stop"); ("message", dict message)]])]%string.

(** The text of a JSON value, and a reply with that body. *)
Definition json_text (v : pyobj) : pystr :=
  match dumps (H := no_repr) default_options v with Ok s => s | Raise _ => [] end.

Definition reply (v : pyobj) : bytes := encode_replace (json_text v).

(** The model lists the workspace, then returns a script. *)
Definition says_list : bytes :=
  reply (model_says [("tool_calls", PList [dict [("id", as_key "c"); ("function", dict [("name", as_key "list_files");
    ("arguments", PStr (json_text (dict [("path", as_key "."); ("offset", PInt 0)])))])]])]%string).

Definition says_script : bytes := reply (model_says [("content", as_key "#!x")]%string).

Definition hone_url : UrlParser :=
  {| parse_url := λ _, Some {| url_scheme := ustr "https";
                               url_raw_host := bstr "hone-artifacts-o23247xbwz.s3.us-east-1.amazonaws.com";
                               url_userinfo := []; url_port := None; url_fragment := [] |} |}.

Definition demo_model : ModelSettings :=
  {| bedrock_api_key := ustr "k"; bedrock_base_url := ustr "https://m"; bedrock_model := ustr "kimi";
     bedrock_max_tokens := 16384; bedrock_temperature := f1; bedrock_reasoning_effort := ustr "high";
     bedrock_request_timeout_s := float_of_int 280; bedrock_max_retries := 2;
     bedrock_upload_reserve_s := float_of_int 20; miner_max_workspace_tool_calls := 1 |}.

Definition demo_generate : outcome (option Generated) * list bytes :=
  generate (H := scripted) (H0 := no_repr) (H1 := no_letters) (H2 := no_digits)
    (H3 := ascii_unicode) demo_model None miner_task (NDir 448 []) (float_of_int 200) [says_list; says_script].

Lemma generate_ends_witness : demo_generate.1 ≠ Got None ∧ 0 <= miner_max_workspace_tool_calls demo_model.
Proof.
  split; [|discriminate].
  pose proof (generate_ends (MO := scripted) (FR := no_repr) (WC := no_letters)
    (UG := no_digits) (UD := ascii_unicode) demo_model None miner_task (NDir 448 []) (float_of_int 200)
    [says_list; says_script] ltac:(discriminate) ltac:(discriminate)) as H.
  fold demo_generate in H. destruct demo_generate as [r w']. apply H.
Defined.

Definition no_generated : Generated :=
  {| g_completion := {| mc_request_body := []; mc_response_body := []; mc_output := []; mc_reasoning := [];
                        mc_generated_bytes := []; mc_tokens := []; mc_tool_calls := [] |};
     g_events := []; g_submission := [] |}.

Definition demo_generated : Generated :=
  match demo_generate.1 with Got (Some g) => g | _ => no_generated end.

Definition demo_closing : list Event :=
  match closing_events (H := sha_const) (H0 := ascii_unicode) (g_submission demo_generated) with
  | Ok c => c
  | Raise _ => []
  end.

Definition demo_trajectory : Trajectory :=
  miner_trajectory (H := sha_const) demo_model (ustr "a") miner_task (g_submission demo_generated)
    (g_events demo_generated ++ demo_closing).


Definition demo_solve : outcome MinerTaskResponse * list bytes * @storage flaky_storage :=
  solve (H := scripted) (H0 := no_repr) (H1 := no_letters) (H2 := no_digits)
    (H3 := ascii_unicode) (H4 := sha_const) (H5 := one_trajectory) (H6 := hone_url) (H7 := store_zstd)
    (H8 := round_tar) (H9 := flaky_storage) demo_model None (ustr "a")
    {| we_umask := 18; we_http := serve "w"; we_free := 100000 |} miner_task (float_of_int 100)
    [says_list; says_script] one_lost.

Definition is_got {A} (o : outcome A) : bool := match o with Got _ => true | Fails _ => false end.

Lemma solve_answers_witness : ∃ payload, demo_solve.1.1 = Got payload ∧ validate_miner_response miner_task payload = Ok ().
Proof.
  assert (Hg : is_got demo_solve.1.1 = true) by (vm_compute; reflexivity).
  destruct demo_solve as [[[payload|f] w'] s'] eqn:Hs; [|discriminate Hg].
  exists payload. split; [reflexivity|].
  apply (solve_answers (MO := scripted) (FR := no_repr) (WC := no_letters) (UG := no_digits)
    (UD := ascii_unicode) (SH := sha_const) (TJ := one_trajectory) (UP := hone_url) (ZS := store_zstd) (TR := round_tar)
    (ST := flaky_storage) (SL := flaky_laws) demo_model None (ustr "a")
    {| we_umask := 18; we_http := serve "w"; we_free := 100000 |} miner_task (float_of_int 100) payload
    [says_list; says_script] w' one_lost s').
  - vm_compute. reflexivity.
  - discriminate.
  - reflexivity.
  - reflexivity.
  - exact Hs.
Defined.
