(* ===== verification/Tools.v ===== *)
(** * The programs an operator and a miner start
    ([src/scripts/run_validator.py], [src/scripts/try_task.py])

    [run_validator] is the entry point of the validator up to the service, with the lines
    it prints.  [extract] and [grade] are the two commands of try_task: a fixture is a
    retired task with its archives, and an answer to it is graded on the spot.  The
    temporary directory, the tree and docker are a [TryHost]; an exception ends the
    program.  Reading the command line is left out.  [:g] is the class [GeneralFormat],
    what pydantic makes of a JSON object the class [FixtureModels].

    [grade_verdict]: exit code zero is a passed suite.  [graded_as_validator]: the
    evaluation is that of a round.  [extract_keeps]: nothing is overwritten. *)

From S2P Require Import Prelude PyFloat Text Json Canonical Wire Identity Api ApiSpec Protocol ProtocolSpec ScoreState ProblemClient Archive ArchiveSpec Download Supervisor Manifest Feedback Patch Grading GradingSpec Round EvaluateRound EvaluateRoundSpec Release Diagnostics Config FileSystem.

Local Open Scope Z_scope.

Inductive line := Out (s : pystr) | Err (s : pystr).

(** ** [run_validator.py] *)

Class GeneralFormat := { format_g : float → pystr }.

Section validator.
Context `{!FloatRepr, !Sha256, !GeneralFormat}.

Definition summary (p : ValidatorPolicy) : result pystr :=
  hash ← fingerprint p;
  mret (ustr "version=" ++ version p ++ ustr " hash=" ++ hash
        ++ ustr " protocol=3 execution_profile=" ++ v3_execution_profile_id p
        ++ ustr " score_samples=" ++ str_of_int (score_window_max_samples p)
        ++ ustr " startup_samples=" ++ str_of_int (score_window_min_samples p)
        ++ ustr " rank_decay=" ++ format_g (policy_rank_decay p)
        ++ ustr " round_blocks=" ++ str_of_int (round_interval_blocks p)
        ++ ustr " weight_blocks=" ++ str_of_int (weights_interval_blocks p)
        ++ ustr " speed_floor=" ++ format_g (payment_speed_floor p)
        ++ ustr " speed_half_life_ms=" ++ format_g (payment_speed_half_life_ms p)
        ++ ustr " owner_burn=" ++ format_g (owner_burn_share p)).

Definition ignored_line (ignored : list pystr) : list line :=
  match ignored with
  | [] => []
  | _ => [Out (ustr "[validator] WARN: ignored release-policy overrides: " ++ join (ustr ", ") ignored)]
  end.

Definition migrated_line (s : Settings) : list line :=
  match problem_server_url_migrated_from s with
  | [] => []
  | old =>
      [Out (ustr "[validator] NOTE: PROBLEM_SERVER_URL=" ++ old
            ++ ustr " is the previous release's server; using the current default instead. Remove it from .env.")]
  end.

Definition nondefault_line (s : Settings) : list line :=
  match nondefault_settings_summary s with
  | [] => []
  | text => [Out (ustr "[validator] non-default machine settings " ++ text)]
  end.

(** The settings the service is run with, and the lines before it. *)
Definition run_validator (read : Settings) (environ : gset pystr) (env_file : result pystr)
    : result (list line * Settings) :=
  s ← get_settings read;
  raise_if (bool_decide (problem_server_url s = [])) OtherError "SystemExit";;
  policy ← summary RELEASE_POLICY;
  mret (ignored_line (ignored_release_policy_keys environ env_file)
        ++ [Out (ustr "[validator] release policy " ++ policy)] ++ migrated_line s ++ nondefault_line s, s).
End validator.

(** ** [try_task.py] *)

Record Fixture := {
  fx_path : pystr;
  fx_identity : result pystr;               (* the text of identity.json *)
  fx_refs : result pystr;                   (* the text of artifact_refs.json *)
  fx_archive : pystr → option bytes         (* <name>.tar.zst *)
}.

(** [Model( **value )], before its constraints: missing, extra and ill-typed fields raise. *)
Class FixtureModels := {
  repository_identity : list (pyobj * pyobj) → result RepositoryTaskIdentity;
  terminal_identity : list (pyobj * pyobj) → result TerminalScriptTaskIdentity;
  artifact_ref : pyobj → result ArtifactRef
}.

Record TryHost := {
  th_uid : Z;
  th_gid : Z;
  th_docker : bool;
  th_umask : Z;
  th_root : pystr;
  th_lstat : pystr → option FileKind;
  th_run : ContainerRequest → node → result (ContainerResult * node);
  th_patch_file : pystr;
  th_script_dir : pystr
}.

Definition is_terminal (i : TaskIdentity) : bool :=
  match i with TerminalTask _ => true | RepositoryTask _ => false end.

Definition task_type_of (i : TaskIdentity) : TaskType :=
  match i with TerminalTask _ => terminal_script | RepositoryTask _ => repository_patch end.

(** The identity a JSON object names, before its constraints. *)
Definition read_identity `{!FixtureModels} (raw : list (pyobj * pyobj)) : result TaskIdentity :=
  match Manifest.dict_get raw "task_type" with
  | Some (PStr kind) =>
      if bool_decide (kind = ustr "terminal_script_v1") then TerminalTask <$> terminal_identity raw
      else RepositoryTask <$> repository_identity raw
  | _ => RepositoryTask <$> repository_identity raw
  end.

Section try_task.
Context `{!UnicodeData, !Sha256, !Zstd, !Tar, !PyRepr, !FixtureModels}.

Definition load (fx : Fixture) : result (TaskIdentity * list (pyobj * ArtifactRef)) :=
  text ← fx_identity fx;
  raw ← loads text;
  match raw with
  | PDict raw =>
      identity ← read_identity raw;
      identity ← model_validate identity_fields (λ _, Ok ()) identity;
      text ← fx_refs fx;
      refs ← loads text;
      match refs with
      | PDict items =>
          refs ← mapM (λ '(name, value),
            ref ← artifact_ref value;
            ref ← model_validate ArtifactRef_fields (λ _, Ok ()) ref;
            mret (name, ref)) items;
          mret (identity, refs)
      | _ => raise AttributeError "object has no attribute 'items'"
      end
  | _ => raise AttributeError "object has no attribute 'get'"
  end.

(** [refs[name]] *)
Definition ref_of (refs : list (pyobj * ArtifactRef)) (name : string) : result ArtifactRef :=
  match find (λ r, match r.1 with PStr s => bool_decide (s = ustr name) | _ => false end) refs with
  | Some r => Ok r.2
  | None => raise KeyError name
  end.

Context (host : TryHost).

Definition try_policy : result RoundPolicy :=
  Release.round_policy RELEASE_POLICY (th_uid host) (th_gid host) (th_docker host) 1 1.

(** What is left at a target that was free, and the outcome. *)
Definition unpack (fx : Fixture) (name : string) : option node * result unit :=
  match (policy ← try_policy;
         '(_, refs) ← load fx;
         ref ← ref_of refs name;
         mret (policy, ref)) with
  | Raise e => (None, Raise e)
  | Ok (policy, ref) =>
      let limits := if String.eqb name "workspace" then workspace_archive policy else verifier_archive policy in
      let '(kept, out) := extract_archive (th_umask host) (fx_archive fx (ustr name)) ref None limits true in
      (kept, _ ← out; mret ())
  end.

(** The tree of a call that returned. *)
Definition unpacked (fx : Fixture) (name : string) : result node :=
  match unpack fx name with
  | (Some tree, Ok _) => Ok tree
  | (None, Ok _) => raise ArchiveError name   (* an extraction that returns leaves a tree *)
  | (_, Raise e) => Raise e
  end.

Definition instructions (fx : Fixture) (destination : pystr) (identity : TaskIdentity) : list line :=
  [Out (ustr "workspace: " ++ destination)]
  ++ match identity with
     | TerminalTask t =>
         [Out (ustr "task type: terminal script, run with bash in " ++ py_repr (PStr (t_result_tree_path t))
               ++ ustr " under the workspace")]
     | RepositoryTask r =>
         [Out (ustr "working directory: " ++ r_working_directory r); Out (ustr "language: " ++ r_primary_language r)]
     end
  ++ [Out (ustr "instruction:");
      Out (ustr "  " ++ match identity with TerminalTask t => t_instruction t | RepositoryTask r => r_instruction r end)]
  ++ (if is_terminal identity then
        [Out (ustr "Write a bash script that produces the required results in that workspace, then:");
         Out (ustr "  python scripts/try_task.py --fixture " ++ fx_path fx ++ ustr " grade <your.sh>")]
      else
        [Out (ustr "Produce a unified diff with paths relative to the workspace root, then:");
         Out (ustr "  python scripts/try_task.py --fixture " ++ fx_path fx ++ ustr " grade <your.diff>")]).

(** The destination after the command, and its lines with the exit code. *)
Definition extract (fx : Fixture) (destination : pystr) (there : option node)
    : option node * result (list line * Z) :=
  match there with
  | Some _ => (there, Ok ([Err (ustr "refusing to overwrite " ++ destination)], 2))
  | None =>
      match load fx with
      | Raise e => (None, Raise e)
      | Ok (identity, _) =>
          let '(kept, out) := unpack fx "workspace" in
          (kept, _ ← out; mret (instructions fx destination identity, 0))
      end
  end.

(** The call of [evaluate_terminal] or [evaluate_repository], with the paths and the prefix
    of its container names. *)
Definition evaluate_with (policy : RoundPolicy) (lstat : pystr → option FileKind)
    (run : ContainerRequest → node → result (ContainerResult * node))
    (workspace_path verifier_path prefix patch_path script_dir : pystr) (identity : TaskIdentity)
    (workspace verifier : node) (manifest : VerifierManifest) (answer : bytes) : result EvaluationResult :=
  match identity with
  | TerminalTask i =>
      evaluate_terminal lstat run workspace_path (work_cwd workspace_path (t_result_tree_path i)) verifier_path
        prefix verifier workspace answer i manifest (tree_policy policy) (script_policy policy)
        SCRIPT_TIMEOUT_S SCRIPT_OUTPUT_BYTES script_dir
  | RepositoryTask i =>
      evaluate_repository lstat run workspace_path workspace_path verifier_path prefix verifier workspace answer
        i manifest (tree_policy policy) (patch_policy policy) patch_path
  end.

Definition outcome_text (o : Outcome) : string :=
  match o with passed => "passed" | failed => "failed" | skipped => "skipped" end.

Definition report (r : EvaluationResult) : list line :=
  [Out (ustr "status: " ++ ustr (evaluation_status_text (ev_status r))
        ++ match ev_reason_code r with Some c => ustr " (" ++ reason_value c ++ ustr ")" | None => [] end)]
  ++ match ev_reason r with [] => [] | reason => [Out (ustr "reason: " ++ reason)] end
  ++ map (λ c, Out (ustr "  " ++ res_check_id c ++ ustr ": " ++ ustr (outcome_text (res_outcome c)))) (ev_checks r)
  ++ match ev_failed_check r with
     | Some ((_ :: _) as text) => Out (ustr "failed check:") :: map (λ l, Out (ustr "  " ++ l)) (str_splitlines text)
     | _ => []
     end
  ++ (if bool_decide (ev_status r = eval_abandoned)
      then [Err (ustr "the validator could not grade this; check Docker and the pinned image")] else []).

Definition exit_of (r : EvaluationResult) : Z :=
  match ev_status r with eval_abandoned => 2 | eval_passed => 0 | _ => 1 end.

Definition answer_limit (identity : TaskIdentity) : Z :=
  if is_terminal identity then v3_script_bytes RELEASE_POLICY else v3_patch_bytes RELEASE_POLICY.

(** The evaluation, once the answer was read. *)
Definition try_evaluate (fx : Fixture) (identity : TaskIdentity) (answer : bytes) : result EvaluationResult :=
  policy ← try_policy;
  workspace ← unpacked fx "workspace";
  verifier ← unpacked fx "verifier";
  manifest ← load_manifest verifier (task_type_of identity);
  evaluate_with policy (th_lstat host) (th_run host) (below (th_root host) (ustr "workspace"))
    (below (th_root host) (ustr "verifier")) (ustr "try-task") (th_patch_file host) (th_script_dir host)
    identity workspace verifier manifest answer.

Definition grade (fx : Fixture) (answer_file : result bytes) : result (list line * Z) :=
  '(identity, _) ← load fx;
  let limit := answer_limit identity in
  answer ← slice_to (limit + 1) <$> answer_file;
  if limit <? zlen answer then
    mret ([Out (ustr "status: rejected (" ++ ustr (if is_terminal identity then "script" else "patch")
                ++ ustr " exceeds the " ++ str_of_int limit ++ ustr " byte limit)")], 1)
  else if negb (th_docker host) then mret ([Err (ustr "docker is required to grade")], 2)
  else
    r ← try_evaluate fx identity answer;
    mret (report r, exit_of r).
End try_task.

(** ** Properties *)

(** The limits of an evaluation do not depend on who runs it. *)
Lemma policy_limits (p : ValidatorPolicy) (uid gid : Z) (docker : bool) (dispatch grading : Z) (rp : RoundPolicy) :
  Release.round_policy p uid gid docker dispatch grading = Ok rp →
  tree_policy rp = release_trees p ∧
  patch_policy rp = {| max_patch_bytes := v3_patch_bytes p; git_timeout_s := 30 |} ∧
  script_policy rp = v3_script_bytes p.
Proof.
  unfold Release.round_policy. rewrite !guard_Ok. intros (_ & _ & H1). do 6 apply seq_Ok in H1 as [_ H1].
  apply bind_Ok in H1 as (supervisor & _ & H1). by apply seq_Ok in H1 as [_ [= <-]].
Qed.

Section facts.
Context `{UD : !UnicodeData, SH : !Sha256, ZS : !Zstd, TR : !Tar, FM : !FixtureModels}.
Implicit Types (host : TryHost) (fx : Fixture).

Lemma evaluate_with_passed (policy : RoundPolicy) lstat run (wp vp prefix patch_path script_dir : pystr)
    (identity : TaskIdentity) (workspace verifier : node) (manifest : VerifierManifest) (answer : bytes)
    (r : EvaluationResult) :
  evaluate_with policy lstat run wp vp prefix patch_path script_dir identity workspace verifier manifest answer = Ok r →
  ev_status r = eval_passed → ∃ result_path, suite_passed lstat run wp result_path vp prefix verifier manifest.
Proof.
  destruct identity as [i|i]; intros Hr Hp; eexists;
    [by eapply repository_suite_passed, evaluate_repository_passed|by eapply terminal_suite_passed, evaluate_terminal_passed].
Qed.

(** The commands that end with exit code zero. *)
Lemma grade_zero host fx (answer_file : result bytes) :
  (∃ out, grade host fx answer_file = Ok (out, 0)) ↔
  ∃ identity refs answer r, load fx = Ok (identity, refs) ∧ answer_file = Ok answer ∧
    zlen answer <= answer_limit identity ∧ th_docker host = true ∧
    try_evaluate host fx identity answer = Ok r ∧ ev_status r = eval_passed.
Proof.
  unfold grade. split.
  - intros (out & ([identity refs] & Hl & (a & (answer & Hf & ->)%fmap_Ok & H1)%bind_Ok)%bind_Ok).
    case_match eqn:Hlim; [done|]. destruct (th_docker host) eqn:Hd; [|done]. cbn [negb] in H1.
    apply bind_Ok in H1 as (r & Hr & [= _ Hx]). apply Z.ltb_ge in Hlim.
    assert (Hpos : 0 <= answer_limit identity) by (by destruct identity).
    assert (Hs : slice_to (answer_limit identity + 1) answer = answer).
    { rewrite slice_to_nonneg in * by lia. apply take_ge. unfold zlen in Hlim. rewrite length_take in Hlim. lia. }
    rewrite Hs in *. exists identity, refs, answer, r. split_and!; try done.
    unfold exit_of in Hx. by destruct (ev_status r).
  - intros (identity & refs & answer & r & Hl & -> & Hlim & Hd & Hr & Hp).
    assert (Hpos : 0 <= answer_limit identity) by (by destruct identity).
    eexists. rewrite Hl. cbn [mbind result_bind fmap result_fmap].
    rewrite slice_to_nonneg, take_ge by (unfold zlen in *; lia).
    rewrite (proj2 (Z.ltb_ge _ _)) by done. rewrite Hd. cbn [negb]. rewrite Hr. cbn [mbind result_bind mret result_ret].
    unfold exit_of. by rewrite Hp.
Qed.
End facts.

(** (refinement): exit code zero of [grade] is a passed suite.  It is the answer to a
    readable fixture, of at most as many bytes as a validator takes, with docker there,
    whose evaluation passed; and behind it every check of the fixture's own manifest
    passed. *)
Theorem grade_verdict `{UD : !UnicodeData, SH : !Sha256, ZS : !Zstd, TR : !Tar, FM : !FixtureModels}
    (host : TryHost) (fx : Fixture) (answer_file : result bytes) :
  ((∃ out, grade host fx answer_file = Ok (out, 0)) ↔
   ∃ identity refs answer r, load fx = Ok (identity, refs) ∧ answer_file = Ok answer ∧
     zlen answer <= answer_limit identity ∧ th_docker host = true ∧
     try_evaluate host fx identity answer = Ok r ∧ ev_status r = eval_passed) ∧
  ((∃ out, grade host fx answer_file = Ok (out, 0)) →
   ∃ verifier manifest workspace_path result_path verifier_path,
     unpacked host fx "verifier" = Ok verifier ∧ (∃ t, load_manifest verifier t = Ok manifest) ∧
     suite_passed (th_lstat host) (th_run host) workspace_path result_path verifier_path (ustr "try-task")
       verifier manifest).
Proof.
  split; [apply grade_zero|].
  intros (identity & refs & answer & r & _ & _ & _ & _ & Hr & Hp)%grade_zero. unfold try_evaluate in Hr.
  apply bind_Ok in Hr as (policy & _ & (ws & _ & (v & Hv & (m & Hm & Hr)%bind_Ok)%bind_Ok)%bind_Ok).
  apply evaluate_with_passed in Hr as [rp Hs]; [|done].
  eexists v, m, _, rp, _. split_and!; [done|by eexists|exact Hs].
Qed.

(** (equivalence): an answer is graded as a validator grades it.  On the same account, with
    any concurrency, the evaluation of a submission in a round is the evaluation of the
    tool under the tool's policy, in the round's paths and container names. *)
Theorem graded_as_validator `{UD : !UnicodeData, SH : !Sha256} (host : TryHost) (dispatch grading : Z)
    (policy : RoundPolicy) (h : RoundHost) (lease : LeaseResponse) (workspace verifier : node)
    (manifest : VerifierManifest) (tag : pystr) (index : nat) (uid : Z) (content : bytes) :
  Release.round_policy RELEASE_POLICY (th_uid host) (th_gid host) (th_docker host) dispatch grading = Ok policy →
  ∃ p, try_policy host = Ok p ∧
    evaluate policy h lease verifier manifest tag index uid workspace content
    = evaluate_with p (host_lstat h index) (host_run h index)
        (below (round_dir h) (ustr "miner-" ++ str_of_int uid)) (below (round_dir h) (ustr "verifier"))
        (ustr "v3-" ++ tag ++ ustr "-" ++ str_of_int uid) (patch_file h index) (script_dir h index)
        (l_identity lease) workspace verifier manifest content.
Proof.
  intros Hp. destruct (release_round_policy (th_uid host) (th_gid host) dispatch grading (th_docker host))
    as (_ & [H1 _] & _). rewrite Hp in H1. destruct (H1 eq_refl) as (Hu & Hg & Hd & _).
  destruct (release_round_policy (th_uid host) (th_gid host) 1 1 (th_docker host)) as (_ & [_ H2] & _).
  destruct (proj1 (is_ok_true _) (H2 ltac:(split_and!; [done..|lia|lia]))) as [p Hp'].
  exists p. split; [exact Hp'|].
  apply policy_limits in Hp as (Ht & Hpa & Hs), Hp' as (Ht' & Hpa' & Hs').
  unfold evaluate, evaluate_with. by destruct (l_identity lease); rewrite Ht, Ht', ?Hpa, ?Hpa', ?Hs, ?Hs'.
Qed.

(** (safety): [extract] never overwrites: what is at the destination stays as it is and the
    exit code is two.  With exit code zero the destination was free and has the tree of
    the fixture's workspace. *)
Theorem extract_keeps `{UD : !UnicodeData, SH : !Sha256, ZS : !Zstd, TR : !Tar, PR : !PyRepr, FM : !FixtureModels}
    (host : TryHost) (fx : Fixture) (destination : pystr) (there kept : option node)
    (out : result (list line * Z)) :
  extract host fx destination there = (kept, out) →
  (is_Some there → kept = there ∧ ∃ lines, out = Ok (lines, 2)) ∧
  ((∃ lines, out = Ok (lines, 0)) → there = None ∧ kept = result_to_option (unpacked host fx "workspace")).
Proof.
  unfold extract, unpacked. destruct there as [n|].
  { intros [= <- <-]. split; [by eauto|]. by intros (lines & [= _ Hx]). }
  destruct (load fx) as [[identity refs]|e]; [|intros [= <- <-]; split; [by intros []|by intros (? & ?)]].
  destruct (unpack host fx "workspace") as [k o]. intros [= <- <-]. split; [by intros []|].
  intros (lines & Ho). split; [done|]. destruct o as [[]|]; [|done]. by destruct k.
Qed.

(** (safety): the service never gets the address of a retired server, and a change of
    the settings is announced: it gets the settings that were read, or [run_validator]
    printed which address it left. *)
Theorem validator_runs `{FR : !FloatRepr, SH : !Sha256, GF : !GeneralFormat} (read : Settings) (environ : gset pystr)
    (env_file : result pystr) (lines : list line) (s : Settings) :
  run_validator read environ env_file = Ok (lines, s) → problem_server_url read ≠ [] →
  problem_server_url s ≠ [] ∧ (rstrip_slash (problem_server_url s) ∉ LEGACY_PROBLEM_SERVER_URLS) ∧
  (s = read ∨
   Out (ustr "[validator] NOTE: PROBLEM_SERVER_URL=" ++ problem_server_url read
        ++ ustr " is the previous release's server; using the current default instead. Remove it from .env.") ∈ lines).
Proof.
  unfold run_validator. intros (s' & Hs & [Hu%bool_decide_eq_false (p & _ & [= <- <-])%bind_Ok]%guard_Ok)%bind_Ok Hne.
  apply settings_settle in Hs as (_ & _ & Hl & Hmoved). split_and!; [done|done|].
  destruct Hmoved as [->|[_ ->]]; [by left|right]. apply elem_of_app. right. right. apply elem_of_app. left.
  unfold migrated_line. cbn [with_server problem_server_url_migrated_from].
  destruct (problem_server_url read); [done|]. by left.
Qed.

(** ** Witnesses: the terminal task of [EvaluateRoundSpec] as a fixture *)

Definition sample_models : FixtureModels :=
  {| repository_identity := λ _, raise ValidationError "";
     terminal_identity := λ _, match round_identity with TerminalTask i => Ok i | _ => raise ValidationError "" end;
     artifact_ref := λ _, Ok (l_verifier round_lease) |}.

(** JSON with [']  for the double quote. *)
Definition json_string (s : string) : pystr := map (λ c, if (c =? 39)%N then 34%N else c) (ustr s).

Definition sample_fixture : Fixture :=
  {| fx_path := ustr "fixture"; fx_identity := Ok (json_string "{'task_type': 'terminal_script_v1'}");
     fx_refs := Ok (json_string "{'workspace': {}, 'verifier': {}}");
     fx_archive := λ name, if bool_decide (name = ustr "workspace") then Some (bstr "w") else Some (bstr "v") |}.

Definition sample_host : TryHost :=
  {| th_uid := 1000; th_gid := 1000; th_docker := true; th_umask := 18; th_root := ustr "/tmp/hone-grade-1";
     th_lstat := host_lstat (round_host ∅) 0; th_run := host_run (round_host ∅) 0;
     th_patch_file := ustr "/tmp/p"; th_script_dir := ustr "/tmp/s" |}.

Abbreviation sample_grade :=
  (grade (H := ascii_unicode) (H0 := sha_const) (H1 := store_zstd) (H2 := round_tar) (H4 := sample_models)
     sample_host sample_fixture).

Lemma grade_verdict_witness :
  sample_grade (Ok (bstr "ls")) = Ok ([Out (ustr "status: passed"); Out (ustr "  c1: passed")], 0) ∧
  (∃ answer, Ok (bstr "ls") = Ok answer ∧ zlen (A := ascii) answer <= 1048576).
Proof.
  split; [vm_compute; reflexivity|].
  destruct (proj1 (proj1 (grade_verdict (UD := ascii_unicode) (SH := sha_const) (ZS := store_zstd) (TR := round_tar)
    (FM := sample_models) sample_host sample_fixture (Ok (bstr "ls")))))
    as (i & refs & answer & r & _ & Ha & Hl & _).
  - eexists. vm_compute. reflexivity.
  - exists answer. split; [exact Ha|]. injection Ha as <-. vm_compute. discriminate.
Defined.

Example grade_other_codes :
  snd <$> sample_grade (raise OSError "no such file") = raise OSError "no such file" ∧
  snd <$> grade (H := ascii_unicode) (H0 := sha_const) (H1 := store_zstd) (H2 := round_tar)
    (H4 := sample_models) {| th_uid := 1000; th_gid := 1000; th_docker := false; th_umask := 18; th_root := [];
       th_lstat := th_lstat sample_host; th_run := th_run sample_host; th_patch_file := []; th_script_dir := [] |}
    sample_fixture (Ok (bstr "ls")) = Ok 2.
Proof. split; vm_compute; reflexivity. Qed.
